(* ===== verification/_CoqProject ===== *)
-Q . S2P
Prelude.v
Framing.v
Json.v
Errors.v
Identifiers.v
InvitationCode.v
Protocol.v
Schema.v
Samples.v
AuditLog.v
RouterPolicy.v
Commands.v
Security.v
Authority.v
Observations.v
Inventory.v
Keys.v
Onboarding.v
Enrollment.v
Publications.v
Retirement.v
ManagedWork.v
Dispatch.v
Fleet.v
FleetPolicy.v
AccessControl.v
DataTls.v
Supervisor.v
RouterLife.v
Management.v
AuthorityVersion.v
System.v
ServerErrors.v
AdmissionController.v
EndToEnd.v
PayloadProtection.v
DispatchSigner.v
ManagedGateway.v
GatewayConfig.v
EnrollmentService.v
GatewayLife.v
GatewayDemo.v
Negotiation.v
Identity.v
HttpApi.v
HttpDemo.v
WebFunctions.v
ZenohRuntime.v
Readiness.v
Application.v
Startup.v
HttpMetadata.v
RestService.v
AgentModel.v
AgentClient.v
DeviceSetup.v
AgentRuntime.v
DeviceCenter.v
Settings.v
ZenohSession.v
OpenBao.v
AuthoritySigning.v
Transport.v
Establishment.v
RouterClient.v
