(* ===== verification/Prelude.v ===== *)
(** * Inari: a verification library of the Controller, its Routers and Device Center

    Inari lets business software print and weigh on devices behind Agents.  A Controller ([crates/inari-server] over
    [crates/inari-gateway]) keeps the fleet in PostgreSQL, enrolls Agents by invitation, and sends them commands and
    encrypted documents (Managed Work) over Zenoh.  Zenoh Routers, each under a Supervisor ([crates/inari-router]), admit
    exactly the Agents of the policy that the Controller signs.  Operators use web pages and an HTTP API; on the computer of
    an Agent, Device Center ([crates/inari-device-center] over [crates/inari-agent-client]) enrolls it and shows its state.
    This library models these parts and proves what makes them correct.  Nothing is assumed: third-party functions are methods of type classes, what is relied on of them is a
    [...Spec] class, and every theorem that uses one has a witness with concrete functions.

    ** Parts and files

    Foundations.
    - [Prelude]: records with update, the result and transaction monads ([tx] rolls back on an error, [Repo] is a
      committed transaction or query), the relations [Steps], [Always], [Keeps], [Frame] on them with the tactic [steps]
      and its hint database, text, bytes and machine integers.
    - [Framing] (length-prefixed hashing), [Json] (values, RFC 8785 and RFC 3339 as classes), [Errors], [Identifiers],
      [InvitationCode], [Protocol]: the types of [inari-gateway/src/protocol], [error.rs], [identity.rs], [onboarding/code.rs].

    The repository, [inari-gateway/src/persistence] over the schema of [inari-migration].
    - [Schema]: one record per entity, the database as finite maps, keys, checks and triggers, one definition per
      statement.  [Samples]: a small database.
    - [AuditLog], [RouterPolicy], [Commands], [Observations], [Inventory], [Onboarding], [Enrollment], [Publications],
      [Retirement], [ManagedWork], [Fleet]: one file of the directory each, every method whole, with its guards in
      order.  [Keys], [AuthorityVersion] and [Dispatch] hold the invariants that span them; [Security]
      is [security.rs] and [security/state_envelopes.rs], [Authority] is [device_authority/].
    - [System]: all operations as one transition system over the database, its invariants and its laws of change.

    Routers, [inari-router/src].
    - [FleetPolicy] ([policy.rs]), [AccessControl] ([acl.rs]), [DataTls] ([tls.rs]), [Supervisor] ([supervisor.rs],
      [store.rs]), [Management] ([management.rs]); [RouterLife] has the executions of a Router over boots, ticks,
      policies and shutdowns.

    The Controller's service, [inari-server/src].
    - [ServerErrors] ([error.rs]), [AdmissionController] ([managed_gateway/router_policy.rs]) with its client of the Routers
      [RouterClient], [PayloadProtection]
      ([payload.rs]), [DispatchSigner] ([dispatch.rs]), [ManagedGateway] ([mod.rs], [store.rs], [managed_work.rs],
      [jobs.rs], [keyspace.rs], handlers of [runtime.rs]), [GatewayConfig] ([config/managed_gateway.rs],
      [config/openbao.rs]), [EnrollmentService] ([enrollment.rs], [certificate.rs], [fleet.rs]).
    - [EndToEnd]: repository, admission controller and Routers together.  [GatewayLife]: the service over time.
      [GatewayDemo]: a concrete service, for the witnesses.
    - [ZenohRuntime] ([zenoh/supervisor], [command.rs], [status.rs], [handle.rs]), [Readiness] ([state.rs], [system.rs] and
      the status page), [Application] ([coordination/], [shutdown.rs], task supervision of [app.rs]), [Startup]
      ([app.rs], [database.rs]): the process around the service.
    - [Settings] ([config.rs], [config/]: every section, its validation, the layers and their origins), [ZenohSession]
      ([zenoh/session/lifecycle.rs], [zenoh/access.rs], [time/deadline.rs]), [OpenBao] ([openbao/client.rs]) and
      [AuthoritySigning] ([openbao/signing.rs], [device_authority.rs]: signing a bundle offline).

    The Controller's interfaces, [inari-server/src/http], [inari-server/src/zenoh/rest] and [inari-web/src].
    - [Identity] (sessions, OIDC, workload tokens), [HttpApi] (every route of the API with its extractors, permissions,
      operation and audit event), [HttpDemo] (a concrete API), [WebFunctions] (the functions behind the pages).
    - [Negotiation] ([negotiation.rs]), [HttpMetadata] ([metadata.rs], [headers.rs]), [RestService] (selectors, query
      options, handlers and the routes of [api/zenoh.rs]): direct access to Zenoh over HTTP.

    The transport below, [patches/zenoh-transport/src], which the repository builds in place of Zenoh's own.
    - [Transport] ([common/seq_num.rs], [common/defragmentation.rs], [common/priority.rs], [unicast/universal/rx.rs] and the
      fragmentation of [common/pipeline.rs]), [Establishment] ([unicast/establishment/]: [open.rs], [accept.rs], [cookie.rs],
      [mod.rs] and the extensions but authentication, multilink and shared memory).

    Device Center.
    - [AgentModel] ([inari-agent-client/src]: [model.rs], [error.rs], [events.rs], [print_jobs.rs], [client_pairing.rs],
      [local_transport.rs]), [AgentClient] ([client.rs], [identity.rs], [pairing.rs]), [AgentRuntime]
      ([inari-device-center/src/infrastructure/runtime.rs] and [inari-agent-client/src/service.rs]).
    - [DeviceSetup] ([infrastructure/setup.rs], [onboarding.rs] and what [features/setup.rs] offers), [DeviceCenter]
      ([app.rs], [app/], [features/client_pairing.rs], labels of [infrastructure/tray.rs]).

    ** What is proved

    - From end to end: an admission means that every Router of the fleet enforces one policy for exactly the active
      Agents, whatever other requests and Controllers commit in the meantime ([EndToEnd]); a submitted document reaches its Agent, which obtains exactly what was submitted
      ([GatewayLife.submitted_work_reaches_its_agent]).
    - Refinement: along every execution a Supervisor refines an abstract policy guard that never goes back
      ([RouterLife.supervisor_refines_policy_guard]).  Submission and dispatch of a document change the database only by
      repository steps, so the invariants of [System] hold over them ([GatewayLife]).
    - Invariants of every reachable database: consistent Managed Work and payloads, queue limits, gap-free command
      numbers, forward-only invitations and work, append-only records, final key retirement and revocation ([System]),
      stored work whose identifiers, numbers and contents parse at their types ([GatewayLife.stored_work_is_well_typed]).
    - Outcomes of the operations on every branch: enrollment, admission of work, queueing, expiry, inventory projection,
      the attempt limit, the enrollment response and its certificate token.
    - Routers: isolation of Agents, no rollback, what runs is what is stored, truthful readiness, expiry stops the process,
      termination in every environment and progress in a healthy one, management only by the Controller.
    - Interfaces: the API changes the database only for who may ask for it; workloads see their own work ([HttpApi]); a
      session holds only identities of completed logins, with requests that load it at any of its versions
      ([Identity]); operators alone
      manage invitations ([WebFunctions]); direct access to Zenoh needs the role for its key and operation
      ([RestService]); the chosen representation is the best one by a reference reading of the [Accept] headers
      ([Negotiation]); what is written over HTTP with a type that Zenoh knows is read back ([HttpMetadata]).
    - The process: the Zenoh status and session that settle are truthful and [/readyz] is, every command is answered, a
      shutdown ends supervision within its grace and the time that aborted tasks take to yield, and what starts is what the configuration asks for ([ZenohRuntime], [Readiness],
      [Application], [Startup]).
    - Settings and secrets: only safe settings load, from the layers they report, and the report of origins is complete
      ([Settings]); a session of an embedded router lets no Agent act as the Controller ([ZenohSession]); OpenBao is asked
      only under a current token ([OpenBao]), and a policy travels only under the credentials on disk ([RouterClient]); a signed authority is stored only as it was approved ([AuthoritySigning]).
    - Transport: a fragmented message arrives whole, whatever the sizes of its fragments and wherever numbers wrap; a channel
      delivers only whole messages, whatever a link does ([Transport]); both ends of a handshake end with the same transport,
      within what both allow, and compatible peers connect ([Establishment]).
    - Device Center: an identity survives the vault and is remembered once it was read ([AgentClient]); the enrollment window hands over only when it may, never strands the operator and
      never waits for ever ([DeviceSetup]); the operations window and the tray show what the runtime published, and a
      browser is approved only by a decision about what was reviewed ([DeviceCenter]); a restart of the service stops it,
      sees it stopped and starts it once ([AgentRuntime]).
    - Signatures and texts: what a verified bundle, policy, observation or identity proves, what a signature and a
      fingerprint cover, the round trip of invitation codes.

    ** How the code is read

    - A clock read, entropy and the answer of a network peer are arguments, in records named after the call; the
      Supervisor's environment answers the n-th question it is asked.  Times are nanoseconds; a stored time is
      truncated to microseconds.  Overflow of [chrono] arithmetic is outside the model; integers that the code converts
      between widths are checked where it does.
    - A transaction is atomic and transactions run one after the other; the code makes them so with row locks and unique
      constraints, which are not modelled as locks.  Between the transactions of one admission anything else may be
      committed ([AdmissionController.Others]); the other requests of the service are one step each.  A crash is a failed write followed by a new boot.  A sequence number that a rolled back insertion used is given back, which
      PostgreSQL does not do; no property depends on it.
    - Closures the code passes (policy builder, payload sealer, response builder) are arguments of the operation and are
      instantiated by the caller's definitions.  JSON text, HTTP, Zenoh, TLS and cryptography are third-party.
    - The order in which PostgreSQL returns rows without [ORDER BY] is the class [ScanOrder]; text order is [Collation].

    ** Bounds and fuel

    Loops without a structural measure have fuel.  [Supervisor.wait_ready] has [WAIT_FUEL] = 102: each attempt
    sleeps 100 ms and the loop ends after [START_TIMEOUT] = 10 s, so the fuel is never used up when the clock does not go
    back ([RouterLife.supervisor_terminates]).  [DeviceSetup.follow] reads once per interval until its timeout, at most
    timeout / interval + 2 turns ([follow_loop_ends]), and [AgentRuntime.wait_for_state] looks every 100 ms for 30 s
    ([wait_loop_returns]), however slow each answer is.  [RestService.trim_start_matches] has one more than the length of
    its text, of which each turn removes a part.  [Transport.fragment_loop] has the length of the message, of which every
    fragment takes a byte at least.  Other constants are the code's: 256 payloads per expiry, 2000 rows of an
    inventory, 32 pending works and 64 MiB per Agent, 256 and 512 MiB per Organization.

    ** Not modelled

    - Observability and the command line; the session loops of [runtime.rs], which are represented by their handlers, in any
      order.  How the [config] crate merges layers is a parameter.
    - Interleaving and cancellation of the operations of [AgentClient].
    - Rendering: server-side pages, HTML, JSON and event streams of replies, and the layout, motion and effects of Device
      Center with its development tools.  The device directory of Device Center and the Windows named pipe.
    - How a Router answers is an argument of the admission controller, and [EndToEnd] instantiates it with the modelled
      Routers.  The process entry points.
    - Data conversions inside migrations; the session table.
    - [SupervisorHandle]'s bounded queue, which only delays or refuses a command, and the non-unix branch of stopping a
      process.
    - The Leptos components of the web pages and the web frontend.
    - The rest of the patched Zenoh crates: managers with their tables of transports and links, queues of batches with their
      timing, tasks and timers, multicast, and the extensions for authentication, multilink and shared memory, of which the
      first two are arguments with the operations of their traits.  [unicast/universal/reliability.rs] is in no module.
*)
From Stdlib Require Export ZArith Ascii String Lia.
From stdpp Require Export sorting.
From stdpp Require Export base decidable option list gmap strings sets pretty tactics.

Declare Scope inari_scope.
Delimit Scope inari_scope with inari.
#[global] Open Scope inari_scope.
#[global] Open Scope string_scope.
#[global] Open Scope Z_scope.

(** ** Record update

    [r <| f := v |>] is the record [r] with its column [f] replaced.  A record
    type opts in with an [Eta] instance that rebuilds a value from its
    projections; the updater itself is found by [solve_update]. *)
Class Eta (R : Type) := eta : R -> R.
Class Update {R T : Type} (f : R -> T) := update : T -> R -> R.
Arguments update {_ _} _ {_} _ _ /.

Ltac solve_update :=
  lazymatch goal with
  | |- @Update ?R ?T ?f =>
      let v := fresh "v" in let r := fresh "r" in
      refine (fun (v : T) (r : R) => _);
      let t := eval hnf in (@eta R _ r) in
      lazymatch eval pattern (f r) in t with
      | ?g _ => let u := eval cbv beta in (g v) in exact u
      end
  end.

#[global] Hint Extern 1 (Update _) => solve_update : typeclass_instances.

#[warnings="-postfix-notation-not-level-1"]
Notation "r <| f := v |>" := (update f v r)
  (at level 12, left associativity, f at next level,
   format "r  <|  f  :=  v  |>") : inari_scope.

(** ** Results

    Rust's [Result]; the error type comes first so that [result E] is a monad. *)
Inductive result (E A : Type) : Type :=
| Ok (a : A)
| Err (e : E).
Arguments Ok {_ _} _.
Arguments Err {_ _} _.

#[global] Instance result_ret E : MRet (result E) := fun _ a => Ok a.
#[global] Instance result_bind E : MBind (result E) :=
  fun _ _ f r => match r with Ok a => f a | Err e => Err e end.
#[global] Instance result_fmap E : FMap (result E) :=
  fun _ _ f r => match r with Ok a => Ok (f a) | Err e => Err e end.
#[global] Instance result_eq_dec `{EqDecision E, EqDecision A} : EqDecision (result E A).
Proof. solve_decision. Defined.

Definition ok_or {E A} (o : option A) (e : E) : result E A :=
  match o with Some a => Ok a | None => Err e end.
Definition ensure {E} (b : bool) (e : E) : result E unit :=
  if b then Ok tt else Err e.
Definition is_ok {E A} (r : result E A) : bool :=
  match r with Ok _ => true | Err _ => false end.

(** [iter().map(f).collect::<Result<Vec<_>, _>>()]: the first error wins. *)
Fixpoint collect {E A B} (f : A -> result E B) (l : list A) : result E (list B) :=
  match l with
  | [] => Ok []
  | a :: l' => match f a with
               | Err e => Err e
               | Ok b => match collect f l' with
                         | Err e => Err e
                         | Ok bs => Ok (b :: bs)
                         end
               end
  end.

Lemma Ok_inj {E A} (a b : A) : @Ok E A a = Ok b -> a = b.
Proof. congruence. Qed.
Lemma bind_Ok {E A B} (r : result E A) (f : A -> result E B) b :
  r ≫= f = Ok b <-> exists a, r = Ok a /\ f a = Ok b.
Proof. destruct r; simpl; naive_solver. Qed.
Lemma ok_or_Ok {E A} (o : option A) (e : E) a : ok_or o e = Ok a <-> o = Some a.
Proof. destruct o; simpl; naive_solver. Qed.
Lemma ensure_Ok {E} b (e : E) u : ensure b e = Ok u <-> b = true.
Proof. destruct b, u; simpl; naive_solver. Qed.

Lemma ensure_bind_Ok {E B} b (e : E) (k : unit -> result E B) r :
  (ensure b e ≫= k) = Ok r <-> b = true /\ k tt = Ok r.
Proof. destruct b; simpl; naive_solver. Qed.
Lemma ok_or_bind_Ok {E A B} (o : option A) (e : E) (k : A -> result E B) r :
  (ok_or o e ≫= k) = Ok r <-> exists a, o = Some a /\ k a = Ok r.
Proof. destruct o; simpl; naive_solver. Qed.

(** [res_inv H] decomposes a success [H : r = Ok a] of chained results. *)
Ltac res_step H :=
  lazymatch type of H with
  | mbind _ (ensure _ _) = Ok _ =>
      let H1 := fresh "Hok" in apply ensure_bind_Ok in H; destruct H as [H1 H]; cbv beta zeta in H; res_step H
  | mbind _ (ok_or _ _) = Ok _ =>
      let a := fresh "a" in let H1 := fresh "Hok" in
      apply ok_or_bind_Ok in H; destruct H as (a & H1 & H); cbv beta zeta in H; res_step H
  | mbind _ _ = Ok _ =>
      let a := fresh "a" in let H1 := fresh "Hok" in
      apply bind_Ok in H; destruct H as (a & H1 & H); cbv beta zeta in H; res_step H1; res_step H
  | ensure _ _ = Ok _ => apply ensure_Ok in H
  | ok_or _ _ = Ok _ => apply ok_or_Ok in H
  | Ok _ = Ok _ => injection H as H; try subst
  | Err _ = Ok _ => discriminate H
  | (if ?b then _ else _) = Ok _ => let Hb := fresh "Hb" in destruct b eqn:Hb; res_step H
  | _ => idtac
  end.
Tactic Notation "res_inv" hyp(H) := res_step H.

Lemma collect_Ok {E A B} (f : A -> result E B) l bs :
  collect f l = Ok bs <-> Forall2 (fun a b => f a = Ok b) l bs.
Proof.
  revert bs; induction l as [|a l IH]; intros bs; simpl.
  - split; [intros [= <-]; constructor | intros H; by inversion H].
  - destruct (f a) as [b|e] eqn:Ef; [|split; [done|intros H; inversion H; congruence]].
    destruct (collect f l) as [bs'|e] eqn:Ec.
    + split.
      * intros [= <-]. constructor; [done|]. by apply IH.
      * intros H; inversion H as [|? b' ? bs'' Hb Hbs]; subst.
        apply IH in Hbs. congruence.
    + split; [done|]. intros H; inversion H as [|? b' ? bs'' Hb Hbs]; subst.
      apply IH in Hbs. congruence.
Qed.

(** ** Transactions

    [tx S E A] is a computation inside one database transaction over the state
    [S]: an error discards every change.  [repo S E A] is a repository method:
    the state it leaves behind survives the error it reports.  [transaction]
    runs the former as the latter, rolling back on an error. *)
Definition tx (S E A : Type) : Type := S -> result E (A * S).
Definition repo (S E A : Type) : Type := S -> result E A * S.

#[global] Instance tx_ret S E : MRet (tx S E) := fun _ a s => Ok (a, s).
#[global] Instance tx_bind S E : MBind (tx S E) :=
  fun _ _ f m s => match m s with Ok (a, s') => f a s' | Err e => Err e end.
#[global] Instance repo_ret S E : MRet (repo S E) := fun _ a s => (Ok a, s).
#[global] Instance repo_bind S E : MBind (repo S E) :=
  fun _ _ f m s => match m s with
                   | (Ok a, s') => f a s'
                   | (Err e, s') => (Err e, s')
                   end.

Section Transactions.
Context {S E : Type}.

Definition get : tx S E S := fun s => Ok (s, s).
Definition gets {A} (f : S -> A) : tx S E A := fun s => Ok (f s, s).
Definition modify (f : S -> S) : tx S E unit := fun s => Ok (tt, f s).
Definition throw {A} (e : E) : tx S E A := fun _ => Err e.
Definition lift {A} (r : result E A) : tx S E A :=
  fun s => match r with Ok a => Ok (a, s) | Err e => Err e end.
Definition require (b : bool) (e : E) : tx S E unit := lift (ensure b e).
Definition expect {A} (o : option A) (e : E) : tx S E A := lift (ok_or o e).

Fixpoint each {A} (f : A -> tx S E unit) (l : list A) : tx S E unit :=
  match l with
  | [] => mret tt
  | a :: l' => f a ≫= fun _ => each f l'
  end.

Definition transaction {A} (m : tx S E A) : repo S E A :=
  fun s => match m s with Ok (a, s') => (Ok a, s') | Err e => (Err e, s) end.
(** A statement executed directly on the connection, outside a transaction. *)
Definition returns {A} (r : result E A) : repo S E A := fun s => (r, s).
(** A query executed directly on the connection. *)
Definition queries {A} (f : S -> result E A) : repo S E A := fun s => (f s, s).

Lemma tx_bind_Ok {A B} (m : tx S E A) (f : A -> tx S E B) s b s2 :
  (m ≫= f) s = Ok (b, s2) <-> exists a s1, m s = Ok (a, s1) /\ f a s1 = Ok (b, s2).
Proof.
  unfold mbind, tx_bind. destruct (m s) as [[a s1]|e]; naive_solver.
Qed.
Lemma tx_ret_Ok {A} (a b : A) s s2 : (mret a : tx S E A) s = Ok (b, s2) <-> b = a /\ s2 = s.
Proof. unfold mret, tx_ret; naive_solver. Qed.
Lemma get_Ok s a s2 : get s = Ok (a, s2) <-> a = s /\ s2 = s.
Proof. unfold get; naive_solver. Qed.
Lemma gets_Ok {A} (f : S -> A) s a s2 : gets f s = Ok (a, s2) <-> a = f s /\ s2 = s.
Proof. unfold gets; naive_solver. Qed.
Lemma modify_Ok (f : S -> S) s a s2 : modify f s = Ok (a, s2) <-> a = tt /\ s2 = f s.
Proof. unfold modify; destruct a; naive_solver. Qed.
Lemma throw_Ok {A} (e : E) s (a : A) s2 : throw e s = Ok (a, s2) <-> False.
Proof. unfold throw; naive_solver. Qed.
Lemma lift_Ok {A} (r : result E A) s a s2 : lift r s = Ok (a, s2) <-> r = Ok a /\ s2 = s.
Proof. unfold lift; destruct r; naive_solver. Qed.
Lemma require_Ok b (e : E) s a s2 : require b e s = Ok (a, s2) <-> b = true /\ s2 = s.
Proof. unfold require. rewrite lift_Ok, ensure_Ok. done. Qed.
Lemma expect_Ok {A} (o : option A) (e : E) s a s2 :
  expect o e s = Ok (a, s2) <-> o = Some a /\ s2 = s.
Proof. unfold expect. rewrite lift_Ok, ok_or_Ok. done. Qed.

(** An invariant of the loop body is an invariant of the loop. *)
Lemma each_ind {A} (I : S -> Prop) (f : A -> tx S E unit) l s u s2 :
  (forall a s u s', a ∈ l -> I s -> f a s = Ok (u, s') -> I s') ->
  I s -> each f l s = Ok (u, s2) -> I s2.
Proof.
  revert s; induction l as [|a l IH]; intros s Hstep Hs; simpl.
  - intros [_ ->]%tx_ret_Ok. done.
  - intros (u1 & s1 & H1 & H2)%tx_bind_Ok.
    eapply IH; [|eapply Hstep; [|exact Hs|exact H1]; set_solver|exact H2].
    intros; eapply Hstep; set_solver.
Qed.

(** What a transaction leaves behind: its effect on success, and the state it
    started from on an error. *)
Lemma transaction_inv {A} (m : tx S E A) s r s' :
  transaction m s = (r, s') ->
  (exists a, r = Ok a /\ m s = Ok (a, s')) \/ (exists e, r = Err e /\ s' = s).
Proof. unfold transaction. destruct (m s) as [[a s1]|e]; naive_solver. Qed.
Lemma transaction_Ok {A} (m : tx S E A) s a s' :
  transaction m s = (Ok a, s') <-> m s = Ok (a, s').
Proof. unfold transaction. destruct (m s) as [[b s1]|e]; naive_solver. Qed.
End Transactions.

Lemma repo_bind_inv {S E A B} (m : repo S E A) (f : A -> repo S E B) s r s2 :
  (m ≫= f) s = (r, s2) ->
  (exists a s1, m s = (Ok a, s1) /\ f a s1 = (r, s2)) \/
  (exists e, m s = (Err e, s2) /\ r = Err e).
Proof. unfold mbind, repo_bind. destruct (m s) as [[a|e] s1]; naive_solver. Qed.
(** A step that begins with a check. *)
Lemma repo_guard {S E A B} (r : result E A) (f : A -> repo S E B) s x s' : (returns r ≫= f) s = (x, s') ->
  (s' = s /\ exists e, r = Err e /\ x = Err e) \/ exists a, r = Ok a /\ f a s = (x, s').
Proof. unfold mbind, repo_bind, returns. destruct r as [a|e]; [right; eauto|left]. naive_solver. Qed.
Ltac peel H a E := apply repo_guard in H as [[-> _]|(a & E & H)]; [by left|].

(** [tx_inv H] decomposes a successful run [H : m s = Ok (a, s')] into the runs
    of its statements. *)
Ltac tx_step H :=
  lazymatch type of H with
  | (mbind _ _) _ = Ok _ =>
      let a := fresh "a" in let s := fresh "s" in
      let H1 := fresh "Hrun" in
      apply tx_bind_Ok in H; destruct H as (a & s & H1 & H); cbv beta in H; tx_step H1; tx_step H
  | (mret _) _ = Ok _ => apply tx_ret_Ok in H; destruct H as [? ?]; subst
  | get _ = Ok _ => apply get_Ok in H; destruct H as [? ?]; subst
  | gets _ _ = Ok _ => apply gets_Ok in H; destruct H as [? ?]; subst
  | modify _ _ = Ok _ => apply modify_Ok in H; destruct H as [? ?]; subst
  | throw _ _ = Ok _ => apply throw_Ok in H; destruct H
  | require _ _ _ = Ok _ => apply require_Ok in H; destruct H as [H ?]; subst
  | expect _ _ _ = Ok _ => apply expect_Ok in H; destruct H as [H ?]; subst
  | lift _ _ = Ok _ => apply lift_Ok in H; destruct H as [H ?]; subst
  | (if ?b then _ else _) _ = Ok _ =>
      let Hb := fresh "Hb" in destruct b eqn:Hb; tx_step H
  | (match ?o with Some _ => _ | None => _ end) _ = Ok _ =>
      let Ho := fresh "Ho" in destruct o eqn:Ho; tx_step H
  | _ => idtac
  end.
Tactic Notation "tx_inv" hyp(H) := tx_step H; simplify_eq/=.

(** *** What every successful run of a transaction does to the state

    [Steps R m]: a successful run of [m] relates the state it starts from and the state
    it leaves by the preorder [R].  A statement that reads only, a column left alone
    (a frame), an invariant and a monotone counter are all such relations, so one set of
    composition rules serves them; [steps] applies the rules and leaves the statements
    that write. *)
Class Steps {S E A} (R : S -> S -> Prop) (m : tx S E A) : Prop :=
  steps_run : forall s a s', m s = Ok (a, s') -> R s s'.

Section Steps.
Context {S E : Type} (R : S -> S -> Prop) `{!PreOrder R}.

Lemma steps_bind {A B} (m : tx S E A) (f : A -> tx S E B) :
  Steps R m -> (forall a, Steps R (f a)) -> Steps R (m ≫= f).
Proof.
  intros Hm Hf s b s2 (a & s1 & H1 & H2)%tx_bind_Ok.
  etrans; [exact (Hm _ _ _ H1) | exact (Hf _ _ _ _ H2)].
Qed.
Lemma steps_ret {A} (a : A) : Steps (E:=E) R (mret a).
Proof. intros s b s2 [_ ->]%tx_ret_Ok. reflexivity. Qed.
Lemma steps_get : Steps (E:=E) R get.
Proof. intros s b s2 [_ ->]%get_Ok. reflexivity. Qed.
Lemma steps_gets {A} (f : S -> A) : Steps (E:=E) R (gets f).
Proof. intros s b s2 [_ ->]%gets_Ok. reflexivity. Qed.
Lemma steps_throw {A} (e : E) : Steps R (throw (A:=A) e).
Proof. intros s b s2 []%throw_Ok. Qed.
Lemma steps_lift {A} (r : result E A) : Steps R (lift r).
Proof. intros s b s2 [_ ->]%lift_Ok. reflexivity. Qed.
Lemma steps_require b (e : E) : Steps R (require b e).
Proof. apply steps_lift. Qed.
Lemma steps_expect {A} (o : option A) (e : E) : Steps R (expect o e).
Proof. apply steps_lift. Qed.
Lemma steps_modify (f : S -> S) : (forall s, R s (f s)) -> Steps (E:=E) R (modify f).
Proof. intros Hf s b s2 [_ ->]%modify_Ok. apply Hf. Qed.
Lemma steps_each {A} (f : A -> tx S E unit) l : (forall a, Steps R (f a)) -> Steps R (each f l).
Proof.
  intros Hf. induction l as [|a l IH]; simpl; [apply steps_ret|].
  apply steps_bind; [apply Hf|]. intros _. exact IH.
Qed.
Lemma steps_transaction {A} (m : tx S E A) s r s' :
  Steps R m -> transaction m s = (r, s') -> R s s'.
Proof.
  intros Hm [(a & _ & H) | (e & _ & ->)]%transaction_inv; [exact (Hm _ _ _ H)|reflexivity].
Qed.
End Steps.

(** The same for a repository method, whose effects outlive the error it reports. *)
Class Always {S E A} (R : S -> S -> Prop) (m : repo S E A) : Prop :=
  always_run : forall s r s', m s = (r, s') -> R s s'.

Section Always.
Context {S E : Type} (R : S -> S -> Prop) `{!PreOrder R}.

Lemma always_transaction {A} (m : tx S E A) : Steps R m -> Always R (transaction m).
Proof. intros Hm s r s' H. by eapply steps_transaction. Qed.
Lemma always_bind {A B} (m : repo S E A) (f : A -> repo S E B) :
  Always R m -> (forall a, Always R (f a)) -> Always R (m ≫= f).
Proof.
  intros Hm Hf s r s2 [(a & s1 & H1 & H2)|(e & H1 & _)]%repo_bind_inv; [|by apply (Hm _ _ _ H1)].
  etrans; [exact (Hm _ _ _ H1) | exact (Hf _ _ _ _ H2)].
Qed.
Lemma always_ret {A} (a : A) : Always (E:=E) R (mret a).
Proof. intros s r s' [= _ <-]. reflexivity. Qed.
Lemma always_returns {A} (r : result E A) : Always R (returns r).
Proof. intros s r' s' [= _ <-]. reflexivity. Qed.
Lemma always_queries {A} (f : S -> result E A) : Always R (queries f).
Proof. intros s r' s' [= _ <-]. reflexivity. Qed.
End Always.

Create HintDb steps.
#[export] Hint Resolve steps_ret steps_get steps_gets steps_throw steps_lift steps_require
  steps_expect : steps.
#[export] Hint Extern 0 (PreOrder _) => typeclasses eauto : steps.

Ltac steps :=
  repeat (cbv zeta beta;
  lazymatch goal with
  | |- forall _, _ => intros ?
  | |- Steps _ (mbind _ _) => apply steps_bind; [try typeclasses eauto with typeclass_instances nocore| |]
  | |- Steps _ (each _ _) => apply steps_each; [try typeclasses eauto with typeclass_instances nocore|]
  | |- Steps _ (if ?b then _ else _) => destruct b eqn:?
  | |- Steps _ (match ?o with _ => _ end) => destruct o eqn:?
  | |- Steps _ _ => solve [eauto 3 with steps typeclass_instances nocore]
  | |- Always _ (mbind _ _) => apply always_bind; [try typeclasses eauto with typeclass_instances nocore| |]
  | |- Always _ (transaction _) => apply always_transaction; [try typeclasses eauto with typeclass_instances nocore|]
  | |- Always _ (returns _) => apply always_returns; try typeclasses eauto with typeclass_instances nocore
  | |- Always _ (queries _) => apply always_queries; try typeclasses eauto with typeclass_instances nocore
  | |- Always _ (mret _) => apply always_ret; try typeclasses eauto with typeclass_instances nocore
  | |- Always _ (if ?b then _ else _) => destruct b eqn:?
  | |- Always _ (match ?o with _ => _ end) => destruct o eqn:?
  end).

(** A successful run leaves the state as it was. *)
Notation ReadOnly := (Steps eq).
(** A successful run leaves the part [f] of the state as it was. *)
Definition same {S T} (f : S -> T) (s s' : S) : Prop := f s' = f s.
Notation Frame f := (Steps (same f)).
(** A successful run keeps the invariant [I]. *)
Definition keeps {S} (I : S -> Prop) (s s' : S) : Prop := I s -> I s'.
Notation Keeps I := (Steps (keeps I)).

#[global] Instance same_PreOrder {S T} (f : S -> T) : PreOrder (same f).
Proof. split; [intros ?; reflexivity | unfold same; intros ???; congruence]. Qed.
#[global] Instance keeps_PreOrder {S} (I : S -> Prop) : PreOrder (keeps I).
Proof. split; [intros ??; done | unfold keeps; intros ???; auto]. Qed.
Lemma read_only_steps {S E A} (R : S -> S -> Prop) `{!Reflexive R} (m : tx S E A) : ReadOnly m -> Steps R m.
Proof. intros H s a s' Hr. apply H in Hr as <-. reflexivity. Qed.

(** A run from a state with the invariant [I] ends in one, and makes the progress [P]. *)
Definition evolves {S} (I : S -> Prop) (P : S -> S -> Prop) (s s' : S) : Prop := I s -> I s' /\ P s s'.
#[global] Instance evolves_PreOrder {S} (I : S -> Prop) (P : S -> S -> Prop) : PreOrder P -> PreOrder (evolves I P).
Proof.
  intros HP. split; [intros s Hs; split; [done|reflexivity]|].
  intros s1 s2 s3 H12 H23 Hs. destruct (H12 Hs) as [Hs2 P12]. destruct (H23 Hs2) as [Hs3 P23].
  split; [done|]. by etrans.
Qed.
(** The part [f] of the state that the relation [R] is about: a run that leaves it alone is related by [R]. *)
Class Footprint {S T} (f : S -> T) (R : S -> S -> Prop) : Prop := footprint_same : forall s s', same f s s' -> R s s'.
Lemma frame_steps {S E A T} (f : S -> T) (R : S -> S -> Prop) `{!Footprint f R} (m : tx S E A) : Frame f m -> Steps R m.
Proof. intros Hm s a s' Hr. apply footprint_same. exact (Hm s a s' Hr). Qed.

(** Booleans of the source's conditions, as propositions. *)
Ltac bools :=
  repeat match goal with
  | H : negb _ = true |- _ => apply negb_true_iff in H
  | H : negb _ = false |- _ => apply negb_false_iff in H
  | H : _ && _ = true |- _ => apply andb_true_iff in H; destruct H
  | H : _ || _ = false |- _ => apply orb_false_iff in H; destruct H
  | H : bool_decide _ = true |- _ => apply bool_decide_eq_true in H
  | H : bool_decide _ = false |- _ => apply bool_decide_eq_false in H
  | H : (_ <=? _) = true |- _ => apply Z.leb_le in H
  | H : (_ <=? _) = false |- _ => apply Z.leb_gt in H
  | H : (_ <? _) = true |- _ => apply Z.ltb_lt in H
  | H : (_ <? _) = false |- _ => apply Z.ltb_ge in H
  | H : (_ =? _) = true |- _ => apply Z.eqb_eq in H
  | H : (_ =? _) = false |- _ => apply Z.eqb_neq in H
  end.

(** ** Byte strings

    A Rust [str] is its UTF-8 bytes: [String.length] is [str::len], [++] is
    concatenation and the predicates below read bytes. *)
Definition code (c : ascii) : Z := Z.of_N (N_of_ascii c).
Definition byte_in (lo hi : Z) (c : ascii) : bool := (lo <=? code c) && (code c <=? hi).
Definition is_ascii (c : ascii) : bool := code c <? 128.
Definition is_ascii_digit : ascii -> bool := byte_in 48 57.
Definition is_ascii_lowercase : ascii -> bool := byte_in 97 122.
Definition is_ascii_uppercase : ascii -> bool := byte_in 65 90.
Definition is_ascii_alphanumeric (c : ascii) : bool :=
  is_ascii_digit c || is_ascii_lowercase c || is_ascii_uppercase c.
(** [u8::is_ascii_whitespace]: space, tab, line feed, form feed, carriage return. *)
Definition is_ascii_whitespace (c : ascii) : bool :=
  (code c =? 32) || (code c =? 9) || (code c =? 10) || (code c =? 12) || (code c =? 13).
Definition to_ascii_uppercase (c : ascii) : ascii :=
  if is_ascii_lowercase c then ascii_of_N (N_of_ascii c - 32) else c.
Definition byte_is (c : ascii) (n : Z) : bool := code c =? n.

(** [s.bytes().all(p)], [s.bytes().map(f).collect()] and [s.bytes().filter(p).collect()]. *)
Fixpoint all_bytes (p : ascii -> bool) (s : string) : bool :=
  match s with EmptyString => true | String c s' => p c && all_bytes p s' end.
Fixpoint map_bytes (f : ascii -> ascii) (s : string) : string :=
  match s with EmptyString => EmptyString | String c s' => String (f c) (map_bytes f s') end.
Fixpoint filter_bytes (p : ascii -> bool) (s : string) : string :=
  match s with
  | EmptyString => EmptyString
  | String c s' => if p c then String c (filter_bytes p s') else filter_bytes p s'
  end.
Definition eq_ignore_ascii_case (s t : string) : bool :=
  String.eqb (map_bytes to_ascii_uppercase s) (map_bytes to_ascii_uppercase t).
Definition str_len (s : string) : Z := Z.of_nat (String.length s).
Definition is_empty (s : string) : bool := match s with EmptyString => true | _ => false end.
Definition first_byte (s : string) : option ascii :=
  match s with EmptyString => None | String c _ => Some c end.

(** [str::strip_prefix]. *)
Fixpoint strip_prefix (p s : string) : option string :=
  match p, s with
  | EmptyString, _ => Some s
  | String a p', String b s' => if Ascii.eqb a b then strip_prefix p' s' else None
  | String _ _, EmptyString => None
  end.

(** [str::split_at] on a byte index within the string. *)
Fixpoint split_at (n : nat) (s : string) : string * string :=
  match n, s with
  | O, _ => (EmptyString, s)
  | S n', String c s' => let '(a, b) := split_at n' s' in (String c a, b)
  | S _, EmptyString => (EmptyString, EmptyString)
  end.

(** [s.chars().count()]: continuation bytes [80..BF] do not start a character. *)
Fixpoint chars_count (s : string) : Z :=
  match s with
  | EmptyString => 0
  | String c s' => (if byte_in 128 191 c then 0 else 1) + chars_count s'
  end.

(** [s.chars().any(char::is_control)]: U+0000..U+001F, U+007F and U+0080..U+009F
    (encoded [C2 80] to [C2 9F]). *)
Fixpoint has_control (s : string) : bool :=
  match s with
  | EmptyString => false
  | String c s' =>
      (code c <? 32) || (code c =? 127)
      || ((code c =? 194) && match s' with String d _ => byte_in 128 159 d | _ => false end)
      || has_control s'
  end.

(** [str::trim] removes Unicode [White_Space] characters, of one, two or three
    bytes, at both ends. *)
Definition ws1 (a : ascii) : bool := byte_in 9 13 a || (code a =? 32).
Definition ws2 (a b : ascii) : bool := (code a =? 194) && ((code b =? 133) || (code b =? 160)).
Definition ws3 (a b c : ascii) : bool :=
  ((code a =? 225) && (code b =? 154) && (code c =? 128))
  || ((code a =? 226) && (code b =? 128)
      && (byte_in 128 138 c || (code c =? 168) || (code c =? 169) || (code c =? 175)))
  || ((code a =? 226) && (code b =? 129) && (code c =? 159))
  || ((code a =? 227) && (code b =? 128) && (code c =? 128)).
Fixpoint drop_ws (w2 : ascii -> ascii -> bool) (w3 : ascii -> ascii -> ascii -> bool)
    (l : list ascii) : list ascii :=
  match l with
  | [] => []
  | a :: l1 =>
      if ws1 a then drop_ws w2 w3 l1 else
      match l1 with
      | [] => l
      | b :: l2 =>
          if w2 a b then drop_ws w2 w3 l2 else
          match l2 with
          | [] => l
          | c :: l3 => if w3 a b c then drop_ws w2 w3 l3 else l
          end
      end
  end.
Definition trim (s : string) : string :=
  let l := drop_ws ws2 ws3 (list_ascii_of_string s) in
  string_of_list_ascii
    (reverse (drop_ws (fun a b => ws2 b a) (fun a b c => ws3 c b a) (reverse l))).

(** [slice.chunks(4)] joined with a separator. *)
Fixpoint chunks4_join (sep : string) (s : string) : string :=
  match s with
  | String a (String b (String c (String d s'))) =>
      String a (String b (String c (String d
        (match s' with EmptyString => EmptyString | _ => sep ++ chunks4_join sep s' end))))
  | _ => s
  end.

(** [format!("{s:?}")]: quotes, escapes and [\u{..}] for control bytes.  Bytes of
    multi-byte characters are printed as they are. *)
Definition hex_digit (n : N) : string :=
  match String.get (N.to_nat n) "0123456789abcdef" with
  | Some c => String c EmptyString
  | None => EmptyString
  end.
Definition escape_debug (c : ascii) : string :=
  let n := code c in
  if n =? 0 then "\0" else if n =? 9 then "\t" else if n =? 10 then "\n" else if n =? 13 then "\r"
  else if n =? 34 then String (ascii_of_nat 92) (String (ascii_of_nat 34) EmptyString)
  else if n =? 92 then "\\"
  else if (n <? 32) || (n =? 127)
  then let m := N_of_ascii c in
       "\u{" ++ (if n <? 16 then hex_digit m else hex_digit (m / 16) ++ hex_digit (m mod 16)) ++ "}"
  else String c EmptyString.
Fixpoint escape_all (s : string) : string :=
  match s with EmptyString => EmptyString | String c s' => escape_debug c ++ escape_all s' end.
Definition str_debug (s : string) : string :=
  let quote := String (ascii_of_nat 34) EmptyString in quote ++ escape_all s ++ quote.

(** ** Machine integers *)
Definition i64_max : Z := 9223372036854775807.
Definition i64_min : Z := -9223372036854775808.
Definition u64_max : Z := 18446744073709551615.
Definition i32_max : Z := 2147483647.
Definition is_i64 (z : Z) : bool := (i64_min <=? z) && (z <=? i64_max).
Definition is_u64 (z : Z) : bool := (0 <=? z) && (z <=? u64_max).
Definition i64_checked_add (a b : Z) : option Z :=
  if is_i64 (a + b) then Some (a + b) else None.
Definition u64_try_from (z : Z) : option Z := if is_u64 z then Some z else None.
Definition i64_try_from (z : Z) : option Z := if is_i64 z then Some z else None.
Definition u32_try_from (z : Z) : option Z := if (0 <=? z) && (z <=? 4294967295) then Some z else None.
Definition i32_try_from (z : Z) : option Z :=
  if (-2147483648 <=? z) && (z <=? i32_max) then Some z else None.

(** [format!("{n}")] of an unsigned integer. *)
Definition show_u64 (z : Z) : string := pretty (Z.to_N z).

(** ** Time

    An instant ([DateTime<Utc>]) is a number of nanoseconds since the Unix epoch;
    [TimeDelta] and [Duration] are numbers of nanoseconds. *)
Definition instant : Type := Z.
Definition seconds (n : Z) : Z := n * 1000000000.
Definition minutes (n : Z) : Z := seconds (n * 60).

(** [SubsecRound::trunc_subsecs(6)]: keep microseconds. *)
Definition trunc_micros (t : instant) : instant := t - t mod 1000.

(** ** Lemmas on strings *)
#[global] Arguments String.append _ _ : simpl nomatch.

Lemma all_bytes_app p s t : all_bytes p (s ++ t) = all_bytes p s && all_bytes p t.
Proof. induction s as [|c s IH]; simpl; [done|]. by rewrite IH, andb_assoc. Qed.
Lemma all_bytes_impl (p q : ascii -> bool) s :
  (forall c, p c = true -> q c = true) -> all_bytes p s = true -> all_bytes q s = true.
Proof. intros Hpq. induction s as [|c s IH]; simpl; [done|]. intros; bools. by rewrite Hpq, IH. Qed.
Lemma strip_prefix_Some p s t : strip_prefix p s = Some t <-> s = p ++ t.
Proof.
  revert s; induction p as [|a p IH]; intros s; simpl; [naive_solver|].
  destruct s as [|b s]; [naive_solver|].
  destruct (Ascii.eqb_spec a b) as [->|Hne].
  - rewrite IH. split; [by intros ->|by intros [=]].
  - split; [done|by intros [=]].
Qed.
Lemma strip_prefix_app p t : strip_prefix p (p ++ t) = Some t.
Proof. by apply strip_prefix_Some. Qed.
Lemma split_at_app s t : split_at (String.length s) (s ++ t) = (s, t).
Proof. induction s as [|c s IH]; simpl; [by destruct t|]. by rewrite IH. Qed.
Lemma split_at_eq n s a b : split_at n s = (a, b) -> s = a ++ b.
Proof.
  revert s a b; induction n as [|n IH]; intros [|c s] a b; simpl; [by intros [= <- <-]..|].
  destruct (split_at n s) as [a' b'] eqn:E. intros [= <- <-].
  apply (f_equal (String c)), IH, E.
Qed.
Lemma split_at_length n s a b :
  split_at n s = (a, b) -> (n <= String.length s)%nat -> String.length a = n.
Proof.
  revert s a b; induction n as [|n IH]; intros [|c s] a b; simpl;
    [by intros [= <- <-]|by intros [= <- <-]|intros; lia|].
  destruct (split_at n s) as [a' b'] eqn:E. intros [= <- <-] H; simpl.
  f_equal. eapply IH; [exact E|lia].
Qed.
Lemma filter_bytes_app p s t : filter_bytes p (s ++ t) = filter_bytes p s ++ filter_bytes p t.
Proof. induction s as [|c s IH]; simpl; [done|]. destruct (p c); simpl; by rewrite IH. Qed.
Lemma map_bytes_app f s t : map_bytes f (s ++ t) = map_bytes f s ++ map_bytes f t.
Proof. induction s as [|c s IH]; simpl; [done|]. by rewrite IH. Qed.
Lemma map_bytes_id f s :
  all_bytes (fun c => Ascii.eqb (f c) c) s = true -> map_bytes f s = s.
Proof.
  induction s as [|c s IH]; simpl; [done|]. intros; bools.
  apply Ascii.eqb_eq in H. by rewrite H, IH.
Qed.
Lemma filter_bytes_id p s : all_bytes p s = true -> filter_bytes p s = s.
Proof. induction s as [|c s IH]; simpl; [done|]. intros; bools. rewrite H, IH; done. Qed.
Lemma length_map_bytes f s : String.length (map_bytes f s) = String.length s.
Proof. induction s; simpl; congruence. Qed.
Lemma string_app_assoc (s t u : string) : s ++ (t ++ u) = (s ++ t) ++ u.
Proof. induction s; simpl; congruence. Qed.
Lemma string_app_inj_l (s t u : string) : s ++ t = s ++ u -> t = u.
Proof. induction s as [|c s IH]; simpl; [done|]. intros [= E]. by apply IH. Qed.
Lemma string_app_nil (s : string) : s ++ "" = s.
Proof. induction s; simpl; congruence. Qed.
Lemma str_len_app s t : str_len (s ++ t) = str_len s + str_len t.
Proof. unfold str_len. induction s; simpl; lia. Qed.
Lemma str_len_nonneg s : 0 <= str_len s.
Proof. unfold str_len. lia. Qed.
Lemma trunc_micros_idemp t : trunc_micros (trunc_micros t) = trunc_micros t.
Proof. unfold trunc_micros. rewrite (Zminus_mod t), Zmod_mod, Z.sub_diag, Zmod_0_l. lia. Qed.
Lemma trunc_micros_le t : trunc_micros t <= t.
Proof. unfold trunc_micros. pose proof (Z.mod_pos_bound t 1000 ltac:(lia)). lia. Qed.
Lemma trunc_micros_mono t u : t <= u -> trunc_micros t <= trunc_micros u.
Proof.
  unfold trunc_micros. intros.
  pose proof (Z.div_mod t 1000 ltac:(lia)). pose proof (Z.div_mod u 1000 ltac:(lia)).
  pose proof (Z.div_le_mono t u 1000 ltac:(lia) H). lia.
Qed.

(** *** Decimal text *)
Lemma pretty_N_go_digits x s :
  all_bytes is_ascii_digit s = true -> all_bytes is_ascii_digit (pretty_N_go x s) = true.
Proof.
  revert s. induction (N.lt_wf_0 x) as [x _ IH]; intros s Hs.
  destruct (decide (0 < x)%N) as [Hx|Hx].
  - rewrite pretty_N_go_step by done. apply IH; [by apply N.div_lt|]. simpl. rewrite Hs, andb_true_r.
    unfold pretty_N_char. by repeat case_match.
  - assert (x = 0%N) as -> by lia. by rewrite pretty_N_go_0.
Qed.
Lemma pretty_N_go_length k : forall x s, (x < 10 ^ N.of_nat k)%N ->
  (String.length (pretty_N_go x s) <= k + String.length s)%nat.
Proof.
  induction k as [|k IH]; intros x s Hx.
  - assert (x = 0%N) as -> by (simpl in Hx; lia). rewrite pretty_N_go_0. lia.
  - destruct (decide (0 < x)%N) as [Hp|Hp].
    + rewrite pretty_N_go_step by done.
      etrans; [apply IH|simpl; lia].
      apply N.Div0.div_lt_upper_bound. rewrite Nat2N.inj_succ, N.pow_succ_r' in Hx. lia.
    + assert (x = 0%N) as -> by lia. rewrite pretty_N_go_0. lia.
Qed.
Lemma show_u64_digits z : all_bytes is_ascii_digit (show_u64 z) = true.
Proof.
  unfold show_u64, pretty, pretty_N. destruct (decide _); [done|]. by apply pretty_N_go_digits.
Qed.
Lemma show_u64_length z : z <= u64_max -> str_len (show_u64 z) <= 20.
Proof.
  unfold show_u64, pretty, pretty_N, u64_max, str_len. intros Hz. destruct (decide _); [simpl; lia|].
  pose proof (pretty_N_go_length 20 (Z.to_N z) "") as H.
  change (10 ^ N.of_nat 20)%N with 100000000000000000000%N in H. simpl in H. lia.
Qed.
Lemma show_u64_inj x y : 0 <= x -> 0 <= y -> show_u64 x = show_u64 y -> x = y.
Proof. unfold show_u64. intros Hx Hy E%(inj _). lia. Qed.

(** Evaluate a decidable closed statement. *)
Ltac decide_now := match goal with |- ?P => apply (bool_decide_unpack P); vm_compute; exact I end.

(** *** Splitting and decimal parsing *)
(** [s.split(sep)]: always at least one part. *)
Fixpoint split_on (sep : ascii) (s : string) : list string :=
  match s with
  | EmptyString => [EmptyString]
  | String c s' =>
      if Ascii.eqb c sep then EmptyString :: split_on sep s' else
      match split_on sep s' with
      | part :: parts => String c part :: parts
      | [] => [String c EmptyString]
      end
  end.
(** [s.split_once(sep)]: around the first separator. *)
Fixpoint split_once (sep : ascii) (s : string) : option (string * string) :=
  match s with
  | EmptyString => None
  | String c s' =>
      if Ascii.eqb c sep then Some (EmptyString, s')
      else match split_once sep s' with Some (a, b) => Some (String c a, b) | None => None end
  end.
(** [s.starts_with(p)]. *)
Definition starts_with (p s : string) : bool := match strip_prefix p s with Some _ => true | None => false end.
(** [s.rsplit_once(sep)]: around the last separator. *)
Fixpoint rsplit_once (sep : ascii) (s : string) : option (string * string) :=
  match s with
  | EmptyString => None
  | String c s' =>
      match rsplit_once sep s' with
      | Some (a, b) => Some (String c a, b)
      | None => if Ascii.eqb c sep then Some (EmptyString, s') else None
      end
  end.
(** [s.parse::<i64>()]: an optional sign and at least one digit, within 64 bits. *)
Fixpoint parse_digits (acc : Z) (s : string) : option Z :=
  match s with
  | EmptyString => Some acc
  | String c s' => if is_ascii_digit c then parse_digits (acc * 10 + (code c - 48)) s' else None
  end.
Definition parse_i64 (s : string) : option Z :=
  match s with
  | EmptyString => None
  | String c s' =>
      let '(sign, digits) := if byte_is c 45 then (-1, s') else if byte_is c 43 then (1, s') else (1, s) in
      if is_empty digits then None else
      n ← parse_digits 0 digits;
      i64_try_from (sign * n)
  end.

Lemma split_on_nonempty sep s : split_on sep s <> [].
Proof. induction s as [|c s IH]; simpl; [done|]. destruct (Ascii.eqb c sep); [done|]. by destruct (split_on sep s). Qed.
(** The parts joined by the separator are the string. *)
Lemma split_on_join sep s : String.concat (String sep EmptyString) (split_on sep s) = s.
Proof.
  induction s as [|c s IH]; simpl; [done|]. destruct (Ascii.eqb_spec c sep) as [->|Hne].
  - destruct (split_on sep s) as [|p ps] eqn:E; [by apply split_on_nonempty in E|]. simpl. by rewrite <- IH.
  - destruct (split_on sep s) as [|p ps] eqn:E; [by apply split_on_nonempty in E|].
    destruct ps; simpl in *; by rewrite <- IH.
Qed.
Lemma rsplit_once_last sep s a b : rsplit_once sep s = Some (a, b) -> s = a ++ String sep b.
Proof.
  revert a b; induction s as [|c s IH]; intros a b; simpl; [done|].
  destruct (rsplit_once sep s) as [[a' b']|].
  - intros [= <- <-]. simpl. by rewrite (IH a' b').
  - destruct (Ascii.eqb_spec c sep) as [->|]; [|done]. by intros [= <- <-].
Qed.
Lemma rsplit_once_split sep s a b : rsplit_once sep s = Some (a, b) ->
  exists ps, split_on sep s = (ps ++ [b])%list /\ a = String.concat (String sep EmptyString) ps /\ ps <> [].
Proof.
  revert a b; induction s as [|c s IH]; intros a b; simpl; [done|].
  destruct (rsplit_once sep s) as [[a' b']|] eqn:E.
  - intros [= <- <-]. destruct (IH a' b' eq_refl) as (ps & -> & -> & Hne).
    destruct (Ascii.eqb_spec c sep) as [->|].
    + exists (EmptyString :: ps). split_and!; [done| |done]. destruct ps; [done|]. done.
    + destruct ps as [|p ps]; [done|]. exists (String c p :: ps). split_and!; [done| |done]. by destruct ps.
  - destruct (Ascii.eqb_spec c sep) as [->|]; [|done]. intros [= <- <-].
    assert (split_on sep s = [s]) as ->.
    { clear IH. revert E. induction s as [|d s IH]; simpl; [done|].
      destruct (rsplit_once sep s) as [[??]|]; [done|]. destruct (Ascii.eqb d sep); [done|].
      intros _. by rewrite IH. }
    by exists [EmptyString].
Qed.
Lemma split_on_app sep s t : split_on sep (s ++ String sep EmptyString ++ t) = (split_on sep s ++ split_on sep t)%list.
Proof.
  change (String sep EmptyString ++ t) with (String sep t).
  induction s as [|c s IH]; simpl; [by rewrite Ascii.eqb_refl|]. rewrite IH.
  destruct (Ascii.eqb c sep); [done|]. destruct (split_on sep s) eqn:E; [by apply split_on_nonempty in E|done].
Qed.
Lemma split_on_none sep s : all_bytes (fun c => negb (Ascii.eqb c sep)) s = true -> split_on sep s = [s].
Proof.
  induction s as [|c s IH]; simpl; [done|]. intros [Hc Hs]%andb_true_iff. apply negb_true_iff in Hc. by rewrite Hc, IH.
Qed.
