(* ===== verification/Framing.v ===== *)
(** * Length-prefixed framing

    [u64::to_be_bytes] and the loops of the form [digest.update((field.len() as u64).to_be_bytes());
    digest.update(field)]: what is hashed for a list of fields, and that it determines them. *)
From S2P Require Import Prelude.

(** The [width] big-endian bytes of an unsigned integer. *)
Fixpoint be_bytes (width : nat) (n : Z) : string :=
  match width with
  | O => EmptyString
  | S w => be_bytes w (n / 256) ++ String (ascii_of_N (Z.to_N (n mod 256))) EmptyString
  end.
(** The bytes hashed for a list of fields. *)
Fixpoint framed (fields : list string) : string :=
  match fields with
  | [] => EmptyString
  | field :: rest => be_bytes 8 (str_len field) ++ field ++ framed rest
  end.

Lemma be_bytes_length w : forall n, String.length (be_bytes w n) = w.
Proof.
  induction w as [|w IH]; intros n; [done|]. simpl.
  assert (forall s t : string, String.length (s ++ t) = (String.length s + String.length t)%nat) as Happ
    by (induction s; intros; simpl; auto).
  rewrite Happ, IH. simpl. lia.
Qed.
Lemma string_app_split (s t u v : string) : String.length s = String.length t -> s ++ u = t ++ v -> s = t /\ u = v.
Proof.
  revert t. induction s as [|c s IH]; intros [|d t] Hl; simpl in *; try done.
  intros [= -> E]. injection Hl as Hl. by destruct (IH t Hl E) as [-> ->].
Qed.
Lemma be_bytes_inj w : forall m n, 0 <= m < 256 ^ Z.of_nat w -> 0 <= n < 256 ^ Z.of_nat w ->
  be_bytes w m = be_bytes w n -> m = n.
Proof.
  induction w as [|w IH]; intros m n Hm Hn E; [simpl in *; lia|].
  cbn [be_bytes] in E. apply string_app_split in E as [Ehi Elo]; [|by rewrite !be_bytes_length].
  injection Elo as Elo. rewrite Nat2Z.inj_succ, Z.pow_succ_r in Hm, Hn by lia.
  apply IH in Ehi; [|split; [apply Z.div_pos; lia|apply Z.div_lt_upper_bound; lia]..].
  apply (f_equal N_of_ascii) in Elo.
  pose proof (Z.mod_pos_bound m 256). pose proof (Z.mod_pos_bound n 256).
  rewrite !N_ascii_embedding in Elo by lia. rewrite (Z.div_mod m 256), (Z.div_mod n 256) by lia. lia.
Qed.

(** Fields of at most 2^64 - 1 bytes, as all are, are determined by their framing. *)
Definition framable (fields : list string) : Prop := Forall (fun f => str_len f <= u64_max) fields.
Lemma framed_inj fs : forall gs, framable fs -> framable gs -> framed fs = framed gs -> fs = gs.
Proof.
  induction fs as [|f fs IH]; intros [|g gs] Hf Hg E; [done|..].
  - apply (f_equal String.length) in E. pose proof (be_bytes_length 8 (str_len g)) as Hl.
    cbn [framed] in E. destruct (be_bytes 8 (str_len g)); simpl in *; lia.
  - apply (f_equal String.length) in E. pose proof (be_bytes_length 8 (str_len f)) as Hl.
    cbn [framed] in E. destruct (be_bytes 8 (str_len f)); simpl in *; lia.
  - inversion Hf as [|? ? Hf1 Hf2]; inversion Hg as [|? ? Hg1 Hg2]; subst. cbn [framed] in E.
    apply string_app_split in E as [El E]; [|by rewrite !be_bytes_length].
    pose proof (str_len_nonneg f). pose proof (str_len_nonneg g). unfold u64_max in *.
    apply be_bytes_inj in El; [|simpl; lia..].
    apply string_app_split in E as [-> E]; [|unfold str_len in El; lia]. f_equal. by apply IH.
Qed.
