(* ===== verification/Json.v ===== *)
(** * JSON values, canonical JSON and timestamps

    What the signed records of the system share: the [Value] a [#[derive(Serialize)]] type becomes, the RFC 8785
    canonical form and the RFC 3339 text of an instant.  Both texts are third-party code, given by classes. *)
From S2P Require Import Prelude.

Ltac strings := repeat match goal with Hs : String.eqb _ _ = true |- _ => apply String.eqb_eq in Hs end.

(** ** JSON values

    [serde_json::Value]; an object is a [BTreeMap], kept as its entries in the order of the keys. *)
Inductive Value : Type :=
| VNull
| VBool (b : bool)
| VNumber (n : Z)
| VString (s : string)
| VArray (items : list Value)
| VObject (fields : list (string * Value)).

(** [BTreeMap::insert] replaces the entry of the key, or adds one at its place. *)
Fixpoint object_insert (name : string) (v : Value) (fields : list (string * Value)) : list (string * Value) :=
  match fields with
  | [] => [(name, v)]
  | (k, w) :: rest =>
      match String.compare name k with
      | Eq => (name, v) :: rest
      | Lt => (name, v) :: fields
      | Gt => (k, w) :: object_insert name v rest
      end
  end.
Definition object (fields : list (string * Value)) : Value :=
  VObject (foldr (fun f o => object_insert (fst f) (snd f) o) [] fields).

(** [serde_json_canonicalizer::to_vec]: [None] when the value has no RFC 8785 form. *)
Class Canonicalizer := canonical_to_vec : Value -> option string.
Definition to_option {A} (f : A -> Value) (o : option A) : Value := match o with Some a => f a | None => VNull end.

(** [chrono]: the year of an instant and its RFC 3339 texts with seconds and with microseconds. *)
Class Rfc3339 := {
  utc_year : Z -> Z;
  rfc3339_secs : Z -> string;
  rfc3339_micros : Z -> string;
}.

(** [chrono]'s [Serialize] of a [DateTime<Utc>]: RFC 3339 with as many digits of the second as it needs. *)
Class Rfc3339Auto := rfc3339_auto : Z -> string.

(** ** Unambiguous texts

    RFC 8785 prints numbers as IEEE doubles, so integers beyond 2^53 - 1 may collide; [exact] values are those with
    smaller numbers (and the sorted, distinct keys of a map), on which the canonical form is unambiguous. *)
Fixpoint sorted_keys (fields : list (string * Value)) : bool :=
  match fields with
  | (k, _) :: ((l, _) :: _) as rest => match String.compare k l with Lt => sorted_keys rest | _ => false end
  | _ => true
  end.
Fixpoint exact (v : Value) : bool :=
  match v with
  | VNumber n => Z.abs n <=? 9007199254740991
  | VArray items => List.forallb exact items
  | VObject fields => sorted_keys fields && List.forallb (fun f => exact (snd f)) fields
  | _ => true
  end.
Class CanonicalizerSpec `{Canonicalizer} : Prop := canonical_unambiguous : forall v w bytes,
  exact v = true -> exact w = true ->
  canonical_to_vec v = Some bytes -> canonical_to_vec w = Some bytes -> v = w.
(** ** Equality of values, and an injective canonical text *)
Fixpoint value_tree (v : Value) : gen_tree (bool + Z + string) :=
  match v with
  | VNull => GenNode 0 []
  | VBool b => GenLeaf (inl (inl b))
  | VNumber n => GenLeaf (inl (inr n))
  | VString s => GenLeaf (inr s)
  | VArray items => GenNode 1 (value_tree <$> items)
  | VObject fields => GenNode 2 ((fun f => GenNode 3 [GenLeaf (inr (fst f)); value_tree (snd f)]) <$> fields)
  end.
Fixpoint tree_value (t : gen_tree (bool + Z + string)) : Value :=
  match t with
  | GenLeaf (inl (inl b)) => VBool b
  | GenLeaf (inl (inr n)) => VNumber n
  | GenLeaf (inr s) => VString s
  | GenNode 1 items => VArray (tree_value <$> items)
  | GenNode 2 fields => VObject ((fun t => match t with
      | GenNode _ [GenLeaf (inr k); t] => (k, tree_value t)
      | _ => (EmptyString, VNull)
      end) <$> fields)
  | _ => VNull
  end.
Fixpoint tree_value_tree (v : Value) : tree_value (value_tree v) = v.
Proof.
  destruct v as [| | | |items|fields]; simpl; try done.
  - f_equal. induction items as [|v items IH]; [done|]. exact (f_equal2 cons (tree_value_tree v) IH).
  - f_equal. induction fields as [|[k v] fields IH]; [done|].
    exact (f_equal2 cons (f_equal (pair k) (tree_value_tree v)) IH).
Qed.
#[global] Instance Value_eq_dec : EqDecision Value.
Proof.
  intros v w. refine (cast_if (decide (value_tree v = value_tree w))); [|congruence].
  rewrite <- (tree_value_tree v), <- (tree_value_tree w). congruence.
Defined.
#[global] Instance Value_countable : Countable Value := inj_countable' value_tree tree_value tree_value_tree.

(** The bits of a code, as text. *)
Fixpoint pos_bits (p : positive) : string :=
  match p with
  | xH => EmptyString
  | xO p => String "0" (pos_bits p)
  | xI p => String "1" (pos_bits p)
  end.
Fixpoint bits_pos (s : string) : positive :=
  match s with
  | EmptyString => xH
  | String c s => if Ascii.eqb c "1" then xI (bits_pos s) else xO (bits_pos s)
  end.
Definition print_bits {A} `{Countable A} (a : A) : string := pos_bits (encode a).
Definition parse_bits {A} `{Countable A} (s : string) : option A := decode (bits_pos s).
Lemma bits_pos_bits p : bits_pos (pos_bits p) = p.
Proof. induction p as [p IH|p IH|]; simpl; by rewrite ?IH. Qed.
Lemma parse_print_bits {A} `{Countable A} (a : A) : parse_bits (print_bits a) = Some a.
Proof. unfold parse_bits, print_bits. by rewrite bits_pos_bits, decode_encode. Qed.
#[global] Instance print_bits_inj {A} `{Countable A} : Inj (=) (=) (print_bits (A:=A)).
Proof. intros a b E. apply Some_inj. by rewrite <- (parse_print_bits a), <- (parse_print_bits b), E. Qed.

Definition injective_canonicalizer : Canonicalizer := fun v => Some (print_bits v).
Lemma injective_canonicalizer_spec : @CanonicalizerSpec injective_canonicalizer.
Proof.
  intros v w bytes _ _ Hv Hw. unfold canonical_to_vec, injective_canonicalizer in *. apply (inj print_bits). congruence.
Qed.
