(* ===== verification/Errors.v ===== *)
(** * Errors of the managed gateway

    [crates/inari-gateway/src/error.rs].  A PostgreSQL error keeps the constraint
    that raised it, so that a theorem can tell which one stopped a statement. *)
From S2P Require Import Prelude.

Inductive DbErr : Type :=
| UniqueViolation (constraint : string)
| ForeignKeyViolation (constraint : string)
| CheckViolation (constraint : string)
| NumericOutOfRange
| RecordNotUpdated.

Inductive GatewayError : Type :=
| InvalidInput (detail : string)
| Forbidden (detail : string)
| NotFound (detail : string)
| Conflict (detail : string)
| Capacity (detail : string)
| Unavailable (detail : string)
| Persistence (error : DbErr)
| Serialization
| CorruptState (detail : string)
| Io.

#[global] Instance DbErr_eq_dec : EqDecision DbErr.
Proof. solve_decision. Defined.
#[global] Instance GatewayError_eq_dec : EqDecision GatewayError.
Proof. solve_decision. Defined.

Notation GatewayResult := (result GatewayError).
