(* ===== verification/Identifiers.v ===== *)
(** * Identifiers

    The validated names of [crates/inari-gateway/src/protocol/identifiers.rs],
    [protocol/version.rs] and [identity.rs], and the access roles of
    [identity.rs].  A newtype around a private [String] is the string itself;
    its [FromStr] is the only way to build one, so "parses" is its invariant. *)
From S2P Require Import Prelude Errors.

(** ** Resource identifiers: the [resource_id!] macro *)
Definition resource_byte (c : ascii) : bool :=
  is_ascii_lowercase c || is_ascii_digit c || byte_is c 95 || byte_is c 45.

Definition resource_id_valid (prefix value : string) : bool :=
  (str_len value <=? 96)
  && match strip_prefix prefix value with
     | Some suffix => negb (is_empty suffix) && all_bytes resource_byte suffix
     | None => false
     end.

Definition resource_id_from_str (prefix label value : string) : GatewayResult string :=
  if resource_id_valid prefix value then Ok value
  else Err (InvalidInput (label ++ " must start with `" ++ prefix
    ++ "`, use lowercase ASCII letters, digits, hyphens, or underscores, and be at most 96 characters")).

Definition OrganizationId_from_str := resource_id_from_str "org_" "organization IDs".
Definition SiteId_from_str := resource_id_from_str "site_" "site IDs".
Definition DeviceId_from_str := resource_id_from_str "dev_" "device IDs".
Definition JobId_from_str := resource_id_from_str "job_" "job IDs".
Definition ManagedPreflightId_from_str := resource_id_from_str "mpf_" "Managed Work preflight IDs".
Definition ManagedWorkId_from_str := resource_id_from_str "mw_" "Managed Work IDs".
Definition PolicyId_from_str := resource_id_from_str "policy_" "policy IDs".
Definition PrintIntentId_from_str := resource_id_from_str "pi_v1_" "Print Intent IDs".

(** ** Agent identifiers and protocol versions *)
Definition GATEWAY_PROTOCOL_VERSION : string := "2026-10-03".
Definition AGENT_ID_PREFIX : string := "agt_".
Definition MAX_AGENT_ID_LENGTH : Z := 64.

Definition agent_byte (c : ascii) : bool :=
  is_ascii_lowercase c || is_ascii_digit c || byte_is c 95.

Definition agent_id_valid (value : string) : bool :=
  (str_len value <=? MAX_AGENT_ID_LENGTH)
  && match strip_prefix AGENT_ID_PREFIX value with
     | Some suffix => negb (is_empty suffix) && all_bytes agent_byte suffix
     | None => false
     end.

Definition AgentId_from_str (value : string) : GatewayResult string :=
  if agent_id_valid value then Ok value
  else Err (InvalidInput "agent IDs must start with `agt_`, contain only lowercase ASCII letters, digits, or underscores, and be at most 64 characters").

(** [NaiveDate::parse_from_str(value, "%Y-%m-%d").is_ok()] of the [chrono] crate. *)
Class NaiveDate := parse_from_str_is_ok : string -> bool.

Fixpoint version_shape (index : Z) (value : string) : bool :=
  match value with
  | EmptyString => true
  | String byte rest =>
      let dash := (index =? 4) || (index =? 7) in
      ((dash && byte_is byte 45) || (negb dash && is_ascii_digit byte))
      && version_shape (index + 1) rest
  end.

Definition ProtocolVersion_from_str `{NaiveDate} (value : string) : GatewayResult string :=
  let valid_shape := (str_len value =? 10) && version_shape 0 value in
  if negb valid_shape || negb (parse_from_str_is_ok value)
  then Err (InvalidInput "protocol versions must be valid ISO 8601 calendar dates")
  else Ok value.

Definition ProtocolVersion_current : string := GATEWAY_PROTOCOL_VERSION.

Record ProtocolDescriptor := mkProtocolDescriptor {
  pd_version : string;
  pd_supported_versions : list string;
}.
#[global] Instance ProtocolDescriptor_eq_dec : EqDecision ProtocolDescriptor.
Proof. solve_decision. Defined.

Definition ProtocolDescriptor_default : ProtocolDescriptor :=
  mkProtocolDescriptor ProtocolVersion_current [ProtocolVersion_current].

(** ** Actors and roles *)
Definition ActorId_from_oidc_subject (subject : string) : string := "oidc:" ++ subject.
Definition ActorId_from_agent (agent_id : string) : string := "agent:" ++ agent_id.
Definition ActorId_from_str (value : string) : GatewayResult string :=
  if is_empty value || (512 <? str_len value) || has_control value
  then Err (InvalidInput "actor IDs must be non-empty, contain no control characters, and be at most 512 bytes")
  else Ok value.

Inductive AccessRole : Set := Viewer | Operator | EnrollmentAdmin | Administrator.
Inductive Permission : Set :=
| FleetRead | JobsWrite | EnrollmentManage | AuditRead | PermZenohRead | PermZenohWrite | Administration.
#[global] Instance AccessRole_eq_dec : EqDecision AccessRole.
Proof. solve_decision. Defined.
#[global] Instance Permission_eq_dec : EqDecision Permission.
Proof. solve_decision. Defined.

Definition role_grants (role : AccessRole) (permission : Permission) : bool :=
  match role with
  | Administrator => true
  | Viewer => match permission with FleetRead => true | _ => false end
  | Operator => match permission with FleetRead | JobsWrite => true | _ => false end
  | EnrollmentAdmin => match permission with FleetRead | EnrollmentManage => true | _ => false end
  end.

Record SessionIdentity := mkSessionIdentity {
  si_actor_id : string;
  si_display_name : option string;
  si_email : option string;
  si_roles : list AccessRole;
  si_expires_at : instant;
}.
Definition session_grants (s : SessionIdentity) (permission : Permission) : bool :=
  existsb (fun role => role_grants role permission) (si_roles s).

(** ** Lemmas *)
Lemma resource_id_Ok prefix label v w :
  resource_id_from_str prefix label v = Ok w <-> w = v /\ resource_id_valid prefix v = true.
Proof. unfold resource_id_from_str. destruct (resource_id_valid prefix v); naive_solver. Qed.
Lemma AgentId_Ok v w : AgentId_from_str v = Ok w <-> w = v /\ agent_id_valid v = true.
Proof. unfold AgentId_from_str. destruct (agent_id_valid v); naive_solver. Qed.

Lemma agent_byte_resource c : agent_byte c = true -> resource_byte c = true.
Proof. unfold agent_byte, resource_byte. intros ->. done. Qed.

(** The characters that structure a Zenoh key expression or selector. *)
Definition key_expr_reserved (c : ascii) : bool :=
  byte_is c 47 || byte_is c 42 || byte_is c 36 || byte_is c 63 || byte_is c 35.

Lemma resource_byte_literal c : resource_byte c = true -> key_expr_reserved c = false.
Proof.
  unfold resource_byte, key_expr_reserved, byte_is, is_ascii_lowercase, is_ascii_digit, byte_in.
  generalize (code c). intros z Hz.
  repeat (rewrite orb_true_iff in Hz). repeat rewrite orb_false_iff. repeat rewrite Z.eqb_neq.
  repeat rewrite andb_true_iff in Hz. repeat rewrite Z.leb_le in Hz. repeat rewrite Z.eqb_eq in Hz. lia.
Qed.

(** An accepted Agent identifier starts with [agt_], is at most 64 bytes long and
    contains no character that structures a Zenoh key expression ([/ * $ ? #]), so it is
    exactly one literal segment of a key; parsing it again is the identity. *)
Theorem agent_id_is_one_literal_segment v w :
  AgentId_from_str v = Ok w ->
  w = v /\ AgentId_from_str w = Ok w /\ str_len w <= 64 /\
  (exists s, w = "agt_" ++ s /\ s <> "") /\
  all_bytes (fun c => negb (key_expr_reserved c)) w = true.
Proof.
  intros [-> Hv]%AgentId_Ok. split_and!; [done|by apply AgentId_Ok| | |];
  unfold agent_id_valid in Hv; bools; [done|..];
  destruct (strip_prefix AGENT_ID_PREFIX v) as [s|] eqn:Hs; try done;
  apply strip_prefix_Some in Hs as ->; bools.
  - exists s. split; [done|]. by intros ->.
  - rewrite all_bytes_app. apply andb_true_iff; split; [done|].
    eapply all_bytes_impl; [|done]. intros c Hc.
    by rewrite resource_byte_literal by by apply agent_byte_resource.
Qed.

Lemma agent_id_is_one_literal_segment_witness :
  AgentId_from_str "agt_browser_audit" = Ok "agt_browser_audit" /\
  all_bytes (fun c => negb (key_expr_reserved c)) "agt_browser_audit" = true.
Proof.
  split; [reflexivity|].
  apply (agent_id_is_one_literal_segment "agt_browser_audit"). reflexivity.
Defined.
