(* ===== verification/InvitationCode.v ===== *)
(** * Invitation codes

    [crates/inari-gateway/src/onboarding/code.rs]: the one-use code an operator
    hands to an Agent, its canonical text, the grouped text for people
    ([INR-XXXXXXXXXXXX-AAAA-...]) and the parser that accepts both. *)
From S2P Require Import Prelude Errors.

(** SHA-256 ([sha2] crate) and unpadded RFC 4648 base32 ([data_encoding] crate). *)
Class Sha256 := sha256 : string -> string.
Class Sha256Spec `{Sha256} : Prop := sha256_length : forall s, str_len (sha256 s) = 32.
Class Base32 := base32_nopad : string -> string.

Definition ID_LENGTH : Z := 12.
Definition SECRET_LENGTH : Z := 32.
Definition PREFIX : string := "INR".
Definition ALPHABET : string := "ABCDEFGHIJKLMNOPQRSTUVWXYZ234567".

Fixpoint contains_byte (s : string) (c : ascii) : bool :=
  match s with EmptyString => false | String d s' => Ascii.eqb d c || contains_byte s' c end.

Definition alphabet_byte (c : ascii) : bool := is_ascii c && contains_byte ALPHABET c.

Definition InvitationId_from_str (value : string) : GatewayResult string :=
  let normalized := map_bytes to_ascii_uppercase (trim value) in
  if negb (str_len normalized =? ID_LENGTH) || negb (all_bytes alphabet_byte normalized)
  then Err (InvalidInput "invitation id must contain 12 RFC 4648 base32 characters")
  else Ok normalized.

(** [getrandom::fill]: the entropy, or [None] when the generator is unavailable. *)
Definition InvitationId_generate `{Base32} (entropy : option string) : GatewayResult string :=
  match entropy with
  | None => Err (Unavailable "secure random generator unavailable")
  | Some bytes => InvitationId_from_str (fst (split_at (Z.to_nat ID_LENGTH) (base32_nopad bytes)))
  end.

Definition InvitationSecret_from_str (value : string) : GatewayResult string :=
  let normalized := map_bytes to_ascii_uppercase (trim value) in
  if negb (str_len normalized =? SECRET_LENGTH) || negb (all_bytes alphabet_byte normalized)
  then Err (InvalidInput "invitation secret must contain 32 RFC 4648 base32 characters")
  else Ok normalized.

Definition InvitationSecret_generate `{Base32} (entropy : option string) : GatewayResult string :=
  match entropy with
  | None => Err (Unavailable "secure random generator unavailable")
  | Some bytes => InvitationSecret_from_str (base32_nopad bytes)
  end.

Record InvitationCode := mkInvitationCode {
  ic_id : string;
  ic_secret : string;
}.

Definition InvitationCode_generate `{Base32} (id_entropy secret_entropy : option string)
    : GatewayResult InvitationCode :=
  match InvitationId_generate id_entropy with
  | Err e => Err e
  | Ok id => match InvitationSecret_generate secret_entropy with
             | Err e => Err e
             | Ok secret => Ok (mkInvitationCode id secret)
             end
  end.

Definition code_normalized (c : InvitationCode) : string := PREFIX ++ ic_id c ++ ic_secret c.
Definition code_manual (c : InvitationCode) : string :=
  PREFIX ++ "-" ++ ic_id c ++ "-" ++ chunks4_join "-" (ic_secret c).
Definition secret_digest `{Sha256} (c : InvitationCode) : string := sha256 (code_normalized c).

Definition code_byte (c : ascii) : bool := negb (is_ascii_whitespace c) && negb (byte_is c 45).

Definition InvitationCode_from_str (value : string) : GatewayResult InvitationCode :=
  if negb (all_bytes is_ascii value) then Err (InvalidInput "invitation code must be ASCII") else
  let normalized := map_bytes to_ascii_uppercase (filter_bytes code_byte value) in
  match strip_prefix PREFIX normalized with
  | None => Err (InvalidInput "invalid invitation code prefix")
  | Some body =>
      if negb (str_len body =? ID_LENGTH + SECRET_LENGTH)
      then Err (InvalidInput "invalid invitation code length")
      else
        let '(id, secret) := split_at (Z.to_nat ID_LENGTH) body in
        match InvitationId_from_str id with
        | Err e => Err e
        | Ok id' => match InvitationSecret_from_str secret with
                    | Err e => Err e
                    | Ok secret' => Ok (mkInvitationCode id' secret')
                    end
        end
  end.

(** The invariant of the private fields of an [InvitationCode]. *)
Definition code_valid (c : InvitationCode) : bool :=
  (str_len (ic_id c) =? ID_LENGTH) && all_bytes alphabet_byte (ic_id c)
  && (str_len (ic_secret c) =? SECRET_LENGTH) && all_bytes alphabet_byte (ic_secret c).

(** ** Lemmas *)
Lemma ascii_by_code (P : ascii -> bool) :
  forallb (fun n => P (ascii_of_N (N.of_nat n))) (seq 0 256) = true -> forall c, P c = true.
Proof.
  intros H c. rewrite forallb_forall in H.
  rewrite <- (ascii_N_embedding c), <- (N2Nat.id (N_of_ascii c)). apply H, in_seq.
  pose proof (N_ascii_bounded c). lia.
Qed.

Lemma alphabet_byte_facts c : alphabet_byte c = true ->
  is_ascii c = true /\ code_byte c = true /\ to_ascii_uppercase c = c /\ ws1 c = false.
Proof.
  pose proof (ascii_by_code (fun c => implb (alphabet_byte c)
    (is_ascii c && code_byte c && Ascii.eqb (to_ascii_uppercase c) c && negb (ws1 c)))
    ltac:(vm_compute; reflexivity) c) as H.
  intros Hc. simpl in H. rewrite Hc in H. simpl in H. bools.
  split_and!; try done. by apply Ascii.eqb_eq.
Qed.

Lemma ascii_not_wide a b : is_ascii a = true -> ws2 a b = false /\ ws2 b a = false.
Proof.
  unfold is_ascii, ws2. intros. bools.
  destruct (Z.eqb_spec (code a) 194), (Z.eqb_spec (code b) 194),
    (Z.eqb_spec (code a) 133), (Z.eqb_spec (code a) 160); simpl; try done; lia.
Qed.

Lemma ascii_not_wide3 a b c : is_ascii a = true -> ws3 a b c = false /\ ws3 c b a = false.
Proof.
  unfold is_ascii, ws3, byte_in. intros. bools.
  repeat match goal with |- context [code a =? ?n] =>
    destruct (Z.eqb_spec (code a) n); [lia|] end.
  replace (128 <=? code a) with false by (symmetry; apply Z.leb_gt; lia).
  simpl. rewrite !andb_false_r. done.
Qed.

Lemma drop_ws_id l w2 w3 :
  (forall a b, is_ascii a = true -> w2 a b = false) ->
  (forall a b c, is_ascii a = true -> w3 a b c = false) ->
  forallb (fun c => is_ascii c && negb (ws1 c)) l = true -> drop_ws w2 w3 l = l.
Proof.
  intros H2 H3. destruct l as [|a [|b [|c l]]]; simpl; [done|..]; intros; bools;
    destruct (ws1 a); rewrite ?H2, ?H3 by done; done.
Qed.

Lemma forallb_list_ascii p s : all_bytes p s = forallb p (list_ascii_of_string s).
Proof. induction s; simpl; congruence. Qed.
Lemma forallb_reverse {A} (p : A -> bool) l : forallb p (reverse l) = forallb p l.
Proof.
  induction l as [|x l IH]; [done|].
  rewrite reverse_cons, forallb_app, IH. simpl. by rewrite andb_true_r, andb_comm.
Qed.

Lemma trim_id s : all_bytes (fun c => is_ascii c && negb (ws1 c)) s = true -> trim s = s.
Proof.
  intros H. unfold trim. rewrite forallb_list_ascii in H.
  rewrite (drop_ws_id _ ws2 ws3);
    [|intros a b Ha; by destruct (ascii_not_wide a b Ha)
     |intros a b c Ha; by destruct (ascii_not_wide3 a b c Ha)|done].
  rewrite drop_ws_id; [|intros a b Ha; by destruct (ascii_not_wide a b Ha)
    |intros a b c Ha; by destruct (ascii_not_wide3 a b c Ha)|by rewrite forallb_reverse].
  by rewrite reverse_involutive, string_of_list_ascii_of_string.
Qed.

Lemma drop_ws_suffix w2 w3 l : exists k, l = (k ++ drop_ws w2 w3 l)%list.
Proof.
  remember (length l) as n eqn:Hn. revert l Hn.
  induction n as [n IH] using lt_wf_ind; intros [|a l] ->; [by exists []|]. simpl.
  destruct (ws1 a).
  { destruct (IH (length l) ltac:(simpl; lia) l eq_refl) as [k Hk]. exists (a :: k). by rewrite Hk at 1. }
  destruct l as [|b l]; [by exists []|]. destruct (w2 a b).
  { destruct (IH (length l) ltac:(simpl; lia) l eq_refl) as [k Hk]. exists (a :: b :: k). by rewrite Hk at 1. }
  destruct l as [|c l]; [by exists []|]. destruct (w3 a b c); [|by exists []].
  destruct (IH (length l) ltac:(simpl; lia) l eq_refl) as [k Hk]. exists (a :: b :: c :: k). by rewrite Hk at 1.
Qed.

Lemma drop_ws_length_id w2 w3 l :
  (length l <= length (drop_ws w2 w3 l))%nat -> drop_ws w2 w3 l = l.
Proof.
  destruct (drop_ws_suffix w2 w3 l) as [k Hk]. intros Hl.
  pose proof (f_equal length Hk) as Hlen. rewrite length_app in Hlen.
  destruct k; simpl in *; [done|lia].
Qed.
Lemma length_drop_ws w2 w3 l : (length (drop_ws w2 w3 l) <= length l)%nat.
Proof. destruct (drop_ws_suffix w2 w3 l) as [k Hk]. rewrite Hk at 2. rewrite length_app. lia. Qed.

Lemma length_string_of_list l : String.length (string_of_list_ascii l) = length l.
Proof. induction l; simpl; congruence. Qed.
Lemma length_list_ascii s : length (list_ascii_of_string s) = String.length s.
Proof. induction s; simpl; congruence. Qed.

(** A trimmed string of the same length is the string itself. *)
Lemma trim_length_id s : str_len (trim s) = str_len s -> trim s = s.
Proof.
  unfold str_len, trim. set (l := drop_ws ws2 ws3 (list_ascii_of_string s)).
  rewrite length_string_of_list, length_reverse. intros Hl.
  pose proof (length_drop_ws ws2 ws3 (list_ascii_of_string s)) as H1. fold l in H1.
  pose proof (length_drop_ws (fun a b => ws2 b a) (fun a b c => ws3 c b a) (reverse l)) as H2.
  rewrite length_reverse in H2. rewrite length_list_ascii in H1.
  assert (l = list_ascii_of_string s) as El by (apply drop_ws_length_id; rewrite length_list_ascii; fold l; lia).
  rewrite drop_ws_length_id by (rewrite length_reverse; lia).
  by rewrite reverse_involutive, El, string_of_list_ascii_of_string.
Qed.

Lemma to_ascii_uppercase_idemp c : to_ascii_uppercase (to_ascii_uppercase c) = to_ascii_uppercase c.
Proof.
  apply Ascii.eqb_eq. revert c.
  apply (ascii_by_code (fun c => Ascii.eqb (to_ascii_uppercase (to_ascii_uppercase c)) (to_ascii_uppercase c))).
  vm_compute. reflexivity.
Qed.
Lemma uppercase_idemp s :
  map_bytes to_ascii_uppercase (map_bytes to_ascii_uppercase s) = map_bytes to_ascii_uppercase s.
Proof. induction s as [|c s IH]; simpl; [done|]. by rewrite IH, to_ascii_uppercase_idemp. Qed.

Lemma alphabet_normal s : all_bytes alphabet_byte s = true ->
  map_bytes to_ascii_uppercase (trim s) = s /\ filter_bytes code_byte s = s /\
  map_bytes to_ascii_uppercase s = s /\ all_bytes is_ascii s = true.
Proof.
  intros H. rewrite trim_id.
  2:{ eapply all_bytes_impl; [|done]. intros c Hc%alphabet_byte_facts.
      destruct Hc as (-> & _ & _ & ->). done. }
  split_and!; [apply map_bytes_id|apply filter_bytes_id|apply map_bytes_id|];
    (eapply all_bytes_impl; [|done]); intros c Hc%alphabet_byte_facts; destruct_and!; try done;
    by apply Ascii.eqb_eq.
Qed.

Lemma InvitationId_Ok v id : InvitationId_from_str v = Ok id ->
  str_len id = ID_LENGTH /\ all_bytes alphabet_byte id = true.
Proof. unfold InvitationId_from_str. case_match; intros; simplify_eq. by bools. Qed.
Lemma InvitationSecret_Ok v id : InvitationSecret_from_str v = Ok id ->
  str_len id = SECRET_LENGTH /\ all_bytes alphabet_byte id = true.
Proof. unfold InvitationSecret_from_str. case_match; intros; simplify_eq. by bools. Qed.
Lemma InvitationId_shape v id : InvitationId_from_str v = Ok id -> str_len v = ID_LENGTH ->
  id = map_bytes to_ascii_uppercase v.
Proof.
  intros Hid Hv. pose proof (InvitationId_Ok _ _ Hid) as [Hl _].
  unfold InvitationId_from_str in Hid. case_match; simplify_eq.
  unfold str_len in Hl; rewrite length_map_bytes in Hl. fold (str_len (trim v)) in Hl.
  by rewrite trim_length_id by congruence.
Qed.
Lemma InvitationSecret_shape v id : InvitationSecret_from_str v = Ok id -> str_len v = SECRET_LENGTH ->
  id = map_bytes to_ascii_uppercase v.
Proof.
  intros Hid Hv. pose proof (InvitationSecret_Ok _ _ Hid) as [Hl _].
  unfold InvitationSecret_from_str in Hid. case_match; simplify_eq.
  unfold str_len in Hl; rewrite length_map_bytes in Hl. fold (str_len (trim v)) in Hl.
  by rewrite trim_length_id by congruence.
Qed.

Lemma InvitationId_id v : str_len v = ID_LENGTH -> all_bytes alphabet_byte v = true ->
  InvitationId_from_str v = Ok v.
Proof.
  intros Hl Hv. unfold InvitationId_from_str. destruct (alphabet_normal v Hv) as (-> & _).
  by rewrite Hl, Hv.
Qed.
Lemma InvitationSecret_id v : str_len v = SECRET_LENGTH -> all_bytes alphabet_byte v = true ->
  InvitationSecret_from_str v = Ok v.
Proof.
  intros Hl Hv. unfold InvitationSecret_from_str. destruct (alphabet_normal v Hv) as (-> & _).
  by rewrite Hl, Hv.
Qed.

Lemma chunks4_join_step sep a b c d s :
  chunks4_join sep (String a (String b (String c (String d s)))) =
  String a (String b (String c (String d (if is_empty s then "" else sep ++ chunks4_join sep s)))).
Proof. by destruct s. Qed.

Lemma string4_ind (P : string -> Prop) :
  (forall s, (String.length s < 4)%nat -> P s) ->
  (forall a b c d s, P s -> P (String a (String b (String c (String d s))))) -> forall s, P s.
Proof.
  intros Hs H4. enough (forall n s, (String.length s <= n)%nat -> P s) by eauto.
  induction n as [|n IH]; intros [|a [|b [|c [|d s]]]] Hl; simpl in Hl; try lia;
    try (apply Hs; simpl; lia).
  apply H4, IH. lia.
Qed.

Lemma chunks4_join_filter p s : p "-"%char = false ->
  filter_bytes p (chunks4_join "-" s) = filter_bytes p s.
Proof.
  intros Hp. induction s as [s Hl|a b c d s IH] using string4_ind.
  - by destruct s as [|? [|? [|? [|? ?]]]]; simpl in Hl; try lia.
  - rewrite chunks4_join_step. destruct s as [|e s]; [done|].
    set (t := String e s) in *. cbn [is_empty filter_bytes t]. fold t.
    by rewrite filter_bytes_app, IH; cbn [filter_bytes]; rewrite Hp.
Qed.

Lemma chunks4_join_all p s : p "-"%char = true -> all_bytes p s = true ->
  all_bytes p (chunks4_join "-" s) = true.
Proof.
  intros Hp. induction s as [s Hl|a b c d s IH] using string4_ind.
  - by destruct s as [|? [|? [|? [|? ?]]]]; simpl in Hl; try lia.
  - rewrite chunks4_join_step. cbn [all_bytes]. intros; bools. destruct s as [|e s].
    { by repeat (apply andb_true_iff; split). }
    set (t := String e s) in *. cbn [is_empty t]. fold t. rewrite all_bytes_app.
    repeat (apply andb_true_iff; split); try done. by apply IH.
Qed.

(** Both texts of a valid code reduce to the same normalized bytes. *)
Lemma code_texts_normalize c : code_valid c = true ->
  forall text, text = code_manual c \/ text = code_normalized c ->
  all_bytes is_ascii text = true /\
  map_bytes to_ascii_uppercase (filter_bytes code_byte text) = code_normalized c.
Proof.
  unfold code_valid. intros Hc text Ht. bools.
  destruct (alphabet_normal (ic_id c)) as (_ & F1 & M1 & A1); [done|].
  destruct (alphabet_normal (ic_secret c)) as (_ & F2 & M2 & A2); [done|].
  destruct Ht as [-> | ->]; unfold code_manual, code_normalized, PREFIX;
    rewrite !all_bytes_app, !filter_bytes_app, !map_bytes_app, ?chunks4_join_filter, F1, F2, M1, M2,
      A1, ?chunks4_join_all, ?A2; done.
Qed.

(** An invitation code survives both of its texts.  Parsing the grouped text shown to a
    person ([manual]) or the canonical text ([normalized]) of a valid code returns that code,
    so its secret digest is unchanged too. *)
Theorem invitation_code_roundtrip c : code_valid c = true ->
  InvitationCode_from_str (code_manual c) = Ok c /\
  InvitationCode_from_str (code_normalized c) = Ok c.
Proof.
  intros Hc. pose proof (code_texts_normalize c Hc) as Ht.
  assert (forall text, text = code_manual c \/ text = code_normalized c ->
    InvitationCode_from_str text = Ok c) as H; [|split; apply H; auto].
  intros text Htext. unfold InvitationCode_from_str.
  destruct (Ht text Htext) as [-> ->]. simpl negb. cbv match.
  unfold code_normalized. rewrite strip_prefix_app. unfold code_valid in Hc. bools.
  rewrite str_len_app, H, H1. cbv [ID_LENGTH SECRET_LENGTH] in *. simpl negb. cbv match.
  replace (Z.to_nat 12) with (String.length (ic_id c)) by (unfold str_len in H; lia).
  rewrite split_at_app, InvitationId_id, InvitationSecret_id by done. by destruct c.
Qed.

Definition sample_code : InvitationCode :=
  mkInvitationCode "ABCDEFGHIJKL" "ABCDEFGHIJKLMNOPQRSTUVWXYZ234567".

Lemma invitation_code_roundtrip_witness :
  code_manual sample_code = "INR-ABCDEFGHIJKL-ABCD-EFGH-IJKL-MNOP-QRST-UVWX-YZ23-4567" /\
  InvitationCode_from_str (code_manual sample_code) = Ok sample_code.
Proof.
  split; [reflexivity|]. apply (invitation_code_roundtrip sample_code). reflexivity.
Defined.

(** Whatever text is accepted, the parsed code satisfies the private-field invariant (12
    and 32 base32 characters) and its canonical text is the input with ASCII white space and
    hyphens removed and letters upper-cased: nothing else of the input is dropped or changed. *)
Theorem invitation_code_parse_sound v c :
  InvitationCode_from_str v = Ok c ->
  code_valid c = true /\
  code_normalized c = map_bytes to_ascii_uppercase (filter_bytes code_byte v).
Proof.
  unfold InvitationCode_from_str. intros H. case_match; [done|].
  destruct (strip_prefix _ _) as [body|] eqn:Hs; [|done]. apply strip_prefix_Some in Hs.
  case_match; [done|]. bools.
  destruct (split_at (Z.to_nat ID_LENGTH) body) as [id secret] eqn:Hsplit.
  destruct (InvitationId_from_str id) as [id'|] eqn:Hid; [|done].
  destruct (InvitationSecret_from_str secret) as [sec'|] eqn:Hsec; [|done].
  simplify_eq. pose proof (InvitationId_Ok _ _ Hid). pose proof (InvitationSecret_Ok _ _ Hsec).
  destruct_and!. pose proof (split_at_eq _ _ _ _ Hsplit) as ->.
  assert (String.length id = Z.to_nat ID_LENGTH) as Hlen.
  { eapply split_at_length; [exact Hsplit|]. unfold str_len, ID_LENGTH, SECRET_LENGTH in *. lia. }
  assert (str_len id = ID_LENGTH) as Hi by (unfold str_len, ID_LENGTH in *; lia).
  rewrite str_len_app, Hi in *.
  assert (str_len secret = SECRET_LENGTH) as Hsl by lia.
  split.
  - unfold code_valid; simpl. by rewrite !andb_true_iff, !Z.eqb_eq.
  - rewrite (InvitationId_shape _ _ Hid Hi), (InvitationSecret_shape _ _ Hsec Hsl).
    rewrite <- (uppercase_idemp (filter_bytes code_byte v)), Hs. unfold code_normalized. simpl.
    by rewrite !map_bytes_app.
Qed.

Lemma invitation_code_parse_sound_witness :
  InvitationCode_from_str " inr-abcdefghijkl-abcd efgh-ijkl-mnop-qrst-uvwx-yz23-4567" = Ok sample_code /\
  code_valid sample_code = true.
Proof.
  split; [vm_compute; reflexivity|].
  apply (invitation_code_parse_sound
    " inr-abcdefghijkl-abcd efgh-ijkl-mnop-qrst-uvwx-yz23-4567" sample_code).
  vm_compute. reflexivity.
Defined.
