(* ===== verification/Protocol.v ===== *)
(** * Protocol data

    The wire types of [crates/inari-gateway/src/protocol/]: structured fields,
    snapshots, publications, controller commands, Managed Work, fleet enums and
    signed Agent State observations.  Instants are [instant]; identifier newtypes
    are strings (see [Identifiers]). *)
From S2P Require Import Prelude Errors Identifiers.
From Stdlib Require Import QArith.Qcanon.

(** ** Structured fields ([structured.rs])

    [StructuredFields] is a [BTreeMap]: a list of entries in key order.  A finite
    [f64] is its rational value, so that the two zeros are equal as in Rust. *)
#[warnings="-register-all"]
Inductive StructuredValue : Type :=
| SNull
| SBoolean (b : bool)
| SUnsigned (n : Z)
| SSigned (n : Z)
| SDecimal (q : Qc)
| SText (s : string)
| SList (l : list StructuredValue)
| SObject (fields : list (string * StructuredValue)).
Definition StructuredFields : Type := list (string * StructuredValue).

Definition fields_len (f : StructuredFields) : Z := Z.of_nat (length f).
Fixpoint fields_get (f : StructuredFields) (name : string) : option StructuredValue :=
  match f with
  | [] => None
  | (k, v) :: f' => if String.eqb k name then Some v else fields_get f' name
  end.

Lemma cons_neq_head {A} (a b : A) l m : a <> b -> a :: l <> b :: m.
Proof. congruence. Qed.
Lemma cons_neq_tail {A} (a b : A) l m : l <> m -> a :: l <> b :: m.
Proof. congruence. Qed.
Lemma pair_neq_fst {A B} (a b : A) (c d : B) : a <> b -> (a, c) <> (b, d).
Proof. congruence. Qed.
Lemma pair_neq_snd {A B} (a b : A) (c d : B) : c <> d -> (a, c) <> (b, d).
Proof. congruence. Qed.

#[global] Instance StructuredValue_eq_dec : EqDecision StructuredValue.
Proof.
  unfold EqDecision, RelDecision. fix go 1. intros x y.
  pose (golist := fix golist (l m : list StructuredValue) : Decision (l = m) :=
    match l, m with
    | [], [] => left eq_refl
    | a :: l', b :: m' =>
        match go a b with
        | right n => right (cons_neq_head a b l' m' n)
        | left Ha => match golist l' m' with
                     | left Hl => left (f_equal2 cons Ha Hl)
                     | right n => right (cons_neq_tail a b l' m' n)
                     end
        end
    | [], b :: m' => right (@nil_cons _ b m')
    | a :: l', [] => right (fun H => @nil_cons _ a l' (eq_sym H))
    end).
  pose (gofields := fix gofields (l m : list (string * StructuredValue)) : Decision (l = m) :=
    match l, m with
    | [], [] => left eq_refl
    | (k, a) :: l', (j, b) :: m' =>
        match String.string_dec k j with
        | right n => right (cons_neq_head _ _ l' m' (pair_neq_fst k j a b n))
        | left Hk =>
            match go a b with
            | right n => right (cons_neq_head _ _ l' m' (pair_neq_snd k j a b n))
            | left Ha => match gofields l' m' with
                         | left Hl => left (f_equal2 cons (f_equal2 pair Hk Ha) Hl)
                         | right n => right (cons_neq_tail (k, a) (j, b) l' m' n)
                         end
            end
        end
    | [], b :: m' => right (@nil_cons _ b m')
    | a :: l', [] => right (fun H => @nil_cons _ a l' (eq_sym H))
    end).
  destruct x as [|b|n|n|q|s|l|f], y as [|b'|n'|n'|q'|s'|l'|f']; try (right; congruence).
  - left; reflexivity.
  - destruct (decide (b = b')); [left|right]; congruence.
  - destruct (decide (n = n')); [left|right]; congruence.
  - destruct (decide (n = n')); [left|right]; congruence.
  - destruct (Qc_eq_dec q q'); [left|right]; congruence.
  - destruct (decide (s = s')); [left|right]; congruence.
  - destruct (golist l l'); [left|right]; congruence.
  - destruct (gofields f f'); [left|right]; congruence.
Defined.
#[global] Instance StructuredFields_eq_dec : EqDecision StructuredFields.
Proof. unfold StructuredFields. solve_decision. Defined.

(** ** Snapshots ([snapshot.rs]) *)
Record ServiceDescriptor := mkServiceDescriptor {
  sd_name : option string;
  sd_version : option string;
  sd_attributes : StructuredFields;
}.
Record SecurityDescriptor := mkSecurityDescriptor {
  sec_mode : string;
  sec_exposure : string;
  sec_tls_required : bool;
  sec_certificate_mode : string;
  sec_mutual_tls_mode : string;
  sec_mutual_tls_enabled : bool;
  sec_certificate_expires_at : option instant;
  sec_attributes : StructuredFields;
}.
Record RuntimeDescriptor := mkRuntimeDescriptor {
  rt_queue : list (string * Z);
  rt_devices : StructuredFields;
  rt_inventory : StructuredFields;
}.
Record CapabilityDescriptor := mkCapabilityDescriptor {
  cap_supported_device_commands : list string;
  cap_supported_controller_actions : list string;
  cap_features : list string;
  cap_transport : string;
  cap_client_certificate_present : bool;
}.
Record GatewaySnapshot := mkGatewaySnapshot {
  gs_generated_at : instant;
  gs_protocol : ProtocolDescriptor;
  gs_service : ServiceDescriptor;
  gs_security : SecurityDescriptor;
  gs_runtime : RuntimeDescriptor;
  gs_capabilities : CapabilityDescriptor;
  gs_observability : StructuredFields;
}.
#[global] Instance instant_eq_dec : EqDecision instant := Z.eq_dec.
#[global] Instance ServiceDescriptor_eq_dec : EqDecision ServiceDescriptor.
Proof. solve_decision. Defined.
#[global] Instance SecurityDescriptor_eq_dec : EqDecision SecurityDescriptor.
Proof. solve_decision. Defined.
#[global] Instance RuntimeDescriptor_eq_dec : EqDecision RuntimeDescriptor.
Proof. solve_decision. Defined.
#[global] Instance CapabilityDescriptor_eq_dec : EqDecision CapabilityDescriptor.
Proof. solve_decision. Defined.
#[global] Instance GatewaySnapshot_eq_dec : EqDecision GatewaySnapshot.
Proof. solve_decision. Defined.

(** ** Publications ([publications.rs]) *)
Record RuntimeEvent := mkRuntimeEvent {
  ev_sequence : Z;
  ev_resource_kind : string;
  ev_resource_id : string;
  ev_event_type : string;
  ev_occurred_at : instant;
  ev_payload : StructuredFields;
}.
Inductive AgentPublication : Type :=
| CommandAccepted (message_id command_id : string) (accepted_at : instant)
    (job : option StructuredFields) (detail : string)
| CommandRejected (message_id command_id : string) (rejected_at : instant) (ecode detail : string)
| RuntimeEventPublication (message_id : string) (occurred_at : instant) (event : RuntimeEvent)
    (command_id job_id : option string)
| StatusSnapshot (message_id : string) (snapshot : GatewaySnapshot)
| AgentErrorPublication (message_id : string) (occurred_at : instant) (ecode detail : string)
    (command_id : option string) (retriable : bool).
#[global] Instance RuntimeEvent_eq_dec : EqDecision RuntimeEvent.
Proof. solve_decision. Defined.
#[global] Instance AgentPublication_eq_dec : EqDecision AgentPublication.
Proof. solve_decision. Defined.

Definition message_id (m : AgentPublication) : string :=
  match m with
  | CommandAccepted i _ _ _ _ | CommandRejected i _ _ _ _ | RuntimeEventPublication i _ _ _ _
  | StatusSnapshot i _ | AgentErrorPublication i _ _ _ _ _ => i
  end.
Definition message_type (m : AgentPublication) : string :=
  match m with
  | CommandAccepted _ _ _ _ _ => "agent.command.accepted"
  | CommandRejected _ _ _ _ _ => "agent.command.rejected"
  | RuntimeEventPublication _ _ _ _ _ => "agent.runtime.event"
  | StatusSnapshot _ _ => "agent.status.snapshot"
  | AgentErrorPublication _ _ _ _ _ _ => "agent.error"
  end.
Definition publication_command_id (m : AgentPublication) : option string :=
  match m with
  | CommandAccepted _ c _ _ _ | CommandRejected _ c _ _ _ => Some c
  | RuntimeEventPublication _ _ _ c _ | AgentErrorPublication _ _ _ _ c _ => c
  | StatusSnapshot _ _ => None
  end.
Definition publication_snapshot (m : AgentPublication) : option GatewaySnapshot :=
  match m with StatusSnapshot _ s => Some s | _ => None end.

(** ** Managed Work ([managed_work.rs]) *)
Definition MANAGED_WORK_CONTRACT_MAJOR : Z := 1.
Definition MANAGED_DISPATCH_VERSION : Z := 1.

Record ManagedWorkScope := mkManagedWorkScope {
  sc_database : string;
  sc_company_id : string;
  sc_organization_id : string;
  sc_site_id : string;
  sc_agent_id : string;
}.
Inductive ManagedDocumentOperation : Set := OpReportPdf | OpLabelDocument.
Definition media_type (o : ManagedDocumentOperation) : string :=
  match o with
  | OpReportPdf => "application/pdf"
  | OpLabelDocument => "application/vnd.zebra-zpl"
  end.
Record ReportBindingClaim := mkReportBindingClaim {
  bc_report_binding_id : string;
  bc_binding_revision_id : string;
  bc_report_action_id : string;
  bc_report_contract_digest : string;
  bc_template_digest : string;
  bc_command_profile_id : option string;
  bc_layout_profile_id : option string;
  bc_hardware_matrix_digest : option string;
}.
Record ManagedWorkPreflightRequest := mkManagedWorkPreflightRequest {
  pr_contract_major : Z;
  pr_scope : ManagedWorkScope;
  pr_device_id : string;
  pr_operation : ManagedDocumentOperation;
  pr_binding : ReportBindingClaim;
}.
Inductive ReportSource : Type :=
| SourceRecords (model : string) (ordered_ids : list Z)
| SourceWizard (model : string) (input_digest : string).
Inductive ReportRoute : Set := RouteManual | RouteAutomatic.
Record ReportPrintOrigin := mkReportPrintOrigin {
  po_binding : ReportBindingClaim;
  po_route : ReportRoute;
  po_source : ReportSource;
  po_rendered_document_index : Z;
  po_copy_ordinal : Z;
}.
Inductive ManagedDocument : Type :=
| DocReportPdf (content_base64 : string)
| DocLabelDocument (content_base64 : string).
Definition document_operation (d : ManagedDocument) : ManagedDocumentOperation :=
  match d with DocReportPdf _ => OpReportPdf | DocLabelDocument _ => OpLabelDocument end.
Definition document_media_type (d : ManagedDocument) : string := media_type (document_operation d).
Record ManagedDeviceWork := mkManagedDeviceWork {
  dw_contract_major : Z;
  dw_scope : ManagedWorkScope;
  dw_print_intent_id : string;
  dw_device_id : string;
  dw_origin : ReportPrintOrigin;
  dw_document : ManagedDocument;
  dw_normalized_device_options : StructuredFields;
}.
Inductive DispatchKem : Set := DhkemX25519HkdfSha256.
Record DispatchEncryptionKey := mkDispatchEncryptionKey {
  dk_key_id : string;
  dk_kem : DispatchKem;
  dk_public_key_base64url : string;
}.
Record ManagedWorkSubmission := mkManagedWorkSubmission {
  sub_contract_major : Z;
  sub_preflight_id : string;
  sub_payload_fingerprint : string;
  sub_work : ManagedDeviceWork;
}.
Inductive ManagedWorkState : Set :=
| PendingAgent | Dispatching | Accepted | Rejected | Canceled | Expired | RecoveryUncertain.
Inductive DispatchHpkeSuite : Set := DhkemX25519HkdfSha256HkdfSha256Aes256Gcm.
Record SealedManagedDispatch := mkSealedManagedDispatch {
  sm_protocol_version : Z;
  sm_key_id : string;
  sm_suite : DispatchHpkeSuite;
  sm_encapsulated_key_base64url : string;
  sm_ciphertext_base64url : string;
}.
Record ManagedDispatchAuthenticatedData := mkManagedDispatchAuthenticatedData {
  ad_organization_id : string;
  ad_site_id : string;
  ad_agent_id : string;
  ad_managed_work_id : string;
  ad_idempotency_key : string;
  ad_payload_fingerprint : string;
  ad_dispatch_epoch : Z;
  ad_sequence : Z;
  ad_issued_at : Z;
  ad_expires_at : Z;
  ad_work_expires_at : instant;
}.
Record DispatchDeviceWork := mkDispatchDeviceWork {
  ddw_managed_work_id : string;
  ddw_authenticated_data : ManagedDispatchAuthenticatedData;
  ddw_sealed_envelope : SealedManagedDispatch;
}.

(** ** Controller commands ([jobs.rs]) *)
Inductive DeviceCommand : Type :=
| OpenCashDrawer
| PrintTestPage
| FeedLines (count : Z)
| FeedDots (count : Z)
| CutPaper (mode : string).
Record ExecuteDeviceCommand := mkExecuteDeviceCommand {
  xc_target_device_id : string;
  xc_command : DeviceCommand;
  xc_metadata : StructuredFields;
}.
Inductive ControllerCommand : Type :=
| CmdExecuteDeviceCommand (message_id command_id : string) (sequence : Z) (issued_at : instant)
    (payload : ExecuteDeviceCommand)
| CmdCancelJob (message_id command_id : string) (sequence : Z) (issued_at : instant) (job_id : string)
| CmdDispatchDeviceWork (message_id command_id : string) (sequence : Z) (issued_at : instant)
    (payload : DispatchDeviceWork).
Inductive JobKind : Type :=
| JobExecuteDeviceCommand (payload : ExecuteDeviceCommand)
| JobCancelJob (job_id : string).
Definition required_action (j : JobKind) : string :=
  match j with
  | JobExecuteDeviceCommand _ => "commands:execute"
  | JobCancelJob _ => "jobs:cancel"
  end.
Definition into_message (j : JobKind) (message_id command_id : string) (sequence : Z)
    (issued_at : instant) : ControllerCommand :=
  match j with
  | JobExecuteDeviceCommand payload =>
      CmdExecuteDeviceCommand message_id command_id sequence issued_at payload
  | JobCancelJob job_id => CmdCancelJob message_id command_id sequence issued_at job_id
  end.
Inductive JobState : Set :=
| JobQueued | JobPublished | JobAccepted | JobRejected | JobCompleted | JobFailed | JobSuperseded.

(** ** Fleet enums ([fleet.rs]) *)
Inductive DeviceKind : Set := Printer | Scale | Scanner | Display.
Inductive DeviceClass : Set := Physical | Virtual.
Inductive DeviceState : Set :=
| DevDiscovered | DevPendingApproval | DevOnline | DevOffline | DevDegraded | DevBlocked.
Inductive DeviceTransport : Set := Spooler | Network | Usb | Hid | Serial.
Inductive DeviceCapability : Set :=
| CapPrint | CapWeigh | CapScan | CapCashDrawer | CapCut | CapStatus.

(** ** Agent State observations ([state_envelopes.rs]) *)
Inductive PrintJobState : Set :=
| PjAccepted | PjInProgress | PjOutputConfirmed | PjFailed | PjOutcomeUnknown | PjExpired | PjCanceled.
Definition print_job_state_str (s : PrintJobState) : string :=
  match s with
  | PjAccepted => "accepted"
  | PjInProgress => "in_progress"
  | PjOutputConfirmed => "output_confirmed"
  | PjFailed => "failed"
  | PjOutcomeUnknown => "outcome_unknown"
  | PjExpired => "expired"
  | PjCanceled => "canceled"
  end.
Definition is_terminal (s : PrintJobState) : bool :=
  match s with PjAccepted | PjInProgress => false | _ => true end.
Inductive PrintJobOutputEvidence : Set := EvDevice | EvSpooler | EvTransport.
Record ManagedPrintJobOrigin := mkManagedPrintJobOrigin {
  or_organization_id : string;
  or_site_id : string;
  or_database : string;
  or_company_id : string;
  or_report_binding_id : string;
  or_report_route : ReportRoute;
  or_report_action : string;
  or_source_model : string;
  or_record_ids : list string;
  or_wizard_input_digest : option string;
  or_rendered_document_index : Z;
}.
Record ManagedPrintJobSnapshot := mkManagedPrintJobSnapshot {
  pj_print_job_id : string;
  pj_print_intent_id : string;
  pj_device_id : string;
  pj_origin : ManagedPrintJobOrigin;
  pj_managed_work_id : string;
  pj_state : PrintJobState;
  pj_state_version : Z;
  pj_accepted_at : instant;
  pj_started_at : option instant;
  pj_terminal_at : option instant;
  pj_expires_at : instant;
  pj_error_code : option string;
  pj_message_key : option string;
  pj_confirmation_evidence : option PrintJobOutputEvidence;
  pj_contract_version : string;
}.
Record AgentStateObservation := mkAgentStateObservation {
  ob_contract_major : Z;
  ob_envelope_id : string;
  ob_agent_id : string;
  ob_agent_boot_id : string;
  ob_reconciliation_session_id : string;
  ob_dispatch_epoch : Z;
  ob_envelope_sequence : Z;
  ob_durable_state_sequence : Z;
  ob_observed_at : instant;
  ob_issued_at : instant;
  ob_payload_fingerprint : string;
  ob_job : ManagedPrintJobSnapshot;
}.
Record SignedAgentStateObservation := mkSignedAgentStateObservation {
  so_observation : AgentStateObservation;
  so_state_envelope : string;
}.

(** ** Decidable equality of the derived [PartialEq] types *)
#[global] Instance ManagedWorkScope_eq_dec : EqDecision ManagedWorkScope.
Proof. solve_decision. Defined.
#[global] Instance ManagedDocumentOperation_eq_dec : EqDecision ManagedDocumentOperation.
Proof. solve_decision. Defined.
#[global] Instance ReportBindingClaim_eq_dec : EqDecision ReportBindingClaim.
Proof. solve_decision. Defined.
#[global] Instance ManagedWorkPreflightRequest_eq_dec : EqDecision ManagedWorkPreflightRequest.
Proof. solve_decision. Defined.
#[global] Instance ManagedWorkState_eq_dec : EqDecision ManagedWorkState.
Proof. solve_decision. Defined.
#[global] Instance DispatchKem_eq_dec : EqDecision DispatchKem.
Proof. solve_decision. Defined.
#[global] Instance DispatchEncryptionKey_eq_dec : EqDecision DispatchEncryptionKey.
Proof. solve_decision. Defined.
#[global] Instance ReportRoute_eq_dec : EqDecision ReportRoute.
Proof. solve_decision. Defined.
#[global] Instance PrintJobState_eq_dec : EqDecision PrintJobState.
Proof. solve_decision. Defined.
#[global] Instance PrintJobOutputEvidence_eq_dec : EqDecision PrintJobOutputEvidence.
Proof. solve_decision. Defined.
#[global] Instance ManagedPrintJobOrigin_eq_dec : EqDecision ManagedPrintJobOrigin.
Proof. solve_decision. Defined.
#[global] Instance ManagedPrintJobSnapshot_eq_dec : EqDecision ManagedPrintJobSnapshot.
Proof. solve_decision. Defined.
#[global] Instance AgentStateObservation_eq_dec : EqDecision AgentStateObservation.
Proof. solve_decision. Defined.
#[global] Instance SignedAgentStateObservation_eq_dec : EqDecision SignedAgentStateObservation.
Proof. solve_decision. Defined.
#[global] Instance DeviceKind_eq_dec : EqDecision DeviceKind.
Proof. solve_decision. Defined.
#[global] Instance DeviceClass_eq_dec : EqDecision DeviceClass.
Proof. solve_decision. Defined.
