(* ===== verification/Schema.v ===== *)
(** * The controller's database

    The rows of [crates/inari-gateway/src/persistence/entity/], the stored enums
    of [entity/value.rs] and the schema that [crates/inari-migration/src/] builds:
    primary keys, unique and foreign keys, checks and the router-policy triggers.
    A table is a finite map from its primary key; a statement is a [tx] that
    either updates the tables or reports the constraint it violates. *)
From S2P Require Import Prelude Errors Identifiers Protocol.

(** ** Stored enums ([entity/value.rs]) *)
Inductive AgentKeyPurpose : Set := TransportIdentity | AgentState.
Inductive StoredInvitationState : Set :=
| SInvCreated | SInvEnrolled | SInvOnline | SInvExpired | SInvFailed | SInvRevoked.
Inductive CommandState : Set :=
| CsQueued | CsPublished | CsAccepted | CsRejected | CsCompleted | CsFailed | CsSuperseded.
Inductive ManagedDocumentOperationValue : Set := MvReportPdf | MvLabelDocument.
Inductive ManagedWorkStateValue : Set :=
| MwPendingAgent | MwDispatching | MwAccepted | MwRejected | MwCanceled | MwExpired | MwRecoveryUncertain.
Inductive StoredDeviceKind : Set := SPrinter | SScale | SScanner | SDisplay.
Inductive StoredDeviceClass : Set := SPhysical | SVirtual.
Inductive StoredDeviceState : Set :=
| SDevDiscovered | SDevPendingApproval | SDevOnline | SDevOffline | SDevDegraded | SDevBlocked.
Inductive StoredDeviceTransport : Set := SSpooler | SNetwork | SUsb | SHid | SSerial.
Inductive PublicationType : Set :=
| PtCommandAccepted | PtCommandRejected | PtRuntimeEvent | PtStatusSnapshot | PtError.

Definition PublicationType_from_message (m : AgentPublication) : PublicationType :=
  match m with
  | CommandAccepted _ _ _ _ _ => PtCommandAccepted
  | CommandRejected _ _ _ _ _ => PtCommandRejected
  | RuntimeEventPublication _ _ _ _ _ => PtRuntimeEvent
  | StatusSnapshot _ _ => PtStatusSnapshot
  | AgentErrorPublication _ _ _ _ _ _ => PtError
  end.

#[global] Instance AgentKeyPurpose_eq_dec : EqDecision AgentKeyPurpose.
Proof. solve_decision. Defined.
#[global] Instance StoredInvitationState_eq_dec : EqDecision StoredInvitationState.
Proof. solve_decision. Defined.
#[global] Instance CommandState_eq_dec : EqDecision CommandState.
Proof. solve_decision. Defined.
#[global] Instance ManagedWorkStateValue_eq_dec : EqDecision ManagedWorkStateValue.
Proof. solve_decision. Defined.
#[global] Instance StoredDeviceKind_eq_dec : EqDecision StoredDeviceKind.
Proof. solve_decision. Defined.
#[global] Instance PublicationType_eq_dec : EqDecision PublicationType.
Proof. solve_decision. Defined.

(** ** JSON Web Keys

    The fields of [jsonwebtoken::jwk::Jwk] that the gateway reads. *)
Inductive JwkAlgorithm : Set := AlgEdDSA | AlgOther.
Inductive JwkUse : Set := UseSignature | UseOther.
Inductive JwkCurve : Set := CrvEd25519 | CrvOther.
Inductive JwkParameters : Type := OctetKeyPair (curve : JwkCurve) (x : string) | OtherKeyType.
Record Jwk := mkJwk {
  jwk_key_id : option string;
  jwk_key_algorithm : option JwkAlgorithm;
  jwk_public_key_use : option JwkUse;
  jwk_has_key_operations : bool;
  jwk_algorithm : JwkParameters;
}.
#[global] Instance JwkAlgorithm_eq_dec : EqDecision JwkAlgorithm.
Proof. solve_decision. Defined.
#[global] Instance JwkUse_eq_dec : EqDecision JwkUse.
Proof. solve_decision. Defined.
#[global] Instance JwkCurve_eq_dec : EqDecision JwkCurve.
Proof. solve_decision. Defined.
#[global] Instance JwkParameters_eq_dec : EqDecision JwkParameters.
Proof. solve_decision. Defined.
#[global] Instance Jwk_eq_dec : EqDecision Jwk.
Proof. solve_decision. Defined.

(** ** Rows *)
Record OrganizationRow := mkOrganization {
  og_organization_id : string; og_name : string; og_created_at : instant; og_updated_at : instant }.
Record SiteRow := mkSite {
  st_site_id : string; st_organization_id : string; st_name : string;
  st_created_at : instant; st_updated_at : instant }.
Record AgentRow := mkAgent {
  ag_agent_id : string;
  ag_organization_id : string;
  ag_site_id : string;
  ag_key_id : string;
  ag_jwk_thumbprint : string;
  ag_public_jwk : Jwk;
  ag_dispatch_key : option DispatchEncryptionKey;
  ag_namespace : string;
  ag_protocol_version : string;
  ag_controller_actions : list string;
  ag_enrolled_at : instant;
  ag_last_enrolled_at : instant;
}.
Record DeviceRow := mkDevice {
  dv_agent_id : string;
  dv_device_id : string;
  dv_site_id : string;
  dv_kind : StoredDeviceKind;
  dv_device_class : StoredDeviceClass;
  dv_display_name : string;
  dv_state : StoredDeviceState;
  dv_transport : StoredDeviceTransport;
  dv_identity_digest : string;
  dv_capabilities : list DeviceCapability;
  dv_first_seen_at : instant;
  dv_last_seen_at : instant;
}.
Record InvitationRow := mkInvitation {
  iv_invitation_id : string;
  iv_organization_id : string;
  iv_site_id : string;
  iv_label : option string;
  iv_secret_digest : string;
  iv_state : StoredInvitationState;
  iv_created_at : instant;
  iv_expires_at : instant;
  iv_enrolled_at : option instant;
  iv_online_at : option instant;
  iv_revoked_at : option instant;
  iv_failed_at : option instant;
  iv_last_error : option string;
  iv_bound_agent_id : option string;
  iv_bound_key_id : option string;
  iv_latest_snapshot : option GatewaySnapshot;
  iv_enrollment_fingerprint : option string;
}.
Inductive CommandContent : Type :=
| Inline (command : ControllerCommand)
| ManagedWorkContent (managed_work_id : string).
Record CommandRow := mkCommand {
  cm_command_id : string;
  cm_agent_id : string;
  cm_message_id : string;
  cm_sequence : Z;
  cm_state : CommandState;
  cm_command : CommandContent;
  cm_request_fingerprint : string;
  cm_issued_at : instant;
  cm_published_at : option instant;
  cm_updated_at : instant;
}.
Record PublicationRow := mkPublication {
  pb_message_id : string;
  pb_agent_id : string;
  pb_key_expr : string;
  pb_message_type : option PublicationType;
  pb_payload : AgentPublication;
  pb_received_at : instant;
}.
Record AuditEventRow := mkAuditEvent {
  au_event_id : Z;
  au_organization_id : string;
  au_actor_id : string;
  au_action : string;
  au_resource_kind : string;
  au_resource_id : option string;
  au_outcome : string;
  au_request_id : option string;
  au_detail : StructuredFields;
  au_occurred_at : instant;
}.
Record ManagedWorkPreflightRow := mkPreflight {
  pf_preflight_id : string;
  pf_request : ManagedWorkPreflightRequest;
  pf_dispatch_key_id : string;
  pf_capability_digest : string;
  pf_work_expires_at : instant;
  pf_idempotency_expires_at : instant;
  pf_submit_before : instant;
  pf_created_at : instant;
}.
Record ManagedWorkRow := mkManagedWork {
  mw_managed_work_id : string;
  mw_preflight_id : string;
  mw_organization_id : string;
  mw_idempotency_key : string;
  mw_database_name : string;
  mw_company_id : string;
  mw_site_id : string;
  mw_agent_id : string;
  mw_device_id : string;
  mw_print_intent_id : string;
  mw_operation : ManagedDocumentOperationValue;
  mw_media_type : string;
  mw_state : ManagedWorkStateValue;
  mw_binding_claim : ReportBindingClaim;
  mw_payload_fingerprint : string;
  mw_request_fingerprint : string;
  mw_payload_bytes : Z;
  mw_payload_deleted_at : option instant;
  mw_print_job_id : option string;
  mw_print_job_observation : option SignedAgentStateObservation;
  mw_error_code : option string;
  mw_message_key : string;
  mw_expires_at : instant;
  mw_idempotency_expires_at : instant;
  mw_admitted_at : instant;
  mw_updated_at : instant;
}.
Record ManagedPayloadRow := mkManagedPayload {
  mp_managed_work_id : string;
  mp_ciphertext : string;
  mp_nonce : string;
  mp_wrapped_data_key : string;
  mp_wrapping_key_version : Z;
  mp_authenticated_data_digest : string;
  mp_payload_fingerprint : string;
  mp_plaintext_bytes : Z;
  mp_expires_at : instant;
  mp_created_at : instant;
}.
Record VerificationKeyRow := mkVerificationKey {
  vk_key_id : string;
  vk_agent_id : string;
  vk_purpose : AgentKeyPurpose;
  vk_jwk_thumbprint : string;
  vk_public_jwk : Jwk;
  vk_registered_at : instant;
  vk_retired_at : option instant;
}.
Record ObservationRow := mkObservation {
  os_envelope_id : string;
  os_agent_id : string;
  os_managed_work_id : string;
  os_observation : SignedAgentStateObservation;
  os_received_at : instant;
}.
(** [signed_policy] is an opaque JSON value; its text stands for it. *)
Record RouterPolicyRow := mkRouterPolicy {
  rp_organization_id : string;
  rp_authority_revision : Z;
  rp_policy_revision : option Z;
  rp_generation : Z;
  rp_configuration_digest : option string;
  rp_policy_digest : option string;
  rp_signed_policy : option string;
  rp_expires_at : option instant;
  rp_acknowledged_at : option instant;
}.

Record Database := mkDatabase {
  organizations : gmap string OrganizationRow;
  sites : gmap string SiteRow;
  agents : gmap string AgentRow;
  devices : gmap (string * string) DeviceRow;
  invitations : gmap string InvitationRow;
  invitation_attempts : gset (string * instant);
  commands : gmap string CommandRow;
  publications : gmap string PublicationRow;
  audit_events : gmap Z AuditEventRow;
  audit_event_id_seq : Z;
  managed_work_preflights : gmap string ManagedWorkPreflightRow;
  managed_work : gmap string ManagedWorkRow;
  managed_payloads : gmap string ManagedPayloadRow;
  agent_verification_keys : gmap string VerificationKeyRow;
  agent_state_observations : gmap string ObservationRow;
  router_policies : gmap string RouterPolicyRow;
}.

#[global] Instance eta_Organization : Eta OrganizationRow := fun r =>
  mkOrganization (og_organization_id r) (og_name r) (og_created_at r) (og_updated_at r).
#[global] Instance eta_Site : Eta SiteRow := fun r =>
  mkSite (st_site_id r) (st_organization_id r) (st_name r) (st_created_at r) (st_updated_at r).
#[global] Instance eta_Device : Eta DeviceRow := fun r =>
  mkDevice (dv_agent_id r) (dv_device_id r) (dv_site_id r) (dv_kind r) (dv_device_class r)
    (dv_display_name r) (dv_state r) (dv_transport r) (dv_identity_digest r) (dv_capabilities r)
    (dv_first_seen_at r) (dv_last_seen_at r).
#[global] Instance eta_Agent : Eta AgentRow := fun r =>
  mkAgent (ag_agent_id r) (ag_organization_id r) (ag_site_id r) (ag_key_id r) (ag_jwk_thumbprint r)
    (ag_public_jwk r) (ag_dispatch_key r) (ag_namespace r) (ag_protocol_version r)
    (ag_controller_actions r) (ag_enrolled_at r) (ag_last_enrolled_at r).
#[global] Instance eta_Invitation : Eta InvitationRow := fun r =>
  mkInvitation (iv_invitation_id r) (iv_organization_id r) (iv_site_id r) (iv_label r)
    (iv_secret_digest r) (iv_state r) (iv_created_at r) (iv_expires_at r) (iv_enrolled_at r)
    (iv_online_at r) (iv_revoked_at r) (iv_failed_at r) (iv_last_error r) (iv_bound_agent_id r)
    (iv_bound_key_id r) (iv_latest_snapshot r) (iv_enrollment_fingerprint r).
#[global] Instance eta_Command : Eta CommandRow := fun r =>
  mkCommand (cm_command_id r) (cm_agent_id r) (cm_message_id r) (cm_sequence r) (cm_state r)
    (cm_command r) (cm_request_fingerprint r) (cm_issued_at r) (cm_published_at r) (cm_updated_at r).
#[global] Instance eta_ManagedWork : Eta ManagedWorkRow := fun r =>
  mkManagedWork (mw_managed_work_id r) (mw_preflight_id r) (mw_organization_id r)
    (mw_idempotency_key r) (mw_database_name r) (mw_company_id r) (mw_site_id r) (mw_agent_id r)
    (mw_device_id r) (mw_print_intent_id r) (mw_operation r) (mw_media_type r) (mw_state r)
    (mw_binding_claim r) (mw_payload_fingerprint r) (mw_request_fingerprint r) (mw_payload_bytes r)
    (mw_payload_deleted_at r) (mw_print_job_id r) (mw_print_job_observation r) (mw_error_code r)
    (mw_message_key r) (mw_expires_at r) (mw_idempotency_expires_at r) (mw_admitted_at r)
    (mw_updated_at r).
#[global] Instance eta_VerificationKey : Eta VerificationKeyRow := fun r =>
  mkVerificationKey (vk_key_id r) (vk_agent_id r) (vk_purpose r) (vk_jwk_thumbprint r)
    (vk_public_jwk r) (vk_registered_at r) (vk_retired_at r).
#[global] Instance eta_RouterPolicy : Eta RouterPolicyRow := fun r =>
  mkRouterPolicy (rp_organization_id r) (rp_authority_revision r) (rp_policy_revision r)
    (rp_generation r) (rp_configuration_digest r) (rp_policy_digest r) (rp_signed_policy r)
    (rp_expires_at r) (rp_acknowledged_at r).
#[global] Instance eta_Database : Eta Database := fun d =>
  mkDatabase (organizations d) (sites d) (agents d) (devices d) (invitations d)
    (invitation_attempts d) (commands d) (publications d) (audit_events d) (audit_event_id_seq d)
    (managed_work_preflights d) (managed_work d) (managed_payloads d) (agent_verification_keys d)
    (agent_state_observations d) (router_policies d).

(** The schema after its migrations, before any organization exists. *)
Definition empty_database : Database :=
  mkDatabase ∅ ∅ ∅ ∅ ∅ ∅ ∅ ∅ ∅ 0 ∅ ∅ ∅ ∅ ∅ ∅.

Notation Tx := (tx Database GatewayError).
Notation Repo := (repo Database GatewayError).

(** [stored_time] drops the offset; a [TIMESTAMPTZ] column or bound parameter keeps
    microseconds. *)
Definition stored_time (t : instant) : instant := trunc_micros t.
Definition utc_time (t : instant) : instant := t.

(** ** Queries *)
Section Queries.
Context {K V : Type} `{Countable K}.
Implicit Types (m : gmap K V) (p : V -> bool).

Definition no_row m p : bool := bool_decide (map_Forall (fun _ v => p v = false) m).
Definition rows m : list V := (map_to_list m).*2.
Definition rows_where m p : list V := List.filter p (rows m).
Definition find_one m p : option V := head (rows_where m p).
Definition update_where (p : V -> bool) (f : V -> V) m : gmap K V :=
  (fun v => if p v then f v else v) <$> m.
Definition delete_where m p : gmap K V := filter (fun kv => p kv.2 = false) m.
Definition count_where m p : Z := Z.of_nat (length (rows_where m p)).

Lemma no_row_true m p : no_row m p = true <-> forall k v, m !! k = Some v -> p v = false.
Proof. unfold no_row. rewrite bool_decide_eq_true. done. Qed.
Lemma elem_of_rows m v : v ∈ rows m <-> exists k, m !! k = Some v.
Proof.
  unfold rows. rewrite list_elem_of_fmap. split.
  - intros ([k w] & -> & Hk%elem_of_map_to_list). eauto.
  - intros [k Hk]. exists (k, v). by rewrite elem_of_map_to_list.
Qed.
Lemma elem_of_rows_where m p v : v ∈ rows_where m p <-> p v = true /\ exists k, m !! k = Some v.
Proof. unfold rows_where. rewrite list_elem_of_In, filter_In, <- list_elem_of_In, elem_of_rows. naive_solver. Qed.
Lemma find_one_Some m p v : find_one m p = Some v -> p v = true /\ exists k, m !! k = Some v.
Proof. intros Hv. apply elem_of_rows_where. unfold find_one in Hv. destruct (rows_where m p); simplify_eq/=; set_solver. Qed.
Lemma find_one_None m p : find_one m p = None -> forall k v, m !! k = Some v -> p v = false.
Proof.
  intros Hn k v Hk. destruct (p v) eqn:Hp; [|done].
  assert (v ∈ rows_where m p) as Hin by (apply elem_of_rows_where; eauto).
  unfold find_one in Hn. destruct (rows_where m p); [set_solver|done].
Qed.
Lemma no_row_false m p :
  no_row m p = false <-> exists k v, m !! k = Some v /\ p v = true.
Proof.
  split.
  - intros Hn. destruct (find_one m p) as [v|] eqn:Hf.
    + apply find_one_Some in Hf as [Hp [k Hk]]. eauto.
    + assert (no_row m p = true) as Ht by (apply no_row_true; intros k v Hk; eapply find_one_None; eauto).
      congruence.
  - intros (k & v & Hk & Hp). destruct (no_row m p) eqn:Hn; [|done].
    rewrite no_row_true in Hn. specialize (Hn k v Hk). congruence.
Qed.
Lemma lookup_update_where p f m k :
  update_where p f m !! k = (fun v => if p v then f v else v) <$> m !! k.
Proof. apply lookup_fmap. Qed.
Lemma lookup_delete_where m p k v :
  delete_where m p !! k = Some v <-> m !! k = Some v /\ p v = false.
Proof. unfold delete_where. by rewrite map_lookup_filter_Some. Qed.
Lemma rows_where_keys m p : rows_where m p = (List.filter (fun kv => p kv.2) (map_to_list m)).*2.
Proof.
  unfold rows_where, rows. induction (map_to_list m) as [|[k v] l IH]; [done|].
  csimpl. destruct (p v); csimpl; by rewrite IH.
Qed.
Lemma NoDup_list_filter {A} (p : A -> bool) (l : list A) : NoDup l -> NoDup (List.filter p l).
Proof.
  induction 1 as [|a l Ha Hl IH]; simpl; [constructor|]. destruct (p a); [|done].
  constructor; [|done]. rewrite list_elem_of_In, filter_In, <- list_elem_of_In. tauto.
Qed.
(** A column that tells the selected rows apart lists without repetition. *)
Lemma NoDup_rows_where {B} (f : V -> B) m p :
  (forall k1 k2 v1 v2, m !! k1 = Some v1 -> m !! k2 = Some v2 -> p v1 = true -> p v2 = true ->
     f v1 = f v2 -> k1 = k2) ->
  NoDup (f <$> rows_where m p).
Proof.
  intros Hinj. rewrite rows_where_keys, <- list_fmap_compose.
  apply NoDup_fmap_2_strong; [|apply NoDup_list_filter, NoDup_map_to_list].
  intros [k1 v1] [k2 v2]. rewrite !list_elem_of_In, !filter_In, <- !list_elem_of_In, !elem_of_map_to_list.
  simpl. intros [H1 P1] [H2 P2] E. assert (k1 = k2) as -> by eauto. congruence.
Qed.
Lemma lookup_delete_where_eq m p k :
  delete_where m p !! k = (v ← m !! k; if p v then None else Some v).
Proof.
  destruct (delete_where m p !! k) as [v|] eqn:E.
  - apply lookup_delete_where in E as [-> Hp]. simpl. by rewrite Hp.
  - destruct (m !! k) as [v|] eqn:Hm; [|done]. simpl. destruct (p v) eqn:Hp; [done|].
    assert (delete_where m p !! k = Some v) by by apply lookup_delete_where. congruence.
Qed.

Lemma update_where_none p f m :
  (forall k v, m !! k = Some v -> p v = false) -> update_where p f m = m.
Proof.
  intros Hn. apply map_eq. intros k. rewrite lookup_update_where. destruct (m !! k) as [v|] eqn:E; [|done].
  simpl. by rewrite (Hn k v E).
Qed.
Lemma delete_where_none p m :
  (forall k v, m !! k = Some v -> p v = false) -> delete_where m p = m.
Proof.
  intros Hn. apply map_eq. intros k. rewrite lookup_delete_where_eq. destruct (m !! k) as [v|] eqn:E; [|done].
  simpl. by rewrite (Hn k v E).
Qed.
Lemma rows_where_none p m :
  (forall k v, m !! k = Some v -> p v = false) -> rows_where m p = [].
Proof.
  intros Hn. destruct (rows_where m p) as [|v l] eqn:E; [done|].
  assert (v ∈ rows_where m p) as Hv by (rewrite E; set_solver).
  apply elem_of_rows_where in Hv as [Hp [k Hk]]. rewrite (Hn k v Hk) in Hp. done.
Qed.
Lemma list_filter_Permutation {A} (q : A -> bool) (l l' : list A) : l ≡ₚ l' -> List.filter q l ≡ₚ List.filter q l'.
Proof.
  induction 1 as [|a l l' _ IH|a b l|l1 l2 l3 _ IH1 _ IH2]; simpl; [done| | |by etrans].
  - destruct (q a); [by f_equiv|done].
  - destruct (q a), (q b); try done. apply perm_swap.
Qed.
(** A new row is selected or not; the others are as before. *)
Lemma rows_where_insert m p k v : m !! k = None ->
  rows_where (<[k := v]> m) p ≡ₚ ((if p v then [v] else []) ++ rows_where m p)%list.
Proof.
  intros Hk. unfold rows_where, rows.
  assert ((map_to_list (<[k := v]> m)).*2 ≡ₚ v :: (map_to_list m).*2) as E by (by rewrite map_to_list_insert).
  rewrite (list_filter_Permutation p _ _ E). simpl. by destruct (p v).
Qed.
(** The rows but one are selected alike before and after that one is replaced. *)
Lemma rows_where_replace m p k v v' : m !! k = Some v -> exists others : list V,
  rows_where m p ≡ₚ ((if p v then [v] else []) ++ others)%list /\
  rows_where (<[k := v']> m) p ≡ₚ ((if p v' then [v'] else []) ++ others)%list.
Proof.
  intros Hk. exists (rows_where (delete k m) p). split.
  - rewrite <- (insert_delete_id m k v Hk) at 1. apply rows_where_insert, lookup_delete_eq.
  - rewrite <- insert_delete_eq. apply rows_where_insert, lookup_delete_eq.
Qed.

End Queries.

(** [ORDER BY]: rows in ascending order of a total preorder.  Text columns sort in the
    collation of the database, a parameter of the deployment. *)
Class Collation := collate_le : string -> string -> bool.
Definition order_by {V} (le : V -> V -> bool) (l : list V) : list V :=
  merge_sort (fun a b => Is_true (le a b)) l.
Definition by_text `{Collation} {V} (f : V -> string) (a b : V) : bool := collate_le (f a) (f b).
Definition by_asc {V} (f : V -> Z) (a b : V) : bool := f a <=? f b.
Definition by_desc {V} (f : V -> Z) (a b : V) : bool := f b <=? f a.

Lemma order_by_Permutation {V} (le : V -> V -> bool) l : order_by le l ≡ₚ l.
Proof. apply merge_sort_Permutation. Qed.
Lemma elem_of_order_by {V} (le : V -> V -> bool) l v : v ∈ order_by le l <-> v ∈ l.
Proof. by rewrite order_by_Permutation. Qed.
(** The rows of a sorted query are in order, whatever the order is. *)
Lemma order_by_sorted {V} (le : V -> V -> bool) l :
  (forall a b c, le a b = true -> le b c = true -> le a c = true) ->
  (forall a b, le a b = true \/ le b a = true) ->
  StronglySorted (fun a b => le a b = true) (order_by le l).
Proof.
  intros Htrans Htotal.
  set (R := fun a b => Is_true (le a b)).
  assert (Transitive R) by (intros a b c; unfold R; rewrite !Is_true_true; apply Htrans).
  assert (Total R) by (intros a b; unfold R; rewrite !Is_true_true; apply Htotal).
  assert (StronglySorted R (order_by le l)) as Hs
    by (apply Sorted_StronglySorted; [done|]; apply (Sorted_merge_sort R)).
  clear -Hs. induction Hs as [|a l' Hs IH Ha]; constructor; [done|].
  eapply Forall_impl; [|exact Ha]. unfold R. intros b. by rewrite Is_true_true.
Qed.
Lemma order_by_asc_sorted {V} (f : V -> Z) l :
  StronglySorted (fun a b => by_asc f a b = true) (order_by (by_asc f) l).
Proof.
  apply order_by_sorted; unfold by_asc; intros; rewrite ?Z.leb_le in *; lia.
Qed.
Lemma order_by_desc_sorted {V} (f : V -> Z) l :
  StronglySorted (fun a b => by_desc f a b = true) (order_by (by_desc f) l).
Proof.
  apply order_by_sorted; unfold by_desc; intros; rewrite ?Z.leb_le in *; lia.
Qed.

(** ** Constraints *)
Definition exists_in {K V} `{Countable K} (m : gmap K V) (k : K) : bool := bool_decide (is_Some (m !! k)).
Definition unique (name : string) (b : bool) : Tx unit := require b (Persistence (UniqueViolation name)).
Definition references (name : string) (b : bool) : Tx unit := require b (Persistence (ForeignKeyViolation name)).
Definition check (name : string) (b : bool) : Tx unit := require b (Persistence (CheckViolation name)).
Definition digest32 (s : string) : bool := str_len s =? 32.

(** ** Triggers of [m20261003_223035_router_admission]

    [invalidate_router_policy] bumps the organization's authority revision and
    clears its acknowledgment whenever an Agent or a verification key changes;
    [initialize_router_policy] creates the policy row of a new organization. *)
Definition bump_authority (r : RouterPolicyRow) : RouterPolicyRow :=
  r <| rp_authority_revision := rp_authority_revision r + 1 |> <| rp_acknowledged_at := None |>.

Definition invalidate_organization (organization : string) : Tx unit :=
  db ← get;
  match router_policies db !! organization with
  | None => mret tt
  | Some row =>
      if rp_authority_revision row =? i64_max then throw (Persistence NumericOutOfRange)
      else modify (fun db => db <| router_policies := <[organization := bump_authority row]> (router_policies db) |>)
  end.

Definition invalidate_on_agent_insert (new : AgentRow) : Tx unit :=
  invalidate_organization (ag_organization_id new).
Definition invalidate_on_agent_update (old new : AgentRow) : Tx unit :=
  _ ← invalidate_organization (ag_organization_id old);
  invalidate_organization (ag_organization_id new).
Definition invalidate_on_key_change (agent_id : string) : Tx unit :=
  db ← get;
  match agents db !! agent_id with
  | None => mret tt
  | Some agent => invalidate_organization (ag_organization_id agent)
  end.

Definition initial_router_policy (organization_id : string) : RouterPolicyRow :=
  mkRouterPolicy organization_id 0 None 0 None None None None None.
Definition initialize_router_policy (organization_id : string) : Tx unit :=
  db ← get;
  _ ← unique "router_policies_pkey" (negb (exists_in (router_policies db) organization_id));
  modify (fun db => db <| router_policies :=
    <[organization_id := initial_router_policy organization_id]> (router_policies db) |>).

(** ** Statements: organizations and sites *)
Definition upsert_organization (row : OrganizationRow) : Tx unit :=
  db ← get;
  match organizations db !! og_organization_id row with
  | Some old =>
      modify (fun db => db <| organizations := <[og_organization_id row :=
        old <| og_name := og_name row |> <| og_updated_at := og_updated_at row |>]> (organizations db) |>)
  | None =>
      _ ← modify (fun db => db <| organizations := <[og_organization_id row := row]> (organizations db) |>);
      initialize_router_policy (og_organization_id row)
  end.

Definition sites_constraints (new : SiteRow) : Tx unit :=
  db ← get;
  _ ← unique "sites_organization_name_key"
        (no_row (delete (st_site_id new) (sites db)) (fun s =>
          String.eqb (st_organization_id s) (st_organization_id new) && String.eqb (st_name s) (st_name new)));
  references "sites_organization_fk" (exists_in (organizations db) (st_organization_id new)).

Definition upsert_site (row : SiteRow) : Tx unit :=
  db ← get;
  let new := match sites db !! st_site_id row with
             | Some old => old <| st_name := st_name row |> <| st_updated_at := st_updated_at row |>
             | None => row
             end in
  _ ← sites_constraints new;
  modify (fun db => db <| sites := <[st_site_id row := new]> (sites db) |>).

(** ** Statements: Agents and verification keys *)

Definition agents_constraints (row : AgentRow) : Tx unit :=
  db ← get;
  let others := delete (ag_agent_id row) (agents db) in
  _ ← unique "agents_key_id_key" (no_row others (fun a => String.eqb (ag_key_id a) (ag_key_id row)));
  _ ← unique "agents_namespace_key" (no_row others (fun a => String.eqb (ag_namespace a) (ag_namespace row)));
  _ ← references "agents_organization_fk" (exists_in (organizations db) (ag_organization_id row));
  references "agents_site_fk" (exists_in (sites db) (ag_site_id row)).

(** [INSERT INTO agents ... ON CONFLICT (agent_id) DO UPDATE]: every column but the
    first enrollment time is replaced. *)
Definition upsert_agent (row : AgentRow) : Tx unit :=
  db ← get;
  _ ← agents_constraints row;
  match agents db !! ag_agent_id row with
  | Some old =>
      let new := row <| ag_enrolled_at := ag_enrolled_at old |> in
      _ ← modify (fun db => db <| agents := <[ag_agent_id row := new]> (agents db) |>);
      invalidate_on_agent_update old new
  | None =>
      _ ← modify (fun db => db <| agents := <[ag_agent_id row := row]> (agents db) |>);
      invalidate_on_agent_insert row
  end.

Definition active_key (k : VerificationKeyRow) : bool := bool_decide (vk_retired_at k = None).

(** The primary key, the unique thumbprint, and the partial index of active keys. *)
Definition verification_key_conflict (db : Database) (row : VerificationKeyRow) : bool :=
  exists_in (agent_verification_keys db) (vk_key_id row)
  || negb (no_row (agent_verification_keys db) (fun k => String.eqb (vk_jwk_thumbprint k) (vk_jwk_thumbprint row)))
  || (active_key row && negb (no_row (agent_verification_keys db) (fun k =>
        String.eqb (vk_agent_id k) (vk_agent_id row) && bool_decide (vk_purpose k = vk_purpose row)
        && active_key k))).

(** [INSERT INTO agent_verification_keys ... ON CONFLICT DO NOTHING]. *)
Definition try_insert_verification_key (row : VerificationKeyRow) : Tx bool :=
  db ← get;
  if verification_key_conflict db row then mret false else
  _ ← references "agent_verification_key_owner_fk" (exists_in (agents db) (vk_agent_id row));
  _ ← modify (fun db => db <| agent_verification_keys :=
        <[vk_key_id row := row]> (agent_verification_keys db) |>);
  _ ← invalidate_on_key_change (vk_agent_id row);
  mret true.

(** [UPDATE agent_verification_keys SET retired_at = t WHERE p]: the trigger fires once
    per affected row.  The result is the number of affected rows. *)
Definition retire_keys_where (p : VerificationKeyRow -> bool) (t : instant) : Tx Z :=
  db ← get;
  let affected := rows_where (agent_verification_keys db) p in
  _ ← modify (fun db => db <| agent_verification_keys :=
        update_where p (fun k => k <| vk_retired_at := Some t |>) (agent_verification_keys db) |>);
  _ ← each (fun k => invalidate_on_key_change (vk_agent_id k)) affected;
  mret (Z.of_nat (length affected)).

(** ** Statements: devices *)
Definition lower_hex (c : ascii) : bool := is_ascii_digit c || byte_in 97 102 c.
Definition devices_constraints (row : DeviceRow) : Tx unit :=
  db ← get;
  _ ← check "devices_identity_digest_check"
        ((str_len (dv_identity_digest row) =? 64) && all_bytes lower_hex (dv_identity_digest row));
  _ ← unique "devices_agent_identity_key"
        (no_row (delete (dv_agent_id row, dv_device_id row) (devices db)) (fun d =>
          String.eqb (dv_agent_id d) (dv_agent_id row) && bool_decide (dv_kind d = dv_kind row)
          && String.eqb (dv_identity_digest d) (dv_identity_digest row)));
  _ ← references "devices_agent_fk" (exists_in (agents db) (dv_agent_id row));
  references "devices_site_fk" (exists_in (sites db) (dv_site_id row)).

(** [INSERT INTO devices ... ON CONFLICT (agent_id, device_id) DO UPDATE]: the kind, the
    identity and the first observation are kept. *)
Definition upsert_device (row : DeviceRow) : Tx unit :=
  db ← get;
  let key := (dv_agent_id row, dv_device_id row) in
  let new := match devices db !! key with
             | Some old => row <| dv_kind := dv_kind old |> <| dv_identity_digest := dv_identity_digest old |>
                               <| dv_first_seen_at := dv_first_seen_at old |>
             | None => row
             end in
  _ ← devices_constraints row;
  modify (fun db => db <| devices := <[key := new]> (devices db) |>).

Definition delete_devices_where (p : DeviceRow -> bool) : Tx unit :=
  modify (fun db => db <| devices := delete_where (devices db) p |>).

(** ** Statements: invitations *)
Definition invitations_constraints (row : InvitationRow) : Tx unit :=
  db ← get;
  _ ← unique "invitations_pkey" (negb (exists_in (invitations db) (iv_invitation_id row)));
  _ ← check "invitations_secret_digest_check" (digest32 (iv_secret_digest row));
  _ ← references "invitations_organization_fk" (exists_in (organizations db) (iv_organization_id row));
  references "invitations_site_fk" (exists_in (sites db) (iv_site_id row)).
Definition insert_invitation (row : InvitationRow) : Tx unit :=
  _ ← invitations_constraints row;
  modify (fun db => db <| invitations := <[iv_invitation_id row := row]> (invitations db) |>).

Definition enrollment_fingerprint_check (row : InvitationRow) : bool :=
  match iv_enrollment_fingerprint row with Some d => digest32 d | None => true end.

(** [ActiveModel::update] by primary key; a missing row is [RecordNotUpdated]. *)
Definition update_invitation (id : string) (f : InvitationRow -> InvitationRow) : Tx unit :=
  db ← get;
  row ← expect (invitations db !! id) (Persistence RecordNotUpdated);
  _ ← check "invitations_enrollment_fingerprint_check" (enrollment_fingerprint_check (f row));
  modify (fun db => db <| invitations := <[id := f row]> (invitations db) |>).

Definition update_invitations_where (p : InvitationRow -> bool) (f : InvitationRow -> InvitationRow) : Tx Z :=
  db ← get;
  _ ← modify (fun db => db <| invitations := update_where p f (invitations db) |>);
  mret (count_where (invitations db) p).

Definition invitation_attempts_constraints (invitation_id : string) (attempted_at : instant) : Tx unit :=
  db ← get;
  _ ← unique "invitation_attempts_pkey" (bool_decide ((invitation_id, attempted_at) ∉ invitation_attempts db));
  references "invitation_attempts_invitation_fk" (exists_in (invitations db) invitation_id).
Definition insert_invitation_attempt (invitation_id : string) (attempted_at : instant) : Tx unit :=
  _ ← invitation_attempts_constraints invitation_id attempted_at;
  modify (fun db => db <| invitation_attempts := {[(invitation_id, attempted_at)]} ∪ invitation_attempts db |>).

Definition delete_attempts_where (p : string * instant -> bool) : Tx unit :=
  modify (fun db => db <| invitation_attempts := filter (fun a => p a = false) (invitation_attempts db) |>).

(** ** Statements: commands, publications, audit *)
Definition commands_constraints (row : CommandRow) : Tx unit :=
  db ← get;
  _ ← unique "commands_pkey" (negb (exists_in (commands db) (cm_command_id row)));
  _ ← unique "commands_message_id_key" (no_row (commands db) (fun c => String.eqb (cm_message_id c) (cm_message_id row)));
  _ ← unique "commands_agent_sequence_key" (no_row (commands db) (fun c =>
        String.eqb (cm_agent_id c) (cm_agent_id row) && (cm_sequence c =? cm_sequence row)));
  _ ← check "commands_sequence_check" (0 <? cm_sequence row);
  _ ← check "commands_request_fingerprint_check" (digest32 (cm_request_fingerprint row));
  references "commands_agent_fk" (exists_in (agents db) (cm_agent_id row)).
Definition insert_command (row : CommandRow) : Tx unit :=
  _ ← commands_constraints row;
  modify (fun db => db <| commands := <[cm_command_id row := row]> (commands db) |>).

Definition update_command (id : string) (f : CommandRow -> CommandRow) : Tx unit :=
  db ← get;
  row ← expect (commands db !! id) (Persistence RecordNotUpdated);
  modify (fun db => db <| commands := <[id := f row]> (commands db) |>).

Definition update_commands_where (p : CommandRow -> bool) (f : CommandRow -> CommandRow) : Tx unit :=
  modify (fun db => db <| commands := update_where p f (commands db) |>).

Definition publications_constraints (row : PublicationRow) : Tx unit :=
  db ← get;
  references "publications_agent_fk" (exists_in (agents db) (pb_agent_id row)).
Definition try_insert_publication (row : PublicationRow) : Tx bool :=
  db ← get;
  if exists_in (publications db) (pb_message_id row) then mret false else
  _ ← publications_constraints row;
  _ ← modify (fun db => db <| publications := <[pb_message_id row := row]> (publications db) |>);
  mret true.

Definition insert_audit_event_row (row : Z -> AuditEventRow) : Tx unit :=
  db ← get;
  let id := audit_event_id_seq db + 1 in
  _ ← references "audit_events_organization_fk"
        (exists_in (organizations db) (au_organization_id (row id)));
  modify (fun db => db <| audit_events := <[id := row id]> (audit_events db) |>
                       <| audit_event_id_seq := id |>).

(** ** Statements: Managed Work *)
Definition managed_work_preflights_constraints (row : ManagedWorkPreflightRow) : Tx unit :=
  db ← get;
  unique "managed_work_preflights_pkey" (negb (exists_in (managed_work_preflights db) (pf_preflight_id row))).
Definition insert_preflight (row : ManagedWorkPreflightRow) : Tx unit :=
  _ ← managed_work_preflights_constraints row;
  modify (fun db => db <| managed_work_preflights := <[pf_preflight_id row := row]> (managed_work_preflights db) |>).

Definition same_print_job (a b : ManagedWorkRow) : bool :=
  String.eqb (mw_agent_id a) (mw_agent_id b)
  && match mw_print_job_id a, mw_print_job_id b with Some x, Some y => String.eqb x y | _, _ => false end.

Definition managed_work_constraints (row : ManagedWorkRow) : Tx unit :=
  db ← get;
  _ ← unique "managed_work_pkey" (negb (exists_in (managed_work db) (mw_managed_work_id row)));
  _ ← unique "managed_work_print_intent_id_key"
        (no_row (managed_work db) (fun w => String.eqb (mw_print_intent_id w) (mw_print_intent_id row)));
  _ ← unique "managed_work_organization_idempotency" (no_row (managed_work db) (fun w =>
        String.eqb (mw_organization_id w) (mw_organization_id row)
        && String.eqb (mw_idempotency_key w) (mw_idempotency_key row)));
  _ ← unique "uq_managed_work_agent_print_job" (no_row (managed_work db) (fun w => same_print_job w row));
  _ ← check "managed_work_payload_fingerprint_check" (digest32 (mw_payload_fingerprint row));
  _ ← check "managed_work_request_fingerprint_check" (digest32 (mw_request_fingerprint row));
  _ ← check "managed_work_payload_bytes_check" (0 <? mw_payload_bytes row);
  _ ← references "managed_work_preflight_fk" (exists_in (managed_work_preflights db) (mw_preflight_id row));
  _ ← references "managed_work_organization_fk" (exists_in (organizations db) (mw_organization_id row));
  _ ← references "managed_work_site_fk" (exists_in (sites db) (mw_site_id row));
  references "managed_work_agent_fk" (exists_in (agents db) (mw_agent_id row)).
Definition insert_managed_work (row : ManagedWorkRow) : Tx unit :=
  _ ← managed_work_constraints row;
  modify (fun db => db <| managed_work := <[mw_managed_work_id row := row]> (managed_work db) |>).

(** The unique index on [agent_id] and [print_job_id], where nulls are distinct. *)
Definition print_job_unused (id : string) (new : ManagedWorkRow) : Tx unit :=
  db ← get;
  unique "uq_managed_work_agent_print_job"
    (no_row (delete id (managed_work db)) (fun w => same_print_job w new)).
Definition update_managed_work (id : string) (f : ManagedWorkRow -> ManagedWorkRow) : Tx unit :=
  db ← get;
  row ← expect (managed_work db !! id) (Persistence RecordNotUpdated);
  _ ← print_job_unused id (f row);
  modify (fun db => db <| managed_work := <[id := f row]> (managed_work db) |>).

Definition managed_payloads_constraints (row : ManagedPayloadRow) : Tx unit :=
  db ← get;
  _ ← unique "managed_payloads_pkey" (negb (exists_in (managed_payloads db) (mp_managed_work_id row)));
  _ ← check "managed_payloads_nonce_check" (str_len (mp_nonce row) =? 12);
  _ ← check "managed_payloads_authenticated_data_digest_check" (digest32 (mp_authenticated_data_digest row));
  _ ← check "managed_payloads_payload_fingerprint_check" (digest32 (mp_payload_fingerprint row));
  _ ← check "managed_payloads_plaintext_bytes_check" (0 <? mp_plaintext_bytes row);
  _ ← check "managed_payloads_wrapping_key_version_check" (0 <? mp_wrapping_key_version row);
  references "managed_payload_work_fk" (exists_in (managed_work db) (mp_managed_work_id row)).
Definition insert_managed_payload (row : ManagedPayloadRow) : Tx unit :=
  _ ← managed_payloads_constraints row;
  modify (fun db => db <| managed_payloads := <[mp_managed_work_id row := row]> (managed_payloads db) |>).

Definition delete_managed_payload (id : string) : Tx unit :=
  modify (fun db => db <| managed_payloads := delete id (managed_payloads db) |>).

Definition observations_constraints (row : ObservationRow) : Tx unit :=
  db ← get;
  _ ← references "agent_state_observation_work_fk" (exists_in (managed_work db) (os_managed_work_id row));
  references "agent_state_observation_agent_fk" (exists_in (agents db) (os_agent_id row)).
Definition try_insert_observation (row : ObservationRow) : Tx bool :=
  db ← get;
  if exists_in (agent_state_observations db) (os_envelope_id row) then mret false else
  _ ← observations_constraints row;
  _ ← modify (fun db => db <| agent_state_observations :=
        <[os_envelope_id row := row]> (agent_state_observations db) |>);
  mret true.

(** ** Statements: router policies *)
Definition router_policy_check (r : RouterPolicyRow) : bool :=
  let all_none := bool_decide (rp_policy_revision r = None /\ rp_signed_policy r = None /\
    rp_policy_digest r = None /\ rp_configuration_digest r = None /\ rp_expires_at r = None) in
  let all_some := bool_decide (is_Some (rp_policy_revision r) /\ is_Some (rp_signed_policy r) /\
    is_Some (rp_policy_digest r) /\ is_Some (rp_configuration_digest r) /\ is_Some (rp_expires_at r)) in
  (0 <=? rp_authority_revision r) && (0 <=? rp_generation r) && (rp_generation r <=? 9007199254740991)
  && (match rp_configuration_digest r with Some d => digest32 d | None => true end)
  && (match rp_policy_digest r with Some d => digest32 d | None => true end)
  && (((rp_generation r =? 0) && all_none) || ((0 <? rp_generation r) && all_some)).

Definition update_router_policy (id : string) (f : RouterPolicyRow -> RouterPolicyRow) : Tx RouterPolicyRow :=
  db ← get;
  row ← expect (router_policies db !! id) (Persistence RecordNotUpdated);
  _ ← check "router_policies_check" (router_policy_check (f row));
  _ ← modify (fun db => db <| router_policies := <[id := f row]> (router_policies db) |>);
  mret (f row).

(** ** What the statements of Managed Work do *)
Lemma update_managed_work_Ok id f db u db' : update_managed_work id f db = Ok (u, db') ->
  exists row, managed_work db !! id = Some row /\
    db' = db <| managed_work := <[id := f row]> (managed_work db) |>.
Proof. unfold update_managed_work, print_job_unused, unique. intros H. tx_inv H. eauto. Qed.
Lemma update_command_Ok id f db u db' : update_command id f db = Ok (u, db') ->
  exists row, commands db !! id = Some row /\ db' = db <| commands := <[id := f row]> (commands db) |>.
Proof. unfold update_command. intros H. tx_inv H. eauto. Qed.
Lemma update_invitation_Ok id f db u db' : update_invitation id f db = Ok (u, db') ->
  exists row, invitations db !! id = Some row /\ db' = db <| invitations := <[id := f row]> (invitations db) |>.
Proof. unfold update_invitation, check. intros H. tx_inv H. eauto. Qed.
Lemma update_invitations_where_Ok p f db n db' : update_invitations_where p f db = Ok (n, db') ->
  db' = db <| invitations := update_where p f (invitations db) |> /\ n = count_where (invitations db) p.
Proof. unfold update_invitations_where. intros Hrun. tx_inv Hrun. done. Qed.

Lemma try_insert_observation_Ok row db b db' : try_insert_observation row db = Ok (b, db') ->
  (b = false /\ is_Some (agent_state_observations db !! os_envelope_id row) /\ db' = db) \/
  (b = true /\ agent_state_observations db !! os_envelope_id row = None /\
   db' = db <| agent_state_observations := <[os_envelope_id row := row]> (agent_state_observations db) |>).
Proof.
  unfold try_insert_observation, observations_constraints, references, exists_in. intros H. tx_inv H; bools.
  - left. eauto.
  - right. split_and!; try done. by apply eq_None_not_Some.
Qed.
Lemma insert_managed_work_Ok row db u db' : insert_managed_work row db = Ok (u, db') ->
  managed_work db !! mw_managed_work_id row = None /\ 0 < mw_payload_bytes row /\
  is_Some (agents db !! mw_agent_id row) /\ is_Some (managed_work_preflights db !! mw_preflight_id row) /\
  (forall k w, managed_work db !! k = Some w -> mw_print_intent_id w <> mw_print_intent_id row) /\
  (forall k w, managed_work db !! k = Some w -> mw_organization_id w = mw_organization_id row ->
     mw_idempotency_key w <> mw_idempotency_key row) /\
  db' = db <| managed_work := <[mw_managed_work_id row := row]> (managed_work db) |>.
Proof.
  unfold insert_managed_work, managed_work_constraints, unique, check, references, exists_in. intros H. tx_inv H. bools.
  repeat match goal with H : no_row _ _ = true |- _ => rewrite no_row_true in H end.
  split_and!; try done.
  - by apply eq_None_not_Some.
  - intros k w Hk. match goal with H : forall k v, _ -> String.eqb _ _ = false |- _ => specialize (H k w Hk) end.
    by apply String.eqb_neq.
  - intros k w Hk E1 E2.
    match goal with H : forall k v, _ -> String.eqb (mw_organization_id v) _ && _ = false |- _ =>
      specialize (H k w Hk); simpl in H; revert H end.
    by rewrite E1, E2, !String.eqb_refl.
Qed.
Lemma insert_managed_payload_Ok row db u db' : insert_managed_payload row db = Ok (u, db') ->
  managed_payloads db !! mp_managed_work_id row = None /\ is_Some (managed_work db !! mp_managed_work_id row) /\
  db' = db <| managed_payloads := <[mp_managed_work_id row := row]> (managed_payloads db) |>.
Proof.
  unfold insert_managed_payload, managed_payloads_constraints, unique, check, references, exists_in. intros H. tx_inv H. bools.
  split_and!; try done. by apply eq_None_not_Some.
Qed.

(** ** Frames

    A statement leaves alone every table it does not name.  [frame] proves [Frame t m] by running through
    [m]: each of its writes is an update of another column of the database. *)
Create HintDb frames.
#[export] Hint Unfold unique references check sites_constraints agents_constraints devices_constraints
  invitations_constraints invitation_attempts_constraints commands_constraints publications_constraints
  managed_work_preflights_constraints managed_work_constraints managed_payloads_constraints print_job_unused
  observations_constraints invalidate_organization invalidate_on_agent_insert
  invalidate_on_agent_update invalidate_on_key_change initialize_router_policy upsert_organization upsert_site
  upsert_agent try_insert_verification_key retire_keys_where upsert_device delete_devices_where insert_invitation
  update_invitation update_invitations_where insert_invitation_attempt delete_attempts_where insert_command
  update_command update_commands_where try_insert_publication insert_audit_event_row insert_preflight
  insert_managed_work update_managed_work insert_managed_payload delete_managed_payload try_insert_observation
  update_router_policy : frames.
Ltac frame := progress (autounfold with frames); steps; apply steps_modify; intros; reflexivity.
#[export] Hint Extern 6 (Steps (same _) _) => solve [frame] : steps.
#[export] Hint Extern 6 (Steps (same _) _) => solve [frame] : typeclass_instances.

(** Deleting or keeping rows of the set of failed attempts. *)
Lemma delete_attempts_where_Ok p db u db' : delete_attempts_where p db = Ok (u, db') ->
  db' = db <| invitation_attempts := filter (fun a => p a = false) (invitation_attempts db) |>.
Proof. unfold delete_attempts_where. intros H. tx_inv H. done. Qed.
