(* ===== verification/Samples.v ===== *)
(** * A small concrete database

    One organization with a site, an enrolled Agent with its two active verification keys and a
    dispatch key, and a router policy not prepared yet.  The witnesses evaluate on it. *)
From S2P Require Import Prelude Errors Identifiers Protocol Schema.

#[global] Instance byte_collation : Collation := String.leb.

Definition digest_of (c : ascii) : string :=
  String.concat "" (repeat (String c EmptyString) 32).
Definition sample_jwk (kid : string) : Jwk :=
  mkJwk (Some kid) (Some AlgEdDSA) (Some UseSignature) false (OctetKeyPair CrvEd25519 "eA").
Definition sample_dispatch_key : DispatchEncryptionKey :=
  mkDispatchEncryptionKey "dispatch_1" DhkemX25519HkdfSha256 "ERERERERERERERERERERERERERERERERERERERERERE".
Definition sample_agent : AgentRow :=
  mkAgent "agt_1" "org_acme" "site_main" "kid_1" "thumb_1" (sample_jwk "kid_1") (Some sample_dispatch_key)
    "inari/gateway/agt_1" "2026-10-03" ["commands:execute"; "jobs:cancel"] 1000 1000.
Definition sample_key (purpose : AgentKeyPurpose) (kid thumb : string) : VerificationKeyRow :=
  mkVerificationKey kid "agt_1" purpose thumb (sample_jwk kid) 1000 None.
Definition sample_device : DeviceRow :=
  mkDevice "agt_1" "dev_label" "site_main" SPrinter SPhysical "Label printer" SDevOnline SUsb
    (digest_of "a" ++ digest_of "b") [] 1000 1000.

Definition sample_db : Database :=
  empty_database
    <| organizations := {["org_acme" := mkOrganization "org_acme" "Acme" 0 0]} |>
    <| sites := {["site_main" := mkSite "site_main" "org_acme" "Main" 0 0]} |>
    <| agents := {["agt_1" := sample_agent]} |>
    <| devices := {[("agt_1", "dev_label") := sample_device]} |>
    <| agent_verification_keys :=
         <["kid_1" := sample_key TransportIdentity "kid_1" "thumb_1"]>
         {["agent_state_1" := sample_key AgentState "agent_state_1" "thumb_2"]} |>
    <| router_policies :=
         {["org_acme" := initial_router_policy "org_acme" <| rp_authority_revision := 3 |>]} |>.

(** The same database once the Routers acknowledged generation 1 of the policy, three seconds in. *)
Definition sample_policy : RouterPolicyRow :=
  mkRouterPolicy "org_acme" 3 (Some 3) 1 (Some (digest_of "c")) (Some (digest_of "p")) (Some "{}")
    (Some (seconds 3600)) (Some (seconds 3)).
Definition sample_admitted : Database :=
  sample_db <| router_policies := {["org_acme" := sample_policy]} |>.
