(* ===== verification/AuditLog.v ===== *)
(** * The audit log

    [crates/inari-gateway/src/audit.rs] and [persistence/audit.rs]: the actions,
    resources and outcomes of audit events, their stored text, the insertion of an
    event and the paged query.  Enums are stored as text and parsed back when read. *)
From S2P Require Import Prelude Errors Identifiers InvitationCode Protocol Schema.

(** ** Data *)
Inductive AuditAction : Set :=
| ActJobCreated | ActJobCancellationRequested | ActManagedWorkSubmitted | ActInvitationCreated
| ActInvitationRevoked | ActAgentEnrolled | ActAgentCredentialsRetired | ActAgentInventoryRejected
| ActZenohRead | ActZenohWrite.
Inductive AuditResource : Type :=
| ResController
| ResAgent (agent_id : string)
| ResInvitation (invitation_id : string)
| ResJob (job_id : string)
| ResManagedWork (managed_work_id : string)
| ResZenohSelector (selector : string).
Inductive AuditOutcome : Set := Succeeded | Denied | Failed.

Record AuditEvent := mkEvent {
  ae_event_id : Z;
  ae_actor_id : string;
  ae_action : AuditAction;
  ae_resource : AuditResource;
  ae_outcome : AuditOutcome;
  ae_request_id : option string;
  ae_occurred_at : instant;
}.
Record AuditEventDraft := mkDraft {
  ed_organization_id : string;
  ed_actor_id : string;
  ed_action : AuditAction;
  ed_resource : AuditResource;
  ed_outcome : AuditOutcome;
  ed_request_id : option string;
}.
Record AuditContext := mkAuditContext {
  ax_actor_id : string;
  ax_request_id : option string;
}.

Definition AuditAction_as_str (a : AuditAction) : string :=
  match a with
  | ActJobCreated => "job.created"
  | ActJobCancellationRequested => "job.cancellation_requested"
  | ActManagedWorkSubmitted => "managed_work.submitted"
  | ActInvitationCreated => "invitation.created"
  | ActInvitationRevoked => "invitation.revoked"
  | ActAgentEnrolled => "agent.enrolled"
  | ActAgentCredentialsRetired => "agent.credentials_retired"
  | ActAgentInventoryRejected => "agent.inventory_rejected"
  | ActZenohRead => "zenoh.read"
  | ActZenohWrite => "zenoh.write"
  end.
Definition AuditOutcome_as_str (o : AuditOutcome) : string :=
  match o with Succeeded => "succeeded" | Denied => "denied" | Failed => "failed" end.

Definition storage_parts (r : AuditResource) : string * option string :=
  match r with
  | ResController => ("controller", None)
  | ResAgent id => ("agent", Some id)
  | ResInvitation id => ("invitation", Some id)
  | ResJob id => ("job", Some id)
  | ResManagedWork id => ("managed_work", Some id)
  | ResZenohSelector selector => ("zenoh_selector", Some selector)
  end.

Definition from_storage (kind : string) (id : option string) : GatewayResult AuditResource :=
  let required_id := ok_or id (CorruptState ("audit resource " ++ str_debug kind ++ " is missing its identifier")) in
  if String.eqb kind "controller" then Ok ResController
  else if String.eqb kind "agent" then i ← required_id; ResAgent <$> AgentId_from_str i
  else if String.eqb kind "invitation" then i ← required_id; ResInvitation <$> InvitationId_from_str i
  else if String.eqb kind "job" then i ← required_id; ResJob <$> JobId_from_str i
  else if String.eqb kind "managed_work" then i ← required_id; ResManagedWork <$> ManagedWorkId_from_str i
  else if String.eqb kind "zenoh_selector" then ResZenohSelector <$> required_id
  else Err (CorruptState ("unknown audit resource kind " ++ str_debug kind)).

Definition parse_action (value : string) : GatewayResult AuditAction :=
  if String.eqb value "job.created" then Ok ActJobCreated
  else if String.eqb value "job.cancellation_requested" then Ok ActJobCancellationRequested
  else if String.eqb value "managed_work.submitted" then Ok ActManagedWorkSubmitted
  else if String.eqb value "invitation.created" then Ok ActInvitationCreated
  else if String.eqb value "invitation.revoked" then Ok ActInvitationRevoked
  else if String.eqb value "agent.enrolled" then Ok ActAgentEnrolled
  else if String.eqb value "agent.credentials_retired" then Ok ActAgentCredentialsRetired
  else if String.eqb value "agent.inventory_rejected" then Ok ActAgentInventoryRejected
  else if String.eqb value "zenoh.read" then Ok ActZenohRead
  else if String.eqb value "zenoh.write" then Ok ActZenohWrite
  else Err (CorruptState ("unknown audit action " ++ str_debug value)).

Definition parse_outcome (value : string) : GatewayResult AuditOutcome :=
  if String.eqb value "succeeded" then Ok Succeeded
  else if String.eqb value "denied" then Ok Denied
  else if String.eqb value "failed" then Ok Failed
  else Err (CorruptState ("unknown audit outcome " ++ str_debug value)).

(** ** Operations

    [occurred_at] is the column default [CURRENT_TIMESTAMP], the time the database
    started the transaction. *)
Definition audit_event_row (occurred_at : instant) (draft : AuditEventDraft) (event_id : Z) : AuditEventRow :=
  let '(resource_kind, resource_id) := storage_parts (ed_resource draft) in
  mkAuditEvent event_id (ed_organization_id draft) (ed_actor_id draft)
    (AuditAction_as_str (ed_action draft)) resource_kind resource_id
    (AuditOutcome_as_str (ed_outcome draft)) (ed_request_id draft) [] (trunc_micros occurred_at).

Definition insert_audit_event (occurred_at : instant) (draft : AuditEventDraft) : Tx unit :=
  insert_audit_event_row (audit_event_row occurred_at draft).

Definition record_audit_event (occurred_at : instant) (draft : AuditEventDraft) : Repo unit :=
  transaction (insert_audit_event occurred_at draft).

Definition audit_from_model (model : AuditEventRow) : GatewayResult AuditEvent :=
  actor_id ← ActorId_from_str (au_actor_id model);
  action ← parse_action (au_action model);
  resource ← from_storage (au_resource_kind model) (au_resource_id model);
  outcome ← parse_outcome (au_outcome model);
  Ok (mkEvent (au_event_id model) actor_id action resource outcome (au_request_id model)
        (utc_time (au_occurred_at model))).

Definition audit_page (db : Database) (organization_id : string) (before : option Z) (limit : Z)
    : list AuditEventRow :=
  take (Z.to_nat limit)
    (order_by (by_desc au_event_id) (rows_where (audit_events db) (fun e =>
       String.eqb (au_organization_id e) organization_id
       && match before with Some b => au_event_id e <? b | None => true end))).

Definition audit_events_page (organization_id : string) (before : option Z) (limit : Z)
    : Repo (list AuditEvent) :=
  queries (fun db => collect audit_from_model (audit_page db organization_id before limit)).

(** ** Lemmas *)
(** A draft holds parsed identifiers: [ActorId], [AgentId] and the others have no other
    constructor. *)
Definition resource_valid (r : AuditResource) : bool :=
  match r with
  | ResController | ResZenohSelector _ => true
  | ResAgent id => agent_id_valid id
  | ResInvitation id => (str_len id =? ID_LENGTH) && all_bytes alphabet_byte id
  | ResJob id => resource_id_valid "job_" id
  | ResManagedWork id => resource_id_valid "mw_" id
  end.
Definition draft_valid (d : AuditEventDraft) : bool :=
  is_ok (ActorId_from_str (ed_actor_id d)) && resource_valid (ed_resource d).

Lemma parse_action_as_str a : parse_action (AuditAction_as_str a) = Ok a.
Proof. destruct a; reflexivity. Qed.
Lemma parse_outcome_as_str o : parse_outcome (AuditOutcome_as_str o) = Ok o.
Proof. destruct o; reflexivity. Qed.
Lemma from_storage_parts r : resource_valid r = true ->
  from_storage (fst (storage_parts r)) (snd (storage_parts r)) = Ok r.
Proof.
  destruct r as [|id|id|id|id|s]; simpl; intros Hv; try reflexivity;
    unfold from_storage, AgentId_from_str, JobId_from_str, ManagedWorkId_from_str, resource_id_from_str; simpl.
  - by rewrite Hv.
  - bools. by rewrite InvitationId_id.
  - by rewrite Hv.
  - by rewrite Hv.
Qed.
Lemma ActorId_Ok v w : ActorId_from_str v = Ok w -> w = v.
Proof. unfold ActorId_from_str. destruct (_ || _ || _); naive_solver. Qed.

Lemma insert_audit_event_Ok t d db u db' : insert_audit_event t d db = Ok (u, db') ->
  let id := audit_event_id_seq db + 1 in
  is_Some (organizations db !! ed_organization_id d) /\
  db' = db <| audit_events := <[id := audit_event_row t d id]> (audit_events db) |>
           <| audit_event_id_seq := id |>.
Proof.
  unfold insert_audit_event, insert_audit_event_row, references, exists_in.
  intros H. tx_inv H. bools. split; [|done].
  match goal with H : is_Some _ |- _ => revert H end. unfold audit_event_row. by destruct (storage_parts (ed_resource d)).
Qed.

(** The audit log is lossless.  Recording a draft appends one row under a fresh event
    identifier and leaves every other table and every earlier event as it was; reading that
    row back yields the actor, action, resource, outcome and request of the draft. *)
Theorem audit_event_recorded_and_read_back t d db db' :
  draft_valid d = true ->
  record_audit_event t d db = (Ok tt, db') ->
  let id := audit_event_id_seq db + 1 in
  db' = db <| audit_events := <[id := audit_event_row t d id]> (audit_events db) |>
           <| audit_event_id_seq := id |> /\
  (audit_from_model <$> audit_events db' !! id) =
    Some (Ok (mkEvent id (ed_actor_id d) (ed_action d) (ed_resource d) (ed_outcome d)
                (ed_request_id d) (trunc_micros t))).
Proof.
  unfold draft_valid. intros Hv H. bools.
  apply transaction_Ok, insert_audit_event_Ok in H as [_ ->]. split; [done|].
  simpl. rewrite lookup_insert_eq. simpl. f_equal.
  destruct (ActorId_from_str (ed_actor_id d)) as [w|] eqn:Ha; [|done].
  pose proof (ActorId_Ok _ _ Ha) as ->.
  pose proof (from_storage_parts (ed_resource d) ltac:(done)) as Hr.
  unfold audit_from_model, audit_event_row.
  destruct (storage_parts (ed_resource d)) as [k i]; simpl in *.
  rewrite Ha; simpl. rewrite parse_action_as_str, Hr, parse_outcome_as_str. done.
Qed.

Definition sample_draft : AuditEventDraft :=
  mkDraft "org_acme" "oidc:alice" ActAgentEnrolled (ResAgent "agt_1") Succeeded (Some "req-1").
Definition organization_only : Database :=
  empty_database <| organizations := {["org_acme" := mkOrganization "org_acme" "Acme" 0 0]} |>.

Lemma audit_event_recorded_and_read_back_witness :
  exists db', record_audit_event 1234567 sample_draft organization_only = (Ok tt, db') /\
  (audit_from_model <$> audit_events db' !! 1) =
    Some (Ok (mkEvent 1 "oidc:alice" ActAgentEnrolled (ResAgent "agt_1") Succeeded (Some "req-1") 1234000)).
Proof.
  eexists. split; [vm_compute; reflexivity|].
  apply (audit_event_recorded_and_read_back 1234567 sample_draft organization_only); vm_compute; reflexivity.
Defined.

(** A page of the audit log holds only events of the organization older than the cursor, at
    most [limit] of them, newest first; when fewer than [limit] come back, nothing is left out. *)
Theorem audit_page_correct db organization before limit :
  let page := audit_page db organization before limit in
  (Z.of_nat (length page) <= Z.max 0 limit) /\
  StronglySorted (fun a b => au_event_id b <= au_event_id a) page /\
  (forall e, e ∈ page -> au_organization_id e = organization /\
     (forall b, before = Some b -> au_event_id e < b) /\ exists k, audit_events db !! k = Some e) /\
  (Z.of_nat (length page) < limit -> forall k e, audit_events db !! k = Some e ->
     au_organization_id e = organization -> (forall b, before = Some b -> au_event_id e < b) ->
     e ∈ page).
Proof.
  unfold audit_page. cbv zeta.
  set (l := order_by _ _).
  assert (forall e, e ∈ l <-> (au_organization_id e = organization /\
     (forall b, before = Some b -> au_event_id e < b)) /\ exists k, audit_events db !! k = Some e) as Hl.
  { intros e. unfold l. rewrite elem_of_order_by, elem_of_rows_where.
    rewrite andb_true_iff, String.eqb_eq. destruct before as [b|].
    - rewrite Z.ltb_lt. naive_solver.
    - naive_solver. }
  split_and!.
  - rewrite length_take. lia.
  - pose proof (order_by_desc_sorted au_event_id (rows_where (audit_events db) (fun e =>
       String.eqb (au_organization_id e) organization
       && match before with Some b => au_event_id e <? b | None => true end))) as Hs.
    fold l in Hs. rewrite <- (take_drop (Z.to_nat limit) l) in Hs.
    apply StronglySorted_app_1_l in Hs. revert Hs. generalize (take (Z.to_nat limit) l). clear.
    intros l Hs. induction Hs as [|a l Hs IH Ha]; constructor; [done|].
    eapply Forall_impl; [|exact Ha]. unfold by_desc. intros b Hb. by bools.
  - intros e He. apply elem_of_take in He as (i & Hi & _).
    apply list_elem_of_lookup_2, Hl in Hi. naive_solver.
  - intros Hshort k e Hk Horg Hb. rewrite length_take in Hshort.
    rewrite take_ge by lia. apply Hl. eauto.
Qed.
#[export] Hint Unfold insert_audit_event : frames.
