(* ===== verification/RouterPolicy.v ===== *)
(** * Router policies and admissions

    [crates/inari-gateway/src/persistence/router_policy.rs].  A Controller prepares a signed
    router policy under a fresh generation, records the Routers' acknowledgment and receives a
    [RouterAdmission], which every dispatching transaction checks again.  Clock reads are
    arguments; [build], which signs the policy, is a parameter of the operation. *)
From S2P Require Import Prelude Errors Identifiers Protocol Schema Samples.

Definition ACKNOWLEDGMENT_LIFETIME : Z := seconds 10.
Definition MAX_GENERATION : Z := 9007199254740991.

Record RouterAgent := mkRouterAgent { ra_agent_id : string; ra_namespace : string }.
Record NewRouterPolicy := mkNewRouterPolicy {
  np_signed_policy : string;
  np_digest : string;
  np_expires_at : instant;
}.
Record PersistedRouterPolicy := mkPersistedRouterPolicy {
  pp_generation : Z;
  pp_signed_policy : string;
  pp_digest : string;
  pp_expires_at : instant;
  pp_agents : list RouterAgent;
}.
Record RouterAdmission := mkRouterAdmission {
  ra_organization_id : string;
  ra_generation : Z;
  ra_digest : string;
  ra_valid_until : instant;
}.

Definition corrupt : GatewayError := CorruptState "Router policy is incomplete".

(** [SELECT ... WHERE organization_id = $1 FOR SHARE | FOR UPDATE]. *)
Definition policy_in (organization_id : string) : Tx RouterPolicyRow :=
  db ← get;
  expect (router_policies db !! organization_id)
    (Unavailable "Router policy persistence is unavailable").

(** The condition the two SQL statements share: a dispatch key, the active transport key the
    Agent row names, and an active Agent State key. *)
Definition active_agent (db : Database) (a : AgentRow) : bool :=
  bool_decide (is_Some (ag_dispatch_key a))
  && negb (no_row (agent_verification_keys db) (fun k =>
       String.eqb (vk_agent_id k) (ag_agent_id a) && bool_decide (vk_purpose k = TransportIdentity)
       && String.eqb (vk_key_id k) (ag_key_id a) && active_key k))
  && negb (no_row (agent_verification_keys db) (fun k =>
       String.eqb (vk_agent_id k) (ag_agent_id a) && bool_decide (vk_purpose k = AgentState)
       && active_key k)).

Definition active_agents `{Collation} (organization_id : string) : Tx (list RouterAgent) :=
  db ← get;
  mret ((fun a => mkRouterAgent (ag_agent_id a) (ag_namespace a)) <$>
    order_by (by_text ag_agent_id) (rows_where (agents db) (fun a =>
      String.eqb (ag_organization_id a) organization_id && active_agent db a))).

Definition is_active_agent (organization_id agent_id : string) : Tx bool :=
  db ← get;
  mret (negb (no_row (agents db) (fun a =>
    String.eqb (ag_organization_id a) organization_id && String.eqb (ag_agent_id a) agent_id
    && active_agent db a))).

Definition persisted (row : RouterPolicyRow) (agents : list RouterAgent) : GatewayResult PersistedRouterPolicy :=
  generation ← ok_or (u64_try_from (rp_generation row)) corrupt;
  signed_policy ← ok_or (rp_signed_policy row) corrupt;
  digest ← ok_or (rp_policy_digest row) corrupt;
  _ ← ensure (digest32 digest) corrupt;
  expires_at ← ok_or (rp_expires_at row) corrupt;
  Ok (mkPersistedRouterPolicy generation signed_policy digest (utc_time expires_at) agents).

Definition reusable (row : RouterPolicyRow) (configuration_digest : string) (refresh_before : instant) : bool :=
  bool_decide (rp_policy_revision row = Some (rp_authority_revision row))
  && bool_decide (rp_configuration_digest row = Some configuration_digest)
  && match rp_expires_at row with Some t => refresh_before <? utc_time t | None => false end.

Definition next_generation (row : RouterPolicyRow) : GatewayResult Z :=
  match i64_checked_add (rp_generation row) 1 with
  | Some g => if g <=? MAX_GENERATION then Ok g else Err (Capacity "Router policy generation is exhausted")
  | None => Err (Capacity "Router policy generation is exhausted")
  end.

(** [now] is read after [build] returns. *)
Definition prepare_router_policy `{Collation} (organization_id configuration_digest : string)
    (refresh_before : instant) (build : Z -> list RouterAgent -> GatewayResult NewRouterPolicy)
    (now : instant) : Repo PersistedRouterPolicy :=
  transaction (
    row ← policy_in organization_id;
    agents ← active_agents organization_id;
    row ← if reusable row configuration_digest refresh_before then mret row else
          (generation ← lift (next_generation row);
           unsigned ← expect (u64_try_from generation) corrupt;
           prepared ← lift (build unsigned agents);
           _ ← require (now <? np_expires_at prepared) (InvalidInput "Router policy is already expired");
           update_router_policy organization_id (fun r =>
             r <| rp_policy_revision := Some (rp_authority_revision row) |>
               <| rp_generation := generation |>
               <| rp_configuration_digest := Some configuration_digest |>
               <| rp_policy_digest := Some (np_digest prepared) |>
               <| rp_signed_policy := Some (np_signed_policy prepared) |>
               <| rp_expires_at := Some (stored_time (np_expires_at prepared)) |>
               <| rp_acknowledged_at := None |>));
    lift (persisted row agents)).

(** [checked_at] and [now] are the two clock reads, in this order. *)
Definition acknowledge_router_policy (organization_id : string) (policy : PersistedRouterPolicy)
    (checked_at now : instant) : Repo RouterAdmission :=
  transaction (
    row ← policy_in organization_id;
    generation ← expect (i64_try_from (pp_generation policy)) corrupt;
    _ ← require (negb (negb (rp_generation row =? generation)
                  || negb (bool_decide (rp_policy_digest row = Some (pp_digest policy)))
                  || negb (bool_decide (rp_policy_revision row = Some (rp_authority_revision row)))
                  || match rp_expires_at row with Some t => utc_time t <=? checked_at | None => true end))
          (Conflict "Router authority changed during acknowledgment");
    _ ← update_router_policy organization_id (fun r => r <| rp_acknowledged_at := Some (stored_time now) |>);
    mret (mkRouterAdmission organization_id generation (pp_digest policy)
            (Z.min (pp_expires_at policy) (now + ACKNOWLEDGMENT_LIFETIME)))).

Definition admission_refused (row : RouterPolicyRow) (admission : RouterAdmission) (now : instant) : bool :=
  (ra_valid_until admission <=? now)
  || negb (rp_generation row =? ra_generation admission)
  || negb (bool_decide (rp_policy_digest row = Some (ra_digest admission)))
  || negb (bool_decide (rp_policy_revision row = Some (rp_authority_revision row)))
  || match rp_expires_at row with Some t => utc_time t <=? now | None => true end
  || match rp_acknowledged_at row with
     | Some t => utc_time t <=? now - ACKNOWLEDGMENT_LIFETIME
     | None => true
     end.

Definition require_admission_in (admission : RouterAdmission) (agent_id : string) (now : instant) : Tx unit :=
  row ← policy_in (ra_organization_id admission);
  if admission_refused row admission now
  then throw (Unavailable "The Agent has no current Router admission")
  else (active ← is_active_agent (ra_organization_id admission) agent_id;
        require active (Unavailable "The Agent has no current Router admission")).

Definition require_router_admission (admission : RouterAdmission) (agent_id : string) (now : instant) : Repo unit :=
  transaction (require_admission_in admission agent_id now).

(** ** Lemmas *)
#[global] Instance policy_in_read_only o : ReadOnly (policy_in o).
Proof. unfold policy_in. steps. Qed.
#[global] Instance active_agents_read_only `{Collation} o : ReadOnly (active_agents o).
Proof. unfold active_agents. steps. Qed.
#[global] Instance is_active_agent_read_only o a : ReadOnly (is_active_agent o a).
Proof. unfold is_active_agent. steps. Qed.
#[global] Instance require_admission_read_only ad a t : ReadOnly (require_admission_in ad a t).
Proof. unfold require_admission_in. steps. Qed.

Lemma policy_in_Ok o db row db' : policy_in o db = Ok (row, db') ->
  router_policies db !! o = Some row /\ db' = db.
Proof. unfold policy_in. intros H. tx_inv H. done. Qed.

(** The authority an admission stands for: the policy row is current, unexpired and recently
    acknowledged under the admission's generation and digest, and the Agent may dispatch. *)
Definition admitted (db : Database) (admission : RouterAdmission) (agent_id : string) (now : instant) : Prop :=
  (exists row expires acknowledged,
    router_policies db !! ra_organization_id admission = Some row /\
    now < ra_valid_until admission /\
    rp_generation row = ra_generation admission /\
    rp_policy_digest row = Some (ra_digest admission) /\
    rp_policy_revision row = Some (rp_authority_revision row) /\
    rp_expires_at row = Some expires /\ now < expires /\
    rp_acknowledged_at row = Some acknowledged /\ now - ACKNOWLEDGMENT_LIFETIME < acknowledged) /\
  (exists k a, agents db !! k = Some a /\ ag_agent_id a = agent_id /\
    ag_organization_id a = ra_organization_id admission /\ active_agent db a = true).

Lemma require_admission_Ok ad agent now db u db' :
  require_admission_in ad agent now db = Ok (u, db') <-> admitted db ad agent now /\ db' = db.
Proof.
  unfold require_admission_in, policy_in, is_active_agent, admission_refused, admitted, utc_time. split.
  - intros H. tx_inv H. bools.
    destruct (rp_expires_at a) as [e|] eqn:He; [|done].
    destruct (rp_acknowledged_at a) as [k|] eqn:Hk; [|done]. bools.
    split; [|done]. split.
    + exists a, e, k. split_and!; try done.
    + match goal with H : no_row _ _ = false |- _ => apply no_row_false in H as (i & r & Hr & Hp) end.
      bools. exists i, r. rewrite String.eqb_eq in *. auto.
  - intros [[(row & e & k & Hrow & H1 & H2 & H3 & H4 & H5 & H6 & H7 & H8) (i & a & Ha & Hid & Horg & Hact)] ->].
    apply tx_bind_Ok. exists row, db. split.
    { apply tx_bind_Ok. exists db, db. split; [done|]. by apply expect_Ok. }
    cbv beta. rewrite H2, H3, H4, H5, H7, Z.eqb_refl, !bool_decide_true by done.
    rewrite !(proj2 (Z.leb_gt _ _)) by done. simpl.
    apply tx_bind_Ok. exists true, db. split; [|by apply require_Ok].
    apply tx_bind_Ok. exists db, db. split; [done|]. apply tx_ret_Ok. split; [|done].
    symmetry. apply negb_true_iff, no_row_false. exists i, a. split; [done|].
    by rewrite Hid, Horg, !String.eqb_refl, Hact.
Qed.

(** ** Progress of a router policy

    Along every transaction the authority revision and the generation of an organization's policy
    never decrease, and a generation once issued keeps its content. *)
Definition policy_progress (r r' : RouterPolicyRow) : Prop :=
  rp_authority_revision r <= rp_authority_revision r' /\
  rp_generation r <= rp_generation r' /\
  (rp_generation r' = rp_generation r ->
    rp_policy_revision r' = rp_policy_revision r /\
    rp_configuration_digest r' = rp_configuration_digest r /\
    rp_policy_digest r' = rp_policy_digest r /\
    rp_signed_policy r' = rp_signed_policy r /\
    rp_expires_at r' = rp_expires_at r).
Definition router_progress (db db' : Database) : Prop :=
  forall o row, router_policies db !! o = Some row ->
    exists row', router_policies db' !! o = Some row' /\ policy_progress row row'.

#[global] Instance policy_progress_PreOrder : PreOrder policy_progress.
Proof.
  split.
  - intros r. split_and!; [lia|lia|done].
  - intros r1 r2 r3 (H1 & H2 & H3) (H4 & H5 & H6). split_and!; [lia|lia|].
    intros Hg. assert (rp_generation r2 = rp_generation r1) as G1 by lia.
    assert (rp_generation r3 = rp_generation r2) as G2 by lia.
    specialize (H3 G1) as (?&?&?&?&?). specialize (H6 G2) as (?&?&?&?&?).
    split_and!; congruence.
Qed.
#[global] Instance router_progress_PreOrder : PreOrder router_progress.
Proof.
  split.
  - intros db o row Hr. exists row. split; [done|reflexivity].
  - intros d1 d2 d3 H12 H23 o row Hr.
    destruct (H12 o row Hr) as (r2 & Hr2 & P2). destruct (H23 o r2 Hr2) as (r3 & Hr3 & P3).
    exists r3. split; [done|]. by etrans.
Qed.
Lemma same_router_progress db db' : same router_policies db db' -> router_progress db db'.
Proof. unfold same. intros E o row Hr. exists row. rewrite E. split; [done|reflexivity]. Qed.
Lemma frame_router_progress {A} (m : Tx A) : Frame router_policies m -> Steps router_progress m.
Proof. intros H s a s' Hr. apply same_router_progress. by apply (H s a s'). Qed.

(** Replacing one row by a row it progresses to. *)
Lemma router_insert_progress db o row row' :
  router_policies db !! o = Some row -> policy_progress row row' ->
  router_progress db (db <| router_policies := <[o := row']> (router_policies db) |>).
Proof.
  intros Hr Hp o2 r2 Hr2. simpl. destruct (decide (o = o2)) as [<-|Hne].
  - rewrite lookup_insert_eq. exists row'. split; [done|]. congruence.
  - rewrite lookup_insert_ne by done. exists r2. split; [done|reflexivity].
Qed.

#[global] Instance invalidate_organization_progress o : Steps router_progress (invalidate_organization o).
Proof.
  unfold invalidate_organization. intros db u db' H. tx_inv H; [|reflexivity].
  eapply router_insert_progress; [done|]. split_and!; simpl; [lia|lia|done].
Qed.
#[global] Instance invalidate_on_key_change_progress a : Steps router_progress (invalidate_on_key_change a).
Proof. unfold invalidate_on_key_change. steps. Qed.
#[global] Instance initialize_router_policy_progress o : Steps router_progress (initialize_router_policy o).
Proof.
  unfold initialize_router_policy, unique. intros db u db' H. tx_inv H. bools.
  unfold exists_in in *. bools. intros o2 r2 Hr2. simpl.
  rewrite lookup_insert_ne by (intros ->; eauto). exists r2. split; [done|reflexivity].
Qed.

Lemma update_router_policy_Ok o f db row' db' : update_router_policy o f db = Ok (row', db') <->
  exists row, router_policies db !! o = Some row /\ row' = f row /\ router_policy_check (f row) = true /\
  db' = db <| router_policies := <[o := f row]> (router_policies db) |>.
Proof.
  unfold update_router_policy, check. split.
  - intros H. tx_inv H. eauto.
  - intros (row & Hr & -> & Hc & ->).
    apply tx_bind_Ok. exists db, db. split; [done|]. cbv beta.
    apply tx_bind_Ok. exists row, db. split; [by apply expect_Ok|].
    apply tx_bind_Ok. exists tt, db. split; [by apply require_Ok|].
    apply tx_bind_Ok. eexists tt, _. split; [by apply modify_Ok|]. by apply tx_ret_Ok.
Qed.
Lemma next_generation_Ok row g : next_generation row = Ok g -> g = rp_generation row + 1 /\ g <= MAX_GENERATION.
Proof.
  unfold next_generation, i64_checked_add. destruct (is_i64 _); [|done].
  destruct (_ <=? _) eqn:Hg; [|done]. intros [= <-]. by bools.
Qed.

(** What a successful [prepare_router_policy] did: reused the current policy, or issued the next
    generation with the authority revision it was built from. *)
Lemma prepare_router_policy_Ok `{Collation} o cfg rb build now db p db' :
  prepare_router_policy o cfg rb build now db = (Ok p, db') ->
  exists row row' ags, router_policies db !! o = Some row /\
    active_agents o db = Ok (ags, db) /\ persisted row' ags = Ok p /\
    router_policies db' !! o = Some row' /\
    rp_policy_revision row' = Some (rp_authority_revision row') /\
    ((reusable row cfg rb = true /\ row' = row /\ db' = db) \/
     (reusable row cfg rb = false /\ exists prepared,
        build (rp_generation row + 1) ags = Ok prepared /\ now < np_expires_at prepared /\
        rp_generation row' = rp_generation row + 1 /\ rp_generation row' <= MAX_GENERATION /\
        rp_authority_revision row' = rp_authority_revision row /\
        rp_policy_digest row' = Some (np_digest prepared) /\
        rp_acknowledged_at row' = None /\
        rp_expires_at row' = Some (stored_time (np_expires_at prepared)) /\
        db' = db <| router_policies := <[o := row']> (router_policies db) |>)).
Proof.
  intros Hrun%transaction_Ok.
  apply tx_bind_Ok in Hrun as (row & s1 & [Hrow ->]%policy_in_Ok & Hrun).
  apply tx_bind_Ok in Hrun as (ags & s2 & Hags & Hrun).
  pose proof (active_agents_read_only o _ _ _ Hags) as <-.
  apply tx_bind_Ok in Hrun as (row' & s3 & Hrow' & Hrun).
  apply lift_Ok in Hrun as [Hp ->]. exists row, row', ags.
  destruct (reusable row cfg rb) eqn:Hre.
  - apply tx_ret_Ok in Hrow' as [-> ->].
    assert (rp_policy_revision row = Some (rp_authority_revision row)) as Hcur
      by (unfold reusable in Hre; by bools).
    naive_solver.
  - tx_inv Hrow'. apply next_generation_Ok in Hrun as [-> Hmax]. unfold u64_try_from in *.
    destruct (is_u64 _); simplify_eq.
    apply update_router_policy_Ok in Hrow' as (r & Hr & -> & _ & ->). bools.
    assert (r = row) as -> by congruence.
    split_and!; simpl; try done; [by rewrite lookup_insert_eq|].
    right. split; [done|]. eexists. split_and!; try done.
Qed.


#[global] Instance prepare_router_policy_progress `{Collation} o cfg rb build now :
  Always router_progress (prepare_router_policy o cfg rb build now).
Proof.
  intros db r db' Hrun. destruct r as [p|e].
  - apply prepare_router_policy_Ok in Hrun as (row & row' & ags & Hrow & _ & _ & _ & _ & [(_ & _ & ->) | Hnew]);
      [reflexivity|].
    destruct Hnew as (_ & prepared & _ & _ & Hg & _ & Ha & _ & _ & _ & ->).
    eapply router_insert_progress; [done|]. unfold policy_progress. lia.
  - apply transaction_inv in Hrun as [(? & ? & _)|(? & _ & ->)]; [done|reflexivity].
Qed.

Lemma acknowledge_router_policy_Ok o p checked now db ad db' :
  acknowledge_router_policy o p checked now db = (Ok ad, db') ->
  exists row t, router_policies db !! o = Some row /\
    rp_generation row = pp_generation p /\ rp_policy_digest row = Some (pp_digest p) /\
    rp_policy_revision row = Some (rp_authority_revision row) /\
    rp_expires_at row = Some t /\ checked < t /\
    ad = mkRouterAdmission o (pp_generation p) (pp_digest p)
           (Z.min (pp_expires_at p) (now + ACKNOWLEDGMENT_LIFETIME)) /\
    db' = db <| router_policies := <[o := row <| rp_acknowledged_at := Some (stored_time now) |>]>
                 (router_policies db) |>.
Proof.
  intros Hrun%transaction_Ok.
  apply tx_bind_Ok in Hrun as (row & s1 & [Hrow ->]%policy_in_Ok & Hrun).
  tx_inv Hrun. bools. unfold i64_try_from in *. destruct (is_i64 _); simplify_eq.
  match goal with H : update_router_policy _ _ _ = _ |- _ =>
    apply update_router_policy_Ok in H as (r & Hr & -> & _ & ->) end.
  assert (r = row) as -> by congruence.
  destruct (rp_expires_at row) as [t|] eqn:Ht; [|done]. bools. unfold utc_time in *.
  exists row, t. split_and!; try done; [by rewrite Hrun0|]. simpl. by rewrite Ht.
Qed.
#[global] Instance acknowledge_router_policy_progress o p checked now :
  Always router_progress (acknowledge_router_policy o p checked now).
Proof.
  intros db r db' Hrun. destruct r as [ad|e].
  - apply acknowledge_router_policy_Ok in Hrun as (row & t & Hrow & _ & _ & _ & _ & _ & _ & ->).
    eapply router_insert_progress; [done|]. split_and!; simpl; [lia|lia|done].
  - apply transaction_inv in Hrun as [(? & ? & _)|(? & _ & ->)]; [done|reflexivity].
Qed.
#[global] Instance require_router_admission_read_only ad a t : Always eq (require_router_admission ad a t).
Proof. unfold require_router_admission. steps. Qed.

Lemma persisted_Ok row ags p : persisted row ags = Ok p ->
  rp_generation row = pp_generation p /\ rp_policy_digest row = Some (pp_digest p) /\
  rp_expires_at row = Some (pp_expires_at p) /\ pp_agents p = ags.
Proof.
  unfold persisted, u64_try_from, utc_time. destruct (is_u64 _); [|done]. simpl.
  destruct (rp_signed_policy row); [|done]. destruct (rp_policy_digest row); [|done]. simpl.
  destruct (digest32 _); [|done]. destruct (rp_expires_at row); [|done]. by intros [= <-].
Qed.
Lemma active_agents_Ok `{Collation} o db ags db' g :
  active_agents o db = Ok (ags, db') -> g ∈ ags ->
  exists k a, agents db !! k = Some a /\ ag_agent_id a = ra_agent_id g /\
    ag_organization_id a = o /\ active_agent db a = true.
Proof.
  unfold active_agents. intros H' Hg. tx_inv H'.
  apply list_elem_of_fmap in Hg as (a & -> & Ha).
  apply elem_of_order_by, elem_of_rows_where in Ha as [Hp [k Hk]]. bools.
  apply String.eqb_eq in H0. exists k, a. auto.
Qed.
Lemma active_agent_frame db db' a :
  agent_verification_keys db' = agent_verification_keys db -> active_agent db' a = active_agent db a.
Proof. unfold active_agent. by intros ->. Qed.

(** Preparing a policy and having it acknowledged yields an admission that really admits:
    for every Agent the policy lists, the check that guards dispatch succeeds at any time before the
    admission's deadline (and within ten seconds of the recorded acknowledgment). *)
Theorem acknowledged_admission_admits `{Collation} o cfg rb build t0 t1 t2 t3 db p db1 ad db2 g :
  prepare_router_policy o cfg rb build t0 db = (Ok p, db1) ->
  acknowledge_router_policy o p t1 t2 db1 = (Ok ad, db2) ->
  g ∈ pp_agents p ->
  t3 < ra_valid_until ad -> t3 < stored_time t2 + ACKNOWLEDGMENT_LIFETIME ->
  require_router_admission ad (ra_agent_id g) t3 db2 = (Ok tt, db2).
Proof.
  intros Hprep Hack Hg Hvalid Hlife.
  apply prepare_router_policy_Ok in Hprep as (row & row1 & ags & Hrow & Hags & Hp & Hrow1 & Hcur & Hcase).
  apply persisted_Ok in Hp as (Pg & Pd & Pe & Pa). rewrite Pa in Hg.
  destruct (active_agents_Ok _ _ _ _ _ Hags Hg) as (k & a & Ha & Hid & Ho & Hact).
  apply acknowledge_router_policy_Ok in Hack as (row2 & t & Hrow2 & Hgen & Hdig & Hrev & Hexp & _ & -> & ->).
  assert (row2 = row1) as -> by congruence. assert (t = pp_expires_at p) as -> by congruence.
  assert (agents db1 = agents db /\ agent_verification_keys db1 = agent_verification_keys db) as [Eag Ekey].
  { destruct Hcase as [(_ & _ & ->) | (_ & ? & Hnew)]; [done|].
    destruct Hnew as (_ & _ & _ & _ & _ & _ & _ & _ & ->). done. }
  apply transaction_Ok, require_admission_Ok. split; [|done]. split; simpl in *.
  - eexists (row1 <| rp_acknowledged_at := Some (stored_time t2) |>), _, _.
    rewrite lookup_insert_eq; simpl. split_and!; try done; lia.
  - exists k, a. rewrite Eag. split_and!; try done. rewrite (active_agent_frame db); [done|exact Ekey].
Qed.

Definition sample_build (generation : Z) (agents : list RouterAgent) : GatewayResult NewRouterPolicy :=
  Ok (mkNewRouterPolicy "{}" (digest_of "p") (seconds 3600)).

Lemma acknowledged_admission_admits_witness :
  exists p db1 ad db2,
    prepare_router_policy "org_acme" (digest_of "c") 0 sample_build (seconds 1) sample_db = (Ok p, db1) /\
    acknowledge_router_policy "org_acme" p (seconds 2) (seconds 3) db1 = (Ok ad, db2) /\
    require_router_admission ad "agt_1" (seconds 12) db2 = (Ok tt, db2).
Proof.
  eexists _, _, _, _.
  split; [vm_compute; reflexivity|]. split; [vm_compute; reflexivity|].
  eapply (acknowledged_admission_admits "org_acme" (digest_of "c") 0 sample_build (seconds 1) (seconds 2)
           (seconds 3) (seconds 12) sample_db _ _ _ _ (mkRouterAgent "agt_1" "inari/gateway/agt_1"));
    try (vm_compute; reflexivity).
  apply list_elem_of_here.
Defined.

(** ** Stale admissions *)

(** The policy of [o] has moved past generation [g], or authority changed since [g] was prepared. *)
Definition stale (o : string) (g : Z) (db : Database) : Prop :=
  exists row, router_policies db !! o = Some row /\
    (g < rp_generation row \/
     rp_generation row = g /\ forall r, rp_policy_revision row = Some r -> r < rp_authority_revision row).

Lemma stale_progress o g db db' : router_progress db db' -> stale o g db -> stale o g db'.
Proof.
  intros Hp (row & Hr & Hcase). destruct (Hp o row Hr) as (row' & Hr' & Ha & Hg & Hsame).
  exists row'. split; [done|]. destruct Hcase as [Hlt|[He Hrev]]; [left; lia|].
  destruct (decide (rp_generation row' = rp_generation row)) as [E|]; [|left; lia].
  right. split; [lia|]. destruct (Hsame E) as (-> & _). intros r Hr1. specialize (Hrev r Hr1). lia.
Qed.
Lemma stale_not_admitted db ad a t :
  stale (ra_organization_id ad) (ra_generation ad) db -> ~ admitted db ad a t.
Proof.
  intros (row & Hr & Hcase) [(row' & ? & ? & Hr' & _ & Hg & _ & Hrev & _) _].
  assert (row' = row) as -> by congruence. destruct Hcase as [?|[_ Hlt]]; [lia|].
  specialize (Hlt _ Hrev). lia.
Qed.
Lemma stale_refused db ad a t :
  stale (ra_organization_id ad) (ra_generation ad) db ->
  require_admission_in ad a t db = Err (Unavailable "The Agent has no current Router admission").
Proof.
  intros Hs. pose proof (stale_not_admitted db ad a t Hs) as Hn.
  destruct (require_admission_in ad a t db) as [[u db']|e] eqn:Hrun.
  - apply require_admission_Ok in Hrun as [? _]. done.
  - revert Hrun. destruct Hs as (row & Hr & _).
    unfold require_admission_in, policy_in, is_active_agent, throw, require, expect, get, mbind, tx_bind, lift.
    rewrite Hr. simpl. destruct (admission_refused row ad t); [congruence|].
    destruct (negb _); simpl; congruence.
Qed.

(** Well-formed policy rows: a policy is prepared at a revision the authority has reached. *)
Definition policy_wf (row : RouterPolicyRow) : Prop :=
  forall r, rp_policy_revision row = Some r -> r <= rp_authority_revision row.
Definition router_policies_wf (db : Database) : Prop :=
  map_Forall (fun _ row => policy_wf row) (router_policies db).

(** Any change of authority makes every admission issued before it stale. *)
Lemma invalidate_organization_stale o db u db' :
  router_policies_wf db -> invalidate_organization o db = Ok (u, db') ->
  forall row, router_policies db !! o = Some row -> stale o (rp_generation row) db'.
Proof.
  unfold invalidate_organization. intros Hwf Hrun. tx_inv Hrun; intros row Hr; [|congruence].
  pose proof (Hwf o row ltac:(congruence)) as Hle. unfold policy_wf in Hle. simplify_eq. eexists. simpl. rewrite lookup_insert_eq. split; [reflexivity|]. right. simpl. split; [done|].
  intros r Hrev. specialize (Hle r Hrev). lia.
Qed.

Definition sample_admission : RouterAdmission := mkRouterAdmission "org_acme" 1 (digest_of "p") (seconds 13).
Lemma sample_is_admitted : admitted sample_admitted sample_admission "agt_1" (seconds 5).
Proof. apply (require_admission_Ok _ _ _ _ tt sample_admitted). vm_compute. reflexivity. Qed.
