(* ===== verification/Commands.v ===== *)
(** * Controller commands

    [crates/inari-gateway/src/persistence/commands.rs].  Each Agent has a queue of commands
    numbered 1, 2, 3, ...; a caller may name the command to make a retry idempotent.  Queueing
    checks the router admission before and after the insertion. *)
From S2P Require Import Prelude Errors Identifiers Protocol Schema Samples RouterPolicy.

Record PersistedCommand := mkPersistedCommand {
  pc_agent_id : string;
  pc_namespace : string;
  pc_command_id : string;
  pc_message_id : string;
  pc_sequence : Z;
  pc_state : JobState;
  pc_command : CommandContent;
  pc_issued_at : instant;
  pc_published_at : option instant;
  pc_updated_at : instant;
}.

Definition JobState_from (s : CommandState) : JobState :=
  match s with
  | CsQueued => JobQueued | CsPublished => JobPublished | CsAccepted => JobAccepted
  | CsRejected => JobRejected | CsCompleted => JobCompleted | CsFailed => JobFailed
  | CsSuperseded => JobSuperseded
  end.

Definition is_dispatch (c : ControllerCommand) : bool :=
  match c with CmdDispatchDeviceWork _ _ _ _ _ => true | _ => false end.

Definition persisted_command (model : CommandRow) (namespace : string) : GatewayResult PersistedCommand :=
  _ ← ensure (negb match cm_command model with Inline m => is_dispatch m | _ => false end)
        (CorruptState "Managed Work content exists outside protected payload storage");
  agent_id ← AgentId_from_str (cm_agent_id model);
  command_id ← JobId_from_str (cm_command_id model);
  sequence ← ok_or (u64_try_from (cm_sequence model)) (CorruptState "stored command sequence is invalid");
  Ok (mkPersistedCommand agent_id namespace command_id (cm_message_id model) sequence
        (JobState_from (cm_state model)) (cm_command model) (utc_time (cm_issued_at model))
        (utc_time <$> cm_published_at model) (utc_time (cm_updated_at model))).

Definition require_agent (agent_id : string) : Tx AgentRow :=
  db ← get; expect (agents db !! agent_id) (NotFound "unknown managed gateway agent").

Definition agent_namespace (agent_id : string) : Tx string :=
  a ← require_agent agent_id; mret (ag_namespace a).

(** [SELECT MAX(sequence) FROM commands WHERE agent_id = $1]. *)
Definition max_sequence (db : Database) (agent_id : string) : option Z :=
  foldr (fun c m => Some (match m with Some n => Z.max (cm_sequence c) n | None => cm_sequence c end))
    None (rows_where (commands db) (fun c => String.eqb (cm_agent_id c) agent_id)).

Definition next_command_sequence (agent_id : string) : Tx Z :=
  db ← get;
  expect (i64_checked_add (default 0 (max_sequence db agent_id)) 1)
    (Conflict "command sequence is out of range").

(** The clock reads of [enqueue_command]: the two admission checks and the issue time. *)
Record EnqueueClock := mkEnqueueClock { ec_before : instant; ec_issued_at : instant; ec_after : instant }.

Definition enqueue_in (router_admission : RouterAdmission) (agent_id : string)
    (requested_command_id : option string) (request_fingerprint : string)
    (build : Z -> string -> string -> instant -> GatewayResult ControllerCommand)
    (clock : EnqueueClock) : Tx (CommandRow * string) :=
  _ ← require_admission_in router_admission agent_id (ec_before clock);
  db ← get;
  managed_agent ← expect (agents db !! agent_id) (NotFound "unknown managed gateway agent");
  match command_id ← requested_command_id; commands db !! command_id with
  | Some existing =>
      _ ← require (String.eqb (cm_agent_id existing) agent_id
                   && String.eqb (cm_request_fingerprint existing) request_fingerprint)
            (Conflict "the idempotency key was already used for another request");
      _ ← require_admission_in router_admission agent_id (ec_after clock);
      mret (existing, ag_namespace managed_agent)
  | None =>
      next ← next_command_sequence agent_id;
      sequence ← expect (u64_try_from next) (Conflict "command sequence is out of range");
      let command_id := match requested_command_id with
                        | Some c => c
                        | None => "job_" ++ agent_id ++ "_" ++ show_u64 sequence
                        end in
      let message_id := "msg_" ++ command_id in
      command_message ← lift (build sequence command_id message_id (ec_issued_at clock));
      _ ← require (negb (is_dispatch command_message))
            (InvalidInput "Managed Work requires protected payload admission");
      let model := mkCommand command_id agent_id message_id next CsQueued (Inline command_message)
                     request_fingerprint (stored_time (ec_issued_at clock)) None
                     (stored_time (ec_issued_at clock)) in
      _ ← insert_command model;
      _ ← require_admission_in router_admission agent_id (ec_after clock);
      mret (model, ag_namespace managed_agent)
  end.

(** The conversion of the committed row can still report an error. *)
Definition enqueue_command (router_admission : RouterAdmission) (agent_id : string)
    (requested_command_id : option string) (request_fingerprint : string)
    (build : Z -> string -> string -> instant -> GatewayResult ControllerCommand)
    (clock : EnqueueClock) : Repo PersistedCommand :=
  r ← transaction (enqueue_in router_admission agent_id requested_command_id request_fingerprint build clock);
  returns (persisted_command (fst r) (snd r)).

Definition publishable (agent_id command_id : string) (c : CommandRow) : bool :=
  String.eqb (cm_agent_id c) agent_id
  && (bool_decide (cm_state c = CsQueued) || bool_decide (cm_state c = CsPublished))
  && String.eqb (cm_command_id c) command_id.

Definition mark_command_published (agent_id command_id : string) (now : instant) : Repo unit :=
  transaction (update_commands_where (publishable agent_id command_id) (fun c =>
    c <| cm_state := CsPublished |> <| cm_published_at := Some (stored_time now) |>
      <| cm_updated_at := stored_time now |>)).

Definition job (job_id : string) : Repo PersistedCommand :=
  transaction (
    db ← get;
    model ← expect (commands db !! job_id) (NotFound "job was not found");
    namespace ← agent_namespace (cm_agent_id model);
    lift (persisted_command model namespace)).

Definition jobs (agent_id : string) : Repo (list PersistedCommand) :=
  transaction (
    namespace ← agent_namespace agent_id;
    db ← get;
    lift (collect (fun model => persisted_command model namespace)
      (order_by (by_desc cm_issued_at)
        (rows_where (commands db) (fun c => String.eqb (cm_agent_id c) agent_id))))).

Definition history_rows (db : Database) (agent_id : string) (from_sequence : Z) : list CommandRow :=
  order_by (by_asc cm_sequence) (rows_where (commands db) (fun c =>
    String.eqb (cm_agent_id c) agent_id
    && (default i64_max (i64_try_from from_sequence) <=? cm_sequence c))).

Definition command_history `{NaiveDate} (agent_id : string) (from_sequence : Z)
    : Repo (string * list PersistedCommand) :=
  transaction (
    db ← get;
    managed_agent ← expect (agents db !! agent_id) (NotFound "unknown managed gateway agent");
    commands ← lift (collect (fun model => persisted_command model (ag_namespace managed_agent))
                      (history_rows db agent_id from_sequence));
    version ← lift (ProtocolVersion_from_str (ag_protocol_version managed_agent));
    mret (version, commands)).

(** ** Lemmas *)
#[global] Instance require_agent_read_only a : ReadOnly (require_agent a).
Proof. unfold require_agent. steps. Qed.
#[global] Instance agent_namespace_read_only a : ReadOnly (agent_namespace a).
Proof. unfold agent_namespace. steps. Qed.
#[global] Instance next_command_sequence_read_only a : ReadOnly (next_command_sequence a).
Proof. unfold next_command_sequence. steps. Qed.

Lemma insert_command_Ok row db u db' : insert_command row db = Ok (u, db') <->
  commands db !! cm_command_id row = None /\
  (forall k c, commands db !! k = Some c -> cm_message_id c <> cm_message_id row) /\
  (forall k c, commands db !! k = Some c -> cm_agent_id c = cm_agent_id row -> cm_sequence c <> cm_sequence row) /\
  0 < cm_sequence row /\ digest32 (cm_request_fingerprint row) = true /\
  is_Some (agents db !! cm_agent_id row) /\
  db' = db <| commands := <[cm_command_id row := row]> (commands db) |>.
Proof.
  unfold insert_command, commands_constraints, unique, check, references, exists_in. split.
  - intros H. tx_inv H. bools.
    repeat match goal with H : no_row _ _ = true |- _ => rewrite no_row_true in H end.
    split_and!; try done.
    + by apply eq_None_not_Some.
    + intros k c Hk. match goal with H : forall k v, _ -> String.eqb _ _ = false |- _ => specialize (H k c Hk) end.
      by apply String.eqb_neq.
    + intros k c Hk E1 E2.
      match goal with H : forall k v, _ -> _ && _ = false |- _ => specialize (H k c Hk); simpl in H; revert H end.
      by rewrite E1, E2, String.eqb_refl, Z.eqb_refl.
  - intros (H1 & H2 & H3 & H4 & H5 & H6 & ->).
    assert (no_row (commands db) (fun c => String.eqb (cm_message_id c) (cm_message_id row)) = true) as N1.
    { apply no_row_true. intros k c Hk. apply String.eqb_neq. eauto. }
    assert (no_row (commands db) (fun c =>
        String.eqb (cm_agent_id c) (cm_agent_id row) && (cm_sequence c =? cm_sequence row)) = true) as N2.
    { apply no_row_true. intros k c Hk. destruct (String.eqb_spec (cm_agent_id c) (cm_agent_id row)); [|done].
      apply Z.eqb_neq. eauto. }
    unfold mbind, tx_bind, get, require, lift, ensure, modify.
    rewrite N1, N2, H5, H1, (proj2 (Z.ltb_lt _ _) H4), (bool_decide_true _ H6). by destruct u.
Qed.

(** ** Sequence numbers *)
Lemma max_sequence_spec db a :
  match max_sequence db a with
  | Some n => (exists k c, commands db !! k = Some c /\ cm_agent_id c = a /\ cm_sequence c = n) /\
              (forall k c, commands db !! k = Some c -> cm_agent_id c = a -> cm_sequence c <= n)
  | None => forall k c, commands db !! k = Some c -> cm_agent_id c <> a
  end.
Proof.
  unfold max_sequence.
  set (l := rows_where (commands db) (fun c => String.eqb (cm_agent_id c) a)).
  assert (forall c, c ∈ l <-> cm_agent_id c = a /\ exists k, commands db !! k = Some c) as Hl.
  { intros c. unfold l. by rewrite elem_of_rows_where, String.eqb_eq. }
  assert (match foldr (fun c m => Some (match m with Some n => Z.max (cm_sequence c) n
                                                  | None => cm_sequence c end)) None l with
          | Some n => (exists c, c ∈ l /\ cm_sequence c = n) /\ (forall c, c ∈ l -> cm_sequence c <= n)
          | None => l = [] end) as Hf.
  { clear Hl. induction l as [|c l IH]; simpl; [done|].
    destruct (foldr _ _ l) as [m|].
    - destruct IH as [(d & Hd & <-) Hmax]. split.
      + destruct (Z.max_spec (cm_sequence c) (cm_sequence d)) as [[_ ->]|[_ ->]]; set_solver.
      + intros e [->|He]%elem_of_cons; [lia|]. specialize (Hmax e He). lia.
    - subst l. split; [set_solver|]. intros e [->|He]%elem_of_cons; [lia|set_solver]. }
  destruct (foldr _ _ l) as [n|].
  - destruct Hf as [(c & Hc & Hn) Hmax]. split.
    + apply Hl in Hc as [? [k ?]]. eauto.
    + intros k c' Hk Ha. apply Hmax, Hl. eauto.
  - intros k c Hk Ha. assert (c ∈ l) as Hin by (apply Hl; eauto). rewrite Hf in Hin. set_solver.
Qed.

(** The numbers an Agent's commands carry are exactly 1 to n, each once. *)
Definition sequences_wf (db : Database) : Prop :=
  (forall k c, commands db !! k = Some c -> cm_command_id c = k /\ 0 < cm_sequence c) /\
  (forall k1 k2 c1 c2, commands db !! k1 = Some c1 -> commands db !! k2 = Some c2 ->
     cm_agent_id c1 = cm_agent_id c2 -> cm_sequence c1 = cm_sequence c2 -> k1 = k2) /\
  (forall k c n, commands db !! k = Some c -> 0 < n <= cm_sequence c ->
     exists k' c', commands db !! k' = Some c' /\ cm_agent_id c' = cm_agent_id c /\ cm_sequence c' = n).

(** Inserting the next number keeps the numbering. *)
Lemma insert_next_sequences_wf db row u db' :
  sequences_wf db -> cm_sequence row = default 0 (max_sequence db (cm_agent_id row)) + 1 ->
  insert_command row db = Ok (u, db') -> sequences_wf db'.
Proof.
  intros (Hkey & Huniq & Hgap) Hseq Hrun.
  apply insert_command_Ok in Hrun as (Hfresh & _ & Hnew & Hpos & _ & _ & ->).
  pose proof (max_sequence_spec db (cm_agent_id row)) as Hmax.
  split_and!; simpl.
  - intros k c [[<- <-]|[Hne Hk]]%lookup_insert_Some; eauto.
  - intros k1 k2 c1 c2 [[<- <-]|[Hn1 H1]]%lookup_insert_Some [[<- <-]|[Hn2 H2]]%lookup_insert_Some Ha Hs;
      [done| | |by eapply Huniq].
    + exfalso. by eapply (Hnew k2 c2).
    + exfalso. by eapply (Hnew k1 c1).
  - intros k c n Hk Hn. apply lookup_insert_Some in Hk as [[<- <-]|[Hne Hk]].
    + destruct (decide (n = cm_sequence row)) as [->|Hlt].
      { exists (cm_command_id row), row. by rewrite lookup_insert_eq. }
      destruct (max_sequence db (cm_agent_id row)) as [m|]; simpl in Hseq; [|lia].
      destruct Hmax as [(k0 & c0 & Hk0 & Ha0 & Hs0) _].
      destruct (Hgap k0 c0 n Hk0 ltac:(lia)) as (k1 & c1 & Hk1 & Ha1 & Hs1).
      exists k1, c1. rewrite lookup_insert_ne by congruence. split_and!; congruence.
    + destruct (Hgap k c n Hk Hn) as (k1 & c1 & Hk1 & ?).
      exists k1, c1. by rewrite lookup_insert_ne by congruence.
Qed.

(** Updates that keep identifier, owner and number keep the numbering. *)
Definition command_identity (c : CommandRow) : string * string * Z := (cm_command_id c, cm_agent_id c, cm_sequence c).
Lemma sequences_wf_map db m :
  (forall k, command_identity <$> m !! k = command_identity <$> commands db !! k) ->
  sequences_wf db -> sequences_wf (db <| commands := m |>).
Proof.
  intros Hm (Hkey & Huniq & Hgap).
  assert (forall k c, m !! k = Some c -> exists c0, commands db !! k = Some c0 /\
    cm_command_id c0 = cm_command_id c /\ cm_agent_id c0 = cm_agent_id c /\ cm_sequence c0 = cm_sequence c) as Hto.
  { intros k c Hk. specialize (Hm k). rewrite Hk in Hm. simpl in Hm.
    destruct (commands db !! k) as [c0|]; [|done]. unfold command_identity in Hm. simplify_eq/=. eauto. }
  split_and!; simpl.
  - intros k c Hk. destruct (Hto k c Hk) as (c0 & H0 & <- & _ & <-). eauto.
  - intros k1 k2 c1 c2 H1 H2 Ha Hs.
    destruct (Hto _ _ H1) as (d1 & ? & _ & ? & ?), (Hto _ _ H2) as (d2 & ? & _ & ? & ?).
    eapply Huniq; [done|done|congruence|congruence].
  - intros k c n Hk Hn. destruct (Hto _ _ Hk) as (d & Hd & _ & Ha & Hs).
    destruct (Hgap k d n Hd ltac:(lia)) as (k' & d' & Hk' & Ha' & Hs').
    specialize (Hm k'). rewrite Hk' in Hm. destruct (m !! k') as [c'|] eqn:Hc'; [|done].
    unfold command_identity in Hm. simplify_eq/=. exists k', c'. split_and!; congruence.
Qed.

Lemma is_ascii_digit_resource c : is_ascii_digit c = true -> resource_byte c = true.
Proof. unfold resource_byte. intros ->. by rewrite orb_true_r. Qed.

(** The identifier made up for an unnamed command is a valid job identifier. *)
Lemma generated_command_id_valid a n : agent_id_valid a = true -> n <= u64_max ->
  resource_id_valid "job_" ("job_" ++ a ++ "_" ++ show_u64 n) = true.
Proof.
  unfold agent_id_valid, resource_id_valid. intros Ha Hn. bools.
  rewrite !str_len_app, strip_prefix_app. change (str_len "job_") with 4. change (str_len "_") with 1.
  pose proof (show_u64_length n Hn). unfold MAX_AGENT_ID_LENGTH in *.
  rewrite (proj2 (Z.leb_le _ _)) by lia. simpl.
  destruct (strip_prefix AGENT_ID_PREFIX a) as [s|] eqn:Hs; [|done]. apply strip_prefix_Some in Hs as ->. bools.
  simpl. rewrite !all_bytes_app. simpl.
  rewrite (all_bytes_impl agent_byte resource_byte) by (done || apply agent_byte_resource). simpl.
  eapply all_bytes_impl; [apply is_ascii_digit_resource|apply show_u64_digits].
Qed.

(** Agents are stored under the identifier they carry, which is a parsed [AgentId]. *)
Definition agents_wf (db : Database) : Prop :=
  map_Forall (fun k a => ag_agent_id a = k /\ agent_id_valid k = true) (agents db).

Definition requested_valid (requested : option string) : bool :=
  match requested with Some id => resource_id_valid "job_" id | None => true end.

Lemma next_command_sequence_Ok a db n db' : next_command_sequence a db = Ok (n, db') ->
  n = default 0 (max_sequence db a) + 1 /\ n <= i64_max /\ db' = db.
Proof.
  unfold next_command_sequence, i64_checked_add, is_i64. intros H. tx_inv H.
  case_match; [|done]. bools. simplify_eq. auto.
Qed.

(** What a committed [enqueue_in] did. *)
Lemma enqueue_in_Ok ad a req fp build clk db row ns db' :
  enqueue_in ad a req fp build clk db = Ok ((row, ns), db') ->
  admitted db ad a (ec_before clk) /\ admitted db' ad a (ec_after clk) /\
  (exists ag, agents db !! a = Some ag /\ ns = ag_namespace ag) /\
  cm_agent_id row = a /\ cm_request_fingerprint row = fp /\
  ((exists id, req = Some id /\ commands db !! id = Some row /\ db' = db) \/
   (cm_command_id row = match req with Some id => id
                        | None => "job_" ++ a ++ "_" ++ show_u64 (cm_sequence row) end /\
    cm_sequence row = default 0 (max_sequence db a) + 1 /\ cm_sequence row <= i64_max /\
    cm_state row = CsQueued /\ cm_message_id row = "msg_" ++ cm_command_id row /\
    (exists m, build (cm_sequence row) (cm_command_id row) (cm_message_id row) (ec_issued_at clk) = Ok m /\
       is_dispatch m = false /\ cm_command row = Inline m) /\
    insert_command row db = Ok (tt, db'))).
Proof.
  unfold enqueue_in. intros Hrun.
  apply tx_bind_Ok in Hrun as (u1 & s1 & [H1 ->]%require_admission_Ok & Hrun).
  apply tx_bind_Ok in Hrun as (db0 & s2 & [-> ->]%get_Ok & Hrun).
  apply tx_bind_Ok in Hrun as (ag & s3 & [Hag ->]%expect_Ok & Hrun).
  case_match eqn:Hex.
  - tx_inv Hrun. bools. rewrite !String.eqb_eq in *. subst.
    match goal with H : require_admission_in _ _ _ _ = _ |- _ => apply require_admission_Ok in H as [? ->] end.
    split_and!; eauto. left. destruct req as [id|]; [|done]. eauto.
  - apply tx_bind_Ok in Hrun as (n & s4 & (-> & Hn & ->)%next_command_sequence_Ok & Hrun).
    apply tx_bind_Ok in Hrun as (q & s5 & [Hq ->]%expect_Ok & Hrun). cbv zeta in Hrun.
    unfold u64_try_from in Hq. destruct (is_u64 _); simplify_eq.
    apply tx_bind_Ok in Hrun as (m & s6 & [Hm ->]%lift_Ok & Hrun).
    apply tx_bind_Ok in Hrun as (u2 & s7 & [Hd ->]%require_Ok & Hrun). bools.
    apply tx_bind_Ok in Hrun as (u3 & s8 & Hins & Hrun).
    apply tx_bind_Ok in Hrun as (u4 & s9 & [H2 ->]%require_admission_Ok & Hrun).
    apply tx_ret_Ok in Hrun as [[= -> ->] ->]. destruct u3.
    split_and!; simpl; eauto. right. simpl. split_and!; eauto.
Qed.

(** What an enqueue can lead to: every command has a valid job identifier, an owner, content that
    belongs outside the protected payloads, and a 64-bit number. *)
Definition content_wf (c : CommandContent) : bool :=
  match c with Inline m => negb (is_dispatch m) | ManagedWorkContent _ => true end.
Definition command_wf (db : Database) (k : string) (c : CommandRow) : Prop :=
  resource_id_valid "job_" k = true /\ cm_command_id c = k /\
  is_Some (agents db !! cm_agent_id c) /\ cm_sequence c <= i64_max /\ content_wf (cm_command c) = true.
Definition commands_wf (db : Database) : Prop := map_Forall (command_wf db) (commands db).

Lemma persisted_command_ok db k c ns : agents_wf db -> command_wf db k c -> 0 < cm_sequence c ->
  persisted_command c ns =
    Ok (mkPersistedCommand (cm_agent_id c) ns k (cm_message_id c) (cm_sequence c) (JobState_from (cm_state c))
          (cm_command c) (cm_issued_at c) (cm_published_at c) (cm_updated_at c)).
Proof.
  intros Hag (Hid & <- & [a Ha] & Hmax & Hin) Hpos. destruct (Hag _ _ Ha) as [_ Hv].
  unfold persisted_command, AgentId_from_str, JobId_from_str, resource_id_from_str, u64_try_from, is_u64, utc_time.
  rewrite Hid, Hv, (proj2 (Z.leb_le 0 _)), (proj2 (Z.leb_le _ u64_max)) by (unfold u64_max, i64_max in *; lia).
  destruct (cm_command c); simpl in *; rewrite ?Hin; simpl; destruct (cm_published_at c); done.
Qed.

Lemma insert_command_wf db row u db' : commands_wf db -> command_wf db (cm_command_id row) row ->
  insert_command row db = Ok (u, db') -> commands_wf db'.
Proof.
  intros Hwf Hrow (_ & _ & _ & _ & _ & _ & ->)%insert_command_Ok k c. simpl.
  intros [[<- <-]|[_ Hk]]%lookup_insert_Some; [exact Hrow|exact (Hwf k c Hk)].
Qed.

Lemma enqueue_command_wf ad a req fp build clk db row ns db' :
  agents_wf db -> commands_wf db -> sequences_wf db -> requested_valid req = true ->
  enqueue_in ad a req fp build clk db = Ok ((row, ns), db') ->
  agents_wf db' /\ commands_wf db' /\ sequences_wf db' /\
  command_wf db' (cm_command_id row) row /\ 0 < cm_sequence row.
Proof.
  intros Hag Hc Hs Hreq Hrun.
  apply enqueue_in_Ok in Hrun as (_ & _ & (ag & Ha & _) & Hown & _ & Hcase).
  destruct Hcase as [(id & -> & Hid & ->) | (Hcid & Hseq & Hmax & _ & _ & (m & _ & Hd & Hm) & Hins)].
  - pose proof (Hc _ _ Hid) as Hrow. destruct Hs as (Hkey & Hs). split_and!; try done.
    + by destruct (Hkey _ _ Hid) as [-> _].
    + by destruct (Hkey _ _ Hid) as [_ ?].
  - pose proof Hins as (Hfresh & _ & _ & Hpos & _ & _ & Hdb)%insert_command_Ok.
    assert (command_wf db (cm_command_id row) row) as Hrow.
    { destruct (Hag _ _ Ha) as [_ Hv]. split_and!; [|done|rewrite Hown; eauto|done|by rewrite Hm; simpl; rewrite Hd].
      rewrite Hcid. destruct req as [id|]; [exact Hreq|].
      apply generated_command_id_valid; [done|unfold u64_max, i64_max in *; lia]. }
    split_and!; [by subst db'|by eapply insert_command_wf| |by subst db'|done].
    eapply insert_next_sequences_wf; [exact Hs|by rewrite Hown|exact Hins].
Qed.

(** C19: Queueing a command either reports an error and leaves the database as it was, or returns the
    command of an earlier request with the same identifier and fingerprint and changes nothing, or appends
    exactly one queued command that carries the Agent's next sequence number.  In both successful cases the
    Agent held a current router admission before and after. *)
Theorem enqueue_command_outcome ad a req fp build clk db r db' :
  agents_wf db -> commands_wf db -> sequences_wf db -> requested_valid req = true ->
  enqueue_command ad a req fp build clk db = (r, db') ->
  match r with
  | Err _ => db' = db
  | Ok pc =>
      admitted db ad a (ec_before clk) /\ admitted db' ad a (ec_after clk) /\ pc_agent_id pc = a /\
      ((exists id row, req = Some id /\ commands db !! id = Some row /\ cm_request_fingerprint row = fp /\
          pc_command_id pc = id /\ db' = db) \/
       (commands db !! pc_command_id pc = None /\ pc_state pc = JobQueued /\
        pc_sequence pc = default 0 (max_sequence db a) + 1 /\
        (forall id, req = Some id -> pc_command_id pc = id) /\
        exists row, db' = db <| commands := <[pc_command_id pc := row]> (commands db) |> /\
          cm_agent_id row = a /\ cm_request_fingerprint row = fp /\ cm_sequence row = pc_sequence pc))
  end.
Proof.
  intros Hag Hc Hs Hreq [([row ns] & db1 & Htx%transaction_Ok & Hret)|(e & Htx & ->)]%repo_bind_inv; cycle 1.
  { by apply transaction_inv in Htx as [(? & ? & _)|(? & _ & ->)]. }
  unfold returns in Hret. simplify_eq/=.
  pose proof (enqueue_command_wf _ _ _ _ _ _ _ _ _ _ Hag Hc Hs Hreq Htx) as (Hag' & _ & _ & Hrow & Hpos).
  rewrite (persisted_command_ok db' (cm_command_id row)) by done.
  apply enqueue_in_Ok in Htx as (H1 & H2 & _ & <- & <- & Hcase). simpl.
  split_and!; [done|done|done|].
  destruct Hcase as [(id & -> & Hid & ->) | (Hcid & Hseq & _ & Hst & _ & _ & Hins)].
  - left. exists id, row. split_and!; try done. by destruct Hs as (Hkey & _), (Hkey _ _ Hid).
  - apply insert_command_Ok in Hins as (Hfresh & _ & _ & _ & _ & _ & ->).
    right. split_and!; [done|by rewrite Hst|done| |eexists; split_and!; done].
    intros id ->. done.
Qed.

(** A retry under the same command identifier and fingerprint is idempotent: while the Agent is
    admitted it returns the same command and leaves the database as it is, whatever the retry would build;
    the same identifier with another fingerprint, or for another Agent, is a conflict that changes nothing. *)
Theorem enqueue_retry_is_idempotent ad a id fp build clk db pc db1 :
  enqueue_command ad a (Some id) fp build clk db = (Ok pc, db1) ->
  forall ad' a' fp' build' clk',
    admitted db1 ad' a' (ec_before clk') -> admitted db1 ad' a' (ec_after clk') -> agents_wf db1 ->
    enqueue_command ad' a' (Some id) fp' build' clk' db1 =
      (if String.eqb a a' && String.eqb fp fp' then Ok pc
       else Err (Conflict "the idempotency key was already used for another request"), db1).
Proof.
  intros [([row ns] & db' & Htx%transaction_Ok & Hret)|(e & _ & ?)]%repo_bind_inv; [|done].
  unfold returns in Hret. simpl in Hret. injection Hret as Hpc ->. intros ad' a' fp' build' clk' H1 H2 Hag.
  apply enqueue_in_Ok in Htx as (_ & _ & (ag & Hagent & ->) & <- & <- & Hcase).
  assert (commands db1 !! id = Some row /\ agents db1 = agents db) as [Hid Eag].
  { destruct Hcase as [(? & [= <-] & Hid & ->) | (Hcid & _ & _ & _ & _ & _ & Hins)]; [done|].
    apply insert_command_Ok in Hins as (_ & _ & _ & _ & _ & _ & ->). rewrite Hcid. simpl.
    by rewrite lookup_insert_eq. }
  destruct H1 as [Hp1 (k & ar & Har & Hid' & Hrest)].
  pose proof (Hag _ _ Har) as [Hk _]. rewrite Hid' in Hk. subst k.
  assert (admitted db1 ad' a' (ec_before clk')) as H1 by (split; eauto).
  unfold enqueue_command, enqueue_in, transaction, returns. unfold mbind, repo_bind, tx_bind.
  rewrite (proj2 (require_admission_Ok ad' a' (ec_before clk') db1 tt db1) (conj H1 eq_refl)).
  unfold get, expect, lift. rewrite Har. simpl. rewrite Hid. unfold require, lift, ensure.
  destruct (String.eqb_spec (cm_agent_id row) a') as [<-|Hne]; simpl; [|done].
  destruct (String.eqb (cm_request_fingerprint row) fp'); simpl; [|done].
  rewrite (proj2 (require_admission_Ok ad' _ (ec_after clk') db1 tt db1) (conj H2 eq_refl)). simpl.
  assert (ar = ag) as -> by (rewrite Eag in Har; congruence). by rewrite Hpc.
Qed.

(** ** Samples *)
Definition sample_clock : EnqueueClock := mkEnqueueClock (seconds 5) (seconds 5) (seconds 5).
Definition sample_command (sequence : Z) (command_id message_id : string) (at_ : instant)
    : GatewayResult ControllerCommand :=
  Ok (into_message (JobExecuteDeviceCommand (mkExecuteDeviceCommand "dev_label" OpenCashDrawer []))
        message_id command_id sequence at_).
Definition sample_queued : Database :=
  snd (enqueue_command sample_admission "agt_1" None (digest_of "f") sample_command sample_clock sample_admitted).

Lemma sample_sequences_wf : sequences_wf sample_admitted.
Proof.
  assert (commands sample_admitted = ∅) as E by reflexivity.
  unfold sequences_wf. rewrite E. split_and!; intros; simplify_map_eq.
Qed.

Lemma enqueue_command_outcome_witness :
  exists pc db', enqueue_command sample_admission "agt_1" None (digest_of "f") sample_command sample_clock
                   sample_admitted = (Ok pc, db') /\
  pc_command_id pc = "job_agt_1_1" /\ admitted db' sample_admission "agt_1" (seconds 5).
Proof.
  eexists _, _. split; [vm_compute; reflexivity|]. split; [reflexivity|].
  eapply (enqueue_command_outcome sample_admission "agt_1" None (digest_of "f") sample_command sample_clock
            sample_admitted (Ok _));
    [decide_now|decide_now|exact sample_sequences_wf|reflexivity|vm_compute; reflexivity].
Defined.

Definition sample_named : GatewayResult PersistedCommand * Database :=
  enqueue_command sample_admission "agt_1" (Some "job_retry") (digest_of "f") sample_command sample_clock
    sample_admitted.

Lemma enqueue_retry_is_idempotent_witness :
  is_ok (fst sample_named) = true /\
  enqueue_command sample_admission "agt_1" (Some "job_retry") (digest_of "f")
    (fun _ _ _ _ => Err Serialization) sample_clock (snd sample_named) = sample_named.
Proof.
  split; [vm_compute; reflexivity|].
  etransitivity; [eapply (enqueue_retry_is_idempotent sample_admission "agt_1" "job_retry" (digest_of "f")
    sample_command sample_clock sample_admitted _ (snd sample_named))|];
    [vm_compute; reflexivity| | |decide_now|vm_compute; reflexivity];
    apply (require_admission_Ok _ _ _ _ tt (snd sample_named)); vm_compute; reflexivity.
Defined.

(** ** The command history *)
Definition history_start (from_sequence : Z) : Z := Z.max 1 (default i64_max (i64_try_from from_sequence)).

Lemma history_sequences db a from : sequences_wf db ->
  cm_sequence <$> history_rows db a from =
    seqZ (history_start from) (default 0 (max_sequence db a) + 1 - history_start from).
Proof.
  intros (Hkey & Huniq & Hgap). unfold history_rows, history_start.
  set (lo := default i64_max (i64_try_from from)).
  set (p := fun c => String.eqb (cm_agent_id c) a && (lo <=? cm_sequence c)).
  assert (forall c, p c = true <-> cm_agent_id c = a /\ lo <= cm_sequence c) as Hp.
  { intros c. unfold p. by rewrite andb_true_iff, String.eqb_eq, Z.leb_le. }
  pose proof (max_sequence_spec db a) as Hmax.
  apply (StronglySorted_unique Z.le).
  - pose proof (order_by_asc_sorted cm_sequence (rows_where (commands db) p)) as Hs.
    induction Hs as [|c l Hs IH Hc]; csimpl; constructor; [done|].
    apply Forall_fmap. eapply Forall_impl; [|exact Hc]. unfold by_asc, compose. intros d Hd. by bools.
  - apply Sorted_StronglySorted; [typeclasses eauto|]. generalize (default 0 (max_sequence db a)). clear. intros m.
    remember (m + 1 - Z.max 1 lo) as len. clear Heqlen. generalize (Z.max 1 lo). intros s.
    destruct (Z.le_gt_cases 0 len) as [H|H]; [|rewrite seqZ_nil by lia; constructor].
    revert s. pattern len. apply natlike_ind; [intros; constructor| |done].
    intros n Hn IH s. rewrite seqZ_cons by lia. replace (Z.pred (Z.succ n)) with n by lia.
    constructor; [apply IH|]. destruct (decide (n = 0)) as [->|]; [constructor|].
    rewrite seqZ_cons by lia. constructor. lia.
  - apply NoDup_Permutation.
    + rewrite order_by_Permutation. apply NoDup_rows_where.
      intros k1 k2 c1 c2 H1 H2 [A1 _]%Hp [A2 _]%Hp E. eapply Huniq; [done|done|congruence|done].
    + apply NoDup_seqZ.
    + intros n. rewrite elem_of_seqZ, list_elem_of_fmap. split.
      * intros (c & -> & Hc). apply elem_of_order_by, elem_of_rows_where in Hc as [[Ha Hlo]%Hp [k Hk]].
        destruct (Hkey k c Hk) as [_ Hpos]. destruct (max_sequence db a) as [m|]; simpl.
        -- destruct Hmax as [_ Hmax]. specialize (Hmax k c Hk Ha). lia.
        -- exfalso. by eapply Hmax.
      * intros Hn. destruct (max_sequence db a) as [m|]; simpl in Hn; [|lia].
        destruct Hmax as [(k & c & Hk & Ha & Hm) _].
        destruct (Hgap k c n Hk ltac:(lia)) as (k' & c' & Hk' & Ha' & Hn').
        exists c'. split; [done|]. apply elem_of_order_by, elem_of_rows_where.
        split; [apply Hp; split; [congruence|lia]|eauto].
Qed.

(** The history an Agent replays is complete and gap-free.  For an enrolled Agent it always
    succeeds, changes nothing, and lists the commands from the requested number to the newest one as
    consecutive sequence numbers in ascending order. *)
Theorem command_history_is_gap_free `{NaiveDate} a from db ag v :
  agents_wf db -> commands_wf db -> sequences_wf db ->
  agents db !! a = Some ag -> ProtocolVersion_from_str (ag_protocol_version ag) = Ok v ->
  exists l, command_history a from db = (Ok (v, l), db) /\
    pc_sequence <$> l = seqZ (history_start from) (default 0 (max_sequence db a) + 1 - history_start from) /\
    (forall pc, pc ∈ l -> pc_agent_id pc = a /\ is_Some (commands db !! pc_command_id pc)).
Proof.
  intros Hag Hc Hs Ha Hv.
  assert (forall c, c ∈ history_rows db a from -> cm_agent_id c = a /\ 0 < cm_sequence c /\
    commands db !! cm_command_id c = Some c) as Hrows.
  { intros c Hc'. unfold history_rows in Hc'. apply elem_of_order_by, elem_of_rows_where in Hc' as [Hp [k Hk]].
    bools. destruct Hs as (Hkey & _). destruct (Hkey k c Hk) as [-> ?]. by apply String.eqb_eq in H0. }
  set (conv := fun c => mkPersistedCommand (cm_agent_id c) (ag_namespace ag) (cm_command_id c) (cm_message_id c)
    (cm_sequence c) (JobState_from (cm_state c)) (cm_command c) (cm_issued_at c) (cm_published_at c) (cm_updated_at c)).
  assert (collect (fun m => persisted_command m (ag_namespace ag)) (history_rows db a from)
          = Ok (conv <$> history_rows db a from)) as Hcol.
  { apply collect_Ok. apply Forall2_fmap_r, Forall_Forall2_diag, Forall_forall. intros c Hin%list_elem_of_In.
    destruct (Hrows c Hin) as (_ & Hpos & Hk). by apply (persisted_command_ok db); [..|apply Hc|]. }
  exists (conv <$> history_rows db a from). split_and!.
  - unfold command_history. apply transaction_Ok. unfold mbind, tx_bind, get, expect, lift, mret, tx_ret.
    rewrite Ha. simpl. by rewrite Hcol, Hv.
  - rewrite <- list_fmap_compose. rewrite <- history_sequences by done. done.
  - intros pc (c & -> & Hin)%list_elem_of_fmap. destruct (Hrows c Hin) as (? & _ & Hk). simpl. by rewrite Hk.
Qed.

#[global] Instance any_date : NaiveDate := fun _ => true.
Definition sample_history : Database :=
  snd (enqueue_command sample_admission "agt_1" (Some "job_named") (digest_of "g") sample_command sample_clock
         sample_queued).

Lemma sample_history_wf : sequences_wf sample_history.
Proof.
  assert (requested_valid None = true /\ requested_valid (Some "job_named") = true) as [R1 R2] by done.
  destruct (enqueue_in sample_admission "agt_1" None (digest_of "f") sample_command sample_clock sample_admitted)
    as [[[row ns] db1]|e] eqn:E1; [|vm_compute in E1; discriminate].
  assert (agents_wf sample_admitted) as A0 by decide_now.
  assert (commands_wf sample_admitted) as C0 by decide_now.
  pose proof (enqueue_command_wf _ _ _ _ _ _ _ _ _ _ A0 C0 sample_sequences_wf R1 E1) as (A1 & C1 & S1 & _).
  destruct (enqueue_in sample_admission "agt_1" (Some "job_named") (digest_of "g") sample_command sample_clock db1)
    as [[[row2 ns2] db2]|e] eqn:E2; [|vm_compute in E1; injection E1 as <- <- <-; vm_compute in E2; discriminate].
  pose proof (enqueue_command_wf _ _ _ _ _ _ _ _ _ _ A1 C1 S1 R2 E2) as (_ & _ & S2 & _).
  unfold sample_history, sample_queued, enqueue_command, transaction. unfold mbind, repo_bind.
  rewrite E1. simpl. rewrite E2. exact S2.
Qed.

Lemma command_history_is_gap_free_witness :
  exists l, command_history "agt_1" 1 sample_history = (Ok ("2026-10-03", l), sample_history) /\
    pc_sequence <$> l = [1; 2].
Proof.
  assert (agents_wf sample_history) as A0 by decide_now.
  assert (commands_wf sample_history) as C0 by decide_now.
  assert (agents sample_history !! "agt_1" = Some sample_agent) as Ha by (vm_compute; reflexivity).
  assert (ProtocolVersion_from_str (ag_protocol_version sample_agent) = Ok "2026-10-03") as Hv by reflexivity.
  destruct (command_history_is_gap_free "agt_1" 1 sample_history sample_agent "2026-10-03"
    A0 C0 sample_history_wf Ha Hv) as (l & Hl & Hs & _).
  exists l. split; [exact Hl|]. rewrite Hs. vm_compute. reflexivity.
Defined.
#[export] Hint Unfold require_agent : frames.
