(* ===== verification/Security.v ===== *)
(** * Identity keys, dispatch keys and signed Agent State

    [crates/inari-gateway/src/security.rs] and [security/state_envelopes.rs].  Base64url, hex,
    SHA-256, Ed25519, X.509 requests and JSON decoding are third-party code: they are the methods of
    the classes below, and everything the gateway itself checks is a definition. *)
From S2P Require Import Prelude Errors Identifiers InvitationCode Protocol Schema.

(** ** Third-party functions *)
Class Encoding := {
  hex_encode : string -> string;
  base64url_decode : string -> option string;
  base64url_encode : string -> string;
}.
(** The [hex] crate prints two lower-case digits per byte. *)
Class HexSpec `{Encoding} : Prop := {
  hex_length : forall s, str_len (hex_encode s) = 2 * str_len s;
  hex_lower : forall s, all_bytes lower_hex (hex_encode s) = true;
  hex_inj : forall s t, hex_encode s = hex_encode t -> s = t;
}.
Class Ed25519 := {
  ed25519_from_bytes_is_ok : string -> bool;
  ed25519_is_weak : string -> bool;
  verify_strict : string -> string -> string -> bool;
}.
Class Thumbprint := jwk_thumbprint : Jwk -> string.

Inductive GeneralName : Type := UriName (uri : string) | OtherName.
Inductive ParsedExtension : Type := SubjectAlternativeName (general_names : list GeneralName) | OtherExtension.
Record CertificationRequest := mkCertificationRequest {
  csr_signature_is_ok : bool;
  csr_subject_public_key : string;
  csr_subject_attributes : Z;
  csr_common_names : list (option string);
  csr_attributes_are_unique : bool;
  csr_requested_extensions : option (list ParsedExtension);
}.
Class X509 := {
  parse_x509_pem : string -> option (string * string);
  csr_from_der : string -> option (string * CertificationRequest);
}.

Record ProtectedHeader := mkProtectedHeader { ph_alg : string; ph_kid : string; ph_typ : string }.
Class EnvelopeCodec := {
  json_value : Type;
  header_from_slice : string -> option ProtectedHeader;
  json_from_slice : string -> option json_value;
  json_canonical : json_value -> option string;
  observation_from_value : json_value -> option AgentStateObservation;
}.

(** ** Keys *)
Section Keys.
Context `{Encoding, Ed25519, Sha256, Thumbprint, X509}.

Definition state_verifying_key (jwk : Jwk) : GatewayResult string :=
  _ ← ensure (negb (negb (bool_decide (jwk_key_algorithm jwk = Some AlgEdDSA))
                || negb (bool_decide (jwk_public_key_use jwk = Some UseSignature))
                || jwk_has_key_operations jwk))
        (InvalidInput "Agent State JWK must declare EdDSA and sig");
  match jwk_algorithm jwk with
  | OtherKeyType => Err (InvalidInput "Agent State JWK must be an OKP key")
  | OctetKeyPair curve x =>
      _ ← ensure (bool_decide (curve = CrvEd25519)) (InvalidInput "Agent State JWK curve must be Ed25519");
      public_key ← ok_or (base64url_decode x) (InvalidInput "Agent State JWK x is not canonical base64url");
      _ ← ensure (str_len public_key =? 32) (InvalidInput "Agent State public keys must be 32 bytes");
      _ ← ensure (ed25519_from_bytes_is_ok public_key) (InvalidInput "Agent State public key is invalid");
      _ ← ensure (negb (ed25519_is_weak public_key))
            (InvalidInput "Agent State requires a separate, valid signing key");
      let expected_id := "agent_state_" ++ hex_encode (sha256 public_key) in
      _ ← ensure (bool_decide (jwk_key_id jwk = Some expected_id))
            (InvalidInput "Agent State kid must identify its public key");
      Ok public_key
  end.

Definition validate_state_signing_key (jwk : Jwk) (identity_key : string) : GatewayResult unit :=
  key ← state_verifying_key jwk;
  ensure (negb (String.eqb key identity_key)) (InvalidInput "Agent State requires a separate signing key").

Record ValidatedDispatchKey := mkValidatedDispatchKey {
  vd_key_id : string; vd_public_key : string; vd_fingerprint : string }.

Definition key_id_byte (c : ascii) : bool := is_ascii_alphanumeric c || byte_is c 95 || byte_is c 45.

Definition validate_dispatch_key (key : DispatchEncryptionKey) : GatewayResult ValidatedDispatchKey :=
  _ ← ensure (negb (is_empty (dk_key_id key) || (256 <? str_len (dk_key_id key))
                || negb (all_bytes key_id_byte (dk_key_id key))))
        (InvalidInput "dispatch key IDs must use 1 to 256 ASCII letters, digits, hyphens, or underscores");
  _ ← ensure (bool_decide (dk_kem key = DhkemX25519HkdfSha256)) (InvalidInput "unsupported dispatch KEM");
  public_key ← ok_or (base64url_decode (dk_public_key_base64url key))
                 (InvalidInput "dispatch public key is not base64url");
  _ ← ensure (str_len public_key =? 32) (InvalidInput "X25519 public keys must be 32 bytes");
  _ ← ensure (negb (all_bytes (fun c => byte_is c 0) public_key))
        (InvalidInput "X25519 public keys must not be the all-zero value");
  Ok (mkValidatedDispatchKey (dk_key_id key) public_key (base64url_encode (sha256 public_key))).

Definition validate_certificate_subject (csr : CertificationRequest) (agent_id : string) : GatewayResult unit :=
  ensure (negb (negb (csr_subject_attributes csr =? 1)
            || negb (bool_decide (match csr_common_names csr with n :: _ => n | [] => None end = Some agent_id))))
    (InvalidInput "certificate subject must contain only the Agent ID common name").

Definition general_names_eqb (names : list GeneralName) (uri : string) : bool :=
  match names with [UriName u] => String.eqb u uri | _ => false end.
Fixpoint subject_alternative_names (extensions : list ParsedExtension) : list (list GeneralName) :=
  match extensions with
  | [] => []
  | SubjectAlternativeName names :: rest => names :: subject_alternative_names rest
  | OtherExtension :: rest => subject_alternative_names rest
  end.
Definition validate_certificate_names (extensions : list ParsedExtension) (agent_id : string) : GatewayResult unit :=
  let expected := "urn:inari:" ++ agent_id in
  let valid := match subject_alternative_names extensions with
               | names :: rest => general_names_eqb names expected && match rest with [] => true | _ => false end
               | [] => false
               end in
  ensure valid (InvalidInput "certificate names must contain only the Agent Identity URI SAN").

Record ValidatedIdentity := mkValidatedIdentity {
  vi_key_id : string; vi_jwk_thumbprint : string; vi_public_key : string; vi_csr_fingerprint : string }.

Definition prefix_of (n : nat) (s : string) : string := fst (split_at n s).

Definition validate_identity (agent_id key_id : string) (jwk : Jwk) (csr_pem : string)
    : GatewayResult ValidatedIdentity :=
  _ ← ensure (bool_decide (jwk_key_id jwk = Some key_id)) (InvalidInput "public JWK kid must match key_id");
  _ ← ensure (bool_decide (jwk_key_algorithm jwk = Some AlgEdDSA)) (InvalidInput "public JWK alg must be EdDSA");
  _ ← ensure (match jwk_public_key_use jwk with None | Some UseSignature => true | _ => false end)
        (InvalidInput "public JWK use must be sig");
  match jwk_algorithm jwk with
  | OtherKeyType => Err (InvalidInput "public JWK must be an OKP key")
  | OctetKeyPair curve x =>
      _ ← ensure (bool_decide (curve = CrvEd25519)) (InvalidInput "public JWK curve must be Ed25519");
      public_key ← ok_or (base64url_decode x) (InvalidInput "public JWK x is not valid base64url");
      _ ← ensure (str_len public_key =? 32) (InvalidInput "Ed25519 public key must be 32 bytes");
      _ ← ensure (ed25519_from_bytes_is_ok public_key) (InvalidInput "Ed25519 public key is invalid");
      _ ← ensure (negb (ed25519_is_weak public_key)) (InvalidInput "Ed25519 public key must not be weak");
      let digest := hex_encode (sha256 public_key) in
      _ ← ensure (negb (negb (String.eqb agent_id ("agt_" ++ prefix_of 24 digest))
                    || negb (String.eqb key_id ("kid_" ++ prefix_of 12 digest))))
            (InvalidInput "Agent ID and key ID must identify the public JWK key");
      pem ← ok_or (parse_x509_pem csr_pem) (InvalidInput "CSR is not valid PEM");
      _ ← ensure (all_bytes is_ascii_whitespace (fst pem)) (InvalidInput "CSR must contain one PEM request");
      der ← ok_or (csr_from_der (snd pem)) (InvalidInput "CSR is not valid PKCS#10 DER");
      _ ← ensure (is_empty (fst der)) (InvalidInput "CSR contains trailing DER data");
      let csr := snd der in
      _ ← ensure (csr_signature_is_ok csr) (InvalidInput "CSR signature is invalid");
      _ ← ensure (String.eqb (csr_subject_public_key csr) public_key)
            (InvalidInput "CSR public key does not match public JWK");
      _ ← validate_certificate_subject csr agent_id;
      _ ← ensure (csr_attributes_are_unique csr) (InvalidInput "CSR contains duplicate attributes");
      _ ← validate_certificate_names (default [] (csr_requested_extensions csr)) agent_id;
      Ok (mkValidatedIdentity key_id (jwk_thumbprint jwk) public_key (base64url_encode (sha256 (snd pem))))
  end.
End Keys.


(** ** Agent State envelopes *)
Section Envelopes.
Context `{Encoding, Ed25519, Sha256, EnvelopeCodec}.

Definition MAX_JSON_INTEGER : Z := 9007199254740991.

Definition invalid_state (detail : string) : GatewayError := InvalidInput ("Agent State " ++ detail).

Definition identifier_byte (c : ascii) : bool :=
  is_ascii_alphanumeric c || byte_is c 46 || byte_is c 95 || byte_is c 58 || byte_is c 47 || byte_is c 45.
Definition identifier (value : string) : bool :=
  (str_len value <=? 256)
  && match first_byte value with Some c => is_ascii_alphanumeric c | None => false end
  && all_bytes identifier_byte value.

Definition fingerprint (value : string) : bool :=
  match strip_prefix "sha256:" value with
  | Some digest => (str_len digest =? 64) && all_bytes lower_hex digest
  | None => false
  end.

Definition safe_code (value : string) (limit : Z) (dots : bool) : bool :=
  (str_len value <=? limit)
  && match first_byte value with Some c => is_ascii_lowercase c | None => false end
  && all_bytes (fun c => is_ascii_lowercase c || is_ascii_digit c || byte_is c 95 || (dots && byte_is c 46)) value.

Definition segment_decode (value : string) : GatewayResult string :=
  ok_or (base64url_decode value) (invalid_state "JWS segments must use canonical base64url").

Record UnverifiedAgentStateEnvelope := mkEnvelope {
  en_signing_input : string;
  en_header : ProtectedHeader;
  en_payload : string;
  en_signature : string;
}.

Definition envelope_parse (compact : string) : GatewayResult UnverifiedAgentStateEnvelope :=
  _ ← ensure (str_len compact <=? 65536) (invalid_state "envelope exceeds its size limit");
  match split_on "." compact with
  | [protected; payload; signature] =>
      _ ← ensure (str_len protected <=? 1024) (invalid_state "protected header exceeds its size limit");
      protected ← segment_decode protected;
      header ← ok_or (header_from_slice protected) (invalid_state "protected header is invalid");
      _ ← ensure (negb (negb (String.eqb (ph_alg header) "EdDSA")
                    || negb (String.eqb (ph_typ header) "application/inari-agent-state+jws")
                    || negb (identifier (ph_kid header))))
            (invalid_state "protected header has an unsupported algorithm, type, or key ID");
      payload ← segment_decode payload;
      signature ← segment_decode signature;
      _ ← ensure (str_len signature =? 64) (invalid_state "signature must contain 64 bytes");
      parts ← ok_or (rsplit_once "." compact) (invalid_state "signature is missing");
      Ok (mkEnvelope (fst parts) header payload signature)
  | _ => Err (invalid_state "envelope must use attached compact JWS")
  end.

Definition envelope_key_id (e : UnverifiedAgentStateEnvelope) : string := ph_kid (en_header e).

Definition canonical_record (record : string) : bool :=
  match parse_i64 record with Some value => (0 <? value) && String.eqb (show_u64 value) record | None => false end.

Definition latest_at (job : ManagedPrintJobSnapshot) : instant :=
  match pj_terminal_at job with
  | Some t => t
  | None => match pj_started_at job with Some t => t | None => pj_accepted_at job end
  end.

Definition counter_ok (value : Z) : bool := (1 <=? value) && (value <=? MAX_JSON_INTEGER).

Definition valid_lifecycle (job : ManagedPrintJobSnapshot) : bool :=
  let started := bool_decide (is_Some (pj_started_at job)) in
  let terminal := bool_decide (is_Some (pj_terminal_at job)) in
  match pj_state job with
  | PjAccepted => (pj_state_version job =? 1) && negb started && negb terminal
  | PjInProgress => (2 <=? pj_state_version job) && started && negb terminal
  | PjOutputConfirmed =>
      (3 <=? pj_state_version job) && started && terminal
      && bool_decide (is_Some (pj_confirmation_evidence job))
  | PjOutcomeUnknown => (3 <=? pj_state_version job) && started && terminal
  | PjFailed => (2 <=? pj_state_version job) && terminal
  | PjExpired | PjCanceled => (2 <=? pj_state_version job) && negb started && terminal
  end.

Definition origin_source_ok (origin : ManagedPrintJobOrigin) : bool :=
  let no_records := match or_record_ids origin with [] => true | _ => false end in
  let no_wizard := bool_decide (or_wizard_input_digest origin = None) in
  negb (Bool.eqb no_records no_wizard
        || (100 <? Z.of_nat (length (or_record_ids origin)))
        || existsb (fun record => negb (canonical_record record)) (or_record_ids origin)
        || match or_wizard_input_digest origin with Some d => negb (fingerprint d) | None => false end).

Definition timestamps_ok (ob : AgentStateObservation) : bool :=
  let job := ob_job ob in
  negb ((pj_expires_at job <=? pj_accepted_at job)
        || match pj_started_at job with Some t => t <? pj_accepted_at job | None => false end
        || match pj_terminal_at job with
           | Some t => t <? default (pj_accepted_at job) (pj_started_at job)
           | None => false
           end
        || (ob_observed_at ob <? latest_at job)
        || (ob_issued_at ob <? ob_observed_at ob)).

Definition validate_observation (ob : AgentStateObservation) : GatewayResult unit :=
  let job := ob_job ob in
  let origin := pj_origin job in
  _ ← ensure (negb (negb (ob_contract_major ob =? 1) || negb (String.eqb (pj_contract_version job) "v1")))
        (invalid_state "contract version is unsupported");
  _ ← ensure (forallb identifier [ob_envelope_id ob; ob_agent_boot_id ob; ob_reconciliation_session_id ob;
                pj_print_job_id job; or_database origin; or_company_id origin; or_report_binding_id origin;
                or_report_action origin; or_source_model origin])
        (invalid_state "claims contain an invalid identifier");
  _ ← ensure (forallb counter_ok [ob_dispatch_epoch ob; ob_envelope_sequence ob; ob_durable_state_sequence ob;
                pj_state_version job])
        (invalid_state "counters must be positive JSON-safe integers");
  _ ← ensure (fingerprint (ob_payload_fingerprint ob)) (invalid_state "Payload Fingerprint is invalid");
  _ ← ensure (origin_source_ok origin) (invalid_state "Report Print Origin source is invalid");
  _ ← ensure (timestamps_ok ob) (invalid_state "timestamps conflict with the Print Job lifecycle");
  _ ← ensure (negb (negb (valid_lifecycle job)
                || (negb (bool_decide (pj_state job = PjOutputConfirmed))
                    && bool_decide (is_Some (pj_confirmation_evidence job)))))
        (invalid_state "state conflicts with the Print Job lifecycle or Output Evidence");
  match pj_state job with
  | PjFailed | PjOutcomeUnknown =>
      ensure (negb (negb (match pj_error_code job with Some v => safe_code v 64 false | None => false end)
                || negb (match pj_message_key job with Some v => safe_code v 128 true | None => false end)))
        (invalid_state "failure requires a safe error code and message key")
  | _ =>
      ensure (negb (bool_decide (is_Some (pj_error_code job)) || bool_decide (is_Some (pj_message_key job))))
        (invalid_state "state cannot contain an error")
  end.

Definition envelope_verify (e : UnverifiedAgentStateEnvelope) (registered_key : Jwk)
    : GatewayResult AgentStateObservation :=
  _ ← ensure (bool_decide (jwk_key_id registered_key = Some (envelope_key_id e)))
        (invalid_state "key ID does not match its registered signing key");
  key ← state_verifying_key registered_key;
  _ ← ensure (verify_strict key (en_signing_input e) (en_signature e)) (invalid_state "signature is invalid");
  value ← ok_or (json_from_slice (en_payload e)) (invalid_state "claims are not valid JSON");
  canonical ← ok_or (json_canonical value) Serialization;
  _ ← ensure (String.eqb canonical (en_payload e)) (invalid_state "claims must use RFC 8785 canonical JSON");
  observation ← ok_or (observation_from_value value)
                  (invalid_state "claims do not match the managed Print Job contract");
  _ ← validate_observation observation;
  Ok observation.

(** ** Lemmas *)
(** The facts a validated observation guarantees. *)
Record observation_facts (ob : AgentStateObservation) : Prop := mkObservationFacts {
  of_identifiers : Forall (fun v => identifier v = true)
    [ob_envelope_id ob; ob_agent_boot_id ob; ob_reconciliation_session_id ob; pj_print_job_id (ob_job ob)];
  of_version : 1 <= pj_state_version (ob_job ob) <= MAX_JSON_INTEGER;
  of_sequence : 1 <= ob_durable_state_sequence ob <= MAX_JSON_INTEGER;
  of_accepted : pj_state (ob_job ob) = PjAccepted <-> pj_state_version (ob_job ob) = 1;
  of_terminal : is_terminal (pj_state (ob_job ob)) = true <-> is_Some (pj_terminal_at (ob_job ob));
  of_started : forall t, pj_started_at (ob_job ob) = Some t ->
    pj_accepted_at (ob_job ob) <= t <= ob_observed_at ob /\
    (forall u, pj_terminal_at (ob_job ob) = Some u -> t <= u);
  of_ended : forall u, pj_terminal_at (ob_job ob) = Some u -> pj_accepted_at (ob_job ob) <= u <= ob_observed_at ob;
  of_clock : pj_accepted_at (ob_job ob) <= ob_observed_at ob <= ob_issued_at ob;
  of_deadline : pj_accepted_at (ob_job ob) < pj_expires_at (ob_job ob);
  of_evidence : is_Some (pj_confirmation_evidence (ob_job ob)) <-> pj_state (ob_job ob) = PjOutputConfirmed;
  of_error : is_Some (pj_error_code (ob_job ob)) <->
    pj_state (ob_job ob) = PjFailed \/ pj_state (ob_job ob) = PjOutcomeUnknown;
}.

Lemma validate_observation_Ok ob : validate_observation ob = Ok tt ->
  forallb identifier [ob_envelope_id ob; ob_agent_boot_id ob; ob_reconciliation_session_id ob;
    pj_print_job_id (ob_job ob)] = true /\
  counter_ok (ob_durable_state_sequence ob) = true /\ counter_ok (pj_state_version (ob_job ob)) = true /\
  timestamps_ok ob = true /\ valid_lifecycle (ob_job ob) = true /\
  (pj_state (ob_job ob) <> PjOutputConfirmed -> pj_confirmation_evidence (ob_job ob) = None) /\
  match pj_state (ob_job ob) with
  | PjFailed | PjOutcomeUnknown => is_Some (pj_error_code (ob_job ob))
  | _ => pj_error_code (ob_job ob) = None
  end.
Proof.
  unfold validate_observation. cbv zeta. rewrite !ensure_bind_Ok.
  intros (_ & Hid & Hcnt & _ & _ & Hts & Hlife & Hend). simpl in Hid, Hcnt. bools. simpl.
  split_and!; try done.
  - by repeat match goal with E : identifier _ = true |- _ => rewrite E; clear E end.
  - intros Hne. destruct (pj_confirmation_evidence (ob_job ob)); [|done]. exfalso.
    rewrite bool_decide_false in * by done. simpl in *. rewrite bool_decide_true in * by done. done.
  - destruct (pj_state (ob_job ob)); apply ensure_Ok in Hend; bools;
      try (destruct (pj_error_code (ob_job ob)); [|done]; by eexists);
      by apply eq_None_not_Some.
Qed.

(** The lifecycle table, read as equivalences. *)
Lemma valid_lifecycle_facts job : valid_lifecycle job = true -> 1 <= pj_state_version job ->
  (pj_state job = PjAccepted <-> pj_state_version job = 1) /\
  (is_terminal (pj_state job) = true <-> is_Some (pj_terminal_at job)) /\
  (pj_state job = PjOutputConfirmed -> is_Some (pj_confirmation_evidence job)).
Proof.
  unfold valid_lifecycle. intros Hl Hv.
  destruct (pj_state job); bools; simpl; (split_and!; [split; intros; (done || lia) | | done]);
    (split; [done | intros; (done || by exfalso)]).
Qed.

Lemma validate_observation_facts ob : validate_observation ob = Ok tt -> observation_facts ob.
Proof.
  intros (Hid & Hseq & Hver & Hts & Hlife & Hev & Herr)%validate_observation_Ok.
  unfold counter_ok, timestamps_ok, latest_at in *. simpl in Hid. bools.
  destruct (valid_lifecycle_facts _ Hlife) as (Ha & Ht & Hc); [done|].
  constructor; try done.
  - repeat constructor; assumption.
  - intros t Ht'. rewrite Ht' in *. destruct (pj_terminal_at (ob_job ob)) as [u|]; simpl in *; bools.
    + split; [lia|]. intros ? [= <-]. lia.
    + split; [lia|]. done.
  - intros u Hu. rewrite Hu in *. destruct (pj_started_at (ob_job ob)); simpl in *; bools; lia.
  - destruct (pj_terminal_at (ob_job ob)), (pj_started_at (ob_job ob)); simpl in *; bools; lia.
  - split; [|done]. intros [ev Hsome]. destruct (decide (pj_state (ob_job ob) = PjOutputConfirmed)); [done|].
    rewrite Hev in Hsome by done. done.
  - destruct (pj_state (ob_job ob)); try rewrite Herr; split; intros Hx;
      first [by destruct Hx | tauto | done | by destruct Hx as [Hx|Hx]].
Qed.

(** An observation that passes validation describes a coherent Print Job: version 1 is exactly the
    accepted state, a terminal state is exactly one with a terminal time, acceptance, start, end,
    observation and issue follow each other in time before any claim of output, output evidence belongs to
    confirmed output only, and an error code to failures and unknown outcomes only. *)
Theorem validated_observation_is_coherent ob : validate_observation ob = Ok tt -> observation_facts ob.
Proof. apply validate_observation_facts. Qed.

Lemma state_verifying_key_Ok jwk pk : state_verifying_key jwk = Ok pk ->
  exists x, jwk_algorithm jwk = OctetKeyPair CrvEd25519 x /\ base64url_decode x = Some pk /\
    str_len pk = 32 /\ ed25519_is_weak pk = false /\
    jwk_key_id jwk = Some ("agent_state_" ++ hex_encode (sha256 pk)).
Proof.
  unfold state_verifying_key. rewrite ensure_bind_Ok. intros [_ Hk].
  destruct (jwk_algorithm jwk) as [curve x|] eqn:Ej; [|done].
  rewrite ensure_bind_Ok, ok_or_bind_Ok in Hk. destruct Hk as (Hc & pk' & Hx & Hk).
  rewrite !ensure_bind_Ok in Hk. destruct Hk as (Hl & _ & Hw & Hid & [= ->]). bools. subst curve.
  exists x. done.
Qed.

(** An observation is only ever read out of an envelope whose signature was checked: the compact text
    is [header.payload.signature], the signature verifies over exactly [header.payload] under the registered
    key, that key is the one the header names by the hash of its bytes, the payload is canonical JSON of the
    observation, and the observation passed validation. *)
Theorem verified_observation_is_signed compact e registered ob :
  envelope_parse compact = Ok e -> envelope_verify e registered = Ok ob ->
  exists h p s pk sig value,
    compact = h ++ "." ++ p ++ "." ++ s /\
    base64url_decode s = Some sig /\ str_len sig = 64 /\
    state_verifying_key registered = Ok pk /\ verify_strict pk (h ++ "." ++ p) sig = true /\
    envelope_key_id e = "agent_state_" ++ hex_encode (sha256 pk) /\
    base64url_decode p = Some (en_payload e) /\
    json_from_slice (en_payload e) = Some value /\ json_canonical value = Some (en_payload e) /\
    observation_from_value value = Some ob /\ observation_facts ob.
Proof.
  unfold envelope_parse, envelope_verify. rewrite ensure_bind_Ok. intros [_ Hp] Hv.
  destruct (split_on "." compact) as [|h [|p [|s [|]]]] eqn:Es; try done.
  unfold segment_decode in Hp.
  apply ensure_bind_Ok in Hp as [_ Hp]. apply ok_or_bind_Ok in Hp as (hd & _ & Hp).
  apply ok_or_bind_Ok in Hp as (header & _ & Hp). apply ensure_bind_Ok in Hp as [_ Hp].
  apply ok_or_bind_Ok in Hp as (payload & Hpay & Hp). apply ok_or_bind_Ok in Hp as (sig & Hsig & Hp).
  apply ensure_bind_Ok in Hp as [Hlen Hp]. apply ok_or_bind_Ok in Hp as ([si sg] & Hr & [= <-]).
  simpl in *. bools.
  apply ensure_bind_Ok in Hv as [Hkid Hv]. apply bind_Ok in Hv as (pk & Hpk & Hv).
  apply ensure_bind_Ok in Hv as [Hver Hv]. apply ok_or_bind_Ok in Hv as (value & Hval & Hv).
  apply ok_or_bind_Ok in Hv as (canonical & Hcan & Hv). apply ensure_bind_Ok in Hv as [Heq Hv].
  apply ok_or_bind_Ok in Hv as (ob' & Hob & Hv). apply bind_Ok in Hv as ([] & Hvalid & [= ->]).
  simpl in *. apply String.eqb_eq in Heq as ->. bools.
  destruct (rsplit_once_split _ _ _ _ Hr) as (ps & Hps & -> & _). rewrite Es in Hps.
  destruct ps as [|? [|? [|? ps]]]; simplify_list_eq; [|by destruct ps]. simpl in *.
  pose proof (split_on_join "." compact) as Hj. rewrite Es in Hj. simpl in Hj.
  destruct (state_verifying_key_Ok _ _ Hpk) as (x & _ & _ & _ & _ & Hid).
  rewrite Hid in Hkid. injection Hkid as Hkid.
  eexists _, _, _, pk, sig, value.
  split_and!; [symmetry; exact Hj|done|done|done|done|exact (eq_sym Hkid)|done|done|done|done|].
  by apply validate_observation_facts.
Qed.
End Envelopes.


(** ** Concrete instances for the witnesses

    A byte-wise hexadecimal printer, the identity as base64url, and a signature scheme that accepts one
    signature. *)
Fixpoint hex_bytes (s : string) : string :=
  match s with
  | EmptyString => EmptyString
  | String c s' => hex_digit (N_of_ascii c / 16) ++ hex_digit (N_of_ascii c mod 16) ++ hex_bytes s'
  end.
Definition thirty_two (c : ascii) : string := String.concat "" (repeat (String c EmptyString) 32).
Module Toy.
#[export] Instance encoding : Encoding :=
  {| hex_encode := hex_bytes; base64url_decode := fun s => Some s; base64url_encode := fun s => s |}.
#[export] Instance ed25519 : Ed25519 :=
  {| ed25519_from_bytes_is_ok := fun _ => true; ed25519_is_weak := fun _ => false;
     verify_strict := fun _ _ sig => String.eqb sig (thirty_two "s" ++ thirty_two "s") |}.
#[export] Instance hash : Sha256 := fun _ => thirty_two "h".
#[export] Instance thumbprint : Thumbprint := fun j => default "" (jwk_key_id j).
End Toy.
Import Toy.

Lemma hex_digit_facts c :
  str_len (hex_digit (N_of_ascii c / 16)) = 1 /\ str_len (hex_digit (N_of_ascii c mod 16)) = 1 /\
  all_bytes lower_hex (hex_digit (N_of_ascii c / 16) ++ hex_digit (N_of_ascii c mod 16)) = true.
Proof.
  pose proof (ascii_by_code (fun c => (str_len (hex_digit (N_of_ascii c / 16)) =? 1)
    && (str_len (hex_digit (N_of_ascii c mod 16)) =? 1)
    && all_bytes lower_hex (hex_digit (N_of_ascii c / 16) ++ hex_digit (N_of_ascii c mod 16)))
    ltac:(vm_compute; reflexivity) c) as H. cbv beta in H. by bools.
Qed.
Definition unhex (a b : string) : N :=
  match String.index 0 a "0123456789abcdef", String.index 0 b "0123456789abcdef" with
  | Some i, Some j => N.of_nat (i * 16 + j)
  | _, _ => 0
  end.
Lemma unhex_hex c : unhex (hex_digit (N_of_ascii c / 16)) (hex_digit (N_of_ascii c mod 16)) = N_of_ascii c.
Proof.
  apply N.eqb_eq. revert c.
  apply (ascii_by_code (fun c => N.eqb (unhex (hex_digit (N_of_ascii c / 16)) (hex_digit (N_of_ascii c mod 16)))
    (N_of_ascii c))). vm_compute. reflexivity.
Qed.
Lemma single_byte s : str_len s = 1 -> exists c, s = String c EmptyString.
Proof. unfold str_len. destruct s as [|c [|]]; simpl; intros; [lia|eauto|lia]. Qed.

#[export] Instance toy_hex_spec : @HexSpec Toy.encoding.
Proof.
  split; simpl.
  - induction s as [|c s IH]; simpl; [done|]. rewrite !str_len_app, IH.
    destruct (hex_digit_facts c) as (-> & -> & _). unfold str_len. simpl. lia.
  - induction s as [|c s IH]; simpl; [done|]. rewrite string_app_assoc, all_bytes_app, IH.
    by destruct (hex_digit_facts c) as (_ & _ & ->).
  - induction s as [|c s IH]; intros [|d t]; simpl; [done| | |].
    + destruct (hex_digit_facts d) as (Hd & _). destruct (single_byte _ Hd) as [x ->]. done.
    + destruct (hex_digit_facts c) as (Hd & _). destruct (single_byte _ Hd) as [x ->]. done.
    + destruct (hex_digit_facts c) as (Hc1 & Hc2 & _), (hex_digit_facts d) as (Hd1 & Hd2 & _).
      pose proof (unhex_hex c) as Uc. pose proof (unhex_hex d) as Ud.
      destruct (single_byte _ Hc1) as [c1 E1], (single_byte _ Hc2) as [c2 E2],
        (single_byte _ Hd1) as [d1 E3], (single_byte _ Hd2) as [d2 E4].
      rewrite E1, E2, E3, E4 in *. simpl. intros [= -> -> E]. apply IH in E as ->.
      f_equal. apply (f_equal ascii_of_N) in Uc. apply (f_equal ascii_of_N) in Ud.
      rewrite ascii_N_embedding in Uc, Ud. congruence.
Qed.

Definition sample_origin : ManagedPrintJobOrigin :=
  mkManagedPrintJobOrigin "org_acme" "site_main" "prod" "1" "binding-7" RouteManual "report.invoice"
    "account.move" ["42"] None 0.
Definition sample_job : ManagedPrintJobSnapshot :=
  mkManagedPrintJobSnapshot "pj-1" "pi_v1_a" "dev_label" sample_origin "mw_1" PjOutputConfirmed 3
    (seconds 10) (Some (seconds 11)) (Some (seconds 12)) (seconds 600) None None (Some EvDevice) "v1".
Definition sample_observation : AgentStateObservation :=
  mkAgentStateObservation 1 "env-1" "agt_1" "boot-1" "session-1" 1 9 9 (seconds 13) (seconds 14)
    ("sha256:" ++ thirty_two "a" ++ thirty_two "b") sample_job.
Definition toy_key_id : string := "agent_state_" ++ hex_bytes (thirty_two "h").
Definition toy_jwk : Jwk :=
  mkJwk (Some toy_key_id) (Some AlgEdDSA) (Some UseSignature) false (OctetKeyPair CrvEd25519 (thirty_two "k")).
Definition toy_envelope : string := "hdr.claims." ++ thirty_two "s" ++ thirty_two "s".
#[export] Instance toy_codec : EnvelopeCodec :=
  {| json_value := string;
     header_from_slice := fun _ => Some (mkProtectedHeader "EdDSA" toy_key_id "application/inari-agent-state+jws");
     json_from_slice := fun s => Some s;
     json_canonical := fun s => Some s;
     observation_from_value := fun _ => Some sample_observation |}.

Lemma validated_observation_is_coherent_witness :
  validate_observation sample_observation = Ok tt /\ observation_facts sample_observation.
Proof. split; [reflexivity|]. apply validated_observation_is_coherent. reflexivity. Defined.

Lemma verified_observation_is_signed_witness :
  exists e, envelope_parse toy_envelope = Ok e /\ envelope_verify e toy_jwk = Ok sample_observation /\
  exists h p s pk sig value,
    toy_envelope = h ++ "." ++ p ++ "." ++ s /\ base64url_decode s = Some sig /\ str_len sig = 64 /\
    state_verifying_key toy_jwk = Ok pk /\ verify_strict pk (h ++ "." ++ p) sig = true /\
    envelope_key_id e = "agent_state_" ++ hex_encode (sha256 pk) /\
    base64url_decode p = Some (en_payload e) /\
    json_from_slice (en_payload e) = Some value /\ json_canonical value = Some (en_payload e) /\
    observation_from_value value = Some sample_observation /\ observation_facts sample_observation.
Proof.
  eexists. split; [vm_compute; reflexivity|]. split; [vm_compute; reflexivity|].
  apply verified_observation_is_signed with (registered := toy_jwk); vm_compute; reflexivity.
Defined.

(** ** Identity *)
Lemma split_at_all (p : ascii -> bool) n s : all_bytes p s = true -> all_bytes p (fst (split_at n s)) = true.
Proof.
  destruct (split_at n s) as [a b] eqn:E. apply split_at_eq in E as ->. rewrite all_bytes_app. simpl. intros; by bools.
Qed.
Lemma lower_hex_agent c : lower_hex c = true -> agent_byte c = true.
Proof.
  pose proof (ascii_by_code (fun c => implb (lower_hex c) (agent_byte c)) ltac:(vm_compute; reflexivity) c) as H.
  cbv beta in H. intros Hc. by rewrite Hc in H.
Qed.
Lemma prefix_of_length n s : (n <= String.length s)%nat -> String.length (prefix_of n s) = n.
Proof. unfold prefix_of. intros Hl. destruct (split_at n s) as [a b] eqn:E. by eapply split_at_length. Qed.

Lemma agent_id_of_key_valid `{Encoding, Sha256, !HexSpec, !Sha256Spec} pk :
  agent_id_valid ("agt_" ++ prefix_of 24 (hex_encode (sha256 pk))) = true.
Proof.
  unfold agent_id_valid, MAX_AGENT_ID_LENGTH, AGENT_ID_PREFIX.
  rewrite strip_prefix_app, str_len_app.
  assert (String.length (prefix_of 24 (hex_encode (sha256 pk))) = 24%nat) as Hlen.
  { apply prefix_of_length. pose proof (hex_length (sha256 pk)) as Hl. rewrite sha256_length in Hl.
    unfold str_len in Hl. lia. }
  unfold str_len. rewrite Hlen. simpl.
  rewrite (all_bytes_impl lower_hex) by (apply lower_hex_agent || apply split_at_all, hex_lower).
  by destruct (prefix_of 24 (hex_encode (sha256 pk))).
Qed.

(** An accepted identity is bound to its key: the Agent identifier and the key identifier are prefixes
    of the hash of the public key (so the Agent identifier is well formed), the certificate request is
    signed, carries the same key, names only the Agent in its subject and only the Agent URI among its
    alternative names. *)
Theorem validated_identity_is_key_bound `{Encoding, Ed25519, Sha256, Thumbprint, X509, !HexSpec, !Sha256Spec}
    agent_id key_id jwk csr_pem v :
  validate_identity agent_id key_id jwk csr_pem = Ok v ->
  let digest := hex_encode (sha256 (vi_public_key v)) in
  agent_id = "agt_" ++ prefix_of 24 digest /\ key_id = "kid_" ++ prefix_of 12 digest /\
  agent_id_valid agent_id = true /\ jwk_key_id jwk = Some key_id /\ vi_key_id v = key_id /\
  exists rest der trailing csr,
    parse_x509_pem csr_pem = Some (rest, der) /\ csr_from_der der = Some (trailing, csr) /\ trailing = "" /\
    csr_signature_is_ok csr = true /\ csr_subject_public_key csr = vi_public_key v /\
    csr_subject_attributes csr = 1 /\ head (csr_common_names csr) = Some (Some agent_id) /\
    subject_alternative_names (default [] (csr_requested_extensions csr)) = [[UriName ("urn:inari:" ++ agent_id)]].
Proof.
  unfold validate_identity. intros Hrun. res_inv Hrun.
  destruct (jwk_algorithm jwk) as [curve x|]; [|done]. res_inv Hrun. simpl.
  destruct a0 as [rest der], a1 as [trailing csr]. simpl in *.
  match goal with Hs : validate_certificate_subject _ _ = Ok _, Hn : validate_certificate_names _ _ = Ok _ |- _ =>
    apply ensure_Ok in Hs; unfold validate_certificate_names in Hn; apply ensure_Ok in Hn end.
  bools. rewrite !String.eqb_eq in *. subst.
  split_and!; try done.
  - apply agent_id_of_key_valid.
  - exists rest, der, trailing, csr. split_and!; try done.
    + by destruct trailing.
    + destruct (csr_common_names csr); [done|]. simpl. congruence.
    + destruct (subject_alternative_names _) as [|names [|]]; bools; try done.
      destruct names as [|[u|] [|]]; try done. simpl in *. by match goal with H : String.eqb u _ = true |- _ => apply String.eqb_eq in H as -> end.
Qed.

Definition toy_agent_id : string := "agt_" ++ prefix_of 24 (hex_bytes (thirty_two "h")).
Definition toy_kid : string := "kid_" ++ prefix_of 12 (hex_bytes (thirty_two "h")).
Definition toy_identity_jwk : Jwk :=
  mkJwk (Some toy_kid) (Some AlgEdDSA) None false (OctetKeyPair CrvEd25519 (thirty_two "k")).
Definition toy_csr : CertificationRequest :=
  mkCertificationRequest true (thirty_two "k") 1 [Some toy_agent_id] true
    (Some [OtherExtension; SubjectAlternativeName [UriName ("urn:inari:" ++ toy_agent_id)]]).
#[export] Instance toy_x509 : X509 :=
  {| parse_x509_pem := fun s => Some ("", s); csr_from_der := fun _ => Some ("", toy_csr) |}.
#[export] Instance toy_sha_spec : @Sha256Spec Toy.hash.
Proof. intros s. reflexivity. Qed.

Lemma validated_identity_is_key_bound_witness :
  is_ok (validate_identity toy_agent_id toy_kid toy_identity_jwk "csr") = true /\
  agent_id_valid toy_agent_id = true.
Proof.
  split; [vm_compute; reflexivity|].
  eapply (validated_identity_is_key_bound toy_agent_id toy_kid toy_identity_jwk "csr"). vm_compute. reflexivity.
Defined.
