(* ===== verification/Authority.v ===== *)
(** * Device authority

    [crates/inari-gateway/src/device_authority/]: the six authority records, their canonical signed form, and the
    verification of an authority bundle against an independently trusted key.  SHA-256, hex, Ed25519, RFC 8785
    canonical JSON and the RFC 3339 text of an instant are third-party code; what a record serializes to, which is
    what a signature covers, is written out field by field. *)
From S2P Require Import Prelude Json Errors InvitationCode Schema Security.

(** ** Primitives *)
Definition invalid (message : string) : GatewayError := InvalidInput message.

Definition Identifier_new (value : string) : GatewayResult string :=
  if is_empty value || (256 <? chars_count value)
  then Err (InvalidInput "authority identifiers need 1 to 256 characters") else Ok value.

Definition AuthorityDigest_of `{Encoding, Sha256} (bytes : string) : string := hex_encode (sha256 bytes).
Definition AuthorityDigest_deserialize (value : string) : option string :=
  if negb (str_len value =? 64) || negb (all_bytes lower_hex value) then None else Some value.

Definition PositiveInteger_new (value : Z) : GatewayResult Z :=
  if negb ((1 <=? value) && (value <=? 9007199254740991))
  then Err (InvalidInput "authority integers must be positive and exact in RFC 8785") else Ok value.

(** Instants count no leap seconds, so the nanoseconds of a second are below 10^9. *)
Definition timestamp_subsec_nanos (t : instant) : Z := t mod 1000000000.
Definition AuthorityTime_new `{Rfc3339} (value : instant) : GatewayResult instant :=
  if negb ((1 <=? utc_year value) && (utc_year value <=? 9999))
     || negb (timestamp_subsec_nanos value mod 1000 =? 0)
     || (1000000000 <=? timestamp_subsec_nanos value)
  then Err (InvalidInput "authority timestamps need microsecond precision without leap seconds") else Ok value.
Definition AuthorityTime_signing_value `{Rfc3339} (t : instant) : Value := VString (rfc3339_micros t).
Definition AuthorityTime_serialize `{Rfc3339} (t : instant) : Value :=
  VString (if timestamp_subsec_nanos t / 1000 =? 0 then rfc3339_secs t else rfc3339_micros t).

(** [HexBytes] is the bytes; it is printed in hexadecimal. *)
Definition HexBytes_serialize `{Encoding} (bytes : string) : Value := VString (hex_encode bytes).

(** ** Records *)
Inductive ScopeKind : Set := ScopeSite | ScopePosConfiguration.
Record AuthorityScope := mkScope {
  sc_database : string;
  sc_organization_id : string;
  sc_site_id : string;
  sc_kind : ScopeKind;
  sc_pos_configuration_id : option string;
}.
Inductive OutputEvidence : Set := EvidenceTransport | EvidenceSpooler | EvidenceDevice.
Inductive DeviceTestResult : Set := Passed | FailedEnvironment | FailedContract.
Inductive SignerPurpose : Set :=
| ForAuthorityRevision | ForDriverProfile | ForCertificationMatrix | ForBindingRevision | ForDeviceTestEvidence
| ForDeviceObservation.
Inductive SignerState : Set := SignerActive | SignerRetired.
Record SignerRecord := mkSigner {
  sg_key_id : string;
  sg_purpose : SignerPurpose;
  sg_public_key : string;
  sg_state : SignerState;
  sg_not_before : instant;
  sg_not_after : option instant;
  sg_retired_at : option instant;
}.
Record AuthorityRevision := mkRevision {
  rv_revision_id : string;
  rv_revision_number : Z;
  rv_manifest_digest : string;
  rv_effective_at : instant;
  rv_expires_at : option instant;
}.
Record DeviceCapability := mkCapability {
  cp_capability_id : string;
  cp_operation : string;
  cp_media_type : string;
  cp_contract_major : Z;
  cp_output_evidence : OutputEvidence;
  cp_max_payload_bytes : Z;
  cp_max_copies : Z;
  cp_options_digest : string;
}.
Record DriverProfile := mkProfile {
  pr_profile_id : string;
  pr_version : string;
  pr_driver_id : string;
  pr_min_agent_version : string;
  pr_capabilities : list DeviceCapability;
  pr_effective_at : instant;
  pr_expires_at : option instant;
}.
Record HardwareCertificationMatrixRow := mkRow {
  ro_row_id : string;
  ro_version : Z;
  ro_device_id : string;
  ro_device_identity_digest : string;
  ro_manufacturer : string;
  ro_model : string;
  ro_firmware_version : string;
  ro_firmware_build : string;
  ro_driver_id : string;
  ro_driver_profile_digest : string;
  ro_capability_id : string;
  ro_platform_backend_id : string;
  ro_connection : string;
  ro_media_profile : string;
  ro_operating_system : string;
  ro_release_set_id : string;
  ro_effective_at : instant;
  ro_expires_at : option instant;
}.
Record BindingRevision := mkBinding {
  bi_binding_id : string;
  bi_revision_id : string;
  bi_revision_number : Z;
  bi_scope : AuthorityScope;
  bi_purpose : string;
  bi_device_id : string;
  bi_device_identity_digest : string;
  bi_capability_id : string;
  bi_driver_profile_digest : string;
  bi_matrix_row_id : string;
  bi_options_digest : string;
}.
Record DeviceTestEvidence := mkEvidence {
  te_evidence_id : string;
  te_revision_id : string;
  te_device_id : string;
  te_device_identity_digest : string;
  te_capability_id : string;
  te_driver_profile_digest : string;
  te_matrix_row_id : string;
  te_output_evidence : OutputEvidence;
  te_result : DeviceTestResult;
  te_test_pattern_digest : string;
  te_tested_at : instant;
  te_valid_until : option instant;
}.
Record DeviceObservation := mkObservation {
  do_observation_id : string;
  do_device_id : string;
  do_device_identity_digest : string;
  do_driver_id : string;
  do_driver_profile_digest : string;
  do_platform_backend_id : string;
  do_connection : string;
  do_media_profile : string;
  do_firmware_version : string;
  do_firmware_build : string;
  do_operating_system : string;
  do_ready : bool;
  do_state : string;
  do_reason : option string;
  do_observed_at : instant;
}.

#[global] Instance ScopeKind_eq_dec : EqDecision ScopeKind. Proof. solve_decision. Defined.
#[global] Instance AuthorityScope_eq_dec : EqDecision AuthorityScope. Proof. solve_decision. Defined.
#[global] Instance OutputEvidence_eq_dec : EqDecision OutputEvidence. Proof. solve_decision. Defined.
#[global] Instance DeviceTestResult_eq_dec : EqDecision DeviceTestResult. Proof. solve_decision. Defined.
#[global] Instance SignerPurpose_eq_dec : EqDecision SignerPurpose. Proof. solve_decision. Defined.
#[global] Instance SignerState_eq_dec : EqDecision SignerState. Proof. solve_decision. Defined.

(** The derived order of [OutputEvidence]. *)
Definition evidence_rank (e : OutputEvidence) : Z :=
  match e with EvidenceTransport => 0 | EvidenceSpooler => 1 | EvidenceDevice => 2 end.

(** ** Validation *)
Definition validity (start : instant) (stop : option instant) : GatewayResult unit :=
  ensure (match stop with Some e => negb (e <=? start) | None => true end)
    (invalid "authority expiry must follow its effective time").

Definition AuthorityScope_validate (s : AuthorityScope) : GatewayResult unit :=
  ensure (Bool.eqb (bool_decide (sc_kind s = ScopePosConfiguration)) (bool_decide (is_Some (sc_pos_configuration_id s))))
    (invalid "only POS scopes contain a POS configuration").

Definition SignerRecord_validate (s : SignerRecord) : GatewayResult unit :=
  _ ← validity (sg_not_before s) (sg_not_after s);
  ensure (negb (negb (Bool.eqb (bool_decide (sg_state s = SignerActive)) (bool_decide (sg_retired_at s = None)))
                || match sg_retired_at s with Some at_ => at_ <? sg_not_before s | None => false end))
    (invalid "signer state and retirement time disagree").

(** [collect::<BTreeSet<_>>().len() == len()]. *)
Definition distinct (l : list string) : bool := Nat.eqb (length (remove_dups l)) (length l).

Definition DriverProfile_validate (p : DriverProfile) : GatewayResult unit :=
  _ ← validity (pr_effective_at p) (pr_expires_at p);
  ensure (negb (bool_decide (pr_capabilities p = []) || negb (distinct (cp_capability_id <$> pr_capabilities p))))
    (invalid "a Driver Profile needs at least one distinct capability").

(** ** Serialization

    What [#[derive(Serialize)]] produces: an object with a member per field, enumerations in snake case. *)
Definition ScopeKind_str (k : ScopeKind) : string :=
  match k with ScopeSite => "site" | ScopePosConfiguration => "pos_configuration" end.
Definition OutputEvidence_str (e : OutputEvidence) : string :=
  match e with EvidenceTransport => "transport" | EvidenceSpooler => "spooler" | EvidenceDevice => "device" end.
Definition DeviceTestResult_str (r : DeviceTestResult) : string :=
  match r with Passed => "passed" | FailedEnvironment => "failed_environment" | FailedContract => "failed_contract" end.
Definition SignerPurpose_str (p : SignerPurpose) : string :=
  match p with
  | ForAuthorityRevision => "authority_revision" | ForDriverProfile => "driver_profile"
  | ForCertificationMatrix => "certification_matrix" | ForBindingRevision => "binding_revision"
  | ForDeviceTestEvidence => "device_test_evidence" | ForDeviceObservation => "device_observation"
  end.
Definition SignerState_str (s : SignerState) : string :=
  match s with SignerActive => "active" | SignerRetired => "retired" end.

Definition AuthorityScope_value (s : AuthorityScope) : Value :=
  object [("database", VString (sc_database s)); ("organization_id", VString (sc_organization_id s));
    ("site_id", VString (sc_site_id s)); ("kind", VString (ScopeKind_str (sc_kind s)));
    ("pos_configuration_id", to_option VString (sc_pos_configuration_id s))].
Definition DeviceCapability_value (c : DeviceCapability) : Value :=
  object [("capability_id", VString (cp_capability_id c)); ("operation", VString (cp_operation c));
    ("media_type", VString (cp_media_type c)); ("contract_major", VNumber (cp_contract_major c));
    ("output_evidence", VString (OutputEvidence_str (cp_output_evidence c)));
    ("max_payload_bytes", VNumber (cp_max_payload_bytes c)); ("max_copies", VNumber (cp_max_copies c));
    ("options_digest", VString (cp_options_digest c))].

Section Serialize.
Context `{Encoding, Rfc3339}.
Notation time := AuthorityTime_serialize.

Definition SignerRecord_value (s : SignerRecord) : Value :=
  object [("key_id", VString (sg_key_id s)); ("purpose", VString (SignerPurpose_str (sg_purpose s)));
    ("public_key", HexBytes_serialize (sg_public_key s)); ("state", VString (SignerState_str (sg_state s)));
    ("not_before", time (sg_not_before s)); ("not_after", to_option time (sg_not_after s));
    ("retired_at", to_option time (sg_retired_at s))].
Definition AuthorityRevision_value (r : AuthorityRevision) : Value :=
  object [("revision_id", VString (rv_revision_id r)); ("revision_number", VNumber (rv_revision_number r));
    ("manifest_digest", VString (rv_manifest_digest r)); ("effective_at", time (rv_effective_at r));
    ("expires_at", to_option time (rv_expires_at r))].
Definition DriverProfile_value (p : DriverProfile) : Value :=
  object [("profile_id", VString (pr_profile_id p)); ("version", VString (pr_version p));
    ("driver_id", VString (pr_driver_id p)); ("min_agent_version", VString (pr_min_agent_version p));
    ("capabilities", VArray (DeviceCapability_value <$> pr_capabilities p));
    ("effective_at", time (pr_effective_at p)); ("expires_at", to_option time (pr_expires_at p))].
Definition HardwareCertificationMatrixRow_value (r : HardwareCertificationMatrixRow) : Value :=
  object [("row_id", VString (ro_row_id r)); ("version", VNumber (ro_version r));
    ("device_id", VString (ro_device_id r)); ("device_identity_digest", VString (ro_device_identity_digest r));
    ("manufacturer", VString (ro_manufacturer r)); ("model", VString (ro_model r));
    ("firmware_version", VString (ro_firmware_version r)); ("firmware_build", VString (ro_firmware_build r));
    ("driver_id", VString (ro_driver_id r)); ("driver_profile_digest", VString (ro_driver_profile_digest r));
    ("capability_id", VString (ro_capability_id r)); ("platform_backend_id", VString (ro_platform_backend_id r));
    ("connection", VString (ro_connection r)); ("media_profile", VString (ro_media_profile r));
    ("operating_system", VString (ro_operating_system r)); ("release_set_id", VString (ro_release_set_id r));
    ("effective_at", time (ro_effective_at r)); ("expires_at", to_option time (ro_expires_at r))].
Definition BindingRevision_value (b : BindingRevision) : Value :=
  object [("binding_id", VString (bi_binding_id b)); ("revision_id", VString (bi_revision_id b));
    ("revision_number", VNumber (bi_revision_number b)); ("scope", AuthorityScope_value (bi_scope b));
    ("purpose", VString (bi_purpose b)); ("device_id", VString (bi_device_id b));
    ("device_identity_digest", VString (bi_device_identity_digest b));
    ("capability_id", VString (bi_capability_id b));
    ("driver_profile_digest", VString (bi_driver_profile_digest b));
    ("matrix_row_id", VString (bi_matrix_row_id b)); ("options_digest", VString (bi_options_digest b))].
Definition DeviceTestEvidence_value (e : DeviceTestEvidence) : Value :=
  object [("evidence_id", VString (te_evidence_id e)); ("revision_id", VString (te_revision_id e));
    ("device_id", VString (te_device_id e)); ("device_identity_digest", VString (te_device_identity_digest e));
    ("capability_id", VString (te_capability_id e));
    ("driver_profile_digest", VString (te_driver_profile_digest e));
    ("matrix_row_id", VString (te_matrix_row_id e));
    ("output_evidence", VString (OutputEvidence_str (te_output_evidence e)));
    ("result", VString (DeviceTestResult_str (te_result e)));
    ("test_pattern_digest", VString (te_test_pattern_digest e)); ("tested_at", time (te_tested_at e));
    ("valid_until", to_option time (te_valid_until e))].
Definition DeviceObservation_value (o : DeviceObservation) : Value :=
  object [("observation_id", VString (do_observation_id o)); ("device_id", VString (do_device_id o));
    ("device_identity_digest", VString (do_device_identity_digest o)); ("driver_id", VString (do_driver_id o));
    ("driver_profile_digest", VString (do_driver_profile_digest o));
    ("platform_backend_id", VString (do_platform_backend_id o)); ("connection", VString (do_connection o));
    ("media_profile", VString (do_media_profile o)); ("firmware_version", VString (do_firmware_version o));
    ("firmware_build", VString (do_firmware_build o)); ("operating_system", VString (do_operating_system o));
    ("ready", VBool (do_ready o)); ("state", VString (do_state o)); ("reason", to_option VString (do_reason o));
    ("observed_at", time (do_observed_at o))].

(** ** Signed records

    The trait [RecordPayload]; [FIELD] is the member of the signed record that holds the payload. *)
Class RecordPayload (T : Type) := {
  PURPOSE : SignerPurpose;
  FIELD : string;
  payload_validate : T -> GatewayResult unit;
  payload_value : T -> Value;
  payload_times : T -> list (string * option instant);
}.

(** Signed times always carry microseconds. *)
Definition timestamp (value : option instant) : Value := to_option AuthorityTime_signing_value value.
Definition replace_times (record : Value) (timestamps : list (string * option instant)) : GatewayResult Value :=
  match record with
  | VObject fields => Ok (VObject (foldl (fun o t => object_insert (fst t) (timestamp (snd t)) o) fields timestamps))
  | _ => Err (InvalidInput "an authority record must be an object")
  end.
Definition signing_value `{RecordPayload T} (r : T) : GatewayResult Value :=
  replace_times (payload_value r) (payload_times r).

#[global] Instance AuthorityRevision_payload : RecordPayload AuthorityRevision := {|
  PURPOSE := ForAuthorityRevision; FIELD := "revision";
  payload_validate r := validity (rv_effective_at r) (rv_expires_at r);
  payload_value := AuthorityRevision_value;
  payload_times r := [("effective_at", Some (rv_effective_at r)); ("expires_at", rv_expires_at r)] |}.
#[global] Instance DriverProfile_payload : RecordPayload DriverProfile := {|
  PURPOSE := ForDriverProfile; FIELD := "profile";
  payload_validate := DriverProfile_validate;
  payload_value := DriverProfile_value;
  payload_times r := [("effective_at", Some (pr_effective_at r)); ("expires_at", pr_expires_at r)] |}.
#[global] Instance HardwareCertificationMatrixRow_payload : RecordPayload HardwareCertificationMatrixRow := {|
  PURPOSE := ForCertificationMatrix; FIELD := "row";
  payload_validate r := validity (ro_effective_at r) (ro_expires_at r);
  payload_value := HardwareCertificationMatrixRow_value;
  payload_times r := [("effective_at", Some (ro_effective_at r)); ("expires_at", ro_expires_at r)] |}.
#[global] Instance BindingRevision_payload : RecordPayload BindingRevision := {|
  PURPOSE := ForBindingRevision; FIELD := "revision";
  payload_validate r := AuthorityScope_validate (bi_scope r);
  payload_value := BindingRevision_value;
  payload_times r := [] |}.
#[global] Instance DeviceTestEvidence_payload : RecordPayload DeviceTestEvidence := {|
  PURPOSE := ForDeviceTestEvidence; FIELD := "evidence";
  payload_validate r := validity (te_tested_at r) (te_valid_until r);
  payload_value := DeviceTestEvidence_value;
  payload_times r := [("tested_at", Some (te_tested_at r)); ("valid_until", te_valid_until r)] |}.
#[global] Instance DeviceObservation_payload : RecordPayload DeviceObservation := {|
  PURPOSE := ForDeviceObservation; FIELD := "observation";
  payload_validate r := Ok tt;
  payload_value := DeviceObservation_value;
  payload_times r := [("observed_at", Some (do_observed_at r))] |}.
End Serialize.

Record CanonicalRecord (T : Type) := mkCanonical { cr_record : T; cr_digest : string; cr_bytes : string }.
Arguments mkCanonical {_} _ _ _.
Arguments cr_record {_} _.
Arguments cr_digest {_} _.
Arguments cr_bytes {_} _.
(** [signed_record!]: one type per payload. *)
Record Signed (T : Type) := mkSigned {
  sr_payload : T;
  sr_digest : string;
  sr_signer_key_id : string;
  sr_signature : string;
}.
Arguments mkSigned {_} _ _ _ _.
Arguments sr_payload {_} _.
Arguments sr_digest {_} _.
Arguments sr_signer_key_id {_} _.
Arguments sr_signature {_} _.
Notation SignedAuthorityRevision := (Signed AuthorityRevision).
Notation SignedDriverProfile := (Signed DriverProfile).
Notation SignedHardwareCertificationMatrixRow := (Signed HardwareCertificationMatrixRow).
Notation SignedBindingRevision := (Signed BindingRevision).
Notation SignedDeviceTestEvidence := (Signed DeviceTestEvidence).
Notation SignedDeviceObservation := (Signed DeviceObservation).

(** ** Manifests and bundles *)
Inductive AuthorityContract : Set := ContractV1.
Record BindingActivation := mkActivation { ac_revision_id : string; ac_evidence_id : string }.
Record AuthorityManifest := mkManifest {
  mf_contract : AuthorityContract;
  mf_agent_id : string;
  mf_scope : AuthorityScope;
  mf_signers : list SignerRecord;
  mf_profiles : list SignedDriverProfile;
  mf_certification_rows : list SignedHardwareCertificationMatrixRow;
  mf_bindings : list SignedBindingRevision;
  mf_evidence : list SignedDeviceTestEvidence;
  mf_activations : list BindingActivation;
}.
Record AuthorityBundle := mkBundle { bd_revision : SignedAuthorityRevision; bd_manifest : AuthorityManifest }.

(** A [for] loop whose body may fail. *)
Fixpoint try_for_each {A} (f : A -> GatewayResult unit) (l : list A) : GatewayResult unit :=
  match l with [] => Ok tt | a :: rest => _ ← f a; try_for_each f rest end.

Definition AuthorityManifest_validate (m : AuthorityManifest) : GatewayResult unit :=
  _ ← AuthorityScope_validate (mf_scope m);
  _ ← try_for_each SignerRecord_validate (mf_signers m);
  _ ← try_for_each (fun l => ensure (negb (snd l <? Z.of_nat (fst l)))
                               (invalid "the authority manifest exceeds its record limit"))
        [(length (mf_signers m), 128); (length (mf_profiles m), 256); (length (mf_certification_rows m), 1024);
         (length (mf_bindings m), 1024); (length (mf_evidence m), 1024); (length (mf_activations m), 1024)];
  _ ← ensure (negb (negb (distinct (sg_key_id <$> mf_signers m))
                || negb (distinct (sr_digest <$> mf_profiles m))
                || negb (distinct ((fun i => ro_row_id (sr_payload i)) <$> mf_certification_rows m))
                || negb (distinct ((fun i => bi_revision_id (sr_payload i)) <$> mf_bindings m))
                || negb (distinct ((fun i => te_evidence_id (sr_payload i)) <$> mf_evidence m))))
        (invalid "the authority manifest repeats a record");
  ensure (negb (existsb (fun i => negb (bool_decide (bi_scope (sr_payload i) = mf_scope m))) (mf_bindings m)))
    (invalid "a Binding Revision belongs to another scope").

Section Verify.
Context `{Encoding, Ed25519, Sha256, Rfc3339, Canonicalizer}.

Definition CanonicalRecord_new `{RecordPayload T} (record : T) : GatewayResult (CanonicalRecord T) :=
  _ ← payload_validate record;
  value ← signing_value record;
  bytes ← ok_or (canonical_to_vec value) Serialization;
  Ok (mkCanonical record (AuthorityDigest_of bytes) bytes).

Definition from_signature {T} (canonical : CanonicalRecord T) (signer_key_id signature : string) : Signed T :=
  mkSigned (cr_record canonical) (cr_digest canonical) signer_key_id signature.

Definition Signed_verify `{RecordPayload T} (s : Signed T) (signer : SignerRecord) (now : instant) : GatewayResult unit :=
  _ ← SignerRecord_validate signer;
  _ ← ensure (negb (negb (String.eqb (sg_key_id signer) (sr_signer_key_id s))
                || negb (bool_decide (sg_purpose signer = PURPOSE (T := T)))))
        (invalid "the authority signer key or purpose differs");
  _ ← ensure (negb (negb (bool_decide (sg_state signer = SignerActive)) || (now <? sg_not_before signer)
                || match sg_not_after signer with Some stop => stop <=? now | None => false end))
        (invalid "the authority signer is not current");
  canonical ← CanonicalRecord_new (sr_payload s);
  _ ← ensure (String.eqb (cr_digest canonical) (sr_digest s)) (invalid "the authority digest differs from its record");
  _ ← ensure (ed25519_from_bytes_is_ok (sg_public_key signer)) (invalid "the authority public key is invalid");
  ensure (verify_strict (sg_public_key signer) (cr_bytes canonical) (sr_signature s))
    (invalid "the authority signature is invalid").

Definition Signed_value `{RecordPayload T} (s : Signed T) : Value :=
  object [(FIELD (T := T), payload_value (sr_payload s)); ("digest", VString (sr_digest s));
    ("signer_key_id", VString (sr_signer_key_id s)); ("signature", HexBytes_serialize (sr_signature s))].
Definition BindingActivation_value (a : BindingActivation) : Value :=
  object [("revision_id", VString (ac_revision_id a)); ("evidence_id", VString (ac_evidence_id a))].
Definition AuthorityManifest_value (m : AuthorityManifest) : Value :=
  object [("contract", VString "inari.device-authority.v1"); ("agent_id", VString (mf_agent_id m));
    ("scope", AuthorityScope_value (mf_scope m)); ("signers", VArray (SignerRecord_value <$> mf_signers m));
    ("profiles", VArray (Signed_value <$> mf_profiles m));
    ("certification_rows", VArray (Signed_value <$> mf_certification_rows m));
    ("bindings", VArray (Signed_value <$> mf_bindings m)); ("evidence", VArray (Signed_value <$> mf_evidence m));
    ("activations", VArray (BindingActivation_value <$> mf_activations m))].

Definition AuthorityManifest_digest (m : AuthorityManifest) : GatewayResult string :=
  _ ← AuthorityManifest_validate m;
  bytes ← ok_or (canonical_to_vec (AuthorityManifest_value m)) Serialization;
  Ok (AuthorityDigest_of bytes).

Definition current (now start : instant) (stop : option instant) : bool :=
  negb ((now <? start) || match stop with Some e => e <=? now | None => false end).

(** What one activation requires of the records of the manifest; the result is the binding's purpose. *)
Definition verify_activation (m : AuthorityManifest) (now : instant) (purposes : list string) (a : BindingActivation)
    : GatewayResult string :=
  binding ← ok_or (sr_payload <$> List.find (fun i => String.eqb (bi_revision_id (sr_payload i)) (ac_revision_id a))
                                   (mf_bindings m)) (invalid "an activation Binding Revision is absent");
  evidence ← ok_or (sr_payload <$> List.find (fun i => String.eqb (te_evidence_id (sr_payload i)) (ac_evidence_id a))
                                    (mf_evidence m)) (invalid "activation evidence is absent");
  profile ← ok_or (sr_payload <$> List.find (fun i => String.eqb (sr_digest i) (bi_driver_profile_digest binding))
                                   (mf_profiles m)) (invalid "the active Driver Profile is absent");
  row ← ok_or (sr_payload <$> List.find (fun i => String.eqb (ro_row_id (sr_payload i)) (bi_matrix_row_id binding))
                               (mf_certification_rows m)) (invalid "the active certification row is absent");
  capability ← ok_or (List.find (fun c => String.eqb (cp_capability_id c) (bi_capability_id binding))
                        (pr_capabilities profile)) (invalid "the active Device Capability is absent");
  _ ← ensure (negb (bool_decide (bi_purpose binding ∈ purposes)
                || negb (String.eqb (cp_options_digest capability) (bi_options_digest binding))
                || negb (String.eqb (ro_driver_id row) (pr_driver_id profile))
                || negb (String.eqb (te_revision_id evidence) (bi_revision_id binding))
                || negb (bool_decide (te_result evidence = Passed))
                || negb (String.eqb (bi_device_id binding) (ro_device_id row))
                || negb (String.eqb (bi_device_id binding) (te_device_id evidence))
                || negb (String.eqb (bi_device_identity_digest binding) (ro_device_identity_digest row))
                || negb (String.eqb (bi_device_identity_digest binding) (te_device_identity_digest evidence))
                || negb (String.eqb (bi_capability_id binding) (ro_capability_id row))
                || negb (String.eqb (bi_capability_id binding) (te_capability_id evidence))
                || negb (String.eqb (bi_driver_profile_digest binding) (ro_driver_profile_digest row))
                || negb (String.eqb (bi_driver_profile_digest binding) (te_driver_profile_digest evidence))
                || negb (String.eqb (te_matrix_row_id evidence) (ro_row_id row))
                || (evidence_rank (te_output_evidence evidence) <? evidence_rank (cp_output_evidence capability))))
        (invalid "the active Binding Revision graph differs");
  _ ← try_for_each (fun p => ensure (current now (fst p) (snd p)) (invalid "an active authority record is not current"))
        [(pr_effective_at profile, pr_expires_at profile); (ro_effective_at row, ro_expires_at row);
         (te_tested_at evidence, te_valid_until evidence)];
  Ok (bi_purpose binding).

Fixpoint verify_activations (m : AuthorityManifest) (now : instant) (purposes : list string)
    (activations : list BindingActivation) : GatewayResult unit :=
  match activations with
  | [] => Ok tt
  | a :: rest => p ← verify_activation m now purposes a; verify_activations m now (p :: purposes) rest
  end.

(** [signers.iter().map(..).collect::<BTreeMap<_, _>>()]: the last entry of a key wins. *)
Definition signer_map (signers : list SignerRecord) : gmap string SignerRecord :=
  foldl (fun m s => <[sg_key_id s := s]> m) ∅ signers.
Definition verify_by `{RecordPayload T} (signers : gmap string SignerRecord) (now : instant) (item : Signed T)
    : GatewayResult unit :=
  signer ← ok_or (signers !! sr_signer_key_id item) (invalid "the authority record signing key is absent");
  Signed_verify item signer now.

Definition AuthorityBundle_verify (b : AuthorityBundle) (trusted_signer : SignerRecord) (agent_id : string)
    (scope : AuthorityScope) (now : instant) : GatewayResult unit :=
  let m := bd_manifest b in
  _ ← ensure (negb (negb (String.eqb (mf_agent_id m) agent_id) || negb (bool_decide (mf_scope m = scope))))
        (invalid "the authority bundle targets another Agent or scope");
  _ ← Signed_verify (bd_revision b) trusted_signer now;
  let revision := sr_payload (bd_revision b) in
  _ ← ensure (negb ((now <? rv_effective_at revision)
                || match rv_expires_at revision with Some e => e <=? now | None => true end))
        (invalid "an authority bundle needs a current, bounded lifetime");
  digest ← AuthorityManifest_digest m;
  _ ← ensure (String.eqb digest (rv_manifest_digest revision)) (invalid "the authority manifest digest differs");
  let signers := signer_map (mf_signers m) in
  _ ← ensure (negb (existsb (fun s => String.eqb (sg_key_id s) (sg_key_id trusted_signer)
                                      || bool_decide (sg_purpose s = ForAuthorityRevision)) (mf_signers m)))
        (invalid "the manifest cannot replace the authority trust key");
  _ ← try_for_each (verify_by signers now) (mf_profiles m);
  _ ← try_for_each (verify_by signers now) (mf_certification_rows m);
  _ ← try_for_each (verify_by signers now) (mf_bindings m);
  _ ← try_for_each (verify_by signers now) (mf_evidence m);
  verify_activations m now [] (mf_activations m).
End Verify.

(** ** What verification establishes *)
Section Authorized.
Context `{Encoding, Ed25519, Sha256, Rfc3339, Canonicalizer}.

(** A record signed by a signer that is current and entitled to this kind of record. *)
Definition authentic `{RecordPayload T} (s : Signed T) (signer : SignerRecord) (now : instant) : Prop :=
  sg_key_id signer = sr_signer_key_id s /\ sg_purpose signer = PURPOSE (T := T) /\
  sg_state signer = SignerActive /\ sg_retired_at signer = None /\
  sg_not_before signer <= now /\ (forall stop, sg_not_after signer = Some stop -> now < stop) /\
  payload_validate (sr_payload s) = Ok tt /\
  exists value bytes, signing_value (sr_payload s) = Ok value /\ canonical_to_vec value = Some bytes /\
    sr_digest s = AuthorityDigest_of bytes /\ verify_strict (sg_public_key signer) bytes (sr_signature s) = true.
(** A record signed by one of the manifest's own signers. *)
Definition signed_in `{RecordPayload T} (m : AuthorityManifest) (now : instant) (s : Signed T) : Prop :=
  exists signer, signer ∈ mf_signers m /\ authentic s signer now.
Definition within_lifetime (now start : instant) (stop : option instant) : Prop :=
  start <= now /\ forall e, stop = Some e -> now < e.

(** An activation rests on a binding, a certification row, a driver profile with the capability, and a passed device
    test, all signed, all about the same device, capability and profile, and all current. *)
Definition activated (m : AuthorityManifest) (now : instant) (a : BindingActivation) : Prop :=
  exists sb se sp sr c,
    let b := sr_payload sb in let e := sr_payload se in let p := sr_payload sp in let r := sr_payload sr in
    (sb ∈ mf_bindings m /\ se ∈ mf_evidence m /\ sp ∈ mf_profiles m /\ sr ∈ mf_certification_rows m /\
     c ∈ pr_capabilities p) /\
    (signed_in m now sb /\ signed_in m now se /\ signed_in m now sp /\ signed_in m now sr) /\
    (bi_revision_id b = ac_revision_id a /\ te_evidence_id e = ac_evidence_id a /\ te_revision_id e = bi_revision_id b /\
     bi_scope b = mf_scope m) /\
    (sr_digest sp = bi_driver_profile_digest b /\ ro_driver_profile_digest r = bi_driver_profile_digest b /\
     te_driver_profile_digest e = bi_driver_profile_digest b /\ ro_driver_id r = pr_driver_id p) /\
    (ro_row_id r = bi_matrix_row_id b /\ te_matrix_row_id e = bi_matrix_row_id b) /\
    (ro_device_id r = bi_device_id b /\ te_device_id e = bi_device_id b /\
     ro_device_identity_digest r = bi_device_identity_digest b /\
     te_device_identity_digest e = bi_device_identity_digest b) /\
    (cp_capability_id c = bi_capability_id b /\ ro_capability_id r = bi_capability_id b /\
     te_capability_id e = bi_capability_id b /\ cp_options_digest c = bi_options_digest b) /\
    (te_result e = Passed /\ evidence_rank (cp_output_evidence c) <= evidence_rank (te_output_evidence e)) /\
    (within_lifetime now (pr_effective_at p) (pr_expires_at p) /\
     within_lifetime now (ro_effective_at r) (ro_expires_at r) /\
     within_lifetime now (te_tested_at e) (te_valid_until e)).

Lemma try_for_each_Ok {A} (f : A -> GatewayResult unit) l :
  try_for_each f l = Ok tt <-> forall a, a ∈ l -> f a = Ok tt.
Proof.
  induction l as [|a l IH]; simpl; [split; [set_solver|done]|]. rewrite bind_Ok. split.
  - intros ([] & Ha & Hl) x [->|Hx]%elem_of_cons; [done|]. by apply IH.
  - intros Hl. exists tt. split; [apply Hl; set_solver|]. apply IH. set_solver.
Qed.

Lemma Signed_verify_Ok `{RecordPayload T} (s : Signed T) signer now :
  Signed_verify s signer now = Ok tt -> authentic s signer now.
Proof.
  unfold Signed_verify, SignerRecord_validate, validity, CanonicalRecord_new. intros Hv. res_inv Hv. bools. subst.
  simpl in *. strings. unfold authentic. split_and!; try done.
  - destruct (sg_retired_at signer); [|done]. rewrite bool_decide_eq_true_2 in * by done. done.
  - intros stop Hs. rewrite Hs in *. bools. lia.
  - by destruct a1.
  - eauto 7.
Qed.

Lemma signer_map_lookup l k s : signer_map l !! k = Some s -> s ∈ l /\ sg_key_id s = k.
Proof.
  unfold signer_map. induction l as [|x l IH] using rev_ind; [done|]. rewrite foldl_snoc. simpl.
  rewrite lookup_insert_Some. intros [[<- ->]|[_ Hs]]; [set_solver|]. destruct (IH Hs). set_solver.
Qed.
Lemma verify_by_Ok `{RecordPayload T} m now (l : list (Signed T)) :
  try_for_each (verify_by (signer_map (mf_signers m)) now) l = Ok tt -> forall s, s ∈ l -> signed_in m now s.
Proof.
  rewrite try_for_each_Ok. intros Hl s Hs. specialize (Hl s Hs). unfold verify_by in Hl.
  apply ok_or_bind_Ok in Hl as (signer & [Hin _]%signer_map_lookup & Hv). exists signer.
  split; [done|]. by apply Signed_verify_Ok.
Qed.

Lemma find_payload {T B} (f : Signed T -> bool) (g : Signed T -> B) l (b : B) : g <$> List.find f l = Some b ->
  exists s, s ∈ l /\ f s = true /\ g s = b.
Proof.
  intros (s & Hf & ->)%fmap_Some. apply List.find_some in Hf as [Hin Hf]. exists s.
  by rewrite list_elem_of_In.
Qed.
Lemma current_spec now start stop : current now start stop = true <-> within_lifetime now start stop.
Proof.
  unfold current, within_lifetime. rewrite negb_true_iff, orb_false_iff, Z.ltb_ge. f_equiv.
  destruct stop as [e|]; [rewrite Z.leb_gt; naive_solver|naive_solver].
Qed.

Lemma verify_activation_Ok m now seen a q : verify_activation m now seen a = Ok q ->
  (forall s, s ∈ mf_bindings m -> signed_in m now s /\ bi_scope (sr_payload s) = mf_scope m) ->
  (forall s, s ∈ mf_evidence m -> signed_in m now s) -> (forall s, s ∈ mf_profiles m -> signed_in m now s) ->
  (forall s, s ∈ mf_certification_rows m -> signed_in m now s) ->
  activated m now a /\ q ∉ seen /\
  exists s, s ∈ mf_bindings m /\ bi_revision_id (sr_payload s) = ac_revision_id a /\ bi_purpose (sr_payload s) = q.
Proof.
  unfold verify_activation. intros Hv Hb He Hp Hr. res_inv Hv.
  match goal with Hl : try_for_each _ _ = Ok _ |- _ => rename Hl into Hlife end.
  destruct a5. rewrite try_for_each_Ok in Hlife.
  repeat match goal with Hf : _ <$> List.find _ _ = Some _ |- _ => apply find_payload in Hf as (? & ? & ? & <-) end.
  match goal with Hf : List.find _ _ = Some _ |- _ => apply List.find_some in Hf as [?%list_elem_of_In ?] end.
  bools. strings.
  pose proof (fun p Hin => proj1 (current_spec now p.1 p.2) (proj1 (ensure_Ok _ _ _) (Hlife p Hin))) as Hcur.
  split; [|split; [done|eauto]].
  exists x2, x1, x0, x, a4. cbv zeta. split_and!; try done; try congruence; try (by apply Hb); try (by auto).
  - apply (Hcur (pr_effective_at (sr_payload x0), pr_expires_at (sr_payload x0))). set_solver.
  - apply (Hcur (ro_effective_at (sr_payload x), ro_expires_at (sr_payload x))). set_solver.
  - apply (Hcur (te_tested_at (sr_payload x1), te_valid_until (sr_payload x1))). set_solver.
Qed.

Lemma verify_activations_Ok m now acts seen : verify_activations m now seen acts = Ok tt ->
  (forall s, s ∈ mf_bindings m -> signed_in m now s /\ bi_scope (sr_payload s) = mf_scope m) ->
  (forall s, s ∈ mf_evidence m -> signed_in m now s) -> (forall s, s ∈ mf_profiles m -> signed_in m now s) ->
  (forall s, s ∈ mf_certification_rows m -> signed_in m now s) ->
  (forall a, a ∈ acts -> activated m now a) /\
  exists qs, NoDup qs /\ (forall q, q ∈ qs -> q ∉ seen) /\
    Forall2 (fun a q => exists s, s ∈ mf_bindings m /\ bi_revision_id (sr_payload s) = ac_revision_id a /\
                          bi_purpose (sr_payload s) = q) acts qs.
Proof.
  intros Hv Hb He Hp Hr. revert seen Hv. induction acts as [|a acts IH]; simpl; intros seen Hv.
  - split; [set_solver|]. exists []. repeat constructor. set_solver.
  - apply bind_Ok in Hv as (q & Ha & Hrest). apply verify_activation_Ok in Ha as (Hact & Hq & Hs); try done.
    destruct (IH _ Hrest) as [Hacts (qs & Hnd & Hnew & HF)]. split.
    + intros x [->|Hx]%elem_of_cons; auto.
    + exists (q :: qs). split_and!; [constructor; [|done]; intros Hin; specialize (Hnew q Hin); set_solver|set_solver|].
      by constructor.
Qed.

Lemma AuthorityManifest_digest_Ok m d : AuthorityManifest_digest m = Ok d ->
  (exists bytes, canonical_to_vec (AuthorityManifest_value m) = Some bytes /\ d = AuthorityDigest_of bytes) /\
  (forall s, s ∈ mf_bindings m -> bi_scope (sr_payload s) = mf_scope m).
Proof.
  unfold AuthorityManifest_digest, AuthorityManifest_validate. intros Hd. res_inv Hd. split; [eauto|].
  intros s Hs. match goal with Hx : negb (existsb _ _) = true |- _ => apply negb_true_iff in Hx; rename Hx into Hno end.
  destruct (decide (bi_scope (sr_payload s) = mf_scope m)) as [|Hne]; [done|].
  assert (existsb (fun i => negb (bool_decide (bi_scope (sr_payload i) = mf_scope m))) (mf_bindings m) = true) as Hyes;
    [|congruence].
  apply List.existsb_exists. exists s. rewrite <- list_elem_of_In, bool_decide_eq_false_2; done.
Qed.

(** C9: an authority bundle that verifies is authorized from the root.  It targets exactly the given Agent and scope;
    its revision is signed by the trusted key, current and bounded in time, and commits to the manifest; no signer of the
    manifest is the trusted key or may sign authority revisions; every activation rests on a binding, a certification
    row, a driver profile and a passed device test that are signed by current signers of that purpose, agree on device,
    capability and profile, and are current; and no two activations serve the same purpose. *)
Theorem verified_bundle_is_authorized b trusted agent scope now :
  AuthorityBundle_verify b trusted agent scope now = Ok tt ->
  let m := bd_manifest b in let revision := sr_payload (bd_revision b) in
  mf_agent_id m = agent /\ mf_scope m = scope /\
  authentic (bd_revision b) trusted now /\ rv_effective_at revision <= now /\
  (exists stop, rv_expires_at revision = Some stop /\ now < stop) /\
  (exists bytes, canonical_to_vec (AuthorityManifest_value m) = Some bytes /\
     rv_manifest_digest revision = AuthorityDigest_of bytes) /\
  (forall s, s ∈ mf_signers m -> sg_key_id s <> sg_key_id trusted /\ sg_purpose s <> ForAuthorityRevision) /\
  (forall a, a ∈ mf_activations m -> activated m now a) /\
  exists purposes, NoDup purposes /\
    Forall2 (fun a q => exists s, s ∈ mf_bindings m /\ bi_revision_id (sr_payload s) = ac_revision_id a /\
                          bi_purpose (sr_payload s) = q) (mf_activations m) purposes.
Proof.
  unfold AuthorityBundle_verify. intros Hv. cbv zeta in Hv |- *. res_inv Hv.
  repeat match goal with Hu : unit |- _ => destruct Hu end.
  match goal with Hd : AuthorityManifest_digest _ = Ok _ |- _ => apply AuthorityManifest_digest_Ok in Hd as [Hbytes Hscope] end.
  match goal with Hs : Signed_verify _ _ _ = Ok _ |- _ => apply Signed_verify_Ok in Hs end.
  match goal with Hx : negb (existsb _ _) = true |- _ => apply negb_true_iff in Hx; rename Hx into Hroot end.
  repeat match goal with Hl : try_for_each (verify_by _ _) _ = Ok _ |- _ => pose proof (verify_by_Ok _ _ _ Hl); clear Hl end.
  destruct (verify_activations_Ok _ _ _ _ Hv) as [Hacts (ps & Hnd & _ & HF)]; try done; [by auto|].
  bools. strings. split_and!; try done; [| | |by eauto].
  - destruct (rv_expires_at _) as [stop|]; [bools; eauto with lia|done].
  - destruct Hbytes as (bytes & Hb & ->). eauto.
  - intros s Hs. split; intros E.
    all: assert (existsb (fun s => String.eqb (sg_key_id s) (sg_key_id trusted)
        || bool_decide (sg_purpose s = ForAuthorityRevision)) (mf_signers (bd_manifest b)) = true); [|congruence].
    all: apply List.existsb_exists; exists s; split; [by apply list_elem_of_In|].
    + by rewrite E, String.eqb_refl.
    + by rewrite (bool_decide_eq_true_2 _ E), orb_true_r.
Qed.
End Authorized.

(** ** What a signature covers

    The canonical form and the text of an instant lose nothing on the values that authority records hold. *)
(** The text with microseconds determines an instant of microsecond precision in a four-digit year. *)
Class Rfc3339Spec `{Rfc3339} : Prop := rfc3339_micros_unambiguous : forall s t,
  AuthorityTime_new s = Ok s -> AuthorityTime_new t = Ok t -> rfc3339_micros s = rfc3339_micros t -> s = t.

Inductive AuthorityRecord : Type :=
| RecRevision (r : AuthorityRevision)
| RecProfile (r : DriverProfile)
| RecRow (r : HardwareCertificationMatrixRow)
| RecBinding (r : BindingRevision)
| RecEvidence (r : DeviceTestEvidence)
| RecObservation (r : DeviceObservation).

Section Covers.
Context `{Encoding, Sha256, Rfc3339, Canonicalizer}.

Definition integer_ok (n : Z) : bool := is_ok (PositiveInteger_new n).
Definition time_ok (t : instant) : bool := is_ok (AuthorityTime_new t).
Definition time_opt_ok (t : option instant) : bool := match t with Some t => time_ok t | None => true end.
(** The integers and times of a record come from [PositiveInteger::new] and [AuthorityTime::new]. *)
Definition record_wf (r : AuthorityRecord) : bool :=
  match r with
  | RecRevision r => integer_ok (rv_revision_number r) && time_ok (rv_effective_at r) && time_opt_ok (rv_expires_at r)
  | RecProfile r =>
      List.forallb (fun c => integer_ok (cp_contract_major c) && integer_ok (cp_max_payload_bytes c)
                             && integer_ok (cp_max_copies c)) (pr_capabilities r)
      && time_ok (pr_effective_at r) && time_opt_ok (pr_expires_at r)
  | RecRow r => integer_ok (ro_version r) && time_ok (ro_effective_at r) && time_opt_ok (ro_expires_at r)
  | RecBinding r => integer_ok (bi_revision_number r)
  | RecEvidence r => time_ok (te_tested_at r) && time_opt_ok (te_valid_until r)
  | RecObservation r => time_ok (do_observed_at r)
  end.

Definition signed_value (r : AuthorityRecord) : GatewayResult Value :=
  match r with
  | RecRevision r => signing_value r | RecProfile r => signing_value r | RecRow r => signing_value r
  | RecBinding r => signing_value r | RecEvidence r => signing_value r | RecObservation r => signing_value r
  end.
Definition signed_bytes (r : AuthorityRecord) : GatewayResult string :=
  match r with
  | RecRevision r => cr_bytes <$> CanonicalRecord_new r | RecProfile r => cr_bytes <$> CanonicalRecord_new r
  | RecRow r => cr_bytes <$> CanonicalRecord_new r | RecBinding r => cr_bytes <$> CanonicalRecord_new r
  | RecEvidence r => cr_bytes <$> CanonicalRecord_new r | RecObservation r => cr_bytes <$> CanonicalRecord_new r
  end.

Lemma CanonicalRecord_new_bytes `{RecordPayload T} (r : T) bytes : cr_bytes <$> CanonicalRecord_new r = Ok bytes ->
  exists v, signing_value r = Ok v /\ canonical_to_vec v = Some bytes.
Proof.
  unfold CanonicalRecord_new. destruct (payload_validate r); simpl; [|done].
  destruct (signing_value r) as [v|]; simpl; [|done]. destruct (canonical_to_vec v) eqn:E; simpl; [|done].
  intros [= <-]. eauto.
Qed.
Lemma signed_bytes_value r bytes : signed_bytes r = Ok bytes ->
  exists v, signed_value r = Ok v /\ canonical_to_vec v = Some bytes.
Proof. destruct r; apply CanonicalRecord_new_bytes. Qed.

Lemma integer_ok_exact n : integer_ok n = true -> (Z.abs n <=? 9007199254740991) = true.
Proof. unfold integer_ok, PositiveInteger_new. destruct (_ && _) eqn:E; [|done]. intros _. bools. apply Z.leb_le. lia. Qed.
Lemma time_ok_new t : time_ok t = true -> AuthorityTime_new t = Ok t.
Proof. unfold time_ok, AuthorityTime_new. by destruct (_ || _). Qed.
Lemma timestamp_exact t : exact (timestamp t) = true.
Proof. by destruct t. Qed.

(** The members of a serialized record, in the order of their names. *)
Ltac members Hv :=
  cbv -[timestamp to_option DeviceCapability_value AuthorityScope_value fmap list_fmap OutputEvidence_str DeviceTestResult_str] in Hv.

Lemma capability_exact c :
  integer_ok (cp_contract_major c) && integer_ok (cp_max_payload_bytes c) && integer_ok (cp_max_copies c) = true ->
  exact (DeviceCapability_value c) = true.
Proof.
  intros Hc. bools. destruct c. simpl in *.
  repeat match goal with Hi : integer_ok _ = true |- _ => apply integer_ok_exact in Hi end.
  cbv -[Z.abs Z.leb andb OutputEvidence_str].
  repeat match goal with Hi : (_ <=? _) = true |- _ => rewrite Hi; clear Hi end. done.
Qed.
Lemma scope_exact s : exact (AuthorityScope_value s) = true.
Proof. by destruct s as [? ? ? ? []]. Qed.
Lemma capabilities_exact l :
  List.forallb (fun c => integer_ok (cp_contract_major c) && integer_ok (cp_max_payload_bytes c)
                         && integer_ok (cp_max_copies c)) l = true ->
  List.forallb exact (DeviceCapability_value <$> l) = true.
Proof.
  rewrite !List.forallb_forall. intros Hl v Hv. apply list_elem_of_In, list_elem_of_fmap in Hv as (c & -> & Hc).
  by apply capability_exact, Hl, list_elem_of_In.
Qed.

Lemma signed_value_exact r v : record_wf r = true -> signed_value r = Ok v -> exact v = true.
Proof.
  intros Hwf Hv.
  destruct r as [r|r|r|r|r|r]; destruct r; simpl in Hwf; bools; members Hv; injection Hv as <-;
    cbn [exact]; apply andb_true_iff; (split; [vm_compute; reflexivity|]); cbn [List.forallb snd exact];
    rewrite ?timestamp_exact, ?scope_exact, ?integer_ok_exact by done; try done.
  - by rewrite capabilities_exact.
  - by destruct do_reason0.
Qed.

Context `{!Rfc3339Spec, !CanonicalizerSpec}.

Lemma timestamp_inj s t : time_opt_ok s = true -> time_opt_ok t = true -> timestamp s = timestamp t -> s = t.
Proof.
  destruct s as [s|], t as [t|]; simpl; try done. intros Hs%time_ok_new Ht%time_ok_new [= E].
  f_equal. by apply rfc3339_micros_unambiguous.
Qed.
#[local] Instance to_option_VString_inj : Inj (=) (=) (to_option VString).
Proof. intros [a|] [b|]; simpl; congruence. Qed.
#[local] Instance OutputEvidence_str_inj : Inj (=) (=) OutputEvidence_str.
Proof. by intros [] []. Qed.
#[local] Instance DeviceTestResult_str_inj : Inj (=) (=) DeviceTestResult_str.
Proof. by intros [] []. Qed.
#[local] Instance ScopeKind_str_inj : Inj (=) (=) ScopeKind_str.
Proof. by intros [] []. Qed.
#[local] Instance DeviceCapability_value_inj : Inj (=) (=) DeviceCapability_value.
Proof. intros [] [] E. cbv -[OutputEvidence_str] in E. injection E as ? ? ? ? ? ? ? E; subst. by simplify_eq. Qed.
#[local] Instance AuthorityScope_value_inj : Inj (=) (=) AuthorityScope_value.
Proof.
  intros [? ? ? ? p] [? ? ? ? q] E. cbv -[ScopeKind_str to_option] in E. by simplify_eq.
Qed.

(** Records with the same signed value are the same record. *)
Lemma signed_value_inj r1 r2 : record_wf r1 = true -> record_wf r2 = true ->
  signed_value r1 = signed_value r2 -> r1 = r2.
Proof.
  intros W1 W2 E. destruct r1 as [r|r|r|r|r|r]; destruct r; destruct r2 as [r|r|r|r|r|r]; destruct r;
    members E; try discriminate E; simpl in W1, W2; bools.
  all: revert E; pose proof timestamp_inj as TI; pose proof AuthorityScope_value_inj as SI;
    assert (Inj (=) (=) (fmap (M:=list) DeviceCapability_value)) as CI by apply _; revert TI SI CI;
    generalize timestamp AuthorityScope_value (fmap (M:=list) DeviceCapability_value);
    intros f g h TI SI CI E; injection E; clear E; intros.
  all: repeat match goal with TI : context [time_opt_ok _ = true -> _], E : _ |- _ => apply TI in E; [|done|done] end.
  all: by simplify_eq.
Qed.

(** A signature covers one record only.  Two authority records, of the same kind or of two of the six kinds, that
    are signed over the same bytes are the same record: no field is left out of the signed form, no kind can be taken
    for another, and times and numbers lose nothing in it. *)
Theorem signed_bytes_determine_record r1 r2 bytes :
  record_wf r1 = true -> record_wf r2 = true -> signed_bytes r1 = Ok bytes -> signed_bytes r2 = Ok bytes -> r1 = r2.
Proof.
  intros W1 W2 (v1 & V1 & B1)%signed_bytes_value (v2 & V2 & B2)%signed_bytes_value.
  apply signed_value_inj; [done|done|]. rewrite V1, V2. f_equal.
  eapply canonical_unambiguous; [by apply (signed_value_exact r1)|by apply (signed_value_exact r2)|done|done].
Qed.
End Covers.

(** ** A concrete bundle *)
Import Toy.
(** An injective text of instants. *)
#[local] Instance toy_rfc3339 : Rfc3339 :=
  {| utc_year := fun _ => 2026; rfc3339_secs := pretty; rfc3339_micros := pretty |}.
#[local] Instance toy_rfc3339_spec : Rfc3339Spec.
Proof. intros s t _ _ E. by apply (inj pretty) in E. Qed.
#[local] Instance toy_canonicalizer : Canonicalizer := fun _ => Some "{}".

Definition toy_digest : string := AuthorityDigest_of "{}".
Definition toy_signature : string := thirty_two "s" ++ thirty_two "s".
Definition toy_sign {T} (key_id : string) (record : T) : Signed T := mkSigned record toy_digest key_id toy_signature.
Definition toy_signer (key_id : string) (purpose : SignerPurpose) : SignerRecord :=
  mkSigner key_id purpose (thirty_two "k") SignerActive (seconds 0) None None.
Definition sample_authority_scope : AuthorityScope := mkScope "odoo" "org_acme" "site_main" ScopeSite None.
Definition sample_revision : AuthorityRevision := mkRevision "rev-1" 1 toy_digest (seconds 10) (Some (seconds 310)).
Definition sample_bundle : AuthorityBundle :=
  mkBundle (toy_sign "root" sample_revision)
    (mkManifest ContractV1 "agt_1" sample_authority_scope
       [toy_signer "driver" ForDriverProfile; toy_signer "matrix" ForCertificationMatrix;
        toy_signer "binding" ForBindingRevision; toy_signer "test" ForDeviceTestEvidence]
       [toy_sign "driver" (mkProfile "p1" "1" "zpl" "1.0"
          [mkCapability "labels" "print" "application/zpl" 1 EvidenceSpooler 65536 10 toy_digest] (seconds 10) None)]
       [toy_sign "matrix" (mkRow "row-1" 1 "dev_label" toy_digest "Zebra" "ZD" "1" "1" "zpl" toy_digest "labels" "linux"
          "usb" "roll" "linux" "set-1" (seconds 10) None)]
       [toy_sign "binding" (mkBinding "b1" "bind-1" 1 sample_authority_scope "labels" "dev_label" toy_digest "labels"
          toy_digest "row-1" toy_digest)]
       [toy_sign "test" (mkEvidence "ev-1" "bind-1" "dev_label" toy_digest "labels" toy_digest "row-1" EvidenceDevice
          Passed toy_digest (seconds 20) None)]
       [mkActivation "bind-1" "ev-1"]).

Lemma verified_bundle_is_authorized_witness :
  AuthorityBundle_verify sample_bundle (toy_signer "root" ForAuthorityRevision) "agt_1" sample_authority_scope (seconds 60)
    = Ok tt /\ activated (bd_manifest sample_bundle) (seconds 60) (mkActivation "bind-1" "ev-1").
Proof.
  assert (AuthorityBundle_verify sample_bundle (toy_signer "root" ForAuthorityRevision) "agt_1" sample_authority_scope
    (seconds 60) = Ok tt) as E by (vm_compute; reflexivity).
  split; [exact E|].
  destruct (verified_bundle_is_authorized _ _ _ _ _ E) as (_ & _ & _ & _ & _ & _ & _ & Hact & _).
  apply Hact. left.
Defined.
Lemma sample_revision_bytes (c : Canonicalizer) : (forall v, is_Some (c v)) ->
  exists bytes, @signed_bytes Toy.encoding Toy.hash toy_rfc3339 c (RecRevision sample_revision) = Ok bytes.
Proof.
  intros Hc. unfold signed_bytes, CanonicalRecord_new, canonical_to_vec.
  destruct (signing_value sample_revision) as [v|] eqn:Ev; [|vm_compute in Ev; discriminate].
  destruct (Hc v) as [b Hb]. exists b. simpl. by rewrite Hb.
Qed.
(** The sample revision is determined by its bytes, which are not those of one that expires later. *)
Lemma signed_bytes_determine_record_witness :
  exists bytes, @signed_bytes Toy.encoding Toy.hash toy_rfc3339 injective_canonicalizer (RecRevision sample_revision) = Ok bytes /\
    RecRevision (mkRevision "rev-1" 1 toy_digest (seconds 10) (Some (seconds 310))) = RecRevision sample_revision /\
    @signed_bytes Toy.encoding Toy.hash toy_rfc3339 injective_canonicalizer
      (RecRevision (mkRevision "rev-1" 1 toy_digest (seconds 10) (Some (seconds 311)))) <> Ok bytes.
Proof.
  destruct (sample_revision_bytes injective_canonicalizer (fun v => ex_intro _ _ eq_refl)) as [bytes Hb].
  exists bytes. split; [exact Hb|].
  pose proof (fun r W E => @signed_bytes_determine_record Toy.encoding Toy.hash toy_rfc3339 injective_canonicalizer
    toy_rfc3339_spec injective_canonicalizer_spec r (RecRevision sample_revision) bytes W eq_refl E Hb) as Hcovers.
  split; [exact (Hcovers (RecRevision sample_revision) eq_refl Hb)|].
  intros E. assert (RecRevision (mkRevision "rev-1" 1 toy_digest (seconds 10) (Some (seconds 311))) = RecRevision sample_revision) as Hr
    by (apply Hcovers; [vm_compute; reflexivity|exact E]). discriminate Hr.
Defined.
