(* ===== verification/Observations.v ===== *)
(** * Reconciliation of signed Agent State

    [crates/inari-gateway/src/persistence/state_observations.rs].  A runtime event about a print job
    carries one signed observation; recording it moves the Managed Work to [Accepted], keeps the newest
    version of the job, and stores every observation as evidence. *)
From S2P Require Import Prelude Errors Identifiers InvitationCode Protocol Schema Security.

Definition conflict (detail : string) : GatewayError := Conflict detail.

Section Reconcile.
Context `{Encoding, Ed25519, Sha256, EnvelopeCodec}.

Definition validate_work_identity (work : ManagedWorkRow) (ob : AgentStateObservation) : GatewayResult unit :=
  let job := ob_job ob in
  let origin := pj_origin job in
  ensure (negb (negb (String.eqb (mw_agent_id work) (ob_agent_id ob))
            || negb (String.eqb (mw_organization_id work) (or_organization_id origin))
            || negb (String.eqb (mw_site_id work) (or_site_id origin))
            || negb (String.eqb (mw_database_name work) (or_database origin))
            || negb (String.eqb (mw_company_id work) (or_company_id origin))
            || negb (String.eqb (mw_device_id work) (pj_device_id job))
            || negb (String.eqb (mw_print_intent_id work) (pj_print_intent_id job))
            || negb (String.eqb (bc_report_binding_id (mw_binding_claim work)) (or_report_binding_id origin))
            || negb (String.eqb (bc_report_action_id (mw_binding_claim work)) (or_report_action origin))
            || negb (String.eqb (ob_payload_fingerprint ob) ("sha256:" ++ hex_encode (mw_payload_fingerprint work)))
            || match mw_print_job_id work with Some id => negb (String.eqb id (pj_print_job_id job)) | None => false end
            || negb (pj_expires_at job =? utc_time (mw_expires_at work))
            || (utc_time (mw_expires_at work) <? pj_accepted_at job)))
    (conflict "Agent State does not match its Managed Work identity or deadline").

(** Whether the incoming observation replaces the recorded one. *)
Definition reconcile_version (current incoming : AgentStateObservation) : GatewayResult bool :=
  let old := ob_job current in
  let new := ob_job incoming in
  _ ← ensure (negb (negb (String.eqb (pj_print_job_id old) (pj_print_job_id new))
                || negb (pj_accepted_at old =? pj_accepted_at new)
                || negb (pj_expires_at old =? pj_expires_at new)
                || negb (bool_decide (pj_origin old = pj_origin new))))
        (conflict "Agent State changed immutable Print Job metadata");
  if pj_state_version new <? pj_state_version old then Ok false
  else if pj_state_version new =? pj_state_version old then
    _ ← ensure (bool_decide (old = new)) (conflict "Agent State changed a recorded Print Job state version");
    Ok (ob_observed_at current <? ob_observed_at incoming)
  else
    _ ← ensure (negb (is_terminal (pj_state old)
                  || bool_decide (pj_state new = PjAccepted)
                  || (bool_decide (is_Some (pj_started_at old))
                      && negb (bool_decide (pj_started_at old = pj_started_at new)))
                  || (ob_durable_state_sequence incoming <=? ob_durable_state_sequence current)))
          (conflict "Agent State conflicts with the recorded Print Job lifecycle");
    Ok true.

(** A retired key may repeat evidence it already gave, and nothing else. *)
Definition recorded_before (agent_id compact : string) (ob : AgentStateObservation) (retired_at : instant)
    (stored : option ObservationRow) : bool :=
  (ob_observed_at ob <? utc_time retired_at)
  && match stored with
     | Some s => String.eqb (os_agent_id s) agent_id
                 && String.eqb (so_state_envelope (os_observation s)) compact
                 && bool_decide (so_observation (os_observation s) = ob)
     | None => false
     end.

Definition publication_matches (agent_id message_id : string) (occurred_at : instant) (event : RuntimeEvent)
    (job_id : option string) (ob : AgentStateObservation) : bool :=
  let job := ob_job ob in
  negb (negb (String.eqb (ob_agent_id ob) agent_id)
        || negb (String.eqb (ob_envelope_id ob) message_id)
        || negb (bool_decide (job_id = Some (pj_print_job_id job)))
        || negb (String.eqb (ev_resource_id event) (pj_print_job_id job))
        || negb (String.eqb (ev_event_type event) ("print_job." ++ print_job_state_str (pj_state job)))
        || negb (ev_sequence event =? ob_durable_state_sequence ob)
        || negb (occurred_at =? ob_observed_at ob)
        || negb (ev_occurred_at event =? latest_at job)).

Definition reconcilable (s : ManagedWorkStateValue) : bool :=
  match s with MwDispatching | MwRecoveryUncertain | MwAccepted => true | _ => false end.

(** [UPDATE managed_work] of an observation that replaces the current one. *)
Definition accept_work (signed : SignedAgentStateObservation) (now : instant) (w : ManagedWorkRow) : ManagedWorkRow :=
  w <| mw_state := MwAccepted |>
    <| mw_print_job_id := Some (pj_print_job_id (ob_job (so_observation signed))) |>
    <| mw_print_job_observation := Some signed |>
    <| mw_error_code := None |>
    <| mw_message_key := "managed_work.accepted" |>
    <| mw_payload_deleted_at := match mw_payload_deleted_at w with
                                | Some t => Some t | None => Some (stored_time now) end |>
    <| mw_updated_at := stored_time now |>.

(** The part of the reconciliation after the observation is authentic and current. *)
Definition record_observation (agent_id message_id compact : string) (occurred_at : instant) (event : RuntimeEvent)
    (command_id job_id : option string) (ob : AgentStateObservation) (now : instant) : Tx unit :=
  let job := ob_job ob in
  _ ← require (publication_matches agent_id message_id occurred_at event job_id ob)
        (conflict "publication does not match its signed Agent State");
  command_id ← expect command_id (conflict "managed Print Job event has no dispatch command");
  db ← get;
  dispatch ← expect (match commands db !! command_id with
                     | Some c => if String.eqb (cm_agent_id c) agent_id then Some c else None
                     | None => None
                     end) (conflict "managed Print Job dispatch does not belong to this Agent");
  _ ← require (match cm_command dispatch with
               | ManagedWorkContent id => String.eqb id (pj_managed_work_id job)
               | Inline _ => false
               end) (conflict "managed Print Job does not match its dispatch command");
  work ← expect (managed_work db !! pj_managed_work_id job)
           (conflict "managed Print Job has no Managed Work record");
  _ ← lift (validate_work_identity work ob);
  _ ← require (reconcilable (mw_state work))
        (conflict "Agent State conflicts with the Managed Work admission state");
  replace_current ← (match mw_print_job_observation work with
                     | Some current => lift (reconcile_version (so_observation current) ob)
                     | None => mret true
                     end : Tx bool);
  let signed := mkSignedAgentStateObservation ob compact in
  _ ← try_insert_observation (mkObservation (ob_envelope_id ob) agent_id (mw_managed_work_id work) signed
        (stored_time now));
  db ← get;
  stored ← expect (agent_state_observations db !! ob_envelope_id ob)
             (conflict "Agent State observation was not stored");
  _ ← require (negb (negb (String.eqb (os_agent_id stored) agent_id)
                || negb (String.eqb (os_managed_work_id stored) (mw_managed_work_id work))
                || negb (bool_decide (os_observation stored = signed))))
        (conflict "Agent State envelope ID was reused for different evidence");
  _ ← (if (replace_current : bool) then update_managed_work (mw_managed_work_id work) (accept_work signed now)
       else mret tt);
  _ ← update_command (cm_command_id dispatch) (fun c =>
        c <| cm_state := CsAccepted |> <| cm_updated_at := stored_time now |>);
  delete_managed_payload (mw_managed_work_id work).

Definition registered_state_key (db : Database) (agent_id key_id : string) : option VerificationKeyRow :=
  match agent_verification_keys db !! key_id with
  | Some k => if String.eqb (vk_agent_id k) agent_id && bool_decide (vk_purpose k = AgentState) then Some k else None
  | None => None
  end.

Definition reconcile_state_observation (agent_id : string) (publication : AgentPublication) (now : instant) : Tx unit :=
  match publication with
  | RuntimeEventPublication message_id occurred_at event command_id job_id =>
      if negb (String.eqb (ev_resource_kind event) "print_job") then mret tt else
      match fields_get (ev_payload event) "state_envelope" with
      | Some (SText compact) =>
          _ ← require (fields_len (ev_payload event) =? 1)
                (conflict "managed Print Job event contains unsigned fields");
          envelope ← lift (envelope_parse compact);
          db ← get;
          key ← expect (registered_state_key db agent_id (envelope_key_id envelope))
                  (conflict "Agent State key is not registered for this Agent");
          observation ← lift (envelope_verify envelope (vk_public_jwk key));
          _ ← require (utc_time (vk_registered_at key) <=? ob_observed_at observation)
                (conflict "Agent State predates registration of its signing key");
          match vk_retired_at key with
          | Some retired_at =>
              require (recorded_before agent_id compact observation retired_at
                         (agent_state_observations db !! ob_envelope_id observation))
                (conflict "retired Agent State key cannot introduce new observations")
          | None =>
              record_observation agent_id message_id compact occurred_at event command_id job_id observation now
          end
      | _ => throw (conflict "managed Print Job event has no signed state envelope")
      end
  | _ => mret tt
  end.

(** ** Lemmas *)

(** The order of a job's recorded states: the version grows, or the same state is observed again later. *)
Definition newer (current incoming : AgentStateObservation) : Prop :=
  pj_state_version (ob_job current) < pj_state_version (ob_job incoming) \/
  (ob_job incoming = ob_job current /\ ob_observed_at current < ob_observed_at incoming).

Lemma reconcile_version_Ok current incoming b : reconcile_version current incoming = Ok b ->
  pj_print_job_id (ob_job incoming) = pj_print_job_id (ob_job current) /\
  pj_origin (ob_job incoming) = pj_origin (ob_job current) /\
  pj_accepted_at (ob_job incoming) = pj_accepted_at (ob_job current) /\
  pj_expires_at (ob_job incoming) = pj_expires_at (ob_job current) /\
  (b = true <-> newer current incoming) /\
  (pj_state_version (ob_job current) < pj_state_version (ob_job incoming) ->
     is_terminal (pj_state (ob_job current)) = false /\ pj_state (ob_job incoming) <> PjAccepted /\
     ob_durable_state_sequence current < ob_durable_state_sequence incoming /\
     (forall t, pj_started_at (ob_job current) = Some t -> pj_started_at (ob_job incoming) = Some t)) /\
  (pj_state_version (ob_job incoming) = pj_state_version (ob_job current) -> ob_job incoming = ob_job current).
Proof.
  unfold reconcile_version, newer. intros Hrun. res_inv Hrun; bools; rewrite ?String.eqb_eq in *.
  - split_and!; try congruence; try lia. split; [done|]. intros [?|[E ?]]; [lia|]. rewrite E in *. lia.
  - split_and!; try congruence; try lia. rewrite Z.ltb_lt. split; [by eauto|]. intros [?|[E ?]]; [lia|done].
  - split_and!; try congruence; try lia.
    intros _. split_and!; try done. intros t Ht. rewrite Ht in *. rewrite bool_decide_true in * by eauto.
    simpl in *. bools. congruence.
Qed.

(** Versions of a Print Job only move forward.  When reconciliation replaces the recorded
    observation, the new one is strictly newer; a terminal state is never followed by another version, the
    job's identity, origin, acceptance and deadline never change, a start once recorded keeps its time, and
    the same version never carries another content. *)
Theorem reconcile_version_is_monotone current incoming :
  reconcile_version current incoming = Ok true ->
  newer current incoming /\ ~ newer incoming current /\
  pj_print_job_id (ob_job incoming) = pj_print_job_id (ob_job current) /\
  pj_origin (ob_job incoming) = pj_origin (ob_job current) /\
  pj_accepted_at (ob_job incoming) = pj_accepted_at (ob_job current) /\
  pj_expires_at (ob_job incoming) = pj_expires_at (ob_job current) /\
  (forall t, pj_started_at (ob_job current) = Some t -> pj_started_at (ob_job incoming) = Some t) /\
  (is_terminal (pj_state (ob_job current)) = true -> ob_job incoming = ob_job current).
Proof.
  intros (Hid & Ho & Ha & He & Hb & Hlt & Heq)%reconcile_version_Ok.
  assert (newer current incoming) as Hn by by apply Hb.
  split_and!; try done.
  - unfold newer in *. intros [?|[E1 ?]]; destruct Hn as [?|[E2 ?]]; try lia; [rewrite E2 in *|rewrite E1 in *]; lia.
  - intros t Ht. destruct Hn as [Hv|[-> _]]; [|done]. by apply Hlt.
  - intros Hterm. destruct Hn as [Hv|[-> _]]; [|done]. destruct (Hlt Hv) as [Hf _]. congruence.
Qed.

(** What a recorded observation did, statement by statement. *)
Lemma record_observation_Ok agent mid compact occ ev cid jid ob now db u db' :
  record_observation agent mid compact occ ev cid jid ob now db = Ok (u, db') ->
  let signed := mkSignedAgentStateObservation ob compact in
  publication_matches agent mid occ ev jid ob = true /\
  exists command_id dispatch work observations,
    cid = Some command_id /\ commands db !! command_id = Some dispatch /\ cm_agent_id dispatch = agent /\
    cm_command dispatch = ManagedWorkContent (pj_managed_work_id (ob_job ob)) /\
    managed_work db !! pj_managed_work_id (ob_job ob) = Some work /\
    validate_work_identity work ob = Ok tt /\ reconcilable (mw_state work) = true /\
    (observations = agent_state_observations db \/
     agent_state_observations db !! ob_envelope_id ob = None /\
     observations = <[ob_envelope_id ob := mkObservation (ob_envelope_id ob) agent (mw_managed_work_id work) signed
                        (stored_time now)]> (agent_state_observations db)) /\
    (exists row, observations !! ob_envelope_id ob = Some row /\ os_observation row = signed) /\
    exists replace,
      match mw_print_job_observation work with
      | Some current => reconcile_version (so_observation current) ob = Ok replace
      | None => replace = true
      end /\
      exists target dispatch0, 
        (replace = true -> managed_work db !! mw_managed_work_id work = Some target) /\
        commands db !! cm_command_id dispatch = Some dispatch0 /\
        db' = db <| agent_state_observations := observations |>
                 <| managed_work := if replace : bool
                                    then <[mw_managed_work_id work := accept_work signed now target]> (managed_work db)
                                    else managed_work db |>
                 <| commands := <[cm_command_id dispatch :=
                      dispatch0 <| cm_state := CsAccepted |> <| cm_updated_at := stored_time now |>]> (commands db) |>
                 <| managed_payloads := delete (mw_managed_work_id work) (managed_payloads db) |>.
Proof.
  unfold record_observation, delete_managed_payload. intros Hrun. cbv zeta in *.
  apply tx_bind_Ok in Hrun as (u1 & s1 & [Hm ->]%require_Ok & Hrun). split; [done|].
  apply tx_bind_Ok in Hrun as (command_id & s2 & [-> ->]%expect_Ok & Hrun).
  apply tx_bind_Ok in Hrun as (db0 & s3 & [-> ->]%get_Ok & Hrun).
  apply tx_bind_Ok in Hrun as (dispatch & s4 & [Hd ->]%expect_Ok & Hrun).
  destruct (commands db !! command_id) as [c|] eqn:Hc; [|done].
  destruct (String.eqb_spec (cm_agent_id c) agent) as [Hown|]; simplify_eq.
  apply tx_bind_Ok in Hrun as (u2 & s5 & [Hcontent ->]%require_Ok & Hrun).
  destruct (cm_command dispatch) as [|wid] eqn:Hcmd; [done|]. apply String.eqb_eq in Hcontent as ->.
  apply tx_bind_Ok in Hrun as (work & s6 & [Hw ->]%expect_Ok & Hrun).
  apply tx_bind_Ok in Hrun as ([] & s7 & [Hid ->]%lift_Ok & Hrun).
  apply tx_bind_Ok in Hrun as (u3 & s8 & [Hst ->]%require_Ok & Hrun).
  apply tx_bind_Ok in Hrun as (replace & s9 & Hrep & Hrun).
  assert (match mw_print_job_observation work with
      | Some current => reconcile_version (so_observation current) ob = Ok replace
      | None => replace = true end /\ s9 = db) as [Hrep' ->].
  { destruct (mw_print_job_observation work); tx_inv Hrep; auto. }
  apply tx_bind_Ok in Hrun as (inserted & s10 & Hins & Hrun).
  apply tx_bind_Ok in Hrun as (db1 & s11 & [-> ->]%get_Ok & Hrun).
  apply tx_bind_Ok in Hrun as (stored & s12 & [Hsto ->]%expect_Ok & Hrun).
  apply tx_bind_Ok in Hrun as (u4 & s13 & [Hsame ->]%require_Ok & Hrun). bools.
  apply tx_bind_Ok in Hrun as (u5 & s14 & Hupd & Hrun).
  apply tx_bind_Ok in Hrun as (u6 & s15 & Hucmd & [-> ->]%modify_Ok).
  assert (exists observations, s10 = db <| agent_state_observations := observations |> /\
    (observations = agent_state_observations db \/
     agent_state_observations db !! ob_envelope_id ob = None /\
     observations = <[ob_envelope_id ob := mkObservation (ob_envelope_id ob) (cm_agent_id dispatch)
       (mw_managed_work_id work) (mkSignedAgentStateObservation ob compact)
                        (stored_time now)]> (agent_state_observations db))) as (obs & -> & Hobs).
  { apply try_insert_observation_Ok in Hins as [(_ & _ & ->)|(_ & Hnone & ->)]; eexists; (split; [|eauto]); [|done].
    by destruct db. }
  exists command_id, dispatch, work, obs. split_and!; try done; [by exists stored|].
  exists replace. split; [done|]. destruct replace.
  - apply update_managed_work_Ok in Hupd as (target & Ht & ->).
    apply update_command_Ok in Hucmd as (d0 & Hd0 & ->). simpl in *. exists target, d0. done.
  - apply tx_ret_Ok in Hupd as [_ ->].
    apply update_command_Ok in Hucmd as (d0 & Hd0 & ->). simpl in *. exists work, d0. done.
Qed.
End Reconcile.

Lemma reconcile_version_is_monotone_witness :
  let earlier := mkAgentStateObservation 1 "env-0" "agt_1" "boot-1" "session-1" 1 5 5 (seconds 11) (seconds 11)
    (ob_payload_fingerprint sample_observation)
    (mkManagedPrintJobSnapshot "pj-1" "pi_v1_a" "dev_label" sample_origin "mw_1" PjAccepted 1
       (seconds 10) None None (seconds 600) None None None "v1") in
  reconcile_version earlier sample_observation = Ok true /\ newer earlier sample_observation.
Proof.
  split; [vm_compute; reflexivity|]. eapply reconcile_version_is_monotone. vm_compute. reflexivity.
Defined.
#[export] Hint Unfold record_observation reconcile_state_observation : frames.
