(* ===== verification/Inventory.v ===== *)
(** * Device inventories

    [crates/inari-gateway/src/persistence/inventory.rs]: the inventory of a status snapshot is decoded,
    checked as a whole and projected onto the Agent's rows of the devices table. *)
From S2P Require Import Prelude Errors Identifiers Protocol Schema Samples.

Definition MAX_DEVICES : Z := 1024.

Inductive ConnectionState : Set := ConnOnline | ConnOffline.
Record InventoryItem := mkInventoryItem {
  it_device_id : string;
  it_kind : DeviceKind;
  it_device_class : DeviceClass;
  it_display_name : string;
  it_system_name : string;
  it_driver_key : string;
  it_connection_state : ConnectionState;
  it_transport : DeviceTransport;
  it_identity_digest : string;
  it_capabilities : list string;
  it_metadata : StructuredFields;
}.

(** JSON ([serde_json]): the conversion of the fields to a value, its decoding as an inventory and the size
    of an encoding. *)
Class InventoryCodec := {
  to_value_is_ok : StructuredFields -> bool;
  inventory_from_value : StructuredFields -> option (list InventoryItem);
  json_size : StructuredFields -> option Z;
}.
(** Decoding parses device identifiers. *)
Class InventoryCodecSpec `{InventoryCodec} : Prop :=
  inventory_ids_valid : forall f items, inventory_from_value f = Some items ->
    Forall (fun i => resource_id_valid "dev_" (it_device_id i) = true) items.

Definition kind_name (kind : DeviceKind) : string :=
  match kind with Printer => "printer" | Scale => "scale" | Scanner => "scanner" | Display => "display" end.
Definition DeviceKind_from (k : StoredDeviceKind) : DeviceKind :=
  match k with SPrinter => Printer | SScale => Scale | SScanner => Scanner | SDisplay => Display end.
Definition DeviceState_from (s : StoredDeviceState) : DeviceState :=
  match s with
  | SDevDiscovered => DevDiscovered | SDevPendingApproval => DevPendingApproval | SDevOnline => DevOnline
  | SDevOffline => DevOffline | SDevDegraded => DevDegraded | SDevBlocked => DevBlocked
  end.
Definition DeviceTransport_from (t : StoredDeviceTransport) : DeviceTransport :=
  match t with SSpooler => Spooler | SNetwork => Network | SUsb => Usb | SHid => Hid | SSerial => Serial end.
Definition stored_kind (k : DeviceKind) : StoredDeviceKind :=
  match k with Printer => SPrinter | Scale => SScale | Scanner => SScanner | Display => SDisplay end.
Definition stored_class (c : DeviceClass) : StoredDeviceClass :=
  match c with Physical => SPhysical | Virtual => SVirtual end.
Definition stored_state (c : ConnectionState) : StoredDeviceState :=
  match c with ConnOnline => SDevOnline | ConnOffline => SDevOffline end.
Definition stored_transport (t : DeviceTransport) : StoredDeviceTransport :=
  match t with
  | Spooler => SSpooler | Network => SNetwork | Usb => SUsb | Hid => SHid | Serial => SSerial
  end.

Definition invalid_inventory (detail : string) : GatewayError := InvalidInput detail.
Definition name_ok (value : string) : bool :=
  negb (is_empty value || (1024 <? str_len value) || has_control value).
Definition digest_ok (value : string) : bool := (str_len value =? 64) && all_bytes lower_hex value.
Definition known_capability (value : string) : bool :=
  String.eqb value "raw" || String.eqb value "text" || String.eqb value "documents" || String.eqb value "cash_drawer".

(** [BTreeSet::insert] in a loop: [None] at the first repetition or unknown name. *)
Fixpoint capabilities_ok (seen values : list string) : bool :=
  match values with
  | [] => true
  | v :: rest => known_capability v && negb (bool_decide (v ∈ seen)) && capabilities_ok (v :: seen) rest
  end.

Section Parse.
Context `{InventoryCodec}.

Fixpoint check_items (device_ids : list string) (identities : list (string * string)) (items : list InventoryItem)
    : GatewayResult unit :=
  match items with
  | [] => Ok tt
  | item :: rest =>
      let identity := (kind_name (it_kind item), it_identity_digest item) in
      _ ← ensure (negb (bool_decide (it_device_id item ∈ device_ids) || bool_decide (identity ∈ identities)))
            (invalid_inventory "inventory contains duplicate Device identities");
      _ ← ensure (forallb name_ok [it_display_name item; it_system_name item; it_driver_key item])
            (invalid_inventory "inventory contains an invalid Device name");
      _ ← ensure (digest_ok (it_identity_digest item))
            (invalid_inventory "inventory contains an invalid identity digest");
      _ ← ensure (capabilities_ok [] (it_capabilities item))
            (invalid_inventory "inventory contains an invalid discovery capability");
      size ← ok_or (json_size (it_metadata item)) Serialization;
      _ ← ensure (size <=? 16384) (invalid_inventory "inventory Device metadata exceeds its size limit");
      check_items (it_device_id item :: device_ids) (identity :: identities) rest
  end.

Definition inventory_parse (inventory : StructuredFields) : GatewayResult (list InventoryItem) :=
  _ ← ensure (to_value_is_ok inventory) Serialization;
  devices ← ok_or (inventory_from_value inventory)
              (invalid_inventory "inventory does not match the Device contract");
  _ ← ensure (Z.of_nat (length devices) <=? MAX_DEVICES)
        (invalid_inventory "inventory exceeds the Device count limit");
  _ ← check_items [] [] devices;
  Ok devices.
End Parse.

Definition device_row (agent_id site_id : string) (generated_at : instant) (item : InventoryItem) : DeviceRow :=
  mkDevice agent_id (it_device_id item) site_id (stored_kind (it_kind item)) (stored_class (it_device_class item))
    (it_display_name item) (stored_state (it_connection_state item)) (stored_transport (it_transport item))
    (it_identity_digest item) [] (stored_time generated_at) (stored_time generated_at).

Definition identity_changed (stored : DeviceRow) (item : InventoryItem) : bool :=
  let same_identity := String.eqb (dv_identity_digest stored) (it_identity_digest item)
                       && String.eqb (kind_name (DeviceKind_from (dv_kind stored))) (kind_name (it_kind item)) in
  negb (Bool.eqb (String.eqb (dv_device_id stored) (it_device_id item)) same_identity).

Definition apply_item (existing : list DeviceRow) (agent_id site_id : string) (generated_at : instant)
    (item : InventoryItem) : Tx unit :=
  _ ← require (negb (existsb (fun stored => identity_changed stored item) existing))
        (invalid_inventory "a Device changed its established identity");
  upsert_device (device_row agent_id site_id generated_at item).

Definition inventory_apply (items : list InventoryItem) (agent_id site_id : string) (generated_at : instant) : Tx unit :=
  db ← get;
  let existing := rows_where (devices db) (fun d => String.eqb (dv_agent_id d) agent_id) in
  _ ← each (apply_item existing agent_id site_id generated_at) items;
  delete_devices_where (fun d =>
    String.eqb (dv_agent_id d) agent_id
    && match items with
       | [] => true
       | _ => negb (bool_decide (dv_device_id d ∈ it_device_id <$> items))
       end).

(** ** Lemmas *)
Lemma check_items_nodup `{InventoryCodec} ids idents items :
  check_items ids idents items = Ok tt ->
  NoDup (it_device_id <$> items) /\ (forall i, i ∈ items -> it_device_id i ∉ ids) /\
  NoDup ((fun i => (kind_name (it_kind i), it_identity_digest i)) <$> items) /\
  (forall i, i ∈ items -> (kind_name (it_kind i), it_identity_digest i) ∉ idents) /\
  Forall (fun i => digest_ok (it_identity_digest i) = true) items.
Proof.
  revert ids idents. induction items as [|item rest IH]; intros ids idents Hrun.
  { split_and!; [constructor|set_solver|constructor|set_solver|constructor]. }
  simpl in Hrun. res_inv Hrun. apply IH in Hrun as (N1 & F1 & N2 & F2 & D). bools.
  split_and!; csimpl.
  - constructor; [|done]. intros (i & E & Hi)%list_elem_of_fmap. apply (F1 i Hi). rewrite <- E. set_solver.
  - intros i [->|Hi]%elem_of_cons; [done|]. specialize (F1 i Hi). set_solver.
  - constructor; [|done]. intros (i & E & Hi)%list_elem_of_fmap. apply (F2 i Hi). rewrite <- E. set_solver.
  - intros i [->|Hi]%elem_of_cons; [done|]. specialize (F2 i Hi). set_solver.
  - by constructor.
Qed.
Lemma inventory_parse_Ok `{InventoryCodec} f items : inventory_parse f = Ok items ->
  inventory_from_value f = Some items /\ check_items [] [] items = Ok tt /\ Z.of_nat (length items) <= MAX_DEVICES.
Proof. unfold inventory_parse. intros Hrun. res_inv Hrun. bools. destruct a0. done. Qed.

(** Rows are stored under the Agent and Device they describe. *)
Definition devices_wf (db : Database) : Prop :=
  map_Forall (fun k d => (dv_agent_id d, dv_device_id d) = k) (devices db).

(** The row an item projects to: the item's columns, and the first observation of the Device. *)
Definition projected (agent_id site_id : string) (generated_at : instant) (old : option DeviceRow)
    (item : InventoryItem) : DeviceRow :=
  device_row agent_id site_id generated_at item
    <| dv_first_seen_at := match old with Some d => dv_first_seen_at d | None => stored_time generated_at end |>.
Definition item_for (device_id : string) (items : list InventoryItem) : option InventoryItem :=
  List.find (fun i => String.eqb (it_device_id i) device_id) items.

Lemma kind_name_inj k k' : kind_name k = kind_name k' -> k = k'.
Proof. by destruct k, k'. Qed.
Lemma stored_kind_from k : stored_kind (DeviceKind_from k) = k.
Proof. by destruct k. Qed.

Lemma upsert_device_Ok row db u db' : upsert_device row db = Ok (u, db') ->
  digest_ok (dv_identity_digest row) = true /\
  let key := (dv_agent_id row, dv_device_id row) in
  let new := match devices db !! key with
             | Some old => row <| dv_kind := dv_kind old |> <| dv_identity_digest := dv_identity_digest old |>
                               <| dv_first_seen_at := dv_first_seen_at old |>
             | None => row
             end in
  db' = db <| devices := <[key := new]> (devices db) |>.
Proof. unfold upsert_device, devices_constraints, check, unique, references. intros H. tx_inv H. done. Qed.

Lemma apply_item_Ok existing agent site t item db u db' old :
  devices db !! (agent, it_device_id item) = old ->
  (forall d, old = Some d -> d ∈ existing /\ dv_device_id d = it_device_id item) ->
  apply_item existing agent site t item db = Ok (u, db') ->
  db' = db <| devices := <[(agent, it_device_id item) := projected agent site t old item]> (devices db) |>.
Proof.
  intros Hold Hex Hrun. unfold apply_item in Hrun. tx_inv Hrun.
  apply upsert_device_Ok in Hrun as [_ Hdb]. simpl in Hdb. rewrite Hdb. f_equal. f_equal.
  destruct (devices db !! (agent, it_device_id item)) as [d|] eqn:Hd; [|done].
  destruct (Hex d eq_refl) as [Hin Hid].
  match goal with H : negb (existsb _ _) = true |- _ => apply negb_true_iff in H; rename H into Hnone end.
  assert (identity_changed d item = false) as Hsame.
  { destruct (identity_changed d item) eqn:E; [|done].
    assert (existsb (fun stored => identity_changed stored item) existing = true); [|congruence].
    apply existsb_exists. exists d. by rewrite <- list_elem_of_In. }
  unfold identity_changed in Hsame. rewrite Hid, String.eqb_refl in Hsame. bools.
  apply Bool.eqb_prop in Hsame. symmetry in Hsame. bools. rewrite !String.eqb_eq in *.
  match goal with H : kind_name _ = kind_name _ |- _ => apply kind_name_inj in H as Hk end.
  unfold projected, device_row. simpl.
  match goal with H : dv_identity_digest d = _ |- _ => rewrite H end. rewrite <- Hk, stored_kind_from. done.
Qed.

Lemma item_for_Some id items i : item_for id items = Some i -> i ∈ items /\ it_device_id i = id.
Proof. unfold item_for. intros [Hin E]%List.find_some. rewrite list_elem_of_In, <- String.eqb_eq. done. Qed.
Lemma item_for_None id items : item_for id items = None <-> id ∉ it_device_id <$> items.
Proof.
  unfold item_for. rewrite list_elem_of_fmap. split.
  - intros Hn (i & -> & Hi). apply list_elem_of_In in Hi. pose proof (List.find_none _ _ Hn i Hi) as E.
    simpl in E. by rewrite String.eqb_refl in E.
  - intros Hn. destruct (List.find _ items) as [i|] eqn:E; [|done]. exfalso. apply Hn.
    apply List.find_some in E as [Hi E]. exists i. rewrite list_elem_of_In. by apply String.eqb_eq in E.
Qed.

(** The loop over the items, from any point of it. *)
Lemma apply_items_Ok (existing : list DeviceRow) (agent site : string) (t : instant)
    (base : gmap (string * string) DeviceRow) (items : list InventoryItem) : forall db u db',
  NoDup (it_device_id <$> items) ->
  (forall i, i ∈ items -> devices db !! (agent, it_device_id i) = base !! (agent, it_device_id i)) ->
  (forall id d, base !! (agent, id) = Some d -> d ∈ existing /\ dv_device_id d = id) ->
  each (apply_item existing agent site t) items db = Ok (u, db') ->
  (exists m, db' = db <| devices := m |>) /\
  (forall k, devices db' !! k =
     match (if decide (k.1 = agent) then item_for k.2 items else None) with
     | Some i => Some (projected agent site t (base !! k) i)
     | None => devices db !! k
     end).
Proof.
  induction items as [|item rest IH]; intros db u db' Hnd Hsame Hbase Hrun.
  { simpl in Hrun. apply tx_ret_Ok in Hrun as [_ ->]. split; [exists (devices db); by destruct db|].
    intros [a d]. simpl. by destruct (decide (a = agent)). }
  csimpl in Hnd. inversion Hnd as [|? ? Hfresh Hnd0]; subst; rename Hnd0 into Hnd1.
  simpl in Hrun. apply tx_bind_Ok in Hrun as (u1 & db1 & Hitem & Hrun).
  eapply (apply_item_Ok _ _ _ _ _ _ _ _ (base !! (agent, it_device_id item))) in Hitem;
    [|apply Hsame; set_solver|intros d Hd; by apply Hbase].
  apply IH in Hrun as [[m ->] Hdev]; [|exact Hnd1| |done]; cycle 1.
  { intros i Hi. rewrite Hitem. simpl. rewrite lookup_insert_ne; [apply Hsame; set_solver|].
    intros [= E]. apply Hfresh. rewrite E. apply list_elem_of_fmap. eauto. }
  split; [exists m; by rewrite Hitem|].
  intros [a d]. rewrite Hdev, Hitem. simpl. destruct (decide (a = agent)) as [->|Hne].
  - destruct (String.eqb_spec (it_device_id item) d) as [<-|Hd].
    + rewrite (proj2 (item_for_None _ _)) by done. rewrite lookup_insert_eq. done.
    + unfold item_for. destruct (List.find _ rest); [done|]. by rewrite lookup_insert_ne by congruence.
  - by rewrite lookup_insert_ne by congruence.
Qed.

Lemma inventory_apply_exact `{InventoryCodec} f items agent site t db u db' :
  devices_wf db -> inventory_parse f = Ok items ->
  inventory_apply items agent site t db = Ok (u, db') ->
  (exists m, db' = db <| devices := m |>) /\
  (forall a d, a <> agent -> devices db' !! (a, d) = devices db !! (a, d)) /\
  (forall d, devices db' !! (agent, d) =
     (fun i => projected agent site t (devices db !! (agent, d)) i) <$> item_for d items).
Proof.
  intros Hwf Hparse Hrun.
  apply inventory_parse_Ok in Hparse as (_ & Hcheck & _).
  apply check_items_nodup in Hcheck as (Hnd & _ & _ & _ & _).
  unfold inventory_apply in Hrun. apply tx_bind_Ok in Hrun as (db0 & s1 & [-> ->]%get_Ok & Hrun).
  apply tx_bind_Ok in Hrun as (u1 & db1 & Hloop & [_ ->]%modify_Ok).
  apply (apply_items_Ok _ _ _ _ (devices db)) in Hloop as [[m ->] Hdev]; [|done|done|]; cycle 1.
  { intros id d Hd. pose proof (Hwf _ _ Hd) as E. simpl in E. injection E as Ea Ed. split; [|done].
    apply elem_of_rows_where. split; [by apply String.eqb_eq|eauto]. }
  simpl in *.
  assert (forall k d, m !! k = Some d -> (dv_agent_id d, dv_device_id d) = k) as Hkeys.
  { intros k d Hd. rewrite Hdev in Hd. destruct (decide (k.1 = agent)) as [Ek|]; [|by apply Hwf].
    destruct (item_for k.2 items) as [i|] eqn:Hi; [|by apply Hwf].
    apply item_for_Some in Hi as [_ Hi]. injection Hd as <-. destruct k. simpl in *. congruence. }
  assert (match items with [] => [] | _ :: _ => items end = items) as Eitems by by destruct items.
  split; [eexists; reflexivity|]. split.
  - intros a d Hne. rewrite lookup_delete_where_eq, Hdev. simpl. rewrite decide_False by done.
    destruct (devices db !! (a, d)) as [row|] eqn:Hrow; [|done]. simpl.
    pose proof (Hwf _ _ Hrow) as E. simpl in E. injection E as Ea _.
    destruct (String.eqb_spec (dv_agent_id row) agent); [congruence|done].
  - intros d. rewrite lookup_delete_where_eq. destruct (m !! (agent, d)) as [row|] eqn:Hrow; simpl.
    + pose proof (Hkeys _ _ Hrow) as E. injection E as Ea Ed. rewrite Ea, String.eqb_refl, Ed. simpl.
      rewrite Hdev in Hrow. simpl in Hrow. rewrite decide_True in Hrow by done.
      destruct (item_for d items) as [i|] eqn:Hi; simpl.
      * assert (d ∈ it_device_id <$> items) as Hin.
        { apply item_for_Some in Hi as [? <-]. apply list_elem_of_fmap. eauto. }
        destruct items as [|i0 l]; [set_solver|]. rewrite bool_decide_true by done. simpl. congruence.
      * apply item_for_None in Hi. destruct items as [|i0 l]; [done|]. by rewrite bool_decide_false by done.
    + rewrite Hdev in Hrow. simpl in Hrow. rewrite decide_True in Hrow by done.
      by destruct (item_for d items).
Qed.

(** The projection is the snapshot.  After a parsed inventory is applied, the Agent's devices are
    exactly its items, each with the item's columns, the time of the snapshot as last seen, and the first
    observation kept from before; devices the snapshot no longer lists are gone, and the devices of every
    other Agent, like every other table, are untouched. *)
Theorem inventory_projection_is_exact `{InventoryCodec} f items agent site t db u db' :
  devices_wf db -> inventory_parse f = Ok items ->
  inventory_apply items agent site t db = Ok (u, db') ->
  (exists m, db' = db <| devices := m |>) /\
  (forall a d, a <> agent -> devices db' !! (a, d) = devices db !! (a, d)) /\
  (forall d, devices db' !! (agent, d) =
     (fun i => projected agent site t (devices db !! (agent, d)) i) <$> item_for d items).
Proof. apply inventory_apply_exact. Qed.

(** The database constraint behind the projection: one row per Device, under its own key. *)
Lemma inventory_apply_devices_wf items agent site t : Keeps devices_wf (inventory_apply items agent site t).
Proof.
  unfold inventory_apply, delete_devices_where, apply_item. steps.
  - intros db u db' [_ ->]%upsert_device_Ok Hwf k d. simpl.
    intros [[<- <-]|[_ Hd]]%lookup_insert_Some; [|by apply Hwf]. by destruct (devices db !! _).
  - apply steps_modify. intros db Hwf k d. simpl. intros [Hd _]%lookup_delete_where. by apply Hwf.
Qed.
#[export] Hint Unfold apply_item inventory_apply : frames.

Definition sample_item : InventoryItem :=
  mkInventoryItem "dev_scale" Scale Physical "Counter scale" "usb0" "toledo" ConnOnline Usb
    (digest_of "c" ++ digest_of "d") ["raw"] [].
#[local] Instance sample_codec : InventoryCodec :=
  {| to_value_is_ok := fun _ => true; inventory_from_value := fun _ => Some [sample_item]; json_size := fun _ => Some 2 |}.
Definition sample_projection : Database :=
  match inventory_apply [sample_item] "agt_1" "site_main" (seconds 50) sample_db with Ok (_, db) => db | Err _ => sample_db end.

Lemma inventory_projection_is_exact_witness :
  inventory_parse [] = Ok [sample_item] /\
  devices sample_projection !! ("agt_1", "dev_label") = None /\
  devices sample_projection !! ("agt_1", "dev_scale") = Some (projected "agt_1" "site_main" (seconds 50) None sample_item).
Proof.
  assert (devices_wf sample_db) as Hwf by decide_now.
  assert (inventory_parse [] = Ok [sample_item]) as Hp by reflexivity. split; [exact Hp|].
  destruct (inventory_projection_is_exact [] [sample_item] "agt_1" "site_main" (seconds 50) sample_db tt sample_projection
    Hwf Hp) as (_ & _ & Hdev); [vm_compute; reflexivity|].
  split; rewrite Hdev; vm_compute; reflexivity.
Defined.
