(* ===== verification/Keys.v ===== *)
(** * Verification keys

    The invariants of the [agent_verification_keys] table that [register_verification_key] (enrollment) and
    [retire_agent_credentials] (retirement) rely on: an Agent has at most one active key per purpose, a key
    never changes owner, purpose or material, and a retired key stays retired. *)
From S2P Require Import Prelude Errors Identifiers Protocol Schema RouterPolicy.

Definition keys_wf (db : Database) : Prop :=
  (forall k r, agent_verification_keys db !! k = Some r -> vk_key_id r = k) /\
  (forall k1 k2 r1 r2, agent_verification_keys db !! k1 = Some r1 -> agent_verification_keys db !! k2 = Some r2 ->
     vk_agent_id r1 = vk_agent_id r2 -> vk_purpose r1 = vk_purpose r2 ->
     active_key r1 = true -> active_key r2 = true -> k1 = k2).

Definition key_identity (r : VerificationKeyRow) : string * string * AgentKeyPurpose * string * Jwk * instant :=
  (vk_key_id r, vk_agent_id r, vk_purpose r, vk_jwk_thumbprint r, vk_public_jwk r, vk_registered_at r).
Definition key_row_progress (r r' : VerificationKeyRow) : Prop :=
  key_identity r' = key_identity r /\ (forall t, vk_retired_at r = Some t -> vk_retired_at r' = Some t).
Definition key_progress (db db' : Database) : Prop :=
  forall k r, agent_verification_keys db !! k = Some r ->
    exists r', agent_verification_keys db' !! k = Some r' /\ key_row_progress r r'.

#[global] Instance key_progress_PreOrder : PreOrder key_progress.
Proof.
  split.
  - intros db k r Hr. exists r. done.
  - intros d1 d2 d3 H12 H23 k r Hr. destruct (H12 k r Hr) as (r2 & Hr2 & I2 & T2).
    destruct (H23 k r2 Hr2) as (r3 & Hr3 & I3 & T3). exists r3. split; [done|]. split; [congruence|eauto].
Qed.
Lemma same_key_progress db db' : same agent_verification_keys db db' -> key_progress db db'.
Proof. unfold same. intros E k r Hr. exists r. by rewrite E. Qed.
Lemma same_keys_wf db db' : same agent_verification_keys db db' -> keys_wf db -> keys_wf db'.
Proof. unfold same, keys_wf. by intros ->. Qed.

Definition retire (t : instant) (k : VerificationKeyRow) : VerificationKeyRow := k <| vk_retired_at := Some t |>.

Lemma active_key_true r : active_key r = true <-> vk_retired_at r = None.
Proof. unfold active_key. by rewrite bool_decide_eq_true. Qed.
Lemma retire_inactive t r : active_key (retire t r) = false.
Proof. done. Qed.

Lemma retire_keys_where_Ok p t db n db' : retire_keys_where p t db = Ok (n, db') ->
  agent_verification_keys db' = update_where p (retire t) (agent_verification_keys db) /\
  n = count_where (agent_verification_keys db) p.
Proof.
  unfold retire_keys_where. intros Hrun.
  apply tx_bind_Ok in Hrun as (db0 & s1 & [-> ->]%get_Ok & Hrun). cbv zeta in Hrun.
  apply tx_bind_Ok in Hrun as (u1 & s2 & [_ ->]%modify_Ok & Hrun).
  apply tx_bind_Ok in Hrun as (u2 & s3 & Heach & [-> ->]%tx_ret_Ok).
  assert (Frame agent_verification_keys
    (each (fun k => invalidate_on_key_change (vk_agent_id k)) (rows_where (agent_verification_keys db) p))) as Hf
    by frame.
  split; [|done]. rewrite (Hf _ _ _ Heach). done.
Qed.

Lemma retire_keys_progress p t : (forall r, p r = true -> active_key r = true) ->
  Steps key_progress (retire_keys_where p t).
Proof.
  intros Hp db n db' [E _]%retire_keys_where_Ok k r Hr. rewrite E, lookup_update_where, Hr. simpl.
  eexists. split; [reflexivity|]. destruct (p r) eqn:Epr; [|done].
  split; [done|]. intros u Hu. apply Hp, active_key_true in Epr. congruence.
Qed.
Lemma retire_keys_wf p t : Keeps keys_wf (retire_keys_where p t).
Proof.
  intros db n db' [E _]%retire_keys_where_Ok [Hkey Huniq]. unfold keys_wf. rewrite E.
  assert (forall k r, update_where p (retire t) (agent_verification_keys db) !! k = Some r ->
    exists r0, agent_verification_keys db !! k = Some r0 /\ vk_key_id r = vk_key_id r0 /\
      vk_agent_id r = vk_agent_id r0 /\ vk_purpose r = vk_purpose r0 /\
      (active_key r = true -> active_key r0 = true)) as Hback.
  { intros k r. rewrite lookup_update_where. intros (r0 & Hr0 & ->)%fmap_Some. exists r0.
    destruct (p r0); [|done]. split_and!; try done. }
  split.
  - intros k r Hr. destruct (Hback k r Hr) as (r0 & Hr0 & -> & _). by apply Hkey.
  - intros k1 k2 r1 r2 H1 H2 Ha Hp A1 A2.
    destruct (Hback _ _ H1) as (x1 & X1 & _ & Xa1 & Xp1 & Xt1), (Hback _ _ H2) as (x2 & X2 & _ & Xa2 & Xp2 & Xt2).
    eapply Huniq; [exact X1|exact X2|congruence|congruence|auto|auto].
Qed.

Lemma try_insert_verification_key_Ok row db b db' : try_insert_verification_key row db = Ok (b, db') ->
  (b = false /\ db' = db) \/
  (b = true /\ agent_verification_keys db !! vk_key_id row = None /\
   (active_key row = true -> forall k r, agent_verification_keys db !! k = Some r -> vk_agent_id r = vk_agent_id row ->
      vk_purpose r = vk_purpose row -> active_key r = false) /\
   is_Some (agents db !! vk_agent_id row) /\
   agent_verification_keys db' = <[vk_key_id row := row]> (agent_verification_keys db)).
Proof.
  unfold try_insert_verification_key, verification_key_conflict, exists_in, references. intros Hrun.
  apply tx_bind_Ok in Hrun as (db0 & s1 & [-> ->]%get_Ok & Hrun). cbv zeta in Hrun.
  destruct (_ || _ || _) eqn:Hc in Hrun.
  - apply tx_ret_Ok in Hrun as [-> ->]. by left.
  - right. apply tx_bind_Ok in Hrun as (u1 & s2 & [Hown ->]%require_Ok & Hrun).
    apply tx_bind_Ok in Hrun as (u2 & s3 & [_ ->]%modify_Ok & Hrun).
    apply tx_bind_Ok in Hrun as (u3 & s4 & Htrig & [-> ->]%tx_ret_Ok).
    assert (Frame agent_verification_keys (invalidate_on_key_change (vk_agent_id row))) as Hf by frame.
    rewrite (Hf _ _ _ Htrig). bools. split_and!; try done.
    + by apply eq_None_not_Some.
    + intros Hact k r Hr Ha Hp. rewrite Hact in *. simpl in *. bools.
      match goal with Hn : no_row _ (fun _ => _ && active_key _) = true |- _ =>
        rewrite no_row_true in Hn; specialize (Hn k r Hr) end.
      rewrite Ha, Hp, String.eqb_refl, bool_decide_true in * by done. done.
Qed.
Lemma try_insert_key_progress row : Steps key_progress (try_insert_verification_key row).
Proof.
  intros db b db' [(_ & ->)|(_ & Hn & _ & _ & E)]%try_insert_verification_key_Ok; [reflexivity|].
  intros k r Hr. rewrite E. exists r. split; [|done]. rewrite lookup_insert_ne by congruence. done.
Qed.
Lemma try_insert_keys_wf row : Keeps keys_wf (try_insert_verification_key row).
Proof.
  intros db b db' [(_ & ->)|(_ & Hn & Huni & _ & E)]%try_insert_verification_key_Ok [Hkey Huniq]; [done|].
  unfold keys_wf. rewrite E. split.
  - intros k r [[<- <-]|[_ Hr]]%lookup_insert_Some; [done|by apply Hkey].
  - intros k1 k2 r1 r2 [[<- <-]|[_ H1]]%lookup_insert_Some [[<- <-]|[_ H2]]%lookup_insert_Some Ha Hp A1 A2;
      [done| | |by eapply Huniq].
    + specialize (Huni A1 _ _ H2 (eq_sym Ha) (eq_sym Hp)). congruence.
    + specialize (Huni A2 _ _ H1 Ha Hp). congruence.
Qed.

(** The key a purpose is served by. *)
Definition serves (db : Database) (agent_id : string) (purpose : AgentKeyPurpose) (key_id : string) : Prop :=
  exists r, agent_verification_keys db !! key_id = Some r /\ vk_agent_id r = agent_id /\
    vk_purpose r = purpose /\ active_key r = true.

(** An Agent row with a dispatch key, its transport key and some state key active may be admitted. *)
Lemma serves_active_agent db a kid :
  keys_wf db -> is_Some (ag_dispatch_key a) ->
  serves db (ag_agent_id a) TransportIdentity (ag_key_id a) -> serves db (ag_agent_id a) AgentState kid ->
  active_agent db a = true.
Proof.
  intros [Hkey _] Hd (r1 & H1 & A1 & P1 & T1) (r2 & H2 & A2 & P2 & T2).
  unfold active_agent. rewrite bool_decide_true by done. simpl.
  apply andb_true_iff; split; apply negb_true_iff, no_row_false.
  - exists (ag_key_id a), r1. split; [done|]. rewrite A1, P1, T1, (Hkey _ _ H1), !String.eqb_refl.
    by rewrite bool_decide_true.
  - exists kid, r2. split; [done|]. rewrite A2, P2, T2, String.eqb_refl. by rewrite bool_decide_true.
Qed.
