(* ===== verification/Onboarding.v ===== *)
(** * Onboarding: organizations and invitations

    [crates/inari-gateway/src/persistence/onboarding.rs], [onboarding/service.rs] and
    [onboarding/model.rs].  An operator creates an invitation, hands its code to an Agent, and may revoke it;
    an invitation past its deadline shows as expired.  Reading an invitation also marks it expired. *)
From S2P Require Import Prelude Errors Identifiers InvitationCode Protocol Schema Samples AuditLog.

Inductive InvitationState : Set := InvCreated | InvEnrolled | InvOnline | InvExpired | InvFailed | InvRevoked.
Inductive CertificateMode : Set := CertNone | CertController | CertStepCa.
Definition InvitationState_as_str (s : InvitationState) : string :=
  match s with
  | InvCreated => "created" | InvEnrolled => "enrolled" | InvOnline => "online"
  | InvExpired => "expired" | InvFailed => "failed" | InvRevoked => "revoked"
  end.
Definition InvitationState_from (s : StoredInvitationState) : InvitationState :=
  match s with
  | SInvCreated => InvCreated | SInvEnrolled => InvEnrolled | SInvOnline => InvOnline
  | SInvExpired => InvExpired | SInvFailed => InvFailed | SInvRevoked => InvRevoked
  end.

Record InvitationStatus := mkInvitationStatus {
  is_invitation_id : string;
  is_site_id : string;
  is_label : option string;
  is_state : InvitationState;
  is_created_at : instant;
  is_expires_at : instant;
  is_enrolled_at : option instant;
  is_online_at : option instant;
  is_revoked_at : option instant;
  is_failed_at : option instant;
  is_last_error : option string;
  is_agent_id : option string;
  is_key_id : option string;
  is_latest_snapshot : option GatewaySnapshot;
}.

Definition InvitationStatus_try_from (m : InvitationRow) : GatewayResult InvitationStatus :=
  invitation_id ← InvitationId_from_str (iv_invitation_id m);
  site_id ← SiteId_from_str (iv_site_id m);
  Ok (mkInvitationStatus invitation_id site_id (iv_label m) (InvitationState_from (iv_state m))
        (utc_time (iv_created_at m)) (utc_time (iv_expires_at m)) (utc_time <$> iv_enrolled_at m)
        (utc_time <$> iv_online_at m) (utc_time <$> iv_revoked_at m) (utc_time <$> iv_failed_at m)
        (iv_last_error m) (iv_bound_agent_id m) (iv_bound_key_id m) (iv_latest_snapshot m)).

(** ** Repository operations *)
Definition ensure_organization (organization_id organization_name site_id site_name : string) (now : instant)
    : Repo unit :=
  transaction (
    _ ← upsert_organization (mkOrganization organization_id organization_name (stored_time now) (stored_time now));
    upsert_site (mkSite site_id organization_id site_name (stored_time now) (stored_time now))).

(** [label.map(str::trim).filter(|value| !value.is_empty())]. *)
Definition normal_label (label : option string) : option string :=
  value ← label; if is_empty (trim value) then None else Some (trim value).

Definition new_invitation `{Sha256} (code : InvitationCode) (organization_id site_id : string)
    (label : option string) (start end_ : instant) : InvitationRow :=
  mkInvitation (ic_id code) organization_id site_id (normal_label label) (secret_digest code) SInvCreated
    (stored_time start) (stored_time end_) None None None None None None None None None.

Definition create_invitation `{Sha256} (code : InvitationCode) (organization_id site_id : string)
    (label : option string) (start end_ : instant) (audit : AuditContext) (occurred_at : instant) : Repo unit :=
  transaction (
    _ ← insert_invitation (new_invitation code organization_id site_id label start end_);
    insert_audit_event occurred_at
      (mkDraft organization_id (ax_actor_id audit) ActInvitationCreated (ResInvitation (ic_id code)) Succeeded
         (ax_request_id audit))).

Definition expirable (s : StoredInvitationState) : bool :=
  match s with SInvCreated | SInvFailed => true | _ => false end.
Definition overdue (now : instant) (i : InvitationRow) : bool :=
  (iv_expires_at i <? stored_time now) && expirable (iv_state i).
Definition mark_expired (i : InvitationRow) : InvitationRow := i <| iv_state := SInvExpired |>.

Definition expire_invitation (invitation_id : string) (now : instant) : Repo unit :=
  transaction (
    _ ← update_invitations_where (fun i => String.eqb (iv_invitation_id i) invitation_id && overdue now i)
          mark_expired;
    mret tt).

Definition invitation (invitation_id : string) (now : instant) : Repo InvitationStatus :=
  _ ← expire_invitation invitation_id now;
  queries (fun db => row ← ok_or (invitations db !! invitation_id) (NotFound "onboarding invitation was not found");
                     InvitationStatus_try_from row).

Definition list_invitations (now : instant) : Repo (list InvitationStatus) :=
  _ ← transaction (update_invitations_where (overdue now) mark_expired);
  queries (fun db =>
    collect InvitationStatus_try_from (order_by (by_desc iv_created_at) (rows (invitations db)))).

Definition revocable (s : StoredInvitationState) : bool :=
  match s with SInvOnline | SInvRevoked => false | _ => true end.

(** A revocation that affects no row is rolled back; the update of no row changes nothing. *)
Definition revoke_in (invitation_id : string) (now : instant) (organization_id : string) (audit : AuditContext)
    (occurred_at : instant) : Tx (option string) :=
  affected ← update_invitations_where
    (fun i => String.eqb (iv_invitation_id i) invitation_id && revocable (iv_state i))
    (fun i => i <| iv_state := SInvRevoked |> <| iv_revoked_at := Some (stored_time now) |>);
  if (affected : Z) =? 0 then mret None else
  id ← lift (InvitationId_from_str invitation_id);
  _ ← insert_audit_event occurred_at
        (mkDraft organization_id (ax_actor_id audit) ActInvitationRevoked (ResInvitation id) Succeeded
           (ax_request_id audit));
  mret (Some id).

Definition revoke_invitation (invitation_id : string) (now : instant) (organization_id : string)
    (audit : AuditContext) (occurred_at : instant) : Repo InvitationStatus :=
  revoked ← transaction (revoke_in invitation_id now organization_id audit occurred_at);
  match revoked with
  | Some id => invitation id now
  | None =>
      current ← invitation invitation_id now;
      returns match is_state current with
              | InvOnline => Err (Conflict "an online enrollment cannot be revoked through its invitation")
              | InvRevoked => Ok current
              | _ => Err (Conflict "invitation could not be revoked")
              end
  end.

(** ** The onboarding service *)
(** The [url] crate and the range of [chrono] durations. *)
Class UrlOps := {
  url : Type;
  url_path : url -> string;
  url_set_path : url -> string -> url;
  url_clear_query : url -> url;
  url_set_fragment : url -> option string -> url;
  url_join : url -> string -> result string url;
}.
Class ChronoRange := duration_in_range : Z -> bool.

Section Service.
Context `{UrlOps, ChronoRange, Sha256, Base32}.

Record OnboardingService := mkOnboardingService {
  sv_enabled : bool;
  sv_public_base_url : option url;
  sv_controller_name : option string;
  sv_controller_instance_id : string;
  sv_organization_id : string;
  sv_default_site_id : string;
  sv_invitation_ttl : Z;
  sv_supported_protocol_versions : list string;
  sv_certificate_mode : CertificateMode;
  sv_requires_mutual_tls_after_issuance : bool;
}.
Record OnboardingConfig := mkOnboardingConfig {
  oc_organization_id : string;
  oc_organization_name : string;
  oc_default_site_id : string;
  oc_default_site_name : string;
  oc_enabled : bool;
  oc_public_base_url : option url;
  oc_controller_name : option string;
  oc_controller_instance_id : string;
  oc_invitation_ttl : Z;
  oc_supported_protocol_versions : list string;
  oc_certificate_mode : CertificateMode;
  oc_requires_mutual_tls_after_issuance : bool;
}.
Record IssuedInvitation := mkIssuedInvitation {
  ii_invitation_id : string; ii_invitation_url : url; ii_manual_code : string; ii_expires_at : instant;
  ii_state : InvitationState }.
Record InvitationPreview := mkInvitationPreview {
  ip_invitation_id : string; ip_site_id : string; ip_expires_at : instant; ip_state : InvitationState;
  ip_controller_name : option string; ip_controller_instance_id : string;
  ip_supported_protocol_versions : list string; ip_certificate_mode : CertificateMode;
  ip_requires_mutual_tls_after_issuance : bool }.

Definition ends_with_slash (s : string) : bool :=
  match String.get (String.length s - 1) s with Some c => byte_is c 47 | None => false end.
Definition normalize_base_url (u : url) : url :=
  let u := if ends_with_slash (url_path u) then u else url_set_path u (url_path u ++ "/") in
  url_set_fragment (url_clear_query u) None.

Definition service_initialize (config : OnboardingConfig) (now : instant) : Repo OnboardingService :=
  _ ← ensure_organization (oc_organization_id config) (oc_organization_name config) (oc_default_site_id config)
        (oc_default_site_name config) now;
  mret (mkOnboardingService (oc_enabled config) (normalize_base_url <$> oc_public_base_url config)
          (oc_controller_name config) (oc_controller_instance_id config) (oc_organization_id config)
          (oc_default_site_id config) (oc_invitation_ttl config)
          (match oc_supported_protocol_versions config with [] => [ProtocolVersion_current] | l => l end)
          (oc_certificate_mode config) (oc_requires_mutual_tls_after_issuance config)).

Definition ensure_onboarding_enabled (s : OnboardingService) : GatewayResult unit :=
  ensure (sv_enabled s) (Unavailable "managed gateway onboarding is not enabled").

Definition service_create_invitation (s : OnboardingService) (label : option string) (audit : AuditContext)
    (id_entropy secret_entropy : option string) (created_at occurred_at : instant) : Repo IssuedInvitation :=
  _ ← returns (ensure_onboarding_enabled s);
  let label := normal_label label in
  _ ← returns (ensure (match label with Some v => chars_count v <=? 120 | None => true end)
                 (InvalidInput "invitation labels must be 120 characters or fewer"));
  code ← returns (InvitationCode_generate id_entropy secret_entropy);
  _ ← returns (ensure (duration_in_range (sv_invitation_ttl s)) (InvalidInput "invitation TTL is out of range"));
  let expires_at := created_at + sv_invitation_ttl s in
  _ ← create_invitation code (sv_organization_id s) (sv_default_site_id s) label created_at expires_at audit
        occurred_at;
  base ← returns (ok_or (sv_public_base_url s)
                    (Unavailable "managed onboarding public_base_url is not configured"));
  joined ← returns (match url_join base ("setup/" ++ ic_id code) with
                    | Ok u => Ok u
                    | Err e => Err (InvalidInput ("invalid public onboarding URL: " ++ e))
                    end);
  mret (mkIssuedInvitation (ic_id code) (url_set_fragment joined (Some ("code=" ++ code_manual code)))
          (code_manual code) expires_at InvCreated).

Definition service_invitations (s : OnboardingService) (now : instant) : Repo (list InvitationStatus) :=
  _ ← returns (ensure_onboarding_enabled s); list_invitations now.

Definition service_revoke_invitation (s : OnboardingService) (invitation_id : string) (audit : AuditContext)
    (now occurred_at : instant) : Repo InvitationStatus :=
  _ ← returns (ensure_onboarding_enabled s);
  revoke_invitation invitation_id now (sv_organization_id s) audit occurred_at.

Definition service_invitation_preview (s : OnboardingService) (invitation_id : string) (now : instant)
    : Repo InvitationPreview :=
  _ ← returns (ensure_onboarding_enabled s);
  i ← invitation invitation_id now;
  mret (mkInvitationPreview (is_invitation_id i) (is_site_id i) (is_expires_at i) (is_state i)
          (sv_controller_name s) (sv_controller_instance_id s) (sv_supported_protocol_versions s)
          (sv_certificate_mode s) (sv_requires_mutual_tls_after_issuance s)).
End Service.
