(* ===== verification/Enrollment.v ===== *)
(** * Enrollment of an Agent

    [crates/inari-gateway/src/persistence/enrollment.rs].  One transaction checks the invitation's secret,
    attempt limit, deadline, scope and state, then writes the Agent, its devices, its verification keys and
    the invitation; an enrolled invitation replays for the same request and writes nothing.  [prepare] builds
    the response and is a parameter; its result is given. *)
From S2P Require Import Prelude Errors Identifiers InvitationCode Protocol Schema Samples AuditLog Security.
From S2P Require Import Inventory Onboarding RouterPolicy Keys.

Record InvitationAttemptLimit := mkAttemptLimit { al_window : Z; al_max_failures : Z }.
Record AgentEnrollmentRecord := mkEnrollment {
  er_agent_id : string;
  er_organization_id : string;
  er_site_id : string;
  er_key_id : string;
  er_jwk_thumbprint : string;
  er_public_jwk : Jwk;
  er_dispatch_key : DispatchEncryptionKey;
  er_state_signing_jwk : Jwk;
  er_namespace : string;
  er_protocol_version : string;
  er_controller_actions : list string;
  er_csr_fingerprint : string;
}.
Record PreparedEnrollment (T : Type) := mkPreparedEnrollment { pe_value : T; pe_enrolled_at : instant }.
Arguments mkPreparedEnrollment {T} _ _.
Arguments pe_value {T} _.
Arguments pe_enrolled_at {T} _.

(** The facts an enrollment response depends on, and their canonical JSON ([serde_json_canonicalizer]). *)
Record EnrollmentFacts := mkFacts {
  ft_agent_id : string;
  ft_key_id : string;
  ft_csr_fingerprint : string;
  ft_transport_key_thumbprint : string;
  ft_state_key_thumbprint : string;
  ft_dispatch_key : DispatchEncryptionKey;
  ft_organization_id : string;
  ft_site_id : string;
  ft_protocol_version : string;
  ft_namespace : string;
  ft_controller_actions : list string;
}.
Class FactsCodec := facts_canonical : EnrollmentFacts -> option string.

Definition rejected_secret : GatewayError := Forbidden "enrollment invitation was not accepted".
Definition unavailable : GatewayError := Forbidden "enrollment invitation is unavailable".

Section Enrollment.
Context `{Sha256, Thumbprint, FactsCodec, ChronoRange, InventoryCodec}.

Definition enrollment_facts (e : AgentEnrollmentRecord) : EnrollmentFacts :=
  mkFacts (er_agent_id e) (er_key_id e) (er_csr_fingerprint e) (er_jwk_thumbprint e)
    (jwk_thumbprint (er_state_signing_jwk e)) (er_dispatch_key e) (er_organization_id e) (er_site_id e)
    (er_protocol_version e) (er_namespace e) (er_controller_actions e).
Definition enrollment_fingerprint (e : AgentEnrollmentRecord) : GatewayResult string :=
  bytes ← ok_or (facts_canonical (enrollment_facts e)) Serialization;
  Ok (sha256 bytes).

Definition attempts_of (db : Database) (invitation_id : string) : gset (string * instant) :=
  filter (fun a => a.1 = invitation_id) (invitation_attempts db).

Definition recent_failures (code : InvitationCode) (now window : Z) : Tx Z :=
  _ ← require (duration_in_range window) (InvalidInput "failed-attempt window is out of range");
  let cutoff := now - window in
  _ ← delete_attempts_where (fun a => String.eqb a.1 (ic_id code) && (a.2 <? stored_time cutoff));
  db ← get;
  mret (Z.of_nat (size (attempts_of db (ic_id code)))).

Definition replayed_enrollment (invitation : InvitationRow) (e : AgentEnrollmentRecord) (fingerprint : string)
    : Tx instant :=
  _ ← require (bool_decide (iv_bound_agent_id invitation = Some (er_agent_id e)))
        (Forbidden "enrollment invitation is bound to another Agent");
  stored ← expect (iv_enrollment_fingerprint invitation)
             (Conflict "this enrollment cannot be retried; create a new invitation");
  _ ← require (negb (negb (bool_decide (iv_bound_key_id invitation = Some (er_key_id e)))
                || negb (String.eqb stored fingerprint)))
        (Conflict "enrollment retry does not match the original request");
  enrolled_at ← expect (iv_enrolled_at invitation) (CorruptState "enrolled invitation has no time");
  db ← get;
  _ ← require (match agents db !! er_agent_id e with
               | Some a => String.eqb (ag_key_id a) (er_key_id e) && (ag_last_enrolled_at a =? enrolled_at)
               | None => false
               end) (Conflict "a later enrollment replaced this invitation");
  mret (utc_time enrolled_at).

Definition register_verification_key (agent_id : string) (purpose : AgentKeyPurpose) (public_jwk : Jwk)
    (registered_at : instant) : Tx unit :=
  key_id ← expect (jwk_key_id public_jwk) (InvalidInput "verification keys require a kid");
  let thumbprint := jwk_thumbprint public_jwk in
  db ← get;
  _ ← require (match agent_verification_keys db !! key_id with
               | Some existing =>
                   negb (negb (String.eqb (vk_agent_id existing) agent_id)
                         || negb (bool_decide (vk_purpose existing = purpose))
                         || negb (String.eqb (vk_jwk_thumbprint existing) thumbprint)
                         || bool_decide (is_Some (vk_retired_at existing)))
               | None => true
               end) (Conflict "verification key identity is immutable and retirement is permanent");
  _ ← retire_keys_where (fun k => String.eqb (vk_agent_id k) agent_id && bool_decide (vk_purpose k = purpose)
                            && negb (String.eqb (vk_key_id k) key_id) && active_key k) registered_at;
  _ ← try_insert_verification_key (mkVerificationKey key_id agent_id purpose thumbprint public_jwk registered_at None);
  db ← get;
  registered ← expect (agent_verification_keys db !! key_id)
                 (Conflict "verification key already has another identity");
  require (negb (negb (String.eqb (vk_agent_id registered) agent_id)
             || negb (bool_decide (vk_purpose registered = purpose))
             || negb (String.eqb (vk_jwk_thumbprint registered) thumbprint)))
    (Conflict "verification key owner and purpose are immutable").

Definition enrolled_agent (e : AgentEnrollmentRecord) (enrolled_at : instant) : AgentRow :=
  mkAgent (er_agent_id e) (er_organization_id e) (er_site_id e) (er_key_id e) (er_jwk_thumbprint e)
    (er_public_jwk e) (Some (er_dispatch_key e)) (er_namespace e) (er_protocol_version e)
    (er_controller_actions e) enrolled_at enrolled_at.

Definition bind_invitation (e : AgentEnrollmentRecord) (snapshot : GatewaySnapshot) (fingerprint : string)
    (enrolled_at : instant) (i : InvitationRow) : InvitationRow :=
  i <| iv_state := SInvEnrolled |> <| iv_enrolled_at := Some enrolled_at |>
    <| iv_bound_agent_id := Some (er_agent_id e) |> <| iv_bound_key_id := Some (er_key_id e) |>
    <| iv_enrollment_fingerprint := Some fingerprint |> <| iv_latest_snapshot := Some snapshot |>.

Definition enrolled_event (e : AgentEnrollmentRecord) : AuditEventDraft :=
  mkDraft (er_organization_id e) (ActorId_from_agent (er_agent_id e)) ActAgentEnrolled
    (ResAgent (er_agent_id e)) Succeeded None.
Definition persist_enrollment (invitation : InvitationRow) (e : AgentEnrollmentRecord) (snapshot : GatewaySnapshot)
    (fingerprint : string) (enrolled_at occurred_at : instant) : Tx unit :=
  inventory ← lift (inventory_parse (rt_inventory (gs_runtime snapshot)));
  let enrolled_at := stored_time enrolled_at in
  _ ← upsert_agent (enrolled_agent e enrolled_at);
  _ ← delete_devices_where (fun d => String.eqb (dv_agent_id d) (er_agent_id e));
  _ ← inventory_apply inventory (er_agent_id e) (er_site_id e) (gs_generated_at snapshot);
  _ ← register_verification_key (er_agent_id e) TransportIdentity (er_public_jwk e) enrolled_at;
  _ ← register_verification_key (er_agent_id e) AgentState (er_state_signing_jwk e) enrolled_at;
  _ ← delete_attempts_where (fun a => String.eqb a.1 (iv_invitation_id invitation));
  _ ← update_invitation (iv_invitation_id invitation) (bind_invitation e snapshot fingerprint enrolled_at);
  insert_audit_event occurred_at (enrolled_event e).

(** The clock: [ck_now] after the invitation is locked, [ck_replay] before a replay is granted,
    [ck_database] the transaction's own time. *)
Record EnrollClock := mkEnrollClock { ck_now : instant; ck_replay : instant; ck_database : instant }.

(** The transaction.  Its value is the reply of the method: a wrong secret commits the attempt and replies
    with an error; every other error rolls back. *)
Definition enroll_in {T} (code : InvitationCode) (e : AgentEnrollmentRecord) (snapshot : GatewaySnapshot)
    (limit : InvitationAttemptLimit) (prepare : GatewayResult T) (clock : EnrollClock)
    : Tx (GatewayResult (PreparedEnrollment T)) :=
  db ← get;
  invitation ← expect (invitations db !! ic_id code) rejected_secret;
  let now := trunc_micros (ck_now clock) in
  failures ← recent_failures code now (al_window limit);
  _ ← require (failures <? Z.max (al_max_failures limit) 1) (Forbidden "too many failed invitation attempts");
  if negb (String.eqb (iv_secret_digest invitation) (secret_digest code))
  then (_ ← insert_invitation_attempt (iv_invitation_id invitation) (stored_time now);
        mret (Err rejected_secret))
  else
  _ ← require (now <? utc_time (iv_expires_at invitation)) unavailable;
  _ ← require (String.eqb (iv_organization_id invitation) (er_organization_id e)
               && String.eqb (iv_site_id invitation) (er_site_id e))
        (Forbidden "enrollment invitation belongs to another Organization or Site");
  fingerprint ← lift (enrollment_fingerprint e);
  match iv_state invitation with
  | SInvCreated =>
      value ← lift prepare;
      _ ← persist_enrollment invitation e snapshot fingerprint now (ck_database clock);
      mret (Ok (mkPreparedEnrollment value now))
  | SInvEnrolled =>
      enrolled_at ← replayed_enrollment invitation e fingerprint;
      _ ← require (ck_replay clock <? utc_time (iv_expires_at invitation)) unavailable;
      value ← lift prepare;
      mret (Ok (mkPreparedEnrollment value enrolled_at))
  | _ => throw unavailable
  end.

Definition enroll_agent {T} (code : InvitationCode) (e : AgentEnrollmentRecord) (snapshot : GatewaySnapshot)
    (limit : InvitationAttemptLimit) (prepare : GatewayResult T) (clock : EnrollClock)
    : Repo (PreparedEnrollment T) :=
  reply ← transaction (enroll_in code e snapshot limit prepare clock);
  returns reply.

(** ** Lemmas *)
Definition fresh_attempts (db : Database) (id : string) (cutoff : instant) : gset (string * instant) :=
  filter (fun a => String.eqb a.1 id && (a.2 <? cutoff) = false) (invitation_attempts db).
Definition without_old_attempts (db : Database) (id : string) (cutoff : instant) : Database :=
  db <| invitation_attempts := fresh_attempts db id cutoff |>.
Definition failures_since (db : Database) (id : string) (cutoff : instant) : Z :=
  Z.of_nat (size (attempts_of (without_old_attempts db id cutoff) id)).

Lemma recent_failures_Ok code now window db n db' : recent_failures code now window db = Ok (n, db') ->
  db' = without_old_attempts db (ic_id code) (stored_time (now - window)) /\
  n = failures_since db (ic_id code) (stored_time (now - window)).
Proof.
  unfold recent_failures. intros Hrun. tx_inv Hrun.
  match goal with Hd : delete_attempts_where _ _ = _ |- _ => apply delete_attempts_where_Ok in Hd as -> end. done.
Qed.

Lemma recent_failures_eq code now window db : duration_in_range window = true ->
  recent_failures code now window db =
    Ok (failures_since db (ic_id code) (stored_time (now - window)),
        without_old_attempts db (ic_id code) (stored_time (now - window))).
Proof. intros Hr. unfold recent_failures, require. rewrite Hr. reflexivity. Qed.

#[global] Instance replayed_enrollment_read_only i e f : ReadOnly (replayed_enrollment i e f).
Proof. unfold replayed_enrollment. steps. Qed.
Lemma replayed_enrollment_Ok i e f db t db' : replayed_enrollment i e f db = Ok (t, db') ->
  iv_bound_agent_id i = Some (er_agent_id e) /\ iv_bound_key_id i = Some (er_key_id e) /\
  iv_enrollment_fingerprint i = Some f /\ iv_enrolled_at i = Some t /\ db' = db /\
  exists a, agents db !! er_agent_id e = Some a /\ ag_key_id a = er_key_id e /\ ag_last_enrolled_at a = t.
Proof.
  unfold replayed_enrollment. intros Hrun. tx_inv Hrun. bools.
  destruct (agents _ !! er_agent_id e) as [ar|] eqn:Ha; [|done]. bools. rewrite !String.eqb_eq in *. subst.
  split_and!; eauto.
Qed.

(** The three ways the transaction commits. *)
Lemma enroll_in_Ok {T} code e snapshot limit (prepare : GatewayResult T) clock db reply db' :
  enroll_in code e snapshot limit prepare clock db = Ok (reply, db') ->
  let now := trunc_micros (ck_now clock) in
  let cutoff := stored_time (now - al_window limit) in
  let db0 := without_old_attempts db (ic_id code) cutoff in
  exists i, invitations db !! ic_id code = Some i /\
    failures_since db (ic_id code) cutoff < Z.max (al_max_failures limit) 1 /\
    ((iv_secret_digest i <> secret_digest code /\ reply = Err rejected_secret /\
      insert_invitation_attempt (iv_invitation_id i) (stored_time now) db0 = Ok (tt, db')) \/
     (iv_secret_digest i = secret_digest code /\ now < iv_expires_at i /\
      iv_organization_id i = er_organization_id e /\ iv_site_id i = er_site_id e /\
      exists fingerprint value, enrollment_fingerprint e = Ok fingerprint /\ prepare = Ok value /\
        ((iv_state i = SInvCreated /\ reply = Ok (mkPreparedEnrollment value now) /\
          persist_enrollment i e snapshot fingerprint now (ck_database clock) db0 = Ok (tt, db')) \/
         (iv_state i = SInvEnrolled /\ db' = db0 /\ ck_replay clock < iv_expires_at i /\
          exists t, reply = Ok (mkPreparedEnrollment value t) /\
            replayed_enrollment i e fingerprint db0 = Ok (t, db0))))).
Proof.
  unfold enroll_in. intros Hrun. cbv zeta in *.
  apply tx_bind_Ok in Hrun as (db1 & s1 & [-> ->]%get_Ok & Hrun).
  apply tx_bind_Ok in Hrun as (i & s2 & [Hi ->]%expect_Ok & Hrun).
  apply tx_bind_Ok in Hrun as (n & s3 & [-> ->]%recent_failures_Ok & Hrun).
  apply tx_bind_Ok in Hrun as (u1 & s4 & [Hlim ->]%require_Ok & Hrun).
  exists i. bools. split; [done|]. split; [done|].
  destruct (String.eqb_spec (iv_secret_digest i) (secret_digest code)) as [Hs|Hs]; simpl in Hrun.
  - right. apply tx_bind_Ok in Hrun as (u2 & s5 & [Hexp ->]%require_Ok & Hrun).
    apply tx_bind_Ok in Hrun as (u3 & s6 & [Hscope ->]%require_Ok & Hrun).
    apply tx_bind_Ok in Hrun as (fp & s7 & [Hfp ->]%lift_Ok & Hrun).
    bools. rewrite !String.eqb_eq in *. split_and!; try done. exists fp.
    destruct (iv_state i) eqn:Hst; try by apply throw_Ok in Hrun.
    + apply tx_bind_Ok in Hrun as (v & s8 & [Hv ->]%lift_Ok & Hrun).
      apply tx_bind_Ok in Hrun as ([] & s9 & Hp & [-> ->]%tx_ret_Ok). exists v. eauto 10.
    + apply tx_bind_Ok in Hrun as (t & s8 & Ht & Hrun).
      pose proof (replayed_enrollment_read_only _ _ _ _ _ _ Ht) as <-.
      apply tx_bind_Ok in Hrun as (u4 & s9 & [Hx ->]%require_Ok & Hrun).
      apply tx_bind_Ok in Hrun as (v & s10 & [Hv ->]%lift_Ok & [-> ->]%tx_ret_Ok). bools.
      exists v. split_and!; try done. right. eauto 10.
  - left. apply tx_bind_Ok in Hrun as ([] & s5 & Hatt & [-> ->]%tx_ret_Ok). done.
Qed.

(** *** Keys *)
#[global] Instance register_key_progress a p j t : Steps key_progress (register_verification_key a p j t).
Proof.
  unfold register_verification_key. steps.
  - apply retire_keys_progress. intros r Hr. by bools.
  - apply try_insert_key_progress.
Qed.
#[global] Instance register_keys_wf a p j t : Keeps keys_wf (register_verification_key a p j t).
Proof. unfold register_verification_key. steps; [apply retire_keys_wf|apply try_insert_keys_wf]. Qed.
#[global] Instance register_key_router a p j t : Steps router_progress (register_verification_key a p j t).
Proof.
  unfold register_verification_key. steps.
  - unfold retire_keys_where. steps. apply steps_modify. intros s. by apply same_router_progress.
  - unfold try_insert_verification_key, verification_key_conflict, references. steps. apply steps_modify. intros s. by apply same_router_progress.
Qed.

(** A registered key serves its purpose, and is the only one that does. *)
Lemma register_verification_key_serves a p j t db u db' :
  keys_wf db -> register_verification_key a p j t db = Ok (u, db') ->
  exists kid, jwk_key_id j = Some kid /\ serves db' a p kid.
Proof.
  intros Hwf Hrun. unfold register_verification_key in Hrun.
  apply tx_bind_Ok in Hrun as (kid & s1 & [Hkid ->]%expect_Ok & Hrun). cbv zeta in Hrun.
  apply tx_bind_Ok in Hrun as (db0 & s2 & [-> ->]%get_Ok & Hrun).
  apply tx_bind_Ok in Hrun as (u1 & s3 & [Hold ->]%require_Ok & Hrun).
  apply tx_bind_Ok in Hrun as (n & s4 & [Eret _]%retire_keys_where_Ok & Hrun).
  apply tx_bind_Ok in Hrun as (b & s5 & Hins & Hrun).
  apply tx_bind_Ok in Hrun as (db1 & s6 & [-> ->]%get_Ok & Hrun).
  apply tx_bind_Ok in Hrun as (reg & s7 & [Hreg ->]%expect_Ok & [Hsame ->]%require_Ok).
  exists kid. split; [done|]. exists reg. bools. rewrite !String.eqb_eq in *. split_and!; try done.
  apply try_insert_verification_key_Ok in Hins as [(_ & ->)|(_ & _ & _ & _ & E)].
  - rewrite Eret, lookup_update_where in Hreg. apply fmap_Some in Hreg as (r0 & Hr0 & ->).
    rewrite Hr0 in Hold. bools. destruct Hwf as [Hkey _]. rewrite (Hkey _ _ Hr0), String.eqb_refl.
    rewrite andb_false_r. simpl. apply active_key_true. by apply eq_None_not_Some.
  - rewrite E in Hreg. simpl in Hreg. rewrite lookup_insert_eq in Hreg. injection Hreg as <-. reflexivity.
Qed.
Lemma register_key_keeps_serving a p j t q kid db u db' :
  q <> p -> register_verification_key a p j t db = Ok (u, db') ->
  serves db a q kid -> serves db' a q kid.
Proof.
  intros Hne Hrun (r & Hr & Ha & Hq & Hact). unfold register_verification_key in Hrun.
  apply tx_bind_Ok in Hrun as (k0 & s1 & [_ ->]%expect_Ok & Hrun). cbv zeta in Hrun.
  apply tx_bind_Ok in Hrun as (db0 & s2 & [-> ->]%get_Ok & Hrun).
  apply tx_bind_Ok in Hrun as (u1 & s3 & [_ ->]%require_Ok & Hrun).
  apply tx_bind_Ok in Hrun as (n & s4 & [Eret _]%retire_keys_where_Ok & Hrun).
  apply tx_bind_Ok in Hrun as (b & s5 & Hins & Hrun).
  apply tx_bind_Ok in Hrun as (db1 & s6 & [-> ->]%get_Ok & Hrun).
  apply tx_bind_Ok in Hrun as (reg & s7 & [_ ->]%expect_Ok & [_ ->]%require_Ok).
  assert (agent_verification_keys s4 !! kid = Some r) as Hs4.
  { rewrite Eret, lookup_update_where, Hr. simpl. rewrite Hq, bool_decide_false by done.
    by rewrite andb_false_r. }
  exists r. split; [|done].
  apply try_insert_verification_key_Ok in Hins as [(_ & ->)|(_ & Hn & _ & _ & ->)]; [done|].
  by rewrite lookup_insert_ne by congruence.
Qed.

(** *** What an enrollment writes *)
#[local] Hint Unfold register_verification_key : frames.

Lemma agents_constraints_Ok row db u db' : agents_constraints row db = Ok (u, db') ->
  is_Some (organizations db !! ag_organization_id row) /\ is_Some (sites db !! ag_site_id row) /\ db' = db.
Proof. unfold agents_constraints, unique, references, exists_in. intros Hrun. tx_inv Hrun. by bools. Qed.
Lemma upsert_agent_Ok row db u db' : upsert_agent row db = Ok (u, db') ->
  agents db' = <[ag_agent_id row := row <| ag_enrolled_at := match agents db !! ag_agent_id row with
                                                             | Some old => ag_enrolled_at old
                                                             | None => ag_enrolled_at row end |>]> (agents db) /\
  is_Some (organizations db !! ag_organization_id row) /\ is_Some (sites db !! ag_site_id row).
Proof.
  unfold upsert_agent. intros Hrun.
  apply tx_bind_Ok in Hrun as (db0 & s1 & [-> ->]%get_Ok & Hrun).
  apply tx_bind_Ok in Hrun as (u1 & s2 & (Ho & Hsi & ->)%agents_constraints_Ok & Hrun).
  destruct (agents db !! ag_agent_id row) as [old|] eqn:Hold;
    apply tx_bind_Ok in Hrun as (u5 & s6 & [_ ->]%modify_Ok & Htrig).
  - assert (Frame agents (invalidate_on_agent_update old (row <| ag_enrolled_at := ag_enrolled_at old |>))) as Hf by frame.
    rewrite (Hf _ _ _ Htrig). done.
  - assert (Frame agents (invalidate_on_agent_insert row)) as Hf by frame.
    rewrite (Hf _ _ _ Htrig). simpl. destruct row. done.
Qed.

(** The row of an Agent after its enrollment; the time of its first one stays. *)
Definition enrolled_row (e : AgentEnrollmentRecord) (t : instant) (old : option AgentRow) : AgentRow :=
  enrolled_agent e t <| ag_enrolled_at := match old with Some a => ag_enrolled_at a | None => t end |>.
Lemma persist_enrollment_Ok i e snapshot fp t occ db u db' :
  persist_enrollment i e snapshot fp t occ db = Ok (u, db') ->
  (exists row, invitations db !! iv_invitation_id i = Some row /\
     invitations db' = <[iv_invitation_id i := bind_invitation e snapshot fp (stored_time t) row]> (invitations db)) /\
  agents db' = <[er_agent_id e := enrolled_row e (stored_time t) (agents db !! er_agent_id e)]> (agents db) /\
  invitation_attempts db' = filter (fun x => String.eqb x.1 (iv_invitation_id i) = false) (invitation_attempts db) /\
  (keys_wf db -> keys_wf db' /\
     (exists k1 k2, jwk_key_id (er_public_jwk e) = Some k1 /\ jwk_key_id (er_state_signing_jwk e) = Some k2 /\
        serves db' (er_agent_id e) TransportIdentity k1 /\ serves db' (er_agent_id e) AgentState k2)).
Proof.
  unfold persist_enrollment. intros Hrun.
  apply tx_bind_Ok in Hrun as (items & s1 & [_ ->]%lift_Ok & Hrun). cbv zeta in Hrun.
  apply tx_bind_Ok in Hrun as (u1 & s2 & Hag & Hrun).
  apply tx_bind_Ok in Hrun as (u2 & s3 & Hdel & Hrun).
  apply tx_bind_Ok in Hrun as (u3 & s4 & Hinv & Hrun).
  apply tx_bind_Ok in Hrun as (u4 & s5 & Hk1 & Hrun).
  apply tx_bind_Ok in Hrun as (u5 & s6 & Hk2 & Hrun).
  apply tx_bind_Ok in Hrun as (u6 & s7 & Hatt & Hrun).
  apply tx_bind_Ok in Hrun as (u7 & s8 & Hupd & Haud).
  pose proof (steps_run (R := same (fun db => (invitations db, invitation_attempts db))) _ _ _ Hag) as [= I1 T1].
  pose proof (steps_run (R := same (fun db => (invitations db, invitation_attempts db))) _ _ _ Hdel) as [= I2 T2].
  pose proof (steps_run (R := same (fun db => (invitations db, invitation_attempts db))) _ _ _ Hinv) as [= I3 T3].
  pose proof (steps_run (R := same (fun db => (invitations db, invitation_attempts db))) _ _ _ Hk1) as [= I4 T4].
  pose proof (steps_run (R := same (fun db => (invitations db, invitation_attempts db))) _ _ _ Hk2) as [= I5 T5].
  pose proof (steps_run (R := same agents) _ _ _ Hdel) as A2.
  pose proof (steps_run (R := same agents) _ _ _ Hinv) as A3.
  pose proof (steps_run (R := same agents) _ _ _ Hk1) as A4.
  pose proof (steps_run (R := same agents) _ _ _ Hk2) as A5.
  pose proof (steps_run (R := same agent_verification_keys) _ _ _ Hag) as K1.
  pose proof (steps_run (R := same agent_verification_keys) _ _ _ Hdel) as K2.
  pose proof (steps_run (R := same agent_verification_keys) _ _ _ Hinv) as K3.
  unfold same in *.
  apply delete_attempts_where_Ok in Hatt as ->. apply update_invitation_Ok in Hupd as (row & Hrow & ->).
  apply insert_audit_event_Ok in Haud as [_ ->]. simpl in *.
  apply upsert_agent_Ok in Hag as [Ag _]. simpl in Ag.
  split_and!.
  - exists row. rewrite I5, I4, I3, I2, I1 in Hrow |- *. done.
  - by rewrite A5, A4, A3, A2, Ag.
  - by rewrite T5, T4, T3, T2, T1.
  - intros Hwf. assert (keys_wf s4) as W4 by (unfold keys_wf; by rewrite K3, K2, K1).
    destruct (register_verification_key_serves _ _ _ _ _ _ _ W4 Hk1) as (k1 & J1 & S1).
    pose proof (register_keys_wf _ _ _ _ _ _ _ Hk1 W4) as W5.
    destruct (register_verification_key_serves _ _ _ _ _ _ _ W5 Hk2) as (k2 & J2 & S2).
    pose proof (register_keys_wf _ _ _ _ _ _ _ Hk2 W5) as W6.
    split; [exact W6|]. exists k1, k2. split_and!; try done.
    assert (TransportIdentity <> AgentState) as Hne by done.
    exact (register_key_keeps_serving _ _ _ _ TransportIdentity k1 _ _ _ Hne Hk2 S1).
Qed.

(** The tables that an enrollment does not touch. *)
Definition untouched (db : Database) :=
  (organizations db, sites db, commands db, publications db, managed_work_preflights db, managed_work db,
   managed_payloads db, agent_state_observations db).
(** The Devices are those of the snapshot, the audit log has one event more, and nothing else is written. *)
Lemma persist_enrollment_rest i e snapshot fp t occ db u db' : devices_wf db ->
  persist_enrollment i e snapshot fp t occ db = Ok (u, db') ->
  (exists items, inventory_parse (rt_inventory (gs_runtime snapshot)) = Ok items /\
     (forall a d, a <> er_agent_id e -> devices db' !! (a, d) = devices db !! (a, d)) /\
     (forall d, devices db' !! (er_agent_id e, d) =
        projected (er_agent_id e) (er_site_id e) (gs_generated_at snapshot) None <$> item_for d items)) /\
  audit_events db' = <[audit_event_id_seq db + 1 := audit_event_row occ (enrolled_event e) (audit_event_id_seq db + 1)]> (audit_events db) /\
  untouched db' = untouched db.
Proof.
  unfold persist_enrollment. intros Hwf Hrun.
  apply tx_bind_Ok in Hrun as (items & s1 & [Hparse ->]%lift_Ok & Hrun). cbv zeta in Hrun.
  apply tx_bind_Ok in Hrun as (u1 & s2 & Hag & Hrun).
  apply tx_bind_Ok in Hrun as (u2 & s3 & [_ ->]%modify_Ok & Hrun).
  apply tx_bind_Ok in Hrun as (u3 & s4 & Hinv & Hrun).
  apply tx_bind_Ok in Hrun as (u4 & s5 & Hk1 & Hrun).
  apply tx_bind_Ok in Hrun as (u5 & s6 & Hk2 & Hrun).
  apply tx_bind_Ok in Hrun as (u6 & s7 & ->%delete_attempts_where_Ok & Hrun).
  apply tx_bind_Ok in Hrun as (u7 & s8 & (row & _ & ->)%update_invitation_Ok & [_ ->]%insert_audit_event_Ok).
  pose proof (steps_run (R := same (fun db => (devices db, audit_events db, audit_event_id_seq db, untouched db))) _ _ _ Hag) as [= D1 A1 Q1 F1].
  pose proof (steps_run (R := same (fun db => (audit_events db, audit_event_id_seq db, untouched db))) _ _ _ Hinv) as [= A3 Q3 F3].
  pose proof (steps_run (R := same (fun db => (devices db, audit_events db, audit_event_id_seq db, untouched db))) _ _ _ Hk1) as [= D4 A4 Q4 F4].
  pose proof (steps_run (R := same (fun db => (devices db, audit_events db, audit_event_id_seq db, untouched db))) _ _ _ Hk2) as [= D5 A5 Q5 F5].
  apply (inventory_apply_exact (rt_inventory (gs_runtime snapshot))) in Hinv as (_ & Hother & Hown); [| |done].
  2:{ intros k d. simpl. rewrite D1. intros [Hd _]%lookup_delete_where. by apply Hwf. }
  simpl in *. split_and!.
  - exists items. rewrite D5, D4. split_and!; [done| |].
    + intros a d Hne. rewrite Hother by done. rewrite D1, lookup_delete_where_eq.
      destruct (devices db !! (a, d)) as [row'|] eqn:Hd; [|done]. pose proof (Hwf _ _ Hd) as [= Ea _]. simpl.
      by rewrite (proj2 (String.eqb_neq _ _)) by congruence.
    + intros d. rewrite Hown, D1, lookup_delete_where_eq.
      destruct (devices db !! (er_agent_id e, d)) as [row'|] eqn:Hd; [|done]. pose proof (Hwf _ _ Hd) as [= Ea _]. simpl.
      by rewrite Ea, String.eqb_refl.
  - by rewrite A5, A4, A3, A1, Q5, Q4, Q3, Q1.
  - unfold untouched in *. simpl in *. congruence.
Qed.

(** *** Theorems *)
(** What a first enrollment at [t] makes of the database. *)
Definition enrolls (code : InvitationCode) (e : AgentEnrollmentRecord) (snapshot : GatewaySnapshot) (t occurred_at : instant)
    (i : InvitationRow) (db db' : Database) : Prop :=
  (exists fingerprint, enrollment_fingerprint e = Ok fingerprint /\
     invitations db' = <[ic_id code := bind_invitation e snapshot fingerprint t i]> (invitations db)) /\
  agents db' = <[er_agent_id e := enrolled_row e t (agents db !! er_agent_id e)]> (agents db) /\
  (exists k1 k2, jwk_key_id (er_public_jwk e) = Some k1 /\ jwk_key_id (er_state_signing_jwk e) = Some k2 /\
     serves db' (er_agent_id e) TransportIdentity k1 /\ serves db' (er_agent_id e) AgentState k2) /\
  (exists items, inventory_parse (rt_inventory (gs_runtime snapshot)) = Ok items /\
     (forall a d, a <> er_agent_id e -> devices db' !! (a, d) = devices db !! (a, d)) /\
     (forall d, devices db' !! (er_agent_id e, d) =
        projected (er_agent_id e) (er_site_id e) (gs_generated_at snapshot) None <$> item_for d items)) /\
  invitation_attempts db' = filter (fun x => String.eqb x.1 (ic_id code) = false) (invitation_attempts db) /\
  audit_events db' = <[audit_event_id_seq db + 1 := audit_event_row occurred_at (enrolled_event e) (audit_event_id_seq db + 1)]> (audit_events db) /\
  untouched db' = untouched db.
Lemma insert_invitation_attempt_Ok id t db u db' : insert_invitation_attempt id t db = Ok (u, db') ->
  (id, t) ∉ invitation_attempts db /\
  db' = db <| invitation_attempts := {[(id, t)]} ∪ invitation_attempts db |>.
Proof. unfold insert_invitation_attempt, invitation_attempts_constraints, unique, references. intros Hrun. tx_inv Hrun. by bools. Qed.

Definition cutoff (limit : InvitationAttemptLimit) (clock : EnrollClock) : instant :=
  stored_time (trunc_micros (ck_now clock) - al_window limit).

Lemma enroll_agent_run {T} code e snapshot limit (prepare : GatewayResult T) clock db r db' :
  enroll_agent code e snapshot limit prepare clock db = (r, db') ->
  (exists reply, r = reply /\ enroll_in code e snapshot limit prepare clock db = Ok (reply, db')) \/
  (exists err, r = Err err /\ db' = db /\ enroll_in code e snapshot limit prepare clock db = Err err).
Proof.
  unfold enroll_agent, transaction, returns. unfold mbind, repo_bind.
  destruct (enroll_in _ _ _ _ _ _ db) as [[reply db1]|err]; intros [= <- <-]; eauto.
Qed.

Lemma fresh_attempts_dropped db id c :
  filter (fun x => String.eqb x.1 id = false) (fresh_attempts db id c) =
  filter (fun x => String.eqb x.1 id = false) (invitation_attempts db).
Proof.
  unfold fresh_attempts. apply set_eq. intros x. rewrite !elem_of_filter. split; [tauto|]. intros [Hx Hin]. split; [done|]. split; [|done]. apply andb_false_iff. by left.
Qed.
Definition invitations_wf (db : Database) : Prop :=
  map_Forall (fun k i => iv_invitation_id i = k) (invitations db).

Lemma persist_enrolls code e snapshot i fp now occ c db db' : invitations_wf db -> keys_wf db -> devices_wf db ->
  invitations db !! ic_id code = Some i -> enrollment_fingerprint e = Ok fp ->
  persist_enrollment i e snapshot fp (trunc_micros now) occ (without_old_attempts db (ic_id code) c) = Ok (tt, db') ->
  enrolls code e snapshot (trunc_micros now) occ i db db'.
Proof.
  intros Hwf Hk Hd Hi Hfp Hp. assert (devices_wf (without_old_attempts db (ic_id code) c)) as Hd0 by done.
  destruct (persist_enrollment_rest _ _ _ _ _ _ _ _ _ Hd0 Hp) as (Hdev & Haud & Hrest).
  apply persist_enrollment_Ok in Hp as ((row & Hrow & Einv) & Hag & Hatt & Hkeys).
  pose proof (Hwf _ _ Hi) as Hid. simpl in Hid, Hrow. rewrite Hid in *. assert (row = i) as -> by congruence.
  unfold stored_time in *. rewrite trunc_micros_idemp in *. destruct (Hkeys Hk) as [_ Hserve].
  split_and!; [by exists fp|done|done|done| |done|done]. rewrite Hatt. simpl. apply fresh_attempts_dropped.
Qed.

(** Too many recent wrong secrets close the invitation for the rest of the window: every attempt,
    the right secret included, is refused and nothing changes. *)
Theorem attempt_limit_blocks_correct_secret {T} code e snapshot limit (prepare : GatewayResult T) clock db i :
  invitations db !! ic_id code = Some i -> duration_in_range (al_window limit) = true ->
  Z.max (al_max_failures limit) 1 <= failures_since db (ic_id code) (cutoff limit clock) ->
  enroll_agent code e snapshot limit prepare clock db =
    (Err (Forbidden "too many failed invitation attempts"), db).
Proof.
  intros Hi Hr Hlim. unfold cutoff in Hlim.
  assert (enroll_in code e snapshot limit prepare clock db = Err (Forbidden "too many failed invitation attempts")) as E.
  { unfold enroll_in. unfold mbind, tx_bind. unfold get, expect, lift, require. rewrite Hi. simpl.
    rewrite recent_failures_eq by done. unfold lift, ensure. by rewrite (proj2 (Z.ltb_ge _ _) Hlim). }
  unfold enroll_agent, transaction, returns. unfold mbind, repo_bind. by rewrite E.
Qed.

(** After an enrollment no failed attempt of its invitation is left. *)
Lemma no_attempts_left db id c : (forall a, a ∈ invitation_attempts db -> a.1 <> id) ->
  without_old_attempts db id c = db /\ failures_since db id c = 0.
Proof.
  intros Hn. assert (fresh_attempts db id c = invitation_attempts db) as E.
  { unfold fresh_attempts. apply set_eq. intros a. rewrite elem_of_filter. split; [by intros [_ ?]|].
    intros Ha. split; [|done]. apply Hn, String.eqb_neq in Ha. apply andb_false_iff. by left. }
  unfold failures_since, without_old_attempts. rewrite E.
  assert (db <| invitation_attempts := invitation_attempts db |> = db) as -> by by destruct db.
  split; [done|]. unfold attempts_of.
  assert (filter (fun a => a.1 = id) (invitation_attempts db) ≡ ∅) as -> by set_solver.
  by rewrite size_empty.
Qed.

(** What the first, successful enrollment leaves for the second call. *)
Lemma enrolled_once {T} code e snapshot limit (prepare : GatewayResult T) clock db reply db1 i :
  invitations_wf db -> invitations db !! ic_id code = Some i -> iv_state i = SInvCreated ->
  enroll_agent code e snapshot limit prepare clock db = (Ok reply, db1) ->
  exists fp i1 a, enrollment_fingerprint e = Ok fp /\ invitations db1 !! ic_id code = Some i1 /\
    i1 = bind_invitation e snapshot fp (pe_enrolled_at reply) i /\
    iv_secret_digest i = secret_digest code /\
    iv_organization_id i = er_organization_id e /\ iv_site_id i = er_site_id e /\
    (forall x, x ∈ invitation_attempts db1 -> x.1 <> ic_id code) /\
    agents db1 !! er_agent_id e = Some a /\ ag_key_id a = er_key_id e /\
    ag_last_enrolled_at a = pe_enrolled_at reply /\ ag_agent_id a = er_agent_id e /\
    ag_dispatch_key a = Some (er_dispatch_key e).
Proof.
  intros Hwf Hi Hst [(rep & <- & Hin)|(err & ? & _)]%enroll_agent_run; [|done].
  apply enroll_in_Ok in Hin as (i' & Hi' & _ & Hcase). assert (i' = i) as -> by congruence.
  destruct Hcase as [(_ & ? & _) | (Hs & _ & Ho & Hsi & fp & v & Hfp & _ & Hcase)]; [done|].
  destruct Hcase as [(_ & [= ->] & Hp) | (? & _)]; [|congruence].
  apply persist_enrollment_Ok in Hp as ((row & Hrow & Einv) & Eag & Eatt & _). simpl in *.
  pose proof (Hwf _ _ Hi) as Hid. simpl in Hid. rewrite Hid in *. assert (row = i) as -> by congruence.
  unfold stored_time in *. rewrite trunc_micros_idemp in *.
  exists fp, (bind_invitation e snapshot fp (trunc_micros (ck_now clock)) i), (enrolled_row e (trunc_micros (ck_now clock)) (agents db !! er_agent_id e)).
  split_and!; try done.
  - by rewrite Einv, lookup_insert_eq.
  - intros x. rewrite Eatt, elem_of_filter, String.eqb_neq. by intros [? _].
  - by rewrite Eag, lookup_insert_eq.
Qed.

(** An invitation enrolls one Agent, once.  After a first enrollment, the same request with the same
    code is answered again, before the deadline, with the original enrollment time and no write at all
    (whatever snapshot it brings); a request for another Agent is forbidden and writes nothing. *)
Theorem invitation_is_one_use {T} code e snapshot limit (prepare : GatewayResult T) clock db reply db1 i :
  invitations_wf db -> invitations db !! ic_id code = Some i -> iv_state i = SInvCreated ->
  enroll_agent code e snapshot limit prepare clock db = (Ok reply, db1) ->
  forall e2 snapshot2 limit2 (value2 : T) clock2,
    duration_in_range (al_window limit2) = true ->
    trunc_micros (ck_now clock2) < iv_expires_at i -> ck_replay clock2 < iv_expires_at i ->
    (e2 = e -> enroll_agent code e2 snapshot2 limit2 (Ok value2) clock2 db1 =
                 (Ok (mkPreparedEnrollment value2 (pe_enrolled_at reply)), db1)) /\
    (er_agent_id e2 <> er_agent_id e -> er_organization_id e2 = er_organization_id e ->
     er_site_id e2 = er_site_id e -> is_ok (enrollment_fingerprint e2) = true ->
       enroll_agent code e2 snapshot2 limit2 (Ok value2) clock2 db1 =
         (Err (Forbidden "enrollment invitation is bound to another Agent"), db1)).
Proof.
  intros Hwf Hi Hst Hrun e2 snapshot2 limit2 value2 clock2 Hr Hnow Hrep.
  destruct (enrolled_once _ _ _ _ _ _ _ _ _ _ Hwf Hi Hst Hrun)
    as (fp & i1 & a & Hfp & Hi1 & Ei1 & Hs & Ho & Hsi & Hatt & Ha & Hkey & Hlast & _ & _).
  set (c2 := stored_time (trunc_micros (ck_now clock2) - al_window limit2)).
  destruct (no_attempts_left db1 (ic_id code) c2 Hatt) as [Edb E0].
  assert (recent_failures code (trunc_micros (ck_now clock2)) (al_window limit2) db1 = Ok (0, db1)) as Erf.
  { rewrite recent_failures_eq by done. fold c2. by rewrite Edb, E0. }
  assert (0 <? Z.max (al_max_failures limit2) 1 = true) as Elim by (apply Z.ltb_lt; lia).
  split; [intros ->|intros Hne Ho2 Hsi2 Hfp2];
    unfold enroll_agent, transaction, returns; unfold mbind, repo_bind, enroll_in; unfold mbind, tx_bind;
    unfold get, expect, lift, require, mret, tx_ret, throw; rewrite Hi1; simpl; rewrite Erf; simpl;
    rewrite Elim; simpl; rewrite Ei1; simpl; rewrite Hs, String.eqb_refl; simpl;
    unfold utc_time; rewrite (proj2 (Z.ltb_lt _ _) Hnow); simpl.
  - rewrite Ho, Hsi, !String.eqb_refl. simpl. rewrite Hfp.
    unfold replayed_enrollment, get, expect, lift, require, mret, tx_ret. unfold mbind, tx_bind. simpl.
    rewrite bool_decide_true by done. simpl. rewrite bool_decide_true by done. rewrite String.eqb_refl. simpl.
    rewrite Ha, Hkey, Hlast, String.eqb_refl, Z.eqb_refl. simpl.
    rewrite (proj2 (Z.ltb_lt _ _) Hrep). done.
  - rewrite Ho2, Hsi2, Ho, Hsi, !String.eqb_refl. simpl. destruct (enrollment_fingerprint e2); [|done].
    unfold replayed_enrollment, require, lift. unfold mbind, tx_bind. simpl.
    rewrite bool_decide_false by congruence. done.
Qed.

(** Enrollment makes the Agent admissible: afterwards the Agent row carries the request's dispatch
    key and key identifier, the two registered keys are the active keys of their purposes, and the check
    behind router admissions holds for it. *)
Theorem enrolled_agent_is_active {T} code e snapshot limit (prepare : GatewayResult T) clock db reply db1 i :
  invitations_wf db -> keys_wf db -> invitations db !! ic_id code = Some i -> iv_state i = SInvCreated ->
  jwk_key_id (er_public_jwk e) = Some (er_key_id e) ->
  enroll_agent code e snapshot limit prepare clock db = (Ok reply, db1) ->
  keys_wf db1 /\ exists a, agents db1 !! er_agent_id e = Some a /\ ag_key_id a = er_key_id e /\
    ag_dispatch_key a = Some (er_dispatch_key e) /\ active_agent db1 a = true.
Proof.
  intros Hwf Hk Hi Hst Hjwk Hrun.
  destruct (enrolled_once _ _ _ _ _ _ _ _ _ _ Hwf Hi Hst Hrun)
    as (fp & i1 & a & _ & _ & _ & _ & _ & _ & _ & Ha & Hkey & _ & Hid & Hdis).
  apply enroll_agent_run in Hrun as [(rep & <- & Hin)|(err & ? & _)]; [|done].
  apply enroll_in_Ok in Hin as (i' & Hi' & _ & Hcase). assert (i' = i) as -> by congruence.
  destruct Hcase as [(_ & ? & _) | (_ & _ & _ & _ & fp' & v & _ & _ & [(_ & _ & Hp)|(? & _)])]; [done| |congruence].
  apply persist_enrollment_Ok in Hp as (_ & _ & _ & Hkeys).
  destruct (Hkeys Hk) as (Hk1 & k1 & k2 & J1 & J2 & S1 & S2). split; [done|].
  exists a. split_and!; try done.
  assert (k1 = er_key_id e) as -> by congruence.
  eapply serves_active_agent; [done|by rewrite Hdis|by rewrite Hid, Hkey|by rewrite Hid].
Qed.

(** *** Revocation *)
(** Reading an invitation that cannot expire any more changes nothing. *)
Lemma invitation_read id now db i : invitations_wf db -> invitations db !! id = Some i -> expirable (iv_state i) = false ->
  invitation id now db = (InvitationStatus_try_from i, db).
Proof.
  intros Hwf Hi Hex. unfold invitation, expire_invitation, queries, transaction, update_invitations_where.
  unfold mbind, repo_bind, tx_bind, get, modify, mret, tx_ret.
  rewrite update_where_none; cycle 1.
  { intros k j Hk. destruct (String.eqb_spec (iv_invitation_id j) id) as [E|]; [|done]. simpl.
    pose proof (Hwf k j Hk) as Hj. simpl in Hj. assert (j = i) as -> by congruence. unfold overdue. by rewrite Hex, andb_false_r. }
  assert (db <| invitations := invitations db |> = db) as -> by by destruct db. by rewrite Hi.
Qed.
Lemma status_state i st : InvitationStatus_try_from i = Ok st -> is_state st = InvitationState_from (iv_state i).
Proof. unfold InvitationStatus_try_from. intros Hrun. res_inv Hrun. done. Qed.
(** What a committed revocation did. *)
Lemma revoke_in_Ok id now o ax t db r db' : invitations_wf db -> InvitationId_from_str id = Ok id ->
  revoke_in id now o ax t db = Ok (r, db') ->
  (r = None /\ db' = db /\ forall i, invitations db !! id = Some i -> revocable (iv_state i) = false) \/
  (r = Some id /\ exists i, invitations db !! id = Some i /\ revocable (iv_state i) = true /\
   db' = db <| invitations := <[id := i <| iv_state := SInvRevoked |> <| iv_revoked_at := Some (stored_time now) |>]> (invitations db) |>
            <| audit_events := <[audit_event_id_seq db + 1 := audit_event_row t
                 (mkDraft o (ax_actor_id ax) ActInvitationRevoked (ResInvitation id) Succeeded (ax_request_id ax))
                 (audit_event_id_seq db + 1)]> (audit_events db) |>
            <| audit_event_id_seq := audit_event_id_seq db + 1 |>).
Proof.
  intros Hwf Hid Hrun. unfold revoke_in in Hrun.
  apply tx_bind_Ok in Hrun as (n & s1 & [-> ->]%update_invitations_where_Ok & Hrun).
  set (p := fun i => String.eqb (iv_invitation_id i) id && revocable (iv_state i)) in *.
  assert (forall k j, invitations db !! k = Some j -> p j = true -> k = id) as Hp.
  { intros k j Hk Hj. unfold p in Hj. bools. rewrite String.eqb_eq in *. by rewrite <- (Hwf k j Hk). }
  destruct (invitations db !! id) as [i|] eqn:Hi.
  - destruct (revocable (iv_state i)) eqn:Hrv.
    + right. assert (p i = true) as Hpi.
      { unfold p. rewrite Hrv. pose proof (Hwf id i Hi) as E. simpl in E. by rewrite E, String.eqb_refl. }
      assert (count_where (invitations db) p =? 0 = false) as Ec.
      { unfold count_where. assert (i ∈ rows_where (invitations db) p) by (apply elem_of_rows_where; eauto).
        destruct (rows_where (invitations db) p); [set_solver|]. apply Z.eqb_neq. simpl. lia. }
      rewrite Ec in Hrun. apply tx_bind_Ok in Hrun as (id' & s2 & [Hl ->]%lift_Ok & Hrun).
      rewrite Hid in Hl. injection Hl as <-.
      apply tx_bind_Ok in Hrun as (u & s3 & [_ ->]%insert_audit_event_Ok & [-> ->]%tx_ret_Ok).
      split; [done|]. exists i. split_and!; [done|done|]. simpl.
      match goal with |- mkDatabase _ _ _ _ ?a _ _ _ _ _ _ _ _ _ _ _ = mkDatabase _ _ _ _ ?b _ _ _ _ _ _ _ _ _ _ _ =>
        assert (a = b) as ->; [|done] end.
      apply map_eq. intros k. rewrite lookup_update_where. destruct (decide (id = k)) as [<-|Hne].
      * rewrite lookup_insert_eq, Hi. simpl. by rewrite Hpi.
      * rewrite lookup_insert_ne by done. destruct (invitations db !! k) as [j|] eqn:Hk; [|done]. simpl.
        destruct (p j) eqn:Hpj; [|done]. by destruct Hne; rewrite (Hp k j).
    + left. assert (forall k j, invitations db !! k = Some j -> p j = false) as Hnone.
      { intros k j Hk. destruct (p j) eqn:Hpj; [|done]. assert (k = id) as -> by eauto.
        unfold p in Hpj. assert (j = i) as -> by congruence. by rewrite Hrv, andb_false_r in Hpj. }
      unfold count_where in Hrun. rewrite (rows_where_none _ _ Hnone), (update_where_none _ _ _ Hnone) in Hrun. simpl in Hrun.
      apply tx_ret_Ok in Hrun as [-> ->]. split_and!; [done|by destruct db|]. by intros j [= <-].
  - left. assert (forall k j, invitations db !! k = Some j -> p j = false) as Hnone.
    { intros k j Hk. destruct (p j) eqn:Hpj; [|done]. assert (k = id) as -> by eauto. congruence. }
    unfold count_where in Hrun. rewrite (rows_where_none _ _ Hnone), (update_where_none _ _ _ Hnone) in Hrun. simpl in Hrun.
    apply tx_ret_Ok in Hrun as [-> ->]. split_and!; [done|by destruct db|done].
Qed.
(** An invitation that does not exist is not found, and looking for it changes nothing. *)
Lemma expire_invitation_none id now db : invitations_wf db -> invitations db !! id = None ->
  invitation id now db = (Err (NotFound "onboarding invitation was not found"), db).
Proof.
  intros Hwf Hi. unfold invitation, expire_invitation, queries, transaction, update_invitations_where.
  unfold mbind, repo_bind, tx_bind, get, modify, mret, tx_ret.
  rewrite update_where_none; cycle 1.
  { intros k j Hk. destruct (String.eqb_spec (iv_invitation_id j) id) as [E|]; [|done].
    pose proof (Hwf k j Hk) as Hj. simpl in Hj. congruence. }
  assert (db <| invitations := invitations db |> = db) as -> by by destruct db. by rewrite Hi.
Qed.

(** The effect of a successful revocation on the database. *)
Definition revocation_effect (id o : string) (ax : AuditContext) (t : instant) (db db' : Database) : Prop :=
  exists i i', invitations db !! id = Some i /\ iv_state i <> SInvOnline /\
     invitations db' !! id = Some i' /\ iv_state i' = SInvRevoked /\
     (forall k, k <> id -> invitations db' !! k = invitations db !! k) /\
     if bool_decide (iv_state i = SInvRevoked) then db' = db
     else audit_events db' = <[audit_event_id_seq db + 1 := audit_event_row t
            (mkDraft o (ax_actor_id ax) ActInvitationRevoked (ResInvitation id) Succeeded (ax_request_id ax))
            (audit_event_id_seq db + 1)]> (audit_events db).
Lemma revoke_invitation_Ok id now o ax t db st db' : invitations_wf db -> InvitationId_from_str id = Ok id ->
  revoke_invitation id now o ax t db = (Ok st, db') -> is_state st = InvRevoked /\ revocation_effect id o ax t db db'.
Proof.
  intros Hwf Hid Hrun. unfold revocation_effect.
  apply repo_bind_inv in Hrun as [(r & d1 & Htx%transaction_Ok & Hrun)|(e & _ & ?)]; [|done].
  apply (revoke_in_Ok id now o ax t db r d1 Hwf Hid) in Htx as [(-> & -> & Hno)|(-> & i & Hi & Hrv & Ed)].
  - apply repo_bind_inv in Hrun as [(cur & d2 & Hcur & Hret)|(e & _ & ?)]; [|done].
    destruct (invitations db !! id) as [i|] eqn:Hi; cycle 1.
    { exfalso. pose proof (expire_invitation_none id now db Hwf Hi) as E. rewrite E in Hcur. done. }
    specialize (Hno i eq_refl).
    rewrite (invitation_read id now db i) in Hcur by (done || by destruct (iv_state i)). injection Hcur as Hs <-.
    apply status_state in Hs. unfold returns in Hret. injection Hret as Hm <-. rewrite Hs in Hm.
    destruct (iv_state i) eqn:Es; simplify_eq/=. split; [done|]. exists i, i. rewrite Es. done.
  - set (i' := i <| iv_state := SInvRevoked |> <| iv_revoked_at := Some (stored_time now) |>) in *.
    assert (invitations d1 = <[id := i']> (invitations db)) as Einv by by rewrite Ed.
    rewrite (invitation_read id now d1 i') in Hrun;
      [|unfold invitations_wf; rewrite Einv; apply map_Forall_insert_2; [exact (Hwf id i Hi)|done]
       |by rewrite Einv, lookup_insert_eq|done].
    injection Hrun as Hs <-. apply status_state in Hs. split; [by rewrite Hs|]. exists i, i'. rewrite Einv.
    split_and!; [done|by intros E; rewrite E in Hrv|by rewrite lookup_insert_eq|done| |].
    + intros k Hk. by rewrite lookup_insert_ne.
    + rewrite bool_decide_false by (intros E; by rewrite E in Hrv). by rewrite Ed.
Qed.
(** An invitation that is neither created nor enrolled refuses every code. *)
Lemma closed_invitation_refuses {T} code e snapshot limit (prepare : GatewayResult T) clock db i :
  invitations db !! ic_id code = Some i -> iv_state i <> SInvCreated -> iv_state i <> SInvEnrolled ->
  is_ok (fst (enroll_agent code e snapshot limit prepare clock db)) = false.
Proof.
  intros Hi H1' H2'. destruct (enroll_agent code e snapshot limit prepare clock db) as [[reply|err] d] eqn:E; [|done].
  apply enroll_agent_run in E as [(rep & <- & Hin)|(? & ? & _)]; [|done].
  apply enroll_in_Ok in Hin as (j & Hj & _ & [(_ & ? & _)|(_ & _ & _ & _ & fp & v & _ & _ & [(Hc' & _)|(Hc' & _)])]);
    [done|congruence..].
Qed.

(** A revoked invitation is closed for good.  A successful revocation reports the invitation as revoked; an online
    enrollment is never revoked this way, an invitation revoked before is reported again without a second audit
    event, and otherwise the invitation is marked and exactly one event is appended; every other invitation is
    untouched.  Afterwards no enrollment with its code succeeds, the right secret included. *)
Theorem revoked_invitation_cannot_enroll id now o ax t db st db' :
  invitations_wf db -> InvitationId_from_str id = Ok id ->
  revoke_invitation id now o ax t db = (Ok st, db') ->
  is_state st = InvRevoked /\
  (exists i i', invitations db !! id = Some i /\ iv_state i <> SInvOnline /\
     invitations db' !! id = Some i' /\ iv_state i' = SInvRevoked /\
     (forall k, k <> id -> invitations db' !! k = invitations db !! k) /\
     if bool_decide (iv_state i = SInvRevoked) then db' = db
     else audit_events db' = <[audit_event_id_seq db + 1 := audit_event_row t
            (mkDraft o (ax_actor_id ax) ActInvitationRevoked (ResInvitation id) Succeeded (ax_request_id ax))
            (audit_event_id_seq db + 1)]> (audit_events db)) /\
  (forall T code e snapshot limit (prepare : GatewayResult T) clock, ic_id code = id ->
     is_ok (fst (enroll_agent code e snapshot limit prepare clock db')) = false).
Proof.
  intros Hwf Hid Hrun. apply (revoke_invitation_Ok id now o ax t db st db' Hwf Hid) in Hrun as [Hst Hdb].
  split_and!; [done|exact Hdb|]. destruct Hdb as (_ & i' & _ & _ & Hi' & Hs & _). intros T code e snapshot limit prepare clock <-.
  apply (closed_invitation_refuses _ _ _ _ _ _ _ i'); congruence.
Qed.
End Enrollment.

(** ** A sample enrollment *)
Import Toy.
#[export] Instance toy_facts : FactsCodec := fun f => Some (ft_agent_id f).
#[export] Instance toy_range : ChronoRange := fun _ => true.
#[export] Instance toy_inventory : InventoryCodec :=
  {| to_value_is_ok := fun _ => true; inventory_from_value := fun _ => Some []; json_size := fun _ => Some 0 |}.
Definition sample_snapshot : GatewaySnapshot :=
  mkGatewaySnapshot (seconds 90) ProtocolDescriptor_default (mkServiceDescriptor None None [])
    (mkSecurityDescriptor "managed" "lan" true "step_ca" "required" true None [])
    (mkRuntimeDescriptor [] [] []) (mkCapabilityDescriptor [] [] [] "zenoh" true) [].
Definition sample_invited : Database :=
  sample_db <| invitations := {[ic_id sample_code :=
    new_invitation sample_code "org_acme" "site_main" None 0 (seconds 600)]} |>.
Definition sample_enrollment : AgentEnrollmentRecord :=
  mkEnrollment "agt_2" "org_acme" "site_main" "kid_2" "thumb_3" (sample_jwk "kid_2") sample_dispatch_key
    (sample_jwk "agent_state_2") "inari/gateway/agt_2" "2026-10-03" ["commands:execute"] "csr".
Definition sample_limit : InvitationAttemptLimit := mkAttemptLimit (minutes 5) 3.
Definition sample_enroll_clock : EnrollClock := mkEnrollClock (seconds 100 + 1) (seconds 100 + 1) (seconds 100).
Definition sample_enrolled : GatewayResult (PreparedEnrollment nat) * Database :=
  enroll_agent sample_code sample_enrollment sample_snapshot sample_limit (Ok 7%nat) sample_enroll_clock sample_invited.

Lemma sample_invited_row : invitations sample_invited !! ic_id sample_code =
  Some (new_invitation sample_code "org_acme" "site_main" None 0 (seconds 600)).
Proof. reflexivity. Qed.
Lemma sample_enrolled_ok :
  sample_enrolled = (Ok (mkPreparedEnrollment 7%nat (seconds 100)), snd sample_enrolled).
Proof. vm_compute. reflexivity. Qed.
Lemma sample_keys_wf : keys_wf sample_invited.
Proof.
  assert (map_Forall (fun k r => vk_key_id r = k) (agent_verification_keys sample_invited)) as H1 by decide_now.
  split; [exact H1|].
  intros k1 k2 r1 r2 K1 K2 _ Hp _ _.
  assert (forall k r, agent_verification_keys sample_invited !! k = Some r ->
    (k = "kid_1" /\ vk_purpose r = TransportIdentity) \/ (k = "agent_state_1" /\ vk_purpose r = AgentState)) as Hall.
  { intros k r Hr.
    change (agent_verification_keys sample_invited) with
      (<["kid_1" := sample_key TransportIdentity "kid_1" "thumb_1"]>
       ({["agent_state_1" := sample_key AgentState "agent_state_1" "thumb_2"]} : gmap string VerificationKeyRow)) in Hr.
    apply lookup_insert_Some in Hr as [[<- <-]|[_ Hr]]; [by left|].
    apply lookup_singleton_Some in Hr as [<- <-]. by right. }
  destruct (Hall _ _ K1) as [[-> P1]|[-> P1]], (Hall _ _ K2) as [[-> P2]|[-> P2]]; congruence.
Qed.


Definition sample_blocked : Database :=
  sample_invited <| invitation_attempts :=
    {[(ic_id sample_code, seconds 97)]} ∪ {[(ic_id sample_code, seconds 98)]} ∪ {[(ic_id sample_code, seconds 99)]} |>.
Lemma attempt_limit_blocks_correct_secret_witness :
  enroll_agent sample_code sample_enrollment sample_snapshot sample_limit (Ok 7%nat) sample_enroll_clock sample_blocked
    = (Err (Forbidden "too many failed invitation attempts"), sample_blocked).
Proof.
  eapply attempt_limit_blocks_correct_secret; [reflexivity|reflexivity|]. vm_compute. discriminate.
Defined.

Lemma invitation_is_one_use_witness :
  enroll_agent sample_code sample_enrollment sample_snapshot sample_limit (Ok 8%nat) sample_enroll_clock
    (snd sample_enrolled) = (Ok (mkPreparedEnrollment 8%nat (seconds 100)), snd sample_enrolled).
Proof.
  assert (invitations_wf sample_invited) as Hwf by decide_now.
  apply (invitation_is_one_use sample_code sample_enrollment sample_snapshot sample_limit (Ok 7%nat)
    sample_enroll_clock sample_invited _ (snd sample_enrolled) _ Hwf sample_invited_row eq_refl sample_enrolled_ok
    sample_enrollment sample_snapshot sample_limit 8%nat sample_enroll_clock); reflexivity.
Defined.

Lemma enrolled_agent_is_active_witness :
  exists a, agents (snd sample_enrolled) !! "agt_2" = Some a /\ active_agent (snd sample_enrolled) a = true.
Proof.
  assert (invitations_wf sample_invited) as Hwf by decide_now.
  destruct (enrolled_agent_is_active sample_code sample_enrollment sample_snapshot sample_limit (Ok 7%nat)
    sample_enroll_clock sample_invited _ (snd sample_enrolled) _ Hwf sample_keys_wf sample_invited_row eq_refl eq_refl
    sample_enrolled_ok) as (_ & a & Ha & _ & _ & Hact).
  exists a. split; [exact Ha|exact Hact].
Defined.

Lemma revoked_invitation_cannot_enroll_witness :
  exists st, revoke_invitation (ic_id sample_code) (seconds 50) "org_acme" (mkAuditContext "oidc:alice" None) (seconds 50)
               sample_invited = (Ok st, snd (revoke_invitation (ic_id sample_code) (seconds 50) "org_acme"
                 (mkAuditContext "oidc:alice" None) (seconds 50) sample_invited)) /\ is_state st = InvRevoked.
Proof.
  assert (invitations_wf sample_invited) as Hwf by decide_now.
  assert (InvitationId_from_str (ic_id sample_code) = Ok (ic_id sample_code)) as Hid by reflexivity.
  eexists. split; [vm_compute; reflexivity|].
  eapply (revoked_invitation_cannot_enroll (ic_id sample_code) (seconds 50) "org_acme" (mkAuditContext "oidc:alice" None)
    (seconds 50) sample_invited _ _ Hwf Hid); vm_compute; reflexivity.
Defined.
