(* ===== verification/Publications.v ===== *)
(** * Publications of Agents

    [crates/inari-gateway/src/persistence/publications.rs].  Every message an Agent publishes is stored once
    under its message identifier; a status snapshot projects the inventory and brings the invitation online,
    a print-job event reconciles signed Agent State, and a command receipt updates an inline command. *)
From S2P Require Import Prelude Errors Identifiers InvitationCode Protocol Schema Samples AuditLog Security.
From S2P Require Import Observations Inventory Onboarding RouterPolicy Keys Commands Enrollment.

Record PersistedPublication := mkPersistedPublication {
  pu_key : string; pu_received_at : instant; pu_message : AgentPublication }.
Record PersistedAgentStatus := mkPersistedAgentStatus {
  ps_message_id : string; ps_received_at : instant; ps_snapshot : GatewaySnapshot }.

Definition live_invitation (s : StoredInvitationState) : bool :=
  match s with SInvEnrolled | SInvOnline => true | _ => false end.

Section Publications.
Context `{Encoding, Ed25519, Sha256, EnvelopeCodec, InventoryCodec}.

Definition bound_invitation (db : Database) (agent_id : string) (candidate : AgentRow) : option InvitationRow :=
  find_one (invitations db) (fun i =>
    bool_decide (iv_bound_agent_id i = Some agent_id)
    && bool_decide (iv_enrolled_at i = Some (ag_last_enrolled_at candidate))
    && live_invitation (iv_state i)).

(** Whether a snapshot still describes the enrollment the Agent is in, and is newer than the applied one. *)
Definition snapshot_applies (model : InvitationRow) (agent : AgentRow) (snapshot : GatewaySnapshot) : bool :=
  bool_decide (iv_enrolled_at model = Some (ag_last_enrolled_at agent))
  && bool_decide (iv_bound_key_id model = Some (ag_key_id agent))
  && String.eqb (iv_site_id model) (ag_site_id agent)
  && String.eqb (iv_organization_id model) (ag_organization_id agent)
  && match iv_latest_snapshot model with
     | Some previous => gs_generated_at previous <? gs_generated_at snapshot
     | None => true
     end.

Definition bring_online (snapshot : GatewaySnapshot) (now : instant) (i : InvitationRow) : InvitationRow :=
  i <| iv_state := SInvOnline |>
    <| iv_online_at := match iv_online_at i with Some t => Some t | None => Some (stored_time now) end |>
    <| iv_latest_snapshot := Some snapshot |>.

Definition apply_snapshot (agent_id : string) (agent : AgentRow) (snapshot : option GatewaySnapshot)
    (inventory : option (list InventoryItem)) (model : option InvitationRow) (now : instant) : Tx unit :=
  match snapshot, inventory, model with
  | Some snapshot, Some inventory, Some model =>
      if snapshot_applies model agent snapshot then
        (_ ← inventory_apply inventory agent_id (ag_site_id agent) (gs_generated_at snapshot);
         update_invitation (iv_invitation_id model) (bring_online snapshot now))
      else mret tt
  | _, _, _ => mret tt
  end.

Definition receipt_state (message : AgentPublication) : option CommandState :=
  match message with
  | CommandAccepted _ _ _ _ _ => Some CsAccepted
  | CommandRejected _ _ _ _ _ => Some CsRejected
  | _ => None
  end.

Definition apply_receipt (agent_id : string) (message : AgentPublication) (now : instant) : Tx unit :=
  match publication_command_id message with
  | None => mret tt
  | Some command_id =>
      match receipt_state message with
      | None => mret tt
      | Some state =>
          db ← get;
          match commands db !! command_id with
          | Some dispatch =>
              if String.eqb (cm_agent_id dispatch) agent_id
                 && match cm_command dispatch with Inline _ => true | ManagedWorkContent _ => false end
              then update_commands_where
                     (fun c => String.eqb (cm_agent_id c) agent_id && String.eqb (cm_command_id c) command_id)
                     (fun c => c <| cm_state := state |> <| cm_updated_at := stored_time now |>)
              else mret tt
          | None => mret tt
          end
      end
  end.

Definition record_publication_in (agent_id key : string) (message : AgentPublication) (now : instant) : Tx unit :=
  inventory ← lift (match publication_snapshot message with
                    | Some snapshot => Some <$> inventory_parse (rt_inventory (gs_runtime snapshot))
                    | None => Ok None
                    end);
  candidate ← require_agent agent_id;
  db ← get;
  let bound := match publication_snapshot message with
               | Some _ => bound_invitation db agent_id candidate
               | None => None
               end in
  current_agent ← expect (agents db !! agent_id) (NotFound ("Agent " ++ agent_id ++ " is not enrolled"));
  inserted ← try_insert_publication (mkPublication (message_id message) agent_id key
               (Some (PublicationType_from_message message)) message (stored_time now));
  db ← get;
  stored ← expect (publications db !! message_id message) (CorruptState "publication was not stored");
  _ ← require (String.eqb (pb_agent_id stored) agent_id && bool_decide (pb_payload stored = message))
        (Conflict "publication message ID was reused for different content");
  if negb inserted then mret tt else
  _ ← reconcile_state_observation agent_id message now;
  _ ← apply_snapshot agent_id current_agent (publication_snapshot message) inventory bound now;
  apply_receipt agent_id message now.

Definition record_publication_transaction (agent_id key : string) (message : AgentPublication) (now : instant)
    : Repo unit :=
  transaction (record_publication_in agent_id key message now).

Definition rejected_inventory (message : AgentPublication) (r : GatewayResult unit) : bool :=
  bool_decide (is_Some (publication_snapshot message))
  && match r with Err (InvalidInput _) | Err (Conflict _) => true | _ => false end.

(** A rejected snapshot is audited; a failure of the audit replaces the rejection's error. *)
Definition record_publication (agent_id key : string) (message : AgentPublication) (now occurred_at : instant)
    : Repo unit :=
  fun db =>
    let '(result, db1) := record_publication_transaction agent_id key message now db in
    if rejected_inventory message result then
      (agent ← transaction (require_agent agent_id);
       id ← returns (AgentId_from_str (ag_agent_id agent));
       organization_id ← returns (OrganizationId_from_str (ag_organization_id agent));
       _ ← record_audit_event occurred_at
             (mkDraft organization_id (ActorId_from_agent id) ActAgentInventoryRejected (ResAgent id) Denied None);
       returns result) db1
    else (result, db1).

Definition list_publications (agent_id : string) : Repo (list PersistedPublication) :=
  _ ← transaction (require_agent agent_id);
  queries (fun db => Ok ((fun p => mkPersistedPublication (pb_key_expr p) (utc_time (pb_received_at p)) (pb_payload p)) <$>
    order_by (by_desc pb_received_at) (rows_where (publications db) (fun p => String.eqb (pb_agent_id p) agent_id)))).

(** The EXISTS condition: the publication carries the snapshot the current enrollment has applied. *)
Definition applied_status (db : Database) (p : PublicationRow) : bool :=
  negb (no_row (invitations db) (fun i =>
    match agents db !! pb_agent_id p with
    | Some a =>
        bool_decide (iv_bound_agent_id i = Some (ag_agent_id a))
        && bool_decide (iv_enrolled_at i = Some (ag_last_enrolled_at a))
        && bool_decide (iv_bound_key_id i = Some (ag_key_id a))
        && String.eqb (iv_organization_id i) (ag_organization_id a)
        && String.eqb (iv_site_id i) (ag_site_id a)
        && live_invitation (iv_state i)
        && (ag_last_enrolled_at a <=? pb_received_at p)
        && match iv_latest_snapshot i, publication_snapshot (pb_payload p) with
           | Some s, Some t => bool_decide (s = t)
           | _, _ => false
           end
    | None => false
    end)).

Definition latest_status (agent_id : string) : Repo (option PersistedAgentStatus) :=
  _ ← transaction (require_agent agent_id);
  queries (fun db =>
    match head (order_by (by_desc pb_received_at) (rows_where (publications db) (fun p =>
            String.eqb (pb_agent_id p) agent_id && bool_decide (pb_message_type p = Some PtStatusSnapshot)
            && applied_status db p))) with
    | None => Ok None
    | Some model =>
        match pb_payload model with
        | StatusSnapshot message_id snapshot =>
            Ok (Some (mkPersistedAgentStatus message_id (utc_time (pb_received_at model)) snapshot))
        | _ => Err (CorruptState "status publication row contains another message type")
        end
    end).

(** ** Lemmas *)
#[local] Hint Unfold apply_snapshot apply_receipt record_publication_in : frames.

Lemma try_insert_publication_Ok row db b db' : try_insert_publication row db = Ok (b, db') ->
  (b = false /\ is_Some (publications db !! pb_message_id row) /\ db' = db) \/
  (b = true /\ publications db !! pb_message_id row = None /\
   db' = db <| publications := <[pb_message_id row := row]> (publications db) |>).
Proof.
  unfold try_insert_publication, publications_constraints, references, exists_in. intros Hrun. tx_inv Hrun; bools.
  - left. eauto.
  - right. split_and!; try done. by apply eq_None_not_Some.
Qed.

(** A committed recording: the message was there already, or it is stored and processed now. *)
Lemma record_publication_in_Ok a key m now db u db' : record_publication_in a key m now db = Ok (u, db') ->
  exists inventory ag stored,
    (match publication_snapshot m with
     | Some snapshot => exists items, inventory = Some items /\ inventory_parse (rt_inventory (gs_runtime snapshot)) = Ok items
     | None => inventory = None end) /\
    agents db !! a = Some ag /\ publications db' !! message_id m = Some stored /\
    pb_agent_id stored = a /\ pb_payload stored = m /\
    ((is_Some (publications db !! message_id m) /\ db' = db) \/
     (publications db !! message_id m = None /\
      let db0 := db <| publications := <[message_id m := stored]> (publications db) |> in
      let bound := match publication_snapshot m with Some _ => bound_invitation db a ag | None => None end in
      exists db1 db2, reconcile_state_observation a m now db0 = Ok (tt, db1) /\
        apply_snapshot a ag (publication_snapshot m) inventory bound now db1 = Ok (tt, db2) /\
        apply_receipt a m now db2 = Ok (tt, db'))).
Proof.
  unfold record_publication_in, require_agent. intros Hrun.
  apply tx_bind_Ok in Hrun as (inv & s1 & [Hinv ->]%lift_Ok & Hrun).
  apply tx_bind_Ok in Hrun as (cand & s2 & Hcand & Hrun).
  apply tx_bind_Ok in Hcand as (db0 & s3 & [-> ->]%get_Ok & [Hc ->]%expect_Ok).
  apply tx_bind_Ok in Hrun as (db0 & s4 & [-> ->]%get_Ok & Hrun). cbv zeta in Hrun.
  apply tx_bind_Ok in Hrun as (ag & s5 & [Hag ->]%expect_Ok & Hrun). assert (cand = ag) as -> by congruence.
  apply tx_bind_Ok in Hrun as (ins & s6 & Hins & Hrun).
  apply tx_bind_Ok in Hrun as (db1 & s7 & [-> ->]%get_Ok & Hrun).
  apply tx_bind_Ok in Hrun as (stored & s8 & [Hst ->]%expect_Ok & Hrun).
  apply tx_bind_Ok in Hrun as (u1 & s9 & [Hsame ->]%require_Ok & Hrun).
  bools. match goal with Hs : String.eqb _ _ = true |- _ => apply String.eqb_eq in Hs end.
  exists inv, ag, stored. split.
  { destruct (publication_snapshot m) as [snap|]; [|by simplify_eq].
    destruct (inventory_parse _) as [items|]; simplify_eq/=. eauto. }
  apply try_insert_publication_Ok in Hins as [(-> & Hsome & ->)|(-> & Hnone & ->)]; simpl in *.
  - apply tx_ret_Ok in Hrun as [_ ->]. split_and!; try done. left. done.
  - apply tx_bind_Ok in Hrun as ([] & s10 & Hrec & Hrun). apply tx_bind_Ok in Hrun as ([] & s11 & Hsnap & Hrec2).
    destruct u. rewrite lookup_insert_eq in Hst. injection Hst as <-. simpl in *.
    pose proof (steps_run (R := same publications) _ _ _ Hrec) as P1.
    pose proof (steps_run (R := same publications) _ _ _ Hsnap) as P2.
    pose proof (steps_run (R := same publications) _ _ _ Hrec2) as P3. unfold same in *.
    split_and!; try done.
    + rewrite P3, P2, P1. simpl. by rewrite lookup_insert_eq.
    + right. split; [done|]. exists s10, s11. done.
Qed.

Lemma record_publication_Ok a key m now occ db db' : record_publication a key m now occ db = (Ok tt, db') ->
  record_publication_in a key m now db = Ok (tt, db').
Proof.
  unfold record_publication, record_publication_transaction.
  destruct (transaction (record_publication_in a key m now) db) as [r db1] eqn:Htx.
  destruct (rejected_inventory m r) eqn:Hrej.
  - intros Hb. exfalso. unfold rejected_inventory in Hrej. bools.
    apply repo_bind_inv in Hb as [(ag & s1 & _ & Hb)|(e & _ & ?)]; [|done].
    apply repo_bind_inv in Hb as [(i & s2 & _ & Hb)|(e & _ & ?)]; [|done].
    apply repo_bind_inv in Hb as [(o & s3 & _ & Hb)|(e & _ & ?)]; [|done].
    apply repo_bind_inv in Hb as [([] & s4 & _ & Hb)|(e & _ & ?)]; [|done].
    unfold returns in Hb. injection Hb as -> _. done.
  - intros [= -> ->]. by apply transaction_Ok.
Qed.

#[local] Arguments try_insert_publication : simpl never.

(** A publication is processed once.  Recording a message again, at any later time, succeeds and
    changes nothing; the same message identifier with other content, or from another enrolled Agent, is a
    conflict whose transaction changes nothing. *)
Theorem publication_is_recorded_once a key m now occ db db1 :
  record_publication a key m now occ db = (Ok tt, db1) ->
  (forall key2 now2 occ2, record_publication a key2 m now2 occ2 db1 = (Ok tt, db1)) /\
  (forall a2 key2 m2 now2, message_id m2 = message_id m -> a2 <> a \/ m2 <> m -> is_Some (agents db1 !! a2) ->
     (forall s, publication_snapshot m2 = Some s -> is_ok (inventory_parse (rt_inventory (gs_runtime s))) = true) ->
     record_publication_transaction a2 key2 m2 now2 db1 =
       (Err (Conflict "publication message ID was reused for different content"), db1)).
Proof.
  intros Hrun%record_publication_Ok.
  pose proof (steps_run (R := same agents) _ _ _ Hrun) as Eag. unfold same in Eag.
  apply record_publication_in_Ok in Hrun as (inv & ag & stored & Hinv & Hag & Hst & Hpa & Hpm & _).
  rewrite <- Eag in Hag.
  assert (forall row, pb_message_id row = message_id m -> try_insert_publication row db1 = Ok (false, db1)) as Hdup.
  { intros row Hid. unfold try_insert_publication, publications_constraints, exists_in, get. unfold mbind, tx_bind.
    rewrite Hid, Hst. rewrite bool_decide_true by eauto. done. }
  split.
  - intros key2 now2 occ2.
    assert (record_publication_in a key2 m now2 db1 = Ok (tt, db1)) as E.
    { unfold record_publication_in, require_agent, get, expect, lift, require, mret, tx_ret. unfold mbind, tx_bind.
      assert (match publication_snapshot m with
              | Some snapshot => Some <$> inventory_parse (rt_inventory (gs_runtime snapshot))
              | None => Ok None end = Ok inv) as ->.
      { destruct (publication_snapshot m); [|by rewrite Hinv]. destruct Hinv as (items & -> & ->). done. }
      rewrite Hag. simpl. rewrite Hag. simpl. rewrite Hdup by done. rewrite Hst. simpl.
      rewrite Hpa, Hpm, String.eqb_refl, bool_decide_true by done. done. }
    unfold record_publication, record_publication_transaction, transaction. rewrite E.
    unfold rejected_inventory. by rewrite andb_false_r.
  - intros a2 key2 m2 now2 Hid Hdiff [ag2 Hag2] Hparse.
    unfold record_publication_transaction, transaction.
    assert (record_publication_in a2 key2 m2 now2 db1 =
      Err (Conflict "publication message ID was reused for different content")) as ->; [|done].
    unfold record_publication_in, require_agent, get, expect, lift, require, mret, tx_ret. unfold mbind, tx_bind.
    assert (exists inv2, match publication_snapshot m2 with
            | Some snapshot => Some <$> inventory_parse (rt_inventory (gs_runtime snapshot))
            | None => Ok None end = Ok inv2) as [inv2 ->].
    { destruct (publication_snapshot m2) as [s|]; [|eauto]. specialize (Hparse s eq_refl).
      destruct (inventory_parse _); [|done]. simpl. eauto. }
    rewrite Hag2. simpl. rewrite Hag2. simpl. rewrite Hdup by (simpl; congruence). rewrite Hid, Hst. simpl.
    destruct (String.eqb_spec (pb_agent_id stored) a2) as [Ea|]; simpl; [|done].
    rewrite bool_decide_false; [done|]. intros Em. destruct Hdiff; congruence.
Qed.

(** A command receipt never settles Managed Work.  Whatever an Agent reports as accepted or rejected,
    every command that dispatches Managed Work stays exactly as it was: only signed Agent State moves it. *)
Theorem receipts_leave_managed_work_alone a key m now occ db r db' :
  sequences_wf db -> is_Some (receipt_state m) ->
  record_publication a key m now occ db = (r, db') ->
  forall k c work, commands db !! k = Some c -> cm_command c = ManagedWorkContent work -> commands db' !! k = Some c.
Proof.
  intros (Hkey & _) Hrec Hrun k c work Hc Hmw.
  assert (publication_snapshot m = None) as Hns by (destruct m; by destruct Hrec).
  unfold record_publication, record_publication_transaction in Hrun.
  destruct (transaction (record_publication_in a key m now) db) as [r1 db1] eqn:Htx.
  unfold rejected_inventory in Hrun. rewrite Hns in Hrun. simpl in Hrun. injection Hrun as _ <-.
  apply transaction_inv in Htx as [([] & _ & Hin)|(e & _ & ->)]; [|done].
  apply record_publication_in_Ok in Hin as (inv & ag & stored & _ & _ & _ & _ & _ & [[_ ->]|(_ & d1 & d2 & H1' & H2' & H3')]);
    [done|].
  rewrite Hns in H2'. apply tx_ret_Ok in H2' as [_ ->].
  assert (reconcile_state_observation a m now (db <| publications := <[message_id m:=stored]> (publications db) |>) =
    Ok (tt, db <| publications := <[message_id m:=stored]> (publications db) |>)) as E by (destruct m; by destruct Hrec).
  rewrite E in H1'. injection H1' as <-.
  unfold apply_receipt in H3'. destruct (publication_command_id m) as [cid|]; [|by apply tx_ret_Ok in H3' as [_ ->]].
  destruct (receipt_state m) as [st|]; [|by apply tx_ret_Ok in H3' as [_ ->]].
  apply tx_bind_Ok in H3' as (db0 & s0 & [-> ->]%get_Ok & H3'). simpl in H3'.
  destruct (commands db !! cid) as [dc|] eqn:Hdc; [|by apply tx_ret_Ok in H3' as [_ ->]].
  destruct (String.eqb _ _ && _) eqn:Hinl; [|by apply tx_ret_Ok in H3' as [_ ->]].
  apply modify_Ok in H3' as [_ ->]. simpl. rewrite lookup_update_where, Hc. simpl.
  destruct (Hkey _ _ Hc) as [-> _].
  destruct (String.eqb_spec k cid) as [->|Hne]; [|by rewrite andb_false_r].
  assert (dc = c) as -> by congruence. rewrite Hmw in Hinl. by rewrite andb_false_r in Hinl.
Qed.

(** A new status snapshot is projected exactly when it belongs to the Agent's current enrollment and
    is newer than the one applied before: then the invitation is online with that snapshot and the Agent's
    devices are the snapshot's items; otherwise invitations and devices stay as they were. *)
Theorem status_snapshot_is_applied_when_current a key mid s now occ db db' ag :
  devices_wf db -> agents db !! a = Some ag -> publications db !! mid = None ->
  record_publication a key (StatusSnapshot mid s) now occ db = (Ok tt, db') ->
  exists items, inventory_parse (rt_inventory (gs_runtime s)) = Ok items /\
  match bound_invitation db a ag with
  | Some i =>
      if snapshot_applies i ag s
      then (exists row, invitations db !! iv_invitation_id i = Some row /\
              invitations db' = <[iv_invitation_id i := bring_online s now row]> (invitations db)) /\
           (forall d, devices db' !! (a, d) =
              (fun it => projected a (ag_site_id ag) (gs_generated_at s) (devices db !! (a, d)) it) <$> item_for d items) /\
           (forall a2 d, a2 <> a -> devices db' !! (a2, d) = devices db !! (a2, d))
      else invitations db' = invitations db /\ devices db' = devices db
  | None => invitations db' = invitations db /\ devices db' = devices db
  end.
Proof.
  intros Hwf Hag Hnew Hrun%record_publication_Ok.
  apply record_publication_in_Ok in Hrun
    as (inv & ag' & stored & (items & -> & Hitems) & Hag' & _ & _ & _ & [[[? ?] _]|(_ & d1 & d2 & H1' & H2' & H3')]);
    [simpl in *; congruence|].
  assert (ag' = ag) as -> by congruence. exists items. split; [done|].
  apply tx_ret_Ok in H1' as [_ ->]. apply tx_ret_Ok in H3' as [_ ->]. simpl in H2'.
  destruct (bound_invitation db a ag) as [i|]; [|apply tx_ret_Ok in H2' as [_ ->]; done].
  destruct (snapshot_applies i ag s); [|apply tx_ret_Ok in H2' as [_ ->]; done].
  apply tx_bind_Ok in H2' as (u1 & s1 & Happ & (row & Hrow & ->)%update_invitation_Ok).
  assert (devices_wf (db <| publications := <[mid := stored]> (publications db) |>)) as Hwf' by exact Hwf.
  destruct (inventory_apply_exact _ _ _ _ _ _ _ _ Hwf' Hitems Happ) as ([dv ->] & Hother & Hdev). simpl in *.
  split_and!; [eauto|exact Hdev|exact Hother].
Qed.
End Publications.

(** ** Samples *)
Import Toy.
Definition sample_error : AgentPublication := AgentErrorPublication "msg-1" (seconds 4) "printer.offline" "No paper" None true.
Definition sample_reported : Database :=
  snd (record_publication "agt_1" "inari/gateway/agt_1/events" sample_error (seconds 5) (seconds 5) sample_admitted).
Lemma publication_is_recorded_once_witness :
  record_publication "agt_1" "inari/gateway/agt_1/events" sample_error (seconds 9) (seconds 9) sample_reported
    = (Ok tt, sample_reported).
Proof.
  destruct (publication_is_recorded_once "agt_1" "inari/gateway/agt_1/events" sample_error (seconds 5) (seconds 5)
    sample_admitted sample_reported) as [Hagain _]; [vm_compute; reflexivity|].
  apply Hagain.
Defined.

Lemma sequences_wf_singleton c : 0 < cm_sequence c -> cm_sequence c = 1 ->
  sequences_wf (sample_admitted <| commands := {[cm_command_id c := c]} |>).
Proof.
  intros Hp H1. split_and!; simpl.
  - intros k d [<- <-]%lookup_singleton_Some. done.
  - intros k1 k2 c1 c2 [<- <-]%lookup_singleton_Some [<- <-]%lookup_singleton_Some. done.
  - intros k d n [<- <-]%lookup_singleton_Some Hn. exists (cm_command_id c), c. rewrite lookup_singleton_eq.
    split_and!; [done|done|lia].
Qed.
Definition sample_dispatch : CommandRow :=
  mkCommand "job_dispatch_1" "agt_1" "msg_job_dispatch_1" 1 CsPublished (ManagedWorkContent "mw_1") (digest_of "r")
    (seconds 4) None (seconds 4).
Definition sample_dispatching : Database :=
  sample_admitted <| commands := {["job_dispatch_1" := sample_dispatch]} |>.
Lemma receipts_leave_managed_work_alone_witness :
  exists r db', record_publication "agt_1" "k" (CommandRejected "msg-2" "job_dispatch_1" (seconds 5) "busy" "Busy")
                  (seconds 6) (seconds 6) sample_dispatching = (r, db') /\
    commands db' !! "job_dispatch_1" = Some sample_dispatch.
Proof.
  eexists _, _. split; [vm_compute; reflexivity|].
  eapply (receipts_leave_managed_work_alone "agt_1" "k" (CommandRejected "msg-2" "job_dispatch_1" (seconds 5) "busy" "Busy")
    (seconds 6) (seconds 6) sample_dispatching);
    [apply (sequences_wf_singleton sample_dispatch); reflexivity|eexists; reflexivity|vm_compute; reflexivity
    |reflexivity|reflexivity].
Defined.

Definition sample_newer : GatewaySnapshot :=
  mkGatewaySnapshot (seconds 120) ProtocolDescriptor_default (gs_service sample_snapshot) (gs_security sample_snapshot)
    (gs_runtime sample_snapshot) (gs_capabilities sample_snapshot) [].
Definition sample_online : Database :=
  snd (record_publication "agt_2" "k" (StatusSnapshot "msg-3" sample_newer) (seconds 121) (seconds 121) (snd sample_enrolled)).
Lemma status_snapshot_is_applied_when_current_witness :
  exists i ag, agents (snd sample_enrolled) !! "agt_2" = Some ag /\
    bound_invitation (snd sample_enrolled) "agt_2" ag = Some i /\ snapshot_applies i ag sample_newer = true /\
    iv_state <$> invitations sample_online !! ic_id sample_code = Some SInvOnline.
Proof.
  assert (devices_wf (snd sample_enrolled)) as Hwf by decide_now.
  destruct (agents (snd sample_enrolled) !! "agt_2") as [ag|] eqn:Hag; [|vm_compute in Hag; discriminate].
  destruct (status_snapshot_is_applied_when_current "agt_2" "k" "msg-3" sample_newer (seconds 121) (seconds 121)
    (snd sample_enrolled) sample_online ag Hwf Hag) as (items & _ & Hcase); [reflexivity|vm_compute; reflexivity|].
  destruct (bound_invitation (snd sample_enrolled) "agt_2" ag) as [i|] eqn:Hb; cycle 1.
  { vm_compute in Hag. injection Hag as <-. vm_compute in Hb. discriminate. }
  destruct (snapshot_applies i ag sample_newer) eqn:Happ; cycle 1.
  { vm_compute in Hag. injection Hag as <-. vm_compute in Hb. injection Hb as <-. vm_compute in Happ. discriminate. }
  exists i, ag. split_and!; [done|done|done|]. destruct Hcase as [(row & Hrow & ->) _].
  assert (iv_invitation_id i = ic_id sample_code) as ->.
  { vm_compute in Hag. injection Hag as <-. vm_compute in Hb. injection Hb as <-. reflexivity. }
  by rewrite lookup_insert_eq.
Defined.
