(* ===== verification/Retirement.v ===== *)
(** * Retirement of an Agent's credentials

    [crates/inari-gateway/src/persistence/retirement.rs]: every active key of the Agent is retired, its live
    invitations are revoked and its devices removed, in one transaction.  The keys' triggers invalidate the
    router policy of the organization. *)
From S2P Require Import Prelude Errors Identifiers InvitationCode Protocol Schema Samples AuditLog.
From S2P Require Import RouterPolicy Keys Publications.

Definition retire_in (organization_id agent_id : string) (audit : AuditContext) (now occurred_at : instant) : Tx unit :=
  db ← get;
  agent ← expect (agents db !! agent_id) (NotFound "Agent was not found");
  _ ← require (String.eqb (ag_organization_id agent) organization_id) (NotFound "Agent was not found");
  retired ← retire_keys_where (fun k => String.eqb (vk_agent_id k) agent_id && active_key k) (stored_time now);
  _ ← update_invitations_where
        (fun i => bool_decide (iv_bound_agent_id i = Some agent_id) && live_invitation (iv_state i))
        (fun i => i <| iv_state := SInvRevoked |> <| iv_revoked_at := Some (stored_time now) |>);
  _ ← delete_devices_where (fun d => String.eqb (dv_agent_id d) agent_id);
  if 0 <? (retired : Z) then
    insert_audit_event occurred_at
      (mkDraft organization_id (ax_actor_id audit) ActAgentCredentialsRetired (ResAgent agent_id) Succeeded
         (ax_request_id audit))
  else mret tt.

Definition retire_agent_credentials (organization_id agent_id : string) (audit : AuditContext)
    (now occurred_at : instant) : Repo unit :=
  transaction (retire_in organization_id agent_id audit now occurred_at).

(** ** Lemmas *)
(** Retiring at least one key of an Agent makes the admissions of its organization stale. *)
Lemma retire_keys_stale p t db n db' agent_id a row :
  router_policies_wf db -> (forall k, p k = true -> vk_agent_id k = agent_id) ->
  agents db !! agent_id = Some a -> router_policies db !! ag_organization_id a = Some row ->
  0 < n -> retire_keys_where p t db = Ok (n, db') ->
  stale (ag_organization_id a) (rp_generation row) db'.
Proof.
  intros Hwf Hp Ha Hrow Hn Hrun. pose proof (retire_keys_where_Ok _ _ _ _ _ Hrun) as [_ En].
  unfold retire_keys_where in Hrun.
  apply tx_bind_Ok in Hrun as (db0 & s1 & [-> ->]%get_Ok & Hrun). cbv zeta in Hrun.
  apply tx_bind_Ok in Hrun as (u1 & s2 & [_ ->]%modify_Ok & Hrun).
  apply tx_bind_Ok in Hrun as (u2 & s3 & Heach & [_ ->]%tx_ret_Ok).
  unfold count_where in En. assert (forall k, k ∈ rows_where (agent_verification_keys db) p -> p k = true) as Hin
    by (intros k Hk; by apply elem_of_rows_where in Hk as [? _]).
  destruct (rows_where (agent_verification_keys db) p) as [|k l]; [simpl in En; lia|].
  simpl in Heach. apply tx_bind_Ok in Heach as (u3 & s4 & Hfirst & Hrest).
  assert (Steps router_progress (each (fun k => invalidate_on_key_change (vk_agent_id k)) l)) as Hprog by steps.
  eapply stale_progress; [exact (Hprog _ _ _ Hrest)|].
  unfold invalidate_on_key_change in Hfirst. rewrite (Hp k (Hin k ltac:(set_solver))) in Hfirst.
  apply tx_bind_Ok in Hfirst as (db0 & s1 & [-> ->]%get_Ok & Hfirst). simpl in Hfirst. rewrite Ha in Hfirst.
  eapply invalidate_organization_stale; [|exact Hfirst|exact Hrow]. exact Hwf.
Qed.

Lemma retire_in_Ok o a ax now occ db u db' : retire_in o a ax now occ db = Ok (u, db') ->
  exists ag, agents db !! a = Some ag /\ ag_organization_id ag = o /\
    agents db' = agents db /\
    agent_verification_keys db' =
      update_where (fun k => String.eqb (vk_agent_id k) a && active_key k) (retire (stored_time now))
        (agent_verification_keys db) /\
    invitations db' =
      update_where (fun i => bool_decide (iv_bound_agent_id i = Some a) && live_invitation (iv_state i))
        (fun i => i <| iv_state := SInvRevoked |> <| iv_revoked_at := Some (stored_time now) |>) (invitations db) /\
    devices db' = delete_where (devices db) (fun d => String.eqb (dv_agent_id d) a) /\
    (router_policies_wf db -> forall row, router_policies db !! o = Some row ->
       (exists k r, agent_verification_keys db !! k = Some r /\ vk_agent_id r = a /\ active_key r = true) ->
       stale o (rp_generation row) db').
Proof.
  unfold retire_in. intros Hrun.
  apply tx_bind_Ok in Hrun as (db0 & s1 & [-> ->]%get_Ok & Hrun).
  apply tx_bind_Ok in Hrun as (ag & s2 & [Hag ->]%expect_Ok & Hrun).
  apply tx_bind_Ok in Hrun as (u1 & s3 & [Ho ->]%require_Ok & Hrun). apply String.eqb_eq in Ho.
  apply tx_bind_Ok in Hrun as (n & s4 & Hret & Hrun).
  apply tx_bind_Ok in Hrun as (m & s5 & [-> _]%update_invitations_where_Ok & Hrun).
  apply tx_bind_Ok in Hrun as (u2 & s6 & [_ ->]%modify_Ok & Hrun).
  pose proof (steps_run (R := same agents) _ _ _ Hret) as A1.
  pose proof (steps_run (R := same invitations) _ _ _ Hret) as I1.
  pose proof (steps_run (R := same devices) _ _ _ Hret) as D1. unfold same in *.
  pose proof (retire_keys_where_Ok _ _ _ _ _ Hret) as [K1 En].
  exists ag. split; [done|]. split; [done|].
  assert (agents db' = agents s4 /\ agent_verification_keys db' = agent_verification_keys s4 /\
    router_policies db' = router_policies s4 /\
    invitations db' = update_where (fun i => bool_decide (iv_bound_agent_id i = Some a) && live_invitation (iv_state i))
        (fun i => i <| iv_state := SInvRevoked |> <| iv_revoked_at := Some (stored_time now) |>) (invitations s4) /\
    devices db' = delete_where (devices s4) (fun d => String.eqb (dv_agent_id d) a)) as (E1 & E2 & E3 & E4 & E5).
  { destruct (0 <? n); [apply insert_audit_event_Ok in Hrun as [_ ->]|apply tx_ret_Ok in Hrun as [_ ->]]; done. }
  split_and!; [congruence|congruence|congruence|congruence|].
  intros Hwf row Hrow (k & r & Hk & Hka & Hact).
  assert (stale o (rp_generation row) s4) as Hst.
  { rewrite <- Ho in *. eapply retire_keys_stale; [done| |done|done| |exact Hret].
    - intros k' Hk'. cbv beta in Hk'. bools. by apply String.eqb_eq.
    - rewrite En. unfold count_where.
      assert (r ∈ rows_where (agent_verification_keys db) (fun k => String.eqb (vk_agent_id k) a && active_key k)) as Hr.
      { apply elem_of_rows_where. rewrite Hka, String.eqb_refl, Hact. eauto. }
      destruct (rows_where _ _); [set_solver|simpl; lia]. }
  destruct Hst as (row' & Hr' & Hcase). exists row'. by rewrite E3.
Qed.

(** Retirement takes effect at once and completely.  Afterwards the Agent has no active key, no live
    invitation and no device; no admission for it passes the dispatch check, whenever it was issued; and if
    a key was active before, every outstanding admission of the whole organization is refused too, until the
    Routers acknowledge a new policy. *)
Theorem retired_agent_is_locked_out o a ax now occ db db' :
  router_policies_wf db ->
  retire_agent_credentials o a ax now occ db = (Ok tt, db') ->
  (forall k r, agent_verification_keys db' !! k = Some r -> vk_agent_id r = a -> active_key r = false) /\
  (forall k i, invitations db' !! k = Some i -> iv_bound_agent_id i = Some a -> live_invitation (iv_state i) = false) /\
  (forall k d, devices db' !! k = Some d -> dv_agent_id d <> a) /\
  (forall ad t, is_ok (fst (require_router_admission ad a t db')) = false) /\
  (forall row, router_policies db !! o = Some row ->
     (exists k r, agent_verification_keys db !! k = Some r /\ vk_agent_id r = a /\ active_key r = true) ->
     forall ad any t, ra_organization_id ad = o -> ra_generation ad <= rp_generation row ->
       is_ok (fst (require_router_admission ad any t db')) = false).
Proof.
  intros Hwf Hrun%transaction_Ok.
  apply retire_in_Ok in Hrun as (ag & Hag & Ho & Eag & Ekey & Einv & Edev & Hstale).
  assert (forall k r, agent_verification_keys db' !! k = Some r -> vk_agent_id r = a -> active_key r = false) as Hno.
  { intros k r. rewrite Ekey, lookup_update_where. intros (r0 & Hr0 & ->)%fmap_Some.
    destruct (String.eqb_spec (vk_agent_id r0) a) as [Ea|Ea]; simpl; [|done].
    destruct (active_key r0) eqn:Hact; [|done]. done. }
  assert (forall db ad any t, (forall u s, require_admission_in ad any t db <> Ok (u, s)) ->
    is_ok (fst (require_router_admission ad any t db)) = false) as Hfail.
  { intros d ad any t Hn. unfold require_router_admission, transaction.
    destruct (require_admission_in ad any t d) as [[u s]|] eqn:E; [|done]. by destruct (Hn u s). }
  split_and!; [exact Hno| | | |].
  - intros k i. rewrite Einv, lookup_update_where. intros (i0 & Hi0 & ->)%fmap_Some.
    destruct (bool_decide (iv_bound_agent_id i0 = Some a)) eqn:Hb; simpl.
    + destruct (live_invitation (iv_state i0)) eqn:Hl; [done|]. done.
    + intros Hb'. apply bool_decide_eq_false in Hb. done.
  - intros k d Hd Hda. rewrite Edev in Hd. apply lookup_delete_where in Hd as [_ Hd].
    apply String.eqb_neq in Hd. done.
  - intros ad t. apply Hfail. intros u s [[_ (k & ar & Har & Hid & _ & Hact)] _]%require_admission_Ok.
    unfold active_agent in Hact. bools.
    match goal with H : no_row _ (fun _ => _ && String.eqb _ _ && _) = false |- _ => apply no_row_false in H as (k' & r & Hr & Hp) end.
    bools. rewrite !String.eqb_eq in *. rewrite (Hno k' r) in * by congruence. done.
  - intros row Hrow Hkey ad any t Hoad Hgen. apply Hfail. intros u s [Hadm _]%require_admission_Ok.
    destruct (Hstale Hwf row Hrow Hkey) as (row' & Hrow' & Hcase).
    apply (stale_not_admitted db' ad any t); [|done]. rewrite Hoad. exists row'. split; [done|].
    destruct Hcase as [?|[Hg Hrev]]; [left; lia|].
    destruct (decide (ra_generation ad = rp_generation row)) as [->|]; [right; done|left; lia].
Qed.

(** Retirement is idempotent: repeating it succeeds, changes nothing and writes no second audit
    event. *)
Theorem retirement_is_idempotent o a ax now occ db db' ax2 now2 occ2 :
  retire_agent_credentials o a ax now occ db = (Ok tt, db') ->
  retire_agent_credentials o a ax2 now2 occ2 db' = (Ok tt, db').
Proof.
  intros Hrun%transaction_Ok.
  apply retire_in_Ok in Hrun as (ag & Hag & Ho & Eag & Ekey & Einv & Edev & _).
  assert (forall k r, agent_verification_keys db' !! k = Some r ->
    String.eqb (vk_agent_id r) a && active_key r = false) as Hk.
  { intros k r. rewrite Ekey, lookup_update_where. intros (r0 & Hr0 & ->)%fmap_Some.
    destruct (String.eqb (vk_agent_id r0) a && active_key r0) eqn:E; [|done]. by rewrite retire_inactive, andb_false_r. }
  assert (forall k i, invitations db' !! k = Some i ->
    bool_decide (iv_bound_agent_id i = Some a) && live_invitation (iv_state i) = false) as Hi.
  { intros k i. rewrite Einv, lookup_update_where. intros (i0 & Hi0 & ->)%fmap_Some.
    destruct (bool_decide (iv_bound_agent_id i0 = Some a) && live_invitation (iv_state i0)) eqn:E; [|done].
    simpl. by rewrite andb_false_r. }
  assert (forall k d, devices db' !! k = Some d -> String.eqb (dv_agent_id d) a = false) as Hd.
  { intros k d. rewrite Edev. by intros [_ ?]%lookup_delete_where. }
  apply transaction_Ok. unfold retire_in, update_invitations_where, delete_devices_where, retire_keys_where.
  unfold get, expect, lift, require, modify, mret, tx_ret. unfold mbind, tx_bind.
  rewrite Eag, Hag. simpl. rewrite Ho, String.eqb_refl. simpl.
  rewrite (rows_where_none _ _ Hk). simpl. rewrite (update_where_none _ _ _ Hk), (update_where_none _ _ _ Hi).
  rewrite (delete_where_none _ _ Hd). by destruct db'.
Qed.

Definition sample_retired : Database :=
  snd (retire_agent_credentials "org_acme" "agt_1" (mkAuditContext "oidc:alice" None) (seconds 6) (seconds 6) sample_admitted).
Lemma sample_policies_wf : router_policies_wf sample_admitted.
Proof.
  intros o row Hr. change (router_policies sample_admitted) with
    ({["org_acme" := sample_policy]} : gmap string RouterPolicyRow) in Hr.
  apply lookup_singleton_Some in Hr as [<- <-]. intros r [= <-]. reflexivity.
Qed.
Lemma retired_agent_is_locked_out_witness :
  is_ok (fst (require_router_admission sample_admission "agt_1" (seconds 7) sample_admitted)) = true /\
  is_ok (fst (require_router_admission sample_admission "agt_1" (seconds 7) sample_retired)) = false.
Proof.
  split; [vm_compute; reflexivity|].
  destruct (retired_agent_is_locked_out "org_acme" "agt_1" (mkAuditContext "oidc:alice" None) (seconds 6) (seconds 6)
    sample_admitted sample_retired sample_policies_wf) as (_ & _ & _ & Hout & _); [vm_compute; reflexivity|].
  apply Hout.
Defined.
Lemma retirement_is_idempotent_witness :
  retire_agent_credentials "org_acme" "agt_1" (mkAuditContext "oidc:bob" None) (seconds 9) (seconds 9) sample_retired
    = (Ok tt, sample_retired).
Proof.
  eapply (retirement_is_idempotent "org_acme" "agt_1" (mkAuditContext "oidc:alice" None) (seconds 6) (seconds 6)
    sample_admitted). vm_compute. reflexivity.
Defined.
