(* ===== verification/ManagedWork.v ===== *)
(** * Managed Work

    [crates/inari-gateway/src/persistence/managed_work.rs].  A print submission becomes one Managed Work
    row, one encrypted payload and one dispatch command, in one transaction that checks the router
    admission, the preflight, the target and the queue limits.  The payload is deleted when the Agent
    reports the job or the work expires.  Clock reads are arguments. *)
From S2P Require Import Prelude Errors Identifiers InvitationCode Protocol Schema Samples RouterPolicy.
From S2P Require Import Commands Security Observations Inventory.

Definition AGENT_PENDING_WORK_LIMIT : Z := 32.
Definition AGENT_PENDING_BYTE_LIMIT : Z := 64 * 1024 * 1024.
Definition ORGANIZATION_PENDING_WORK_LIMIT : Z := 256.
Definition ORGANIZATION_PENDING_BYTE_LIMIT : Z := 512 * 1024 * 1024.

(** ** The repository's argument and result types ([persistence/mod.rs]) *)
Record ManagedWorkTargetRecord := mkTarget {
  tg_organization_id : string;
  tg_site_id : string;
  tg_agent_id : string;
  tg_device_id : string;
  tg_device_state : DeviceState;
  tg_capabilities : list DeviceCapability;
  tg_dispatch_key : DispatchEncryptionKey;
}.
Record NewManagedWorkPreflight := mkNewPreflight {
  nf_preflight_id : string;
  nf_request : ManagedWorkPreflightRequest;
  nf_dispatch_key_id : string;
  nf_capability_digest : string;
  nf_work_expires_at : instant;
  nf_idempotency_expires_at : instant;
  nf_submit_before : instant;
  nf_created_at : instant;
}.
Record PersistedManagedWork := mkPersistedManagedWork {
  pw_managed_work_id : string;
  pw_print_intent_id : string;
  pw_scope : ManagedWorkScope;
  pw_device_id : string;
  pw_operation : ManagedDocumentOperation;
  pw_state : ManagedWorkState;
  pw_print_job_id : option string;
  pw_print_job_observation : option SignedAgentStateObservation;
  pw_error_code : option string;
  pw_message_key : string;
  pw_admitted_at : instant;
  pw_updated_at : instant;
  pw_expires_at : instant;
}.
Record PersistedManagedWorkDispatch := mkPersistedDispatch {
  pd_managed_work : PersistedManagedWork;
  pd_command : option PersistedCommand;
}.
(** [nonce] is a [[u8; 12]], [authenticated_data_digest] a [[u8; 32]], [wrapping_key_version] a [u32]. *)
Record NewManagedPayload := mkNewPayload {
  nl_ciphertext : string;
  nl_nonce : string;
  nl_wrapped_data_key : string;
  nl_wrapping_key_version : Z;
  nl_authenticated_data_digest : string;
  nl_plaintext_bytes : Z;
}.
Record ManagedPayloadContext := mkPayloadContext {
  px_organization_id : string;
  px_managed_work_id : string;
  px_idempotency_key : string;
  px_payload_fingerprint : string;
  px_request_fingerprint : string;
}.
Record PersistedManagedPayload := mkPersistedPayload {
  pl_protection : NewManagedPayload;
  pl_context : ManagedPayloadContext;
}.
Record ManagedDispatchAllocation := mkAllocation {
  al_managed_work_id : string;
  al_sequence : Z;
  al_command_id : string;
  al_message_id : string;
  al_issued_at : instant;
  al_recipient_key : DispatchEncryptionKey;
  al_work_expires_at : instant;
}.
Record ManagedWorkAdmission := mkWorkAdmission {
  ma_router_admission : RouterAdmission;
  ma_managed_work_id : string;
  ma_idempotency_key : string;
  ma_submission : ManagedWorkSubmission;
  ma_request_fingerprint : string;
  ma_payload_fingerprint : string;
  ma_payload_bytes : Z;
  ma_admitted_at : instant;
}.

(** ** Conversions *)
Definition ManagedDocumentOperationValue_from (o : ManagedDocumentOperation) : ManagedDocumentOperationValue :=
  match o with OpReportPdf => MvReportPdf | OpLabelDocument => MvLabelDocument end.
Definition ManagedDocumentOperation_from (o : ManagedDocumentOperationValue) : ManagedDocumentOperation :=
  match o with MvReportPdf => OpReportPdf | MvLabelDocument => OpLabelDocument end.
Definition ManagedWorkState_from (s : ManagedWorkStateValue) : ManagedWorkState :=
  match s with
  | MwPendingAgent => PendingAgent | MwDispatching => Dispatching | MwAccepted => Accepted
  | MwRejected => Rejected | MwCanceled => Canceled | MwExpired => Expired
  | MwRecoveryUncertain => RecoveryUncertain
  end.

Definition persisted_managed_work (model : ManagedWorkRow) : GatewayResult PersistedManagedWork :=
  managed_work_id ← ManagedWorkId_from_str (mw_managed_work_id model);
  print_intent_id ← PrintIntentId_from_str (mw_print_intent_id model);
  organization_id ← OrganizationId_from_str (mw_organization_id model);
  site_id ← SiteId_from_str (mw_site_id model);
  agent_id ← AgentId_from_str (mw_agent_id model);
  device_id ← DeviceId_from_str (mw_device_id model);
  Ok (mkPersistedManagedWork managed_work_id print_intent_id
        (mkManagedWorkScope (mw_database_name model) (mw_company_id model) organization_id site_id agent_id)
        device_id (ManagedDocumentOperation_from (mw_operation model)) (ManagedWorkState_from (mw_state model))
        (mw_print_job_id model) (mw_print_job_observation model) (mw_error_code model) (mw_message_key model)
        (utc_time (mw_admitted_at model)) (utc_time (mw_updated_at model)) (utc_time (mw_expires_at model))).

(** ** Preflights and targets *)
Definition create_managed_work_preflight (p : NewManagedWorkPreflight) : Repo unit :=
  transaction (insert_preflight (mkPreflight (nf_preflight_id p) (nf_request p) (nf_dispatch_key_id p)
    (nf_capability_digest p) (stored_time (nf_work_expires_at p)) (stored_time (nf_idempotency_expires_at p))
    (stored_time (nf_submit_before p)) (stored_time (nf_created_at p)))).

Definition managed_work_target (organization_id site_id agent_id device_id : string)
    : Repo ManagedWorkTargetRecord :=
  agent ← queries (fun db => ok_or (agents db !! agent_id) (NotFound "managed Agent was not found"));
  _ ← returns (ensure (negb (negb (String.eqb (ag_organization_id agent) organization_id)
                         || negb (String.eqb (ag_site_id agent) site_id)))
                 (Forbidden "managed Agent scope does not match the request"));
  dispatch_key ← returns (ok_or (ag_dispatch_key agent)
                            (Conflict "managed Agent must re-enroll with a dispatch key"));
  device ← queries (fun db => ok_or (devices db !! (agent_id, device_id)) (NotFound "managed Device was not found"));
  _ ← returns (ensure (negb (negb (String.eqb (dv_agent_id device) agent_id)
                         || negb (String.eqb (dv_site_id device) site_id)))
                 (Forbidden "managed Device scope does not match the request"));
  returns (
    organization_id ← OrganizationId_from_str (ag_organization_id agent);
    site_id ← SiteId_from_str (ag_site_id agent);
    agent_id ← AgentId_from_str (ag_agent_id agent);
    device_id ← DeviceId_from_str (dv_device_id device);
    Ok (mkTarget organization_id site_id agent_id device_id (DeviceState_from (dv_state device))
          (dv_capabilities device) dispatch_key)).

Definition managed_work_target_in (organization_id site_id agent_id device_id : string) : Tx DispatchEncryptionKey :=
  db ← get;
  agent ← expect (agents db !! agent_id) (NotFound "managed Agent was not found");
  _ ← require (negb (negb (String.eqb (ag_organization_id agent) organization_id)
                || negb (String.eqb (ag_site_id agent) site_id)))
        (Forbidden "managed Agent scope does not match the request");
  device ← expect (devices db !! (agent_id, device_id)) (NotFound "managed Device was not found");
  _ ← require (negb (negb (String.eqb (dv_agent_id device) agent_id)
                || negb (String.eqb (dv_site_id device) site_id)))
        (Forbidden "managed Device scope does not match the request");
  expect (ag_dispatch_key agent) (Conflict "managed Agent must re-enroll with a dispatch key").

(** ** Expiry

    [SELECT ... LIMIT 256] names no order: [scan_order] is the order in which the database happens to
    return the rows, a parameter of the deployment. *)
Class ScanOrder := scan_order : list ManagedWorkRow -> list ManagedWorkRow.
Class ScanOrderSpec `{ScanOrder} : Prop := scan_order_permutes : forall l, scan_order l ≡ₚ l.
Definition EXPIRY_BATCH : nat := 256.

Definition expirable_work (now : instant) (w : ManagedWorkRow) : bool :=
  bool_decide (mw_payload_deleted_at w = None)
  && ((mw_expires_at w <=? stored_time now) || bool_decide (mw_state w = MwRecoveryUncertain)).

Definition next_state (s : ManagedWorkStateValue) : option (ManagedWorkStateValue * string) :=
  match s with
  | MwPendingAgent => Some (MwExpired, "managed_work.expired")
  | MwDispatching => Some (MwRecoveryUncertain, "managed_work.recovery_uncertain")
  | _ => None
  end.

Definition expire_work (now : instant) (w : ManagedWorkRow) : ManagedWorkRow :=
  let w := match next_state (mw_state w) with
           | Some (state, message_key) => w <| mw_state := state |> <| mw_message_key := message_key |>
           | None => w
           end in
  w <| mw_payload_deleted_at := Some (stored_time now) |> <| mw_updated_at := stored_time now |>.

Definition expire_one (now : instant) (id : string) : Tx unit :=
  _ ← delete_managed_payload id; update_managed_work id (expire_work now).

Definition expire_in `{ScanOrder} (now : instant) : Tx Z :=
  db ← get;
  let work := take EXPIRY_BATCH (scan_order (rows_where (managed_work db) (expirable_work now))) in
  _ ← each (fun model => expire_one now (mw_managed_work_id model)) work;
  mret (Z.of_nat (length work)).
Definition expire_managed_payloads `{ScanOrder} (now : instant) : Repo Z := transaction (expire_in now).

(** ** Usage and limits *)
Record PendingUsage := mkPendingUsage { us_work_count : Z; us_payload_bytes : Z }.

Definition pending_state (s : ManagedWorkStateValue) : bool :=
  match s with MwPendingAgent | MwDispatching => true | _ => false end.
Definition sum_bytes (l : list ManagedWorkRow) : Z := foldr (fun w n => mw_payload_bytes w + n) 0 l.

(** [SELECT COUNT( * )::BIGINT, COALESCE(SUM(payload_bytes), 0)::BIGINT ... WHERE column = $1 AND state IN (...)]:
    the sum of [BIGINT] values is exact, its cast checks the range. *)
Definition pending_rows (db : Database) (scope_column : ManagedWorkRow -> string) (scope_value : string)
    : list ManagedWorkRow :=
  rows_where (managed_work db) (fun w => String.eqb (scope_column w) scope_value && pending_state (mw_state w)).
Definition pending_usage (scope_column : ManagedWorkRow -> string) (scope_value : string) : Tx PendingUsage :=
  db ← get;
  let l := pending_rows db scope_column scope_value in
  payload_bytes ← expect (i64_try_from (sum_bytes l)) (Persistence NumericOutOfRange);
  mret (mkPendingUsage (Z.of_nat (length l)) payload_bytes).

Definition enforce_quota (usage : PendingUsage) (payload_bytes work_limit byte_limit : Z) (scope_name : string)
    : GatewayResult unit :=
  next_bytes ← ok_or (i64_checked_add (us_payload_bytes usage) payload_bytes)
                 (Conflict "Managed Work byte use is out of range");
  ensure (negb ((work_limit <=? us_work_count usage) || (byte_limit <? next_bytes)))
    (Capacity (scope_name ++ " Managed Work queue is full")).

(** ** Admission *)
Section Admission.
Context `{Encoding, Sha256}.

Definition dispatch_command_id (managed_work_id : string) : string :=
  "job_dispatch_" ++ hex_encode (fst (split_at 16 (sha256 managed_work_id))).

Definition same_submission (organization_id idempotency_key print_intent_id request_fingerprint : string)
    (existing : option ManagedWorkRow) (candidate : ManagedWorkRow) : bool :=
  negb (negb (String.eqb (mw_organization_id candidate) organization_id)
        || negb (String.eqb (mw_idempotency_key candidate) idempotency_key)
        || negb (String.eqb (mw_print_intent_id candidate) print_intent_id)
        || negb (String.eqb (mw_request_fingerprint candidate) request_fingerprint)
        || match existing with
           | Some e => negb (String.eqb (mw_managed_work_id e) (mw_managed_work_id candidate))
           | None => false
           end).

Fixpoint merge_candidates (same : option ManagedWorkRow -> ManagedWorkRow -> bool)
    (existing : option ManagedWorkRow) (candidates : list ManagedWorkRow) : GatewayResult (option ManagedWorkRow) :=
  match candidates with
  | [] => Ok existing
  | candidate :: rest =>
      if same existing candidate then merge_candidates same (Some candidate) rest
      else Err (Conflict "a Managed Work identity was already used for different Device Work")
  end.

Definition existing_candidates (db : Database) (managed_work_id organization_id idempotency_key print_intent_id : string)
    : list ManagedWorkRow :=
  omap id [
    managed_work db !! managed_work_id;
    find_one (managed_work db) (fun w => String.eqb (mw_organization_id w) organization_id
                                         && String.eqb (mw_idempotency_key w) idempotency_key);
    find_one (managed_work db) (fun w => String.eqb (mw_print_intent_id w) print_intent_id) ].

Definition find_existing_managed_work
    (managed_work_id organization_id idempotency_key print_intent_id request_fingerprint : string)
    : Tx (option ManagedWorkRow) :=
  db ← get;
  lift (merge_candidates (same_submission organization_id idempotency_key print_intent_id request_fingerprint) None
          (existing_candidates db managed_work_id organization_id idempotency_key print_intent_id)).

(** The part of [existing_dispatch] before the commit: the row, and its command while it dispatches. *)
Definition existing_dispatch (existing : ManagedWorkRow) : Tx (ManagedWorkRow * option PersistedCommand) :=
  if bool_decide (mw_state existing = MwDispatching) then
    db ← get;
    model ← expect (commands db !! dispatch_command_id (mw_managed_work_id existing))
              (CorruptState "dispatching Managed Work has no durable Controller command");
    agent ← expect (agents db !! mw_agent_id existing) (CorruptState "Managed Work Agent is missing");
    command ← lift (persisted_command model (ag_namespace agent));
    mret (existing, Some command)
  else mret (existing, None).

(** The conversion after the commit: its error does not undo the transaction. *)
Definition persisted_dispatch (r : ManagedWorkRow * option PersistedCommand)
    : GatewayResult PersistedManagedWorkDispatch :=
  work ← persisted_managed_work (fst r);
  Ok (mkPersistedDispatch work (snd r)).

Definition replay_in (managed_work_id organization_id idempotency_key print_intent_id request_fingerprint : string)
    : Tx (option (ManagedWorkRow * option PersistedCommand)) :=
  existing ← find_existing_managed_work managed_work_id organization_id idempotency_key print_intent_id
               request_fingerprint;
  match (existing : option ManagedWorkRow) with
  | Some existing => r ← existing_dispatch existing; mret (Some r)
  | None => mret None
  end.
Definition replay_managed_work
    (managed_work_id organization_id idempotency_key print_intent_id request_fingerprint : string)
    : Repo (option PersistedManagedWorkDispatch) :=
  r ← transaction (replay_in managed_work_id organization_id idempotency_key print_intent_id request_fingerprint);
  match (r : option (ManagedWorkRow * option PersistedCommand)) with
  | Some r => returns (Some <$> persisted_dispatch r)
  | None => mret None
  end.

Definition insert_dispatch_command (managed_work_id agent_id request_fingerprint : string) (issued_at : instant)
    (recipient_key : DispatchEncryptionKey) (work_expires_at : instant)
    (build_command : ManagedDispatchAllocation -> GatewayResult NewManagedPayload)
    : Tx (PersistedCommand * NewManagedPayload) :=
  db ← get;
  managed_agent ← expect (agents db !! agent_id) (CorruptState "Managed Work Agent is missing");
  next ← next_command_sequence agent_id;
  sequence ← expect (u64_try_from next) (Conflict "command sequence is out of range");
  let command_id := dispatch_command_id managed_work_id in
  let message_id := "msg_" ++ command_id in
  protected_payload ← lift (build_command (mkAllocation managed_work_id sequence command_id message_id issued_at
                                             recipient_key work_expires_at));
  let model := mkCommand command_id agent_id message_id next CsQueued (ManagedWorkContent managed_work_id)
                 request_fingerprint (stored_time issued_at) None (stored_time issued_at) in
  _ ← insert_command model;
  command ← lift (persisted_command model (ag_namespace managed_agent));
  mret (command, protected_payload).

Definition expected_request (s : ManagedWorkSubmission) : ManagedWorkPreflightRequest :=
  let work := sub_work s in
  mkManagedWorkPreflightRequest (sub_contract_major s) (dw_scope work) (dw_device_id work)
    (document_operation (dw_document work)) (po_binding (dw_origin work)).

Definition admitted_work (m : ManagedWorkAdmission) (preflight : ManagedWorkPreflightRow) : ManagedWorkRow :=
  let s := ma_submission m in
  let work := sub_work s in
  let scope := dw_scope work in
  let now := ma_admitted_at m in
  mkManagedWork (ma_managed_work_id m) (sub_preflight_id s) (sc_organization_id scope) (ma_idempotency_key m)
    (sc_database scope) (sc_company_id scope) (sc_site_id scope) (sc_agent_id scope) (dw_device_id work)
    (dw_print_intent_id work) (ManagedDocumentOperationValue_from (document_operation (dw_document work)))
    (media_type (document_operation (dw_document work))) MwDispatching (po_binding (dw_origin work))
    (ma_payload_fingerprint m) (ma_request_fingerprint m) (ma_payload_bytes m) None None None None
    "managed_work.dispatching" (stored_time (utc_time (pf_work_expires_at preflight)))
    (stored_time (utc_time (pf_idempotency_expires_at preflight))) (stored_time now) (stored_time now).

Definition protected_row (m : ManagedWorkAdmission) (preflight : ManagedWorkPreflightRow) (p : NewManagedPayload)
    (wrapping_key_version : Z) : ManagedPayloadRow :=
  mkManagedPayload (ma_managed_work_id m) (nl_ciphertext p) (nl_nonce p) (nl_wrapped_data_key p) wrapping_key_version
    (nl_authenticated_data_digest p) (ma_payload_fingerprint m) (nl_plaintext_bytes p)
    (stored_time (utc_time (pf_work_expires_at preflight))) (stored_time (ma_admitted_at m)).

(** The transaction after no earlier admission was found. *)
Definition admit_new (m : ManagedWorkAdmission)
    (build_command : ManagedDispatchAllocation -> GatewayResult NewManagedPayload)
    : Tx (ManagedWorkRow * option PersistedCommand) :=
  let submission := ma_submission m in
  let scope := dw_scope (sub_work submission) in
  let now := ma_admitted_at m in
  db ← get;
  preflight ← expect (managed_work_preflights db !! sub_preflight_id submission)
                (NotFound "Managed Work preflight was not found");
  _ ← require (bool_decide (pf_request preflight = expected_request submission))
        (Conflict "Managed Work submission does not match its preflight");
  _ ← require (negb (utc_time (pf_submit_before preflight) <=? now)) (Conflict "Managed Work preflight has expired");
  target ← managed_work_target_in (sc_organization_id scope) (sc_site_id scope) (sc_agent_id scope)
             (dw_device_id (sub_work submission));
  _ ← require (String.eqb (dk_key_id target) (pf_dispatch_key_id preflight))
        (Conflict "the Managed Work preflight does not use the current Agent dispatch key");
  agent_usage ← pending_usage mw_agent_id (sc_agent_id scope);
  _ ← lift (enforce_quota agent_usage (ma_payload_bytes m) AGENT_PENDING_WORK_LIMIT AGENT_PENDING_BYTE_LIMIT "Agent");
  organization_usage ← pending_usage mw_organization_id (sc_organization_id scope);
  _ ← lift (enforce_quota organization_usage (ma_payload_bytes m) ORGANIZATION_PENDING_WORK_LIMIT
              ORGANIZATION_PENDING_BYTE_LIMIT "Organization");
  dispatched ← insert_dispatch_command (ma_managed_work_id m) (sc_agent_id scope) (ma_request_fingerprint m) now
                 target (utc_time (pf_work_expires_at preflight)) build_command;
  let model := admitted_work m preflight in
  _ ← insert_managed_work model;
  wrapping_key_version ← expect (i32_try_from (nl_wrapping_key_version (snd dispatched)))
                           (InvalidInput "Transit key version is out of range");
  _ ← insert_managed_payload (protected_row m preflight (snd dispatched) wrapping_key_version);
  mret (model, Some (fst dispatched)).

Definition admit_in (m : ManagedWorkAdmission)
    (build_command : ManagedDispatchAllocation -> GatewayResult NewManagedPayload) (clock : instant)
    : Tx (ManagedWorkRow * option PersistedCommand) :=
  let submission := ma_submission m in
  let scope := dw_scope (sub_work submission) in
  _ ← require_admission_in (ma_router_admission m) (sc_agent_id scope) clock;
  existing ← find_existing_managed_work (ma_managed_work_id m) (sc_organization_id scope) (ma_idempotency_key m)
               (dw_print_intent_id (sub_work submission)) (ma_request_fingerprint m);
  match (existing : option ManagedWorkRow) with
  | Some existing => existing_dispatch existing
  | None => admit_new m build_command
  end.

(** [clock] is the time the router admission is checked at. *)
Definition admit_managed_work (m : ManagedWorkAdmission)
    (build_command : ManagedDispatchAllocation -> GatewayResult NewManagedPayload) (clock : instant)
    : Repo PersistedManagedWorkDispatch :=
  if negb (String.eqb (ra_organization_id (ma_router_admission m))
             (sc_organization_id (dw_scope (sub_work (ma_submission m)))))
  then returns (Err (Forbidden "Router admission belongs to another Organization"))
  else (r ← transaction (admit_in m build_command clock);
        returns (persisted_dispatch r)).

(** ** Reading *)
Definition managed_payload (managed_work_id : string) (now : instant) : Repo PersistedManagedPayload :=
  transaction (
    db ← get;
    work ← expect (Schema.managed_work db !! managed_work_id) (NotFound "Managed Work was not found");
    _ ← require (negb (negb (bool_decide (mw_state work = MwDispatching)) || (utc_time (mw_expires_at work) <=? now)))
          (Conflict "Managed Work is not available for dispatch");
    payload ← expect (managed_payloads db !! managed_work_id) (CorruptState "Managed Payload is missing");
    _ ← require (str_len (mp_nonce payload) =? 12) (CorruptState "Managed Payload nonce is invalid");
    wrapping_key_version ← expect (u32_try_from (mp_wrapping_key_version payload))
                             (CorruptState "Managed Payload key version is invalid");
    _ ← require (digest32 (mp_authenticated_data_digest payload))
          (CorruptState "Managed Payload authenticated data digest is invalid");
    mret (mkPersistedPayload
      (mkNewPayload (mp_ciphertext payload) (mp_nonce payload) (mp_wrapped_data_key payload) wrapping_key_version
         (mp_authenticated_data_digest payload) (mp_plaintext_bytes payload))
      (mkPayloadContext (mw_organization_id work) managed_work_id (mw_idempotency_key work)
         (hex_encode (mw_payload_fingerprint work)) (hex_encode (mw_request_fingerprint work))))).
End Admission.

Definition find_managed_work (managed_work_id : string) : Repo PersistedManagedWork :=
  queries (fun db =>
    model ← ok_or (Schema.managed_work db !! managed_work_id) (NotFound "Managed Work was not found");
    persisted_managed_work model).

(** ** Lemmas *)
#[global] Instance managed_work_target_in_read_only o s a d : ReadOnly (managed_work_target_in o s a d).
Proof. unfold managed_work_target_in. steps. Qed.
#[global] Instance pending_usage_read_only c v : ReadOnly (pending_usage c v).
Proof. unfold pending_usage. steps. Qed.
#[global] Instance find_existing_read_only i o k p f : ReadOnly (find_existing_managed_work i o k p f).
Proof. unfold find_existing_managed_work. steps. Qed.
#[global] Instance existing_dispatch_read_only `{Encoding, Sha256} w : ReadOnly (existing_dispatch w).
Proof. unfold existing_dispatch. steps. Qed.

Lemma resource_id_ok prefix label v : resource_id_valid prefix v = true -> resource_id_from_str prefix label v = Ok v.
Proof. intros Hv. by apply resource_id_Ok. Qed.

#[global] Instance sum_bytes_Permutation : Proper ((≡ₚ) ==> eq) sum_bytes.
Proof. intros l l' Hl. unfold sum_bytes. apply foldr_permutation; [typeclasses eauto..| |done]. intros; lia. Qed.
Lemma sum_bytes_app l l' : sum_bytes (l ++ l') = sum_bytes l + sum_bytes l'.
Proof. induction l as [|w l IH]; simpl; [done|]. unfold sum_bytes in *. simpl. lia. Qed.

(** *** Queue limits *)
Definition within (l : list ManagedWorkRow) (work_limit byte_limit : Z) : Prop :=
  Z.of_nat (length l) <= work_limit /\ sum_bytes l <= byte_limit.
Definition quotas (db : Database) : Prop :=
  map_Forall (fun _ w => 0 < mw_payload_bytes w) (managed_work db) /\
  (forall a, within (pending_rows db mw_agent_id a) AGENT_PENDING_WORK_LIMIT AGENT_PENDING_BYTE_LIMIT) /\
  (forall o, within (pending_rows db mw_organization_id o) ORGANIZATION_PENDING_WORK_LIMIT
               ORGANIZATION_PENDING_BYTE_LIMIT).
#[global] Instance within_Permutation : Proper ((≡ₚ) ==> eq ==> eq ==> iff) within.
Proof. intros l l' Hl ? _ <- ? _ <-. unfold within. by rewrite Hl. Qed.

Lemma pending_usage_Ok c v db u db' : pending_usage c v db = Ok (u, db') ->
  u = mkPendingUsage (Z.of_nat (length (pending_rows db c v))) (sum_bytes (pending_rows db c v)) /\ db' = db.
Proof. unfold pending_usage, i64_try_from. intros Hrun. tx_inv Hrun. case_match; by simplify_eq. Qed.
Lemma enforce_quota_Ok l bytes wl bl name :
  enforce_quota (mkPendingUsage (Z.of_nat (length l)) (sum_bytes l)) bytes wl bl name = Ok tt ->
  Z.of_nat (length l) < wl /\ sum_bytes l + bytes <= bl.
Proof.
  unfold enforce_quota, i64_checked_add. intros Hrun. res_inv Hrun. simpl in *.
  case_match; simplify_eq. by bools.
Qed.

(** A row admitted within a limit keeps the limit; the rows outside its scope do not change. *)
Lemma within_insert (db : Database) (c : ManagedWorkRow -> string) (w : ManagedWorkRow) wl bl :
  managed_work db !! mw_managed_work_id w = None ->
  Z.of_nat (length (pending_rows db c (c w))) < wl -> sum_bytes (pending_rows db c (c w)) + mw_payload_bytes w <= bl ->
  forall v, within (pending_rows db c v) wl bl ->
  within (pending_rows (db <| managed_work := <[mw_managed_work_id w := w]> (managed_work db) |>) c v) wl bl.
Proof.
  intros Hnew Hn Hb v Hv. unfold pending_rows in *. simpl. rewrite rows_where_insert by done.
  destruct (String.eqb_spec (c w) v) as [<-|Hne]; simpl; [|exact Hv].
  destruct (pending_state (mw_state w)); [|exact Hv]. destruct Hv. split; simpl; [lia|].
  unfold sum_bytes in *. simpl. lia.
Qed.

(** Replacing a row by one that is pending only if the old one was, with the same scope and size. *)
Lemma within_replace (db : Database) (c : ManagedWorkRow -> string) k w w' wl bl v :
  managed_work db !! k = Some w -> c w' = c w -> mw_payload_bytes w' = mw_payload_bytes w -> 0 < mw_payload_bytes w ->
  (pending_state (mw_state w') = true -> pending_state (mw_state w) = true) ->
  within (pending_rows db c v) wl bl ->
  within (pending_rows (db <| managed_work := <[k := w']> (managed_work db) |>) c v) wl bl.
Proof.
  intros Hk Hc Hb Hpos Himp Hv. unfold pending_rows in *. simpl.
  destruct (rows_where_replace (managed_work db)
    (fun w => String.eqb (c w) v && pending_state (mw_state w)) k w w' Hk) as (others & E1 & E2).
  rewrite E2. rewrite E1 in Hv. clear E1 E2. destruct Hv as [Hn Hs].
  rewrite length_app, sum_bytes_app in *. unfold within. rewrite length_app, sum_bytes_app. rewrite Hc.
  destruct (String.eqb (c w) v); simpl in *; [|done].
  destruct (pending_state (mw_state w')), (pending_state (mw_state w)); simpl in *;
    unfold sum_bytes in *; simpl in *; try done; try (specialize (Himp eq_refl); done); lia.
Qed.
Lemma quotas_replace (db : Database) k w w' :
  managed_work db !! k = Some w -> mw_agent_id w' = mw_agent_id w -> mw_organization_id w' = mw_organization_id w ->
  mw_payload_bytes w' = mw_payload_bytes w -> (pending_state (mw_state w') = true -> pending_state (mw_state w) = true) ->
  quotas db -> quotas (db <| managed_work := <[k := w']> (managed_work db) |>).
Proof.
  intros Hk Ha Ho Hb Himp (Hpos & Hag & Horg). pose proof (Hpos k w Hk) as Hw. simpl in Hw. split_and!.
  - intros j x. simpl. intros [[<- <-]|[_ Hj]]%lookup_insert_Some; [simpl; lia|exact (Hpos j x Hj)].
  - intros a. by eapply within_replace.
  - intros o. by eapply within_replace.
Qed.
Lemma same_quotas db db' : same managed_work db db' -> quotas db -> quotas db'.
Proof. unfold same, quotas, pending_rows. by intros ->. Qed.

(** *** What an admission does *)
Section AdmissionLemmas.
Context `{Encoding, Sha256}.

Lemma insert_dispatch_command_Ok work agent fp t key wexp build db cmd payload db' :
  insert_dispatch_command work agent fp t key wexp build db = Ok ((cmd, payload), db') ->
  exists ag row, agents db !! agent = Some ag /\
    cm_sequence row = default 0 (max_sequence db agent) + 1 /\ cm_sequence row <= i64_max /\
    row = mkCommand (dispatch_command_id work) agent ("msg_" ++ dispatch_command_id work) (cm_sequence row) CsQueued
            (ManagedWorkContent work) fp (stored_time t) None (stored_time t) /\
    build (mkAllocation work (cm_sequence row) (cm_command_id row) (cm_message_id row) t key wexp) = Ok payload /\
    insert_command row db = Ok (tt, db') /\ persisted_command row (ag_namespace ag) = Ok cmd.
Proof.
  unfold insert_dispatch_command. intros Hrun.
  apply tx_bind_Ok in Hrun as (db0 & s1 & [-> ->]%get_Ok & Hrun).
  apply tx_bind_Ok in Hrun as (ag & s2 & [Hag ->]%expect_Ok & Hrun).
  apply tx_bind_Ok in Hrun as (n & s3 & (Hn & Hmax & ->)%next_command_sequence_Ok & Hrun).
  apply tx_bind_Ok in Hrun as (q & s4 & [Hq ->]%expect_Ok & Hrun). cbv zeta in Hrun.
  unfold u64_try_from in Hq. destruct (is_u64 n); simplify_eq Hq. intros <-.
  apply tx_bind_Ok in Hrun as (p & s5 & [Hp ->]%lift_Ok & Hrun).
  apply tx_bind_Ok in Hrun as ([] & s6 & Hins & Hrun).
  apply tx_bind_Ok in Hrun as (c & s7 & [Hc ->]%lift_Ok & [Er ->]%tx_ret_Ok). injection Er as -> ->.
  eexists ag, _. split_and!; [done| | | | |exact Hins|exact Hc]; simpl; done.
Qed.

Lemma target_in_Ok o s a d db key db' : managed_work_target_in o s a d db = Ok (key, db') ->
  db' = db /\ exists ag dv, agents db !! a = Some ag /\ ag_organization_id ag = o /\ ag_site_id ag = s /\
    devices db !! (a, d) = Some dv /\ dv_site_id dv = s /\ ag_dispatch_key ag = Some key.
Proof.
  unfold managed_work_target_in. intros Hrun. tx_inv Hrun. bools. rewrite !String.eqb_eq in *. split; [done|].
  eexists _, _. split_and!; eauto; congruence.
Qed.

Lemma insert_managed_payload_checks row db u db' : insert_managed_payload row db = Ok (u, db') ->
  str_len (mp_nonce row) = 12 /\ digest32 (mp_authenticated_data_digest row) = true /\ 0 < mp_wrapping_key_version row.
Proof. unfold insert_managed_payload, managed_payloads_constraints, unique, check, references. intros Hrun. tx_inv Hrun. by bools. Qed.

(** Everything a new admission checked, and the three rows it stored. *)
Lemma admit_new_Ok m build db r db' : admit_new m build db = Ok (r, db') ->
  let s := ma_submission m in
  let scope := dw_scope (sub_work s) in
  exists preflight ag dv key row payload version cmd db1,
    managed_work_preflights db !! sub_preflight_id s = Some preflight /\
    pf_request preflight = expected_request s /\ ma_admitted_at m < pf_submit_before preflight /\
    agents db !! sc_agent_id scope = Some ag /\ ag_organization_id ag = sc_organization_id scope /\
    ag_site_id ag = sc_site_id scope /\ devices db !! (sc_agent_id scope, dw_device_id (sub_work s)) = Some dv /\
    ag_dispatch_key ag = Some key /\ dk_key_id key = pf_dispatch_key_id preflight /\
    (Z.of_nat (length (pending_rows db mw_agent_id (sc_agent_id scope))) < AGENT_PENDING_WORK_LIMIT /\
     sum_bytes (pending_rows db mw_agent_id (sc_agent_id scope)) + ma_payload_bytes m <= AGENT_PENDING_BYTE_LIMIT) /\
    (Z.of_nat (length (pending_rows db mw_organization_id (sc_organization_id scope))) < ORGANIZATION_PENDING_WORK_LIMIT /\
     sum_bytes (pending_rows db mw_organization_id (sc_organization_id scope)) + ma_payload_bytes m
       <= ORGANIZATION_PENDING_BYTE_LIMIT) /\
    (cm_sequence row = default 0 (max_sequence db (sc_agent_id scope)) + 1 /\ cm_sequence row <= i64_max /\
     row = mkCommand (dispatch_command_id (ma_managed_work_id m)) (sc_agent_id scope)
             ("msg_" ++ dispatch_command_id (ma_managed_work_id m)) (cm_sequence row) CsQueued
             (ManagedWorkContent (ma_managed_work_id m)) (ma_request_fingerprint m) (stored_time (ma_admitted_at m)) None
             (stored_time (ma_admitted_at m))) /\
    build (mkAllocation (ma_managed_work_id m) (cm_sequence row) (cm_command_id row) (cm_message_id row)
             (ma_admitted_at m) key (pf_work_expires_at preflight)) = Ok payload /\
    insert_command row db = Ok (tt, db1) /\ persisted_command row (ag_namespace ag) = Ok cmd /\
    insert_managed_work (admitted_work m preflight) db1 =
      Ok (tt, db1 <| managed_work := <[ma_managed_work_id m := admitted_work m preflight]> (managed_work db) |>) /\
    i32_try_from (nl_wrapping_key_version payload) = Some version /\
    (str_len (nl_nonce payload) = 12 /\ digest32 (nl_authenticated_data_digest payload) = true /\ 0 < version) /\
    db' = db <| commands := <[cm_command_id row := row]> (commands db) |>
             <| managed_work := <[ma_managed_work_id m := admitted_work m preflight]> (managed_work db) |>
             <| managed_payloads := <[ma_managed_work_id m := protected_row m preflight payload version]>
                                      (managed_payloads db) |> /\
    r = (admitted_work m preflight, Some cmd).
Proof.
  unfold admit_new. intros Hrun. cbv zeta in *.
  apply tx_bind_Ok in Hrun as (db0 & s1 & [-> ->]%get_Ok & Hrun).
  apply tx_bind_Ok in Hrun as (pf & s2 & [Hpf ->]%expect_Ok & Hrun).
  apply tx_bind_Ok in Hrun as (u1 & s3 & [Hreq ->]%require_Ok & Hrun).
  apply tx_bind_Ok in Hrun as (u2 & s4 & [Hexp ->]%require_Ok & Hrun).
  apply tx_bind_Ok in Hrun as (key & s5 & (-> & ag & dv & Hag & Ho & Hsite & Hdv & _ & Hkey)%target_in_Ok & Hrun).
  apply tx_bind_Ok in Hrun as (u3 & s6 & [Hkid ->]%require_Ok & Hrun).
  apply tx_bind_Ok in Hrun as (ua & s7 & [-> ->]%pending_usage_Ok & Hrun).
  apply tx_bind_Ok in Hrun as ([] & s8 & [Hqa%enforce_quota_Ok ->]%lift_Ok & Hrun).
  apply tx_bind_Ok in Hrun as (uo & s9 & [-> ->]%pending_usage_Ok & Hrun).
  apply tx_bind_Ok in Hrun as ([] & s10 & [Hqo%enforce_quota_Ok ->]%lift_Ok & Hrun).
  apply tx_bind_Ok in Hrun as ([cmd payload] & s11 & Hcmd & Hrun).
  apply insert_dispatch_command_Ok in Hcmd as (ag' & row & Hag' & Hseq & Hmax & Hrow & Hbuild & Hins & Hpc).
  assert (ag' = ag) as -> by congruence.
  apply tx_bind_Ok in Hrun as ([] & s12 & Hwork & Hrun). pose proof Hwork as Hwork'.
  apply insert_managed_work_Ok in Hwork' as (_ & _ & _ & _ & _ & _ & ->).
  apply tx_bind_Ok in Hrun as (version & s13 & [Hver ->]%expect_Ok & Hrun). simpl in Hver.
  apply tx_bind_Ok in Hrun as (u4 & s14 & Hpay & [-> ->]%tx_ret_Ok).
  pose proof (insert_managed_payload_checks _ _ _ _ Hpay) as Hchecks. simpl in Hchecks.
  apply insert_managed_payload_Ok in Hpay as (_ & _ & ->).
  pose proof Hins as (_ & _ & _ & _ & _ & _ & ->)%insert_command_Ok. bools. rewrite !String.eqb_eq in *.
  eexists pf, ag, dv, key, row, payload, version, cmd, _.
  destruct Hqa, Hqo, Hchecks as (? & ? & ?). split_and!; done.
Qed.

(** Admitted work has the identifiers of its scope, whose owner is enrolled. *)
Definition submission_valid (m : ManagedWorkAdmission) : bool :=
  let work := sub_work (ma_submission m) in
  let scope := dw_scope work in
  resource_id_valid "mw_" (ma_managed_work_id m) && resource_id_valid "pi_v1_" (dw_print_intent_id work)
  && resource_id_valid "org_" (sc_organization_id scope) && resource_id_valid "site_" (sc_site_id scope)
  && agent_id_valid (sc_agent_id scope) && resource_id_valid "dev_" (dw_device_id work).
Definition work_ids_valid (w : ManagedWorkRow) : bool :=
  resource_id_valid "mw_" (mw_managed_work_id w) && resource_id_valid "pi_v1_" (mw_print_intent_id w)
  && resource_id_valid "org_" (mw_organization_id w) && resource_id_valid "site_" (mw_site_id w)
  && agent_id_valid (mw_agent_id w) && resource_id_valid "dev_" (mw_device_id w).

Definition dispatch_view (w : ManagedWorkRow) : PersistedManagedWork :=
  mkPersistedManagedWork (mw_managed_work_id w) (mw_print_intent_id w)
    (mkManagedWorkScope (mw_database_name w) (mw_company_id w) (mw_organization_id w) (mw_site_id w) (mw_agent_id w))
    (mw_device_id w) (ManagedDocumentOperation_from (mw_operation w)) (ManagedWorkState_from (mw_state w))
    (mw_print_job_id w) (mw_print_job_observation w) (mw_error_code w) (mw_message_key w) (mw_admitted_at w)
    (mw_updated_at w) (mw_expires_at w).
Lemma persisted_managed_work_ok w : work_ids_valid w = true -> persisted_managed_work w = Ok (dispatch_view w).
Proof.
  unfold work_ids_valid. intros Hv. bools.
  unfold persisted_managed_work, ManagedWorkId_from_str, PrintIntentId_from_str, OrganizationId_from_str,
    SiteId_from_str, DeviceId_from_str, AgentId_from_str.
  rewrite !resource_id_ok by done. repeat match goal with H : _ = true |- _ => rewrite H end. done.
Qed.
End AdmissionLemmas.

(** *** The life of a Managed Work

    The stored payload, the deletion time and the observation go with the state: a payload exists exactly while
    the work dispatches, and an accepted work carries the signed observation that accepted it. *)
Definition lifecycle (k : string) (payload : option ManagedPayloadRow) (w : ManagedWorkRow) : Prop :=
  match mw_state w with
  | MwDispatching => is_Some payload /\ mw_payload_deleted_at w = None /\ mw_print_job_observation w = None /\
                     mw_print_job_id w = None
  | MwRecoveryUncertain => payload = None /\ is_Some (mw_payload_deleted_at w) /\ mw_print_job_observation w = None /\
                     mw_print_job_id w = None
  | MwAccepted => payload = None /\ is_Some (mw_payload_deleted_at w) /\
                  exists signed, mw_print_job_observation w = Some signed /\
                    mw_print_job_id w = Some (pj_print_job_id (ob_job (so_observation signed))) /\
                    pj_managed_work_id (ob_job (so_observation signed)) = k
  | _ => False
  end.

(** The columns an admission fixes. *)
Definition work_identity (w : ManagedWorkRow) :=
  ((mw_managed_work_id w, mw_preflight_id w, mw_organization_id w, mw_idempotency_key w, mw_site_id w, mw_agent_id w,
    mw_device_id w, mw_print_intent_id w), (mw_database_name w, mw_company_id w, mw_operation w, mw_media_type w,
    mw_binding_claim w, mw_payload_fingerprint w, mw_request_fingerprint w, mw_payload_bytes w),
   (mw_expires_at w, mw_idempotency_expires_at w, mw_admitted_at w)).

Definition work_wf (db : Database) : Prop :=
  (forall k w, managed_work db !! k = Some w ->
     mw_managed_work_id w = k /\ work_ids_valid w = true /\ lifecycle k (managed_payloads db !! k) w) /\
  (forall k, is_Some (managed_payloads db !! k) -> is_Some (managed_work db !! k)) /\
  (forall k1 k2 w1 w2, managed_work db !! k1 = Some w1 -> managed_work db !! k2 = Some w2 ->
     mw_print_intent_id w1 = mw_print_intent_id w2 \/
     (mw_organization_id w1 = mw_organization_id w2 /\ mw_idempotency_key w1 = mw_idempotency_key w2) -> k1 = k2).

(** The order of the states, and of the observations an accepted work carries. *)
Definition state_step (s s' : ManagedWorkStateValue) : Prop :=
  s' = s \/ (s = MwPendingAgent /\ s' = MwExpired) \/ (s = MwDispatching /\ (s' = MwAccepted \/ s' = MwRecoveryUncertain)) \/
  (s = MwRecoveryUncertain /\ s' = MwAccepted).
Definition observed_since (o o' : option SignedAgentStateObservation) : Prop :=
  match o, o' with
  | Some s, Some s' => s' = s \/ newer (so_observation s) (so_observation s')
  | Some _, None => False
  | None, _ => True
  end.
Definition work_row_progress (w w' : ManagedWorkRow) : Prop :=
  work_identity w' = work_identity w /\ state_step (mw_state w) (mw_state w') /\
  observed_since (mw_print_job_observation w) (mw_print_job_observation w').
Definition work_progress (db db' : Database) : Prop :=
  forall k w, managed_work db !! k = Some w -> exists w', managed_work db' !! k = Some w' /\ work_row_progress w w'.
(** What a transaction may do to well-formed work. *)
Notation work_evolves := (evolves work_wf work_progress).

Lemma newer_trans a b c : newer a b -> newer b c -> newer a c.
Proof.
  unfold newer. intros [?|[E1 ?]] [?|[E2 ?]]; [left; lia|left; by rewrite E2|left; by rewrite <- E1|].
  right. split; [congruence|lia].
Qed.
Lemma state_step_trans a b c : state_step a b -> state_step b c -> state_step a c.
Proof.
  unfold state_step.
  intros [->|[[-> ->]|[[-> [-> | ->]]|[-> ->]]]] [->|[[E ->]|[[E [-> | ->]]|[E ->]]]]; try discriminate E; subst; tauto.
Qed.
#[global] Instance work_row_progress_PreOrder : PreOrder work_row_progress.
Proof.
  split.
  - intros w. split_and!; [done|by left|]. destruct (mw_print_job_observation w); simpl; auto.
  - intros w1 w2 w3 (I1 & S1 & O1) (I2 & S2 & O2). split_and!; [congruence| |].
    + by eapply state_step_trans.
    + destruct (mw_print_job_observation w1) as [a|], (mw_print_job_observation w2) as [b|],
        (mw_print_job_observation w3) as [c|]; simpl in *; try done.
      destruct O1 as [->|N1], O2 as [->|N2]; auto. right. by eapply newer_trans.
Qed.
#[global] Instance work_progress_PreOrder : PreOrder work_progress.
Proof.
  split.
  - intros db k w Hk. exists w. split; [done|reflexivity].
  - intros d1 d2 d3 H12 H23 k w Hk. destruct (H12 k w Hk) as (w2 & Hk2 & P12).
    destruct (H23 k w2 Hk2) as (w3 & Hk3 & P23). exists w3. split; [done|]. by etrans.
Qed.
Lemma same_work_evolves db db' :
  same managed_work db db' -> same managed_payloads db db' -> work_evolves db db'.
Proof.
  unfold same. intros E1 E2 Hwf. split.
  - unfold work_wf in *. by rewrite E1, E2.
  - intros k w Hk. exists w. rewrite E1. split; [done|reflexivity].
Qed.
Lemma frame_work_evolves {A} (m : Tx A) : Frame managed_work m -> Frame managed_payloads m -> Steps work_evolves m.
Proof. intros H1 H2 s a s' Hr. apply same_work_evolves; [by apply (H1 s a s')|by apply (H2 s a s')]. Qed.

(** Replacing a row by one it progresses to, and dropping its payload. *)
Lemma work_replace_evolves (db : Database) k w w' :
  managed_work db !! k = Some w -> work_row_progress w w' ->
  (lifecycle k (managed_payloads db !! k) w -> lifecycle k None w') ->
  work_evolves db (db <| managed_work := <[k := w']> (managed_work db) |>
                      <| managed_payloads := delete k (managed_payloads db) |>).
Proof.
  intros Hk Hp Hlc (Hrow & Hpay & Hu). pose proof (Hrow k w Hk) as (Hid & Hv & Hl).
  assert (work_identity w' = work_identity w) as Eid by apply Hp.
  unfold work_identity in Eid. injection Eid as I1 I2 I3 I4 I5 I6 I7 I8 _ _ _ _ _ _ _ _ _ _ _.
  split; [split_and!|]; simpl.
  - intros j x [[<- <-]|[Hne Hj]]%lookup_insert_Some.
    + rewrite lookup_delete_eq. split_and!; [congruence| |auto].
      unfold work_ids_valid in *. by rewrite I1, I3, I5, I6, I7, I8.
    + rewrite lookup_delete_ne by done. eauto.
  - intros j [x Hj]. apply lookup_delete_Some in Hj as [Hne Hj]. rewrite lookup_insert_ne by done. eauto.
  - intros k1 k2 w1 w2 [[<- <-]|[Hn1 H1]]%lookup_insert_Some [[<- <-]|[Hn2 H2]]%lookup_insert_Some; [done|..];
      rewrite ?I3, ?I4, ?I8; eauto.
  - intros j x Hj. simpl. destruct (decide (j = k)) as [->|Hne].
    + exists w'. rewrite lookup_insert_eq. split; [done|]. congruence.
    + exists x. rewrite lookup_insert_ne by done. split; [done|reflexivity].
Qed.

(** *** Expiry *)
Lemma expire_one_Ok now id db u db' : expire_one now id db = Ok (u, db') ->
  exists w, managed_work db !! id = Some w /\
    db' = db <| managed_work := <[id := expire_work now w]> (managed_work db) |>
             <| managed_payloads := delete id (managed_payloads db) |>.
Proof.
  unfold expire_one, delete_managed_payload. intros Hrun.
  apply tx_bind_Ok in Hrun as (u1 & s1 & [-> ->]%modify_Ok & (w & Hw & ->)%update_managed_work_Ok).
  exists w. done.
Qed.
Lemma expire_work_progress now w : work_row_progress w (expire_work now w).
Proof.
  unfold expire_work. destruct w as [? ? ? ? ? ? ? ? ? ? ? ? st]; destruct st; simpl; split_and!; simpl;
    try done; unfold state_step; try tauto; match goal with |- observed_since ?o ?o => destruct o; simpl; auto end.
Qed.
#[global] Instance expire_one_evolves now id : Steps work_evolves (expire_one now id).
Proof.
  intros db u db' (w & Hw & ->)%expire_one_Ok.
  eapply work_replace_evolves; [done|apply expire_work_progress|].
  unfold lifecycle, expire_work. destruct (mw_state w) eqn:Es; simpl; rewrite ?Es; try done; naive_solver.
Qed.
#[global] Instance expire_one_quotas now id : Keeps quotas (expire_one now id).
Proof.
  intros db u db' (w & Hw & ->)%expire_one_Ok Hq.
  assert (forall d p, quotas d -> quotas (d <| managed_payloads := p |>)) as Hp by (intros; by eapply same_quotas).
  apply Hp. eapply quotas_replace; [done|..|done];
    unfold expire_work; destruct w as [? ? ? ? ? ? ? ? ? ? ? ? st]; by destruct st.
Qed.
#[global] Instance expire_in_evolves `{ScanOrder} now : Steps work_evolves (expire_in now).
Proof. unfold expire_in. steps. Qed.
#[global] Instance expire_in_quotas `{ScanOrder} now : Keeps quotas (expire_in now).
Proof. unfold expire_in. steps. Qed.

(** The loop over distinct rows changes each of them once, and nothing else. *)
Lemma expire_each_Ok now (l : list ManagedWorkRow) db u db' :
  NoDup (mw_managed_work_id <$> l) ->
  each (fun model => expire_one now (mw_managed_work_id model)) l db = Ok (u, db') ->
  (exists work payloads, db' = db <| managed_work := work |> <| managed_payloads := payloads |>) /\
  forall k, managed_work db' !! k = (if bool_decide (k ∈ mw_managed_work_id <$> l)
                                     then expire_work now <$> managed_work db !! k else managed_work db !! k) /\
            managed_payloads db' !! k = (if bool_decide (k ∈ mw_managed_work_id <$> l) then None
                                         else managed_payloads db !! k).
Proof.
  revert db. induction l as [|w l IH]; intros db Hnd Hrun; simpl in Hrun.
  - apply tx_ret_Ok in Hrun as [_ ->]. split; [exists (managed_work db), (managed_payloads db); by destruct db|].
    intros k. by rewrite bool_decide_false by set_solver.
  - apply tx_bind_Ok in Hrun as (u1 & s1 & (row & Hrow & ->)%expire_one_Ok & Hrun).
    rewrite fmap_cons in Hnd. inversion Hnd as [|? ? Hnin Hnd']; subst.
    destruct (IH _ Hnd' Hrun) as [(wk & pl & ->) Hk]. split; [by exists wk, pl|].
    intros k. destruct (Hk k) as [-> ->]. csimpl in *.
    destruct (decide (k = mw_managed_work_id w)) as [->|Hne].
    + rewrite lookup_insert_eq, lookup_delete_eq, Hrow. simpl.
      rewrite (bool_decide_false (_ ∈ mw_managed_work_id <$> l)) by done.
      by rewrite bool_decide_true by set_solver.
    + rewrite lookup_insert_ne, lookup_delete_ne by done.
      rewrite (bool_decide_ext (k ∈ mw_managed_work_id w :: (mw_managed_work_id <$> l)) (k ∈ mw_managed_work_id <$> l));
        [done|]. rewrite elem_of_cons. tauto.
Qed.

(** *** Signed observations *)
Section Observed.
Context `{Encoding, Ed25519, Sha256, EnvelopeCodec}.

Lemma record_observation_evolves a mid compact occ ev cid jid ob now :
  Steps work_evolves (record_observation a mid compact occ ev cid jid ob now).
Proof.
  intros db u db' Hrun Hwf. apply record_observation_Ok in Hrun as (_ & command_id & dispatch & work & obs & -> & _ & _ &
    _ & Hw & _ & Hst & _ & _ & replace & Hrep & target & d0 & Ht & _ & ->).
  destruct (proj1 Hwf _ _ Hw) as (Hid & _ & Hl). rewrite Hid in *.
  assert (forall d o c, work_evolves db d -> work_evolves db (d <| agent_state_observations := o |> <| commands := c |>))
    as Hframe.
  { intros d o c Hd. etrans; [exact Hd|]. by apply same_work_evolves. }
  destruct replace.
  - specialize (Ht eq_refl). assert (target = work) as -> by congruence.
    refine (Hframe _ _ _ (work_replace_evolves db _ work _ Hw _ _) Hwf).
    + split_and!; [done| |].
      * unfold state_step. destruct (mw_state work) eqn:Es; simpl in *; try done; tauto.
      * destruct (mw_print_job_observation work) as [cur|]; simpl; [|done].
        right. by apply reconcile_version_Ok in Hrep as (_ & _ & _ & _ & [Hn _] & _); apply Hn.
    + intros _. unfold lifecycle. simpl. split_and!; [done| |eauto].
      destruct (mw_payload_deleted_at work); eauto.
  - assert (managed_payloads db !! pj_managed_work_id (ob_job ob) = None) as Hnp.
    { unfold lifecycle in Hl. destruct (mw_print_job_observation work) as [cur|] eqn:Eo; [|done].
      destruct (mw_state work); naive_solver. }
    rewrite delete_id by done. apply (same_work_evolves db); done.
Qed.
Lemma record_observation_quotas a mid compact occ ev cid jid ob now :
  Keeps quotas (record_observation a mid compact occ ev cid jid ob now).
Proof.
  intros db u db' Hrun Hq. apply record_observation_Ok in Hrun as (_ & command_id & dispatch & work & obs & -> & _ & _ &
    _ & Hw & _ & _ & _ & _ & replace & _ & target & d0 & Ht & _ & ->).
  destruct replace; [|eapply same_quotas; [|exact Hq]; done].
  eapply (same_quotas (db <| managed_work := _ |>)); [reflexivity|].
  eapply quotas_replace; [by apply Ht|..|exact Hq]; done.
Qed.
#[global] Instance reconcile_observation_evolves a m now : Steps work_evolves (reconcile_state_observation a m now).
Proof. unfold reconcile_state_observation. steps. apply record_observation_evolves. Qed.
#[global] Instance reconcile_observation_quotas a m now : Keeps quotas (reconcile_state_observation a m now).
Proof. unfold reconcile_state_observation. steps. apply record_observation_quotas. Qed.
End Observed.

(** *** Earlier admissions *)
Definition same_request (o k p f : string) (w : ManagedWorkRow) : Prop :=
  mw_organization_id w = o /\ mw_idempotency_key w = k /\ mw_print_intent_id w = p /\ mw_request_fingerprint w = f.
(** The three names under which a submission may have been admitted before. *)
Definition identity_used (i o k p : string) (w : ManagedWorkRow) : Prop :=
  mw_managed_work_id w = i \/ (mw_organization_id w = o /\ mw_idempotency_key w = k) \/ mw_print_intent_id w = p.

Lemma same_submission_true o k p f e w : same_submission o k p f e w = true <->
  same_request o k p f w /\ (forall x, e = Some x -> mw_managed_work_id x = mw_managed_work_id w).
Proof.
  unfold same_submission, same_request. rewrite negb_true_iff, !orb_false_iff, !negb_false_iff, !String.eqb_eq.
  destruct e as [x|]; [rewrite negb_false_iff, String.eqb_eq|]; naive_solver.
Qed.
Lemma merge_candidates_all same e l w :
  (forall x, x ∈ l -> x = w) -> (e = None \/ e = Some w) -> (forall e, e = None \/ e = Some w -> same e w = true) ->
  merge_candidates same e l = Ok (match l with [] => e | _ => Some w end).
Proof.
  intros Hl He Hs. revert e He. induction l as [|x l IH]; intros e He; simpl; [done|].
  rewrite (Hl x) by set_solver. rewrite Hs by done. rewrite IH by (set_solver || by right).
  by destruct l.
Qed.
Lemma merge_candidates_Ok o k p f e l r : merge_candidates (same_submission o k p f) e l = Ok r ->
  (l = [] /\ r = e) \/ (exists w, r = Some w /\ w ∈ l /\ same_request o k p f w /\
     forall x, x ∈ l -> same_request o k p f x /\ mw_managed_work_id x = mw_managed_work_id w).
Proof.
  revert e. induction l as [|x l IH]; intros e; simpl; [naive_solver|].
  destruct (same_submission o k p f e x) eqn:Es; [|done]. apply same_submission_true in Es as [Hr _].
  intros Hm. right. destruct (IH _ Hm) as [[-> ->]|(w & -> & Hw & Hrw & Hall)].
  - exists x. split_and!; try done; [set_solver|]. intros y ->%list_elem_of_singleton. done.
  - exists w. split_and!; [done|set_solver|done|]. intros y [->|Hy]%elem_of_cons; [|by apply Hall].
    split; [done|]. destruct l as [|z l]; [set_solver|]. simpl in Hm.
    destruct (same_submission o k p f (Some x) z) eqn:Ez; [|done]. apply same_submission_true in Ez as [_ Ez].
    rewrite (Ez x) by done. apply Hall. set_solver.
Qed.

Lemma find_one_is_Some {K V} `{Countable K} (m : gmap K V) p k v : m !! k = Some v -> p v = true -> is_Some (find_one m p).
Proof.
  intros Hk Hp. destruct (find_one m p) eqn:E; [eauto|]. by rewrite (find_one_None m p E k v Hk) in Hp.
Qed.

Lemma elem_of_candidates db i o k p w : work_wf db -> w ∈ existing_candidates db i o k p ->
  managed_work db !! mw_managed_work_id w = Some w /\ identity_used i o k p w.
Proof.
  intros (Hrow & _) Hw. unfold existing_candidates in Hw. apply list_elem_of_omap in Hw as (x & Hx & Hs).
  simpl in Hs. subst x. rewrite !elem_of_cons in Hx. unfold identity_used.
  destruct Hx as [Hx|[Hx|[Hx|Hx]]]; [| | |set_solver]; symmetry in Hx.
  - destruct (Hrow _ _ Hx) as (-> & _). auto.
  - apply find_one_Some in Hx as [Hp [j Hj]]. bools. rewrite String.eqb_eq in *. destruct (Hrow _ _ Hj) as (-> & _). auto.
  - apply find_one_Some in Hx as [Hp [j Hj]]. rewrite String.eqb_eq in *. destruct (Hrow _ _ Hj) as (-> & _). auto.
Qed.
(** A row under any of the three names is a candidate, and it is the only one for its name. *)
Lemma candidate_of db i o k p w : work_wf db -> managed_work db !! mw_managed_work_id w = Some w ->
  identity_used i o k p w -> w ∈ existing_candidates db i o k p.
Proof.
  intros (Hrow & _ & Hu) Hw Hid. unfold existing_candidates. apply list_elem_of_omap.
  exists (Some w). split; [|done]. rewrite !elem_of_cons. destruct Hid as [<-|[[Ho Hk]|Hp]].
  - left. done.
  - right. left. destruct (find_one_is_Some (managed_work db) (fun w => String.eqb (mw_organization_id w) o
      && String.eqb (mw_idempotency_key w) k) _ _ Hw) as [x Hx]; [by rewrite Ho, Hk, !String.eqb_refl|].
    rewrite Hx. apply find_one_Some in Hx as [Hxp [j Hj]]. bools. rewrite String.eqb_eq in *.
    assert (j = mw_managed_work_id w) as -> by (eapply Hu; [exact Hj|exact Hw|right; split; congruence]). congruence.
  - do 2 right. left. destruct (find_one_is_Some (managed_work db) (fun w => String.eqb (mw_print_intent_id w) p)
      _ _ Hw) as [x Hx]; [by rewrite Hp, !String.eqb_refl|].
    rewrite Hx. apply find_one_Some in Hx as [Hxp [j Hj]]. rewrite String.eqb_eq in *.
    assert (j = mw_managed_work_id w) as -> by (eapply Hu; [exact Hj|exact Hw|left; congruence]). congruence.
Qed.

(** The three outcomes of looking for an earlier admission. *)
Lemma find_existing_cases db i o k p f : work_wf db ->
  (find_existing_managed_work i o k p f db = Ok (None, db) /\
   forall j w, managed_work db !! j = Some w -> ~ identity_used i o k p w) \/
  (exists w, find_existing_managed_work i o k p f db = Ok (Some w, db) /\
     managed_work db !! mw_managed_work_id w = Some w /\ same_request o k p f w) \/
  (find_existing_managed_work i o k p f db =
     Err (Conflict "a Managed Work identity was already used for different Device Work") /\
   exists j w, managed_work db !! j = Some w /\ identity_used i o k p w).
Proof.
  intros Hwf. unfold find_existing_managed_work, lift. unfold mbind, tx_bind, get.
  set (l := existing_candidates db i o k p).
  destruct (merge_candidates (same_submission o k p f) None l) as [r|e] eqn:Em.
  - apply merge_candidates_Ok in Em as [[Hl ->]|(w & -> & Hw & Hr & _)].
    + left. split; [done|]. intros j w Hj Hid. destruct (proj1 Hwf _ _ Hj) as (Hk & _). rewrite <- Hk in Hj.
      pose proof (candidate_of db i o k p w Hwf Hj Hid) as Hin. fold l in Hin. rewrite Hl in Hin. set_solver.
    + right. left. exists w. split; [done|]. split; [|done]. by eapply elem_of_candidates.
  - right. right.
    assert (e = Conflict "a Managed Work identity was already used for different Device Work" /\ l <> []) as [-> Hl].
    { clear -Em. revert Em. generalize (@None ManagedWorkRow). induction l as [|x l IH]; intros e0; simpl; [done|].
      destruct (same_submission _ _ _ _ _ _); [|by intros [= <-]].
      intros Hm. split; [|done]. by destruct (IH _ Hm). }
    split; [done|]. destruct l as [|x l'] eqn:E; [done|].
    assert (x ∈ existing_candidates db i o k p) as Hx by (fold l; rewrite E; set_solver).
    destruct (elem_of_candidates db i o k p x Hwf Hx) as [? ?]. eauto.
Qed.

(** A row under one of the names is found when the request is the same, and is a conflict otherwise. *)
Lemma find_existing_row db i o k p f w : work_wf db -> managed_work db !! mw_managed_work_id w = Some w ->
  (same_request o k p f w -> mw_managed_work_id w = i -> find_existing_managed_work i o k p f db = Ok (Some w, db)) /\
  (identity_used i o k p w -> ~ same_request o k p f w ->
     find_existing_managed_work i o k p f db =
       Err (Conflict "a Managed Work identity was already used for different Device Work")).
Proof.
  intros Hwf Hw. split.
  - intros Hr Hi. assert (identity_used i o k p w) as Hid by by left.
    assert (forall x, x ∈ existing_candidates db i o k p -> x = w) as Hall.
    { intros x Hx. destruct (elem_of_candidates db i o k p x Hwf Hx) as [Hj Hux].
      assert (mw_managed_work_id x = mw_managed_work_id w) as E; [|congruence].
      destruct Hr as (Ro & Rk & Rp & _), Hwf as (_ & _ & Hu), Hux as [?|[[? ?]|?]]; [congruence|..].
      - eapply Hu; [exact Hj|exact Hw|]. right. split; congruence.
      - eapply Hu; [exact Hj|exact Hw|]. left. congruence. }
    unfold find_existing_managed_work, lift. unfold mbind, tx_bind, get.
    rewrite (merge_candidates_all _ None _ w Hall); [|by left|].
    + pose proof (candidate_of db i o k p w Hwf Hw Hid). destruct (existing_candidates db i o k p); [set_solver|done].
    + intros e He. apply same_submission_true. split; [done|]. intros x ->. destruct He; congruence.
  - intros Hid Hno. unfold find_existing_managed_work, lift. unfold mbind, tx_bind, get.
    pose proof (candidate_of db i o k p w Hwf Hw Hid) as Hin.
    destruct (merge_candidates _ None (existing_candidates db i o k p)) as [r|e] eqn:Em.
    + exfalso. apply merge_candidates_Ok in Em as [[Hl _]|(x & _ & _ & _ & Hall)];
        [rewrite Hl in Hin; set_solver|]. by apply Hno, Hall.
    + destruct (find_existing_cases db i o k p f Hwf) as [[E _]|[(x & E & _)|[E _]]];
        unfold find_existing_managed_work, lift in E; unfold mbind, tx_bind, get in E; rewrite Em in E; congruence.
Qed.

(** ** Admission *)
Section AdmissionTheorems.
Context `{Encoding, Sha256}.

Lemma admit_in_Ok m build clk db r db' : work_wf db -> admit_in m build clk db = Ok (r, db') ->
  let s := ma_submission m in
  let scope := dw_scope (sub_work s) in
  admitted db (ma_router_admission m) (sc_agent_id scope) clk /\
  ((exists w, managed_work db !! mw_managed_work_id w = Some w /\
      same_request (sc_organization_id scope) (ma_idempotency_key m) (dw_print_intent_id (sub_work s))
        (ma_request_fingerprint m) w /\ existing_dispatch w db = Ok (r, db) /\ db' = db) \/
   ((forall k w, managed_work db !! k = Some w -> ~ identity_used (ma_managed_work_id m) (sc_organization_id scope)
        (ma_idempotency_key m) (dw_print_intent_id (sub_work s)) w) /\
    admit_new m build db = Ok (r, db'))).
Proof.
  intros Hwf. unfold admit_in. cbv zeta. intros Hrun.
  apply tx_bind_Ok in Hrun as (u & s1 & [Had ->]%require_admission_Ok & Hrun). split; [done|].
  destruct (find_existing_cases db (ma_managed_work_id m) (sc_organization_id (dw_scope (sub_work (ma_submission m))))
    (ma_idempotency_key m) (dw_print_intent_id (sub_work (ma_submission m))) (ma_request_fingerprint m) Hwf)
    as [[E Hno]|[(w & E & Hw & Hr)|[E _]]]; apply tx_bind_Ok in Hrun as (e & s2 & Hf & Hrun); rewrite E in Hf;
    [injection Hf as <- <-|injection Hf as <- <-|done].
  - right. done.
  - left. exists w. pose proof (steps_run (R := eq) _ _ _ Hrun) as <-. done.
Qed.

Lemma admitted_work_ids m preflight : submission_valid m = true -> work_ids_valid (admitted_work m preflight) = true.
Proof. done. Qed.

Lemma admit_new_evolves m build db r db' : submission_valid m = true ->
  (forall k w, managed_work db !! k = Some w -> ~ identity_used (ma_managed_work_id m)
     (sc_organization_id (dw_scope (sub_work (ma_submission m)))) (ma_idempotency_key m)
     (dw_print_intent_id (sub_work (ma_submission m))) w) ->
  admit_new m build db = Ok (r, db') -> work_evolves db db'.
Proof.
  intros Hv Hno Hrun (Hrow & Hpay & Hu).
  apply admit_new_Ok in Hrun as (pf & ag & dv & key & row & payload & version & cmd & db1 & _ & _ & _ & _ & _ & _ & _ & _ &
    _ & _ & _ & _ & _ & _ & _ & _ & _ & _ & -> & _).
  assert (managed_work db !! ma_managed_work_id m = None) as Hnew.
  { destruct (managed_work db !! ma_managed_work_id m) as [w|] eqn:E; [|done]. exfalso.
    eapply Hno; [exact E|]. left. by apply Hrow in E as (? & _). }
  assert (forall j x, managed_work db !! j = Some x ->
    mw_print_intent_id (admitted_work m pf) = mw_print_intent_id x \/
    (mw_organization_id (admitted_work m pf) = mw_organization_id x /\
     mw_idempotency_key (admitted_work m pf) = mw_idempotency_key x) -> False) as Hfresh.
  { intros j x Hj Hs. eapply (Hno j x Hj). unfold identity_used. simpl in *. naive_solver. }
  split; [split_and!|]; simpl.
  - intros k w [[<- <-]|[Hne Hk]]%lookup_insert_Some.
    + rewrite lookup_insert_eq. split_and!; [done|by apply admitted_work_ids|]. unfold lifecycle. simpl. eauto.
    + rewrite lookup_insert_ne by done. eauto.
  - intros k. destruct (decide (ma_managed_work_id m = k)) as [<-|Hne]; [rewrite !lookup_insert_eq; eauto|].
    rewrite !lookup_insert_ne by done. apply Hpay.
  - intros k1 k2 w1 w2 [[<- <-]|[Hn1 H1]]%lookup_insert_Some [[<- <-]|[Hn2 H2]]%lookup_insert_Some Hs; [done|..].
    + exfalso. by eapply Hfresh.
    + exfalso. eapply (Hfresh _ _ H1). naive_solver congruence.
    + by eapply Hu.
  - intros k w Hk. simpl. exists w. rewrite lookup_insert_ne by congruence. split; [done|reflexivity].
Qed.
#[global] Instance admit_in_evolves m build clk : submission_valid m = true -> Steps work_evolves (admit_in m build clk).
Proof.
  intros Hv db r db' Hrun Hwf. destruct (admit_in_Ok _ _ _ _ _ _ Hwf Hrun) as [_ [(w & _ & _ & _ & ->)|[Hno Hnew]]].
  - split; [done|reflexivity].
  - by eapply admit_new_evolves.
Qed.

Lemma admit_new_quotas m build : Keeps quotas (admit_new m build).
Proof.
  intros db r db' Hrun (Hpos & Ha & Ho).
  apply admit_new_Ok in Hrun as (pf & ag & dv & key & row & payload & version & cmd & db1 & _ & _ & _ & _ & _ & _ & _ & _ &
    _ & Hqa & Hqo & _ & _ & Hins & _ & Hwork & _ & _ & -> & _).
  pose proof Hins as (_ & _ & _ & _ & _ & _ & ->)%insert_command_Ok.
  apply insert_managed_work_Ok in Hwork as (Hnew & Hb & _). simpl in Hnew, Hb.
  assert (forall d p c, quotas d -> quotas (d <| commands := c |> <| managed_payloads := p |>)) as Hp
    by (intros; by eapply same_quotas).
  refine (Hp (db <| managed_work := <[ma_managed_work_id m := admitted_work m pf]> (managed_work db) |>) _ _ _).
  split_and!; simpl.
  - by apply map_Forall_insert_2.
  - intros a. apply (within_insert db mw_agent_id (admitted_work m pf)); [done|apply Hqa|apply Hqa|apply Ha].
  - intros o. apply (within_insert db mw_organization_id (admitted_work m pf)); [done|apply Hqo|apply Hqo|apply Ho].
Qed.
#[global] Instance admit_in_quotas m build clk : Keeps quotas (admit_in m build clk).
Proof.
  unfold admit_in. steps; try (apply read_only_steps; typeclasses eauto). apply admit_new_quotas.
Qed.
End AdmissionTheorems.

(** ** Expiry *)
Lemma expirable_dispatching now db k w : work_wf db -> managed_work db !! k = Some w -> expirable_work now w = true ->
  mw_state w = MwDispatching /\ mw_print_job_id w = None /\ mw_expires_at w <= stored_time now.
Proof.
  intros (Hrow & _) Hw He. destruct (Hrow k w Hw) as (_ & _ & Hl). unfold expirable_work in He. bools.
  unfold lifecycle in Hl. destruct (mw_state w) eqn:Es; try done;
    [|by destruct Hl as (_ & [? ?] & _); congruence|by destruct Hl as (_ & [? ?] & _); congruence].
  split_and!; [done|by destruct Hl as (_ & _ & _ & ?)|].
  rewrite bool_decide_eq_false_2 in * by done. rewrite orb_false_r in *. by bools.
Qed.

(** Expiring distinct rows that exist and have no print job always succeeds. *)
Lemma expire_each_succeeds now l db : NoDup (mw_managed_work_id <$> l) ->
  (forall w, w ∈ l -> managed_work db !! mw_managed_work_id w = Some w /\ mw_print_job_id w = None) ->
  exists db', each (fun model => expire_one now (mw_managed_work_id model)) l db = Ok (tt, db').
Proof.
  revert db. induction l as [|w l IH]; intros db Hnd Hl; simpl; [by exists db|].
  rewrite fmap_cons in Hnd. inversion Hnd as [|? ? Hnin Hnd']; subst.
  destruct (Hl w ltac:(set_solver)) as [Hw Hj].
  assert (expire_one now (mw_managed_work_id w) db =
    Ok (tt, db <| managed_payloads := delete (mw_managed_work_id w) (managed_payloads db) |>
               <| managed_work := <[mw_managed_work_id w := expire_work now w]> (managed_work db) |>)) as E.
  { unfold expire_one, delete_managed_payload, update_managed_work, print_job_unused, unique, require, get, expect, lift, modify.
    unfold mbind, tx_bind. simpl. rewrite Hw. simpl.
    assert (no_row (delete (mw_managed_work_id w) (managed_work db)) (fun x => same_print_job x (expire_work now w)) = true)
      as ->; [|done].
    apply no_row_true. intros k x _. unfold same_print_job.
    assert (mw_print_job_id (expire_work now w) = None) as -> by (unfold expire_work; destruct (mw_state w); done).
    by destruct (mw_print_job_id x); rewrite andb_false_r. }
  unfold mbind, tx_bind. rewrite E. apply (IH _ Hnd'). intros x Hx. destruct (Hl x ltac:(set_solver)) as [Hx1 Hx2].
  split; [|done]. simpl. rewrite lookup_insert_ne; [done|]. intros Eq. apply Hnin. rewrite Eq.
  by apply list_elem_of_fmap_2.
Qed.

