(* ===== verification/Dispatch.v ===== *)
(** * Managed Work and its dispatch commands

    Every Managed Work has exactly one dispatch command, which is open until a signed observation accepts the
    work.  [controller_wf] collects the invariants of the tables that commands and Managed Work live in; this file
    proves that every transaction that writes them keeps it, and the theorems on admission, replay, expiry and
    payload access that rest on it. *)
From S2P Require Import Prelude Errors Identifiers InvitationCode Protocol Schema Samples RouterPolicy.
From S2P Require Import Commands Security Observations Inventory ManagedWork Publications.

Section Dispatch.
Context `{Encoding, Sha256}.

(** [c] is the dispatch command of the work [w], stored under [k]. *)
Definition dispatches (c : CommandRow) (k : string) (w : ManagedWorkRow) : Prop :=
  cm_command c = ManagedWorkContent k /\ cm_agent_id c = mw_agent_id w /\
  cm_request_fingerprint c = mw_request_fingerprint w /\
  if bool_decide (mw_state w = MwAccepted) then cm_state c = CsAccepted
  else cm_state c = CsQueued \/ cm_state c = CsPublished.
Definition dispatch_wf (db : Database) : Prop :=
  (forall k w, managed_work db !! k = Some w ->
     exists c, commands db !! dispatch_command_id k = Some c /\ dispatches c k w) /\
  (forall id c k, commands db !! id = Some c -> cm_command c = ManagedWorkContent k ->
     id = dispatch_command_id k /\ is_Some (managed_work db !! k)).
Definition controller_wf (db : Database) : Prop :=
  agents_wf db /\ commands_wf db /\ sequences_wf db /\ work_wf db /\ quotas db /\ dispatch_wf db.

Lemma frame_controller_wf {A} (m : Tx A) :
  Frame agents m -> Frame commands m -> Frame managed_work m -> Frame managed_payloads m -> Keeps controller_wf m.
Proof.
  intros H1 H2 H3 H4 s r s' Hr (Ha & C & S & W & Q & D).
  pose proof (H1 _ _ _ Hr) as E1. pose proof (H2 _ _ _ Hr) as E2. pose proof (H3 _ _ _ Hr) as E3.
  pose proof (H4 _ _ _ Hr) as E4. unfold same in *. split_and!.
  - unfold agents_wf in *. by rewrite E1.
  - unfold commands_wf, command_wf in *. by rewrite E1, E2.
  - unfold sequences_wf in *. by rewrite E2.
  - by apply (same_work_evolves s s' E3 E4).
  - by apply (same_quotas s s' E3).
  - unfold dispatch_wf in *. by rewrite E2, E3.
Qed.

(** Commands may change their state and times; a dispatch command must keep to its work. *)
Lemma commands_update_wf (db : Database) (m : gmap string CommandRow) :
  (forall k, command_identity <$> m !! k = command_identity <$> commands db !! k) ->
  (forall k c c', commands db !! k = Some c -> m !! k = Some c' ->
     cm_command c' = cm_command c /\ cm_request_fingerprint c' = cm_request_fingerprint c /\
     (forall w, cm_command c = ManagedWorkContent w -> cm_state c' = cm_state c \/
        (cm_state c = CsQueued \/ cm_state c = CsPublished) /\ cm_state c' = CsPublished)) ->
  controller_wf db -> controller_wf (db <| commands := m |>).
Proof.
  intros Hid Hc (A & C & S & W & Q & D1 & D2).
  assert (forall k c', m !! k = Some c' -> exists c, commands db !! k = Some c /\ command_identity c' = command_identity c)
    as Hfrom.
  { intros k c' Hk. specialize (Hid k). rewrite Hk in Hid. simpl in Hid.
    destruct (commands db !! k) as [c|]; [|done]. exists c. split; [done|]. by apply (inj Some). }
  split_and!; [done| |by apply sequences_wf_map| | |split]; simpl.
  - intros k c' Hk. destruct (Hfrom k c' Hk) as (c & Hkc & Ei). unfold command_identity in Ei. injection Ei as E1 E2 E3.
    destruct (Hc _ _ _ Hkc Hk) as (Ec & _). destruct (C k c Hkc) as (? & ? & ? & ? & ?).
    unfold command_wf. simpl. rewrite E1, E2, E3, Ec. done.
  - exact W.
  - exact Q.
  - intros k w Hw. destruct (D1 k w Hw) as (c & Hk & Hcmd & Hag & Hfp & Hst).
    specialize (Hid (dispatch_command_id k)). rewrite Hk in Hid.
    destruct (m !! dispatch_command_id k) as [c'|] eqn:Hk'; [|done]. exists c'. split; [done|].
    simpl in Hid. unfold command_identity in Hid. injection Hid as _ Ea _.
    destruct (Hc _ _ _ Hk Hk') as (Ec & Ef & Hs). specialize (Hs k Hcmd).
    split_and!; [congruence|congruence|congruence|]. case_bool_decide; naive_solver congruence.
  - intros id c' k Hk Hcmd. destruct (Hfrom id c' Hk) as (c & Hkc & _).
    destruct (Hc _ _ _ Hkc Hk) as (Ec & _). eapply D2; [exact Hkc|congruence].
Qed.

Lemma update_where_controller_wf p f (db : Database) :
  (forall c, p c = true -> command_identity (f c) = command_identity c /\ cm_command (f c) = cm_command c /\
     cm_request_fingerprint (f c) = cm_request_fingerprint c) ->
  (forall k c w, commands db !! k = Some c -> p c = true -> cm_command c = ManagedWorkContent w ->
     (cm_state c = CsQueued \/ cm_state c = CsPublished) /\ cm_state (f c) = CsPublished) ->
  controller_wf db -> controller_wf (db <| commands := update_where p f (commands db) |>).
Proof.
  intros Hf Hs. apply commands_update_wf.
  - intros k. rewrite lookup_update_where. destruct (commands db !! k) as [c|]; [|done]. simpl.
    destruct (p c) eqn:Hp; [|done]. f_equal. by apply Hf.
  - intros k c c' Hk. rewrite lookup_update_where, Hk. simpl. intros [= <-].
    destruct (p c) eqn:Hp; [|naive_solver]. destruct (Hf c Hp) as (_ & -> & ->). split_and!; eauto.
Qed.

Lemma mark_published_wf a c now : Keeps controller_wf (update_commands_where (publishable a c) (fun c =>
    c <| cm_state := CsPublished |> <| cm_published_at := Some (stored_time now) |>
      <| cm_updated_at := stored_time now |>)).
Proof.
  intros db u db' [_ ->]%modify_Ok Hwf. apply update_where_controller_wf; [done| |done].
  intros k row w Hk Hp _. unfold publishable in Hp. bools. split; [|done].
  match goal with Hs : _ || _ = true |- _ => apply orb_true_iff in Hs as [Hs|Hs]; bools; auto end.
Qed.

(** A new inline command. *)
Lemma enqueue_in_wf ad a req fp build clk : requested_valid req = true ->
  Keeps controller_wf (enqueue_in ad a req fp build clk).
Proof.
  intros Hreq db [row ns] db' Hrun (A & C & S & W & Q & D1 & D2).
  pose proof (enqueue_command_wf _ _ _ _ _ _ _ _ _ _ A C S Hreq Hrun) as (A' & C' & S' & _ & _).
  apply enqueue_in_Ok in Hrun as (_ & _ & _ & _ & _ & [(id & _ & _ & ->)|(_ & _ & _ & _ & _ & (m & _ & _ & Hm) & Hins)]);
    [done|].
  apply insert_command_Ok in Hins as (Hfresh & _ & _ & _ & _ & _ & ->).
  split_and!; [exact A'|exact C'|exact S'|exact W|exact Q|split]; simpl.
  - intros k w Hw. destruct (D1 k w Hw) as (c & Hk & Hd). exists c. rewrite lookup_insert_ne by congruence. done.
  - intros id c k [[<- <-]|[_ Hk]]%lookup_insert_Some Hc; [congruence|by eapply D2].
Qed.

(** A receipt moves inline commands only. *)
Lemma apply_receipt_wf a m now : Keeps controller_wf (apply_receipt a m now).
Proof.
  intros db u db' Hrun Hwf. unfold apply_receipt in Hrun.
  destruct (publication_command_id m) as [cid|]; [|by apply tx_ret_Ok in Hrun as [_ ->]].
  destruct (receipt_state m) as [st|]; [|by apply tx_ret_Ok in Hrun as [_ ->]].
  apply tx_bind_Ok in Hrun as (db0 & s0 & [-> ->]%get_Ok & Hrun).
  destruct (commands db !! cid) as [dc|] eqn:Hdc; [|by apply tx_ret_Ok in Hrun as [_ ->]].
  destruct (String.eqb _ _ && _) eqn:Hinl; [|by apply tx_ret_Ok in Hrun as [_ ->]].
  apply modify_Ok in Hrun as [_ ->]. apply update_where_controller_wf; [done| |done].
  intros k c w Hk Hp Hc. exfalso. bools. rewrite String.eqb_eq in *.
  destruct Hwf as (_ & _ & (Hkey & _) & _). destruct (Hkey k c Hk) as [Ek _].
  assert (c = dc) as -> by congruence. by rewrite Hc in *.
Qed.

(** A dispatch identifier is a valid job identifier. *)
Lemma split_at_le n s : (String.length (fst (split_at n s)) <= n)%nat.
Proof.
  revert s; induction n as [|n IH]; intros [|c s]; simpl; try lia.
  specialize (IH s). destruct (split_at n s). simpl in *. lia.
Qed.
Lemma lower_hex_resource c : lower_hex c = true -> resource_byte c = true.
Proof.
  pose proof (ascii_by_code (fun c => implb (lower_hex c) (resource_byte c)) ltac:(vm_compute; reflexivity) c) as Hi.
  intros Hc. simpl in Hi. by rewrite Hc in Hi.
Qed.
Lemma dispatch_command_id_valid `{!HexSpec} k : resource_id_valid "job_" (dispatch_command_id k) = true.
Proof.
  unfold resource_id_valid, dispatch_command_id. set (h := fst (split_at 16 (sha256 k))).
  change ("job_dispatch_" ++ hex_encode h) with ("job_" ++ ("dispatch_" ++ hex_encode h)).
  rewrite strip_prefix_app, !str_len_app, hex_length. change (str_len "job_") with 4. change (str_len "dispatch_") with 9.
  assert (str_len h <= 16) by (unfold str_len, h; pose proof (split_at_le 16 (sha256 k)); lia).
  rewrite (proj2 (Z.leb_le _ _)) by lia. simpl.
  apply (all_bytes_impl lower_hex); [apply lower_hex_resource|apply hex_lower].
Qed.

(** A new dispatch command, its work and its payload. *)
Lemma admit_new_wf `{!HexSpec} m build db r db' : submission_valid m = true ->
  (forall k w, managed_work db !! k = Some w -> ~ identity_used (ma_managed_work_id m)
     (sc_organization_id (dw_scope (sub_work (ma_submission m)))) (ma_idempotency_key m)
     (dw_print_intent_id (sub_work (ma_submission m))) w) ->
  admit_new m build db = Ok (r, db') -> controller_wf db -> controller_wf db'.
Proof.
  intros Hv Hno Hrun (Ha & C & S & W & Q & D1 & D2).
  destruct (admit_new_evolves _ _ _ _ _ Hv Hno Hrun W) as [W' _].
  pose proof (admit_new_quotas _ _ _ _ _ Hrun Q) as Q'.
  apply admit_new_Ok in Hrun as (pf & ag & dv & key & row & payload & version & cmd & db1 & _ & _ & _ & Hag & _ & _ & _ & _ &
    _ & _ & _ & (Hseq & Hmax & Hrow) & _ & Hins & _ & Hwork & _ & _ & -> & _).
  apply insert_managed_work_Ok in Hwork as (Hnew & _).
  assert (cm_command_id row = dispatch_command_id (ma_managed_work_id m) /\
    cm_agent_id row = sc_agent_id (dw_scope (sub_work (ma_submission m))) /\ cm_state row = CsQueued /\
    cm_command row = ManagedWorkContent (ma_managed_work_id m) /\ cm_request_fingerprint row = ma_request_fingerprint m)
    as (E1 & E2 & E3 & E4 & E5) by (rewrite Hrow; done).
  clear Hrow. assert (command_wf db (cm_command_id row) row) as Hcw.
  { unfold command_wf. rewrite E1, E2, E4. split_and!; [apply dispatch_command_id_valid|done|eauto|done|done]. }
  pose proof (insert_command_wf _ _ _ _ C Hcw Hins) as C'.
  assert (sequences_wf db1) as S'.
  { eapply insert_next_sequences_wf; [exact S| |exact Hins]. by rewrite E2. }
  apply insert_command_Ok in Hins as (Hfresh & _ & _ & _ & _ & _ & ->). simpl in Hnew.
  split_and!; [exact Ha|exact C'|exact S'|exact W'|exact Q'|split]; simpl.
  - intros k w [[<- <-]|[Hne Hk]]%lookup_insert_Some.
    + exists row. rewrite <- E1, lookup_insert_eq. split; [done|].
      split_and!; [by rewrite E4|by rewrite E2|by rewrite E5|]. by left.
    + destruct (D1 k w Hk) as (c & Hc & Hd). exists c. by rewrite lookup_insert_ne by congruence.
  - intros id c k [[<- <-]|[_ Hk]]%lookup_insert_Some Hc.
    + assert (k = ma_managed_work_id m) as -> by congruence. by rewrite lookup_insert_eq.
    + destruct (D2 id c k Hk Hc) as [-> [w Hw]]. split; [done|].
      destruct (decide (ma_managed_work_id m = k)) as [<-|]; [rewrite lookup_insert_eq; eauto|].
      rewrite lookup_insert_ne by done. eauto.
Qed.
Lemma admit_in_wf `{!HexSpec} m build clk : submission_valid m = true -> Keeps controller_wf (admit_in m build clk).
Proof.
  intros Hv db r db' Hrun Hwf.
  destruct (admit_in_Ok _ _ _ _ _ _ ltac:(apply Hwf) Hrun) as [_ [(w & _ & _ & _ & ->)|[Hno Hnew]]]; [done|].
  by eapply admit_new_wf.
Qed.

(** A work that is not accepted before or after keeps its open command. *)
Lemma expire_one_wf now id : Keeps controller_wf (expire_one now id).
Proof.
  intros db u db' Hrun (Ha & C & S & W & Q & D1 & D2).
  destruct (expire_one_evolves _ _ _ _ _ Hrun W) as [W' _]. pose proof (expire_one_quotas _ _ _ _ _ Hrun Q) as Q'.
  apply expire_one_Ok in Hrun as (w & Hw & ->).
  split_and!; [exact Ha|exact C|exact S|exact W'|exact Q'|split]; simpl.
  - intros k x [[<- <-]|[Hne Hk]]%lookup_insert_Some; [|by apply D1].
    destruct (D1 id w Hw) as (c & Hc & Hcmd & Hag & Hfp & Hst). exists c. split; [done|].
    unfold dispatches, expire_work. destruct (mw_state w) eqn:Es; simpl; rewrite ?Es;
      split_and!; try done; by rewrite bool_decide_eq_false_2 in * by done.
  - intros j c k Hc Hcmd. destruct (D2 j c k Hc Hcmd) as [-> Hk]. split; [done|].
    destruct (decide (id = k)) as [<-|]; [rewrite lookup_insert_eq; eauto|]. by rewrite lookup_insert_ne.
Qed.
Lemma expire_in_wf `{ScanOrder} now : Keeps controller_wf (expire_in now).
Proof. unfold expire_in. steps. apply expire_one_wf. Qed.
End Dispatch.

(** ** Publications *)
Section Publish.
Context `{Encoding, Ed25519, Sha256, EnvelopeCodec, InventoryCodec}.

(** An accepted work and its accepted command. *)
Lemma record_observation_wf a mid compact occ ev cid jid ob now :
  Keeps controller_wf (record_observation a mid compact occ ev cid jid ob now).
Proof.
  intros db u db' Hrun (Ha & C & S & W & Q & D1 & D2).
  destruct (record_observation_evolves _ _ _ _ _ _ _ _ _ _ _ _ Hrun W) as [W' _].
  pose proof (record_observation_quotas _ _ _ _ _ _ _ _ _ _ _ _ Hrun Q) as Q'.
  apply record_observation_Ok in Hrun as (_ & command_id & dispatch & work & obs & -> & Hd & _ &
    Hcmd & Hw & _ & _ & _ & _ & replace & Hrep & target & d0 & Ht & Hd0 & ->).
  destruct (proj1 W _ _ Hw) as (Hid & _ & Hl). destruct (proj1 S _ _ Hd) as [Hcid _]. rewrite Hid, Hcid in *.
  assert (d0 = dispatch) as -> by congruence. clear Hd0.
  destruct (D2 _ _ _ Hd Hcmd) as [-> _]. destruct (D1 _ _ Hw) as (c & Hc & Hdc). assert (c = dispatch) as -> by congruence.
  set (k := pj_managed_work_id (ob_job ob)) in *.
  assert (forall j, command_identity <$> <[dispatch_command_id k := dispatch <| cm_state := CsAccepted |>
    <| cm_updated_at := stored_time now |>]> (commands db) !! j = command_identity <$> commands db !! j) as Eid.
  { intros j. destruct (decide (dispatch_command_id k = j)) as [<-|]; [by rewrite lookup_insert_eq, Hd|].
    by rewrite lookup_insert_ne. }
  split_and!; [exact Ha| | |exact W'|exact Q'|split]; simpl.
  - intros j x Hj. simpl in Hj. apply lookup_insert_Some in Hj as [[<- <-]|[_ Hj]]; [exact (C _ _ Hd)|exact (C j x Hj)].
  - pose proof (sequences_wf_map db _ Eid S) as S'. exact S'.
  - intros j x Hj. assert (j = k \/ j <> k /\ managed_work db !! j = Some x) as [->|[Hne Hj']].
    { destruct replace; [|destruct (decide (j = k)); auto]. apply lookup_insert_Some in Hj as [[<- _]|[? ?]]; auto. }
    + eexists. rewrite lookup_insert_eq. split; [done|]. destruct Hdc as (_ & E1 & E2 & _). unfold dispatches.
      assert (mw_agent_id x = mw_agent_id work /\ mw_request_fingerprint x = mw_request_fingerprint work /\
        mw_state x = MwAccepted) as (-> & -> & Est).
      { destruct replace.
        - rewrite lookup_insert_eq in Hj. injection Hj as <-. specialize (Ht eq_refl).
          assert (target = work) as -> by congruence. done.
        - assert (x = work) as -> by congruence. split_and!; try done.
          unfold lifecycle in Hl. destruct (mw_print_job_observation work); [|done]. destruct (mw_state work); naive_solver. }
      split_and!; try done. by rewrite Est.
    + destruct (D1 j x Hj') as (c & Hcj & Hdj). exists c. rewrite lookup_insert_ne; [done|].
      intros E. rewrite <- E in Hcj. assert (c = dispatch) as -> by congruence. destruct Hdj as (E' & _). congruence.
  - intros j x i [[<- <-]|[_ Hj]]%lookup_insert_Some Hx.
    + simpl in Hx. assert (i = k) as -> by congruence. split; [done|]. destruct replace; [|eauto].
      rewrite lookup_insert_eq. eauto.
    + destruct (D2 j x i Hj Hx) as [-> Hi]. split; [done|]. destruct replace; [|done].
      destruct (decide (k = i)) as [<-|]; [rewrite lookup_insert_eq; eauto|]. by rewrite lookup_insert_ne.
Qed.
Lemma reconcile_state_observation_wf a m now : Keeps controller_wf (reconcile_state_observation a m now).
Proof. unfold reconcile_state_observation. steps. apply record_observation_wf. Qed.

#[local] Hint Unfold apply_snapshot inventory_apply apply_item : frames.
Lemma record_publication_in_wf a key m now : Keeps controller_wf (record_publication_in a key m now).
Proof.
  unfold record_publication_in. steps.
  all: try (apply read_only_steps; typeclasses eauto).
  - apply frame_controller_wf; typeclasses eauto.
  - apply reconcile_state_observation_wf.
  - apply frame_controller_wf; typeclasses eauto.
  - apply apply_receipt_wf.
Qed.
End Publish.

(** ** Admission *)
Section AdmissionTheorems.
Context `{Encoding, Sha256, !HexSpec}.

Lemma existing_dispatch_ok db w : controller_wf db -> managed_work db !! mw_managed_work_id w = Some w ->
  is_Some (agents db !! mw_agent_id w) ->
  exists cmd, existing_dispatch w db = Ok ((w, cmd), db) /\ (is_Some cmd <-> mw_state w = MwDispatching).
Proof.
  intros (Ha & C & S & W & Q & D1 & D2) Hw [ag Hag]. unfold existing_dispatch.
  destruct (decide (mw_state w = MwDispatching)) as [Es|Es]; cycle 1.
  { rewrite bool_decide_false by done. exists None. split; [done|]. split; [by intros [? ?]|done]. }
  rewrite bool_decide_true by done. destruct (D1 _ _ Hw) as (c & Hc & _).
  unfold get, expect, lift, mret, tx_ret. unfold mbind, tx_bind. rewrite Hc, Hag. simpl.
  rewrite (persisted_command_ok db (dispatch_command_id (mw_managed_work_id w)));
    [|done|exact (C _ _ Hc)|by apply (proj1 S _ _ Hc)].
  eexists. split; [done|]. split; [done|eauto].
Qed.

Lemma controller_ids_valid db k w : controller_wf db -> managed_work db !! k = Some w -> work_ids_valid w = true.
Proof. intros (_ & _ & _ & (Hrow & _) & _) Hw. by apply Hrow in Hw as (_ & ? & _). Qed.
Lemma existing_dispatch_fst w db r db' : existing_dispatch w db = Ok (r, db') -> fst r = w.
Proof. unfold existing_dispatch. intros Hrun. tx_inv Hrun; done. Qed.
(** The conversion after the commit cannot fail. *)
Lemma admit_in_view m build clk db r db' : controller_wf db -> submission_valid m = true ->
  admit_in m build clk db = Ok (r, db') -> persisted_dispatch r = Ok (mkPersistedDispatch (dispatch_view (fst r)) (snd r)).
Proof.
  intros Hwf Hv Hin. unfold persisted_dispatch. rewrite persisted_managed_work_ok; [done|].
  destruct (admit_in_Ok _ _ _ _ _ _ ltac:(apply Hwf) Hin) as [_ [(w & Hw & _ & Hex & _)|[_ Hnew]]].
  - rewrite (existing_dispatch_fst _ _ _ _ Hex). by eapply controller_ids_valid.
  - apply admit_new_Ok in Hnew as (pf & ag & dv & key & row & payload & version & cmd & db1 &
      _ & _ & _ & _ & _ & _ & _ & _ & _ & _ & _ & _ & _ & _ & _ & _ & _ & _ & _ & ->). done.
Qed.

Definition submitted_scope (m : ManagedWorkAdmission) : ManagedWorkScope := dw_scope (sub_work (ma_submission m)).
Definition is_request_of (m : ManagedWorkAdmission) (w : ManagedWorkRow) : Prop :=
  same_request (sc_organization_id (submitted_scope m)) (ma_idempotency_key m)
    (dw_print_intent_id (sub_work (ma_submission m))) (ma_request_fingerprint m) w.
Definition uses_identity_of (m : ManagedWorkAdmission) (w : ManagedWorkRow) : Prop :=
  identity_used (ma_managed_work_id m) (sc_organization_id (submitted_scope m)) (ma_idempotency_key m)
    (dw_print_intent_id (sub_work (ma_submission m))) w.

Lemma admit_managed_work_Ok m build clk db d db' : admit_managed_work m build clk db = (Ok d, db') ->
  ra_organization_id (ma_router_admission m) = sc_organization_id (submitted_scope m) /\
  exists r, admit_in m build clk db = Ok (r, db') /\ persisted_dispatch r = Ok d.
Proof.
  unfold admit_managed_work, submitted_scope. destruct (String.eqb_spec (ra_organization_id (ma_router_admission m))
    (sc_organization_id (dw_scope (sub_work (ma_submission m))))) as [E|]; simpl; [|done].
  intros [(r & s1 & Htx%transaction_Ok & Hret)|(e & _ & ?)]%repo_bind_inv; [|done].
  unfold returns in Hret. injection Hret as Hr ->. split; [done|]. eauto.
Qed.

(** C10: admitting Managed Work is all or nothing.  An error leaves the database as it was.  A success means that
    the submission's Organization and Agent hold a current router admission, and that it either returned an
    earlier admission of the same request and changed nothing, or stored exactly three rows: the work, in state
    [Dispatching], the payload that the given builder sealed for it, and the Agent's next command.  A new admission
    matches an unexpired preflight made for the Agent's current dispatch key, and no other work uses its
    identifier, its idempotency key or its print intent. *)
Theorem managed_work_admission_outcome m build clk db r db' :
  controller_wf db -> submission_valid m = true -> admit_managed_work m build clk db = (r, db') ->
  match r with
  | Err _ => db' = db
  | Ok d =>
      ra_organization_id (ma_router_admission m) = sc_organization_id (submitted_scope m) /\
      admitted db (ma_router_admission m) (sc_agent_id (submitted_scope m)) clk /\
      ((exists w, managed_work db !! mw_managed_work_id w = Some w /\ is_request_of m w /\
          pd_managed_work d = dispatch_view w /\ db' = db) \/
       ((forall k w, managed_work db !! k = Some w -> ~ uses_identity_of m w) /\
        exists preflight key row payload version,
          managed_work_preflights db !! sub_preflight_id (ma_submission m) = Some preflight /\
          pf_request preflight = expected_request (ma_submission m) /\ ma_admitted_at m < pf_submit_before preflight /\
          ag_dispatch_key <$> agents db !! sc_agent_id (submitted_scope m) = Some (Some key) /\
          dk_key_id key = pf_dispatch_key_id preflight /\
          cm_command_id row = dispatch_command_id (ma_managed_work_id m) /\
          cm_agent_id row = sc_agent_id (submitted_scope m) /\ cm_state row = CsQueued /\
          cm_sequence row = default 0 (max_sequence db (sc_agent_id (submitted_scope m))) + 1 /\
          build (mkAllocation (ma_managed_work_id m) (cm_sequence row) (cm_command_id row) (cm_message_id row)
                   (ma_admitted_at m) key (pf_work_expires_at preflight)) = Ok payload /\
          pd_managed_work d = dispatch_view (admitted_work m preflight) /\
          db' = db <| commands := <[cm_command_id row := row]> (commands db) |>
                   <| managed_work := <[ma_managed_work_id m := admitted_work m preflight]> (managed_work db) |>
                   <| managed_payloads := <[ma_managed_work_id m := protected_row m preflight payload version]>
                                            (managed_payloads db) |>))
  end.
Proof.
  intros Hwf Hv Hrun. destruct r as [d|e].
  - apply admit_managed_work_Ok in Hrun as (Ho & r & Hin & Hd). split; [done|].
    rewrite (admit_in_view m build clk db r db') in Hd by done. injection Hd as <-.
    destruct (admit_in_Ok _ _ _ _ _ _ ltac:(apply Hwf) Hin) as [Had [(w & Hw & Hr & Hex & ->)|[Hno Hnew]]];
      (split; [done|]).
    + left. exists w. by rewrite (existing_dispatch_fst _ _ _ _ Hex).
    + right. split; [exact Hno|]. apply admit_new_Ok in Hnew as (pf & ag & dv & key & row & payload & version & cmd & db1 &
        Hpf & Hreq & Hexp & Hag & _ & _ & _ & Hkey & Hkid & _ & _ & (Hseq & _ & Hrow) & Hb & _ & _ & _ & _ & _ & -> & ->).
      exists pf, key, row, payload, version. unfold submitted_scope. rewrite Hag. simpl. rewrite Hkey. split_and!; try done; by rewrite Hrow.
  - unfold admit_managed_work in Hrun. destruct (negb _); [by injection Hrun as _ <-|].
    apply repo_bind_inv in Hrun as [(r & s1 & Htx%transaction_Ok & Hret)|(e' & Htx & _)]; cycle 1.
    { by apply transaction_inv in Htx as [(? & ? & _)|(? & _ & ->)]. }
    unfold returns in Hret. by rewrite (admit_in_view m build clk db r s1) in Hret.
Qed.

Definition find_existing_for (m : ManagedWorkAdmission) : Tx (option ManagedWorkRow) :=
  find_existing_managed_work (ma_managed_work_id m) (sc_organization_id (submitted_scope m)) (ma_idempotency_key m)
    (dw_print_intent_id (sub_work (ma_submission m))) (ma_request_fingerprint m).

(** After an admission the same submission finds the same row and command again. *)
Lemma admit_in_again m build clk db r db1 : controller_wf db -> submission_valid m = true ->
  admit_in m build clk db = Ok (r, db1) ->
  find_existing_for m db1 = Ok (Some (fst r), db1) /\ existing_dispatch (fst r) db1 = Ok (r, db1).
Proof.
  intros Hwf Hv Hin. pose proof (admit_in_wf m build clk Hv _ _ _ Hin Hwf) as Hwf1.
  pose proof Hin as Hin0. unfold admit_in in Hin. cbv zeta in Hin.
  apply tx_bind_Ok in Hin as (u & s1 & [Had ->]%require_admission_Ok & Hin).
  apply tx_bind_Ok in Hin as (e & s2 & Hf & Hin).
  pose proof (steps_run (R := eq) _ _ _ Hf) as <-. destruct e as [w|].
  - pose proof (steps_run (R := eq) _ _ _ Hin) as <-. by rewrite (existing_dispatch_fst _ _ _ _ Hin).
  - pose proof Hin as Hnew. apply admit_new_Ok in Hin as (pf & ag & dv & key & row & payload & version & cmd & db2 &
      _ & _ & _ & Hag & _ & _ & _ & _ & _ & _ & _ & (_ & _ & Hrow) & _ & _ & Hpc & _ & _ & _ & Hdb & ->). simpl fst in *.
    set (w := admitted_work m pf) in *.
    assert (managed_work db1 !! mw_managed_work_id w = Some w) as Hw1 by (rewrite Hdb; apply lookup_insert_eq).
    assert (commands db1 !! cm_command_id row = Some row) as Hc1 by (rewrite Hdb; apply lookup_insert_eq).
    assert (agents db1 = agents db) as Ha1 by by rewrite Hdb.
    destruct (find_existing_row db1 (ma_managed_work_id m) (sc_organization_id (submitted_scope m)) (ma_idempotency_key m)
      (dw_print_intent_id (sub_work (ma_submission m))) (ma_request_fingerprint m) w ltac:(apply Hwf1) Hw1) as [Hs _].
    split; [by apply Hs|].
    unfold existing_dispatch, get, expect, lift, mret, tx_ret. unfold mbind, tx_bind. simpl.
    assert (cm_command_id row = dispatch_command_id (ma_managed_work_id m)) as <- by (rewrite Hrow; done).
    rewrite Hc1, Ha1. simpl. rewrite Hag. simpl. by rewrite Hpc.
Qed.

(** Submissions are idempotent.  After an admission, submitting the same request under the same names returns
    the same work and command and changes nothing, whatever the retry would seal and whichever Agent is asked for;
    a submission that reuses the work's identifier, its print intent, or its idempotency key in the Organization for
    another request is a conflict that changes nothing. *)
Theorem managed_work_admission_is_idempotent m build clk db d db1 :
  controller_wf db -> submission_valid m = true -> admit_managed_work m build clk db = (Ok d, db1) ->
  exists w, managed_work db1 !! mw_managed_work_id w = Some w /\ pd_managed_work d = dispatch_view w /\
  forall m' build' clk',
    ra_organization_id (ma_router_admission m') = sc_organization_id (submitted_scope m') ->
    admitted db1 (ma_router_admission m') (sc_agent_id (submitted_scope m')) clk' ->
    (ma_managed_work_id m' = ma_managed_work_id m -> is_request_of m' w ->
       admit_managed_work m' build' clk' db1 = (Ok d, db1)) /\
    (uses_identity_of m' w -> ~ is_request_of m' w ->
       admit_managed_work m' build' clk' db1 =
         (Err (Conflict "a Managed Work identity was already used for different Device Work"), db1)).
Proof.
  intros Hwf Hv Hrun. apply admit_managed_work_Ok in Hrun as (_ & r & Hin & Hd).
  pose proof (admit_in_wf m build clk Hv _ _ _ Hin Hwf) as Hwf1.
  destruct (admit_in_again m build clk db r db1 Hwf Hv Hin) as [Hf Hex].
  pose proof Hd as Hd'. rewrite (admit_in_view m build clk db r db1) in Hd' by done. injection Hd' as <-.
  assert (managed_work db1 !! mw_managed_work_id (fst r) = Some (fst r) /\ is_request_of m (fst r)) as [Hw1 Hrm].
  { destruct (find_existing_cases db1 (ma_managed_work_id m) (sc_organization_id (submitted_scope m)) (ma_idempotency_key m)
      (dw_print_intent_id (sub_work (ma_submission m))) (ma_request_fingerprint m) ltac:(apply Hwf1))
      as [[E _]|[(w & E & Hw & Hr)|[E _]]]; unfold find_existing_for in Hf; rewrite E in Hf; [done| |done].
    injection Hf as <-. done. }
  exists (fst r). split_and!; [done|done|]. intros m' build' clk' Hro Had.
  unfold admit_managed_work. fold (submitted_scope m'). rewrite (proj2 (String.eqb_eq _ _) Hro). simpl.
  pose proof (proj2 (require_admission_Ok _ _ _ _ tt db1) (conj Had eq_refl)) as Hadm.
  unfold admit_in, transaction, returns. unfold mbind, repo_bind, tx_bind. fold (submitted_scope m'). rewrite Hadm.
  split.
  - intros Hid (E1 & E2 & E3 & E4). destruct Hrm as (F1 & F2 & F3 & F4). unfold find_existing_for in Hf.
    rewrite Hid, <- E1, <- E2, <- E3, <- E4, F1, F2, F3, F4, Hf, Hex. by rewrite Hd.
  - intros Hu Hno. destruct (find_existing_row db1 (ma_managed_work_id m') (sc_organization_id (submitted_scope m'))
      (ma_idempotency_key m') (dw_print_intent_id (sub_work (ma_submission m'))) (ma_request_fingerprint m') (fst r)
      ltac:(apply Hwf1) Hw1) as [_ Hc]. by rewrite (Hc Hu Hno).
Qed.
End AdmissionTheorems.

(** ** Payloads *)
Section Payloads.
Context `{Encoding, Sha256, !HexSpec}.

(** The payload that was sealed for a new admission passed the column checks. *)
Lemma admit_new_payload m build db r db' : admit_new m build db = Ok (r, db') ->
  exists preflight sequence command_id message_id key payload,
    managed_work_preflights db !! sub_preflight_id (ma_submission m) = Some preflight /\
    build (mkAllocation (ma_managed_work_id m) sequence command_id message_id (ma_admitted_at m) key
             (pf_work_expires_at preflight)) = Ok payload /\
    str_len (nl_nonce payload) = 12 /\ digest32 (nl_authenticated_data_digest payload) = true /\
    0 < nl_wrapping_key_version payload <= i32_max /\
    managed_work db' !! ma_managed_work_id m = Some (admitted_work m preflight) /\
    managed_payloads db' !! ma_managed_work_id m =
      Some (protected_row m preflight payload (nl_wrapping_key_version payload)).
Proof.
  intros Hrun. apply admit_new_Ok in Hrun as (pf & ag & dv & key & row & payload & version & cmd & db1 &
    Hpf & _ & _ & _ & _ & _ & _ & _ & _ & _ & _ & _ & Hb & _ & _ & _ & Hver & (Hn & Hd & Hpos) & Hdb & _).
  assert (version = nl_wrapping_key_version payload /\ version <= i32_max) as [-> Hmax].
  { unfold i32_try_from in Hver. case_match; [|done]. bools. by injection Hver as <-. }
  exists pf, (cm_sequence row), (cm_command_id row), (cm_message_id row), key, payload.
  split_and!; try done; rewrite Hdb; apply lookup_insert_eq.
Qed.

(** What was sealed is what is dispatched.  Until the work expires, reading the payload of a new admission
    returns the ciphertext, nonce, wrapped key, key version and digest that the builder produced, with the
    identity and fingerprints of the admission, and changes nothing; from the deadline on it is refused. *)
Theorem admitted_payload_roundtrip m build clk db d db1 now :
  controller_wf db -> submission_valid m = true ->
  (forall k w, managed_work db !! k = Some w -> ~ uses_identity_of m w) ->
  admit_managed_work m build clk db = (Ok d, db1) ->
  exists preflight allocation payload,
    managed_work_preflights db !! sub_preflight_id (ma_submission m) = Some preflight /\
    build allocation = Ok payload /\ al_managed_work_id allocation = ma_managed_work_id m /\
    managed_payload (ma_managed_work_id m) now db1 =
      (if stored_time (pf_work_expires_at preflight) <=? now
       then Err (Conflict "Managed Work is not available for dispatch")
       else Ok (mkPersistedPayload payload
              (mkPayloadContext (sc_organization_id (submitted_scope m)) (ma_managed_work_id m) (ma_idempotency_key m)
                 (hex_encode (ma_payload_fingerprint m)) (hex_encode (ma_request_fingerprint m)))), db1).
Proof.
  intros Hwf Hv Hno Hrun. apply admit_managed_work_Ok in Hrun as (_ & r & Hin & _).
  destruct (admit_in_Ok _ _ _ _ _ _ ltac:(apply Hwf) Hin) as [_ [(w & Hw & (R1 & R2 & _) & _ & _)|[_ Hnew]]].
  { exfalso. apply (Hno _ _ Hw). right. left. done. }
  apply admit_new_payload in Hnew as (pf & q & cid & mid & key & p & Hpf & Hb & Hn & Hd & [Hv0 Hv1] & Hw & Hp).
  exists pf, (mkAllocation (ma_managed_work_id m) q cid mid (ma_admitted_at m) key (pf_work_expires_at pf)), p.
  split_and!; try done.
  unfold managed_payload, transaction, get, expect, lift, require, mret, tx_ret. unfold mbind, tx_bind.
  rewrite Hw. simpl. unfold utc_time. destruct (stored_time (pf_work_expires_at pf) <=? now); simpl; [done|].
  rewrite Hp. simpl. rewrite (proj2 (Z.eqb_eq _ _) Hn). simpl.
  unfold u32_try_from. rewrite (proj2 (Z.leb_le _ _)), (proj2 (Z.leb_le _ 4294967295)) by (unfold i32_max in *; lia).
  simpl. rewrite Hd. simpl. by destruct p.
Qed.
End Payloads.

(** ** Samples *)
Import Toy.
Definition sample_scope : ManagedWorkScope := mkManagedWorkScope "odoo" "1" "org_acme" "site_main" "agt_1".
Definition sample_binding : ReportBindingClaim :=
  mkReportBindingClaim "rb_1" "rev_1" "action_1" "sha256:a" "sha256:b" None None None.
Definition sample_submission : ManagedWorkSubmission :=
  mkManagedWorkSubmission 1 "mpf_1" "sha256:c"
    (mkManagedDeviceWork 1 sample_scope "pi_v1_a" "dev_label"
       (mkReportPrintOrigin sample_binding RouteManual (SourceRecords "stock.picking" [7]) 0 0)
       (DocLabelDocument "WFla") []).
Definition sample_preflight : NewManagedWorkPreflight :=
  mkNewPreflight "mpf_1" (expected_request sample_submission) "dispatch_1" "sha256:d" (seconds 600) (seconds 900)
    (seconds 60) (seconds 4).
Definition sample_ready : Database := snd (create_managed_work_preflight sample_preflight sample_admitted).
Definition sample_seal (a : ManagedDispatchAllocation) : GatewayResult NewManagedPayload :=
  Ok (mkNewPayload "sealed" "nonce-12byte" "wrapped" 1 (digest_of "d") 3).
Definition sample_work (id key : string) : ManagedWorkAdmission :=
  mkWorkAdmission sample_admission id key sample_submission (digest_of "r") (digest_of "p") 3 (seconds 5).
Definition sample_first : GatewayResult PersistedManagedWorkDispatch * Database :=
  admit_managed_work (sample_work "mw_1" "key-1") sample_seal (seconds 5) sample_ready.
#[export] Instance table_order : ScanOrder := fun l => l.
#[export] Instance table_order_permutes : ScanOrderSpec.
Proof. by intros l. Qed.

(** Well-formedness of a database without commands and Managed Work. *)
Lemma controller_wf_no_work `{Encoding, Sha256} db : agents_wf db -> commands db = ∅ -> managed_work db = ∅ ->
  managed_payloads db = ∅ -> controller_wf db.
Proof.
  intros Ha Ec Ew Ep. unfold controller_wf, commands_wf, sequences_wf, work_wf, quotas, dispatch_wf, pending_rows,
    rows_where, rows. rewrite Ec, Ew, Ep. rewrite map_to_list_empty.
  split_and!; try done; intros; simplify_map_eq; try (by destruct H1). 
Qed.
Lemma sample_ready_wf : controller_wf sample_ready.
Proof. apply controller_wf_no_work; [decide_now|vm_compute; reflexivity..]. Qed.

Lemma sample_first_facts : exists d db', sample_first = (Ok d, db') /\
  pw_managed_work_id (pd_managed_work d) = "mw_1" /\ admitted db' sample_admission "agt_1" (seconds 6) /\
  (forall w, managed_work db' !! "mw_1" = Some w ->
     is_request_of (sample_work "mw_1" "key-1") w /\ mw_expires_at w = seconds 600).
Proof.
  destruct sample_first as [[d|e] db'] eqn:E; [|exfalso; vm_compute in E; discriminate].
  exists d, db'. vm_compute in E. injection E as <- <-. split_and!; [done|reflexivity| |].
  - refine (proj1 (proj1 (require_admission_Ok sample_admission "agt_1" (seconds 6) _ tt _) _)). vm_compute. reflexivity.
  - intros w Hw. vm_compute in Hw. injection Hw as <-. repeat split.
Qed.

Lemma managed_work_admission_outcome_witness :
  is_ok (fst sample_first) = true /\ admitted sample_ready sample_admission "agt_1" (seconds 5).
Proof.
  destruct sample_first_facts as (d & db' & E & _). rewrite E. split; [reflexivity|].
  pose proof (managed_work_admission_outcome (sample_work "mw_1" "key-1") sample_seal (seconds 5) sample_ready (Ok d) db'
    sample_ready_wf eq_refl E) as (_ & Had & _). exact Had.
Defined.
Lemma managed_work_admission_is_idempotent_witness :
  admit_managed_work (sample_work "mw_1" "key-1") sample_seal (seconds 6) (snd sample_first) = sample_first /\
  admit_managed_work (sample_work "mw_1" "key-2") sample_seal (seconds 6) (snd sample_first) =
    (Err (Conflict "a Managed Work identity was already used for different Device Work"), snd sample_first).
Proof.
  destruct sample_first_facts as (d & db' & E & Hid & Had & Hw1). rewrite E. simpl.
  destruct (managed_work_admission_is_idempotent (sample_work "mw_1" "key-1") sample_seal (seconds 5) sample_ready d db'
    sample_ready_wf eq_refl E) as (w & Hw & Hd & Hretry).
  assert (mw_managed_work_id w = "mw_1") as Ew by (rewrite Hd in Hid; exact Hid).
  rewrite Ew in Hw. destruct (Hw1 w Hw) as [Hr _]. split.
  - by apply (Hretry (sample_work "mw_1" "key-1") sample_seal (seconds 6) eq_refl Had).
  - apply (Hretry (sample_work "mw_1" "key-2") sample_seal (seconds 6) eq_refl Had).
    + by left.
    + intros (_ & Hk & _). destruct Hr as (_ & Hk' & _). simpl in *. rewrite Hk in Hk'. discriminate.
Defined.
Lemma admitted_payload_roundtrip_witness :
  exists p, managed_payload "mw_1" (seconds 7) (snd sample_first) = (Ok p, snd sample_first) /\
    nl_ciphertext (pl_protection p) = "sealed".
Proof.
  destruct sample_first_facts as (d & db' & E & _). rewrite E. simpl.
  destruct (admitted_payload_roundtrip (sample_work "mw_1" "key-1") sample_seal (seconds 5) sample_ready d db' (seconds 7)
    sample_ready_wf eq_refl) as (pf & al & p & Hpf & Hb & _ & Hp); [|exact E|].
  - intros k w Hk. vm_compute in Hk. destruct k; discriminate.
  - assert (pf_work_expires_at pf = seconds 600) as Ex by (vm_compute in Hpf; injection Hpf as <-; reflexivity).
    rewrite Ex in Hp. eexists. split; [exact Hp|]. simpl. unfold sample_seal in Hb. injection Hb as <-. reflexivity.
Defined.
