(* ===== verification/Fleet.v ===== *)
(** * Fleet queries

    [crates/inari-gateway/src/persistence/fleet.rs]: the sites, Agents and devices of an organization, as an
    operator and a workload see them.  Every query only reads; the joins and the aggregates of the SQL are
    written out. *)
From S2P Require Import Prelude Errors Identifiers Protocol Schema Samples Commands Inventory.

Inductive AgentHealthState : Set := AgentOnline | AgentOffline | AwaitingFirstContact.
Record AgentHealth := mkAgentHealth { ah_state : AgentHealthState; ah_last_seen_at : option instant }.
Record AgentSummary := mkAgentSummary {
  as_agent_id : string; as_site_id : string; as_health : AgentHealth; as_enrolled_at : instant }.
Record SiteSummary := mkSiteSummary {
  ss_site_id : string; ss_name : string; ss_agent_count : Z; ss_device_count : Z }.
Record DeviceSummary := mkDeviceSummary {
  ds_device_id : string;
  ds_agent_id : string;
  ds_site_id : string;
  ds_kind : DeviceKind;
  ds_device_class : DeviceClass;
  ds_display_name : string;
  ds_state : DeviceState;
  ds_transport : DeviceTransport;
  ds_capabilities : list DeviceCapability;
  ds_last_seen_at : instant;
}.
Record OrganizationWorkloadScope := mkWorkloadScope {
  ws_database : string; ws_company_id : string; ws_organization_id : string }.
Record WorkloadInventory := mkWorkloadInventory {
  wi_scope : OrganizationWorkloadScope;
  wi_organization_name : string;
  wi_observed_at : instant;
  wi_sites : list SiteSummary;
  wi_agents : list AgentSummary;
  wi_devices : list DeviceSummary;
}.

(** ** Agents and devices *)
(** A row of the Agent query: the Agent and [MAX(received_at)] over its publications. *)
Record AgentContact := mkAgentContact {
  ac_agent_id : string; ac_site_id : string; ac_enrolled_at : instant; ac_last_seen_at : option instant }.
Definition max_instant (l : list instant) : option instant :=
  foldr (fun t m => Some (match m with Some u => Z.max t u | None => t end)) None l.
Definition agent_contact (db : Database) (a : AgentRow) : AgentContact :=
  mkAgentContact (ag_agent_id a) (ag_site_id a) (ag_enrolled_at a)
    (max_instant (pb_received_at <$> rows_where (publications db) (fun p => String.eqb (pb_agent_id p) (ag_agent_id a)))).

Definition agent_summary (row : AgentContact) (observed_at : instant) : GatewayResult AgentSummary :=
  let last_seen_at := utc_time <$> ac_last_seen_at row in
  let online_after := observed_at - minutes 2 in
  let state := match last_seen_at with
               | Some last_seen_at => if online_after <=? last_seen_at then AgentOnline else AgentOffline
               | None => AwaitingFirstContact
               end in
  agent_id ← AgentId_from_str (ac_agent_id row);
  site_id ← SiteId_from_str (ac_site_id row);
  Ok (mkAgentSummary agent_id site_id (mkAgentHealth state last_seen_at) (utc_time (ac_enrolled_at row))).

Definition DeviceClass_from (c : StoredDeviceClass) : DeviceClass :=
  match c with SPhysical => Physical | SVirtual => Virtual end.
Definition device_summary (model : DeviceRow) : GatewayResult DeviceSummary :=
  device_id ← DeviceId_from_str (dv_device_id model);
  agent_id ← AgentId_from_str (dv_agent_id model);
  site_id ← SiteId_from_str (dv_site_id model);
  Ok (mkDeviceSummary device_id agent_id site_id (DeviceKind_from (dv_kind model))
        (DeviceClass_from (dv_device_class model)) (dv_display_name model) (DeviceState_from (dv_state model))
        (DeviceTransport_from (dv_transport model)) (dv_capabilities model) (utc_time (dv_last_seen_at model))).

Section Fleet.
Context `{Collation}.

(** [now] is read once per row of the source; one instant stands for the reads of one call. *)
Definition fleet_agents (organization_id : string) (site_id : option string) (now : instant)
    : Repo (list AgentSummary) :=
  queries (fun db =>
    collect (fun a => agent_summary (agent_contact db a) now)
      (order_by (by_text ag_agent_id) (rows_where (agents db) (fun a =>
         String.eqb (ag_organization_id a) organization_id
         && match site_id with Some s => String.eqb (ag_site_id a) s | None => true end)))).

Definition fleet_devices (agent_id : string) : Repo (list DeviceSummary) :=
  queries (fun db =>
    collect device_summary
      (order_by (by_text dv_display_name) (rows_where (devices db) (fun d => String.eqb (dv_agent_id d) agent_id)))).

(** ** Sites

    [LEFT JOIN agents ... LEFT JOIN devices ...]: every combination of an Agent and a device of the site, with a
    null on a side that has none; the counts are over distinct values. *)
Definition left_side {V} (l : list V) : list (option V) := match l with [] => [None] | _ => Some <$> l end.
Definition site_join (db : Database) (s : SiteRow) : list (option AgentRow * option DeviceRow) :=
  a ← left_side (rows_where (agents db) (fun a => String.eqb (ag_site_id a) (st_site_id s)));
  d ← left_side (rows_where (devices db) (fun d => String.eqb (dv_site_id d) (st_site_id s)));
  [(a, d)].
Definition count_distinct {B} `{EqDecision B} (l : list B) : Z := Z.of_nat (length (remove_dups l)).
Definition site_agent_count (db : Database) (s : SiteRow) : Z :=
  count_distinct (omap (fun r => ag_agent_id <$> fst r) (site_join db s)).
Definition site_device_count (db : Database) (s : SiteRow) : Z :=
  count_distinct (omap (fun r => (fun d => (dv_agent_id d, dv_device_id d)) <$> snd r) (site_join db s)).

Definition count (value : Z) (name : string) : GatewayResult Z :=
  ok_or (u64_try_from value) (CorruptState (name ++ " is negative")).

Definition fleet_sites (organization_id : string) : Repo (list SiteSummary) :=
  queries (fun db =>
    collect (fun s =>
        site_id ← SiteId_from_str (st_site_id s);
        agent_count ← count (site_agent_count db s) "agent_count";
        device_count ← count (site_device_count db s) "device_count";
        Ok (mkSiteSummary site_id (st_name s) agent_count device_count))
      (order_by (by_text st_name) (rows_where (sites db) (fun s => String.eqb (st_organization_id s) organization_id)))).

(** ** The inventory of a workload *)
Definition INVENTORY_LIMIT : Z := 2000.
Definition limited {V} (l : list V) : list V := take (Z.to_nat (INVENTORY_LIMIT + 1)) l.
Definition by_agent_then_device (a b : DeviceRow) : bool :=
  if collate_le (dv_agent_id b) (dv_agent_id a) && collate_le (dv_agent_id a) (dv_agent_id b)
  then collate_le (dv_device_id a) (dv_device_id b) else collate_le (dv_agent_id a) (dv_agent_id b).

Definition organization_sites (db : Database) (o : string) : list SiteRow :=
  order_by (by_text st_site_id) (rows_where (sites db) (fun s => String.eqb (st_organization_id s) o)).
Definition organization_agents (db : Database) (o : string) : list AgentRow :=
  order_by (by_text ag_agent_id) (rows_where (agents db) (fun a => String.eqb (ag_organization_id a) o)).
Definition organization_devices (db : Database) (o : string) : list DeviceRow :=
  order_by by_agent_then_device (rows_where (devices db) (fun d =>
    negb (no_row (agents db) (fun a => String.eqb (ag_organization_id a) o && String.eqb (ag_agent_id a) (dv_agent_id d))))).

(** [observed_at] is the transaction's timestamp. *)
Definition workload_inventory (scope : OrganizationWorkloadScope) (observed_at : instant) : Repo WorkloadInventory :=
  transaction (
    db ← get;
    let o := ws_organization_id scope in
    organization ← expect (organizations db !! o) (NotFound "Organization was not found.");
    let sites := limited (organization_sites db o) in
    let agents := agent_contact db <$> limited (organization_agents db o) in
    let devices := limited (organization_devices db o) in
    _ ← require (negb ((INVENTORY_LIMIT <? Z.of_nat (length sites)) || (INVENTORY_LIMIT <? Z.of_nat (length agents))
                  || (INVENTORY_LIMIT <? Z.of_nat (length devices))))
          (Capacity "The Organization inventory exceeds the full synchronization limit.");
    agents ← lift (collect (fun row => agent_summary row (utc_time observed_at)) agents);
    devices ← lift (collect device_summary devices);
    sites ← lift (collect (fun s =>
        site_id ← SiteId_from_str (st_site_id s);
        Ok (mkSiteSummary site_id (st_name s)
              (Z.of_nat (length (List.filter (fun a => String.eqb (as_site_id a) (st_site_id s)) agents)))
              (Z.of_nat (length (List.filter (fun d => String.eqb (ds_site_id d) (st_site_id s)) devices))))) sites);
    mret (mkWorkloadInventory scope (og_name organization) (utc_time observed_at) sites agents devices)).
End Fleet.

(** ** Lemmas *)
Lemma max_instant_spec l :
  match max_instant l with
  | Some t => t ∈ l /\ (forall u, u ∈ l -> u <= t)
  | None => l = []
  end.
Proof.
  induction l as [|t l IH]; simpl; [done|]. destruct (max_instant l) as [m|].
  - destruct IH as [Hm Hmax]. split.
    + destruct (Z.max_spec t m) as [[_ ->]|[_ ->]]; set_solver.
    + intros u [->|Hu]%elem_of_cons; [lia|]. specialize (Hmax u Hu). lia.
  - subst l. split; [set_solver|]. intros u [->|Hu]%elem_of_cons; [lia|set_solver].
Qed.

Definition published_at (db : Database) (agent_id : string) (t : instant) : Prop :=
  exists k p, publications db !! k = Some p /\ pb_agent_id p = agent_id /\ pb_received_at p = t.
Lemma last_seen_spec db a :
  match ac_last_seen_at (agent_contact db a) with
  | Some t => published_at db (ag_agent_id a) t /\ (forall u, published_at db (ag_agent_id a) u -> u <= t)
  | None => forall u, ~ published_at db (ag_agent_id a) u
  end.
Proof.
  simpl. set (l := pb_received_at <$> _).
  assert (forall t, t ∈ l <-> published_at db (ag_agent_id a) t) as Hl.
  { intros t. unfold l, published_at. rewrite list_elem_of_fmap. split.
    - intros (p & -> & Hp). apply elem_of_rows_where in Hp as [Ha [k Hk]]. rewrite String.eqb_eq in Ha. eauto.
    - intros (k & p & Hk & Ha & <-). exists p. split; [done|]. apply elem_of_rows_where. rewrite Ha, String.eqb_refl. eauto. }
  pose proof (max_instant_spec l) as Hm. destruct (max_instant l) as [t|].
  - destruct Hm as [Ht Hmax]. split; [by apply Hl|]. intros u Hu. by apply Hmax, Hl.
  - intros u Hu. apply Hl in Hu. rewrite Hm in Hu. set_solver.
Qed.

(** An Agent's health is its latest contact.  It is online exactly when a publication of it was received in
    the two minutes before the observation, offline when all its publications are older, and awaits its first
    contact when there is none; the reported time is the newest one. *)
Theorem agent_health_is_latest_contact db a now s :
  agent_summary (agent_contact db a) now = Ok s ->
  as_agent_id s = ag_agent_id a /\
  (ah_state (as_health s) = AgentOnline <-> exists t, published_at db (ag_agent_id a) t /\ now - minutes 2 <= t) /\
  (ah_state (as_health s) = AgentOffline <->
     (exists t, published_at db (ag_agent_id a) t) /\ forall t, published_at db (ag_agent_id a) t -> t < now - minutes 2) /\
  (ah_state (as_health s) = AwaitingFirstContact <-> forall t, ~ published_at db (ag_agent_id a) t) /\
  (forall t, ah_last_seen_at (as_health s) = Some t <->
     published_at db (ag_agent_id a) t /\ forall u, published_at db (ag_agent_id a) u -> u <= t).
Proof.
  intros Hrun. pose proof (last_seen_spec db a) as Hl. unfold agent_summary in Hrun. res_inv Hrun.
  apply AgentId_Ok in Hok as [-> _]. simpl in *. unfold utc_time.
  destruct (max_instant _) as [t|]; simpl.
  - destruct Hl as [Ht Hmax]. split; [done|]. destruct (_ <=? t) eqn:E; bools; (split; [|split; [|split]]).
    + split; [eauto|done].
    + split; [done|]. intros [_ Hold]. specialize (Hold t Ht). lia.
    + split; [done|]. intros Hno. by apply Hno in Ht.
    + intros u. split; [by intros [= <-]|]. intros [Hu Hbig]. f_equal. specialize (Hbig t Ht). specialize (Hmax u Hu). lia.
    + split; [done|]. intros (u & Hu & Hge). specialize (Hmax u Hu). lia.
    + split; [|done]. intros _. split; [eauto|]. intros u Hu. specialize (Hmax u Hu). lia.
    + split; [done|]. intros Hno. by apply Hno in Ht.
    + intros u. split; [by intros [= <-]|]. intros [Hu Hbig]. f_equal. specialize (Hbig t Ht). specialize (Hmax u Hu). lia.
  - split; [done|]. split; [|split; [|split]].
    + split; [done|]. intros (u & Hu & _). by apply Hl in Hu.
    + split; [done|]. intros [[u Hu] _]. by apply Hl in Hu.
    + done.
    + intros u. split; [done|]. intros [Hu _]. by apply Hl in Hu.
Qed.

(** *** Sites *)
Lemma elem_of_left_side {V} (l : list V) (v : V) : Some v ∈ left_side l <-> v ∈ l.
Proof. unfold left_side. destruct l; [set_solver|]. rewrite list_elem_of_fmap. naive_solver. Qed.
Lemma left_side_inhabited {V} (l : list V) : exists o, o ∈ left_side l.
Proof. unfold left_side. destruct l as [|v l]; [exists None|exists (Some v)]; set_solver. Qed.

(** A duplicate-free list with the same members has the distinct count. *)
Lemma count_distinct_eq {B} `{EqDecision B} (l m : list B) :
  NoDup m -> (forall b, b ∈ l <-> b ∈ m) -> count_distinct l = Z.of_nat (length m).
Proof.
  intros Hm Hlm. unfold count_distinct. f_equal. apply Permutation_length.
  apply NoDup_Permutation; [apply NoDup_remove_dups|done|]. intros b. by rewrite elem_of_remove_dups, Hlm.
Qed.
Lemma elem_of_site_join db s a d : (a, d) ∈ site_join db s <->
  a ∈ left_side (rows_where (agents db) (fun a => String.eqb (ag_site_id a) (st_site_id s))) /\
  d ∈ left_side (rows_where (devices db) (fun d => String.eqb (dv_site_id d) (st_site_id s))).
Proof.
  unfold site_join. rewrite list_elem_of_bind. split.
  - intros (a' & Had & Ha). apply list_elem_of_bind in Had as (d' & Hp & Hd).
    apply list_elem_of_singleton in Hp as [= -> ->]. done.
  - intros [Ha Hd]. exists a. split; [|done]. apply list_elem_of_bind. exists d. split; [|done].
    by apply list_elem_of_singleton.
Qed.

(** The counts of a site are exact.  Although the query joins every Agent of the site with every device of it,
    it counts each Agent and each device once, and none is lost when the other side is empty. *)
Theorem site_counts_are_exact db s : agents_wf db -> devices_wf db ->
  site_agent_count db s = count_where (agents db) (fun a => String.eqb (ag_site_id a) (st_site_id s)) /\
  site_device_count db s = count_where (devices db) (fun d => String.eqb (dv_site_id d) (st_site_id s)).
Proof.
  intros Ha Hd. unfold site_agent_count, site_device_count, count_where. split.
  - rewrite <- (length_fmap ag_agent_id). apply count_distinct_eq.
    + apply NoDup_rows_where. intros k1 k2 v1 v2 H1 H2 _ _ E. apply Ha in H1 as [? _], H2 as [? _]. congruence.
    + intros id. rewrite list_elem_of_omap, list_elem_of_fmap. split.
      * intros ([a d] & Hj & Hid). apply elem_of_site_join in Hj as [Hl _]. simpl in Hid.
        destruct a as [a|]; [|done]. simpl in Hid. injection Hid as <-. exists a. split; [done|]. by apply elem_of_left_side.
      * intros (a & -> & Hin). destruct (left_side_inhabited (rows_where (devices db)
          (fun d => String.eqb (dv_site_id d) (st_site_id s)))) as [d Hdd].
        exists (Some a, d). split; [|done]. apply elem_of_site_join. by rewrite elem_of_left_side.
  - rewrite <- (length_fmap (fun d => (dv_agent_id d, dv_device_id d))). apply count_distinct_eq.
    + apply NoDup_rows_where. intros k1 k2 v1 v2 H1 H2 _ _ E. apply Hd in H1, H2. congruence.
    + intros id. rewrite list_elem_of_omap, list_elem_of_fmap. split.
      * intros ([a d] & Hj & Hid). apply elem_of_site_join in Hj as [_ Hl]. simpl in Hid.
        destruct d as [d|]; [|done]. simpl in Hid. injection Hid as <-. exists d. split; [done|]. by apply elem_of_left_side.
      * intros (d & -> & Hin). destruct (left_side_inhabited (rows_where (agents db)
          (fun a => String.eqb (ag_site_id a) (st_site_id s)))) as [a Haa].
        exists (a, Some d). split; [|done]. apply elem_of_site_join. by rewrite elem_of_left_side.
Qed.

(** *** The inventory of a workload *)
Definition fleet_ids_wf (db : Database) : Prop :=
  map_Forall (fun _ s => resource_id_valid "site_" (st_site_id s) = true) (sites db) /\
  map_Forall (fun _ a => agent_id_valid (ag_agent_id a) = true /\ resource_id_valid "site_" (ag_site_id a) = true) (agents db) /\
  map_Forall (fun _ d => resource_id_valid "dev_" (dv_device_id d) = true /\ agent_id_valid (dv_agent_id d) = true /\
                         resource_id_valid "site_" (dv_site_id d) = true) (devices db).

Lemma collect_fmap {E A B} (f : A -> result E B) (g : A -> B) l :
  (forall a, a ∈ l -> f a = Ok (g a)) -> collect f l = Ok (g <$> l).
Proof.
  intros Hf. apply collect_Ok, Forall2_fmap_r, Forall_Forall2_diag, Forall_forall. intros a Ha%list_elem_of_In. eauto.
Qed.
Lemma limited_id {V} (l : list V) : Z.of_nat (length l) <= INVENTORY_LIMIT -> limited l = l.
Proof. intros Hl. apply take_ge. unfold INVENTORY_LIMIT in *. lia. Qed.
Lemma limited_over {V} (l : list V) : (INVENTORY_LIMIT <? Z.of_nat (length (limited l))) = (INVENTORY_LIMIT <? Z.of_nat (length l)).
Proof.
  unfold limited. rewrite length_take. unfold INVENTORY_LIMIT.
  destruct (Z.ltb_spec 2000 (Z.of_nat (length l))); [apply Z.ltb_lt|apply Z.ltb_ge]; lia.
Qed.
Lemma length_filter_fmap {A B} (f : A -> B) (p : B -> bool) l :
  length (List.filter p (f <$> l)) = length (List.filter (fun a => p (f a)) l).
Proof. induction l as [|a l IH]; csimpl; [done|]. destruct (p (f a)); simpl; [f_equal|]; apply IH. Qed.

Section Inventory.
Context `{Collation}.

Definition agent_view (db : Database) (now : instant) (a : AgentRow) : AgentSummary :=
  let seen := ac_last_seen_at (agent_contact db a) in
  mkAgentSummary (ag_agent_id a) (ag_site_id a)
    (mkAgentHealth (match seen with
                    | Some t => if now - minutes 2 <=? t then AgentOnline else AgentOffline
                    | None => AwaitingFirstContact
                    end) seen) (ag_enrolled_at a).
Definition device_view (d : DeviceRow) : DeviceSummary :=
  mkDeviceSummary (dv_device_id d) (dv_agent_id d) (dv_site_id d) (DeviceKind_from (dv_kind d))
    (DeviceClass_from (dv_device_class d)) (dv_display_name d) (DeviceState_from (dv_state d))
    (DeviceTransport_from (dv_transport d)) (dv_capabilities d) (dv_last_seen_at d).

Lemma agent_summary_view db now a : agent_id_valid (ag_agent_id a) = true -> resource_id_valid "site_" (ag_site_id a) = true ->
  agent_summary (agent_contact db a) now = Ok (agent_view db now a).
Proof.
  intros H1 H2. unfold agent_summary, agent_view, AgentId_from_str, SiteId_from_str, resource_id_from_str. simpl.
  rewrite H1, H2. simpl. by destruct (max_instant _).
Qed.
Lemma device_summary_view d : resource_id_valid "dev_" (dv_device_id d) = true -> agent_id_valid (dv_agent_id d) = true ->
  resource_id_valid "site_" (dv_site_id d) = true -> device_summary d = Ok (device_view d).
Proof.
  intros H1 H2 H3. unfold device_summary, DeviceId_from_str, SiteId_from_str, AgentId_from_str, resource_id_from_str.
  by rewrite H1, H2, H3.
Qed.

(** The inventory a workload synchronizes is complete or refused.  An organization with more than 2,000 sites,
    Agents or devices gets a capacity error; otherwise the answer lists every site, every Agent with its health and
    every device of its Agents, in order and untruncated, and counts each site's Agents and devices among them.
    The database is not changed. *)
Theorem workload_inventory_is_complete scope observed_at db org :
  fleet_ids_wf db -> organizations db !! ws_organization_id scope = Some org ->
  let sites_of := organization_sites db (ws_organization_id scope) in
  let agents_of := organization_agents db (ws_organization_id scope) in
  let devices_of := organization_devices db (ws_organization_id scope) in
  workload_inventory scope observed_at db =
    (if (INVENTORY_LIMIT <? Z.of_nat (length sites_of)) || (INVENTORY_LIMIT <? Z.of_nat (length agents_of))
        || (INVENTORY_LIMIT <? Z.of_nat (length devices_of))
     then Err (Capacity "The Organization inventory exceeds the full synchronization limit.")
     else Ok (mkWorkloadInventory scope (og_name org) observed_at
            ((fun s => mkSiteSummary (st_site_id s) (st_name s)
               (Z.of_nat (length (List.filter (fun a => String.eqb (ag_site_id a) (st_site_id s)) agents_of)))
               (Z.of_nat (length (List.filter (fun d => String.eqb (dv_site_id d) (st_site_id s)) devices_of)))) <$> sites_of)
            (agent_view db observed_at <$> agents_of) (device_view <$> devices_of)), db).
Proof.
  intros (Hs & Ha & Hd) Horg. cbv zeta. set (o := ws_organization_id scope).
  unfold workload_inventory, transaction, get, expect, require, lift, mret, tx_ret. unfold mbind, tx_bind.
  fold o. fold o in Horg. rewrite Horg. simpl. rewrite length_fmap, !limited_over.
  destruct (_ || _ || _) eqn:Hlim; [done|]. bools. simpl. rewrite !limited_id by lia. unfold utc_time.
  rewrite (collect_fmap _ (fun c => default (mkAgentSummary "" "" (mkAgentHealth AgentOffline None) 0)
    (match agent_summary c observed_at with Ok s => Some s | Err _ => None end))); cycle 1.
  { intros c (a & -> & Hin)%list_elem_of_fmap. apply elem_of_order_by, elem_of_rows_where in Hin as [_ [k Hk]].
    destruct (Ha k a Hk). by rewrite agent_summary_view. }
  rewrite (collect_fmap device_summary device_view); cycle 1.
  { intros d Hin. apply elem_of_order_by, elem_of_rows_where in Hin as [_ [k Hk]].
    destruct (Hd k d Hk) as (? & ? & ?). by apply device_summary_view. }
  rewrite <- list_fmap_compose. rewrite (list_fmap_ext _ (agent_view db observed_at)); cycle 1.
  { intros i a Hi. apply list_elem_of_lookup_2, elem_of_order_by, elem_of_rows_where in Hi as [_ [k Hk]].
    destruct (Ha k a Hk). unfold compose. by rewrite agent_summary_view. }
  rewrite (collect_fmap _ (fun s => mkSiteSummary (st_site_id s) (st_name s)
               (Z.of_nat (length (List.filter (fun a => String.eqb (ag_site_id a) (st_site_id s)) (organization_agents db o))))
               (Z.of_nat (length (List.filter (fun d => String.eqb (dv_site_id d) (st_site_id s)) (organization_devices db o))))));
    [done|].
  intros s Hin. apply elem_of_order_by, elem_of_rows_where in Hin as [_ [k Hk]].
  unfold SiteId_from_str, resource_id_from_str. rewrite (Hs k s Hk : resource_id_valid _ _ = true).
  simpl. by rewrite !length_filter_fmap.
Qed.
End Inventory.

(** ** Samples *)
Definition sample_seen : Database :=
  sample_admitted <| publications := {["msg-1" := mkPublication "msg-1" "agt_1" "k" (Some PtError)
    (AgentErrorPublication "msg-1" (seconds 4) "printer.offline" "No paper" None true) (seconds 5)]} |>.
Lemma agent_health_is_latest_contact_witness :
  exists s, agent_summary (agent_contact sample_seen sample_agent) (seconds 60) = Ok s /\
    exists t, published_at sample_seen "agt_1" t /\ seconds 60 - minutes 2 <= t.
Proof.
  eexists. split; [vm_compute; reflexivity|].
  eapply (agent_health_is_latest_contact sample_seen sample_agent (seconds 60)); [vm_compute; reflexivity|reflexivity].
Defined.
Lemma site_counts_are_exact_witness :
  site_agent_count sample_admitted (mkSite "site_main" "org_acme" "Main" 0 0) = 1.
Proof.
  assert (agents_wf sample_admitted) as Ha by decide_now. assert (devices_wf sample_admitted) as Hd by decide_now.
  destruct (site_counts_are_exact sample_admitted (mkSite "site_main" "org_acme" "Main" 0 0) Ha Hd) as [-> _].
  vm_compute. reflexivity.
Defined.
Lemma workload_inventory_is_complete_witness :
  exists inv, workload_inventory (mkWorkloadScope "odoo" "1" "org_acme") (seconds 60) sample_seen = (Ok inv, sample_seen) /\
    ss_agent_count <$> wi_sites inv = [1].
Proof.
  assert (fleet_ids_wf sample_seen) as Hwf by decide_now.
  pose proof (workload_inventory_is_complete (mkWorkloadScope "odoo" "1" "org_acme") (seconds 60) sample_seen
    (mkOrganization "org_acme" "Acme" 0 0) Hwf eq_refl) as E. cbv zeta in E.
  eexists. split; [rewrite E; vm_compute; reflexivity|]. reflexivity.
Defined.
