(* ===== verification/FleetPolicy.v ===== *)
(** * Signed Router policies

    [crates/inari-router/src/policy.rs] and [error.rs]: the policy a Controller signs for a Router fleet, its static
    validation, its signature and the comparison with the policy a Router already holds. *)
From S2P Require Import Prelude Json InvitationCode Schema Security.

Inductive RouterError : Type :=
| InvalidPolicy (message : string)
| InvalidSignature
| NotCurrent
| GenerationConflict
| NotReady (message : string)
| Unavailable
| Io (message : string)
| Json (message : string).
Notation RouterResult := (result RouterError).
#[global] Instance RouterError_eq_dec : EqDecision RouterError. Proof. solve_decision. Defined.

(** The texts of [#[error(...)]]. *)
Definition RouterError_to_string (e : RouterError) : string :=
  match e with
  | InvalidPolicy m => "Invalid Router policy: " ++ m
  | InvalidSignature => "Router policy signature is invalid."
  | NotCurrent => "Router policy is not current."
  | GenerationConflict => "Router policy generation is stale or conflicts with stored policy."
  | NotReady m => "Router is not ready: " ++ m
  | Unavailable => "Router Supervisor is busy or unavailable."
  | Io m => "Router storage or process error: " ++ m
  | Json m => "Router JSON error: " ++ m
  end.

(** ** Third-party functions *)
Class HexDecode := hex_decode : string -> option string.
Class HexDecodeSpec `{Encoding, HexDecode} : Prop := hex_decode_encode : forall s, hex_decode (hex_encode s) = Some s.
(** [SigningKey::sign] and [SigningKey::verifying_key]. *)
Class Ed25519Signing := {
  ed25519_sign : string -> string -> string;
  ed25519_verifying_key : string -> string;
}.
(** A signature has 64 bytes and verifies with the key's own public half. *)
Class Ed25519SigningSpec `{Ed25519, Ed25519Signing} : Prop := {
  ed25519_sign_length : forall key message, str_len (ed25519_sign key message) = 64;
  ed25519_sign_verifies : forall key message,
    ed25519_is_weak (ed25519_verifying_key key) = false ->
    verify_strict (ed25519_verifying_key key) message (ed25519_sign key message) = true;
}.

(** ** Data *)
Definition SIGNATURE_DOMAIN : string := "inari.router-policy.v1" ++ String "010" EmptyString.
#[global] Opaque SIGNATURE_DOMAIN.
Definition MAX_AGENTS : Z := 10000.

Record AgentAdmission := mkAdmission { aa_common_name : string; aa_namespace : string }.
Record Policy := mkPolicy {
  po_version : Z;
  po_fleet_id : string;
  po_generation : Z;
  po_issued_at : instant;
  po_not_before : instant;
  po_expires_at : instant;
  po_namespace_prefix : string;
  po_trusted_peer_common_names : list string;
  po_agents : list AgentAdmission;
}.
Record SignedPolicy := mkSignedPolicy { sp_policy : Policy; sp_signature : string }.
Record VerifiedPolicy := mkVerified { vp_signed : SignedPolicy; vp_digest : string }.
#[global] Instance AgentAdmission_eq_dec : EqDecision AgentAdmission. Proof. solve_decision. Defined.
#[global] Instance Policy_eq_dec : EqDecision Policy. Proof. solve_decision. Defined.
#[global] Instance SignedPolicy_eq_dec : EqDecision SignedPolicy. Proof. solve_decision. Defined.
#[global] Instance VerifiedPolicy_eq_dec : EqDecision VerifiedPolicy. Proof. solve_decision. Defined.
Definition vp_policy (v : VerifiedPolicy) : Policy := sp_policy (vp_signed v).

(** ** Names *)
Definition starts_with (p s : string) : bool := match strip_prefix p s with Some _ => true | None => false end.
Definition agent_name (value : string) : bool :=
  match strip_prefix "agt_" value with
  | Some suffix => (str_len suffix =? 24) && all_bytes lower_hex suffix
  | None => false
  end.
Definition literal_byte (b : ascii) : bool :=
  is_ascii_alphanumeric b || byte_is b 45 || byte_is b 95 || byte_is b 46.
Definition literal_name (value : string) : bool :=
  negb (is_empty value) && (str_len value <=? 128) && all_bytes literal_byte value.
Definition literal_namespace (value : string) : bool :=
  (str_len value <=? 256) &&
  List.forallb (fun segment => negb (is_empty segment) && negb (String.eqb segment ".")
                 && negb (String.eqb segment "..") && literal_name segment) (split_on "/" value).

(** ** Validation *)
Fixpoint check_peers (subjects : gset string) (peers : list string) : RouterResult (gset string) :=
  match peers with
  | [] => Ok subjects
  | peer :: rest =>
      if negb (literal_name peer) || starts_with "agt_" peer || bool_decide (peer ∈ subjects)
      then Err (InvalidPolicy "trusted peer common names must be distinct literal names")
      else check_peers ({[ peer ]} ∪ subjects) rest
  end.
Fixpoint check_agents (prefix : string) (subjects : gset string) (agents : list AgentAdmission) : RouterResult unit :=
  match agents with
  | [] => Ok tt
  | agent :: rest =>
      if negb (agent_name (aa_common_name agent)) || bool_decide (aa_common_name agent ∈ subjects)
         || negb (String.eqb (aa_namespace agent) (prefix ++ "/" ++ aa_common_name agent))
      then Err (InvalidPolicy "each Agent requires its own common name and exact namespace")
      else check_agents prefix ({[ aa_common_name agent ]} ∪ subjects) rest
  end.
Definition Policy_validate (p : Policy) : RouterResult unit :=
  if negb (po_version p =? 1) || negb ((1 <=? po_generation p) && (po_generation p <=? 9007199254740991))
     || negb (literal_name (po_fleet_id p))
  then Err (InvalidPolicy "version, fleet_id, or generation is invalid")
  else
    let lifetime := po_expires_at p - po_issued_at p in
    if (po_not_before p <? po_issued_at p) || (po_expires_at p <=? po_not_before p) || (lifetime <=? 0)
       || (minutes 5 <? lifetime)
    then Err (InvalidPolicy "policy times must fit within five minutes")
    else if negb (literal_namespace (po_namespace_prefix p))
    then Err (InvalidPolicy "namespace_prefix must contain only literal path segments")
    else if bool_decide (po_trusted_peer_common_names p = [])
            || (64 <? Z.of_nat (length (po_trusted_peer_common_names p)))
            || (MAX_AGENTS <? Z.of_nat (length (po_agents p)))
    then Err (InvalidPolicy "the Agent or trusted peer count is invalid")
    else
      subjects ← check_peers ∅ (po_trusted_peer_common_names p);
      check_agents (po_namespace_prefix p) subjects (po_agents p).

(** ** Signatures *)
Section Signatures.
Context `{Encoding, Sha256, Ed25519, HexDecode, Rfc3339Auto, Canonicalizer}.

Definition AgentAdmission_value (a : AgentAdmission) : Value :=
  object [("common_name", VString (aa_common_name a)); ("namespace", VString (aa_namespace a))].
Definition Policy_value (p : Policy) : Value :=
  object [("version", VNumber (po_version p)); ("fleet_id", VString (po_fleet_id p));
    ("generation", VNumber (po_generation p)); ("issued_at", VString (rfc3339_auto (po_issued_at p)));
    ("not_before", VString (rfc3339_auto (po_not_before p))); ("expires_at", VString (rfc3339_auto (po_expires_at p)));
    ("namespace_prefix", VString (po_namespace_prefix p));
    ("trusted_peer_common_names", VArray (VString <$> po_trusted_peer_common_names p));
    ("agents", VArray (AgentAdmission_value <$> po_agents p))].
Definition SignedPolicy_value (s : SignedPolicy) : Value :=
  object [("policy", Policy_value (sp_policy s)); ("signature", VString (sp_signature s))].

Definition canonical (p : Policy) : RouterResult string :=
  ok_or (canonical_to_vec (Policy_value p)) (Json "the value has no canonical form").
Definition signature_input (p : Policy) : RouterResult string :=
  bytes ← canonical p; Ok (SIGNATURE_DOMAIN ++ bytes).

Definition SignedPolicy_sign `{Ed25519Signing} (p : Policy) (key : string) : RouterResult SignedPolicy :=
  _ ← Policy_validate p;
  input ← signature_input p;
  Ok (mkSignedPolicy p (hex_encode (ed25519_sign key input))).

(** [Signature::from_slice] takes exactly 64 bytes. *)
Definition SignedPolicy_verify (s : SignedPolicy) (key fleet_id : string) : RouterResult VerifiedPolicy :=
  _ ← Policy_validate (sp_policy s);
  _ ← ensure (negb (ed25519_is_weak key || negb (String.eqb (po_fleet_id (sp_policy s)) fleet_id))) InvalidSignature;
  raw ← ok_or (hex_decode (sp_signature s)) InvalidSignature;
  _ ← ensure (str_len raw =? 64) InvalidSignature;
  input ← signature_input (sp_policy s);
  _ ← ensure (verify_strict key input raw) InvalidSignature;
  bytes ← canonical (sp_policy s);
  Ok (mkVerified s (hex_encode (sha256 bytes))).
End Signatures.

(** ** Verified policies *)
Definition has_same_authority (self other : VerifiedPolicy) : bool :=
  let policy := vp_policy self in let other := vp_policy other in
  (po_version policy =? po_version other) && String.eqb (po_fleet_id policy) (po_fleet_id other)
  && String.eqb (po_namespace_prefix policy) (po_namespace_prefix other)
  && bool_decide (po_trusted_peer_common_names policy = po_trusted_peer_common_names other)
  && bool_decide (po_agents policy = po_agents other).
Definition require_current (v : VerifiedPolicy) (now : instant) : RouterResult unit :=
  ensure (negb ((now <? po_not_before (vp_policy v)) || (po_expires_at (vp_policy v) <=? now))) NotCurrent.
Definition advances (self previous : VerifiedPolicy) : RouterResult bool :=
  match po_generation (vp_policy self) ?= po_generation (vp_policy previous) with
  | Gt => Ok true
  | Eq => if String.eqb (vp_digest self) (vp_digest previous) then Ok false else Err GenerationConflict
  | Lt => Err GenerationConflict
  end.

(** ** What validation establishes *)
Lemma check_peers_Ok subjects peers found : check_peers subjects peers = Ok found ->
  found = list_to_set peers ∪ subjects /\ NoDup peers /\ (forall p, p ∈ peers -> p ∉ subjects) /\
  (forall p, p ∈ peers -> literal_name p = true /\ starts_with "agt_" p = false).
Proof.
  revert subjects. induction peers as [|p peers IH]; simpl; intros subjects Hc.
  - injection Hc as <-. split_and!; [set_solver|constructor|set_solver|set_solver].
  - destruct (_ || _) eqn:Hg; [done|]. bools. destruct (IH _ Hc) as (-> & Hnd & Hfresh & Hname).
    split_and!; [set_solver|constructor; [|done]| |].
    + intros Hin. specialize (Hfresh p Hin). set_solver.
    + intros q [->|Hq]%elem_of_cons; [done|]. specialize (Hfresh q Hq). set_solver.
    + intros q [->|Hq]%elem_of_cons; auto.
Qed.
Lemma check_agents_Ok prefix subjects agents : check_agents prefix subjects agents = Ok tt ->
  NoDup (aa_common_name <$> agents) /\
  (forall a, a ∈ agents -> aa_common_name a ∉ subjects) /\
  (forall a, a ∈ agents -> agent_name (aa_common_name a) = true /\
     aa_namespace a = prefix ++ "/" ++ aa_common_name a).
Proof.
  revert subjects. induction agents as [|a agents IH]; simpl; intros subjects Hc.
  - split_and!; [constructor|set_solver|set_solver].
  - destruct (_ || _) eqn:Hg; [done|]. bools. strings. destruct (IH _ Hc) as (Hnd & Hfresh & Hname).
    split_and!.
    + constructor; [|done]. intros (b & E & Hb)%list_elem_of_fmap. specialize (Hfresh b Hb). set_solver.
    + intros b [->|Hb]%elem_of_cons; [done|]. specialize (Hfresh b Hb). set_solver.
    + intros b [->|Hb]%elem_of_cons; auto.
Qed.

(** The static limits of a policy. *)
Record PolicyFacts (p : Policy) : Prop := mkPolicyFacts {
  pf_version : po_version p = 1;
  pf_generation : 1 <= po_generation p <= 9007199254740991;
  pf_fleet : literal_name (po_fleet_id p) = true;
  pf_times : po_issued_at p <= po_not_before p < po_expires_at p;
  pf_lifetime : po_expires_at p - po_issued_at p <= minutes 5;
  pf_prefix : literal_namespace (po_namespace_prefix p) = true;
  pf_peer_count : (0 < length (po_trusted_peer_common_names p) <= 64)%nat;
  pf_agent_count : Z.of_nat (length (po_agents p)) <= MAX_AGENTS;
  pf_peers : NoDup (po_trusted_peer_common_names p);
  pf_peer_names : forall q, q ∈ po_trusted_peer_common_names p ->
    literal_name q = true /\ starts_with "agt_" q = false;
  pf_agents : NoDup (aa_common_name <$> po_agents p);
  pf_agent_names : forall a, a ∈ po_agents p ->
    agent_name (aa_common_name a) = true /\ aa_namespace a = po_namespace_prefix p ++ "/" ++ aa_common_name a;
}.
Lemma Policy_validate_facts p : Policy_validate p = Ok tt -> PolicyFacts p.
Proof.
  unfold Policy_validate. intros Hv. cbv zeta in Hv. res_inv Hv.
  match goal with Hp : check_peers _ _ = Ok _ |- _ => apply check_peers_Ok in Hp as (-> & Hnd & _ & Hpeer) end.
  apply check_agents_Ok in Hv as (Hna & _ & Hname). bools. unfold minutes, seconds in *.
  constructor; try done; try lia. destruct (po_trusted_peer_common_names p); simpl in *; [done|lia].
Qed.
Lemma check_peers_succeeds subjects peers : NoDup peers -> (forall p, p ∈ peers -> p ∉ subjects) ->
  (forall p, p ∈ peers -> literal_name p = true /\ starts_with "agt_" p = false) ->
  check_peers subjects peers = Ok (list_to_set peers ∪ subjects).
Proof.
  revert subjects. induction peers as [|p peers IH]; simpl; intros subjects Hnd Hf Hn.
  - f_equal. set_solver.
  - apply list.NoDup_cons in Hnd as [Hp Hnd]. destruct (Hn p) as [-> ->]; [left|].
    rewrite bool_decide_eq_false_2 by (apply Hf; left). simpl. rewrite IH; [f_equal; set_solver|done| |].
    + intros q Hq. assert (q <> p) by congruence. specialize (Hf q (list_elem_of_further _ _ _ Hq)). set_solver.
    + intros q Hq. apply Hn. by right.
Qed.
Lemma check_agents_succeeds prefix subjects agents : NoDup (aa_common_name <$> agents) ->
  (forall a, a ∈ agents -> aa_common_name a ∉ subjects) ->
  (forall a, a ∈ agents -> agent_name (aa_common_name a) = true /\
     aa_namespace a = prefix ++ "/" ++ aa_common_name a) ->
  check_agents prefix subjects agents = Ok tt.
Proof.
  revert subjects. induction agents as [|a agents IH]; cbn [check_agents]; intros subjects Hnd Hf Hn; [done|].
  apply list.NoDup_cons in Hnd as [Ha Hnd]. destruct (Hn a) as [-> ->]; [left|].
  rewrite bool_decide_eq_false_2 by (apply Hf; left). rewrite String.eqb_refl. simpl. apply IH; [done| |].
  - intros b Hb. assert (aa_common_name b <> aa_common_name a).
    { intros E. apply Ha. apply list_elem_of_fmap. eauto. }
    specialize (Hf b (list_elem_of_further _ _ _ Hb)). set_solver.
  - intros b Hb. apply Hn. by right.
Qed.
Lemma agent_name_prefix s : agent_name s = true -> starts_with "agt_" s = true.
Proof. unfold agent_name, starts_with. by destruct (strip_prefix _ _). Qed.

Lemma Policy_validate_iff p : Policy_validate p = Ok tt <-> PolicyFacts p.
Proof.
  split; [apply Policy_validate_facts|]. intros [].
  unfold Policy_validate. cbv zeta.
  rewrite pf_version0, pf_fleet0, pf_prefix0.
  rewrite (proj2 (Z.leb_le 1 _)), (proj2 (Z.leb_le _ 9007199254740991)) by lia. simpl.
  rewrite (proj2 (Z.ltb_ge _ _)), (proj2 (Z.leb_gt (po_expires_at p) _)), (proj2 (Z.leb_gt _ 0)),
    (proj2 (Z.ltb_ge (minutes 5) _)) by lia. simpl.
  rewrite bool_decide_eq_false_2 by (intros E; rewrite E in pf_peer_count0; simpl in *; lia).
  rewrite (proj2 (Z.ltb_ge 64 _)), (proj2 (Z.ltb_ge MAX_AGENTS _)) by lia. simpl.
  rewrite check_peers_succeeds by (done || set_solver). simpl. apply check_agents_succeeds; [done| |done].
  intros a Ha. rewrite union_empty_r_L, elem_of_list_to_set. intros Hin.
  destruct (pf_peer_names0 _ Hin) as [_ Hno]. destruct (pf_agent_names0 a Ha) as [Hname _].
  apply agent_name_prefix in Hname. congruence.
Qed.

(** ** What a signature establishes *)
Section Authentic.
Context `{Encoding, Sha256, Ed25519, HexDecode, Rfc3339Auto, Canonicalizer}.

(** A verified policy is valid, belongs to the fleet and carries a signature of the key over its domain-separated
    canonical form. *)
Record PolicyAuthentic (v : VerifiedPolicy) (key fleet_id : string) : Prop := mkPolicyAuthentic {
  pa_valid : PolicyFacts (vp_policy v);
  pa_key : ed25519_is_weak key = false;
  pa_fleet : po_fleet_id (vp_policy v) = fleet_id;
  pa_signed : exists bytes signature, canonical_to_vec (Policy_value (vp_policy v)) = Some bytes /\
    hex_decode (sp_signature (vp_signed v)) = Some signature /\ str_len signature = 64 /\
    verify_strict key (SIGNATURE_DOMAIN ++ bytes) signature = true /\ vp_digest v = hex_encode (sha256 bytes);
}.

Lemma SignedPolicy_verify_Ok s key fleet_id v : SignedPolicy_verify s key fleet_id = Ok v <->
  vp_signed v = s /\ PolicyAuthentic v key fleet_id.
Proof.
  split.
  - unfold SignedPolicy_verify, signature_input, canonical. intros Hv. res_inv Hv.
    repeat match goal with Hu : unit |- _ => destruct Hu end. bools. strings. simplify_eq.
    split; [done|]. constructor; unfold vp_policy; simpl; try done; [by apply Policy_validate_iff|eauto 10].
  - intros [<- [Hf Hk Hfl (bytes & sig & Hb & Hsig & Hlen & Hver & Hd)]].
    unfold SignedPolicy_verify, signature_input, canonical. fold (vp_policy v).
    apply Policy_validate_iff in Hf. rewrite Hf. simpl. rewrite Hk, Hfl, String.eqb_refl. simpl.
    rewrite Hsig. simpl. rewrite Hlen. simpl. rewrite Hb. simpl. rewrite Hver. simpl.
    rewrite <- Hd. by destruct v.
Qed.

(** A policy signed by the Controller verifies.  Whatever valid policy is signed, every Router that trusts the
    public half of the signing key (and belongs to the policy's fleet) accepts the signed policy, unchanged. *)
Theorem signed_policy_verifies `{!Ed25519Signing, !Ed25519SigningSpec, !HexDecodeSpec} p key s :
  SignedPolicy_sign p key = Ok s -> ed25519_is_weak (ed25519_verifying_key key) = false ->
  exists v, SignedPolicy_verify s (ed25519_verifying_key key) (po_fleet_id p) = Ok v /\ vp_policy v = p.
Proof.
  unfold SignedPolicy_sign, signature_input, canonical. intros Hs Hweak. res_inv Hs. destruct a.
  exists (mkVerified (mkSignedPolicy p (hex_encode (ed25519_sign key (SIGNATURE_DOMAIN ++ a1)))) (hex_encode (sha256 a1))).
  split; [|done]. apply SignedPolicy_verify_Ok. split; [done|].
  constructor; try done; [by apply Policy_validate_iff|].
  exists a1, (ed25519_sign key (SIGNATURE_DOMAIN ++ a1)). split_and!; try done.
  - apply hex_decode_encode.
  - apply ed25519_sign_length.
  - by apply ed25519_sign_verifies.
Qed.
(** ** What a signature covers *)
(** The text of an instant determines it. *)
Class Rfc3339AutoSpec : Prop := rfc3339_auto_inj :: Inj (=) (=) rfc3339_auto.

#[local] Instance VString_inj : Inj (=) (=) VString.
Proof. by intros s t [= ->]. Qed.
#[local] Instance AgentAdmission_value_inj : Inj (=) (=) AgentAdmission_value.
Proof. intros [] [] E. cbv in E. by simplify_eq. Qed.
Lemma Policy_value_inj `{!Rfc3339AutoSpec} p q : Policy_value p = Policy_value q -> p = q.
Proof.
  destruct p, q. intros E. cbv -[rfc3339_auto fmap list_fmap AgentAdmission_value] in E.
  assert (Inj (=) (=) (fmap (M:=list) VString)) as SI by apply _.
  assert (Inj (=) (=) (fmap (M:=list) AgentAdmission_value)) as AI by apply _.
  revert E SI AI. generalize (fmap (M:=list) VString) (fmap (M:=list) AgentAdmission_value).
  intros f g E SI AI. injection E. clear E. intros.
  repeat match goal with E : rfc3339_auto _ = rfc3339_auto _ |- _ => apply (inj rfc3339_auto) in E end.
  by simplify_eq.
Qed.
Lemma forallb_fmap_true {A B} (f : A -> B) (q : B -> bool) l : (forall a, q (f a) = true) -> List.forallb q (f <$> l) = true.
Proof. intros Hq. induction l as [|a l IH]; [done|]. rewrite fmap_cons. cbn [List.forallb]. by rewrite Hq, IH. Qed.
Lemma Policy_value_exact p : PolicyFacts p -> exact (Policy_value p) = true.
Proof.
  intros [Hv Hg _ _ _ _ _ _ _ _ _ _]. destruct p. simpl in Hv, Hg. subst.
  change (exact (Policy_value _)) with
    (true && (List.forallb exact (AgentAdmission_value <$> po_agents0) &&
     (true && (true && ((Z.abs po_generation0 <=? 9007199254740991) && (true && (true && (true &&
      (List.forallb exact (VString <$> po_trusted_peer_common_names0) && (true && true)))))))))).
  rewrite !forallb_fmap_true, (proj2 (Z.leb_le (Z.abs _) _)) by (done || lia). done.
Qed.

Lemma signature_input_Ok p bytes : signature_input p = Ok bytes ->
  exists b, canonical_to_vec (Policy_value p) = Some b /\ bytes = SIGNATURE_DOMAIN ++ b.
Proof.
  unfold signature_input, canonical. destruct (canonical_to_vec _) as [b|]; simpl; [|done].
  intros E%Ok_inj. eauto.
Qed.

(** A policy signature covers the whole policy.  Two valid policies with the same signed bytes are the same policy:
    no field can be changed, moved to another one or read differently without breaking the signature. *)
Theorem policy_signature_covers_policy `{!Rfc3339AutoSpec, !CanonicalizerSpec} p q bytes :
  Policy_validate p = Ok tt -> Policy_validate q = Ok tt ->
  signature_input p = Ok bytes -> signature_input q = Ok bytes -> p = q.
Proof.
  rewrite !Policy_validate_iff. intros Hp Hq (b & Eb & ->)%signature_input_Ok (c & Ec & Heq)%signature_input_Ok.
  apply string_app_inj_l in Heq. subst. apply Policy_value_inj.
  eapply canonical_unambiguous; [by apply (Policy_value_exact p)|by apply (Policy_value_exact q)|done|done].
Qed.
End Authentic.

(** ** A concrete policy *)
Module RouterToy.
Fixpoint unhex_bytes (s : string) : option string :=
  match s with
  | EmptyString => Some EmptyString
  | String a (String b rest) =>
      bytes ← unhex_bytes rest;
      Some (String (ascii_of_N (unhex (String a EmptyString) (String b EmptyString))) bytes)
  | String _ EmptyString => None
  end.
#[export] Instance hex : HexDecode := unhex_bytes.
#[export] Instance signing : Ed25519Signing :=
  {| ed25519_sign := fun _ _ => thirty_two "s" ++ thirty_two "s"; ed25519_verifying_key := fun key => key |}.
#[export] Instance auto : Rfc3339Auto := print_bits.
End RouterToy.
Export Toy RouterToy.

#[export] Instance toy_hex_decode_spec : HexDecodeSpec.
Proof.
  intros s. unfold hex_decode, hex, hex_encode, encoding.
  induction s as [|c s IH]; [done|]. cbn [hex_bytes].
  destruct (hex_digit_facts c) as (H1 & H2 & _). pose proof (unhex_hex c) as U.
  destruct (single_byte _ H1) as [a Ha], (single_byte _ H2) as [b Hb]. rewrite Ha, Hb in *.
  cbn [String.append unhex_bytes]. rewrite IH. simpl. by rewrite U, ascii_N_embedding.
Qed.
#[export] Instance toy_signing_spec : Ed25519SigningSpec.
Proof. split; [done|]. intros. apply String.eqb_refl. Qed.
#[export] Instance toy_auto_spec : Rfc3339AutoSpec.
Proof. apply print_bits_inj. Qed.

Definition sample_agent (suffix : string) : AgentAdmission :=
  mkAdmission ("agt_" ++ suffix) ("inari/gateway/agt_" ++ suffix).
Definition sample_policy (generation : Z) : Policy :=
  mkPolicy 1 "fleet-1" generation (seconds 100) (seconds 100) (seconds 145) "inari/gateway" ["controller"; "router-b"]
    [sample_agent "0123456789abcdef01234567"; sample_agent "76543210fedcba9876543210"].
Lemma sample_policy_valid : Policy_validate (sample_policy 7) = Ok tt.
Proof. vm_compute. reflexivity. Qed.

#[local] Instance constant_canonicalizer : Canonicalizer := fun _ => Some "{}".
Lemma signed_policy_verifies_witness :
  exists s v, SignedPolicy_sign (sample_policy 7) (thirty_two "k") = Ok s /\
    SignedPolicy_verify s (thirty_two "k") "fleet-1" = Ok v /\ vp_policy v = sample_policy 7.
Proof.
  destruct (SignedPolicy_sign (sample_policy 7) (thirty_two "k")) as [s|] eqn:E; [|vm_compute in E; discriminate E].
  destruct (signed_policy_verifies (H1:=Toy.ed25519) (sample_policy 7) (thirty_two "k") s E eq_refl) as (v & Hv & Hp).
  exists s, v. split; [reflexivity|]. split; [exact Hv|exact Hp].
Defined.
(** The sample policy is determined by its bytes, which are not those of the next generation. *)
Lemma policy_signature_covers_policy_witness :
  exists bytes, signature_input (H4:=injective_canonicalizer) (sample_policy 7) = Ok bytes /\
    sample_policy (3 + 4) = sample_policy 7 /\
    signature_input (H4:=injective_canonicalizer) (sample_policy 8) <> Ok bytes.
Proof.
  destruct (signature_input (H4:=injective_canonicalizer) (sample_policy 7)) as [bytes|] eqn:Eb; [|discriminate Eb].
  exists bytes. split; [reflexivity|].
  pose proof (fun p Hp E => policy_signature_covers_policy (H4:=injective_canonicalizer) (H6:=injective_canonicalizer_spec)
    p (sample_policy 7) bytes Hp sample_policy_valid E Eb) as Hcovers.
  split; [exact (Hcovers (sample_policy (3 + 4)) sample_policy_valid Eb)|].
  intros E. assert (sample_policy 8 = sample_policy 7) as Hp
    by (apply Hcovers; [vm_compute; reflexivity|exact E]). discriminate Hp.
Defined.
