(* ===== verification/AccessControl.v ===== *)
(** * Router configuration and access control

    [crates/inari-router/src/acl.rs]: the Zenoh configuration a Router process is started with, and in it the access
    control rules generated from a verified policy.  Zenoh itself is third-party code. *)
From S2P Require Import Prelude Framing Json Schema Security FleetPolicy.

(** [zenoh::Config::from_json5]: the error of a configuration Zenoh refuses. *)
Class ZenohConfig := zenoh_config_error : Value -> option string.

Record RouterConfig := mkRouterConfig {
  rc_id : string;
  rc_listen_endpoint : string;
  rc_probe_endpoint : string;
  rc_peer_endpoints : list string;
  rc_root_ca_file : string;
  rc_certificate_file : string;
  rc_private_key_file : string;
  rc_probe_certificate_file : string;
  rc_probe_private_key_file : string;
}.

Definition is_ascii_hexdigit (b : ascii) : bool := is_ascii_digit b || byte_in 97 102 b || byte_in 65 70 b.
Fixpoint contains_any (bytes : list Z) (s : string) : bool :=
  match s with EmptyString => false | String c s' => List.existsb (byte_is c) bytes || contains_any bytes s' end.

(** ['#'], ['?'], ['\n'] and ['\r']. *)
Definition endpoint_ok (endpoint : string) : bool :=
  negb (negb (starts_with "tls/" endpoint) || (512 <? str_len endpoint) || contains_any [35; 63; 10; 13] endpoint).
Fixpoint check_endpoints (endpoints : list string) : RouterResult unit :=
  match endpoints with
  | [] => Ok tt
  | endpoint :: rest =>
      if endpoint_ok endpoint then check_endpoints rest
      else Err (InvalidPolicy "Router endpoints must use TLS without endpoint overrides")
  end.
Definition RouterConfig_validate (c : RouterConfig) : RouterResult unit :=
  if negb (str_len (rc_id c) =? 32) || all_bytes (fun b => byte_is b 48) (rc_id c)
     || negb (all_bytes is_ascii_hexdigit (rc_id c))
  then Err (InvalidPolicy "Router id must contain 32 hexadecimal digits")
  else check_endpoints (rc_listen_endpoint c :: rc_probe_endpoint c :: rc_peer_endpoints c).

(** ** Access control *)
Record Rule := mkRule {
  ru_id : string;
  ru_messages : list string;
  ru_flows : list string;
  ru_permission : string;
  ru_key_exprs : list string;
}.
Record Subject := mkSubject { su_id : string; su_link_protocols : list string; su_cert_common_names : list string }.
Record AclPolicy := mkAclPolicy { ap_id : string; ap_rules : list string; ap_subjects : list string }.
Record AccessControl := mkAccessControl {
  acl_enabled : bool;
  acl_default_permission : string;
  acl_rules : list Rule;
  acl_subjects : list Subject;
  acl_policies : list AclPolicy;
}.

Definition rule (id : string) (messages flows key_exprs : list string) : Rule := mkRule id messages flows "allow" key_exprs.

Definition trusted_messages : list string :=
  ["put"; "delete"; "declare_subscriber"; "query"; "reply"; "declare_queryable"; "liveliness_token";
   "liveliness_query"; "declare_liveliness_subscriber"].
(** Suffix of the rule id, messages, flows and paths below the namespace of the Agent. *)
Definition definitions : list (string * list string * list string * list string) :=
  [("publications", ["put"], ["ingress"], ["presence/agent"; "status/latest"; "results/*"; "events/*"; "errors/*"]);
   ("presence", ["liveliness_token"], ["ingress"], ["presence/agent"]);
   ("subscription", ["declare_subscriber"], ["ingress"], ["commands/live/**"]);
   ("delivery", ["put"], ["egress"], ["commands/live/**"]);
   ("query", ["query"], ["ingress"], ["commands/history"; "state/commit"]);
   ("reply", ["reply"; "declare_queryable"], ["egress"], ["commands/history"; "state/commit"])].

Definition agent_rule (agent : AgentAdmission) (d : string * list string * list string * list string) : Rule :=
  let '(suffix, messages, flows, paths) := d in
  rule (aa_common_name agent ++ "-" ++ suffix) messages flows
    ((fun path => aa_namespace agent ++ "/" ++ path) <$> paths).
Definition agent_rules (agent : AgentAdmission) : list Rule := agent_rule agent <$> definitions.

Definition access_control (verified : VerifiedPolicy) : AccessControl :=
  let policy := vp_policy verified in
  mkAccessControl true "deny"
    (rule "trusted-authority" trusted_messages ["ingress"; "egress"] [po_namespace_prefix policy ++ "/**"]
       :: (po_agents policy ≫= agent_rules))
    (mkSubject "trusted-peers" ["tls"] (po_trusted_peer_common_names policy)
       :: ((fun a => mkSubject (aa_common_name a) ["tls"] [aa_common_name a]) <$> po_agents policy))
    (mkAclPolicy "trusted-authority" ["trusted-authority"] ["trusted-peers"]
       :: ((fun a => mkAclPolicy (aa_common_name a) (ru_id <$> agent_rules a) [aa_common_name a]) <$> po_agents policy)).

(** ** The configuration document *)
Definition strings_value (l : list string) : Value := VArray (VString <$> l).
Definition Rule_value (r : Rule) : Value :=
  object [("id", VString (ru_id r)); ("messages", strings_value (ru_messages r)); ("flows", strings_value (ru_flows r));
    ("permission", VString (ru_permission r)); ("key_exprs", strings_value (ru_key_exprs r))].
Definition Subject_value (s : Subject) : Value :=
  object [("id", VString (su_id s)); ("link_protocols", strings_value (su_link_protocols s));
    ("cert_common_names", strings_value (su_cert_common_names s))].
Definition AclPolicy_value (p : AclPolicy) : Value :=
  object [("id", VString (ap_id p)); ("rules", strings_value (ap_rules p)); ("subjects", strings_value (ap_subjects p))].
Definition AccessControl_value (a : AccessControl) : Value :=
  object [("enabled", VBool (acl_enabled a)); ("default_permission", VString (acl_default_permission a));
    ("rules", VArray (Rule_value <$> acl_rules a)); ("subjects", VArray (Subject_value <$> acl_subjects a));
    ("policies", VArray (AclPolicy_value <$> acl_policies a))].

Definition tls_files_value (c : RouterConfig) : Value :=
  object [("root_ca_certificate", VString (rc_root_ca_file c)); ("listen_certificate", VString (rc_certificate_file c));
    ("listen_private_key", VString (rc_private_key_file c)); ("connect_certificate", VString (rc_certificate_file c));
    ("connect_private_key", VString (rc_private_key_file c)); ("enable_mtls", VBool true);
    ("verify_name_on_connect", VBool true); ("close_link_on_expiration", VBool true)].
(** [tls] is the object at [transport.link.tls]. *)
Definition config_value (c : RouterConfig) (tls : Value) (acl : AccessControl) : Value :=
  object [("id", VString (rc_id c)); ("mode", VString "router");
    ("listen", object [("endpoints", strings_value [rc_listen_endpoint c])]);
    ("connect", object [("endpoints", strings_value (rc_peer_endpoints c)); ("exit_on_failure", VBool false)]);
    ("scouting", object [("multicast", object [("enabled", VBool false)]); ("gossip", object [("enabled", VBool false)])]);
    ("adminspace", object [("enabled", VBool false)]); ("plugins_loading", object [("enabled", VBool false)]);
    ("transport", object [("link", object [("tls", tls)])]);
    ("access_control", AccessControl_value acl)].
Definition render `{ZenohConfig} (c : RouterConfig) (policy : VerifiedPolicy) : RouterResult Value :=
  _ ← RouterConfig_validate c;
  let value := config_value c (tls_files_value c) (access_control policy) in
  match zenoh_config_error value with
  | None => Ok value
  | Some error => Err (InvalidPolicy error)
  end.

(** ** What the document grants

    A subject is granted a message on a key expression when some policy of the document names a rule that allows it and
    a subject that carries the certificate name. *)
Definition grants (acl : AccessControl) (protocol common_name message flow key_expr : string) : Prop :=
  exists p r s, p ∈ acl_policies acl /\ r ∈ acl_rules acl /\ s ∈ acl_subjects acl /\
    ru_id r ∈ ap_rules p /\ su_id s ∈ ap_subjects p /\
    protocol ∈ su_link_protocols s /\ common_name ∈ su_cert_common_names s /\
    ru_permission r = "allow" /\ message ∈ ru_messages r /\ flow ∈ ru_flows r /\ key_expr ∈ ru_key_exprs r.

(** The grants of one Agent: the six definitions, below its own namespace. *)
Definition agent_grant (a : AgentAdmission) (message flow key_expr : string) : Prop :=
  exists suffix messages flows paths path, (suffix, messages, flows, paths) ∈ definitions /\
    message ∈ messages /\ flow ∈ flows /\ path ∈ paths /\ key_expr = aa_namespace a ++ "/" ++ path.

(** *** Rule identifiers *)
Lemma agent_rule_elem a r : r ∈ agent_rules a <-> exists suffix messages flows paths,
  (suffix, messages, flows, paths) ∈ definitions /\ r = agent_rule a (suffix, messages, flows, paths).
Proof.
  unfold agent_rules. rewrite list_elem_of_fmap. split.
  - intros ([[[s m] f] p] & -> & Hd). eauto 10.
  - intros (s & m & f & p & Hd & ->). eauto.
Qed.
Lemma agent_name_length s : agent_name s = true -> String.length s = 28%nat.
Proof.
  unfold agent_name. destruct (strip_prefix "agt_" s) as [t|] eqn:E; [|done]. apply strip_prefix_Some in E as ->.
  intros Ht. bools. unfold str_len in *. simpl. lia.
Qed.
(** A rule identifier names one Agent and one definition. *)
Lemma agent_rule_id_inj a b d e : agent_name (aa_common_name a) = true -> agent_name (aa_common_name b) = true ->
  ru_id (agent_rule a d) = ru_id (agent_rule b e) -> aa_common_name a = aa_common_name b /\ d.1.1.1 = e.1.1.1.
Proof.
  destruct d as [[[s m] f] p], e as [[[s' m'] f'] p']. intros Ha%agent_name_length Hb%agent_name_length E.
  apply string_app_split in E as [-> E]; [|congruence]. by injection E.
Qed.
Lemma definition_unique d e : d ∈ definitions -> e ∈ definitions -> d.1.1.1 = e.1.1.1 -> d = e.
Proof.
  intros Hd He E. unfold definitions in *.
  repeat (apply elem_of_cons in Hd as [->|Hd]); try (by apply elem_of_nil in Hd);
    repeat (apply elem_of_cons in He as [->|He]); try (by apply elem_of_nil in He); by simplify_eq/=.
Qed.
Lemma agent_names_agree s : agent_name s = true -> s <> "trusted-authority" /\ s <> "trusted-peers" /\
  forall suffix, s ++ "-" ++ suffix <> "trusted-authority".
Proof.
  unfold agent_name. destruct (strip_prefix "agt_" s) as [t|] eqn:E; [|done]. by apply strip_prefix_Some in E as ->.
Qed.

Section Grants.
Context (v : VerifiedPolicy) (facts : PolicyFacts (vp_policy v)).
Notation policy := (vp_policy v).

Lemma admitted_name a : a ∈ po_agents policy -> agent_name (aa_common_name a) = true.
Proof. apply (pf_agent_names _ facts). Qed.
(** An admitted Agent is determined by its certificate name. *)
Lemma admitted_unique a b : a ∈ po_agents policy -> b ∈ po_agents policy ->
  aa_common_name a = aa_common_name b -> a = b.
Proof.
  intros Ha Hb E. destruct (pf_agent_names _ facts a Ha) as [_ Na], (pf_agent_names _ facts b Hb) as [_ Nb].
  destruct a, b. simpl in *. congruence.
Qed.

(** The rules and the subject that the policy entry of an Agent resolves to. *)
Lemma resolve_rule a r : a ∈ po_agents policy -> r ∈ acl_rules (access_control v) ->
  ru_id r ∈ (ru_id <$> agent_rules a) -> r ∈ agent_rules a.
Proof.
  intros Ha Hr (q & E & Hq)%list_elem_of_fmap. apply agent_rule_elem in Hq as (s & m & f & p & Hd & ->).
  simpl in Hr. apply elem_of_cons in Hr as [->|(b & Hr & Hb)%list_elem_of_bind].
  - destruct (agent_names_agree _ (admitted_name a Ha)) as (_ & _ & Hn). by destruct (Hn s).
  - apply agent_rule_elem in Hr as (s' & m' & f' & p' & Hd' & ->).
    destruct (agent_rule_id_inj b a _ _ (admitted_name b Hb) (admitted_name a Ha) E) as [En Es].
    rewrite (admitted_unique b a Hb Ha En). apply agent_rule_elem. eauto 10.
Qed.
Lemma resolve_subject a s : a ∈ po_agents policy -> s ∈ acl_subjects (access_control v) ->
  su_id s = aa_common_name a -> s = mkSubject (aa_common_name a) ["tls"] [aa_common_name a].
Proof.
  intros Ha Hs E. simpl in Hs. apply elem_of_cons in Hs as [->|(b & -> & Hb)%list_elem_of_fmap].
  - destruct (agent_names_agree _ (admitted_name a Ha)) as (_ & Hn & _). by destruct Hn.
  - simpl in E. by rewrite E.
Qed.
Lemma resolve_trusted_rule r : r ∈ acl_rules (access_control v) -> ru_id r = "trusted-authority" ->
  r = rule "trusted-authority" trusted_messages ["ingress"; "egress"] [po_namespace_prefix policy ++ "/**"].
Proof.
  intros Hr E. simpl in Hr. apply elem_of_cons in Hr as [->|(b & Hr & Hb)%list_elem_of_bind]; [done|].
  apply agent_rule_elem in Hr as (s & m & f & p & _ & ->).
  destruct (agent_names_agree _ (admitted_name b Hb)) as (_ & _ & Hn). by destruct (Hn s).
Qed.
Lemma resolve_trusted_subject s : s ∈ acl_subjects (access_control v) -> su_id s = "trusted-peers" ->
  s = mkSubject "trusted-peers" ["tls"] (po_trusted_peer_common_names policy).
Proof.
  intros Hs E. simpl in Hs. apply elem_of_cons in Hs as [->|(b & -> & Hb)%list_elem_of_fmap]; [done|].
  destruct (agent_names_agree _ (admitted_name b Hb)) as (_ & Hn & _). by destruct Hn.
Qed.

Lemma agent_grant_rule a message flow key_expr : agent_grant a message flow key_expr <->
  exists r, r ∈ agent_rules a /\ message ∈ ru_messages r /\ flow ∈ ru_flows r /\ key_expr ∈ ru_key_exprs r.
Proof.
  split.
  - intros (s & m & f & ps & p & Hd & Hm & Hf & Hp & ->). exists (agent_rule a (s, m, f, ps)).
    split_and!; [apply agent_rule_elem; eauto 10|done|done|]. apply list_elem_of_fmap. eauto.
  - intros (r & Hr & Hm & Hf & Hk). apply agent_rule_elem in Hr as (s & m & f & ps & Hd & ->).
    apply list_elem_of_fmap in Hk as (p & -> & Hp). by exists s, m, f, ps, p.
Qed.
Lemma agent_rule_allows a r : r ∈ agent_rules a -> ru_permission r = "allow".
Proof. by intros (s & m & f & p & _ & ->)%agent_rule_elem. Qed.
(** A trusted peer is no Agent. *)
Lemma peer_is_no_agent a : a ∈ po_agents policy -> aa_common_name a ∉ po_trusted_peer_common_names policy.
Proof.
  intros Ha Hp. destruct (pf_peer_names _ facts _ Hp) as [_ Hno].
  pose proof (agent_name_prefix _ (admitted_name a Ha)). congruence.
Qed.

Lemma grants_iff protocol name message flow key_expr :
  grants (access_control v) protocol name message flow key_expr <->
  protocol = "tls" /\
  ((name ∈ po_trusted_peer_common_names policy /\ message ∈ trusted_messages /\ flow ∈ ["ingress"; "egress"] /\
     key_expr = po_namespace_prefix policy ++ "/**") \/
   exists a, a ∈ po_agents policy /\ name = aa_common_name a /\ agent_grant a message flow key_expr).
Proof.
  split.
  - intros (p & r & s & Hp & Hr & Hs & Hpr & Hps & Hproto & Hname & _ & Hm & Hf & Hk).
    simpl in Hp. apply elem_of_cons in Hp as [->|(a & -> & Ha)%list_elem_of_fmap]; simpl in Hpr, Hps.
    + apply list_elem_of_singleton in Hpr, Hps. apply resolve_trusted_rule in Hr as ->; [|done].
      apply resolve_trusted_subject in Hs as ->; [|done]. simpl in *. apply list_elem_of_singleton in Hproto, Hk. auto 10.
    + apply list_elem_of_singleton in Hps. apply (resolve_rule a) in Hr; [|done|done].
      apply (resolve_subject a) in Hs as ->; [|done|done]. simpl in *. apply list_elem_of_singleton in Hproto, Hname.
      split; [done|]. right. exists a. split_and!; [done|done|]. apply agent_grant_rule. eauto.
  - intros [-> [(Hn & Hm & Hf & ->)|(a & Ha & -> & (r & Hr & Hm & Hf & Hk)%agent_grant_rule)]].
    + do 3 eexists. split_and!; [left|left|left|..]; simpl; try left; try done.
    + exists (mkAclPolicy (aa_common_name a) (ru_id <$> agent_rules a) [aa_common_name a]), r,
        (mkSubject (aa_common_name a) ["tls"] [aa_common_name a]).
      split_and!; cbn [acl_policies acl_rules acl_subjects access_control ap_rules ap_subjects su_id su_link_protocols
        su_cert_common_names]; try (left; done); try done.
      * right. apply list_elem_of_fmap. eauto.
      * right. apply list_elem_of_bind. eauto.
      * right. apply list_elem_of_fmap. eauto.
      * apply list_elem_of_fmap. eauto.
      * by apply (agent_rule_allows a).
Qed.
End Grants.

(** ** Zenoh

    Zenoh's documentation: with [default_permission] "deny" a message passes only when the document grants it on a key
    expression that includes the key; a chunk of a key expression without wildcards includes only itself. *)
Class KeyExpr := keyexpr_includes : list string -> list string -> bool.
Class KeyExprSpec `{KeyExpr} : Prop := keyexpr_literal : forall chunk expr key,
  literal_name chunk = true -> keyexpr_includes (chunk :: expr) key = true ->
  exists rest, key = chunk :: rest /\ keyexpr_includes expr rest = true.
Class ZenohAcl := zenoh_permits : AccessControl -> string -> string -> string -> string -> string -> bool.
Class ZenohAclSpec `{KeyExpr, ZenohAcl} : Prop := zenoh_default_deny : forall acl protocol name message flow key,
  acl_enabled acl = true -> acl_default_permission acl = "deny" ->
  zenoh_permits acl protocol name message flow key = true ->
  exists key_expr, grants acl protocol name message flow key_expr /\
    keyexpr_includes (split_on "/" key_expr) (split_on "/" key) = true.

Lemma literal_byte_no_slash c : literal_byte c = true -> negb (Ascii.eqb c "/") = true.
Proof. by destruct (Ascii.eqb_spec c "/") as [->|]. Qed.
Lemma literal_name_chunk s : literal_name s = true -> split_on "/" s = [s].
Proof.
  unfold literal_name. intros Hs. bools. apply split_on_none. eapply all_bytes_impl; [|done]. apply literal_byte_no_slash.
Qed.
Lemma agent_name_literal s : agent_name s = true -> literal_name s = true.
Proof.
  unfold agent_name, literal_name. destruct (strip_prefix "agt_" s) as [t|] eqn:E; [|done].
  apply strip_prefix_Some in E as ->. intros Ht. bools. rewrite all_bytes_app, str_len_app.
  rewrite (all_bytes_impl lower_hex literal_byte t); [|intros c Hc; unfold literal_byte, lower_hex, is_ascii_alphanumeric,
    is_ascii_lowercase, byte_in, is_ascii_digit in *; unfold byte_in in *; lia|done].
  rewrite (proj2 (Z.leb_le _ _)); [done|]. unfold str_len in *. simpl. lia.
Qed.
Lemma literal_namespace_chunks s : literal_namespace s = true -> Forall (fun c => literal_name c = true) (split_on "/" s).
Proof.
  unfold literal_namespace. intros [_ Hs]%andb_true_iff. apply Forall_forall. intros c Hc.
  pose proof (proj1 (List.forallb_forall _ _) Hs c Hc) as Hx. cbv beta in Hx. by bools.
Qed.
Lemma keyexpr_literal_prefix `{KeyExpr, !KeyExprSpec} chunks expr key :
  Forall (fun c => literal_name c = true) chunks -> keyexpr_includes (chunks ++ expr)%list key = true ->
  exists rest, key = (chunks ++ rest)%list /\ keyexpr_includes expr rest = true.
Proof.
  intros Hl. revert key. induction Hl as [|c chunks Hc Hl IH]; simpl; intros key Hk; [eauto|].
  apply keyexpr_literal in Hk as (rest & -> & Hk); [|done]. destruct (IH rest Hk) as (r & -> & Hr). eauto.
Qed.

Section Isolation.
Context `{Encoding, Sha256, Ed25519, HexDecode, Rfc3339Auto, Canonicalizer}.
Context `{KeyExpr, !KeyExprSpec, !ZenohAcl, !ZenohAclSpec}.

Lemma namespace_chunks v a : PolicyFacts (vp_policy v) -> a ∈ po_agents (vp_policy v) ->
  split_on "/" (aa_namespace a) = (split_on "/" (po_namespace_prefix (vp_policy v)) ++ [aa_common_name a])%list /\
  Forall (fun c => literal_name c = true) (split_on "/" (aa_namespace a)).
Proof.
  intros F Ha. destruct (pf_agent_names _ F a Ha) as [Hn ->]. apply agent_name_literal in Hn.
  rewrite (split_on_app "/"), (literal_name_chunk (aa_common_name a)) by done. split; [done|].
  apply Forall_app. split; [apply literal_namespace_chunks, F|by repeat constructor].
Qed.

(** C8: Agents are isolated from each other and from strangers.  Under the access control of a verified policy, a
    connection whose certificate name is no trusted peer passes a message only when the name is that of an admitted
    Agent, the link is TLS, the message and its direction are one of the six definitions for Agents, and the key lies
    below that Agent's own namespace; it never lies below the namespace of another admitted Agent. *)
Theorem agents_are_isolated s verifying_key fleet_id v protocol name message flow key :
  SignedPolicy_verify s verifying_key fleet_id = Ok v -> name ∉ po_trusted_peer_common_names (vp_policy v) ->
  zenoh_permits (access_control v) protocol name message flow key = true ->
  exists a suffix messages flows paths path rest,
    a ∈ po_agents (vp_policy v) /\ name = aa_common_name a /\ protocol = "tls" /\
    (suffix, messages, flows, paths) ∈ definitions /\ message ∈ messages /\ flow ∈ flows /\ path ∈ paths /\
    split_on "/" key = (split_on "/" (aa_namespace a) ++ rest)%list /\
    keyexpr_includes (split_on "/" path) rest = true /\
    forall b, b ∈ po_agents (vp_policy v) -> b <> a -> ~ split_on "/" (aa_namespace b) `prefix_of` split_on "/" key.
Proof.
  intros [_ [F _ _ _]]%SignedPolicy_verify_Ok Hpeer Hp.
  apply zenoh_default_deny in Hp as (ke & Hg & Hi); [|done|done].
  apply (grants_iff v F) in Hg as [-> [(Hn & _)|(a & Ha & -> & (x & ms & fs & ps & p & Hd & Hm & Hf & Hps & ->))]]; [done|].
  rewrite (split_on_app "/") in Hi. destruct (namespace_chunks v a F Ha) as [Hchunks Hlit].
  apply keyexpr_literal_prefix in Hi as (rest & Hkey & Hi); [|done].
  exists a, x, ms, fs, ps, p, rest. split_and!; try done. intros b Hb Hne. rewrite Hkey.
  destruct (namespace_chunks v b F Hb) as [-> _]. rewrite Hchunks, <- !app_assoc. intros Hpre.
  apply prefix_app_inv, prefix_cons_inv_1 in Hpre. by destruct Hne, (admitted_unique v F b a Hb Ha Hpre).
Qed.
End Isolation.

(** ** A concrete matcher *)
Module AclToy.
Fixpoint includes (expr key : list string) : bool :=
  match expr with
  | [] => match key with [] => true | _ => false end
  | chunk :: expr' =>
      if String.eqb chunk "**" then
        (fix any (key : list string) : bool :=
           includes expr' key || match key with [] => false | _ :: key' => any key' end) key
      else match key with
           | [] => false
           | c :: key' => (String.eqb chunk "*" || String.eqb chunk c) && includes expr' key'
           end
  end.
Definition mem (x : string) (l : list string) : bool := bool_decide (x ∈ l).
Definition permits (acl : AccessControl) (protocol name message flow key : string) : bool :=
  List.existsb (fun p => List.existsb (fun r => List.existsb (fun s => List.existsb (fun ke =>
    mem (ru_id r) (ap_rules p) && mem (su_id s) (ap_subjects p) && mem protocol (su_link_protocols s)
    && mem name (su_cert_common_names s) && String.eqb (ru_permission r) "allow" && mem message (ru_messages r)
    && mem flow (ru_flows r) && includes (split_on "/" ke) (split_on "/" key))
    (ru_key_exprs r)) (acl_subjects acl)) (acl_rules acl)) (acl_policies acl).
#[export] Instance key_expr : KeyExpr := includes.
#[export] Instance acl : ZenohAcl := permits.
#[export] Instance accepts_all : ZenohConfig := fun _ => None.
End AclToy.
Export AclToy.

#[export] Instance toy_key_expr_spec : KeyExprSpec.
Proof.
  intros chunk expr key Hl. unfold keyexpr_includes, key_expr. cbn [includes].
  destruct (String.eqb_spec chunk "**") as [->|_]; [done|]. destruct key as [|c key]; [done|].
  intros [Hc Hk]%andb_true_iff. apply orb_true_iff in Hc as [Hc|Hc]; apply String.eqb_eq in Hc as ->; [done|]. eauto.
Qed.
#[export] Instance toy_acl_spec : ZenohAclSpec.
Proof.
  intros a protocol name message flow key _ _. unfold zenoh_permits, acl, permits, mem.
  intros (p & Hp & (r & Hr & (s & Hs & (ke & Hk & Hb)%List.existsb_exists)%List.existsb_exists)%List.existsb_exists)%List.existsb_exists.
  bools. strings. exists ke. split; [|done]. exists p, r, s. rewrite !list_elem_of_In in *. done.
Qed.

#[local] Instance constant_canonicalizer : Canonicalizer := fun _ => Some "{}".
Definition sample_signed (generation : Z) : SignedPolicy :=
  mkSignedPolicy (sample_policy generation) (hex_bytes (thirty_two "s" ++ thirty_two "s")).
Definition sample_verified (generation : Z) : VerifiedPolicy :=
  mkVerified (sample_signed generation) (hex_bytes (thirty_two "h")).
Lemma agents_are_isolated_witness :
  zenoh_permits (access_control (sample_verified 7)) "tls" "agt_0123456789abcdef01234567" "put" "ingress"
    "inari/gateway/agt_0123456789abcdef01234567/results/job_1" = true /\
  ~ split_on "/" "inari/gateway/agt_76543210fedcba9876543210" `prefix_of`
      split_on "/" "inari/gateway/agt_0123456789abcdef01234567/results/job_1".
Proof.
  assert (zenoh_permits (access_control (sample_verified 7)) "tls" "agt_0123456789abcdef01234567" "put" "ingress"
    "inari/gateway/agt_0123456789abcdef01234567/results/job_1" = true) as Hp by (vm_compute; reflexivity).
  split; [exact Hp|].
  assert (SignedPolicy_verify (sample_signed 7) (thirty_two "k") "fleet-1" = Ok (sample_verified 7)) as Hv by (vm_compute; reflexivity).
  assert ("agt_0123456789abcdef01234567" ∉ po_trusted_peer_common_names (vp_policy (sample_verified 7))) as Hn by decide_now.
  destruct (agents_are_isolated _ _ _ _ _ _ _ _ _ Hv Hn Hp)
    as (a & x & ms & fs & ps & p & rest & Ha & Ea & _ & _ & _ & _ & _ & _ & _ & Hother).
  apply (Hother (sample_agent "76543210fedcba9876543210")); [right; left|].
  intros E. rewrite <- E in Ea. discriminate Ea.
Defined.
