(* ===== verification/DataTls.v ===== *)
(** * Router TLS credentials

    [crates/inari-router/src/tls.rs]: reading, checking and comparing the certificate material a Router process runs
    with, and embedding it in the Router's configuration.  PEM, X.509 and base64 are third-party code; the content of
    the files is an argument of every read. *)
From S2P Require Import Prelude Framing Json InvitationCode FleetPolicy AccessControl.

Class Certificates := {
  (** [rustls_pemfile::certs]: the DER certificates of a PEM file. *)
  pemfile_certs : string -> result string (list string);
  (** [X509Certificate::from_der]: the bytes after the certificate, and its validity in seconds. *)
  x509_from_der : string -> result string (string * (Z * Z));
  (** [DateTime::from_timestamp]: [None] out of chrono's range. *)
  from_timestamp : Z -> option instant;
  MIN_UTC : instant;
  MAX_UTC : instant;
}.
Class Base64Standard := base64_standard : string -> string.

Record TlsFiles := mkTlsFiles { tf_root_ca : string; tf_certificate : string; tf_private_key : string }.
Record TlsMaterial := mkTlsMaterial {
  tm_root_ca : string;
  tm_certificate : string;
  tm_private_key : string;
  tm_digest : string;
  tm_not_before : instant;
  tm_expires_at : instant;
}.
Record DataTls := mkDataTls { dt_router : TlsMaterial; dt_probe : TlsMaterial }.

Definition io {A} (r : result string A) : RouterResult A := match r with Ok a => Ok a | Err e => Err (Io e) end.

Section Load.
Context `{Sha256, Certificates}.

(** The loop over the three files: what is hashed. *)
Fixpoint hashed (parts : list string) : RouterResult string :=
  match parts with
  | [] => Ok EmptyString
  | bytes :: rest =>
      if is_empty bytes || (256 * 1024 <? str_len bytes)
      then Err (NotReady "TLS material is empty or exceeds 256 KiB.")
      else tail ← hashed rest; Ok (be_bytes 8 (str_len bytes) ++ bytes ++ tail)
  end.
(** The loop over the chain: the latest start and the earliest end. *)
Fixpoint chain_validity (not_before expires_at : instant) (chain : list string) : RouterResult (instant * instant) :=
  match chain with
  | [] => Ok (not_before, expires_at)
  | certificate :: rest =>
      parsed ← io (x509_from_der certificate);
      let '(remaining, (first, last)) := parsed in
      if negb (is_empty remaining) then Err (NotReady "TLS certificate contains trailing data.") else
      start ← ok_or (from_timestamp first) (Io "TLS certificate start time is invalid");
      stop ← ok_or (from_timestamp last) (Io "TLS certificate expiry is invalid");
      chain_validity (Z.max not_before start) (Z.min expires_at stop) rest
  end.

Definition TlsMaterial_require_current (m : TlsMaterial) (now : instant) : RouterResult unit :=
  ensure (negb ((now <? tm_not_before m) || (tm_expires_at m <=? now)))
    (NotReady "TLS certificate chain is not current.").

Definition TlsMaterial_load (read : string -> result string string) (now : instant) (files : TlsFiles)
    : RouterResult TlsMaterial :=
  root_ca ← io (read (tf_root_ca files));
  certificate ← io (read (tf_certificate files));
  private_key ← io (read (tf_private_key files));
  bytes ← hashed [root_ca; certificate; private_key];
  chain ← io (pemfile_certs certificate);
  if bool_decide (chain = []) then Err (NotReady "TLS certificate chain is empty.") else
  validity ← chain_validity MIN_UTC MAX_UTC chain;
  let material := mkTlsMaterial root_ca certificate private_key (sha256 bytes) (fst validity) (snd validity) in
  _ ← TlsMaterial_require_current material now;
  Ok material.

(** The two loads read the files and the clock one after the other. *)
Definition DataTls_load (config : RouterConfig) (read1 read2 : string -> result string string) (now1 now2 : instant)
    : RouterResult DataTls :=
  router ← TlsMaterial_load read1 now1
    (mkTlsFiles (rc_root_ca_file config) (rc_certificate_file config) (rc_private_key_file config));
  probe ← TlsMaterial_load read2 now2
    (mkTlsFiles (rc_root_ca_file config) (rc_probe_certificate_file config) (rc_probe_private_key_file config));
  if negb (String.eqb (tm_root_ca router) (tm_root_ca probe))
  then Err (NotReady "TLS trust changed while credentials were read.") else
  Ok (mkDataTls router probe).
End Load.

Definition DataTls_matches (self other : DataTls) : bool :=
  String.eqb (tm_digest (dt_router self)) (tm_digest (dt_router other))
  && String.eqb (tm_digest (dt_probe self)) (tm_digest (dt_probe other)).
Definition DataTls_require_current (t : DataTls) (now : instant) : RouterResult unit :=
  _ ← TlsMaterial_require_current (dt_router t) now;
  TlsMaterial_require_current (dt_probe t) now.
Definition DataTls_expires_at (t : DataTls) : instant :=
  Z.min (tm_expires_at (dt_router t)) (tm_expires_at (dt_probe t)).

(** [config[name] = ...] on a member of a JSON object. *)
Definition with_member (name : string) (f : Value -> Value) (v : Value) : Value :=
  match v with
  | VObject fields =>
      VObject (object_insert name (f (default VNull (snd <$> List.find (fun m => String.eqb (fst m) name) fields))) fields)
  | VNull => VObject [(name, f VNull)]
  | _ => v
  end.

Section Configure.
Context `{Base64Standard, ZenohConfig}.

Definition inline_tls (t : DataTls) : Value :=
  object [("root_ca_certificate_base64", VString (base64_standard (tm_root_ca (dt_router t))));
    ("listen_certificate_base64", VString (base64_standard (tm_certificate (dt_router t))));
    ("listen_private_key_base64", VString (base64_standard (tm_private_key (dt_router t))));
    ("connect_certificate_base64", VString (base64_standard (tm_certificate (dt_router t))));
    ("connect_private_key_base64", VString (base64_standard (tm_private_key (dt_router t))));
    ("enable_mtls", VBool true); ("verify_name_on_connect", VBool true); ("close_link_on_expiration", VBool true)].
Definition configure (t : DataTls) (config : Value) : RouterResult Value :=
  let config := with_member "transport" (with_member "link" (with_member "tls" (fun _ => inline_tls t))) config in
  match zenoh_config_error config with
  | None => Ok config
  | Some error => Err (NotReady error)
  end.
Definition probe_config (t : DataTls) (endpoint : string) : RouterResult Value :=
  let config := object [("mode", VString "client");
    ("connect", object [("endpoints", strings_value [endpoint]); ("timeout_ms", VNumber 2000)]);
    ("listen", object [("endpoints", VArray [])]);
    ("scouting", object [("multicast", object [("enabled", VBool false)]); ("gossip", object [("enabled", VBool false)])]);
    ("transport", object [("link", object [("tls", object [
      ("root_ca_certificate_base64", VString (base64_standard (tm_root_ca (dt_probe t))));
      ("connect_certificate_base64", VString (base64_standard (tm_certificate (dt_probe t))));
      ("connect_private_key_base64", VString (base64_standard (tm_private_key (dt_probe t))));
      ("enable_mtls", VBool true); ("verify_name_on_connect", VBool true)])])])] in
  match zenoh_config_error config with
  | None => Ok config
  | Some error => Err (NotReady error)
  end.
End Configure.

(** ** Noticing a rotation *)
Section Rotation.
Context `{Sha256, Certificates}.

Lemma hashed_framed parts : forall bytes, hashed parts = Ok bytes -> bytes = framed parts /\ framable parts.
Proof.
  induction parts as [|p parts IH]; intros bytes Hh; cbn [hashed] in Hh; [injection Hh as <-; split; [done|constructor]|].
  destruct (is_empty p || _) eqn:Hp; [done|]. apply orb_false_iff in Hp as [_ Hp%Z.ltb_ge].
  res_inv Hh. destruct (IH _ Hok) as [-> Hf]. subst. split; [done|]. constructor; [unfold u64_max; lia|done].
Qed.
Lemma TlsMaterial_load_Ok read now files m : TlsMaterial_load read now files = Ok m ->
  tm_digest m = sha256 (framed [tm_root_ca m; tm_certificate m; tm_private_key m]) /\
  framable [tm_root_ca m; tm_certificate m; tm_private_key m] /\
  read (tf_root_ca files) = Ok (tm_root_ca m) /\ read (tf_certificate files) = Ok (tm_certificate m) /\
  read (tf_private_key files) = Ok (tm_private_key m) /\ tm_not_before m <= now < tm_expires_at m.
Proof.
  unfold TlsMaterial_load. intros Hl.
  apply bind_Ok in Hl as (ca & Hca & Hl). apply bind_Ok in Hl as (cert & Hcert & Hl).
  apply bind_Ok in Hl as (key & Hkey & Hl). apply bind_Ok in Hl as (bytes & Hb & Hl).
  apply bind_Ok in Hl as (chain & _ & Hl). destruct (bool_decide _); [done|].
  apply bind_Ok in Hl as (v & _ & Hl). cbv zeta in Hl. apply bind_Ok in Hl as (u & Hcur & Hl). injection Hl as <-.
  apply hashed_framed in Hb as [-> Hf]. unfold TlsMaterial_require_current in Hcur. apply ensure_Ok in Hcur. simpl in *. bools.
  unfold io in *. destruct (read (tf_root_ca files)), (read (tf_certificate files)), (read (tf_private_key files)); simplify_eq.
  split_and!; try done; lia.
Qed.

(** Comparing digests is comparing credentials: two sets of credentials, loaded from any files at any times, that the
    Supervisor takes for the same carry the same trust anchors, certificates and private keys, or their framed bytes are
    a SHA-256 collision.  So a rotated file is always noticed, also when bytes move from one file to another. *)
Theorem matching_credentials_are_identical config r1 r2 t1 t2 s1 s2 u1 u2 a b :
  DataTls_load config r1 r2 t1 t2 = Ok a -> DataTls_load config s1 s2 u1 u2 = Ok b -> DataTls_matches a b = true ->
  let material m := [tm_root_ca m; tm_certificate m; tm_private_key m] in
  (material (dt_router a) = material (dt_router b) /\ material (dt_probe a) = material (dt_probe b)) \/
  exists m n, framed m <> framed n /\ sha256 (framed m) = sha256 (framed n) /\
    ((m = material (dt_router a) /\ n = material (dt_router b)) \/ (m = material (dt_probe a) /\ n = material (dt_probe b))).
Proof.
  intros Ha Hb Hm. unfold DataTls_load in Ha, Hb.
  apply bind_Ok in Ha as (ar & Har%TlsMaterial_load_Ok & Ha). apply bind_Ok in Ha as (ap & Hap%TlsMaterial_load_Ok & Ha).
  apply bind_Ok in Hb as (br & Hbr%TlsMaterial_load_Ok & Hb). apply bind_Ok in Hb as (bp & Hbp%TlsMaterial_load_Ok & Hb).
  destruct (negb _) in Ha; [done|]. destruct (negb _) in Hb; [done|]. injection Ha as <-. injection Hb as <-.
  unfold DataTls_matches in Hm. apply andb_true_iff in Hm as [Hr%String.eqb_eq Hp%String.eqb_eq]. simpl in *.
  destruct Har as (Dar & Far & _), Hap as (Dap & Fap & _), Hbr as (Dbr & Fbr & _), Hbp as (Dbp & Fbp & _).
  rewrite Dar, Dbr in Hr. rewrite Dap, Dbp in Hp.
  assert (forall m n, framable m -> framable n -> m <> n -> framed m <> framed n) as Hdiff
    by (intros m n Fm Fn Hne E; by apply Hne, framed_inj).
  match goal with |- (?r = ?r' /\ ?p = ?p') \/ _ =>
    destruct (decide (r = r')) as [Er|Hne]; [destruct (decide (p = p')) as [Ep|Hne]; [by left|]|]; right
  end; eauto 10.
Qed.
End Rotation.
