(* ===== verification/Supervisor.v ===== *)
(** * The Router Supervisor

    [crates/inari-router/src/supervisor.rs] and [store.rs]: the process that holds the durable policy of a Router,
    starts and stops the Zenoh process under it and reports its status.

    The Supervisor is a state machine over its own fields, the two files of its policy store and a log of the processes
    it started.  What the outside answers (the clocks, storage, the child process, the readiness probe, the credential
    files) comes from an [Environment]: one function per kind of question, applied to the number of questions asked
    so far, so that a theorem for every environment is a theorem for every sequence of answers. *)
From S2P Require Import Prelude Json InvitationCode Security FleetPolicy AccessControl DataTls.

Definition milliseconds (n : Z) : Z := n * 1000000.
Definition START_TIMEOUT : Z := seconds 10.
Definition TLS_CHECK_INTERVAL : Z := seconds 1.
Definition MAX_POLICY_BYTES : Z := 2 * 1024 * 1024.

Record RouterStatus := mkRouterStatus {
  rs_generation : option Z;
  rs_digest : option string;
  rs_expires_at : option instant;
  rs_ready : bool;
  rs_message : string;
}.
#[global] Instance RouterStatus_eta : Eta RouterStatus := fun s =>
  mkRouterStatus (rs_generation s) (rs_digest s) (rs_expires_at s) (rs_ready s) (rs_message s).
Definition is_current (s : RouterStatus) (now : instant) : bool :=
  rs_ready s && match rs_expires_at s with Some expires => now <? expires | None => false end.

(** ** The environment *)

(** A write goes to a temporary file that is then renamed; an error may come before or after the rename. *)
Inductive WriteOutcome : Type :=
| Written
| WriteFailed (error : string) (renamed : bool)
| TaskFailed (error : string) (renamed : bool).
(** [zenoh::open], the routers the session sees, and how it closes ([None] is a timeout). *)
Inductive ProbeOutcome : Type :=
| ProbeConnected (routers : list string) (close : option (result string unit))
| ProbeFailed (error : string)
| ProbeTimedOut.
Class Environment := {
  utc_now : nat -> instant;
  (** [tokio::time::Instant::now], less the time this task has slept. *)
  instant_now : nat -> Z;
  write_outcome : nat -> WriteOutcome;
  (** Ticks of the refresh timer, after the first, before the write is done. *)
  write_ticks : nat -> nat;
  read_file : nat -> string -> result string string;
  tls_read_timed_out : nat -> bool;
  spawn_error : nat -> option string;
  (** [Child::try_wait]: an error, or the exit status of an exited child. *)
  try_wait : nat -> result string (option string);
  (** [Child::wait] and [Child::kill] under a timeout ([None]). *)
  wait_child : nat -> option (result string unit);
  kill_child : nat -> option (result string unit);
  probe : nat -> ProbeOutcome;
}.

(** ** The state *)

(** A running process, by the configuration it was started with. *)
Record Supervisor := mkSupervisor {
  sv_policy : option VerifiedPolicy;
  sv_child : option Value;
  sv_tls : option DataTls;
  sv_next_tls_check : Z;
  sv_status : RouterStatus;
  sv_policy_file : option string;
  sv_config_file : option Value;
  sv_started : list VerifiedPolicy;
  sv_asked : nat;
  sv_slept : Z;
}.
#[global] Instance Supervisor_eta : Eta Supervisor := fun s =>
  mkSupervisor (sv_policy s) (sv_child s) (sv_tls s) (sv_next_tls_check s) (sv_status s) (sv_policy_file s)
    (sv_config_file s) (sv_started s) (sv_asked s) (sv_slept s).

(** Computations of the Supervisor: their effects outlive an error.  [None] is a loop that ran out of fuel. *)
Definition prog (A : Type) : Type := Supervisor -> option (RouterResult A * Supervisor).
#[global] Instance prog_ret : MRet prog := fun _ a s => Some (Ok a, s).
#[global] Instance prog_bind : MBind prog := fun _ _ f m s =>
  match m s with
  | Some (Ok a, s') => f a s'
  | Some (Err e, s') => Some (Err e, s')
  | None => None
  end.
Definition fail {A} (e : RouterError) : prog A := fun s => Some (Err e, s).
Definition from {A} (r : RouterResult A) : prog A := fun s => Some (r, s).
Definition read {A} (f : Supervisor -> A) : prog A := fun s => Some (Ok (f s), s).
Definition assign (f : Supervisor -> Supervisor) : prog unit := fun s => Some (Ok tt, f s).
(** Runs [m] and hands its result on instead of returning an error. *)
Definition attempt {A} (m : prog A) : prog (RouterResult A) := fun s =>
  match m s with Some (r, s') => Some (Ok r, s') | None => None end.
Definition ask {A} (answer : nat -> A) : prog A := fun s =>
  Some (Ok (answer (sv_asked s)), s <| sv_asked := S (sv_asked s) |>).
Definition sleep (d : Z) : prog unit := assign (fun s => s <| sv_slept := sv_slept s + d |>).

(** [serde_json::from_slice::<SignedPolicy>]. *)
Class SignedPolicyCodec := signed_policy_from_slice : string -> option SignedPolicy.

(** The stored form of a valid signed policy reads back as it was. *)
Class SignedPolicyCodecSpec `{Rfc3339Auto, Canonicalizer, SignedPolicyCodec} : Prop := signed_policy_roundtrip : forall s bytes,
  Policy_validate (sp_policy s) = Ok tt -> canonical_to_vec (SignedPolicy_value s) = Some bytes ->
  signed_policy_from_slice bytes = Some s.

(** [trim_start_matches('0')]. *)
Fixpoint trim_zeros (s : string) : string :=
  match s with
  | String c s' => if byte_is c 48 then trim_zeros s' else s
  | EmptyString => EmptyString
  end.

Section Operations.
Context `{Encoding, Sha256, Ed25519, HexDecode, Rfc3339Auto, Canonicalizer}.
Context `{ZenohConfig, Certificates, Base64Standard, Environment}.
Context `{SignedPolicyCodec}.
(** The fields that never change. *)
Context (key fleet_id : string) (config : RouterConfig).

Definition utc : prog instant := ask utc_now.
Definition monotonic : prog Z := fun s =>
  Some (Ok (instant_now (sv_asked s) + sv_slept s), s <| sv_asked := S (sv_asked s) |>).
Definition try_wait_child : prog (option string) :=
  r ← ask try_wait; from (io r).

(** ** The policy store *)
Definition store_write (write : Supervisor -> Supervisor) : prog unit :=
  outcome ← ask write_outcome;
  match outcome with
  | Written => assign write
  | WriteFailed e renamed => _ ← assign (if renamed then write else id); fail (Io e)
  | TaskFailed e renamed => _ ← assign (if renamed then write else id); fail (NotReady e)
  end.
Definition persist (policy : VerifiedPolicy) : prog unit :=
  match canonical_to_vec (SignedPolicy_value (vp_signed policy)) with
  | None => fail (Json "the value has no canonical form")
  | Some bytes => store_write (fun s => s <| sv_policy_file := Some bytes |>)
  end.
(** [None]: the file is absent.  The outer result is the outcome of reading it. *)
Definition store_load (file : result string (option string)) : RouterResult (option VerifiedPolicy) :=
  found ← io file;
  match found with
  | None => Ok None
  | Some bytes =>
      if MAX_POLICY_BYTES <? str_len bytes then Err (InvalidPolicy "stored policy exceeds the size limit") else
      signed ← ok_or (signed_policy_from_slice bytes) (Json "the stored policy is not a signed policy");
      verified ← SignedPolicy_verify signed key fleet_id;
      Ok (Some verified)
  end.

(** ** Status *)
Definition not_ready (message : string) : prog unit :=
  assign (fun s => s <| sv_status := sv_status s <| rs_ready := false |> <| rs_message := message |> |>).
Definition report (policy : VerifiedPolicy) : prog unit :=
  assign (fun s => s <| sv_status := sv_status s
    <| rs_generation := Some (po_generation (vp_policy policy)) |> <| rs_digest := Some (vp_digest policy) |>
    <| rs_expires_at := Some (po_expires_at (vp_policy policy)) |> |>).

(** ** Stopping *)
Definition stop : prog unit :=
  _ ← assign (fun s => s <| sv_tls := None |>);
  child ← read sv_child;
  _ ← assign (fun s => s <| sv_child := None |>);
  match child with
  | None => mret tt
  | Some _ =>
      exited ← try_wait_child;
      match exited with
      | Some _ => mret tt
      | None =>
          waited ← ask wait_child;
          match waited with
          | Some r => from (io r)
          | None =>
              killed ← ask kill_child;
              match killed with
              | Some r => from (io r)
              | None => fail (NotReady "Router process did not stop.")
              end
          end
      end
  end.

(** ** Starting *)
(** What one attempt of the readiness loop ends with: an answer, or the failure to report at the deadline. *)
Definition probe_once (deadline : Z) (last_failure : string) : prog (option string) :=
  now ← monotonic;
  if deadline <=? now then fail (NotReady ("Zenoh readiness deadline passed: " ++ last_failure)) else
  child ← read sv_child;
  match child with
  | None => fail (NotReady "Router process is absent.")
  | Some _ =>
      exited ← try_wait_child;
      match exited with
      | Some exit => fail (NotReady ("Router process exited: " ++ exit))
      | None =>
          tls ← read sv_tls;
          tls ← from (ok_or tls Unavailable);
          now ← utc;
          _ ← from (DataTls_require_current tls now);
          _ ← from (probe_config tls (rc_probe_endpoint config));
          outcome ← ask probe;
          match outcome with
          | ProbeConnected routers close =>
              _ ← from (match close with
                        | None => Err (NotReady "The mTLS probe did not close.")
                        | Some (Err e) => Err (NotReady e)
                        | Some (Ok _) => Ok tt
                        end);
              if List.existsb (fun id => eq_ignore_ascii_case id (trim_zeros (rc_id config))) routers then
                exited ← try_wait_child;
                match exited with
                | None => mret None
                | Some _ => mret (Some "The connected Router identity did not match configuration.")
                end
              else mret (Some "The connected Router identity did not match configuration.")
          | ProbeFailed error => mret (Some error)
          | ProbeTimedOut => mret (Some "The mTLS connection probe timed out.")
          end
      end
  end.
Fixpoint wait_ready (fuel : nat) (deadline : Z) (last_failure : string) : prog unit :=
  match fuel with
  | O => fun _ => None
  | S fuel =>
      failure ← probe_once deadline last_failure;
      match failure with
      | None => mret tt
      | Some last_failure =>
          _ ← sleep (milliseconds 100);
          wait_ready fuel deadline last_failure
      end
  end.
(** Every attempt but the last sleeps 100 ms and the deadline is at most ten seconds away. *)
Definition WAIT_FUEL : nat := 102.

Definition load_tls : prog DataTls :=
  files1 ← ask read_file; now1 ← utc;
  files2 ← ask read_file; now2 ← utc;
  from (DataTls_load config files1 files2 now1 now2).

(** The old process stops and the policy becomes durable before anything starts under it. *)
Definition replace_policy (policy : VerifiedPolicy) : prog unit :=
  _ ← not_ready "Router applies signed policy.";
  _ ← stop;
  _ ← assign (fun s => s <| sv_policy := Some policy |>);
  _ ← persist policy;
  _ ← assign (fun s => s <| sv_policy := Some policy |>);
  report policy.
(** The new process has started: wait for it, within its policy and its credentials. *)
Definition await_ready (policy : VerifiedPolicy) (tls : DataTls) : prog unit :=
  now ← utc;
  let remaining := Z.min (po_expires_at (vp_policy policy)) (DataTls_expires_at tls) - now in
  if remaining <? 0 then fail NotCurrent else
  start ← monotonic;
  result ← attempt (wait_ready WAIT_FUEL (start + Z.min START_TIMEOUT remaining) "The mTLS probe has not connected.");
  match result with
  | Ok _ =>
      now ← utc;
      _ ← from (require_current policy now);
      tls ← read sv_tls;
      tls ← from (ok_or tls Unavailable);
      now ← utc;
      _ ← from (DataTls_require_current tls now);
      assign (fun s => s <| sv_status := sv_status s <| rs_ready := true |>
                            <| rs_message := "Router is ready with the acknowledged policy." |> |>)
  | Err error =>
      _ ← not_ready (RouterError_to_string error);
      _ ← stop;
      fail error
  end.
Definition launch (policy : VerifiedPolicy) (value : Value) : prog unit :=
  tls ← load_tls;
  value ← from (configure tls value);
  _ ← store_write (fun s => s <| sv_config_file := Some value |>);
  now ← utc;
  _ ← from (require_current policy now);
  refused ← ask spawn_error;
  match refused with
  | Some e => fail (Io e)
  | None =>
      _ ← assign (fun s => s <| sv_child := sv_config_file s |> <| sv_started := (sv_started s ++ [policy])%list |>);
      now ← monotonic;
      _ ← assign (fun s => s <| sv_next_tls_check := now + TLS_CHECK_INTERVAL |>);
      _ ← assign (fun s => s <| sv_tls := Some tls |>);
      await_ready policy tls
  end.
Definition activate (policy : VerifiedPolicy) : prog unit :=
  value ← from (render config policy);
  _ ← replace_policy policy;
  launch policy value.
Definition activate_or_report (policy : VerifiedPolicy) : prog unit :=
  result ← attempt (activate policy);
  match result with
  | Ok _ => mret tt
  | Err error => not_ready (RouterError_to_string error)
  end.

(** ** Observation: the tick of the Supervisor *)

(** A process runs: its credentials must be current, and are read again once a second. *)
Definition observe_running : prog unit :=
  tls ← read sv_tls;
  expired ← match tls with
            | Some tls => now ← utc; mret (match DataTls_require_current tls now with Err e => Some e | Ok _ => None end)
            | None => mret None
            end;
  match expired with
  | Some error => _ ← not_ready (RouterError_to_string error); stop
  | None =>
      now ← monotonic;
      check ← read sv_next_tls_check;
      if negb (check <=? now) then mret tt else
      now ← monotonic;
      _ ← assign (fun s => s <| sv_next_tls_check := now + TLS_CHECK_INTERVAL |>);
      timed_out ← ask tls_read_timed_out;
      loaded ← (if timed_out : bool then mret (Err (NotReady "TLS credential read timed out.")) else attempt load_tls);
      match loaded with
      | Err error => _ ← not_ready (RouterError_to_string error); stop
      | Ok material =>
          tls ← read sv_tls;
          if match tls with Some tls => negb (DataTls_matches tls material) | None => true end then
            policy ← read sv_policy;
            policy ← from (ok_or policy Unavailable);
            activate_or_report policy
          else mret tt
      end
  end.
(** No process runs: try again once a second while the policy is current. *)
Definition observe_idle : prog unit :=
  now ← monotonic;
  check ← read sv_next_tls_check;
  if negb (check <=? now) then mret tt else
  policy ← read sv_policy;
  match policy with
  | None => mret tt
  | Some policy =>
      now ← utc;
      if negb (is_ok (require_current policy now)) then mret tt else
      now ← monotonic;
      _ ← assign (fun s => s <| sv_next_tls_check := now + TLS_CHECK_INTERVAL |>);
      activate_or_report policy
  end.
Definition observe : prog unit :=
  policy ← read sv_policy;
  expired ← match policy with
            | Some policy => now ← utc; mret (negb (is_ok (require_current policy now)))
            | None => mret false
            end;
  if expired : bool then
    _ ← not_ready "Router policy expired.";
    stop
  else
    child ← read sv_child;
    match child with
    | Some _ =>
        exited ← try_wait_child;
        match exited with
        | Some exit =>
            _ ← assign (fun s => s <| sv_child := None |>);
            _ ← assign (fun s => s <| sv_tls := None |>);
            not_ready ("Router process exited: " ++ exit)
        | None => observe_running
        end
    | None => observe_idle
    end.

(** ** Applying a policy *)

(** One tick of the refresh timer; slow storage cannot extend the authority of the running Router. *)
Definition refresh_tick (previous : VerifiedPolicy) (stop_failure : option RouterError) : prog (option RouterError) :=
  now ← utc;
  expired ← (if negb (is_ok (require_current previous now)) then mret true else
             tls ← read sv_tls;
             match tls with
             | Some tls => now ← utc; mret (negb (is_ok (DataTls_require_current tls now)))
             | None => mret false
             end);
  if expired : bool then
    _ ← not_ready "Router policy or TLS certificate expired during refresh.";
    stopped ← attempt stop;
    mret (match stopped with Err error => Some error | Ok _ => stop_failure end)
  else mret stop_failure.
Fixpoint refresh_ticks (n : nat) (previous : VerifiedPolicy) (stop_failure : option RouterError)
    : prog (option RouterError) :=
  match n with
  | O => mret stop_failure
  | S n => failure ← refresh_tick previous stop_failure; refresh_ticks n previous failure
  end.
Definition refresh (policy : VerifiedPolicy) : prog unit :=
  previous ← read sv_policy;
  previous ← from (ok_or previous Unavailable);
  _ ← assign (fun s => s <| sv_policy := Some policy |>);
  ticks ← ask write_ticks;
  stop_failure ← refresh_ticks (S ticks) previous None;
  result ← attempt (persist policy);
  match stop_failure with
  | Some error => fail error
  | None =>
      match result with
      | Err error =>
          _ ← not_ready (RouterError_to_string error);
          _ ← stop;
          fail error
      | Ok _ =>
          _ ← observe;
          now ← utc;
          status ← read sv_status;
          if negb (is_ok (require_current previous now)) || negb (rs_ready status) then activate policy else
          now ← utc;
          _ ← from (require_current policy now);
          _ ← report policy;
          assign (fun s => s <| sv_status := sv_status s
            <| rs_message := "Router refreshed the acknowledged policy without closing links." |> |>)
      end
  end.

(** The same policy again, while the Router runs under it: its status is the answer. *)
Definition apply_again (verified : VerifiedPolicy) : prog (option RouterStatus) :=
  previous ← read sv_policy;
  match previous with
  | None => mret None
  | Some previous =>
      newer ← from (advances verified previous);
      status ← read sv_status;
      if newer || negb (rs_ready status) then mret None else
      _ ← observe;
      status ← read sv_status;
      mret (if rs_ready status then Some status else None)
  end.
Definition apply (signed : SignedPolicy) : prog RouterStatus :=
  verified ← from (SignedPolicy_verify signed key fleet_id);
  now ← utc;
  _ ← from (require_current verified now);
  again ← apply_again verified;
  match again with
  | Some status => mret status
  | None =>
      _ ← observe;
      status ← read sv_status;
      previous ← read sv_policy;
      _ ← (if rs_ready status && match previous with Some p => has_same_authority verified p | None => false end
           then refresh verified else activate verified);
      read sv_status
  end.

(** ** The life of a Supervisor *)

(** [RouterSupervisor::new] over the store a previous process left behind. *)
Definition new (file : result string unit) : prog unit :=
  _ ← from (RouterConfig_validate config);
  _ ← from (ensure (negb (ed25519_is_weak key)) InvalidSignature);
  _ ← from (ensure (literal_name fleet_id) (InvalidPolicy "fleet_id must be a literal name"));
  stored ← read sv_policy_file;
  policy ← from (store_load (match file with Ok _ => Ok stored | Err e => Err e end));
  now ← monotonic;
  assign (fun s => s <| sv_policy := policy |> <| sv_child := None |> <| sv_tls := None |>
    <| sv_next_tls_check := now |>
    <| sv_status := mkRouterStatus ((fun p => po_generation (vp_policy p)) <$> policy) (vp_digest <$> policy)
         ((fun p => po_expires_at (vp_policy p)) <$> policy) false "Router awaits a current signed policy." |>).

(** What wakes the loop of [run]: the timer, or a policy from the management interface. *)
Inductive Event : Type := Tick | Command (policy : SignedPolicy).
Definition start : prog unit :=
  policy ← read sv_policy;
  match policy with
  | None => mret tt
  | Some policy =>
      now ← utc;
      if is_ok (require_current policy now) then activate_or_report policy else mret tt
  end.
Fixpoint run_events (events : list Event) : prog (list (RouterResult RouterStatus)) :=
  match events with
  | [] => mret []
  | Tick :: events => _ ← observe; run_events events
  | Command policy :: events =>
      result ← attempt (apply policy);
      replies ← run_events events;
      mret (result :: replies)
  end.
(** [shutdown] is the flag at the start; the events are those before it changes. *)
Definition run (shutdown : bool) (events : list Event) : prog unit :=
  if shutdown then mret tt else
  _ ← start;
  _ ← run_events events;
  _ ← not_ready "Router Supervisor is stopping.";
  stop.
End Operations.

(** [SupervisorHandle::status]. *)
Definition handle_status (s : Supervisor) (now : instant) : RouterStatus :=
  sv_status s <| rs_ready := is_current (sv_status s) now |>.

(** ** What the Supervisor promises

    The order of policies: a policy is its generation and the digest of its content. *)
Definition stamp (p : VerifiedPolicy) : Z * string := (po_generation (vp_policy p), vp_digest p).
Definition stamp_le (a b : Z * string) : Prop := fst a < fst b \/ a = b.
#[global] Instance stamp_le_preorder : PreOrder stamp_le.
Proof. split; [by right|]. intros a b c [|<-] [|<-]; unfold stamp_le; auto; left; lia. Qed.

(** The abstract machine: a durable stamp that only moves forward, and a log of started Routers.  A Router is started
    only under the durable stamp. *)
Record Guard := mkGuard { gd_durable : option (Z * string); gd_started : list (Z * string) }.
Inductive guard_step : Guard -> Guard -> Prop :=
| guard_commit d l st : match d with Some d => stamp_le d st | None => True end ->
    guard_step (mkGuard d l) (mkGuard (Some st) l)
| guard_start d l : guard_step (mkGuard (Some d) l) (mkGuard (Some d) (l ++ [d])%list).
(** Its states: every started stamp is at most the durable one, and the log is in order. *)
Definition guard_inv (g : Guard) : Prop :=
  Sorted stamp_le (gd_started g) /\
  forall st, st ∈ gd_started g -> exists d, gd_durable g = Some d /\ stamp_le st d.

Lemma Sorted_snoc {A} (R : A -> A -> Prop) l x : Sorted R l -> (forall y, y ∈ l -> R y x) -> Sorted R (l ++ [x])%list.
Proof.
  induction l as [|a l IH]; simpl; intros Hs Hx; [by repeat constructor|]. inversion Hs as [|? ? Hl Ha]; subst.
  constructor; [apply IH; [done|]; intros y Hy; apply Hx; by right|].
  destruct l as [|b l]; simpl; constructor; [apply Hx; left|by inversion Ha].
Qed.
Lemma guard_step_inv g g' : guard_step g g' -> guard_inv g -> guard_inv g'.
Proof.
  intros Hstep [Hs Hd]. inversion Hstep as [d l st Hle|d l]; subst; simpl in *.
  - split; [done|]. intros x Hx. destruct (Hd x Hx) as (e & -> & He). exists st. split; [done|]. by trans e.
  - split.
    + apply Sorted_snoc; [done|]. intros y Hy. destruct (Hd y Hy) as (e & [= <-] & He). done.
    + intros x [Hx| ->%list_elem_of_singleton]%elem_of_app; [by apply Hd|]. by exists d.
Qed.
Lemma guard_steps_inv g g' : rtc guard_step g g' -> guard_inv g -> guard_inv g'.
Proof. induction 1; [done|]. intros. eauto using guard_step_inv. Qed.
(** Along its steps the durable stamp never goes back, and what is started in between is between the two. *)
Lemma guard_steps_forward g g' : rtc guard_step g g' ->
  (forall d, gd_durable g = Some d -> exists d', gd_durable g' = Some d' /\ stamp_le d d') /\
  exists later, gd_started g' = (gd_started g ++ later)%list /\ forall st, st ∈ later ->
    (forall d, gd_durable g = Some d -> stamp_le d st) /\ exists d', gd_durable g' = Some d' /\ stamp_le st d'.
Proof.
  induction 1 as [g|g1 g2 g3 Hstep _ [IHd (later & IHl & IHs)]].
  - split; [intros d ->; by exists d|]. exists []. rewrite app_nil_r. split; [done|set_solver].
  - destruct Hstep as [d l st Hle|d l]; simpl in *.
    + assert (forall e, d = Some e -> stamp_le e st) as Hd by (by intros e ->). split.
      * intros e He. destruct (IHd st eq_refl) as (d' & -> & Hd'). exists d'. split; [done|]. trans st; [by apply Hd|done].
      * exists later. split; [done|]. intros x Hx. destruct (IHs x Hx) as [H1 H2]. split; [|done].
        intros e He. trans st; [by apply Hd|by apply H1].
    + split; [done|]. exists (d :: later). split; [by rewrite IHl, <- app_assoc|]. intros x [->|Hx]%elem_of_cons; [|by apply IHs].
      split; [by intros e [= ->]|]. by apply IHd.
Qed.

(** ** Reasoning about computations

    [wp m Q s]: when [m] returns from [s], its result and final state satisfy [Q]. *)
Definition wp {A} (m : prog A) (Q : RouterResult A -> Supervisor -> Prop) (s : Supervisor) : Prop :=
  forall r s', m s = Some (r, s') -> Q r s'.
Section Wp.
Context {A B : Type}.
Implicit Types (s : Supervisor).

Lemma wp_mono (m : prog A) (P Q : RouterResult A -> Supervisor -> Prop) s :
  wp m P s -> (forall r s', P r s' -> Q r s') -> wp m Q s.
Proof. intros Hm HPQ r s' E. by apply HPQ, Hm. Qed.
Lemma wp_bind (m : prog A) (f : A -> prog B) Q s :
  wp m (fun r s' => match r with Ok a => wp (f a) Q s' | Err e => Q (Err e) s' end) s -> wp (m ≫= f) Q s.
Proof.
  intros Hm r s' E. unfold mbind, prog_bind in E. destruct (m s) as [[[a|e] s1]|] eqn:Em; [| |done].
  - exact (Hm _ _ Em _ _ E).
  - injection E as <- <-. exact (Hm _ _ Em).
Qed.
Lemma wp_ret (a : A) (Q : RouterResult A -> Supervisor -> Prop) s : Q (Ok a) s -> wp (mret a) Q s.
Proof. by intros HQ r s' [= <- <-]. Qed.
Lemma wp_fail e (Q : RouterResult A -> Supervisor -> Prop) s : Q (Err e) s -> wp (fail e) Q s.
Proof. by intros HQ r s' [= <- <-]. Qed.
Lemma wp_from (r : RouterResult A) (Q : RouterResult A -> Supervisor -> Prop) s : Q r s -> wp (from r) Q s.
Proof. by intros HQ r' s' [= <- <-]. Qed.
Lemma wp_read (f : Supervisor -> A) (Q : RouterResult A -> Supervisor -> Prop) s : Q (Ok (f s)) s -> wp (read f) Q s.
Proof. by intros HQ r s' [= <- <-]. Qed.
Lemma wp_assign f (Q : RouterResult unit -> Supervisor -> Prop) s : Q (Ok tt) (f s) -> wp (assign f) Q s.
Proof. by intros HQ r s' [= <- <-]. Qed.
Lemma wp_ask (answer : nat -> A) (Q : RouterResult A -> Supervisor -> Prop) s :
  Q (Ok (answer (sv_asked s))) (s <| sv_asked := S (sv_asked s) |>) -> wp (ask answer) Q s.
Proof. by intros HQ r s' [= <- <-]. Qed.
Lemma wp_attempt (m : prog A) (Q : RouterResult (RouterResult A) -> Supervisor -> Prop) s :
  wp m (fun r s' => Q (Ok r) s') s -> wp (attempt m) Q s.
Proof. intros Hm r s' E. unfold attempt in E. destruct (m s) as [[r1 s1]|] eqn:Em; [|done]. injection E as <- <-. by apply Hm. Qed.
Lemma wp_monotonic `{Environment} (Q : RouterResult Z -> Supervisor -> Prop) s :
  Q (Ok (instant_now (sv_asked s) + sv_slept s)) (s <| sv_asked := S (sv_asked s) |>) -> wp monotonic Q s.
Proof. by intros HQ r s' [= <- <-]. Qed.
End Wp.

(** The fields that the clocks, the answers and the timer leave alone. *)
Definition core (s : Supervisor) :=
  (sv_policy s, sv_child s, sv_tls s, sv_status s, sv_policy_file s, sv_config_file s, sv_started s).
(** A computation that only asks questions. *)
Class Asks {A} (m : prog A) : Prop := asks_core : forall s, wp m (fun _ s' => same core s s') s.

Ltac wp_step :=
  lazymatch goal with
  | |- wp (mbind _ _) _ _ => apply wp_bind
  | |- wp (mret _) _ _ => apply wp_ret
  | |- wp (fail _) _ _ => apply wp_fail
  | |- wp (from _) _ _ => apply wp_from
  | |- wp (read _) _ _ => apply wp_read
  | |- wp (assign _) _ _ => apply wp_assign
  | |- wp (ask _) _ _ => apply wp_ask
  | |- wp (attempt _) _ _ => apply wp_attempt
  | |- wp (@utc _) _ _ => apply wp_ask
  | |- wp (@monotonic _) _ _ => apply wp_monotonic
  | |- wp (not_ready _) _ _ => apply wp_assign
  | |- wp (report _) _ _ => apply wp_assign
  | |- wp (if ?b then _ else _) _ _ => destruct b eqn:?
  | |- wp (match ?x with _ => _ end) _ _ => destruct x eqn:?
  | |- match ?x with _ => _ end => destruct x eqn:?
  end; cbv beta iota zeta.
Ltac wps := repeat wp_step.

Section Correctness.
Context `{Encoding, Sha256, Ed25519, HexDecode, Rfc3339Auto, Canonicalizer}.
Context `{ZenohConfig, Certificates, Base64Standard, Environment, SignedPolicyCodec}.
Context (key fleet_id : string) (config : RouterConfig).
Notation activate := (activate config).
Notation observe := (observe config).
Notation refresh := (refresh config).
Notation apply := (apply key fleet_id config).

#[local] Instance utc_asks : Asks utc.
Proof. intros s. unfold utc. by wps. Qed.
#[local] Instance monotonic_asks : Asks monotonic.
Proof. by intros s r s' [= <- <-]. Qed.
#[local] Instance try_wait_asks : Asks try_wait_child.
Proof. intros s. unfold try_wait_child. by wps. Qed.
Lemma asks_bind {A B} (m : prog A) (f : A -> prog B) : Asks m -> (forall a, Asks (f a)) -> Asks (m ≫= f).
Proof.
  intros Hm Hf s. apply wp_bind. eapply wp_mono; [apply Hm|]. intros [a|e] s1 E; [|done].
  eapply wp_mono; [apply Hf|]. intros r s2 E2. unfold same in *. congruence.
Qed.
Lemma asks_ret {A} (r : A) : Asks (mret r).
Proof. by intros s r' s' [= <- <-]. Qed.
Lemma asks_fail {A} e : Asks (fail (A:=A) e).
Proof. by intros s r' s' [= <- <-]. Qed.
Lemma asks_from {A} (r : RouterResult A) : Asks (from r).
Proof. by intros s r' s' [= <- <-]. Qed.
Lemma asks_read {A} (f : Supervisor -> A) : Asks (read f).
Proof. by intros s r' s' [= <- <-]. Qed.
Lemma asks_ask {A} (f : nat -> A) : Asks (ask f).
Proof. by intros s r' s' [= <- <-]. Qed.
Lemma asks_sleep d : Asks (sleep d).
Proof. by intros s r' s' [= <- <-]. Qed.
Hint Resolve asks_ret asks_fail asks_from asks_read asks_ask asks_sleep utc_asks monotonic_asks try_wait_asks : core.
Ltac asks :=
  repeat (cbv zeta; lazymatch goal with
  | |- forall _, _ => intros ?
  | |- Asks (mbind _ _) => apply asks_bind
  | |- Asks (if ?b then _ else _) => destruct b
  | |- Asks (match ?x with _ => _ end) => destruct x
  | |- Asks _ => solve [auto]
  end).
Lemma probe_once_asks deadline failure : Asks (probe_once config deadline failure).
Proof. unfold probe_once. asks. Qed.
Lemma wait_ready_asks fuel : forall deadline failure, Asks (wait_ready config fuel deadline failure).
Proof.
  induction fuel as [|fuel IH]; intros deadline failure; simpl; [by intros s r s' [=]|].
  apply asks_bind; [apply probe_once_asks|]. asks.
Qed.
Lemma load_tls_asks : Asks (load_tls config).
Proof. unfold load_tls. asks. Qed.

(** *** Stopping and writing *)
Lemma wp_stop s : wp stop (fun _ s' => sv_child s' = None /\ sv_tls s' = None /\ sv_policy s' = sv_policy s /\
  sv_status s' = sv_status s /\ sv_policy_file s' = sv_policy_file s /\ sv_started s' = sv_started s) s.
Proof. unfold stop, try_wait_child. wps; done. Qed.

(** A write replaces the file when it succeeds, and may have replaced it when it fails. *)
Lemma wp_persist p s : wp (persist p) (fun r s' => sv_policy s' = sv_policy s /\ sv_child s' = sv_child s /\
  sv_tls s' = sv_tls s /\ sv_status s' = sv_status s /\ sv_started s' = sv_started s /\
  (sv_policy_file s' = sv_policy_file s /\ is_ok r = false \/
   exists bytes, canonical_to_vec (SignedPolicy_value (vp_signed p)) = Some bytes /\ sv_policy_file s' = Some bytes)) s.
Proof.
  unfold persist, store_write. destruct (canonical_to_vec _) as [bytes|] eqn:Eb; [|wps; auto 10].
  wps; simpl; split_and!; try done; eauto.
  all: destruct renamed; simpl; eauto.
Qed.
Lemma wp_write_config v s : wp (store_write (fun s => s <| sv_config_file := Some v |>)) (fun r s' =>
  sv_policy s' = sv_policy s /\ sv_child s' = sv_child s /\ sv_tls s' = sv_tls s /\ sv_status s' = sv_status s /\
  sv_policy_file s' = sv_policy_file s /\ sv_started s' = sv_started s /\
  (is_ok r = true -> sv_config_file s' = Some v)) s.
Proof. unfold store_write. wps; simpl; try done; by destruct renamed. Qed.

(** *** The invariant *)

(** The policy a restart would load. *)
Definition durable (s : Supervisor) : option VerifiedPolicy :=
  bytes ← sv_policy_file s;
  signed ← signed_policy_from_slice bytes;
  match SignedPolicy_verify signed key fleet_id with Ok v => Some v | Err _ => None end.
(** What a running process was configured with: the access control of the policy and the credentials at hand. *)
Definition configured (p : VerifiedPolicy) (t : DataTls) (c : Value) : Prop :=
  exists v, render config p = Ok v /\ configure t v = Ok c.
Record Inv (s : Supervisor) : Prop := mkInv {
  inv_policy : forall p, sv_policy s = Some p -> PolicyAuthentic p key fleet_id;
  inv_file : is_Some (sv_policy_file s) ->
    exists d p, durable s = Some d /\ sv_policy s = Some p /\ stamp_le (stamp d) (stamp p);
  inv_child : forall c, sv_child s = Some c ->
    exists p t, sv_policy s = Some p /\ sv_tls s = Some t /\ configured p t c /\ durable s = Some p;
  inv_ready : rs_ready (sv_status s) = true -> is_Some (sv_child s) /\
    exists p q, sv_policy s = Some p /\ PolicyAuthentic q key fleet_id /\
      rs_generation (sv_status s) = Some (po_generation (vp_policy q)) /\
      rs_digest (sv_status s) = Some (vp_digest q) /\
      rs_expires_at (sv_status s) = Some (po_expires_at (vp_policy q)) /\
      stamp_le (stamp q) (stamp p) /\ has_same_authority q p = true;
}.
Definition guard (s : Supervisor) : Guard := mkGuard (stamp <$> durable s) (stamp <$> sv_started s).
(** What every operation does: it keeps the invariant, follows the abstract machine and never lowers the policy. *)
Definition policy_le (o o' : option VerifiedPolicy) : Prop :=
  match o with Some p => exists p', o' = Some p' /\ stamp_le (stamp p) (stamp p') | None => True end.
Definition good (s s' : Supervisor) : Prop :=
  Inv s' /\ rtc guard_step (guard s) (guard s') /\ policy_le (sv_policy s) (sv_policy s').

#[local] Instance policy_le_preorder : PreOrder policy_le.
Proof.
  split.
  - intros [p|]; simpl; [|done]. exists p. split; [done|]. reflexivity.
  - intros [p|] [q|] [r|]; simpl; try done; try naive_solver.
    intros (p' & [= <-] & Hp) (q' & [= <-] & Hq). exists r. split; [done|]. by trans (stamp q).
Qed.
Lemma good_trans s s1 s2 : good s s1 -> good s1 s2 -> good s s2.
Proof. intros (_ & Hg1 & Hp1) (Hi & Hg2 & Hp2). split_and!; [done|by trans (guard s1)|by trans (sv_policy s1)]. Qed.
Lemma Inv_core s s' : same core s s' -> Inv s -> Inv s'.
Proof.
  unfold same, core. intros [= E1 E2 E3 E4 E5 E6 E7] []. assert (durable s' = durable s) as Ed by (unfold durable; by rewrite E5).
  constructor; rewrite ?E1, ?E2, ?E3, ?E4, ?E5, ?Ed; done.
Qed.
Lemma guard_core s s' : same core s s' -> guard s' = guard s.
Proof. unfold same, core, guard, durable. by intros [= E1 E2 E3 E4 -> E6 ->]. Qed.
Lemma good_core s s' : same core s s' -> Inv s -> good s s'.
Proof.
  intros E Hi. split_and!; [by eapply Inv_core|by rewrite (guard_core s s')|].
  unfold same, core in E. injection E as -> ? ? ? ? ? ?. reflexivity.
Qed.

(** A process that is not there enforces nothing, and a Router that is not ready claims nothing. *)
Lemma stopped_good s s' : Inv s -> sv_child s' = None -> rs_ready (sv_status s') = false ->
  sv_policy s' = sv_policy s -> sv_policy_file s' = sv_policy_file s -> sv_started s' = sv_started s -> good s s'.
Proof.
  intros [Ip If Ic Ir] Hc Hr Ep Ef Es.
  assert (durable s' = durable s) as Ed by (unfold durable; by rewrite Ef).
  split_and!.
  - constructor; rewrite ?Ep, ?Ef, ?Ed; try done; congruence.
  - unfold guard. by rewrite Ed, Es.
  - by rewrite Ep.
Qed.
Lemma not_ready_good s message : Inv s ->
  good s (s <| sv_status := sv_status s <| rs_ready := false |> <| rs_message := message |> |>).
Proof. intros [Ip If Ic Ir]. split_and!; [by constructor|done|by simpl]. Qed.
Lemma wp_stop_good s : Inv s -> rs_ready (sv_status s) = false ->
  wp stop (fun _ s' => good s s' /\ sv_child s' = None /\ rs_ready (sv_status s') = false /\ sv_policy s' = sv_policy s) s.
Proof.
  intros Hi Hr. eapply wp_mono; [apply wp_stop|]. intros r s' (Hc & Ht & Ep & Es & Ef & El).
  rewrite Es. split; [|done]. apply stopped_good; try done. by rewrite Es.
Qed.

Context `{!SignedPolicyCodecSpec}.
Lemma durable_written p s bytes : PolicyAuthentic p key fleet_id ->
  canonical_to_vec (SignedPolicy_value (vp_signed p)) = Some bytes -> sv_policy_file s = Some bytes -> durable s = Some p.
Proof.
  intros Hp Hb Hf. unfold durable. rewrite Hf. simpl. rewrite (signed_policy_roundtrip _ _ (proj2 (Policy_validate_iff _) (pa_valid _ _ _ Hp)) Hb).
  simpl. by rewrite (proj2 (SignedPolicy_verify_Ok (vp_signed p) key fleet_id p)).
Qed.

(** The state in which a process may be started under [p]. *)
Definition replaced (p : VerifiedPolicy) (s : Supervisor) : Prop :=
  Inv s /\ sv_child s = None /\ rs_ready (sv_status s) = false /\ sv_policy s = Some p /\ durable s = Some p /\
  rs_generation (sv_status s) = Some (po_generation (vp_policy p)) /\ rs_digest (sv_status s) = Some (vp_digest p) /\
  rs_expires_at (sv_status s) = Some (po_expires_at (vp_policy p)).

Lemma replaced_good p s s' : Inv s -> PolicyAuthentic p key fleet_id -> policy_le (sv_policy s) (Some p) ->
  sv_child s' = None -> rs_ready (sv_status s') = false -> sv_policy s' = Some p -> sv_started s' = sv_started s ->
  sv_policy_file s' = sv_policy_file s \/ durable s' = Some p -> good s s'.
Proof.
  intros [Ip If Ic Ir] Hp Hle Hc Hr Ep Es Hf.
  assert (forall d, durable s = Some d -> stamp_le (stamp d) (stamp p)) as Hdur.
  { intros d Hd. assert (is_Some (sv_policy_file s)) as Hfile.
    { unfold durable in Hd. destruct (sv_policy_file s); [eauto|done]. }
    destruct (If Hfile) as (d' & q & Hd' & Hq & Hdq). simplify_eq. rewrite Hq in Hle.
    destruct Hle as (p' & [= <-] & Hqp). by trans (stamp q). }
  split_and!.
  - constructor; rewrite ?Hc, ?Hr; try done.
    + intros q Hq. rewrite Ep in Hq. by injection Hq as <-.
    + intros Hfile. destruct Hf as [Ef|Hd]; [|exists p, p; split_and!; [done|done|reflexivity]].
      rewrite Ef in Hfile. destruct (If Hfile) as (d & q & Hd & _ & _). exists d, p.
      split_and!; [unfold durable in *; by rewrite Ef|done|by apply Hdur].
  - unfold guard. rewrite Es. destruct Hf as [Ef|Hd].
    + assert (durable s' = durable s) as -> by (unfold durable; by rewrite Ef). done.
    + rewrite Hd. apply rtc_once, guard_commit. destruct (durable s) as [d|] eqn:Ed; simpl; [by apply Hdur|done].
  - by rewrite Ep.
Qed.
Lemma wp_replace_policy p s : Inv s -> PolicyAuthentic p key fleet_id -> policy_le (sv_policy s) (Some p) ->
  wp (replace_policy p) (fun r s' => good s s' /\ sv_child s' = None /\ rs_ready (sv_status s') = false /\
    (sv_policy s' = Some p \/ sv_policy s' = sv_policy s) /\ (is_ok r = true -> replaced p s')) s.
Proof.
  intros Hi Hp Hle. unfold replace_policy, not_ready, report. wps. eapply wp_mono; [apply wp_stop|].
  intros r s1 (Hc & Ht & Ep & Es & Ef & El). simpl in *. destruct r as [u|e]; cycle 1.
  { split_and!; try done; [|by rewrite Es|by right]. apply stopped_good; try done. by rewrite Es. }
  wps. eapply wp_mono; [apply wp_persist|]. simpl. intros r s2 (Ep2 & Ec2 & Et2 & Es2 & El2 & Hf2).
  assert (good s s2) as Hg.
  { apply (replaced_good p); try done; [congruence|by rewrite Es2, Es|congruence|].
    destruct Hf2 as [[E _]|(bytes & Hb & E)]; [left; congruence|right; by eapply durable_written]. }
  destruct r as [u2|e]; [|split_and!; [done|congruence|by rewrite Es2, Es|by left|done]].
  destruct Hf2 as [[_ E]|(bytes & Hb & E)]; [done|]. wps.
  match goal with |- good _ ?x /\ _ => set (s3 := x) end.
  assert (durable s3 = Some p) as Hd by by eapply durable_written.
  assert (sv_child s3 = None) as Hc3 by (unfold s3; simpl; congruence).
  assert (rs_ready (sv_status s3) = false) as Hr3 by (unfold s3; simpl; by rewrite Es2, Es).
  assert (good s s3) as Hg3 by (apply (replaced_good p); try done; [unfold s3; simpl; congruence|by right]).
  split_and!; [done|done|done|by left|]. intros _. split_and!; try done. apply Hg3.
Qed.

(** The status names [p]. *)
Definition reports (p : VerifiedPolicy) (s : Supervisor) : Prop :=
  rs_generation (sv_status s) = Some (po_generation (vp_policy p)) /\ rs_digest (sv_status s) = Some (vp_digest p) /\
  rs_expires_at (sv_status s) = Some (po_expires_at (vp_policy p)).
(** The Router runs under [p] and says so. *)
Definition active (p : VerifiedPolicy) (s : Supervisor) : Prop :=
  rs_ready (sv_status s) = true /\ sv_policy s = Some p /\ reports p s.
Lemma reports_core p s s' : same core s s' -> reports p s -> reports p s'.
Proof. unfold same, core, reports. by intros [= _ _ _ -> _ _ _]. Qed.
Lemma has_same_authority_refl p : has_same_authority p p = true.
Proof. unfold has_same_authority. by rewrite Z.eqb_refl, !String.eqb_refl, !bool_decide_eq_true_2. Qed.

Lemma status_good p s st : Inv s -> is_Some (sv_child s) -> sv_policy s = Some p ->
  reports p (s <| sv_status := st |>) -> good s (s <| sv_status := st |>).
Proof.
  intros [Ip If Ic Ir] Hc Hp (Hg & Hd & He). split_and!; [|done|by simpl].
  constructor; try done. intros _. split; [done|]. exists p, p. split_and!; try done; [by apply Ip|].
  apply has_same_authority_refl.
Qed.
Lemma wp_await_ready p tls s : Inv s -> is_Some (sv_child s) -> sv_policy s = Some p -> reports p s ->
  wp (await_ready config p tls) (fun r s' => good s s' /\ sv_policy s' = Some p /\ (is_ok r = true -> active p s')) s.
Proof.
  intros Hi Hc Hp Hr. unfold await_ready. wps; [split; [by apply good_core|done]|].
  eapply wp_mono; [apply wait_ready_asks|]. intros r s1 E.
  assert (same core s s1) as Es by exact E. clear E.
  pose proof (Inv_core _ _ Es Hi) as Hi1. pose proof (reports_core p _ _ Es Hr) as Hr1.
  assert (is_Some (sv_child s1) /\ sv_policy s1 = Some p) as [Hc1 Hp1].
  { unfold same, core in Es. by injection Es as -> -> ? ? ? ? ?. }
  destruct r as [u|e].
  - wps; try (split; [by apply good_core|done]).
    split; [|done].
    eapply good_trans; cycle 1; [apply (status_good p); try done; by eapply Inv_core|by apply good_core].
  - apply wp_bind, wp_assign. cbv beta iota. apply wp_bind.
    pose proof (not_ready_good s1 (RouterError_to_string e) Hi1) as Hn.
    eapply wp_mono; [apply wp_stop_good; [apply Hn|done]|]. intros r s2 (Hs2 & _ & _ & Ep2).
    assert (good s s2) by eauto using good_trans, good_core. assert (sv_policy s2 = Some p) by by rewrite Ep2.
    destruct r; [apply wp_fail|]; done.
Qed.

Lemma wp_launch p value s : render config p = Ok value -> replaced p s ->
  wp (launch config p value) (fun r s' => good s s' /\ sv_policy s' = Some p /\ (is_ok r = true -> active p s')) s.
Proof.
  intros Hv (Hi & Hc & Hr & Hp & Hd & Hrep). unfold launch. apply wp_bind.
  eapply wp_mono; [apply load_tls_asks|]. intros [tls|e] s1 E1; cycle 1.
  { split; [by apply good_core|]. unfold same, core in E1. by injection E1 as -> _ _ _ _ _ _. }
  assert (replaced p s1) as (Hi1 & Hc1 & Hr1 & Hp1 & Hd1 & Hrep1).
  { unfold replaced. split; [by eapply Inv_core|]. unfold same, core in E1. injection E1 as Ep Ec _ Es Ef _ _.
    unfold durable in *. by rewrite Ep, Ec, Es, Ef. }
  assert (good s s1) as Hg1 by by apply good_core.
  apply wp_bind, wp_from. destruct (configure tls value) as [v|e] eqn:Hconf; [|split; [done|done]].
  apply wp_bind. eapply wp_mono; [apply wp_write_config|]. intros r s2 (Ep & Ec & Et & Es & Ef & El & Hcfg).
  assert (durable s2 = Some p) as Hd2 by (unfold durable in *; by rewrite Ef).
  assert (good s1 s2) as Hg2 by (apply stopped_good; congruence).
  assert (good s s2) as Hg by eauto using good_trans. rewrite Hp1 in Ep.
  destruct r as [u|e]; [|done]. wps; try (split; [eapply good_trans; [exact Hg|]; apply good_core; [done|apply Hg]|done]).
  match goal with |- wp _ _ ?x => set (s3 := x) end.
  assert (good s2 s3) as Hg3.
  { split_and!.
    - constructor; simpl.
      + apply Hg.
      + apply Hg.
      + rewrite (Hcfg eq_refl). intros c [= <-]. exists p, tls. split_and!; try done. by exists value.
      + rewrite Es. congruence.
    - unfold guard. change (durable s3) with (durable s2). simpl. rewrite Hd2, fmap_app. apply rtc_once, guard_start.
    - by simpl. }
  eapply wp_mono; [apply (wp_await_ready p tls)|].
  - apply Hg3.
  - simpl. rewrite (Hcfg eq_refl). eauto.
  - simpl. congruence.
  - unfold reports. simpl. by rewrite Es.
  - intros r s4 (Hg4 & Hp4 & Hact). split; [|done]. eauto using good_trans.
Qed.
Lemma wp_activate p s : Inv s -> PolicyAuthentic p key fleet_id -> policy_le (sv_policy s) (Some p) ->
  wp (activate p) (fun r s' => good s s' /\ (sv_policy s' = Some p \/ sv_policy s' = sv_policy s) /\
    (is_ok r = true -> active p s')) s.
Proof.
  intros Hi Hp Hle. unfold Supervisor.activate. apply wp_bind, wp_from.
  destruct (render config p) as [value|e] eqn:Hv; [|split_and!; [by apply good_core|by right|done]].
  apply wp_bind. eapply wp_mono; [by apply (wp_replace_policy p)|]. intros r s1 (Hg & _ & _ & Hpol & Hrep).
  destruct r as [u|e]; [|done]. eapply wp_mono; [by apply wp_launch, Hrep|]. intros r s2 (Hg2 & Hp2 & Hact).
  split_and!; [|by left|done]. eauto using good_trans.
Qed.
Lemma wp_activate_or_report p s : Inv s -> sv_policy s = Some p ->
  wp (activate_or_report config p) (fun _ s' => good s s' /\ sv_policy s' = Some p) s.
Proof.
  intros Hi Hp. unfold activate_or_report. apply wp_bind, wp_attempt.
  eapply wp_mono; [apply wp_activate|]; [done|by apply (inv_policy _ Hi)|by rewrite Hp|].
  rewrite Hp. intros r s1 (Hg & Hp1 & _). assert (sv_policy s1 = Some p) by (by destruct Hp1).
  destruct r as [u|e]; [by apply wp_ret|]. apply wp_assign. split; [|done].
  eapply good_trans; [done|]. apply not_ready_good, Hg.
Qed.

(** *** Observation *)
Definition observed (s s' : Supervisor) : Prop := good s s' /\ sv_policy s' = sv_policy s.
Lemma observed_core s s1 s' : Inv s -> same core s s1 -> (Inv s1 -> observed s1 s') -> observed s s'.
Proof.
  intros Hi E Ho. destruct (Ho (Inv_core _ _ E Hi)) as [Hg Hp]. split; [eauto using good_trans, good_core|].
  rewrite Hp. unfold same, core in E. by injection E as -> _ _ _ _ _ _.
Qed.
Lemma observed_quiet s s' : Inv s -> same core s s' -> observed s s'.
Proof. intros Hi E. eapply observed_core; [done|exact E|]. intros Hi'. split; [by apply good_core|done]. Qed.
Definition unready (message : string) (s : Supervisor) : Supervisor :=
  s <| sv_status := sv_status s <| rs_ready := false |> <| rs_message := message |> |>.
Lemma wp_stop_observed message s s1 : Inv s -> same core s s1 -> wp stop (fun _ s' => observed s s') (unready message s1).
Proof.
  intros Hi E. pose proof (not_ready_good s1 message (Inv_core _ _ E Hi)) as Hn.
  eapply wp_mono; [apply wp_stop_good; [apply Hn|done]|]. intros r s' (Hg & _ & _ & Ep).
  eapply observed_core; [done|exact E|]. intros _. split; [exact (good_trans _ _ _ Hn Hg)|done].
Qed.
Lemma wp_activate_observed p s s1 : Inv s -> same core s s1 -> sv_policy s1 = Some p ->
  wp (activate_or_report config p) (fun _ s' => observed s s') s1.
Proof.
  intros Hi E Hp. eapply wp_mono; [apply wp_activate_or_report; [by eapply Inv_core|done]|].
  intros r s' [Hg Hp']. eapply observed_core; [done|exact E|]. intros _. split; [done|congruence].
Qed.

Lemma wp_observe_running s : Inv s -> wp (observe_running config) (fun _ s' => observed s s') s.
Proof.
  intros Hi. unfold observe_running.
  apply wp_bind, wp_read. apply wp_bind.
  apply (wp_mono _ (fun r s1 => same core s s1 /\ is_ok r = true)); [by wps|].
  intros r s1 [E1 Hr]. destruct r as [expired|e]; [|done].
  wps; try (by apply wp_stop_observed); try (by apply observed_quiet).
  eapply wp_mono; [apply load_tls_asks|]. intros loaded s2 E2.
  assert (same core s s2) as E by (unfold same in *; by rewrite E2, <- E1). clear E1 E2.
  wps; try (by apply wp_stop_observed); try (by apply observed_quiet).
  apply wp_activate_observed; [done|done|].
  match goal with Hp : ok_or _ _ = Ok _ |- _ => by apply ok_or_Ok in Hp end.
Qed.
Lemma wp_observe_idle s : Inv s -> wp (observe_idle config) (fun _ s' => observed s s') s.
Proof.
  intros Hi. unfold observe_idle. wps; try (by apply observed_quiet). by apply wp_activate_observed.
Qed.
Lemma wp_observe s : Inv s -> wp observe (fun _ s' => observed s s') s.
Proof.
  intros Hi. unfold Supervisor.observe, try_wait_child.
  apply wp_bind, wp_read. apply wp_bind.
  apply (wp_mono _ (fun r s1 => same core s s1 /\ is_ok r = true)); [by wps|].
  intros r s1 [E1 Hr]. destruct r as [expired|e]; [|done].
  pose proof (Inv_core _ _ E1 Hi) as Hi1.
  wps; try (by apply wp_stop_observed); try (by apply observed_quiet).
  - eapply observed_core; [done|exact E1|]. intros _. split; [by apply stopped_good|done].
  - eapply wp_mono; [apply wp_observe_running; by eapply Inv_core|]. intros r s2 Ho.
    eapply observed_core; [done|exact E1|]. intros _. eapply observed_core; [exact Hi1| |intros _; exact Ho]. done.
  - eapply wp_mono; [by apply wp_observe_idle|]. intros r s2 Ho.
    eapply observed_core; [done|exact E1|]. intros _. exact Ho.
Qed.

(** *** Refreshing a policy *)
Lemma has_same_authority_iff p q : has_same_authority p q = true <->
  po_version (vp_policy p) = po_version (vp_policy q) /\ po_fleet_id (vp_policy p) = po_fleet_id (vp_policy q) /\
  po_namespace_prefix (vp_policy p) = po_namespace_prefix (vp_policy q) /\
  po_trusted_peer_common_names (vp_policy p) = po_trusted_peer_common_names (vp_policy q) /\
  po_agents (vp_policy p) = po_agents (vp_policy q).
Proof.
  unfold has_same_authority. rewrite !andb_true_iff, Z.eqb_eq, !String.eqb_eq, !bool_decide_eq_true. tauto.
Qed.
(** Policies with the same authority configure a Router alike. *)
Lemma configured_same_authority p q t c : has_same_authority p q = true -> configured q t c -> configured p t c.
Proof.
  rewrite has_same_authority_iff. intros (_ & _ & E1 & E2 & E3) (v & Hv & Hc). exists v. split; [|done].
  unfold render, access_control in *. by rewrite E1, E2, E3.
Qed.

(** While a refresh waits for storage, the process is left alone or stopped. *)
Definition held (s s' : Supervisor) : Prop :=
  sv_policy s' = sv_policy s /\ sv_policy_file s' = sv_policy_file s /\ sv_started s' = sv_started s /\
  (sv_child s' = sv_child s /\ sv_tls s' = sv_tls s /\ sv_status s' = sv_status s \/
   sv_child s' = None /\ rs_ready (sv_status s') = false).
Definition stopped (s : Supervisor) : Prop := sv_child s = None /\ rs_ready (sv_status s) = false.
Lemma held_core s s' : same core s s' -> held s s'.
Proof. unfold same, core, held. intros [= -> -> -> -> -> _ ->]. auto 10. Qed.
Lemma held_trans s s1 s2 : held s s1 -> held s1 s2 -> held s s2.
Proof.
  unfold held. intros (Ep & Ef & El & H12) (Ep' & Ef' & El' & H23). rewrite Ep', Ef', El'. split_and!; try done.
  destruct H12 as [(? & ? & ?)|[? ?]], H23 as [(? & ? & ?)|[? ?]]; [left; split_and!|right; split..]; congruence.
Qed.
Lemma held_stopped s s' : stopped s -> held s s' -> stopped s'.
Proof. unfold held, stopped. intros [Hc Hr] (_ & _ & _ & [(-> & _ & ->)|H12]); auto. Qed.
Lemma wp_refresh_tick previous failure s :
  wp (refresh_tick previous failure) (fun r s' => held s s' /\
    exists f, r = Ok f /\ (f = failure \/ stopped s')) s.
Proof.
  unfold refresh_tick. apply wp_bind, wp_ask. apply wp_bind.
  apply (wp_mono _ (fun r s1 => same core s s1 /\ exists b, r = Ok b)); [by wps; (split; [done|eauto])|].
  intros r s1 [E (b & ->)]. wps; [|split; [by apply held_core|]; eauto].
  eapply wp_mono; [apply wp_stop|]. intros r s2 (Hc & _ & Ep & Es & Ef & El). simpl in *.
  assert (stopped s2) as Hs by (split; [done|by rewrite Es]).
  assert (held s s2).
  { eapply held_trans; [by apply held_core|]. unfold held. split_and!; try done. by right. }
  destruct r; apply wp_ret; eauto 10.
Qed.
Lemma wp_refresh_ticks n : forall previous failure s,
  (is_Some failure -> stopped s) ->
  wp (refresh_ticks n previous failure) (fun r s' => held s s' /\ exists f, r = Ok f /\ (is_Some f -> stopped s')) s.
Proof.
  induction n as [|n IH]; intros previous failure s Hf; simpl.
  - apply wp_ret. split; [by apply held_core|]. eauto.
  - apply wp_bind. eapply wp_mono; [apply wp_refresh_tick|]. intros r s1 [Hh (f & -> & Hff)].
    eapply wp_mono; [apply IH|].
    + intros Hsome. destruct Hff as [->|]; [|done]. eapply held_stopped; [by apply Hf|done].
    + intros r s2 [Hh2 Hr]. split; [by eapply held_trans|done].
Qed.

(** The state once a refreshed policy is durable. *)
Lemma refreshed_good previous p s s' : Inv s -> sv_policy s = Some previous -> PolicyAuthentic p key fleet_id ->
  stamp_le (stamp previous) (stamp p) -> has_same_authority p previous = true ->
  sv_policy s' = Some p -> sv_started s' = sv_started s -> durable s' = Some p ->
  sv_child s' = sv_child s /\ sv_tls s' = sv_tls s /\ sv_status s' = sv_status s \/ stopped s' -> good s s'.
Proof.
  intros Hi Hprev Hp Hle Hsame Ep El Hd [(Ec & Et & Es)|[Hc Hr]]; cycle 1.
  { apply (replaced_good p); try done; [rewrite Hprev; by exists p|by right]. }
  split_and!.
  - constructor; rewrite ?Ep, ?Ec, ?Et, ?Es, ?Hd.
    + by intros q [= <-].
    + intros _. exists p, p. by split_and!.
    + intros c Hc. destruct (inv_child _ Hi c Hc) as (q & t & Hq & Ht & Hconf & _). exists p, t. split_and!; try done.
      eapply configured_same_authority; [exact Hsame|]. congruence.
    + intros Hr. destruct (inv_ready _ Hi Hr) as (Hc & q & o & Hq & Ho & Hrep1 & Hrep2 & Hrep3 & Hlo & Hso).
      split; [done|]. exists p, o. rewrite Hprev in Hq. injection Hq as <-. split_and!; try done; [by trans (stamp previous)|].
      rewrite has_same_authority_iff in *. naive_solver congruence.
  - unfold guard. rewrite El, Hd. simpl. apply rtc_once, guard_commit.
    destruct (durable s) as [d|] eqn:Ed; simpl; [|done]. assert (is_Some (sv_policy_file s)) as Hfile.
    { unfold durable in Ed. destruct (sv_policy_file s); [eauto|done]. }
    destruct (inv_file _ Hi Hfile) as (d' & q & Hd' & Hq & Hdq). simplify_eq. by trans (stamp previous).
  - rewrite Hprev, Ep. by exists p.
Qed.
Lemma wp_refresh previous p s : Inv s -> sv_policy s = Some previous -> PolicyAuthentic p key fleet_id ->
  stamp_le (stamp previous) (stamp p) -> has_same_authority p previous = true ->
  wp (refresh p) (fun r s' => good s s' /\ (is_ok r = true -> active p s')) s.
Proof.
  intros Hi Hprev Hp Hle Hsame. unfold Supervisor.refresh. apply wp_bind, wp_read. rewrite Hprev.
  apply wp_bind, wp_from. cbn [ok_or]. apply wp_bind, wp_assign, wp_bind, wp_ask, wp_bind.
  eapply wp_mono; [apply wp_refresh_ticks; by intros []|]. intros r s1 [Hheld (failure & -> & Hfail)].
  apply wp_bind, wp_attempt. eapply wp_mono; [apply wp_persist|].
  intros result s2 (Ep & Ec & Et & Es & El & Hf). destruct Hheld as (Ep1 & Ef1 & El1 & Hst). simpl in *.
  assert (sv_policy s2 = Some p) as Hp2 by congruence. assert (sv_started s2 = sv_started s) as Hl2 by congruence.
  assert (forall s3, stopped s3 -> sv_policy s3 = Some p -> sv_started s3 = sv_started s ->
    sv_policy_file s3 = sv_policy_file s2 -> good s s3) as Hstopped.
  { intros s3 [Hc3 Hr3] Hp3 Hl3 Hf3. apply (replaced_good p); try done; [rewrite Hprev; by exists p|].
    destruct Hf as [[E _]|(bytes & Hb & E)]; [left; congruence|right; eapply durable_written; [done|done|congruence]]. }
  destruct failure as [error|].
  { apply wp_fail. split; [|done]. apply Hstopped; try done. destruct (Hfail (mk_is_Some _ _ eq_refl)). by split; congruence. }
  destruct result as [u|error]; cycle 1.
  { apply wp_bind, wp_assign. cbv beta iota. apply wp_bind. eapply wp_mono; [apply wp_stop|].
    intros r s3 (Hc3 & _ & Ep3 & Es3 & Ef3 & El3). simpl in *.
    assert (good s s3) by (apply Hstopped; try congruence; split; [done|by rewrite Es3]). destruct r; [apply wp_fail|]; done. }
  destruct Hf as [[_ E]|(bytes & Hb & E)]; [done|].
  assert (durable s2 = Some p) as Hd2 by by eapply durable_written.
  assert (good s s2) as Hg2.
  { apply (refreshed_good previous p); try done. destruct Hst as [(? & ? & ?)|[? ?]]; [left|right]; repeat split; congruence. }
  apply wp_bind. eapply wp_mono; [apply wp_observe, Hg2|]. intros r s3 [Hg3 Hp3].
  assert (good s s3) as Hg by eauto using good_trans. destruct r as [u3|e]; [|done].
  rewrite Hp2 in Hp3. apply wp_bind, wp_ask, wp_bind, wp_read.
  assert (forall s4, same core s3 s4 -> wp (activate p) (fun r s' => good s s' /\ (is_ok r = true -> active p s')) s4) as Hact.
  { intros s4 E4. pose proof (good_core _ _ E4 (proj1 Hg)) as Hg4. eapply wp_mono; [apply wp_activate|]; [apply Hg4|done| |].
    - unfold same, core in E4. injection E4 as -> _ _ _ _ _ _. rewrite Hp3. by exists p.
    - intros r s5 (Hg5 & _ & Ha). split; [|done]. eauto using good_trans. }
  destruct (_ || _) eqn:Hcond; [by apply Hact|].
  apply wp_bind, wp_ask, wp_bind, wp_from. destruct (require_current p _); cycle 1.
  { split; [|done]. eapply good_trans; [exact Hg|]. apply good_core; [done|apply Hg]. }
  apply orb_false_iff in Hcond as [_ Hready]. apply negb_false_iff in Hready.
  destruct (inv_ready _ (proj1 Hg) Hready) as [Hc3 _]. wps.
  match goal with |- good _ ?x /\ _ => set (s4 := x) end.
  split; [|by intros _]. eapply good_trans; [exact Hg|].
  assert (good s3 (s3 <| sv_status := sv_status s4 |>)) as Hg4 by (apply (status_good p); try done; apply Hg).
  eapply good_trans; [exact Hg4|]. apply good_core; [done|apply Hg4].
Qed.

(** *** Applying a policy *)
Lemma advances_le p q b : advances p q = Ok b -> stamp_le (stamp q) (stamp p) /\ (b = false -> stamp q = stamp p).
Proof.
  unfold advances, stamp_le, stamp. destruct (Z.compare_spec (po_generation (vp_policy p)) (po_generation (vp_policy q))) as [E|E|E].
  - destruct (String.eqb_spec (vp_digest p) (vp_digest q)) as [Ed|]; [|done]. intros [= <-]. rewrite E, Ed. auto.
  - done.
  - intros [= <-]. split; [left; simpl; lia|done].
Qed.
(** A Router runs under the authority of a policy with the stamp of [p], which is the durable one. *)
Definition enforces (p : VerifiedPolicy) (s : Supervisor) : Prop :=
  exists p' t c, sv_policy s = Some p' /\ stamp p' = stamp p /\ durable s = Some p' /\
    sv_tls s = Some t /\ sv_child s = Some c /\ configured p' t c.
Lemma ready_enforces p s : Inv s -> rs_ready (sv_status s) = true ->
  (exists p', sv_policy s = Some p' /\ stamp p' = stamp p) -> enforces p s.
Proof.
  intros Hi Hr (p' & Hp' & Hst). destruct (inv_ready _ Hi Hr) as [[c Hc] _].
  destruct (inv_child _ Hi c Hc) as (q & t & Hq & Ht & Hconf & Hd). exists p', t, c. split_and!; try done; congruence.
Qed.
Lemma wp_apply_again p s : Inv s ->
  wp (apply_again config p) (fun r s' => observed s s' /\ (is_ok r = true -> policy_le (sv_policy s) (Some p)) /\
    forall status, r = Ok (Some status) -> status = sv_status s' /\ rs_ready status = true /\ enforces p s') s.
Proof.
  intros Hi. unfold apply_again. apply wp_bind, wp_read. destruct (sv_policy s) as [q|] eqn:Hq; cycle 1.
  { apply wp_ret. split_and!; [by apply observed_quiet|done|done]. }
  apply wp_bind, wp_from. destruct (advances p q) as [newer|e] eqn:Hadv; cycle 1.
  { split_and!; [by apply observed_quiet|done|done]. }
  apply advances_le in Hadv as [Hle Heq].
  assert (policy_le (Some q) (Some p)) as Hpl by by exists p.
  apply wp_bind, wp_read. destruct (newer || _) eqn:Hcond.
  { apply wp_ret. split_and!; [by apply observed_quiet|done|done]. }
  apply orb_false_iff in Hcond as [-> _].
  apply wp_bind. eapply wp_mono; [by apply wp_observe|]. intros r s1 Ho. destruct r as [u|e]; [|done].
  apply wp_bind, wp_read, wp_ret. split_and!; [done|done|].
  destruct (rs_ready (sv_status s1)) eqn:Hr; [|done]. intros status [= <-]. split_and!; [done|done|].
  apply ready_enforces; [apply Ho|done|]. exists q. split; [destruct Ho as [_ ->]; done|by apply Heq].
Qed.
Lemma wp_apply signed s : Inv s ->
  wp (apply signed) (fun r s' => good s s' /\ forall status, r = Ok status ->
    exists p, SignedPolicy_verify signed key fleet_id = Ok p /\ status = sv_status s' /\ rs_ready status = true /\
      enforces p s') s.
Proof.
  intros Hi. unfold Supervisor.apply. apply wp_bind, wp_from.
  destruct (SignedPolicy_verify signed key fleet_id) as [p|e] eqn:Hv; [|split; [by apply good_core|done]].
  destruct (proj1 (SignedPolicy_verify_Ok _ _ _ _) Hv) as [_ Hp].
  apply wp_bind, wp_ask. apply wp_bind, wp_from.
  set (s0 := s <| sv_asked := S (sv_asked s) |>). assert (good s s0) as Hg0 by by apply good_core.
  destruct (require_current p _) as [u|e]; [|done].
  apply wp_bind. eapply wp_mono; [apply wp_apply_again, Hg0|]. intros r s1 ([Hg1 Hp1] & Hle & Hagain).
  assert (good s s1) as Hg by eauto using good_trans. destruct r as [[status|]|e]; [| |done].
  { apply wp_ret. split; [done|]. intros st [= <-]. exists p. by split; [|apply Hagain]. }
  apply wp_bind. eapply wp_mono; [apply wp_observe, Hg|]. intros r s2 [Hg2 Hp2].
  assert (good s s2) as Hgs by eauto using good_trans. destruct r as [u2|e]; [|done].
  assert (policy_le (sv_policy s2) (Some p)) as Hle2 by (rewrite Hp2, Hp1; by apply Hle).
  apply wp_bind, wp_read, wp_bind, wp_read, wp_bind.
  apply (wp_mono _ (fun r s' => good s2 s' /\ (is_ok r = true -> active p s'))).
  - destruct (rs_ready (sv_status s2) && _) eqn:Hcond.
    + apply andb_true_iff in Hcond as [_ Hsame]. destruct (sv_policy s2) as [q|] eqn:Hq; [|done].
      destruct Hle2 as (p' & [= <-] & Hqp). apply (wp_refresh q); [apply Hgs|done..].
    + eapply wp_mono; [apply wp_activate; [apply Hgs|done|done]|]. intros r s3 (Hg3 & _ & Ha). by split.
  - intros r s3 [Hg3 Ha]. assert (good s s3) as Hgs3 by eauto using good_trans. destruct r as [u3|e]; [|done].
    apply wp_read. split; [done|]. intros st [= <-]. destruct (Ha eq_refl) as (Hr & Hp3 & _).
    exists p. split_and!; try done. apply ready_enforces; [apply Hgs3|done|]. by exists p.
Qed.

(** *** Starting over *)
Lemma wp_start s : Inv s -> wp (start config) (fun _ s' => observed s s') s.
Proof. intros Hi. unfold start. wps; try (by apply observed_quiet). by apply wp_activate_observed. Qed.
(** A restart continues from the durable policy. *)
Lemma wp_new file s : Inv s ->
  wp (new key fleet_id config file) (fun r s' => Inv s' /\ guard s' = guard s /\
    (is_ok r = true -> sv_policy s' = durable s /\ sv_child s' = None /\ rs_ready (sv_status s') = false)) s.
Proof.
  intros Hi. unfold new. wps; try done.
  match goal with Hl : store_load _ _ _ = Ok ?o |- _ => assert (o = durable s) as -> end.
  { match goal with Hl : store_load _ _ _ = Ok _ |- _ => rename Hl into Hload end.
    unfold store_load, durable in *. destruct file as [u|e]; simpl in *; [|done].
    destruct (sv_policy_file s) as [bytes|]; simpl in *; [|by injection Hload as <-].
    destruct (MAX_POLICY_BYTES <? str_len bytes); [done|].
    destruct (signed_policy_from_slice bytes) as [signed|]; simpl in *; [|done].
    destruct (SignedPolicy_verify signed key fleet_id); simpl in *; [|done]. by injection Hload as <-. }
  split_and!; [|done|done]. constructor; simpl; try done.
  - intros p Hp. unfold durable in Hp.
    destruct (sv_policy_file s) as [bytes|]; simpl in Hp; [|done].
    destruct (signed_policy_from_slice bytes) as [signed|]; simpl in Hp; [|done].
    destruct (SignedPolicy_verify signed key fleet_id) as [v|] eqn:Hv; [|done]. injection Hp as <-.
    by apply SignedPolicy_verify_Ok in Hv as [_ ?].
  - intros Hfile. destruct (inv_file _ Hi Hfile) as (d & _ & Hd & _). exists d, d. by split_and!.
Qed.
End Correctness.
