(* ===== verification/RouterLife.v ===== *)
(** * The life of a Router

    What holds of a Router Supervisor over any sequence of boots, timer ticks, policies and shutdowns: the refinement of
    the abstract policy guard, the meaning of readiness and of an acknowledgement, expiry, termination, and progress in
    a healthy environment. *)
From S2P Require Import Prelude Json InvitationCode Security FleetPolicy AccessControl DataTls Supervisor.

Section Life.
Context `{Encoding, Sha256, Ed25519, HexDecode, Rfc3339Auto, Canonicalizer}.
Context `{ZenohConfig, Certificates, Base64Standard, Environment, SignedPolicyCodec, !SignedPolicyCodecSpec}.
Context (key fleet_id : string) (config : RouterConfig).
Notation Inv := (Inv key fleet_id config).
Notation durable := (durable key fleet_id).
Notation guard := (guard key fleet_id).

(** A step of the Supervisor, whatever it returns.  A boot may come at any point: the process before it is gone, and
    what it had written stays. *)
Inductive router_step : Supervisor -> Supervisor -> Prop :=
| router_boot file r s s' : new key fleet_id config file s = Some (r, s') -> router_step s s'
| router_start r s s' : start config s = Some (r, s') -> router_step s s'
| router_tick r s s' : observe config s = Some (r, s') -> router_step s s'
| router_apply signed r s s' : apply key fleet_id config signed s = Some (r, s') -> router_step s s'
| router_shutdown message r s s' : (_ ← not_ready message; stop) s = Some (r, s') -> router_step s s'.
(** A Router as installed: nothing stored, nothing started. *)
Definition installed (s : Supervisor) : Prop :=
  sv_policy s = None /\ sv_child s = None /\ rs_ready (sv_status s) = false /\ sv_policy_file s = None /\ sv_started s = [].
Definition reachable (s : Supervisor) : Prop := exists s0, installed s0 /\ rtc router_step s0 s.

Lemma installed_inv s : installed s -> Inv s /\ guard s = mkGuard None [].
Proof.
  intros (Hp & Hc & Hr & Hf & Hl). split.
  - constructor; [congruence| |congruence|congruence]. rewrite Hf. by intros [].
  - unfold Supervisor.guard, Supervisor.durable. by rewrite Hf, Hl.
Qed.
Lemma router_step_inv s s' : router_step s s' -> Inv s -> Inv s' /\ rtc guard_step (guard s) (guard s').
Proof.
  destruct 1 as [file r s s' E|r s s' E|r s s' E|signed r s s' E|message r s s' E]; intros Hi.
  - destruct (wp_new key fleet_id config file s Hi r s' E) as (Hi' & Hg & _). split; [done|by rewrite Hg].
  - destruct (wp_start key fleet_id config s Hi r s' E) as [(Hi' & Hg & _) _]. done.
  - destruct (wp_observe key fleet_id config s Hi r s' E) as [(Hi' & Hg & _) _]. done.
  - destruct (wp_apply key fleet_id config signed s Hi r s' E) as [(Hi' & Hg & _) _]. done.
  - assert (wp (_ ← not_ready message; stop) (fun _ s' => Inv s' /\ rtc guard_step (guard s) (guard s')) s) as Hw; [|by apply Hw in E].
    apply wp_bind, wp_assign. pose proof (not_ready_good key fleet_id config s message Hi) as Hn.
    eapply wp_mono; [apply (wp_stop_good key fleet_id config); [apply Hn|done]|]. intros r1 s1 (Hg & _).
    destruct (good_trans key fleet_id config _ _ _ Hn Hg) as (Hi' & Hg' & _). done.
Qed.
Lemma router_steps_inv s s' : rtc router_step s s' -> Inv s -> Inv s' /\ rtc guard_step (guard s) (guard s').
Proof.
  induction 1 as [|s0 s1 s2 Hstep _ IH]; intros Hi; [by split|]. destruct (router_step_inv _ _ Hstep Hi) as [Hi1 Hg].
  destruct (IH Hi1) as [Hi2 Hg2]. split; [done|by etrans].
Qed.
Lemma reachable_inv s : reachable s -> Inv s /\ rtc guard_step (mkGuard None []) (guard s).
Proof.
  intros (s0 & Hinst & Hsteps). destruct (installed_inv s0 Hinst) as [Hi <-]. clear Hinst.
  by apply router_steps_inv.
Qed.

(** The configuration document is determined by the policy and the credentials. *)
Lemma configured_value p t c : configured config p t c -> c = config_value config (inline_tls t) (access_control p).
Proof.
  intros (v & Hv & Hc). unfold render, configure in *. res_inv Hv.
  destruct (zenoh_config_error (config_value _ _ _)); [done|]. injection Hv as <-. cbv zeta in Hc.
  destruct (zenoh_config_error _); [done|]. by injection Hc as <-.
Qed.

(** C5: the Supervisor refines the policy guard.  From every state a Router gets into, over every further sequence of
    boots, ticks, signed policies and shutdowns, and whatever storage, clocks, credentials and processes answer, the stored
    policy and the log of started Routers go through steps of the abstract guard: the stored policy only moves forward (a
    higher generation, or the same generation with the same digest), the log only grows, in the order of generations,
    and every Router that is started in between is started under a policy that is not behind the one stored before
    and not ahead of the one stored after. *)
Theorem supervisor_refines_policy_guard s s' : reachable s -> rtc router_step s s' ->
  rtc guard_step (guard s) (guard s') /\
  (forall d, durable s = Some d -> exists d', durable s' = Some d' /\ stamp_le (stamp d) (stamp d')) /\
  Sorted stamp_le (stamp <$> sv_started s') /\
  exists later, stamp <$> sv_started s' = ((stamp <$> sv_started s) ++ later)%list /\ forall st, st ∈ later ->
    (forall d, durable s = Some d -> stamp_le (stamp d) st) /\ exists d', durable s' = Some d' /\ stamp_le st (stamp d').
Proof.
  intros [Hi Hg]%reachable_inv Hsteps. destruct (router_steps_inv _ _ Hsteps Hi) as [_ Hg'].
  destruct (guard_steps_inv _ _ (transitivity Hg Hg')) as [Hsorted _]; [split; [constructor|set_solver]|].
  destruct (guard_steps_forward _ _ Hg') as [Hd (later & Hl & Hs)]. cbn [Supervisor.guard gd_durable gd_started] in *.
  assert (forall st, (exists d', stamp <$> durable s' = Some d' /\ stamp_le st d') ->
    exists d', durable s' = Some d' /\ stamp_le st (stamp d')) as Hafter.
  { intros st (d' & E & Hle). destruct (durable s') as [v|]; [|done]. injection E as <-. eauto. }
  split_and!; [done| |done|].
  - intros d E. apply Hafter, Hd. by rewrite E.
  - exists later. split; [done|]. intros st Hst. destruct (Hs st Hst) as [Hbefore Hle]. split; [|by apply Hafter].
    intros d E. apply Hbefore. by rewrite E.
Qed.

(** C7: what runs is what is stored.  A running Router process was started with exactly the access control of the
    Supervisor's policy and the credentials it monitors; that policy is the stored one, valid for the fleet and signed by
    the trusted key.  And when a status request is answered ready, a process runs, and the policy the status names is
    signed by the trusted key, has not expired, and grants exactly what the running process enforces. *)
Theorem running_router_enforces_stored_policy s : reachable s ->
  (forall c, sv_child s = Some c -> exists p t, sv_policy s = Some p /\ durable s = Some p /\
     PolicyAuthentic p key fleet_id /\ sv_tls s = Some t /\ c = config_value config (inline_tls t) (access_control p)) /\
  (forall now, rs_ready (handle_status s now) = true -> exists p q t, sv_policy s = Some p /\ PolicyAuthentic q key fleet_id /\
     rs_generation (handle_status s now) = Some (po_generation (vp_policy q)) /\
     rs_digest (handle_status s now) = Some (vp_digest q) /\ now < po_expires_at (vp_policy q) /\
     access_control q = access_control p /\
     sv_child s = Some (config_value config (inline_tls t) (access_control p))).
Proof.
  intros [Hi _]%reachable_inv. split.
  - intros c Hc. destruct (inv_child _ _ _ _ Hi c Hc) as (p & t & Hp & Ht & Hconf & Hd).
    exists p, t. split_and!; try done; [by apply (inv_policy _ _ _ _ Hi)|by apply configured_value].
  - intros now Hr. simpl in Hr. apply andb_true_iff in Hr as [Hr Hexp].
    destruct (inv_ready _ _ _ _ Hi Hr) as ([c Hc] & p & q & Hp & Hq & Hg & Hd & He & _ & Hsame).
    destruct (inv_child _ _ _ _ Hi c Hc) as (p' & t & Hp' & Ht & Hconf & _). rewrite Hp in Hp'. injection Hp' as <-.
    rewrite He in Hexp. apply Z.ltb_lt in Hexp. exists p, q, t. split_and!; try done.
    + apply has_same_authority_iff in Hsame as (_ & _ & E1 & E2 & E3). unfold access_control. by rewrite E1, E2, E3.
    + by rewrite Hc, (configured_value p t c Hconf).
Qed.

Lemma apply_enforces s signed status s' : reachable s -> apply key fleet_id config signed s = Some (Ok status, s') ->
  exists p p' t, SignedPolicy_verify signed key fleet_id = Ok p /\ stamp p' = stamp p /\ rs_ready status = true /\
    sv_policy s' = Some p' /\ durable s' = Some p' /\ PolicyAuthentic p' key fleet_id /\
    sv_child s' = Some (config_value config (inline_tls t) (access_control p')).
Proof.
  intros [Hi _]%reachable_inv E. destruct (wp_apply key fleet_id config signed s Hi _ _ E) as [(Hi' & _) Hok].
  destruct (Hok status eq_refl) as (p & Hv & _ & Hr & p' & t & c & Hp' & Hst & Hd & Ht & Hc & Hconf).
  exists p, p', t. split_and!; try done; [by apply (inv_policy _ _ _ _ Hi')|by rewrite Hc, (configured_value p' t c Hconf)].
Qed.
(** An acknowledgement is backed by enforcement.  When applying a signed policy returns a status, the policy verified
    against the trusted key, the status is ready, and a process runs under the stored policy, which has the generation
    and the digest of the one that was sent. *)
Theorem acknowledged_policy_is_enforced s signed status s' : reachable s ->
  apply key fleet_id config signed s = Some (Ok status, s') ->
  exists p p' t, SignedPolicy_verify signed key fleet_id = Ok p /\ stamp p' = stamp p /\ rs_ready status = true /\
    sv_policy s' = Some p' /\ durable s' = Some p' /\
    sv_child s' = Some (config_value config (inline_tls t) (access_control p')).
Proof.
  intros Hr E. destruct (apply_enforces _ _ _ _ Hr E) as (p & p' & t & Hv & Hst & Hok & Hp & Hd & _ & Hc).
  by exists p, p', t.
Qed.

(** ** Expiry *)
(** An expired policy stops the Router.  A tick of the Supervisor at or after the expiry of its policy leaves no
    Router process and no readiness behind, whatever the process, storage or the credentials do. *)
Theorem expired_policy_stops_router s p r s' : sv_policy s = Some p ->
  po_expires_at (vp_policy p) <= utc_now (sv_asked s) -> observe config s = Some (r, s') ->
  sv_child s' = None /\ rs_ready (sv_status s') = false /\ sv_policy s' = Some p.
Proof.
  intros Hp Hexp. assert (require_current p (utc_now (sv_asked s)) = Err NotCurrent) as Hnc.
  { unfold require_current. by rewrite (proj2 (Z.leb_le _ _) Hexp), orb_true_r. }
  revert r s'. change (wp (observe config) (fun _ s' => sv_child s' = None /\ rs_ready (sv_status s') = false /\ sv_policy s' = Some p) s).
  unfold observe. apply wp_bind, wp_read. rewrite Hp. apply wp_bind, wp_bind, wp_ask. rewrite Hnc.
  apply wp_ret. simpl. wps. eapply wp_mono; [apply wp_stop|].
  intros r s' (Hc & _ & Ep & Es & _). by rewrite Ep, Es.
Qed.

(** ** Termination *)
(** [tokio::time::Instant] never goes back. *)
Class MonotoneClock : Prop := instant_monotone : forall n, instant_now n <= instant_now (S n).
Context `{!MonotoneClock}.
Definition halts {A} (m : prog A) (s : Supervisor) : Prop := exists r s', m s = Some (r, s').
Definition total {A} (m : prog A) : Prop := forall s, halts m s.
Definition clock (s : Supervisor) : Z := instant_now (sv_asked s) + sv_slept s.

Lemma halts_bind {A B} (m : prog A) (f : A -> prog B) s : halts m s ->
  wp m (fun r s' => match r with Ok a => halts (f a) s' | Err _ => True end) s -> halts (m ≫= f) s.
Proof.
  intros (r & s1 & E) Hf. specialize (Hf r s1 E). unfold halts, mbind, prog_bind. rewrite E. destruct r; eauto.
Qed.
Lemma total_bind {A B} (m : prog A) (f : A -> prog B) : total m -> (forall a, total (f a)) -> total (m ≫= f).
Proof. intros Hm Hf s. apply halts_bind; [apply Hm|]. intros [a|e] s' _; [apply Hf|done]. Qed.
Lemma total_ret {A} (a : A) : total (mret a). Proof. intros s. by exists (Ok a), s. Qed.
Lemma total_fail {A} e : total (fail (A:=A) e). Proof. intros s. by exists (Err e), s. Qed.
Lemma total_from {A} (r : RouterResult A) : total (from r). Proof. intros s. by exists r, s. Qed.
Lemma total_read {A} (f : Supervisor -> A) : total (read f). Proof. intros s. by eexists _, _. Qed.
Lemma total_assign f : total (assign f). Proof. intros s. by eexists _, _. Qed.
Lemma total_ask {A} (f : nat -> A) : total (ask f). Proof. intros s. by eexists _, _. Qed.
Lemma total_monotonic : total monotonic. Proof. intros s. by eexists _, _. Qed.
Lemma halts_attempt {A} (m : prog A) s : halts m s -> halts (attempt m) s.
Proof. intros (r & s' & E). unfold halts, attempt. rewrite E. eauto. Qed.
Lemma total_attempt {A} (m : prog A) : total m -> total (attempt m).
Proof. intros Hm s. apply halts_attempt, Hm. Qed.
Hint Resolve total_ret total_fail total_from total_read total_assign total_ask total_monotonic : total.
Ltac totals :=
  repeat (cbv zeta; lazymatch goal with
  | |- forall _, _ => intros ?
  | |- total (mbind _ _) => apply total_bind
  | |- total (attempt _) => apply total_attempt
  | |- total (if ?b then _ else _) => destruct b
  | |- total (match ?x with _ => _ end) => destruct x
  | |- total _ => solve [eauto 2 with total nocore]
  end).
Lemma total_try_wait : total try_wait_child. Proof. unfold try_wait_child. totals. Qed.
Lemma total_utc : total utc. Proof. unfold utc. totals. Qed.
Lemma total_not_ready m : total (not_ready m). Proof. unfold not_ready. totals. Qed.
Lemma total_report p : total (report p). Proof. unfold report. totals. Qed.
Lemma total_store_write f : total (store_write f). Proof. unfold store_write. totals. Qed.
Lemma total_persist p : total (persist p).
Proof. unfold persist. destruct (canonical_to_vec _); [apply total_store_write|totals]. Qed.
Hint Resolve total_try_wait total_utc total_not_ready total_report total_store_write total_persist : total.
Lemma total_stop : total stop. Proof. unfold stop. totals. Qed.
Lemma total_load_tls : total (load_tls config). Proof. unfold load_tls. totals. Qed.
Lemma total_probe_once d f : total (probe_once config d f). Proof. unfold probe_once. totals. Qed.
Hint Resolve total_stop total_load_tls total_probe_once : total.

(** A failed probe costs time: the attempt began before the deadline. *)
Lemma wp_probe_once deadline failure s : wp (probe_once config deadline failure)
  (fun r s' => forall f, r = Ok f -> clock s < deadline /\ (sv_asked s <= sv_asked s')%nat /\ sv_slept s' = sv_slept s) s.
Proof.
  unfold probe_once, try_wait_child, clock. apply wp_bind, wp_monotonic.
  destruct (deadline <=? _) eqn:Hd; [by apply wp_fail|]. apply Z.leb_gt in Hd.
  wps; try done; (intros f _; simpl; split_and!; [done|lia|done]).
Qed.
Lemma instant_now_mono n m : (n <= m)%nat -> instant_now n <= instant_now m.
Proof. induction 1; [lia|]. etrans; [done|apply instant_monotone]. Qed.
Lemma wait_ready_halts fuel deadline : forall failure s,
  deadline - clock s <= Z.of_nat fuel * milliseconds 100 -> halts (wait_ready config (S fuel) deadline failure) s.
Proof.
  induction fuel as [|fuel IH]; intros failure s Hs; cbn [wait_ready].
  all: apply halts_bind; [apply total_probe_once|]; intros r s1 E; pose proof (wp_probe_once _ _ _ _ _ E) as Hp; clear E.
  all: destruct r as [[f|]|e]; [|apply total_ret|done]; destruct (Hp _ eq_refl) as (Hd & Ha & Hsl).
  - unfold milliseconds in *. lia.
  - apply halts_bind; [apply total_assign|]. intros r s2 E. injection E as <- <-. apply IH.
    pose proof (instant_now_mono _ _ Ha). unfold clock, milliseconds in *. simpl. lia.
Qed.
Lemma total_await_ready p tls : total (await_ready config p tls).
Proof.
  intros s. unfold await_ready. apply halts_bind; [apply total_utc|]. intros r s1 E. injection E as <- <-.
  set (s1 := s <| sv_asked := S (sv_asked s) |>). cbv zeta. destruct (_ <? 0) eqn:Hrem; [apply total_fail|].
  apply halts_bind; [apply total_monotonic|]. intros r s2 E. injection E as <- <-.
  apply halts_bind; [|intros r s3 _; destruct r as [[u|e]|e]; [|  |done]].
  - apply halts_attempt, (wait_ready_halts 101). pose proof (instant_monotone (sv_asked s1)).
    unfold clock, milliseconds, START_TIMEOUT, seconds, s1 in *. simpl in *. lia.
  - match goal with |- halts ?m _ => assert (total m) as Ht by totals; apply Ht end.
  - match goal with |- halts ?m _ => assert (total m) as Ht by totals; apply Ht end.
Qed.
Hint Resolve total_await_ready : total.
Lemma total_activate p : total (activate config p).
Proof. unfold activate, replace_policy, launch. totals. Qed.
Hint Resolve total_activate : total.
Lemma total_activate_or_report p : total (activate_or_report config p).
Proof. unfold activate_or_report. totals. Qed.
Hint Resolve total_activate_or_report : total.
Lemma total_observe : total (observe config).
Proof. unfold observe, observe_running, observe_idle. totals. Qed.
Hint Resolve total_observe : total.
Lemma total_refresh_ticks n : forall p f, total (refresh_ticks n p f).
Proof. induction n as [|n IH]; intros p f; simpl; [totals|]. apply total_bind; [unfold refresh_tick; totals|]. intros a. apply IH. Qed.
Hint Resolve total_refresh_ticks : total.
Lemma total_refresh p : total (refresh config p).
Proof. unfold refresh. totals. Qed.
Hint Resolve total_refresh : total.
Lemma total_apply signed : total (apply key fleet_id config signed).
Proof. unfold apply, apply_again. totals. Qed.
Hint Resolve total_apply : total.
Lemma total_start : total (start config).
Proof. unfold start. totals. Qed.
Lemma total_run_events events : total (run_events key fleet_id config events).
Proof. induction events as [|[|signed] events IH]; simpl; [totals| |]; repeat (apply total_bind; [totals|intros ?]); totals; apply IH. Qed.
Hint Resolve total_start total_run_events : total.
Lemma total_new file : total (new key fleet_id config file).
Proof. unfold new. totals. Qed.

(** C14: the Supervisor never hangs.  From every state and whatever the environment answers (with a clock that does not go
    back), running the Supervisor over any sequence of ticks and policies, through every readiness wait and every refresh,
    comes to an end: the readiness loop makes at most 102 attempts before its deadline. *)
Theorem supervisor_terminates shutdown events s : exists r s', run key fleet_id config shutdown events s = Some (r, s').
Proof.
  assert (total (run key fleet_id config shutdown events)) as Ht; [|apply Ht].
  unfold run. totals.
Qed.

(** ** Progress *)

(** An environment in which nothing stands in the way of [p]: storage writes, the credential files hold current material
    [t], the process starts, stays alive and answers the probe under its identity, and both clocks stay within the
    lifetime of the policy and the credentials. *)
Record Healthy (p : VerifiedPolicy) (t : DataTls) (files : string -> result string string) : Prop := mkHealthy {
  hl_write : forall n, write_outcome n = Written;
  hl_canonical : is_Some (canonical_to_vec (SignedPolicy_value (vp_signed p)));
  hl_spawn : forall n, spawn_error n = None;
  hl_alive : forall n, try_wait n = Ok None;
  hl_wait : forall n, wait_child n = Some (Ok tt);
  hl_files : forall n, read_file n = files;
  hl_read : forall n, tls_read_timed_out n = false;
  hl_tls : forall m n, DataTls_load config files files (utc_now m) (utc_now n) = Ok t;
  hl_current : forall n, require_current p (utc_now n) = Ok tt;
  hl_tls_current : forall n, DataTls_require_current t (utc_now n) = Ok tt;
  hl_configured : exists v c, render config p = Ok v /\ configure t v = Ok c;
  hl_probe_config : exists v, probe_config t (rc_probe_endpoint config) = Ok v;
  hl_probe : forall n, probe n = ProbeConnected [trim_zeros (rc_id config)] (Some (Ok tt));
  hl_quick : forall m n k, instant_now n - instant_now m <
    Z.min START_TIMEOUT (Z.min (po_expires_at (vp_policy p)) (DataTls_expires_at t) - utc_now k);
}.

(** [m] returns without an error, and its result satisfies [Q]. *)
Definition wins {A} (m : prog A) (Q : A -> Supervisor -> Prop) (s : Supervisor) : Prop :=
  exists a s', m s = Some (Ok a, s') /\ Q a s'.
Lemma wins_bind {A B} (m : prog A) (f : A -> prog B) Q s : wins m (fun a s' => wins (f a) Q s') s -> wins (m ≫= f) Q s.
Proof. intros (a & s1 & E & b & s2 & E2 & HQ). exists b, s2. unfold mbind, prog_bind. by rewrite E. Qed.
Lemma wins_mono {A} (m : prog A) (P Q : A -> Supervisor -> Prop) s :
  wins m P s -> (forall a s', P a s' -> Q a s') -> wins m Q s.
Proof. intros (a & s1 & E & HP) HPQ. exists a, s1. auto. Qed.
Lemma wins_ret {A} (a : A) (Q : A -> Supervisor -> Prop) s : Q a s -> wins (mret a) Q s.
Proof. by exists a, s. Qed.
Lemma wins_from {A} (r : RouterResult A) a (Q : A -> Supervisor -> Prop) s : r = Ok a -> Q a s -> wins (from r) Q s.
Proof. intros -> HQ. by exists a, s. Qed.
Lemma wins_read {A} (f : Supervisor -> A) (Q : A -> Supervisor -> Prop) s : Q (f s) s -> wins (read f) Q s.
Proof. by exists (f s), s. Qed.
Lemma wins_assign f (Q : unit -> Supervisor -> Prop) s : Q tt (f s) -> wins (assign f) Q s.
Proof. by exists tt, (f s). Qed.
Lemma wins_ask {A} (f : nat -> A) a (Q : A -> Supervisor -> Prop) s :
  f (sv_asked s) = a -> Q a (s <| sv_asked := S (sv_asked s) |>) -> wins (ask f) Q s.
Proof. intros <- HQ. by eexists _, _. Qed.
Lemma wins_monotonic (Q : Z -> Supervisor -> Prop) s :
  Q (clock s) (s <| sv_asked := S (sv_asked s) |>) -> wins monotonic Q s.
Proof. intros HQ. by eexists _, _. Qed.
Lemma wins_attempt {A} (m : prog A) (Q : RouterResult A -> Supervisor -> Prop) s :
  wins m (fun a s' => Q (Ok a) s') s -> wins (attempt m) Q s.
Proof. intros (a & s1 & E & HQ). exists (Ok a), s1. unfold attempt. by rewrite E. Qed.
(** A terminating computation whose result is only looked at. *)
Lemma wins_attempt_total {A} (m : prog A) (Q : RouterResult A -> Supervisor -> Prop) s :
  total m -> wp m Q s -> wins (attempt m) Q s.
Proof. intros Ht Hq. destruct (Ht s) as (r & s1 & E). exists r, s1. unfold attempt. rewrite E. split; [done|by apply Hq]. Qed.

Section Progress.
Context (p : VerifiedPolicy) (t : DataTls) (files : string -> result string string) (healthy : Healthy p t files).

Lemma wins_try_wait (Q : option string -> Supervisor -> Prop) s :
  Q None (s <| sv_asked := S (sv_asked s) |>) -> wins try_wait_child Q s.
Proof.
  intros HQ. apply wins_bind, (wins_ask _ (Ok None)); [apply (hl_alive _ _ _ healthy)|]. by apply (wins_from _ None).
Qed.
Lemma wins_stop s : wins stop (fun _ s' => sv_child s' = None /\ sv_tls s' = None /\ sv_policy s' = sv_policy s) s.
Proof.
  unfold stop. apply wins_bind, wins_assign, wins_bind, wins_read, wins_bind, wins_assign. simpl.
  destruct (sv_child s); [|by apply wins_ret].
  apply wins_bind, wins_try_wait, wins_bind, (wins_ask _ (Some (Ok tt))); [apply (hl_wait _ _ _ healthy)|].
  by apply (wins_from _ tt).
Qed.
Lemma wins_load_tls s : wins (load_tls config) (fun a s' => a = t /\ same core s s') s.
Proof.
  unfold load_tls, utc.
  apply wins_bind, (wins_ask _ files); [apply (hl_files _ _ _ healthy)|]. eapply wins_bind, wins_ask; [done|].
  apply wins_bind, (wins_ask _ files); [apply (hl_files _ _ _ healthy)|]. eapply wins_bind, wins_ask; [done|].
  apply (wins_from _ t); [apply (hl_tls _ _ _ healthy)|done].
Qed.
Lemma wins_write f s : wins (store_write f) (fun _ s' => s' = f (s <| sv_asked := S (sv_asked s) |>)) s.
Proof.
  apply wins_bind, (wins_ask _ Written); [apply (hl_write _ _ _ healthy)|]. by apply wins_assign.
Qed.
Lemma eq_ignore_refl s : eq_ignore_ascii_case s s = true.
Proof. apply String.eqb_refl. Qed.
Lemma wins_wait_ready deadline s : is_Some (sv_child s) -> sv_tls s = Some t -> clock s < deadline ->
  wins (wait_ready config WAIT_FUEL deadline "The mTLS probe has not connected.") (fun _ s' => same core s s') s.
Proof.
  intros [c Hc] Ht Hd. change WAIT_FUEL with (S 101). cbn [wait_ready]. apply wins_bind. unfold probe_once.
  apply wins_bind, wins_monotonic. rewrite (proj2 (Z.leb_gt _ _)) by done.
  apply wins_bind, wins_read. simpl. rewrite Hc. apply wins_bind, wins_try_wait, wins_bind, wins_read. simpl. rewrite Ht.
  apply wins_bind, (wins_from _ t); [done|]. unfold utc. eapply wins_bind, wins_ask; [done|].
  apply wins_bind, (wins_from _ tt); [apply (hl_tls_current _ _ _ healthy)|].
  destruct (hl_probe_config _ _ _ healthy) as [v Hv]. apply wins_bind, (wins_from _ v); [done|].
  eapply wins_bind, wins_ask; [apply (hl_probe _ _ _ healthy)|]. apply wins_bind, (wins_from _ tt); [done|].
  simpl. rewrite eq_ignore_refl. simpl. apply wins_bind, wins_try_wait. apply wins_ret. cbv beta iota. apply wins_ret. unfold same, core. simpl. by rewrite Hc, Ht.
Qed.
Lemma tls_lifetime n : utc_now n < Z.min (po_expires_at (vp_policy p)) (DataTls_expires_at t).
Proof.
  pose proof (hl_current _ _ _ healthy n) as Hc. pose proof (hl_tls_current _ _ _ healthy n) as Ht.
  unfold require_current, DataTls_require_current, TlsMaterial_require_current, DataTls_expires_at in *.
  res_inv Hc. res_inv Ht. bools. lia.
Qed.
Lemma wins_await_ready s : is_Some (sv_child s) -> sv_tls s = Some t ->
  wins (await_ready config p t) (fun _ s' => rs_ready (sv_status s') = true /\ sv_policy s' = sv_policy s) s.
Proof.
  intros Hc Ht. unfold await_ready, utc. eapply wins_bind, wins_ask; [done|]. cbv zeta.
  pose proof (tls_lifetime (sv_asked s)). rewrite (proj2 (Z.ltb_ge _ _)) by lia.
  apply wins_bind, wins_monotonic, wins_bind, wins_attempt. eapply wins_mono.
  { apply wins_wait_ready; [done|done|].
    pose proof (hl_quick _ _ _ healthy (S (sv_asked s)) (S (S (sv_asked s))) (sv_asked s)). unfold clock. simpl. lia. }
  intros u s1 E. assert (sv_tls s1 = Some t /\ sv_policy s1 = sv_policy s) as [Ht1 Hp1].
  { unfold same, core in E. injection E as -> _ -> _ _ _ _. done. }
  eapply wins_bind, wins_ask; [done|]. apply wins_bind, (wins_from _ tt); [apply (hl_current _ _ _ healthy)|].
  apply wins_bind, wins_read. simpl. rewrite Ht1. apply wins_bind, (wins_from _ t); [done|].
  eapply wins_bind, wins_ask; [done|]. apply wins_bind, (wins_from _ tt); [apply (hl_tls_current _ _ _ healthy)|].
  by apply wins_assign.
Qed.
Lemma wins_persist s : wins (persist p) (fun _ s' => sv_policy s' = sv_policy s /\ sv_child s' = sv_child s) s.
Proof.
  unfold persist. destruct (hl_canonical _ _ _ healthy) as [bytes ->]. eapply wins_mono; [apply wins_write|]. by intros _ s' ->.
Qed.
Lemma wins_activate s : wins (activate config p) (fun _ s' => rs_ready (sv_status s') = true /\ sv_policy s' = Some p) s.
Proof.
  destruct (hl_configured _ _ _ healthy) as (v & c & Hv & Hc). unfold activate, replace_policy, launch, not_ready, report, utc.
  apply wins_bind, (wins_from _ v); [done|]. apply wins_bind, wins_bind, wins_assign, wins_bind.
  eapply wins_mono; [apply wins_stop|]. intros _ s1 _.
  apply wins_bind, wins_assign, wins_bind. eapply wins_mono; [apply wins_persist|]. intros _ s2 [Hp2 _]. simpl in Hp2.
  apply wins_bind, wins_assign, wins_assign. apply wins_bind. eapply wins_mono; [apply wins_load_tls|]. intros ? s3 [-> E3].
  apply wins_bind, (wins_from _ c); [done|]. apply wins_bind. eapply wins_mono; [apply wins_write|]. intros _ s4 ->.
  eapply wins_bind, wins_ask; [done|]. apply wins_bind, (wins_from _ tt); [apply (hl_current _ _ _ healthy)|].
  apply wins_bind, (wins_ask _ None); [apply (hl_spawn _ _ _ healthy)|]. apply wins_bind, wins_assign.
  apply wins_bind, wins_monotonic, wins_bind, wins_assign, wins_bind, wins_assign.
  eapply wins_mono; [apply wins_await_ready; simpl; eauto|]. simpl. intros _ s5 [Hr Hp5]. split; [done|].
  rewrite Hp5. unfold same, core in E3. simpl in E3. congruence.
Qed.

(** Observation fails only when the process cannot be stopped or looked at. *)
Lemma wins_activate_or_report q s : wins (activate_or_report config q) (fun _ _ => True) s.
Proof.
  unfold activate_or_report. apply wins_bind. apply wins_attempt_total; [apply total_activate|].
  intros r s1 _. destruct r; [by apply wins_ret|by apply wins_assign].
Qed.
Lemma wins_stop_quietly s : wins stop (fun _ _ => True) s.
Proof. eapply wins_mono; [apply wins_stop|done]. Qed.
Lemma wins_observe_running s : is_Some (sv_policy s) -> wins (observe_running config) (fun _ _ => True) s.
Proof.
  intros [q Hq]. unfold observe_running, not_ready, utc. apply wins_bind, wins_read, wins_bind.
  apply (wins_mono _ (fun _ s1 => sv_policy s1 = Some q)).
  { destruct (sv_tls s); [|by apply wins_ret]. eapply wins_bind, wins_ask; [done|]. by apply wins_ret. }
  intros [error|] s1 Hq1; [apply wins_bind, wins_assign, wins_stop_quietly|].
  apply wins_bind, wins_monotonic, wins_bind, wins_read. destruct (negb _); [by apply wins_ret|].
  apply wins_bind, wins_monotonic, wins_bind, wins_assign, wins_bind.
  eapply wins_ask; [apply (hl_read _ _ _ healthy)|]. cbv beta iota. apply wins_bind, wins_attempt.
  eapply wins_mono; [apply wins_load_tls|]. intros ? s2 [-> E2]. apply wins_bind, wins_read.
  destruct (match sv_tls s2 with Some _ => _ | None => _ end); [|by apply wins_ret].
  apply wins_bind, wins_read. apply wins_bind, (wins_from _ q); [|apply wins_activate_or_report].
  unfold same, core in E2. injection E2 as -> _ _ _ _ _ _. simpl. by rewrite Hq1.
Qed.
Lemma wins_observe_idle s : wins (observe_idle config) (fun _ _ => True) s.
Proof.
  unfold observe_idle, utc. apply wins_bind, wins_monotonic, wins_bind, wins_read. destruct (negb _); [by apply wins_ret|].
  apply wins_bind, wins_read. destruct (sv_policy _) as [q|]; [|by apply wins_ret].
  eapply wins_bind, wins_ask; [done|]. destruct (negb _); [by apply wins_ret|].
  apply wins_bind, wins_monotonic, wins_bind, wins_assign, wins_activate_or_report.
Qed.
Lemma wins_observe s : (is_Some (sv_child s) -> is_Some (sv_policy s)) -> wins (observe config) (fun _ _ => True) s.
Proof.
  intros Hj. unfold observe, not_ready, utc. apply wins_bind, wins_read, wins_bind.
  apply (wins_mono _ (fun _ s1 => sv_policy s1 = sv_policy s /\ sv_child s1 = sv_child s)).
  { destruct (sv_policy s) eqn:Hp; [|by apply wins_ret]. eapply wins_bind, wins_ask; [done|]. by apply wins_ret. }
  intros [] s1 [Hp1 Hc1]; [apply wins_bind, wins_assign, wins_stop_quietly|].
  apply wins_bind, wins_read. destruct (sv_child s1) eqn:Hc; [|apply wins_observe_idle].
  apply wins_bind, wins_try_wait, wins_observe_running. simpl. rewrite Hp1. apply Hj. rewrite <- Hc1. eauto.
Qed.
Lemma wins_refresh_ticks n : forall q failure s,
  failure = None -> wins (refresh_ticks n q failure) (fun f s' => f = None /\ sv_policy s' = sv_policy s) s.
Proof.
  induction n as [|n IH]; intros q failure s ->; simpl; [by apply wins_ret|]. apply wins_bind.
  apply (wins_mono _ (fun f s' => f = None /\ sv_policy s' = sv_policy s)); cycle 1.
  { intros f s1 [-> E]. eapply wins_mono; [by apply IH|]. intros f' s2 [-> E2]. split; [done|congruence]. }
  unfold refresh_tick, not_ready, utc. eapply wins_bind, wins_ask; [done|]. apply wins_bind.
  apply (wins_mono _ (fun _ s' => sv_policy s' = sv_policy s)).
  { destruct (negb _); [by apply wins_ret|]. apply wins_bind, wins_read. destruct (sv_tls _); [|by apply wins_ret].
    eapply wins_bind, wins_ask; [done|]. by apply wins_ret. }
  intros [] s1 E; [|by apply wins_ret].
  apply wins_bind, wins_assign, wins_bind, wins_attempt. eapply wins_mono; [apply wins_stop|].
  intros _ s2 (_ & _ & E2). apply wins_ret. simpl in E2. split; [done|congruence].
Qed.
Lemma wins_refresh s : is_Some (sv_policy s) -> wins (refresh config p) (fun _ s' => rs_ready (sv_status s') = true) s.
Proof.
  intros [q Hq]. unfold refresh, not_ready, report, utc. apply wins_bind, wins_read, wins_bind, (wins_from _ q); [by rewrite Hq|].
  apply wins_bind, wins_assign. eapply wins_bind, wins_ask; [done|]. apply wins_bind.
  eapply wins_mono; [by apply wins_refresh_ticks|]. intros ? s1 [-> Hp1]. simpl in Hp1.
  apply wins_bind, wins_attempt. eapply wins_mono; [apply wins_persist|]. intros _ s2 [Hp2 _]. cbv beta iota.
  apply wins_bind. eapply wins_mono; [apply wins_observe; rewrite Hp2, Hp1; eauto|]. intros _ s3 _.
  eapply wins_bind, wins_ask; [done|]. apply wins_bind, wins_read. destruct (_ || _) eqn:Hcond.
  - eapply wins_mono; [apply wins_activate|]. by intros _ s4 [Hr _].
  - apply orb_false_iff in Hcond as [_ Hr]. apply negb_false_iff in Hr.
    eapply wins_bind, wins_ask; [done|]. apply wins_bind, (wins_from _ tt); [apply (hl_current _ _ _ healthy)|].
    apply wins_bind, wins_assign. by apply wins_assign.
Qed.
Lemma wins_wp {A} (m : prog A) (Q : A -> Supervisor -> Prop) (P : RouterResult A -> Supervisor -> Prop) s :
  wins m Q s -> wp m P s -> wins m (fun a s' => Q a s' /\ P (Ok a) s') s.
Proof. intros (a & s1 & E & HQ) HP. exists a, s1. auto. Qed.
Lemma inv_has_policy s : Inv s -> is_Some (sv_child s) -> is_Some (sv_policy s).
Proof. intros Hi [c Hc]. destruct (inv_child _ _ _ _ Hi c Hc) as (q & _ & Hq & _). eauto. Qed.
Lemma wins_observe_inv s : Inv s -> wins (observe config) (fun _ s' => Inv s') s.
Proof.
  intros Hi. eapply wins_mono; [apply wins_wp; [apply wins_observe; by apply inv_has_policy|by apply (wp_observe key fleet_id)]|].
  intros u s1 [_ [Hg _]]. apply Hg.
Qed.
Lemma wins_apply_again s : Inv s -> (forall q, sv_policy s = Some q -> is_ok (advances p q) = true) ->
  wins (apply_again config p) (fun o s' => Inv s' /\ forall status, o = Some status -> rs_ready status = true) s.
Proof.
  intros Hi Hadv. unfold apply_again. apply wins_bind, wins_read. destruct (sv_policy s) as [q|] eqn:Hq; [|by apply wins_ret].
  specialize (Hadv q eq_refl). destruct (advances p q) as [newer|] eqn:Hn; [|done].
  apply wins_bind, (wins_from _ newer); [done|]. apply wins_bind, wins_read. destruct (newer || _); [by apply wins_ret|].
  apply wins_bind. eapply wins_mono; [by apply wins_observe_inv|]. intros u s1 Hi1. apply wins_bind, wins_read, wins_ret.
  split; [done|]. intros status. destruct (rs_ready (sv_status s1)) eqn:Hr; [|done]. by intros [= <-].
Qed.
Lemma wins_apply signed s : Inv s -> SignedPolicy_verify signed key fleet_id = Ok p ->
  (forall q, sv_policy s = Some q -> is_ok (advances p q) = true) ->
  wins (apply key fleet_id config signed) (fun status _ => rs_ready status = true) s.
Proof.
  intros Hi Hv Hadv. unfold apply, utc. apply wins_bind, (wins_from _ p); [done|]. eapply wins_bind, wins_ask; [done|].
  apply wins_bind, (wins_from _ tt); [apply (hl_current _ _ _ healthy)|].
  apply wins_bind. eapply wins_mono; [apply wins_apply_again; [eapply Inv_core; [|exact Hi]; done|done]|].
  intros [status|] s1 [Hi1 Hr1]; [apply wins_ret; by apply Hr1|].
  apply wins_bind. eapply wins_mono; [by apply wins_observe_inv|]. intros u s2 Hi2.
  apply wins_bind, wins_read, wins_bind, wins_read, wins_bind.
  apply (wins_mono _ (fun _ s' => rs_ready (sv_status s') = true)); [|intros _ s3 Hr; by apply wins_read].
  destruct (_ && _) eqn:Hcond; [|eapply wins_mono; [apply wins_activate|]; by intros _ s3 [Hr _]].
  apply andb_true_iff in Hcond as [_ Hsome]. apply wins_refresh. destruct (sv_policy s2); [eauto|done].
Qed.
End Progress.

(** C13: a Router serves a new policy when nothing stands in the way.  In a healthy environment, from any reachable state,
    applying a verified policy that does not conflict with the one at hand succeeds and answers ready, whatever runs at the
    time. *)
Theorem healthy_router_becomes_ready p t files signed s : Healthy p t files -> reachable s ->
  SignedPolicy_verify signed key fleet_id = Ok p ->
  (forall q, sv_policy s = Some q -> is_ok (advances p q) = true) ->
  exists status s', apply key fleet_id config signed s = Some (Ok status, s') /\ rs_ready status = true.
Proof. intros Hh [Hi _]%reachable_inv Hv Hadv. exact (wins_apply p t files Hh signed s Hi Hv Hadv). Qed.
End Life.

(** ** A concrete Router *)
Module LifeToy.
#[export] Instance canonicalizer : Canonicalizer := injective_canonicalizer.
Definition admission_of_value (v : Value) : option AgentAdmission :=
  match v with VObject [(_, VString name); (_, VString namespace)] => Some (mkAdmission name namespace) | _ => None end.
Definition string_of_value (v : Value) : option string := match v with VString s => Some s | _ => None end.
Definition policy_of_value (v : Value) : option Policy :=
  match v with
  | VObject [(_, VArray agents); (_, VString expires_at); (_, VString fleet_id); (_, VNumber generation);
      (_, VString issued_at); (_, VString prefix); (_, VString not_before); (_, VArray peers); (_, VNumber version)] =>
      agents ← mapM admission_of_value agents;
      peers ← mapM string_of_value peers;
      expires ← parse_bits expires_at; issued ← parse_bits issued_at; start ← parse_bits not_before;
      Some (mkPolicy version fleet_id generation issued start expires prefix peers agents)
  | _ => None
  end.
Definition signed_of_value (v : Value) : option SignedPolicy :=
  match v with
  | VObject [(_, policy); (_, VString signature)] => p ← policy_of_value policy; Some (mkSignedPolicy p signature)
  | _ => None
  end.
#[export] Instance codec : SignedPolicyCodec := fun bytes => v ← parse_bits bytes; signed_of_value v.
#[export] Instance certificates : Certificates := {|
  pemfile_certs := fun _ => Ok ["der"]; x509_from_der := fun _ => Ok ("", (0, 1000));
  from_timestamp := fun n => Some (seconds n); MIN_UTC := seconds (-1000000); MAX_UTC := seconds 1000000 |}.
#[export] Instance base64 : Base64Standard := fun s => s.
(** It is always 110 seconds past the epoch and everything works. *)
#[export] Instance environment : Environment := {|
  utc_now := fun _ => seconds 110; instant_now := fun _ => 0; write_outcome := fun _ => Written; write_ticks := fun _ => 2%nat;
  read_file := fun _ path => Ok path; tls_read_timed_out := fun _ => false; spawn_error := fun _ => None;
  try_wait := fun _ => Ok None; wait_child := fun _ => Some (Ok tt); kill_child := fun _ => None;
  probe := fun _ => ProbeConnected ["123456789abcdef0123456789abcdef"] (Some (Ok tt)) |}.
End LifeToy.
Import LifeToy.

Lemma stored_policy_read s bytes : canonical_to_vec (SignedPolicy_value s) = Some bytes -> signed_policy_from_slice bytes = Some s.
Proof.
  intros Hb. unfold canonical_to_vec, canonicalizer, injective_canonicalizer in Hb. injection Hb as <-.
  unfold signed_policy_from_slice, codec. rewrite parse_print_bits.
  destruct s as [[version fleet generation issued start expires prefix peers agents] sig].
  change ((p ← (agents ← mapM admission_of_value (AgentAdmission_value <$> agents);
               peers ← mapM string_of_value (VString <$> peers);
               expires ← parse_bits (print_bits expires); issued ← parse_bits (print_bits issued);
               start ← parse_bits (print_bits start);
               Some (mkPolicy version fleet generation issued start expires prefix peers agents));
     Some (mkSignedPolicy p sig)) = Some (mkSignedPolicy (mkPolicy version fleet generation issued start expires prefix peers agents) sig)).
  assert (mapM admission_of_value (AgentAdmission_value <$> agents) = Some agents) as ->.
  { induction agents as [|[] l IH]; [done|]. rewrite fmap_cons. simpl. by rewrite IH. }
  assert (mapM string_of_value (VString <$> peers) = Some peers) as ->.
  { induction peers as [|x l IH]; [done|]. rewrite fmap_cons. simpl. by rewrite IH. }
  by rewrite !parse_print_bits.
Qed.
#[export] Instance codec_spec : SignedPolicyCodecSpec.
Proof. intros s bytes _. apply stored_policy_read. Qed.
#[local] Instance constant_clock : MonotoneClock.
Proof. intros n. simpl. lia. Qed.

Definition sample_config : RouterConfig :=
  mkRouterConfig "0123456789abcdef0123456789abcdef" "tls/0.0.0.0:7447" "tls/127.0.0.1:7447" ["tls/router-b:7447"]
    "ca.pem" "router.pem" "router.key" "probe.pem" "probe.key".
Definition installed_router : Supervisor :=
  mkSupervisor None None None 0 (mkRouterStatus None None None false "") None None [] 0 0.
(** The state a computation leaves behind. *)
Definition after {A} (m : prog A) (s : Supervisor) : Supervisor := match m s with Some (_, s') => s' | None => s end.
Notation sample_apply := (apply (thirty_two "k") "fleet-1" sample_config).
Notation sample_boot := (new (thirty_two "k") "fleet-1" sample_config (Ok tt)).
Definition booted : Supervisor := after sample_boot installed_router.
(** Generation 7 is applied and, without a restart of the process, refreshed by generation 8. *)
Definition serving : Supervisor := after (sample_apply (sample_signed 7)) booted.
Definition refreshed : Supervisor := after (sample_apply (sample_signed 8)) serving.
(** After a restart, generation 8 is activated again. *)
Definition restarted : Supervisor := after (observe sample_config) (after sample_boot refreshed).

Lemma after_total {A} (m : prog A) s : total m -> exists r, m s = Some (r, after m s).
Proof. intros Ht. destruct (Ht s) as (r & s' & E). exists r. unfold after. by rewrite E. Qed.
Notation sample_reachable := (reachable (thirty_two "k") "fleet-1" sample_config).
Lemma booted_reachable : sample_reachable booted.
Proof.
  exists installed_router. split; [done|]. destruct (after_total sample_boot installed_router) as [r E]; [apply total_new|].
  eapply rtc_once, router_boot, E.
Qed.
Lemma serving_reachable : sample_reachable serving.
Proof.
  destruct booted_reachable as (s0 & Hs0 & Hsteps). exists s0. split; [done|]. eapply rtc_r; [exact Hsteps|].
  destruct (after_total (sample_apply (sample_signed 7)) booted) as [r E]; [apply total_apply, constant_clock|]. eapply router_apply, E.
Qed.
Lemma refreshed_reachable : sample_reachable refreshed.
Proof.
  destruct serving_reachable as (s0 & Hs0 & Hsteps). exists s0. split; [done|]. eapply rtc_r; [exact Hsteps|].
  destruct (after_total (sample_apply (sample_signed 8)) serving) as [r E]; [apply total_apply, constant_clock|]. eapply router_apply, E.
Qed.
Lemma restarted_reachable : sample_reachable restarted.
Proof.
  destruct refreshed_reachable as (s0 & Hs0 & Hsteps). exists s0. split; [done|].
  destruct (after_total sample_boot refreshed) as [r E]; [apply total_new|].
  destruct (after_total (observe sample_config) (after sample_boot refreshed)) as [r2 E2]; [apply total_observe, constant_clock|].
  eapply rtc_r; [eapply rtc_r; [exact Hsteps|eapply router_boot, E]|eapply router_tick, E2].
Qed.

Lemma refreshed_restarts : rtc (router_step (thirty_two "k") "fleet-1" sample_config) refreshed restarted.
Proof.
  destruct (after_total sample_boot refreshed) as [r E]; [apply total_new|].
  destruct (after_total (observe sample_config) (after sample_boot refreshed)) as [r2 E2]; [apply total_observe, constant_clock|].
  eapply rtc_l; [eapply router_boot, E|]. eapply rtc_once, router_tick, E2.
Qed.
Lemma supervisor_refines_policy_guard_witness :
  (fun p => po_generation (vp_policy p)) <$> sv_started restarted = [7; 8] /\
  rtc guard_step (guard (thirty_two "k") "fleet-1" refreshed) (guard (thirty_two "k") "fleet-1" restarted) /\
  Sorted stamp_le (stamp <$> sv_started restarted).
Proof.
  split; [vm_compute; reflexivity|].
  destruct (supervisor_refines_policy_guard _ _ _ refreshed restarted refreshed_reachable refreshed_restarts) as (Hg & _ & Hs & _).
  split; [exact Hg|exact Hs].
Defined.
Lemma running_router_enforces_stored_policy_witness :
  (exists c p t, sv_child refreshed = Some c /\ sv_policy refreshed = Some p /\
    c = config_value sample_config (inline_tls t) (access_control p)) /\
  rs_ready (handle_status refreshed (seconds 120)) = true /\
  exists q, rs_generation (handle_status refreshed (seconds 120)) = Some (po_generation (vp_policy q)) /\
    seconds 120 < po_expires_at (vp_policy q).
Proof.
  destruct (running_router_enforces_stored_policy _ _ _ refreshed refreshed_reachable) as [Hrun Hready]. split.
  - destruct (sv_child refreshed) as [c|] eqn:Ec; [|vm_compute in Ec; discriminate Ec].
    destruct (Hrun c eq_refl) as (p & t & Hp & _ & _ & _ & Hc).
    exists c, p, t. split; [reflexivity|]. split; [exact Hp|exact Hc].
  - assert (rs_ready (handle_status refreshed (seconds 120)) = true) as Hr by (vm_compute; reflexivity). split; [exact Hr|].
    destruct (Hready (seconds 120) Hr) as (p & q & t & _ & _ & Hg & _ & He & _). exists q. split; [exact Hg|exact He].
Defined.
Lemma acknowledged_policy_is_enforced_witness :
  exists status s' p', sample_apply (sample_signed 8) serving = Some (Ok status, s') /\ rs_ready status = true /\
    sv_policy s' = Some p'.
Proof.
  destruct (sample_apply (sample_signed 8) serving) as [[[status|e] s']|] eqn:E;
    [|vm_compute in E; discriminate E|vm_compute in E; discriminate E].
  destruct (acknowledged_policy_is_enforced _ _ _ serving (sample_signed 8) status s' serving_reachable E)
    as (p & p' & t & _ & _ & Hr & Hp' & _).
  exists status, s', p'. split; [reflexivity|]. split; [exact Hr|exact Hp'].
Defined.
Definition expired_verified : VerifiedPolicy :=
  mkVerified (mkSignedPolicy (mkPolicy 1 "fleet-1" 6 (seconds 50) (seconds 50) (seconds 100) "inari/gateway" ["controller"] [])
    "") "".
(** A process still runs when the policy has expired. *)
Definition overdue (s : Supervisor) : Supervisor := s <| sv_policy := Some expired_verified |>.
Lemma overdue_policy s : sv_policy (overdue s) = Some expired_verified.
Proof. reflexivity. Qed.
Lemma expired_policy_stops_router_witness :
  match sv_child (overdue refreshed) with Some _ => True | None => False end /\
  exists r s', observe sample_config (overdue refreshed) = Some (r, s') /\ sv_child s' = None.
Proof.
  split; [vm_compute; exact I|].
  destruct (observe sample_config (overdue refreshed)) as [[r s']|] eqn:E; [|vm_compute in E; discriminate E].
  exists r, s'. split; [reflexivity|].
  assert (po_expires_at (vp_policy expired_verified) <= utc_now (sv_asked (overdue refreshed))) as Hle by (vm_compute; discriminate).
  exact (proj1 (expired_policy_stops_router sample_config (overdue refreshed) expired_verified r s' (overdue_policy _) Hle E)).
Defined.
Lemma supervisor_terminates_witness :
  exists r s', run (thirty_two "k") "fleet-1" sample_config false [Tick; Command (sample_signed 7); Tick] booted = Some (r, s').
Proof. exact (supervisor_terminates (H11:=constant_clock) (thirty_two "k") "fleet-1" sample_config false _ booted). Defined.

Definition sample_tls : DataTls :=
  match DataTls_load sample_config (fun path => Ok path) (fun path => Ok path) (seconds 110) (seconds 110) with
  | Ok t => t
  | Err _ => mkDataTls (mkTlsMaterial "" "" "" "" 0 0) (mkTlsMaterial "" "" "" "" 0 0)
  end.
Lemma sample_healthy : Healthy sample_config (sample_verified 8) sample_tls (fun path => Ok path).
Proof.
  constructor; intros; try reflexivity.
  - eexists. reflexivity.
  - eexists _, _. split; reflexivity.
  - eexists. reflexivity.
Qed.
Lemma healthy_router_becomes_ready_witness :
  exists status s', sample_apply (sample_signed 8) serving = Some (Ok status, s') /\ rs_ready status = true.
Proof.
  apply (healthy_router_becomes_ready (H11:=constant_clock) _ _ _ (sample_verified 8) sample_tls (fun path => Ok path) (sample_signed 8) serving).
  - exact sample_healthy.
  - exact serving_reachable.
  - vm_compute. reflexivity.
  - intros q Hq. vm_compute in Hq. injection Hq as <-. vm_compute. reflexivity.
Defined.
