(* ===== verification/Management.v ===== *)
(** * The management interface of a Router

    [crates/inari-router/src/management.rs]: who may talk to a Router, and what the handlers of [/policy], [/status] and
    [/readyz] answer over the Supervisor.  The TLS handshake and the HTTP server are third-party: a connection is the
    certificate chain the handshake verified; each read of the clock is an argument. *)
From S2P Require Import Prelude Json Identifiers InvitationCode Security FleetPolicy AccessControl DataTls Supervisor RouterLife.

(** A client certificate, as [x509-parser] gives it: the bytes after it, the common names of its subject ([None] for one
    that is not text), and its validity in seconds. *)
Record ParsedCertificate := mkParsedCertificate {
  pt_remaining : string; pt_common_names : list (option string); pt_not_before : Z; pt_not_after : Z }.
Class ClientCertificates := certificate_from_der : string -> result string ParsedCertificate.
(** [rustls]: whether a server can be built from root certificates, a chain and a private key. *)
Class RustlsServer := rustls_server : list string -> list string -> string -> result string unit.
(** [rustls_pemfile::private_key]. *)
Class PemPrivateKey := pemfile_private_key : string -> result string (option string).

(** ** Identities *)
Record ManagementPeer := mkManagementPeer { mg_not_before : instant; mg_expires_at : instant }.
(** What is served to new connections: the server configuration built from the material with this digest. *)
Record CachedAcceptor := mkCachedAcceptor { ca_digest : string; ca_material : TlsMaterial }.
Record ManagementAcceptor := mkManagementAcceptor {
  ma_files : TlsFiles; ma_current : CachedAcceptor; ma_common_name : string }.
Notation io_result := (result string).
Definition io_other {A} (r : RouterResult A) : io_result A := match r with Ok a => Ok a | Err e => Err (RouterError_to_string e) end.

Section Management.
Context `{Encoding, Sha256, Ed25519, HexDecode, Rfc3339Auto, Canonicalizer}.
Context `{ZenohConfig, Certificates, Base64Standard, Environment, SignedPolicyCodec}.
Context `{ClientCertificates, RustlsServer, PemPrivateKey}.

Definition acceptor (material : TlsMaterial) : RouterResult CachedAcceptor :=
  roots ← io (pemfile_certs (tm_root_ca material));
  _ ← ensure (negb (bool_decide (roots = []))) (InvalidPolicy "management client CA is empty");
  chain ← io (pemfile_certs (tm_certificate material));
  key ← io (pemfile_private_key (tm_private_key material));
  key ← ok_or key (Io "management private key is absent");
  _ ← io (rustls_server roots chain key);
  Ok (mkCachedAcceptor (tm_digest material) material).
Definition from_files (read : string -> result string string) (now : instant)
    (certificate private_key client_ca common_name : string) : RouterResult ManagementAcceptor :=
  _ ← ensure (negb (negb (literal_name common_name) || starts_with "agt_" common_name))
        (InvalidPolicy "management requires a dedicated Controller common name");
  let files := mkTlsFiles client_ca certificate private_key in
  material ← TlsMaterial_load read now files;
  current ← acceptor material;
  Ok (mkManagementAcceptor files current common_name).
(** The files are read for every connection; the server is built anew when they changed. *)
Definition current_acceptor (self : ManagementAcceptor) (read : string -> result string string) (now : instant)
    : io_result ManagementAcceptor :=
  material ← io_other (TlsMaterial_load read now (ma_files self));
  if String.eqb (ca_digest (ma_current self)) (tm_digest material) then Ok self else
  current ← io_other (acceptor material);
  Ok (mkManagementAcceptor (ma_files self) current (ma_common_name self)).
Definition peer_identity (der expected : string) : io_result ManagementPeer :=
  certificate ← certificate_from_der der;
  let name := match pt_common_names certificate with name :: _ => name | [] => None end in
  _ ← ensure (negb (negb (is_empty (pt_remaining certificate)) || negb (bool_decide (name = Some expected))
                || match pt_common_names certificate with _ :: _ :: _ => true | _ => false end))
        "management client identity is not authorized";
  expires_at ← ok_or (from_timestamp (pt_not_after certificate)) "management certificate expiry is invalid";
  not_before ← ok_or (from_timestamp (pt_not_before certificate)) "management certificate start time is invalid";
  Ok (mkManagementPeer not_before expires_at).
(** [handshake] is what the TLS handshake of a connection under the current server gives: the verified chain of the
    client, or an error or a timeout. *)
Definition accept (self : ManagementAcceptor) (read : string -> result string string) (now : instant)
    (handshake : CachedAcceptor -> io_result (option (list string))) : ManagementAcceptor * io_result ManagementPeer :=
  match current_acceptor self read now with
  | Err e => (self, Err e)
  | Ok current =>
      (current, chain ← handshake (ma_current current);
                peer ← ok_or (chain ← chain; head chain) "management client certificate is absent";
                peer_identity peer (ma_common_name current))
  end.

(** ** Handlers *)
Inductive HttpStatus : Set := StatusOk | StatusForbidden | StatusConflict | StatusBadRequest | StatusUnavailable.
Notation HttpResult := (result (HttpStatus * string)).
(** [Utc::now] is read once per bound. *)
Definition authorize (peer : ManagementPeer) (now1 now2 : instant) : HttpResult unit :=
  if (now1 <? mg_not_before peer) || (mg_expires_at peer <=? now2)
  then Err (StatusForbidden, "Management client certificate is not current.") else Ok tt.
Definition response_error (e : RouterError) : HttpStatus * string :=
  (match e with
   | GenerationConflict => StatusConflict
   | InvalidPolicy _ | InvalidSignature | NotCurrent => StatusBadRequest
   | _ => StatusUnavailable
   end, RouterError_to_string e).

Context (key fleet_id : string) (config : RouterConfig).
(** [before] and [after] are the reads of the clock at the two checks; [None] when the Supervisor's program does not end. *)
Definition apply_policy (peer : ManagementPeer) (before after : instant * instant) (policy : SignedPolicy) (s : Supervisor)
    : option (HttpResult RouterStatus * Supervisor) :=
  match authorize peer (fst before) (snd before) with
  | Err e => Some (Err e, s)
  | Ok _ =>
      '(r, s') ← apply key fleet_id config policy s;
      Some (match r with
            | Err e => Err (response_error e)
            | Ok status => match authorize peer (fst after) (snd after) with Err e => Err e | Ok _ => Ok status end
            end, s')
  end.
Definition status (peer : ManagementPeer) (t1 t2 now : instant) (s : Supervisor) : HttpResult RouterStatus :=
  _ ← authorize peer t1 t2; Ok (handle_status s now).
Definition ready (peer : ManagementPeer) (t1 t2 now : instant) (s : Supervisor) : HttpResult (HttpStatus * RouterStatus) :=
  _ ← authorize peer t1 t2;
  let status := handle_status s now in
  Ok (if rs_ready status then StatusOk else StatusUnavailable, status).

(** ** Who is let in *)
(** An acceptor of a running Router: it was built from files, and its material replaced since. *)
Inductive accepting : ManagementAcceptor -> Prop :=
| accepting_new read now certificate private_key client_ca common_name a :
    from_files read now certificate private_key client_ca common_name = Ok a -> accepting a
| accepting_reload a read now handshake : accepting a -> accepting (fst (accept a read now handshake)).
Lemma accepting_name a : accepting a -> literal_name (ma_common_name a) = true /\ starts_with "agt_" (ma_common_name a) = false.
Proof.
  induction 1 as [read now certificate private_key client_ca common_name a Ha|a read now handshake _ IH].
  - unfold from_files in Ha. apply bind_Ok in Ha as (u & Hn%ensure_Ok & Ha). cbv zeta in Ha.
    apply bind_Ok in Ha as (m & _ & Ha). apply bind_Ok in Ha as (c & _ & Ha). apply Ok_inj in Ha as <-. simpl. by bools.
  - unfold accept. destruct (current_acceptor a read now) as [a'|e] eqn:E; [|exact IH]. simpl. unfold current_acceptor in E.
    apply bind_Ok in E as (m & _ & E). destruct (String.eqb _ _); [by apply Ok_inj in E as <-|].
    apply bind_Ok in E as (c & _ & E). by apply Ok_inj in E as <-.
Qed.
Lemma authorize_Ok peer t1 t2 : authorize peer t1 t2 = Ok tt <-> mg_not_before peer <= t1 /\ t2 < mg_expires_at peer.
Proof.
  unfold authorize. destruct (t1 <? _) eqn:E1, (_ <=? t2) eqn:E2; simpl; split; try done; bools; intros; lia.
Qed.

(** C15: only the Controller manages a Router.  Whatever happens to its credential files, a Router lets a connection in
    only for a client certificate that the handshake verified, whose subject has exactly one common name, the dedicated
    one of the Controller, so never for an Agent's certificate.  A request for a policy reaches the Supervisor only
    while that certificate is valid, and is confirmed only if it still is afterwards; before its validity
    or from its expiry on, the Router stays as it is and answers 403. *)
Theorem only_the_controller_manages a read now handshake peer before after policy s :
  accepting a -> snd (accept a read now handshake) = Ok peer ->
  (exists current der rest certificate, handshake current = Ok (Some (der :: rest)) /\ certificate_from_der der = Ok certificate /\
     pt_common_names certificate = [Some (ma_common_name (fst (accept a read now handshake)))] /\
     (forall agent, starts_with "agt_" agent = true -> pt_common_names certificate <> [Some agent]) /\
     from_timestamp (pt_not_before certificate) = Some (mg_not_before peer) /\
     from_timestamp (pt_not_after certificate) = Some (mg_expires_at peer)) /\
  (forall r s', apply_policy peer before after policy s = Some (r, s') -> s' <> s \/ is_ok r = true ->
     mg_not_before peer <= fst before /\ snd before < mg_expires_at peer /\
     exists r0, apply key fleet_id config policy s = Some (r0, s') /\
       forall answer, r = Ok answer <-> r0 = Ok answer /\ mg_not_before peer <= fst after /\ snd after < mg_expires_at peer) /\
  (fst before < mg_not_before peer \/ mg_expires_at peer <= snd before ->
     apply_policy peer before after policy s = Some (Err (StatusForbidden, "Management client certificate is not current."), s)).
Proof.
  intros Ha Hpeer. split_and!.
  - pose proof (accepting_name _ (accepting_reload a read now handshake Ha)) as [_ Hnot].
    unfold accept in *. destruct (current_acceptor a read now) as [c|e]; [|done]. simpl in *.
    apply bind_Ok in Hpeer as (chain & Hs & Hpeer). apply bind_Ok in Hpeer as (der & Hd%ok_or_Ok & Hpeer).
    destruct chain as [[|d rest]|]; [done| |done]. simpl in Hd. injection Hd as ->.
    unfold peer_identity in Hpeer. apply bind_Ok in Hpeer as (certificate & Hc & Hpeer). cbv zeta in Hpeer.
    apply bind_Ok in Hpeer as (u & Hn%ensure_Ok & Hpeer). apply bind_Ok in Hpeer as (t2 & Ht2%ok_or_Ok & Hpeer).
    apply bind_Ok in Hpeer as (t1 & Ht1%ok_or_Ok & Hpeer). apply Ok_inj in Hpeer as <-.
    exists (ma_current c), der, rest, certificate.
    assert (pt_common_names certificate = [Some (ma_common_name c)]) as Enames.
    { bools. destruct (pt_common_names certificate) as [|n [|]]; simpl in *; try done; by subst. }
    split_and!; try done. intros agent Hagent E. rewrite Enames in E. injection E as <-. congruence.
  - intros r s' Hrun Hmoved. unfold apply_policy in Hrun.
    destruct (authorize peer (fst before) (snd before)) as [[]|e] eqn:E1.
    2: { injection Hrun as <- <-. by destruct Hmoved. }
    apply authorize_Ok in E1 as [? ?]. split; [done|]. split; [done|].
    destruct (apply key fleet_id config policy s) as [[r0 s0]|]; [|done]. simpl in Hrun. injection Hrun as <- <-.
    exists r0. split; [done|]. intros answer. destruct r0 as [st|e]; [|split; [done|by intros [? _]]].
    destruct (authorize peer (fst after) (snd after)) as [[]|e] eqn:E2.
    + apply authorize_Ok in E2. split; [intros E; apply Ok_inj in E as ->; by split|intros [E _]; by apply Ok_inj in E as ->].
    + split; [done|]. intros (_ & Ht). apply authorize_Ok in Ht. congruence.
  - intros Ht. unfold apply_policy, authorize.
    assert ((fst before <? mg_not_before peer) || (mg_expires_at peer <=? snd before) = true) as ->; [|done].
    apply orb_true_iff. rewrite Z.ltb_lt, Z.leb_le. exact Ht.
Qed.
End Management.

(** ** A sample connection *)
Import LifeToy.
#[local] Instance sample_client : ClientCertificates := fun _ => Ok (mkParsedCertificate "" [Some "controller"] 0 1000).
#[local] Instance sample_rustls : RustlsServer := fun _ _ _ => Ok tt.
#[local] Instance sample_pem : PemPrivateKey := fun _ => Ok (Some "key").
Definition sample_acceptor : RouterResult ManagementAcceptor :=
  from_files Ok (seconds 110) "router.pem" "router.key" "ca.pem" "controller".
Lemma only_the_controller_manages_witness :
  exists a peer, sample_acceptor = Ok a /\ snd (accept a Ok (seconds 110) (fun _ => Ok (Some ["der"]))) = Ok peer /\
    apply_policy (thirty_two "k") "fleet-1" sample_config peer (seconds 2000, seconds 2000) (0, 0) (sample_signed 7) booted =
      Some (Err (StatusForbidden, "Management client certificate is not current."), booted).
Proof.
  destruct sample_acceptor as [a|e] eqn:Ea; [|vm_compute in Ea; discriminate Ea].
  destruct (snd (accept a Ok (seconds 110) (fun _ => Ok (Some ["der"])))) as [peer|e] eqn:Ep.
  2: { exfalso. vm_compute in Ea. injection Ea as <-. vm_compute in Ep. discriminate Ep. }
  exists a, peer. split; [reflexivity|]. split; [exact Ep|].
  assert (mg_expires_at peer = seconds 1000) as Eexp.
  { vm_compute in Ea. injection Ea as <-. vm_compute in Ep. injection Ep as <-. reflexivity. }
  apply (only_the_controller_manages (thirty_two "k") "fleet-1" sample_config a Ok (seconds 110) (fun _ => Ok (Some ["der"])) peer
    (seconds 2000, seconds 2000) (0, 0) (sample_signed 7) booted
    (accepting_new Ok (seconds 110) "router.pem" "router.key" "ca.pem" "controller" a Ea) Ep).
  right. rewrite Eexp. vm_compute. discriminate.
Defined.
