(* ===== verification/AuthorityVersion.v ===== *)
(** * The authority revision tracks the active Agents

    The triggers of the router admission migration against the statements that change Agents and keys: while the
    authority revision of an Organization stays the same, so does the set of its active Agents, the ones a Router policy
    admits.  [System] lifts this to every execution. *)
From S2P Require Import Prelude Errors Identifiers Protocol Schema RouterPolicy Keys Enrollment.

(** The row [a] is that of an active Agent of the Organization. *)
Definition authorized (o : string) (db : Database) (k : string) (a : AgentRow) : Prop :=
  agents db !! k = Some a /\ ag_organization_id a = o /\ active_agent db a = true.
Definition agents_keyed (db : Database) : Prop := map_Forall (fun k a => ag_agent_id a = k) (agents db).
Definition versioned (db db' : Database) : Prop :=
  forall o row, router_policies db !! o = Some row -> exists row', router_policies db' !! o = Some row' /\
    rp_authority_revision row <= rp_authority_revision row' /\
    (rp_authority_revision row' = rp_authority_revision row -> forall k a, authorized o db' k a <-> authorized o db k a).
Notation authority_evolves := (evolves agents_keyed versioned).
Definition authority_footprint (db : Database) := (router_policies db, agents db, agent_verification_keys db).

#[global] Instance versioned_PreOrder : PreOrder versioned.
Proof.
  split.
  - intros db o row Hr. exists row. split_and!; [done|lia|done].
  - intros d1 d2 d3 H12 H23 o row Hr. destruct (H12 o row Hr) as (r2 & Hr2 & L2 & A2).
    destruct (H23 o r2 Hr2) as (r3 & Hr3 & L3 & A3). exists r3. split_and!; [done|lia|]. intros E k a.
    rewrite A3 by lia. apply A2. lia.
Qed.
#[global] Instance authority_footprint_evolves : Footprint authority_footprint authority_evolves.
Proof.
  intros db db' [= E1 E2 E3] Hk. split; [unfold agents_keyed; by rewrite E2|]. intros o row Hr. exists row. rewrite E1.
  split_and!; [done|lia|]. intros _ k a. unfold authorized, active_agent. by rewrite E2, E3.
Qed.

(** *** The trigger *)
(** What firing the trigger for some Organizations does: nothing to Agents and keys, and the revision of each of them
    goes up. *)
Definition bumps (hit : string -> Prop) (db db' : Database) : Prop :=
  agents db' = agents db /\ agent_verification_keys db' = agent_verification_keys db /\
  forall o row, router_policies db !! o = Some row -> exists row', router_policies db' !! o = Some row' /\
    rp_authority_revision row <= rp_authority_revision row' /\
    (hit o -> rp_authority_revision row < rp_authority_revision row').
Lemma bumps_none db : bumps (fun _ => False) db db.
Proof. split_and!; [done|done|]. intros o row Hr. exists row. split_and!; [done|lia|done]. Qed.
Lemma bumps_trans P Q db db1 db2 : bumps P db db1 -> bumps Q db1 db2 -> bumps (fun o => P o \/ Q o) db db2.
Proof.
  intros (A1 & K1 & B1) (A2 & K2 & B2). split_and!; [congruence|congruence|]. intros o row Hr.
  destruct (B1 o row Hr) as (r1 & Hr1 & L1 & S1), (B2 o r1 Hr1) as (r2 & Hr2 & L2 & S2).
  exists r2. split_and!; [done|lia|]. intros [Ho|Ho]; [specialize (S1 Ho)|specialize (S2 Ho)]; lia.
Qed.
Lemma bumps_weaken (P Q : string -> Prop) db db' : (forall o, Q o -> P o) -> bumps P db db' -> bumps Q db db'.
Proof.
  intros HQ (A & K & B). split_and!; [done|done|]. intros o row Hr. destruct (B o row Hr) as (r & Hr' & L & S).
  exists r. split_and!; auto.
Qed.
Lemma invalidate_organization_bumps org db u db' : invalidate_organization org db = Ok (u, db') -> bumps (eq org) db db'.
Proof.
  unfold invalidate_organization. intros Hrun. tx_inv Hrun.
  - split_and!; [done|done|]. intros o row Hr. simpl. destruct (decide (org = o)) as [<-|Hne].
    + rewrite lookup_insert_eq. eexists. split; [done|]. simpl. simplify_eq. split; intros; lia.
    + rewrite lookup_insert_ne by done. exists row. split_and!; [done|lia|done].
  - split_and!; [done|done|]. intros o row Hr. exists row. split_and!; [done|lia|]. intros <-. congruence.
Qed.
Lemma invalidate_on_key_change_bumps agent db u db' : invalidate_on_key_change agent db = Ok (u, db') ->
  bumps (fun o => exists a, agents db !! agent = Some a /\ ag_organization_id a = o) db db'.
Proof.
  unfold invalidate_on_key_change. intros Hrun. apply tx_bind_Ok in Hrun as (d & s & [-> ->]%get_Ok & Hrun).
  destruct (agents db !! agent) as [a|] eqn:Ha.
  - apply invalidate_organization_bumps in Hrun. eapply bumps_weaken; [|exact Hrun]. by intros o (b & [= <-] & Ho).
  - apply tx_ret_Ok in Hrun as [_ ->]. eapply bumps_weaken; [|apply bumps_none]. by intros o (b & ? & _).
Qed.
Lemma each_key_change_bumps l db u db' : each (fun k => invalidate_on_key_change (vk_agent_id k)) l db = Ok (u, db') ->
  bumps (fun o => exists k a, k ∈ l /\ agents db !! vk_agent_id k = Some a /\ ag_organization_id a = o) db db'.
Proof.
  revert db u. induction l as [|k l IH]; intros db u Hrun; simpl in Hrun.
  - apply tx_ret_Ok in Hrun as [_ ->]. eapply bumps_weaken; [|apply bumps_none]. intros o (k & a & Hk & _). set_solver.
  - apply tx_bind_Ok in Hrun as (u1 & s1 & H1%invalidate_on_key_change_bumps & Hrun%IH). destruct (H1) as (A1 & _ & _).
    eapply bumps_weaken; [|exact (bumps_trans _ _ _ _ _ H1 Hrun)]. cbv beta. rewrite A1.
    intros o (k' & a & [->|Hk]%elem_of_cons & Ha); [left; eauto|right; eauto].
Qed.

(** *** The statements *)
(** Whether an Agent is active depends on its own keys. *)
Lemma active_agent_own_keys db db' a :
  (forall k r, vk_agent_id r = ag_agent_id a ->
     agent_verification_keys db' !! k = Some r <-> agent_verification_keys db !! k = Some r) ->
  active_agent db' a = active_agent db a.
Proof.
  intros Hk. unfold active_agent.
  assert (forall q, (forall r, q r = true -> vk_agent_id r = ag_agent_id a) ->
    no_row (agent_verification_keys db') q = no_row (agent_verification_keys db) q) as Hn.
  { intros q Hq. apply eq_true_iff_eq. rewrite !no_row_true.
    split; intros Hno k r Hr; destruct (q r) eqn:E; try done; rewrite <- E; apply (Hno k r), (Hk k r (Hq r E)), Hr. }
  rewrite !Hn; [done| |]; intros r Hr; bools; by apply String.eqb_eq.
Qed.

(** Keys change, then the trigger fires for the Organizations of the Agents whose keys changed. *)
Lemma keys_change_versioned (db db' : Database) keys hit :
  agents_keyed db -> bumps hit (db <| agent_verification_keys := keys |>) db' ->
  (forall k r a, agents db !! vk_agent_id r = Some a -> ~ hit (ag_organization_id a) ->
     keys !! k = Some r <-> agent_verification_keys db !! k = Some r) ->
  agents_keyed db' /\ versioned db db'.
Proof.
  intros Hkeyed (Ea & Ek & Hb) Hhit. simpl in *. split; [unfold agents_keyed; by rewrite Ea|].
  intros o row Hr. destruct (Hb o row Hr) as (row' & Hr' & Hle & Hlt). exists row'. split_and!; [done|done|].
  intros Erev k a. unfold authorized. rewrite Ea.
  assert (~ hit o) as Hno by (intros Hh; specialize (Hlt Hh); lia).
  split; intros (Hk & Ho & Hact); (split_and!; [done|done|]).
  all: rewrite <- Hact; first [symmetry; apply active_agent_own_keys|apply active_agent_own_keys].
  all: intros i r Hra; rewrite Ek; specialize (Hkeyed k a Hk); simpl in Hkeyed.
  all: first [apply (Hhit i r a)|symmetry; apply (Hhit i r a)]; congruence.
Qed.
Lemma try_insert_key_versioned row : Steps authority_evolves (try_insert_verification_key row).
Proof.
  unfold try_insert_verification_key, verification_key_conflict, references, exists_in. intros db b db' Hrun Hkeyed.
  apply tx_bind_Ok in Hrun as (d & s1 & [-> ->]%get_Ok & Hrun). cbv zeta in Hrun. destruct (_ || _ || _) eqn:Hc in Hrun.
  { apply tx_ret_Ok in Hrun as [_ ->]. by split. }
  apply tx_bind_Ok in Hrun as (u1 & s2 & [Hown ->]%require_Ok & Hrun).
  apply tx_bind_Ok in Hrun as (u2 & s3 & [_ ->]%modify_Ok & Hrun).
  apply tx_bind_Ok in Hrun as (u3 & s4 & Htrig%invalidate_on_key_change_bumps & [_ ->]%tx_ret_Ok).
  eapply keys_change_versioned; [done|exact Htrig|]. simpl. intros k r a Ha Hno. bools.
  destruct (decide (k = vk_key_id row)) as [->|]; [|by rewrite lookup_insert_ne].
  rewrite lookup_insert_eq. split; [intros [= <-]; destruct Hno; eauto|].
  match goal with Hx : ~ is_Some (agent_verification_keys db !! _) |- _ => intros Hr; destruct Hx; eauto end.
Qed.
Lemma retire_keys_versioned p t : Steps authority_evolves (retire_keys_where p t).
Proof.
  unfold retire_keys_where. intros db b db' Hrun Hkeyed.
  apply tx_bind_Ok in Hrun as (d & s1 & [-> ->]%get_Ok & Hrun). cbv zeta in Hrun.
  apply tx_bind_Ok in Hrun as (u2 & s3 & [_ ->]%modify_Ok & Hrun).
  apply tx_bind_Ok in Hrun as (u3 & s4 & Htrig%each_key_change_bumps & [_ ->]%tx_ret_Ok).
  eapply keys_change_versioned; [done|exact Htrig|]. simpl. intros k r a Ha Hno. unfold update_where. rewrite lookup_fmap.
  assert (forall r0, agent_verification_keys db !! k = Some r0 -> vk_agent_id r0 = vk_agent_id r -> p r0 = false) as Hp.
  { intros r0 Hr0 Eid. destruct (p r0) eqn:Hp; [|done]. destruct Hno. exists r0, a. rewrite Eid.
    split_and!; [apply elem_of_rows_where; eauto|done|done]. }
  destruct (agent_verification_keys db !! k) as [r0|] eqn:Hr0; simpl; [|done].
  split; intros [= E].
  - destruct (p r0) eqn:Hpr; [|congruence]. assert (vk_agent_id r0 = vk_agent_id r) as Eid by (rewrite <- E; done).
    by rewrite (Hp r0 eq_refl Eid) in Hpr.
  - subst r0. by rewrite (Hp r eq_refl eq_refl).
Qed.
Lemma upsert_agent_versioned row : Steps authority_evolves (upsert_agent row).
Proof.
  unfold upsert_agent. intros db b db' Hrun Hkeyed.
  apply tx_bind_Ok in Hrun as (d & s1 & [-> ->]%get_Ok & Hrun).
  apply tx_bind_Ok in Hrun as (u1 & s2 & (_ & _ & ->)%agents_constraints_Ok & Hrun).
  assert (exists new (hit : string -> Prop), bumps hit (db <| agents := <[ag_agent_id row := new]> (agents db) |>) db' /\
    ag_agent_id new = ag_agent_id row /\ hit (ag_organization_id new) /\
    (forall old, agents db !! ag_agent_id row = Some old -> hit (ag_organization_id old))) as (new & hit & (Ea & Ek & Hb) & Hid & Hnew & Hold).
  { destruct (agents db !! ag_agent_id row) as [old|] eqn:Hold;
      apply tx_bind_Ok in Hrun as (u5 & s6 & [_ ->]%modify_Ok & Htrig).
    - apply tx_bind_Ok in Htrig as (u6 & s7 & H1%invalidate_organization_bumps & H2%invalidate_organization_bumps).
      eexists _, _. split; [exact (bumps_trans _ _ _ _ _ H1 H2)|]. split_and!; [done|by right|]. intros o [= <-]. by left.
    - apply invalidate_organization_bumps in Htrig. eexists _, _. split; [exact Htrig|]. by split_and!. }
  simpl in *. split.
  { unfold agents_keyed. rewrite Ea. by apply map_Forall_insert_2. }
  intros o rw Hr. destruct (Hb o rw Hr) as (row' & Hr' & Hle & Hlt). exists row'. split_and!; [done|done|].
  intros Erev k a. assert (~ hit o) as Hno by (intros Hh; specialize (Hlt Hh); lia).
  unfold authorized, active_agent. rewrite Ea, Ek. destruct (decide (k = ag_agent_id row)) as [->|]; [|by rewrite lookup_insert_ne].
  rewrite lookup_insert_eq. split; intros (Hk & Ho & _); exfalso; apply Hno; rewrite <- Ho.
  - by injection Hk as <-.
  - by apply Hold.
Qed.
Lemma initialize_router_policy_versioned o : Steps authority_evolves (initialize_router_policy o).
Proof.
  unfold initialize_router_policy, unique, exists_in. intros db u db' Hrun Hkeyed. tx_inv Hrun. bools. split; [done|].
  intros o2 r2 Hr2. simpl. rewrite lookup_insert_ne by (intros ->; eauto). exists r2. split_and!; [done|lia|done].
Qed.
(** Preparing and acknowledging a policy leave the authority alone. *)
Lemma policy_update_versioned (db : Database) o row row' : agents_keyed db -> router_policies db !! o = Some row ->
  rp_authority_revision row' = rp_authority_revision row ->
  let db' := db <| router_policies := <[o := row']> (router_policies db) |> in agents_keyed db' /\ versioned db db'.
Proof.
  intros Hkeyed Hrow E. split; [done|]. intros o2 r2 Hr2. simpl. destruct (decide (o = o2)) as [<-|].
  - rewrite lookup_insert_eq. exists row'. simplify_eq. split_and!; [done|lia|done].
  - rewrite lookup_insert_ne by done. exists r2. split_and!; [done|lia|done].
Qed.

(** The list a policy is built from holds exactly the active Agents. *)
Lemma active_agents_authorized `{Collation} o db ags db' : active_agents o db = Ok (ags, db') ->
  forall g, g ∈ ags <-> exists k a, authorized o db k a /\ g = mkRouterAgent (ag_agent_id a) (ag_namespace a).
Proof.
  unfold active_agents. intros Hrun. tx_inv Hrun. intros g. rewrite list_elem_of_fmap. split.
  - intros (a & -> & Ha). apply elem_of_order_by, elem_of_rows_where in Ha as [Hp [k Hk]]. bools.
    exists k, a. split; [|done]. split_and!; try done. by apply String.eqb_eq.
  - intros (k & a & (Hk & Ho & Hact) & ->). exists a. split; [done|]. apply elem_of_order_by, elem_of_rows_where.
    rewrite Ho, String.eqb_refl, Hact. eauto.
Qed.
