(* ===== verification/System.v ===== *)
(** * The controller as a whole

    Every repository operation of the managed gateway as a step of one transition system over the database, and
    what holds in every reachable state and along every execution: the invariants of the tables, the order in
    which router policies, verification keys, invitations, Managed Work and the audit log may change.  Each part of
    the database has its relation with the tables it reads as its footprint; an operation that leaves the footprint
    alone is related by definition, and the operations that write it are proved one by one. *)
From stdpp Require Import relations.
From S2P Require Import Prelude Errors Identifiers InvitationCode Protocol Schema Samples AuditLog.
From S2P Require Import RouterPolicy Commands Security Observations Inventory Keys Onboarding Enrollment.
From S2P Require Import Publications Retirement ManagedWork Dispatch AuthorityVersion.

(** Statements that only read are related by every preorder. *)
#[export] Hint Extern 5 (Steps ?R _) =>
  lazymatch R with eq => fail | _ => solve [apply read_only_steps; typeclasses eauto] end : steps.

(** ** Router policies *)
Notation router_evolves := (evolves router_policies_wf router_progress).
#[global] Instance router_footprint : Footprint router_policies router_evolves.
Proof.
  intros db db' E Hwf. split; [|by apply same_router_progress]. unfold same in E. unfold router_policies_wf. by rewrite E.
Qed.
Lemma router_insert_evolves (db : Database) o row row' : router_policies db !! o = Some row -> policy_progress row row' ->
  (policy_wf row -> policy_wf row') ->
  router_evolves db (db <| router_policies := <[o := row']> (router_policies db) |>).
Proof.
  intros Hr Hp Hw Hwf. split; [|by eapply router_insert_progress].
  apply map_Forall_insert_2; [|done]. exact (Hw (Hwf o row Hr)).
Qed.
Lemma invalidate_organization_evolves o : Steps router_evolves (invalidate_organization o).
Proof.
  unfold invalidate_organization. intros db u db' Hrun. tx_inv Hrun; [|reflexivity].
  eapply router_insert_evolves; [done|split_and!; simpl; [lia|lia|done]|].
  intros Hrow rev Hrev. simpl in *. specialize (Hrow rev Hrev). lia.
Qed.
#[export] Hint Resolve invalidate_organization_evolves : steps.
Lemma initialize_router_policy_evolves o : Steps router_evolves (initialize_router_policy o).
Proof.
  intros db u db' Hrun Hwf. split; [|by eapply initialize_router_policy_progress].
  unfold initialize_router_policy, unique in Hrun. tx_inv Hrun. by apply map_Forall_insert_2.
Qed.
#[export] Hint Resolve initialize_router_policy_evolves : steps.
#[export] Hint Extern 7 (Steps router_evolves _) => solve [apply (frame_steps router_policies); [typeclasses eauto|frame]] : steps.

Lemma modify_frame_evolves (R : Database -> Database -> Prop) {T} (f : Database -> T) `{!Footprint f R} g :
  (forall db, same f db (g db)) -> Steps (E := GatewayError) R (modify g).
Proof. intros Hg. apply steps_modify. intros db. apply footprint_same, Hg. Qed.
#[export] Hint Extern 6 (Steps router_evolves (modify _)) =>
  solve [apply (modify_frame_evolves _ router_policies); intros; reflexivity] : steps.

Lemma upsert_organization_router row : Steps router_evolves (upsert_organization row).
Proof. unfold upsert_organization. steps. Qed.
Lemma upsert_agent_router row : Steps router_evolves (upsert_agent row).
Proof. unfold upsert_agent, agents_constraints, unique, references, invalidate_on_agent_insert, invalidate_on_agent_update. steps. Qed.
Lemma invalidate_on_key_change_router a : Steps router_evolves (invalidate_on_key_change a).
Proof. unfold invalidate_on_key_change. steps. Qed.
#[export] Hint Resolve upsert_organization_router upsert_agent_router invalidate_on_key_change_router : steps.
Lemma retire_keys_router p t : Steps router_evolves (retire_keys_where p t).
Proof. unfold retire_keys_where. steps. Qed.
Lemma try_insert_key_router row : Steps router_evolves (try_insert_verification_key row).
Proof. unfold try_insert_verification_key, verification_key_conflict, references. steps. Qed.
#[export] Hint Resolve retire_keys_router try_insert_key_router : steps.
Lemma prepare_router_evolves `{Collation} o cfg rb build now : Always router_evolves (prepare_router_policy o cfg rb build now).
Proof.
  intros db r db' Hrun. destruct r as [p|e].
  - apply prepare_router_policy_Ok in Hrun as (row & row' & ags & Hrow & _ & _ & _ & Hrev & [(_ & _ & ->) | Hnew]);
      [reflexivity|].
    destruct Hnew as (_ & prepared & _ & _ & Hg & _ & Ha & _ & _ & _ & ->).
    eapply router_insert_evolves; [done|unfold policy_progress; lia|].
    intros _ r Hr. rewrite Hrev in Hr. injection Hr as <-. lia.
  - apply transaction_inv in Hrun as [(? & ? & _)|(? & _ & ->)]; [done|reflexivity].
Qed.
Lemma acknowledge_router_evolves o p checked now : Always router_evolves (acknowledge_router_policy o p checked now).
Proof.
  intros db r db' Hrun. destruct r as [ad|e].
  - apply acknowledge_router_policy_Ok in Hrun as (row & t & Hrow & _ & _ & _ & _ & _ & _ & ->).
    eapply router_insert_evolves; [done|split_and!; simpl; [lia|lia|done]|done].
  - apply transaction_inv in Hrun as [(? & ? & _)|(? & _ & ->)]; [done|reflexivity].
Qed.

(** ** Verification keys *)
Notation keys_evolves := (evolves keys_wf key_progress).
#[global] Instance keys_footprint : Footprint agent_verification_keys keys_evolves.
Proof. intros db db' E Hwf. split; [by eapply same_keys_wf|by apply same_key_progress]. Qed.
#[export] Hint Extern 7 (Steps keys_evolves _) => solve [apply (frame_steps agent_verification_keys); [typeclasses eauto|frame]] : steps.
Lemma steps_evolves {A} (I : Database -> Prop) (P : Database -> Database -> Prop) (m : Tx A) :
  Keeps I m -> Steps P m -> Steps (evolves I P) m.
Proof. intros H1 H2 s a s' Hr HI. split; [exact (H1 _ _ _ Hr HI)|exact (H2 _ _ _ Hr)]. Qed.
Lemma retire_keys_evolves p t : (forall r, p r = true -> active_key r = true) -> Steps keys_evolves (retire_keys_where p t).
Proof. intros Hp. apply steps_evolves; [apply retire_keys_wf|by apply retire_keys_progress]. Qed.
Lemma try_insert_key_evolves row : Steps keys_evolves (try_insert_verification_key row).
Proof. apply steps_evolves; [apply try_insert_keys_wf|apply try_insert_key_progress]. Qed.
#[export] Hint Resolve try_insert_key_evolves : steps.
#[export] Hint Extern 4 (Steps keys_evolves (retire_keys_where _ _)) =>
  apply retire_keys_evolves; intros; bools; assumption : steps.

(** ** Devices *)
#[global] Instance devices_footprint : Footprint devices (keeps devices_wf).
Proof. intros db db' E Hwf. unfold same in E. unfold devices_wf. by rewrite E. Qed.
#[export] Hint Extern 7 (Steps (keeps devices_wf) _) => solve [apply (frame_steps devices); [typeclasses eauto|frame]] : steps.
Lemma delete_devices_wf p : Keeps devices_wf (delete_devices_where p).
Proof. apply steps_modify. intros db Hwf k d. simpl. intros [Hd _]%lookup_delete_where. by apply Hwf. Qed.
#[export] Hint Resolve inventory_apply_devices_wf delete_devices_wf : steps.

(** ** The audit log *)
Definition audit_wf (db : Database) : Prop :=
  map_Forall (fun k e => au_event_id e = k /\ k <= audit_event_id_seq db) (audit_events db).
Definition audit_grows (db db' : Database) : Prop := audit_events db ⊆ audit_events db'.
Notation audit_evolves := (evolves audit_wf audit_grows).
#[global] Instance audit_grows_PreOrder : PreOrder audit_grows.
Proof. unfold audit_grows. split; [by intros db|]. intros d1 d2 d3 H12 H23. by etrans. Qed.
#[global] Instance audit_footprint : Footprint (fun db => (audit_events db, audit_event_id_seq db)) audit_evolves.
Proof. intros db db' [= E1 E2] Hwf. unfold audit_wf, audit_grows. by rewrite E1, E2. Qed.
#[export] Hint Extern 7 (Steps audit_evolves _) =>
  solve [apply (frame_steps (fun db => (audit_events db, audit_event_id_seq db))); [typeclasses eauto|frame]] : steps.
Lemma insert_audit_event_evolves t d : Steps audit_evolves (insert_audit_event t d).
Proof.
  intros db u db' [_ ->]%insert_audit_event_Ok Hwf.
  assert (audit_events db !! (audit_event_id_seq db + 1) = None) as Hnew.
  { destruct (audit_events db !! _) as [e|] eqn:He; [|done]. destruct (Hwf _ _ He). lia. }
  split.
  - apply map_Forall_insert_2; simpl.
    + split; [|lia]. unfold audit_event_row. by destruct (storage_parts _).
    + intros k e Hk. destruct (Hwf k e Hk). split; [done|]. lia.
  - unfold audit_grows. simpl. by apply insert_subseteq.
Qed.
#[export] Hint Resolve insert_audit_event_evolves : steps.

(** ** Recorded evidence: publications and signed observations *)
Definition evidence_grows (db db' : Database) : Prop :=
  publications db ⊆ publications db' /\ agent_state_observations db ⊆ agent_state_observations db'.
#[global] Instance evidence_grows_PreOrder : PreOrder evidence_grows.
Proof.
  split; [intros db; by split|]. intros d1 d2 d3 [P1 O1] [P2 O2]. split; by etrans.
Qed.
#[global] Instance evidence_footprint : Footprint (fun db => (publications db, agent_state_observations db)) evidence_grows.
Proof. intros db db' [= E1 E2]. unfold evidence_grows. by rewrite E1, E2. Qed.
#[export] Hint Extern 7 (Steps evidence_grows _) =>
  solve [apply (frame_steps (fun db => (publications db, agent_state_observations db))); [typeclasses eauto|frame]] : steps.
Lemma try_insert_publication_grows row : Steps evidence_grows (try_insert_publication row).
Proof.
  intros db b db' [(_ & _ & ->)|(_ & Hn & ->)]%try_insert_publication_Ok; [reflexivity|].
  split; simpl; [by apply insert_subseteq|done].
Qed.
Lemma try_insert_observation_grows row : Steps evidence_grows (try_insert_observation row).
Proof.
  intros db b db' [(_ & _ & ->)|(_ & Hn & ->)]%try_insert_observation_Ok; [reflexivity|].
  split; simpl; [done|by apply insert_subseteq].
Qed.
#[export] Hint Resolve try_insert_publication_grows try_insert_observation_grows : steps.

(** ** Invitations *)
Definition invitation_row_wf (k : string) (i : InvitationRow) : Prop :=
  iv_invitation_id i = k /\
  match iv_state i with
  | SInvCreated => iv_bound_agent_id i = None
  | SInvEnrolled | SInvOnline => is_Some (iv_bound_agent_id i)
  | _ => True
  end.
Definition invitation_rows_wf (db : Database) : Prop := map_Forall invitation_row_wf (invitations db).

(** The columns creation fixes, and the order of the states; revocation is final. *)
Definition invitation_identity (i : InvitationRow) :=
  (iv_invitation_id i, iv_organization_id i, iv_site_id i, iv_label i, iv_secret_digest i, iv_created_at i, iv_expires_at i).
Definition invitation_step (s s' : StoredInvitationState) : bool :=
  match s, s' with
  | SInvCreated, SInvCreated | SInvCreated, SInvEnrolled | SInvCreated, SInvOnline | SInvCreated, SInvExpired
  | SInvCreated, SInvRevoked | SInvFailed, SInvFailed | SInvFailed, SInvExpired | SInvFailed, SInvRevoked
  | SInvEnrolled, SInvEnrolled | SInvEnrolled, SInvOnline | SInvEnrolled, SInvRevoked | SInvOnline, SInvOnline
  | SInvOnline, SInvRevoked | SInvExpired, SInvExpired | SInvExpired, SInvRevoked | SInvRevoked, SInvRevoked => true
  | _, _ => false
  end.
Definition invitation_row_progress (i i' : InvitationRow) : Prop :=
  invitation_identity i' = invitation_identity i /\ invitation_step (iv_state i) (iv_state i') = true /\
  (forall a, iv_bound_agent_id i = Some a -> iv_bound_agent_id i' = Some a).
Definition invitation_progress (db db' : Database) : Prop :=
  forall k i, invitations db !! k = Some i -> exists i', invitations db' !! k = Some i' /\ invitation_row_progress i i'.
Notation invitations_evolve := (evolves invitation_rows_wf invitation_progress).

Lemma invitation_row_progress_refl i : invitation_row_progress i i.
Proof. split_and!; [done|by destruct (iv_state i)|done]. Qed.
#[global] Instance invitation_progress_PreOrder : PreOrder invitation_progress.
Proof.
  split.
  - intros db k i Hk. exists i. split; [done|apply invitation_row_progress_refl].
  - intros d1 d2 d3 H12 H23 k i Hk. destruct (H12 k i Hk) as (i2 & Hk2 & I2 & S2 & B2).
    destruct (H23 k i2 Hk2) as (i3 & Hk3 & I3 & S3 & B3). exists i3. split; [done|].
    split_and!; [congruence| |eauto]. destruct (iv_state i), (iv_state i2); try done; destruct (iv_state i3); done.
Qed.
#[global] Instance invitations_footprint : Footprint invitations invitations_evolve.
Proof.
  intros db db' E Hwf. unfold same in E. split; [unfold invitation_rows_wf; by rewrite E|].
  intros k i Hk. exists i. rewrite E. split; [done|apply invitation_row_progress_refl].
Qed.
#[export] Hint Extern 7 (Steps invitations_evolve _) => solve [apply (frame_steps invitations); [typeclasses eauto|frame]] : steps.

Lemma update_invitations_evolves p f :
  (forall i, p i = true -> invitation_row_progress i (f i) /\
     (invitation_row_wf (iv_invitation_id i) i -> invitation_row_wf (iv_invitation_id i) (f i))) ->
  Steps invitations_evolve (update_invitations_where p f).
Proof.
  intros Hf db n db' [-> _]%update_invitations_where_Ok Hwf. split.
  - intros k i'. simpl. rewrite lookup_update_where. intros (i & Hi & ->)%fmap_Some.
    pose proof (Hwf k i Hi) as Hw. destruct (p i) eqn:Hp; [|done].
    assert (iv_invitation_id i = k) as <- by apply Hw. by apply Hf.
  - intros k i Hk. simpl. rewrite lookup_update_where, Hk. eexists. split; [done|].
    destruct (p i) eqn:Hp; [by apply Hf|apply invitation_row_progress_refl].
Qed.
Lemma insert_invitation_evolves row : iv_state row = SInvCreated -> iv_bound_agent_id row = None ->
  Steps invitations_evolve (insert_invitation row).
Proof.
  intros Hs Hb db u db' Hrun Hwf. unfold insert_invitation, invitations_constraints, unique, check, references, exists_in in Hrun. tx_inv Hrun. bools.
  split.
  - apply map_Forall_insert_2; [|done]. split; [done|]. by rewrite Hs.
  - intros k i Hk. exists i. simpl. rewrite lookup_insert_ne by (intros <-; eauto).
    split; [done|apply invitation_row_progress_refl].
Qed.
Lemma update_invitation_evolves (db : Database) k i i' : invitations db !! k = Some i -> invitation_row_progress i i' ->
  (invitation_row_wf k i -> invitation_row_wf k i') ->
  invitations_evolve db (db <| invitations := <[k := i']> (invitations db) |>).
Proof.
  intros Hk Hp Hw Hwf. split.
  - apply map_Forall_insert_2; [|done]. exact (Hw (Hwf k i Hk)).
  - intros j x Hj. simpl. destruct (decide (k = j)) as [<-|Hne].
    + exists i'. rewrite lookup_insert_eq. split; [done|]. congruence.
    + exists x. rewrite lookup_insert_ne by done. split; [done|apply invitation_row_progress_refl].
Qed.

(** ** Commands and Managed Work *)
Section Controller.
Context `{Encoding, Sha256}.
Definition controller_footprint (db : Database) :=
  (agents db, commands db, managed_work db, managed_payloads db).
Definition controller_evolves : Database -> Database -> Prop := evolves controller_wf work_progress.
#[global] Instance controller_evolves_PreOrder : PreOrder controller_evolves.
Proof. unfold controller_evolves. typeclasses eauto. Qed.
#[global] Instance controller_footprint_same : Footprint controller_footprint controller_evolves.
Proof.
  intros db db' [= E1 E2 E3 E4] (Ha & C & S & W & Q & D). split; [split_and!|].
  - unfold agents_wf. by rewrite E1.
  - unfold commands_wf, command_wf in *. by rewrite E1, E2.
  - unfold sequences_wf in *. by rewrite E2.
  - by apply (same_work_evolves db db' E3 E4).
  - by apply (same_quotas db db' E3).
  - unfold dispatch_wf in *. by rewrite E2, E3.
  - apply (same_work_evolves db db' E3 E4 W).
Qed.
Lemma steps_controller {A} (m : Tx A) : Keeps controller_wf m -> Steps work_evolves m -> Steps controller_evolves m.
Proof.
  intros H1 H2 s a s' Hr Hwf. split; [exact (H1 _ _ _ Hr Hwf)|]. apply (H2 _ _ _ Hr). apply Hwf.
Qed.
Lemma upsert_agent_controller row : agent_id_valid (ag_agent_id row) = true -> Steps controller_evolves (upsert_agent row).
Proof.
  intros Hv db u db' Hrun (Ha & C & S & W & Q & D).
  apply upsert_agent_Ok in Hrun as Hrun'. destruct Hrun' as [E1 _].
  assert (same (fun db => (commands db, managed_work db, managed_payloads db)) db db') as [= E2 E3 E4].
  { assert (Frame (fun db => (commands db, managed_work db, managed_payloads db)) (upsert_agent row)) as Hfr by frame.
    exact (Hfr _ _ _ Hrun). }
  split; [split_and!|].
  - unfold agents_wf. rewrite E1. by apply map_Forall_insert_2.
  - intros k c. rewrite E2. intros Hk. destruct (C k c Hk) as (? & ? & Hs & ? & ?). split_and!; try done.
    rewrite E1. destruct (decide (ag_agent_id row = cm_agent_id c)) as [->|]; [rewrite lookup_insert_eq; eauto|].
    by rewrite lookup_insert_ne.
  - unfold sequences_wf in *. by rewrite E2.
  - by apply (same_work_evolves db db' E3 E4).
  - by apply (same_quotas db db' E3).
  - unfold dispatch_wf in *. by rewrite E2, E3.
  - apply (same_work_evolves db db' E3 E4 W).
Qed.
End Controller.
#[export] Hint Extern 7 (Steps controller_evolves _) => solve [apply (frame_steps controller_footprint); [typeclasses eauto|frame]] : steps.

(** ** The active Agents *)
#[export] Hint Resolve try_insert_key_versioned retire_keys_versioned upsert_agent_versioned
  initialize_router_policy_versioned : steps.
#[export] Hint Extern 7 (Steps authority_evolves _) =>
  solve [apply (frame_steps authority_footprint); [typeclasses eauto|frame]] : steps.
#[export] Hint Extern 6 (Steps authority_evolves (modify _)) =>
  solve [apply (modify_frame_evolves _ authority_footprint); intros; reflexivity] : steps.
Lemma upsert_organization_versioned row : Steps authority_evolves (upsert_organization row).
Proof. unfold upsert_organization. steps. Qed.
#[export] Hint Resolve upsert_organization_versioned : steps.
Lemma prepare_versioned `{Collation} o cfg rb build now : Always authority_evolves (prepare_router_policy o cfg rb build now).
Proof.
  intros db r db' Hrun Hk. destruct r as [p|e].
  - apply prepare_router_policy_Ok in Hrun as (row & row' & ags & Hrow & _ & _ & _ & _ & [(_ & _ & ->)|(_ & pr & Hnew)]); [by split|].
    destruct Hnew as (_ & _ & _ & _ & Hrev & _ & _ & _ & ->). by apply (policy_update_versioned db o row row').
  - apply transaction_inv in Hrun as [(? & ? & _)|(? & _ & ->)]; [done|by split].
Qed.
Lemma acknowledge_versioned o p checked now : Always authority_evolves (acknowledge_router_policy o p checked now).
Proof.
  intros db r db' Hrun Hk. destruct r as [ad|e].
  - apply acknowledge_router_policy_Ok in Hrun as (row & t & Hrow & _ & _ & _ & _ & _ & _ & ->).
    by apply (policy_update_versioned db o row).
  - apply transaction_inv in Hrun as [(? & ? & _)|(? & _ & ->)]; [done|by split].
Qed.

(** ** Operations *)
Section Operations.
Context `{Encoding, Ed25519, Sha256, Thumbprint, EnvelopeCodec, InventoryCodec, FactsCodec, ChronoRange, Collation,
  ScanOrder, !HexSpec}.

#[local] Hint Unfold register_verification_key apply_snapshot insert_audit_event enqueue_in recent_failures
  apply_receipt : frames.

(** What an operation may do to each part of the database, whether it succeeds or not. *)
Record lawful {A} (m : Repo A) : Prop := mkLawful {
  lawful_controller : Always controller_evolves m;
  lawful_keys : Always keys_evolves m;
  lawful_router : Always router_evolves m;
  lawful_authority : Always authority_evolves m;
  lawful_invitations : Always invitations_evolve m;
  lawful_devices : Always (keeps devices_wf) m;
  lawful_audit : Always audit_evolves m;
  lawful_evidence : Always evidence_grows m;
}.
#[local] Ltac lawful := split; steps.

Lemma read_only_lawful {A} (m : Repo A) : Always eq m -> lawful m.
Proof. intros Hm. split; intros db r db' Hr; apply Hm in Hr as <-; reflexivity. Qed.

Lemma ensure_organization_lawful o n s sn now : lawful (ensure_organization o n s sn now).
Proof. unfold ensure_organization. lawful. Qed.
Lemma create_invitation_lawful code o s l st en ax t : lawful (create_invitation code o s l st en ax t).
Proof. unfold create_invitation. lawful. by apply insert_invitation_evolves. Qed.
Lemma mark_expired_evolves p : (forall i, p i = true -> expirable (iv_state i) = true) ->
  Steps invitations_evolve (update_invitations_where p mark_expired).
Proof.
  intros Hp. apply update_invitations_evolves. intros i Hi. specialize (Hp i Hi).
  split; [|by intros [? _]]. split_and!; [done| |done]. by destruct (iv_state i).
Qed.
Lemma expire_invitation_lawful id now : lawful (expire_invitation id now).
Proof. unfold expire_invitation. lawful. apply mark_expired_evolves. unfold overdue. intros i Hi. by bools. Qed.
Lemma lawful_bind {A B} (m : Repo A) (f : A -> Repo B) : lawful m -> (forall a, lawful (f a)) -> lawful (m ≫= f).
Proof. intros [] Hf. split; apply always_bind; try typeclasses eauto; try done; intros a; by destruct (Hf a). Qed.
Lemma lawful_returns {A} (r : GatewayResult A) : lawful (returns r).
Proof. apply read_only_lawful. by intros db r' db' [= _ <-]. Qed.
Lemma lawful_queries {A} (f : Database -> GatewayResult A) : lawful (queries f).
Proof. apply read_only_lawful. by intros db r' db' [= _ <-]. Qed.
Lemma invitation_lawful id now : lawful (invitation id now).
Proof.
  unfold invitation. apply lawful_bind; [apply expire_invitation_lawful|]. intros _. apply lawful_queries.
Qed.
Lemma list_invitations_lawful now : lawful (list_invitations now).
Proof.
  unfold list_invitations. apply lawful_bind; [|intros; apply lawful_queries].
  lawful. apply mark_expired_evolves. unfold overdue. intros i Hi. by bools.
Qed.
Lemma revoke_invitation_lawful id now o ax t : lawful (revoke_invitation id now o ax t).
Proof.
  unfold revoke_invitation. apply lawful_bind.
  - unfold revoke_in. lawful. apply update_invitations_evolves. intros i Hi. bools.
    split; [|by intros [? _]]. split_and!; [done| |done]. by destruct (iv_state i).
  - intros [id'|]; [apply invitation_lawful|]. apply lawful_bind; [apply invitation_lawful|]. intros; apply lawful_returns.
Qed.
Lemma record_audit_event_lawful t d : lawful (record_audit_event t d).
Proof. unfold record_audit_event. lawful. Qed.
#[local] Hint Unfold policy_in active_agents : frames.
Lemma prepare_lawful o cfg rb build now : lawful (prepare_router_policy o cfg rb build now).
Proof.
  split; cycle 2; [apply prepare_router_evolves|apply prepare_versioned|..]; unfold prepare_router_policy; steps.
Qed.
Lemma acknowledge_lawful o p t1 t2 : lawful (acknowledge_router_policy o p t1 t2).
Proof.
  split; cycle 2; [apply acknowledge_router_evolves|apply acknowledge_versioned|..]; unfold acknowledge_router_policy; steps.
Qed.

(** *** Commands and Managed Work *)
Lemma enqueue_lawful ad a req fp build clk : requested_valid req = true -> lawful (enqueue_command ad a req fp build clk).
Proof.
  intros Hreq. unfold enqueue_command. apply lawful_bind; [|intros; apply lawful_returns].
  lawful. apply steps_controller; [by apply enqueue_in_wf|].
  apply frame_work_evolves; frame.
Qed.
Lemma mark_published_lawful a c now : lawful (mark_command_published a c now).
Proof.
  unfold mark_command_published. lawful. apply steps_controller; [apply mark_published_wf|].
  apply frame_work_evolves; frame.
Qed.
Lemma preflight_lawful p : lawful (create_managed_work_preflight p).
Proof. unfold create_managed_work_preflight. lawful. Qed.
#[local] Hint Unfold admit_in admit_new find_existing_managed_work existing_dispatch managed_work_target_in pending_usage
  insert_dispatch_command next_command_sequence require_admission_in is_active_agent expire_in expire_one : frames.
Lemma admit_lawful m build clk : submission_valid m = true -> lawful (admit_managed_work m build clk).
Proof.
  intros Hv. unfold admit_managed_work. destruct (negb _); [apply lawful_returns|].
  apply lawful_bind; [|intros; apply lawful_returns].
  lawful. apply steps_controller; [by apply admit_in_wf|by apply admit_in_evolves].
Qed.
Lemma expire_payloads_lawful now : lawful (expire_managed_payloads now).
Proof.
  unfold expire_managed_payloads. lawful. apply steps_controller; [apply expire_in_wf|apply expire_in_evolves].
Qed.

(** *** Retirement and enrollment *)
Lemma retire_lawful o a ax now t : lawful (retire_agent_credentials o a ax now t).
Proof.
  unfold retire_agent_credentials, retire_in. lawful.
  apply update_invitations_evolves. intros i Hi. bools. split; [|by intros [? _]].
  split_and!; [done| |done]. unfold live_invitation in *. by destruct (iv_state i).
Qed.

Lemma enroll_in_controller {T} code e snapshot limit (prepare : GatewayResult T) clock :
  agent_id_valid (er_agent_id e) = true -> Steps controller_evolves (enroll_in code e snapshot limit prepare clock).
Proof. intros Hv. unfold enroll_in, persist_enrollment. steps. by apply upsert_agent_controller. Qed.
Lemma enroll_in_invitations {T} code e snapshot limit (prepare : GatewayResult T) clock :
  Steps invitations_evolve (enroll_in code e snapshot limit prepare clock).
Proof.
  intros db reply db' Hrun Hwf. apply enroll_in_Ok in Hrun as (i & Hi & _ & Hcase).
  assert (forall d, invitations d = invitations db -> invitations_evolve db d) as Hsame
    by (intros d Ed; apply footprint_same; exact Ed).
  destruct Hcase as [(_ & _ & [_ ->]%insert_invitation_attempt_Ok)|(_ & _ & _ & _ & fp & v & _ & _ & Hcase)];
    [by apply Hsame|].
  destruct Hcase as [(Hst & _ & Hp)|(_ & -> & _)]; [|by apply Hsame].
  apply persist_enrollment_Ok in Hp as ((row & Hrow & Einv) & _). simpl in Hrow, Einv.
  destruct (Hwf _ _ Hi) as [Hid Hb]. rewrite Hid in *. assert (row = i) as -> by congruence. rewrite Hst in Hb.
  set (t := stored_time (trunc_micros (ck_now clock))) in *.
  assert (invitation_row_progress i (bind_invitation e snapshot fp t i)) as Hprog.
  { split_and!; [done|by rewrite Hst|]. intros a Ha. congruence. }
  destruct (update_invitation_evolves db (ic_id code) i _ Hi Hprog) as [W P]; [|exact Hwf|].
  - intros _. split; [done|]. simpl. eauto.
  - split; [unfold invitation_rows_wf; by rewrite Einv|]. intros k j Hk. rewrite Einv. exact (P k j Hk).
Qed.
Lemma enroll_lawful {T} code e snapshot limit (prepare : GatewayResult T) clock :
  agent_id_valid (er_agent_id e) = true -> lawful (enroll_agent code e snapshot limit prepare clock).
Proof.
  intros Hv. unfold enroll_agent. apply lawful_bind; [|intros; apply lawful_returns].
  split; apply always_transaction; try typeclasses eauto;
    [by apply enroll_in_controller| | | |apply enroll_in_invitations|..];
    unfold enroll_in, persist_enrollment, register_verification_key; steps.
Qed.

(** *** Publications *)
Lemma record_publication_invitations a key m now : Steps invitations_evolve (record_publication_in a key m now).
Proof.
  intros db u db' Hrun Hwf.
  apply record_publication_in_Ok in Hrun as (inv & ag & stored & _ & _ & _ & _ & _ & [[_ ->]|(_ & d1 & d2 & H1' & H2' & H3')]);
    [split; [done|reflexivity]|].
  assert (Frame invitations (reconcile_state_observation a m now)) as F1 by frame.
  assert (Frame invitations (apply_receipt a m now)) as F3 by frame.
  apply F1 in H1'. apply F3 in H3'. unfold same in H1', H3'. simpl in H1'.
  assert (invitations_evolve d1 d2) as Hev.
  { unfold apply_snapshot in H2'. destruct (publication_snapshot m) as [s|]; [|apply tx_ret_Ok in H2' as [_ ->]; reflexivity].
    destruct inv as [items|]; [|apply tx_ret_Ok in H2' as [_ ->]; reflexivity].
    destruct (bound_invitation db a ag) as [i|] eqn:Hb; [|apply tx_ret_Ok in H2' as [_ ->]; reflexivity].
    destruct (snapshot_applies i ag s); [|apply tx_ret_Ok in H2' as [_ ->]; reflexivity].
    apply tx_bind_Ok in H2' as (u1 & s1 & Happ & (row & Hrow & ->)%update_invitation_Ok).
    assert (Frame invitations (inventory_apply items a (ag_site_id ag) (gs_generated_at s))) as F2 by frame.
    apply F2 in Happ. unfold same in Happ. etrans; [by apply footprint_same; exact Happ|].
    unfold bound_invitation in Hb. apply find_one_Some in Hb as [Hp [k Hk]]. destruct (Hwf k i Hk) as [Hid Hbound].
    rewrite Happ, H1' in Hrow. rewrite Hid in *. assert (row = i) as -> by congruence. bools.
    eapply update_invitation_evolves; [by rewrite Happ, H1'| |].
    - split_and!; [done| |done]. unfold live_invitation in *. by destruct (iv_state i).
    - intros _. split; [done|]. simpl. eauto. }
  destruct Hev as [W P].
  { unfold invitation_rows_wf. by rewrite H1'. }
  split; [unfold invitation_rows_wf; by rewrite H3'|]. intros k i Hk. rewrite H3'. apply P. by rewrite H1'.
Qed.

Lemma record_publication_always (R : Database -> Database -> Prop) `{!PreOrder R} a key m now t :
  Steps R (record_publication_in a key m now) -> (forall d, Always R (record_audit_event t d)) ->
  Always R (record_publication a key m now t).
Proof.
  intros H1' H2' db r db' Hrun. unfold record_publication, record_publication_transaction in Hrun.
  destruct (transaction (record_publication_in a key m now) db) as [r1 db1] eqn:Htx.
  assert (R db db1) as Hr1 by exact (always_transaction R _ H1' _ _ _ Htx).
  destruct (rejected_inventory m r1); [|by injection Hrun as _ <-]. etrans; [exact Hr1|]. revert Hrun.
  match goal with |- ?f db1 = _ -> _ => assert (Always R f) as Hf; [|exact (Hf db1 r db')] end.
  apply always_bind; [done|apply always_transaction; [done|]; apply read_only_steps; typeclasses eauto|]. intros ag.
  repeat (apply always_bind; [done|solve [apply always_returns; typeclasses eauto|apply H2']|intros ?]).
  apply always_returns; typeclasses eauto.
Qed.
#[local] Hint Unfold reconcile_state_observation record_observation : frames.
Lemma reconcile_evidence a m now : Steps evidence_grows (reconcile_state_observation a m now).
Proof.
  unfold reconcile_state_observation, record_observation. steps.
Qed.
Lemma record_publication_lawful a key m now t : lawful (record_publication a key m now t).
Proof.
  pose proof (record_audit_event_lawful t) as Hau.
  split; (apply record_publication_always; [typeclasses eauto| |intros d; by destruct (Hau d)]).
  - apply steps_controller; [apply record_publication_in_wf|].
    unfold record_publication_in. steps; apply frame_work_evolves; frame.
  - unfold record_publication_in. steps.
  - unfold record_publication_in. steps.
  - unfold record_publication_in. steps.
  - apply record_publication_invitations.
  - unfold record_publication_in, apply_snapshot. steps.
  - unfold record_publication_in. steps.
  - unfold record_publication_in. steps. apply reconcile_evidence.
Qed.

(** ** The transition system *)
Inductive step (db : Database) : Database -> Prop :=
| step_ensure_organization o n s sn now : step db (snd (ensure_organization o n s sn now db))
| step_create_invitation code o s l st en ax t : step db (snd (create_invitation code o s l st en ax t db))
| step_invitation id now : step db (snd (invitation id now db))
| step_list_invitations now : step db (snd (list_invitations now db))
| step_revoke_invitation id now o ax t : step db (snd (revoke_invitation id now o ax t db))
| step_enroll T code e snapshot limit (prepare : GatewayResult T) clock : agent_id_valid (er_agent_id e) = true ->
    step db (snd (enroll_agent code e snapshot limit prepare clock db))
| step_retire o a ax now t : step db (snd (retire_agent_credentials o a ax now t db))
| step_prepare_router_policy o cfg rb build now : step db (snd (prepare_router_policy o cfg rb build now db))
| step_acknowledge_router_policy o p t1 t2 : step db (snd (acknowledge_router_policy o p t1 t2 db))
| step_enqueue ad a req fp build clk : requested_valid req = true -> step db (snd (enqueue_command ad a req fp build clk db))
| step_mark_published a c now : step db (snd (mark_command_published a c now db))
| step_record_publication a key m now t : step db (snd (record_publication a key m now t db))
| step_preflight p : step db (snd (create_managed_work_preflight p db))
| step_admit m build clk : submission_valid m = true -> step db (snd (admit_managed_work m build clk db))
| step_expire_payloads now : step db (snd (expire_managed_payloads now db))
| step_audit t d : step db (snd (record_audit_event t d db)).
Definition reachable (db : Database) : Prop := rtc step empty_database db.

(** Every step is an operation that obeys the laws. *)
Lemma step_lawful db db' : step db db' -> exists A (m : Repo A), lawful m /\ db' = snd (m db).
Proof.
  destruct 1; eexists _, _; (split; [|reflexivity]).
  - apply ensure_organization_lawful.
  - apply create_invitation_lawful.
  - apply invitation_lawful.
  - apply list_invitations_lawful.
  - apply revoke_invitation_lawful.
  - by apply enroll_lawful.
  - apply retire_lawful.
  - apply prepare_lawful.
  - apply acknowledge_lawful.
  - by apply enqueue_lawful.
  - apply mark_published_lawful.
  - apply record_publication_lawful.
  - apply preflight_lawful.
  - by apply admit_lawful.
  - apply expire_payloads_lawful.
  - apply record_audit_event_lawful.
Qed.
Lemma rtc_always (R : Database -> Database -> Prop) `{!PreOrder R} :
  (forall A (m : Repo A), lawful m -> Always R m) -> forall db db', rtc step db db' -> R db db'.
Proof.
  intros Hl. induction 1 as [db|db1 db2 db3 Hs _ IH]; [reflexivity|]. etrans; [|exact IH].
  apply step_lawful in Hs as (A & m & Hm & ->). specialize (Hl A m Hm db1). destruct (m db1) as [r d]. by eapply Hl.
Qed.

(** The initial database. *)
Lemma empty_controller_wf : controller_wf empty_database.
Proof. by apply controller_wf_no_work. Qed.

Lemma reachable_controller_wf db : reachable db -> controller_wf db.
Proof. intros Hr. by apply (rtc_always controller_evolves (fun A m Hm => lawful_controller m Hm) _ _ Hr), empty_controller_wf. Qed.
Lemma reachable_keys_wf db : reachable db -> keys_wf db.
Proof.
  intros Hr. apply (rtc_always keys_evolves (fun A m Hm => lawful_keys m Hm) _ _ Hr). split; intros; simplify_map_eq.
Qed.
Lemma reachable_router_wf db : reachable db -> router_policies_wf db.
Proof. intros Hr. apply (rtc_always router_evolves (fun A m Hm => lawful_router m Hm) _ _ Hr). apply map_Forall_empty. Qed.
Lemma reachable_invitations_wf db : reachable db -> invitation_rows_wf db.
Proof.
  intros Hr. apply (rtc_always invitations_evolve (fun A m Hm => lawful_invitations m Hm) _ _ Hr). apply map_Forall_empty.
Qed.
Lemma reachable_audit_wf db : reachable db -> audit_wf db.
Proof. intros Hr. apply (rtc_always audit_evolves (fun A m Hm => lawful_audit m Hm) _ _ Hr). apply map_Forall_empty. Qed.

(** C16: the queue limits hold in every reachable state.  An Agent never has more than 32 pending works or 64 MiB of
    pending payload, an Organization never more than 256 works or 512 MiB, whatever the order of operations. *)
Theorem queue_limits_always_hold db : reachable db ->
  (forall a, Z.of_nat (length (pending_rows db mw_agent_id a)) <= 32 /\
     sum_bytes (pending_rows db mw_agent_id a) <= 64 * 1024 * 1024) /\
  (forall o, Z.of_nat (length (pending_rows db mw_organization_id o)) <= 256 /\
     sum_bytes (pending_rows db mw_organization_id o) <= 512 * 1024 * 1024).
Proof. intros (_ & _ & _ & _ & (_ & Ha & Ho) & _)%reachable_controller_wf. split; [exact Ha|exact Ho]. Qed.

(** The commands of an Agent are numbered without gaps in every reachable state.  For each Agent the sequence
    numbers are exactly 1 to n, each carried by one command, so an Agent that replays from any number misses none. *)
Theorem command_numbers_are_gap_free db a : reachable db ->
  exists n, 0 <= n /\ forall s, 0 < s <= n <->
    exists k c, commands db !! k = Some c /\ cm_agent_id c = a /\ cm_sequence c = s /\
      forall k' c', commands db !! k' = Some c' -> cm_agent_id c' = a -> cm_sequence c' = s -> k' = k.
Proof.
  intros (_ & _ & (Hkey & Hu & Hgap) & _)%reachable_controller_wf. pose proof (max_sequence_spec db a) as Hm.
  exists (default 0 (max_sequence db a)). destruct (max_sequence db a) as [m|]; simpl.
  - destruct Hm as [(k0 & c0 & Hk0 & Ha0 & Hs0) Hmax]. destruct (Hkey _ _ Hk0) as [_ Hpos]. split; [lia|]. intros s. split.
    + intros Hs. destruct (Hgap k0 c0 s Hk0 ltac:(lia)) as (k & c & Hk & Ha & Hsc). exists k, c.
      split_and!; [done|congruence|done|]. intros k' c' Hk' Ha' Hs'. eapply Hu; [done|done|congruence|congruence].
    + intros (k & c & Hk & Ha & Hs & _). destruct (Hkey _ _ Hk) as [_ ?]. specialize (Hmax k c Hk Ha). lia.
  - split; [lia|]. intros s. split; [lia|]. intros (k & c & Hk & Ha & _). by destruct (Hm k c Hk).
Qed.

(** C4: Managed Work and what is stored for it agree in every reachable state.  A work is dispatching, accepted or of
    uncertain recovery; its sealed payload is stored exactly while it dispatches; it carries a signed observation of
    itself exactly when it is accepted; and it has one dispatch command, owned by the same Agent, which is accepted
    exactly when the work is and open (queued or published) until then.  No payload and no dispatch command exists
    without its work. *)
Theorem managed_work_is_consistent db : reachable db ->
  (forall k w, managed_work db !! k = Some w ->
     mw_managed_work_id w = k /\
     (mw_state w = MwDispatching \/ mw_state w = MwAccepted \/ mw_state w = MwRecoveryUncertain) /\
     (is_Some (managed_payloads db !! k) <-> mw_state w = MwDispatching) /\
     (mw_state w = MwAccepted <-> exists signed, mw_print_job_observation w = Some signed /\
        pj_managed_work_id (ob_job (so_observation signed)) = k) /\
     exists c, commands db !! dispatch_command_id k = Some c /\ cm_command c = ManagedWorkContent k /\
       cm_agent_id c = mw_agent_id w /\ (cm_state c = CsAccepted <-> mw_state w = MwAccepted) /\
       (mw_state w <> MwAccepted -> cm_state c = CsQueued \/ cm_state c = CsPublished)) /\
  (forall k, is_Some (managed_payloads db !! k) -> is_Some (managed_work db !! k)) /\
  (forall id c k, commands db !! id = Some c -> cm_command c = ManagedWorkContent k ->
     id = dispatch_command_id k /\ is_Some (managed_work db !! k)).
Proof.
  intros (_ & _ & _ & (Hrow & Hpay & _) & _ & D1 & D2)%reachable_controller_wf. split_and!; [|exact Hpay|exact D2].
  intros k w Hw. destruct (Hrow k w Hw) as (Hid & _ & Hl). destruct (D1 k w Hw) as (c & Hc & Hcmd & Hag & _ & Hst).
  unfold lifecycle in Hl. destruct (mw_state w) eqn:Es; try done; simpl in Hst.
  - destruct Hl as (Hp & _ & Ho & _). split_and!; [done|by left|done|split; [done|intros (? & ? & _); congruence]|].
    exists c. split_and!; try done. split; [intros E; destruct Hst; congruence|done].
  - destruct Hl as (Hp & _ & (sg & Ho & _ & Hk)). split_and!; [done|by right; left| | |].
    + rewrite Hp. split; [by intros [? ?]|done].
    + split; [eauto|done].
    + exists c. split_and!; try done.
  - destruct Hl as (Hp & _ & Ho & _). split_and!; [done|by right; right| | |].
    + rewrite Hp. split; [by intros [? ?]|done].
    + split; [done|intros (? & ? & _); congruence].
    + exists c. split_and!; try done. split; [intros E; destruct Hst; congruence|done].
Qed.

(** C3: Managed Work only moves forward.  Along every execution a work keeps the identity, payload size and deadline
    it was admitted with; it goes from dispatching to accepted or to uncertain recovery, and from there only to
    accepted; the observation of an accepted work is only replaced by a newer one; and a payload that was deleted is
    never stored again. *)
Theorem managed_work_moves_forward db db' k w : reachable db -> rtc step db db' -> managed_work db !! k = Some w ->
  exists w', managed_work db' !! k = Some w' /\ work_identity w' = work_identity w /\
    state_step (mw_state w) (mw_state w') /\
    observed_since (mw_print_job_observation w) (mw_print_job_observation w') /\
    (managed_payloads db !! k = None -> managed_payloads db' !! k = None).
Proof.
  intros Hr Hs Hw. pose proof (reachable_controller_wf db Hr) as Hwf.
  destruct (rtc_always controller_evolves (fun A m Hm => lawful_controller m Hm) _ _ Hs Hwf) as [Hwf' Hp].
  destruct (Hp k w Hw) as (w' & Hw' & Hid & Hst & Hob). exists w'. split_and!; try done. intros Hnone.
  destruct Hwf as (_ & _ & _ & (Hrow & _) & _), Hwf' as (_ & _ & _ & (Hrow' & _) & _).
  destruct (Hrow k w Hw) as (_ & _ & Hl), (Hrow' k w' Hw') as (_ & _ & Hl'). rewrite Hnone in Hl.
  unfold lifecycle in Hl, Hl'. destruct (mw_state w') eqn:Es'; try done; [|by destruct Hl' as [? _]|by destruct Hl' as [? _]].
  destruct (mw_state w) eqn:Es; try done; [by destruct Hl as [[? ?] _]| |];
    destruct Hst as [?|[[? ?]|[[? [?|?]]|[? ?]]]]; done.
Qed.

(** C6: revoked authority stays revoked.  Once an Agent with an active key is retired, no admission of its
    Organization issued up to then is ever accepted again, in no later state and for no Agent: the admission check
    refuses it, and queueing a command under it fails and changes nothing.  Only a new policy generation that the
    Routers acknowledge admits again. *)
Theorem retired_authority_stays_revoked o a ax now t db db1 db2 row :
  reachable db -> retire_agent_credentials o a ax now t db = (Ok tt, db1) -> rtc step db1 db2 ->
  router_policies db !! o = Some row ->
  (exists k r, agent_verification_keys db !! k = Some r /\ vk_agent_id r = a /\ active_key r = true) ->
  forall ad any clk, ra_organization_id ad = o -> ra_generation ad <= rp_generation row ->
    require_router_admission ad any clk db2 = (Err (Unavailable "The Agent has no current Router admission"), db2) /\
    (forall req fp build c, enqueue_command ad any req fp build c db2 =
       (Err (Unavailable "The Agent has no current Router admission"), db2)).
Proof.
  intros Hr Hret Hs Hrow Hkey ad any clk Ho Hg.
  assert (step db db1) as Hstep by (rewrite <- (f_equal snd Hret : snd _ = db1); apply step_retire).
  assert (reachable db1) as Hr1 by (eapply rtc_r; [exact Hr|exact Hstep]).
  apply transaction_Ok, retire_in_Ok in Hret as (ag & _ & _ & _ & _ & _ & _ & Hstale).
  pose proof (Hstale (reachable_router_wf db Hr) row Hrow Hkey) as Hst.
  destruct (rtc_always router_evolves (fun A m Hm => lawful_router m Hm) _ _ Hs (reachable_router_wf db1 Hr1)) as [_ Hprog].
  assert (stale (ra_organization_id ad) (ra_generation ad) db2) as Hst2.
  { rewrite Ho. eapply stale_progress; [exact Hprog|]. destruct Hst as (row' & Hr' & Hc). exists row'. split; [done|].
    destruct Hc as [?|[Hg' Hrev]]; [left; lia|]. destruct (decide (ra_generation ad = rp_generation row)) as [->|];
      [right; done|left; lia]. }
  pose proof (fun t => stale_refused db2 ad any t Hst2) as Href. split.
  - unfold require_router_admission, transaction. by rewrite Href.
  - intros req fp build c. unfold enqueue_command, enqueue_in, transaction. unfold mbind, repo_bind, tx_bind. by rewrite Href.
Qed.

(** Keys are permanent and retirement is final.  Along every execution a registered verification key keeps its
    owner, purpose, material and registration time, and once retired it stays retired as of the same time; in every
    reachable state an Agent has at most one active key for a purpose. *)
Theorem key_retirement_is_final db db' : reachable db -> rtc step db db' ->
  (forall k r, agent_verification_keys db !! k = Some r -> exists r', agent_verification_keys db' !! k = Some r' /\
     key_identity r' = key_identity r /\ (forall t, vk_retired_at r = Some t -> vk_retired_at r' = Some t)) /\
  (forall k1 k2 r1 r2, agent_verification_keys db' !! k1 = Some r1 -> agent_verification_keys db' !! k2 = Some r2 ->
     vk_agent_id r1 = vk_agent_id r2 -> vk_purpose r1 = vk_purpose r2 ->
     active_key r1 = true -> active_key r2 = true -> k1 = k2).
Proof.
  intros Hr Hs. destruct (rtc_always keys_evolves (fun A m Hm => lawful_keys m Hm) _ _ Hs (reachable_keys_wf db Hr))
    as [[_ Hu] Hp]. split; [exact Hp|exact Hu].
Qed.

(** The records of the past are append-only.  Along every execution no audit event, publication or signed
    observation is changed or removed. *)
Theorem records_are_append_only db db' : reachable db -> rtc step db db' ->
  audit_events db ⊆ audit_events db' /\ publications db ⊆ publications db' /\
  agent_state_observations db ⊆ agent_state_observations db'.
Proof.
  intros Hr Hs. destruct (rtc_always audit_evolves (fun A m Hm => lawful_audit m Hm) _ _ Hs (reachable_audit_wf db Hr)) as [_ Ha].
  destruct (rtc_always evidence_grows (fun A m Hm => lawful_evidence m Hm) _ _ Hs) as [Hp Ho]. done.
Qed.

(** An invitation is used at most once.  Along every execution it keeps its secret, Organization, Site and
    deadline; its state only moves forward, from created to enrolled to online, or to expired or revoked, and
    revocation is final; and the Agent it was bound to never changes. *)
Theorem invitations_move_forward db db' k i : reachable db -> rtc step db db' -> invitations db !! k = Some i ->
  exists i', invitations db' !! k = Some i' /\ invitation_identity i' = invitation_identity i /\
    invitation_step (iv_state i) (iv_state i') = true /\
    (iv_state i = SInvRevoked -> iv_state i' = SInvRevoked) /\
    (forall a, iv_bound_agent_id i = Some a -> iv_bound_agent_id i' = Some a).
Proof.
  intros Hr Hs Hi. destruct (rtc_always invitations_evolve (fun A m Hm => lawful_invitations m Hm) _ _ Hs
    (reachable_invitations_wf db Hr)) as [_ Hp].
  destruct (Hp k i Hi) as (i' & Hi' & Hid & Hst & Hb). exists i'. split_and!; try done.
  intros E. rewrite E in Hst. by destruct (iv_state i').
Qed.

(** A policy generation is never issued twice.  Along every execution the generation and the authority revision
    of an Organization's router policy never decrease, and while the generation stays the same, so do the signed
    policy, its digest, its configuration and its expiry. *)
Theorem policy_generations_are_unique db db' o row : reachable db -> rtc step db db' ->
  router_policies db !! o = Some row ->
  exists row', router_policies db' !! o = Some row' /\
    rp_generation row <= rp_generation row' /\ rp_authority_revision row <= rp_authority_revision row' /\
    (rp_generation row' = rp_generation row ->
       rp_signed_policy row' = rp_signed_policy row /\ rp_policy_digest row' = rp_policy_digest row /\
       rp_configuration_digest row' = rp_configuration_digest row /\ rp_expires_at row' = rp_expires_at row /\
       rp_policy_revision row' = rp_policy_revision row).
Proof.
  intros Hr Hs Hrow. destruct (rtc_always router_evolves (fun A m Hm => lawful_router m Hm) _ _ Hs (reachable_router_wf db Hr))
    as [_ Hp]. destruct (Hp o row Hrow) as (row' & Hrow' & Ha & Hg & Hsame). exists row'. split_and!; try done.
  intros E. destruct (Hsame E) as (? & ? & ? & ? & ?). done.
Qed.
Lemma reachable_agents_keyed db : reachable db -> agents_keyed db.
Proof. intros Hr. apply (rtc_always authority_evolves (fun A m Hm => lawful_authority m Hm) _ _ Hr). apply map_Forall_empty. Qed.

(** Who the Routers admit is who the Controller admits.  Take a policy prepared at any point of an execution, and any
    later point, after any other operations, at which an admission under that policy's generation still passes.  Then
    the Agents the policy was prepared for are exactly the Agents that are active at that later point, the admitted Agent
    is one of them, and the admission carries the policy's digest. *)
Theorem admission_matches_prepared_policy o cfg rb build t0 db0 p db1 db2 ad agent t :
  reachable db0 -> prepare_router_policy o cfg rb build t0 db0 = (Ok p, db1) -> rtc step db1 db2 ->
  require_router_admission ad agent t db2 = (Ok tt, db2) ->
  ra_organization_id ad = o -> ra_generation ad = pp_generation p ->
  ra_digest ad = pp_digest p /\
  (forall g, g ∈ pp_agents p <-> exists k a, authorized o db2 k a /\ g = mkRouterAgent (ag_agent_id a) (ag_namespace a)) /\
  exists g, g ∈ pp_agents p /\ ra_agent_id g = agent.
Proof.
  intros Hreach Hprep Hsteps Hadm <- Hgen.
  assert (reachable db1) as Hreach1.
  { eapply rtc_r; [exact Hreach|]. assert (db1 = snd (prepare_router_policy (ra_organization_id ad) cfg rb build t0 db0)) as -> by by rewrite Hprep.
    constructor. }
  apply prepare_router_policy_Ok in Hprep as (row & row1 & ags & Hrow & Hags & Hp & Hrow1 & Hcur & Hcase).
  apply persisted_Ok in Hp as (Pg & Pd & Pe & Pa).
  apply transaction_Ok, require_admission_Ok in Hadm
    as [[(row2 & e & k & Hrow2 & _ & Hg2 & Hd2 & Hrev2 & _) (ka & a & Ha & Hid & Horg & Hact)] _].
  destruct (rtc_always router_evolves (fun A m Hm => lawful_router m Hm) _ _ Hsteps (reachable_router_wf db1 Hreach1)) as [_ Hprog].
  destruct (rtc_always authority_evolves (fun A m Hm => lawful_authority m Hm) _ _ Hsteps (reachable_agents_keyed db1 Hreach1)) as [_ Hver].
  destruct (Hprog _ _ Hrow1) as (r & Hr & _ & _ & Hsame). rewrite Hrow2 in Hr. injection Hr as <-.
  destruct Hsame as (Hrev & _ & Hdig & _ & _); [congruence|].
  destruct (Hver _ _ Hrow1) as (r & Hr & _ & Hauth). rewrite Hrow2 in Hr. injection Hr as <-.
  assert (forall g, g ∈ pp_agents p <-> exists k a, authorized (ra_organization_id ad) db2 k a /\
    g = mkRouterAgent (ag_agent_id a) (ag_namespace a)) as Hex.
  { intros g. rewrite Pa, (active_agents_authorized _ _ _ _ Hags g).
    assert (forall k a, authorized (ra_organization_id ad) db1 k a <-> authorized (ra_organization_id ad) db0 k a) as E01.
    { destruct Hcase as [(_ & _ & ->)|(_ & pr & _ & _ & _ & _ & _ & _ & _ & _ & ->)]; done. }
    assert (rp_authority_revision row2 = rp_authority_revision row1) as Erev by congruence.
    pose proof (Hauth Erev) as E12. split; intros (k0 & a0 & Hau & ->); exists k0, a0; (split; [|done]);
      [by apply E12, E01|by apply E01, E12]. }
  split_and!; [congruence|done|]. exists (mkRouterAgent (ag_agent_id a) (ag_namespace a)). split; [|done].
  apply Hex. exists ka, a. by split.
Qed.
End Operations.

(** ** A sample execution

    An Organization is set up, an Agent enrolls with one scale, the Routers acknowledge its policy, and a submission
    is admitted; then the Agent's credentials are retired. *)
Import Toy.
#[local] Instance demo_inventory : InventoryCodec :=
  {| to_value_is_ok := fun _ => true; inventory_from_value := fun _ => Some [sample_item]; json_size := fun _ => Some 2 |}.
Definition demo_audit : AuditContext := mkAuditContext "oidc:alice" None.
Definition demo_scope : ManagedWorkScope := mkManagedWorkScope "odoo" "1" "org_acme" "site_main" "agt_2".
Definition demo_submission : ManagedWorkSubmission :=
  mkManagedWorkSubmission 1 "mpf_1" "sha256:c"
    (mkManagedDeviceWork 1 demo_scope "pi_v1_a" "dev_scale"
       (mkReportPrintOrigin sample_binding RouteManual (SourceRecords "stock.picking" [7]) 0 0)
       (DocLabelDocument "WFla") []).
Definition demo_preflight : NewManagedWorkPreflight :=
  mkNewPreflight "mpf_1" (expected_request demo_submission) "dispatch_1" "sha256:d" (seconds 600) (seconds 900)
    (seconds 160) (seconds 104).
Definition demo_policy : PersistedRouterPolicy := mkPersistedRouterPolicy 1 "{}" (digest_of "p") (seconds 3600) [].
Definition demo_admission : ManagedWorkAdmission :=
  mkWorkAdmission (mkRouterAdmission "org_acme" 1 (digest_of "p") (seconds 113)) "mw_1" "key-1" demo_submission
    (digest_of "r") (digest_of "q") 3 (seconds 105).
Definition demo_1 := snd (ensure_organization "org_acme" "Acme" "site_main" "Main" 0 empty_database).
Definition demo_2 := snd (create_invitation sample_code "org_acme" "site_main" None 0 (seconds 600) demo_audit 0 demo_1).
Definition demo_3 :=
  snd (enroll_agent sample_code sample_enrollment sample_snapshot sample_limit (Ok 7%nat) sample_enroll_clock demo_2).
Definition demo_4 := snd (prepare_router_policy "org_acme" (digest_of "c") 0 sample_build (seconds 101) demo_3).
Definition demo_5 := snd (acknowledge_router_policy "org_acme" demo_policy (seconds 102) (seconds 103) demo_4).
Definition demo_6 := snd (create_managed_work_preflight demo_preflight demo_5).
Definition demo_7 := snd (admit_managed_work demo_admission sample_seal (seconds 105) demo_6).
Definition demo_8 := snd (retire_agent_credentials "org_acme" "agt_2" demo_audit (seconds 106) (seconds 106) demo_7).

Lemma demo_3_reachable : reachable demo_3.
Proof.
  eapply rtc_l; [apply (step_ensure_organization _ "org_acme" "Acme" "site_main" "Main" 0)|].
  eapply rtc_l; [apply (step_create_invitation _ sample_code "org_acme" "site_main" None 0 (seconds 600) demo_audit 0)|].
  eapply rtc_l; [apply (step_enroll _ nat sample_code sample_enrollment sample_snapshot sample_limit (Ok 7%nat)
    sample_enroll_clock eq_refl)|]. apply rtc_refl.
Qed.
Lemma demo_4_steps : rtc step demo_4 demo_7.
Proof.
  eapply rtc_l; [apply (step_acknowledge_router_policy _ "org_acme" demo_policy (seconds 102) (seconds 103))|].
  eapply rtc_l; [apply (step_preflight _ demo_preflight)|].
  eapply rtc_l; [apply (step_admit _ demo_admission sample_seal (seconds 105) eq_refl)|]. apply rtc_refl.
Qed.
Lemma demo_7_reachable : reachable demo_7.
Proof.
  unfold reachable. etransitivity; [exact demo_3_reachable|]. eapply rtc_l; [|exact demo_4_steps].
  apply (step_prepare_router_policy _ "org_acme" (digest_of "c") 0 sample_build (seconds 101)).
Qed.
Lemma demo_7_steps : rtc step demo_7 demo_8.
Proof. apply rtc_once. apply step_retire. Qed.

Lemma queue_limits_always_hold_witness :
  Z.of_nat (length (pending_rows demo_7 mw_agent_id "agt_2")) = 1 /\
  sum_bytes (pending_rows demo_7 mw_agent_id "agt_2") <= 64 * 1024 * 1024.
Proof.
  split; [vm_compute; reflexivity|].
  exact (proj2 (proj1 (queue_limits_always_hold demo_7 demo_7_reachable) "agt_2")).
Defined.
Lemma command_numbers_are_gap_free_witness :
  exists n, 0 <= n /\ forall s, 0 < s <= n <->
    exists k c, commands demo_7 !! k = Some c /\ cm_agent_id c = "agt_2" /\ cm_sequence c = s /\
      forall k' c', commands demo_7 !! k' = Some c' -> cm_agent_id c' = "agt_2" -> cm_sequence c' = s -> k' = k.
Proof. exact (command_numbers_are_gap_free demo_7 "agt_2" demo_7_reachable). Defined.
Lemma managed_work_is_consistent_witness :
  is_Some (managed_work demo_7 !! "mw_1") /\ is_Some (managed_payloads demo_7 !! "mw_1").
Proof.
  assert (exists w, managed_work demo_7 !! "mw_1" = Some w /\ mw_state w = MwDispatching) as (w & Hw & Hs)
    by (eexists; split; [vm_compute; reflexivity|reflexivity]).
  split; [exact (ex_intro _ w Hw)|].
  destruct (managed_work_is_consistent demo_7 demo_7_reachable) as [Hrow _].
  destruct (Hrow "mw_1" w Hw) as (_ & _ & Hp & _). exact (proj2 Hp Hs).
Defined.
Lemma managed_work_moves_forward_witness :
  exists w w', managed_work demo_7 !! "mw_1" = Some w /\ managed_work demo_8 !! "mw_1" = Some w' /\
    work_identity w' = work_identity w.
Proof.
  assert (exists w, managed_work demo_7 !! "mw_1" = Some w) as (w & Hw) by (eexists; vm_compute; reflexivity).
  destruct (managed_work_moves_forward demo_7 demo_8 "mw_1" w demo_7_reachable demo_7_steps Hw) as (w' & Hw' & Hid & _).
  exact (ex_intro _ w (ex_intro _ w' (conj Hw (conj Hw' Hid)))).
Defined.
Lemma retired_authority_stays_revoked_witness :
  require_router_admission (ma_router_admission demo_admission) "agt_2" (seconds 107) demo_8 =
    (Err (Unavailable "The Agent has no current Router admission"), demo_8).
Proof.
  assert (retire_agent_credentials "org_acme" "agt_2" demo_audit (seconds 106) (seconds 106) demo_7 = (Ok tt, demo_8)) as Hret
    by (vm_compute; reflexivity).
  assert (exists row, router_policies demo_7 !! "org_acme" = Some row /\ rp_generation row = 1) as (row & Hrow & Hg)
    by (eexists; split; [vm_compute; reflexivity|reflexivity]).
  apply (retired_authority_stays_revoked "org_acme" "agt_2" demo_audit (seconds 106) (seconds 106) demo_7 demo_8 demo_8 row
    demo_7_reachable Hret (rtc_refl _ _) Hrow); [|reflexivity|rewrite Hg; vm_compute; discriminate].
  exists "kid_2". eexists. split; [vm_compute; reflexivity|]. split; reflexivity.
Defined.
Lemma key_retirement_is_final_witness :
  exists r r', agent_verification_keys demo_7 !! "kid_2" = Some r /\ agent_verification_keys demo_8 !! "kid_2" = Some r' /\
    key_identity r' = key_identity r.
Proof.
  assert (exists r, agent_verification_keys demo_7 !! "kid_2" = Some r) as (r & Hr) by (eexists; vm_compute; reflexivity).
  destruct (key_retirement_is_final demo_7 demo_8 demo_7_reachable demo_7_steps) as [Hk _].
  destruct (Hk "kid_2" r Hr) as (r' & Hr' & Hid & _). 
  exact (ex_intro _ r (ex_intro _ r' (conj Hr (conj Hr' Hid)))).
Defined.
Lemma records_are_append_only_witness :
  size (audit_events demo_7) = 2%nat /\ size (audit_events demo_8) = 3%nat /\ audit_events demo_7 ⊆ audit_events demo_8.
Proof.
  split; [vm_compute; reflexivity|]. split; [vm_compute; reflexivity|].
  exact (proj1 (records_are_append_only demo_7 demo_8 demo_7_reachable demo_7_steps)).
Defined.
Lemma invitations_move_forward_witness :
  exists i i', invitations demo_7 !! ic_id sample_code = Some i /\ invitations demo_8 !! ic_id sample_code = Some i' /\
    iv_state i = SInvEnrolled /\ iv_state i' = SInvRevoked /\ iv_bound_agent_id i' = Some "agt_2".
Proof.
  assert (exists i, invitations demo_7 !! ic_id sample_code = Some i /\ iv_state i = SInvEnrolled /\
    iv_bound_agent_id i = Some "agt_2") as (i & Hi & Hs & Hb)
    by (eexists; split; [vm_compute; reflexivity|split; reflexivity]).
  destruct (invitations_move_forward demo_7 demo_8 (ic_id sample_code) i demo_7_reachable demo_7_steps Hi)
    as (i' & Hi' & _ & _ & _ & Hb'). exists i, i'.
  refine (conj Hi (conj Hi' (conj Hs (conj _ (Hb' _ Hb))))).
  assert (iv_state <$> invitations demo_8 !! ic_id sample_code = Some SInvRevoked) as E by (vm_compute; reflexivity).
  rewrite Hi' in E. injection E as E. exact E.
Defined.
Lemma policy_generations_are_unique_witness :
  exists row', router_policies demo_8 !! "org_acme" = Some row' /\ 1 <= rp_generation row'.
Proof.
  assert (exists row, router_policies demo_7 !! "org_acme" = Some row /\ rp_generation row = 1) as (row & Hrow & Hg)
    by (eexists; split; [vm_compute; reflexivity|reflexivity]).
  destruct (policy_generations_are_unique demo_7 demo_8 "org_acme" row demo_7_reachable demo_7_steps Hrow)
    as (row' & Hr' & Hle & _). exists row'. rewrite Hg in Hle. exact (conj Hr' Hle).
Defined.
Lemma admission_matches_prepared_policy_witness :
  exists p, prepare_router_policy "org_acme" (digest_of "c") 0 sample_build (seconds 101) demo_3 = (Ok p, demo_4) /\
    exists g, g ∈ pp_agents p /\ ra_agent_id g = "agt_2".
Proof.
  destruct (prepare_router_policy "org_acme" (digest_of "c") 0 sample_build (seconds 101) demo_3) as [[p|e] d] eqn:E;
    [|vm_compute in E; discriminate E].
  assert (d = demo_4) as -> by (unfold demo_4; rewrite E; reflexivity).
  assert (pp_generation p = 1) as Hg.
  { pose proof (f_equal fst E) as E1. vm_compute in E1. injection E1 as <-. reflexivity. }
  assert (require_router_admission (ma_router_admission demo_admission) "agt_2" (seconds 106) demo_7 = (Ok tt, demo_7)) as Hadm
    by (vm_compute; reflexivity).
  exists p. split; [reflexivity|].
  exact (proj2 (proj2 (admission_matches_prepared_policy "org_acme" (digest_of "c") 0 sample_build (seconds 101) demo_3 p
    demo_4 demo_7 (ma_router_admission demo_admission) "agt_2" (seconds 106) demo_3_reachable E demo_4_steps Hadm eq_refl
    (eq_sym Hg)))).
Defined.
