(* ===== verification/ServerErrors.v ===== *)
(** * Errors of the Controller server

    [crates/inari-server/src/error.rs]: what an operation of the server fails with, the HTTP status and code it is
    reported as, and the mapping of repository errors.  The source chains of errors are for logs and are left out; a
    socket address and a grace period are kept as the texts they are displayed with. *)
From S2P Require Import Prelude Errors.

Inductive AppError : Type :=
| AppConfig (message : string)
| AppObservability
| AppRuntimeBuild
| AppBind (address : string)
| AppServe
| AppSignal
| AppTaskJoin
| AppGracefulShutdownTimeout (grace_period : string)
| AppRequestTimeout
| AppBadRequest (code message : string)
| AppUnauthorized (code message : string)
| AppForbidden (code message : string)
| AppConflict (code message : string)
| AppTooManyRequests (code message : string)
| AppNotFound (code message : string)
| AppNotImplemented (code message : string)
| AppServiceUnavailable (code message : string)
| AppInternal (code message : string).
Notation AppResult := (result AppError).

Definition bad_request (message : string) : AppError := AppBadRequest "bad_request" message.
Definition unauthorized (message : string) : AppError := AppUnauthorized "unauthorized" message.
Definition forbidden (message : string) : AppError := AppForbidden "forbidden" message.
Definition conflict (message : string) : AppError := AppConflict "conflict" message.
Definition too_many_requests (message : string) : AppError := AppTooManyRequests "too_many_requests" message.
Definition not_found (message : string) : AppError := AppNotFound "not_found" message.
Definition not_implemented (message : string) : AppError := AppNotImplemented "not_implemented" message.
Definition service_unavailable (message : string) : AppError := AppServiceUnavailable "service_unavailable" message.
Definition internal (code message : string) : AppError := AppInternal code message.

(** The [#[error(...)]] texts; a configuration error displays as itself. *)
Definition AppError_to_string (e : AppError) : string :=
  match e with
  | AppConfig message => message
  | AppObservability => "failed to install observability subscriber"
  | AppRuntimeBuild => "failed to build Tokio runtime"
  | AppBind address => "failed to bind HTTP listener on " ++ address
  | AppServe => "HTTP server terminated unexpectedly"
  | AppSignal => "failed to install shutdown signal handler"
  | AppTaskJoin => "background task failed"
  | AppGracefulShutdownTimeout grace_period => "graceful shutdown exceeded " ++ grace_period
  | AppRequestTimeout => "request timed out"
  | AppBadRequest _ message | AppUnauthorized _ message | AppForbidden _ message | AppConflict _ message
  | AppTooManyRequests _ message | AppNotFound _ message | AppNotImplemented _ message
  | AppServiceUnavailable _ message | AppInternal _ message => message
  end.

Definition app_code (e : AppError) : string :=
  match e with
  | AppConfig _ => "configuration_error"
  | AppObservability => "observability_error"
  | AppRuntimeBuild => "runtime_build_error"
  | AppBind _ => "bind_error"
  | AppServe => "serve_error"
  | AppSignal => "signal_error"
  | AppTaskJoin => "task_join_error"
  | AppGracefulShutdownTimeout _ => "shutdown_timeout"
  | AppRequestTimeout => "request_timeout"
  | AppBadRequest code _ | AppUnauthorized code _ | AppForbidden code _ | AppConflict code _
  | AppTooManyRequests code _ | AppNotFound code _ | AppNotImplemented code _ | AppServiceUnavailable code _
  | AppInternal code _ => code
  end.
Definition status_code (e : AppError) : Z :=
  match e with
  | AppBadRequest _ _ | AppConfig _ => 400
  | AppUnauthorized _ _ => 401
  | AppForbidden _ _ => 403
  | AppConflict _ _ => 409
  | AppTooManyRequests _ _ => 429
  | AppNotFound _ _ => 404
  | AppNotImplemented _ _ => 501
  | AppServiceUnavailable _ _ | AppGracefulShutdownTimeout _ => 503
  | AppRequestTimeout => 408
  | AppObservability | AppRuntimeBuild | AppBind _ | AppServe | AppSignal | AppTaskJoin | AppInternal _ _ => 500
  end.

(** [From<GatewayError>] and [From<serde_json::Error>]. *)
Definition from_gateway (e : GatewayError) : AppError :=
  match e with
  | InvalidInput m => bad_request m
  | Forbidden m => forbidden m
  | NotFound m => not_found m
  | Conflict m => conflict m
  | Capacity m => too_many_requests m
  | Unavailable m => service_unavailable m
  | _ => internal "managed_gateway_error" "The managed gateway operation failed."
  end.
Definition serialization_error : AppError :=
  internal "serialization_error" "A protocol payload could not be serialized.".
