(* ===== verification/AdmissionController.v ===== *)
(** * The Router admission controller

    [crates/inari-server/src/managed_gateway/router_policy.rs] and [config/router_policy.rs]: the Controller's side of
    Router admission.  It prepares a signed policy for the active Agents, has every Router of the fleet apply it, and
    only then records the acknowledgment that lets Managed Work be dispatched.  The HTTPS client that carries a policy
    to a Router is an argument; reads of the clock, and what other transactions commit in between, are arguments too. *)
From S2P Require Import Prelude Json Errors InvitationCode Schema RouterPolicy Security.
From S2P Require Import FleetPolicy AccessControl DataTls Supervisor ServerErrors.

Definition POLICY_EXPIRY : Z := seconds 45.
Definition CLOCK_SKEW : Z := seconds 5.
Definition REFRESH_MARGIN : Z := seconds 15.

(** [url::Url]. *)
Class UrlParts := {
  url_scheme : string -> string;
  url_host : string -> option string;
  url_path : string -> string;
  url_username : string -> string;
  url_password : string -> option string;
  url_query : string -> option string;
  url_fragment : string -> option string;
}.
(** [serde_json::to_value] and [from_value] of a signed policy, as the text of the stored value. *)
Class PolicyJson := {
  policy_to_json : SignedPolicy -> option string;
  policy_from_json : string -> option SignedPolicy;
}.
(** A stored policy is read back as it was. *)
Class PolicyJsonSpec `{PolicyJson} : Prop := policy_json_roundtrip : forall s text,
  policy_to_json s = Some text -> policy_from_json text = Some s.

Record RouterManagementConfig := mkRouterManagement { rm_router_id : string; rm_address : string }.
Record RouterPolicyConfig := mkRouterPolicyConfig {
  rpc_fleet_id : string;
  rpc_routers : list RouterManagementConfig;
  rpc_trusted_peer_common_names : list string;
  rpc_signing_key_file : string;
  rpc_management_ca_file : string;
  rpc_management_certificate_file : string;
  rpc_management_private_key_file : string;
}.
Definition is_none {A} (o : option A) : bool := match o with Some _ => false | None => true end.

Section Config.
Context `{UrlParts}.
Fixpoint check_routers (ids addresses : gset string) (routers : list RouterManagementConfig) : AppResult unit :=
  match routers with
  | [] => Ok tt
  | router :: rest =>
      let url := rm_address router in
      if is_empty (rm_router_id router) || bool_decide (rm_router_id router ∈ ids) || bool_decide (url ∈ addresses)
         || negb (String.eqb (url_scheme url) "https") || is_none (url_host url) || negb (String.eqb (url_path url) "/")
         || negb (is_empty (url_username url)) || negb (is_none (url_password url)) || negb (is_none (url_query url))
         || negb (is_none (url_fragment url))
      then Err (AppConfig "Each Router requires a distinct ID and HTTPS management origin without credentials, query, or fragment.")
      else check_routers ({[ rm_router_id router ]} ∪ ids) ({[ url ]} ∪ addresses) rest
  end.
Definition RouterPolicyConfig_validate (c : RouterPolicyConfig) : AppResult unit :=
  if bool_decide (rpc_routers c = []) || (32 <? Z.of_nat (length (rpc_routers c))) || is_empty (rpc_fleet_id c)
     || bool_decide (rpc_trusted_peer_common_names c = [])
     || List.existsb is_empty [rpc_signing_key_file c; rpc_management_ca_file c; rpc_management_certificate_file c;
          rpc_management_private_key_file c]
  then Err (AppConfig "Router policy requires a fleet, every Router, trusted peers, a signing key, and management mTLS files.")
  else check_routers ∅ ∅ (rpc_routers c).
End Config.
#[global] Instance RouterManagementConfig_eq_dec : EqDecision RouterManagementConfig. Proof. solve_decision. Defined.

Definition unavailable : AppError :=
  service_unavailable "Every Router must acknowledge the current Agent policy before managed admission.".

(** Activation is backdated for clock skew; [trunc_subsecs(6)] keeps microseconds. *)
Definition router_policy (config : RouterPolicyConfig) (namespace_prefix : string) (generation : Z)
    (agents : list AgentAdmission) (now : instant) : Policy :=
  let now := trunc_micros now in
  mkPolicy 1 (rpc_fleet_id config) generation (now - CLOCK_SKEW) (now - CLOCK_SKEW) (now + POLICY_EXPIRY)
    namespace_prefix (rpc_trusted_peer_common_names config) agents.

(** ** The controller *)
Inductive RouterPolicyHealth : Type :=
| HealthStarting
| HealthReadyUntil (until : instant)
| HealthUnavailable.
Inductive Readiness : Type := ReadyNow | StartingUp | Degraded.
Record Controller := mkController {
  ct_organization_id : string;
  ct_config : RouterPolicyConfig;
  ct_namespace_prefix : string;
  ct_signing_key : string;
  ct_configuration_digest : string;
}.
(** The reads of the clock, in the order of the code. *)
Record ControllerClock := mkControllerClock {
  cc_prepare : instant;
  cc_build : instant;
  cc_prepared : instant;
  cc_verify : instant;
  cc_statuses : instant;
  cc_checked : instant;
  cc_acknowledged : instant;
}.

(** What other transactions commit while an admission is under way: while the caller waits for the lock, while the
    Routers apply the policy, and after the policy is acknowledged.  The lock only orders the reconciliations of one
    process: requests, and other processes on the same database, commit between its transactions. *)
Record Others := mkOthers {
  ot_waiting : Database -> Database;
  ot_applying : Database -> Database;
  ot_acknowledged : Database -> Database;
}.
Definition nobody_else : Others := mkOthers id id id.
(** Whatever the others commit is related to what was there. *)
Definition others_within (R : Database -> Database -> Prop) (others : Others) : Prop :=
  forall db, R db (ot_waiting others db) /\ R db (ot_applying others db) /\ R db (ot_acknowledged others db).

Section Controller.
Context `{Encoding, Sha256, Ed25519, Ed25519Signing, HexDecode, Rfc3339Auto, Canonicalizer, PolicyJson, Collation, UrlParts}.

Definition bytes_value (s : string) : Value := VArray ((fun c => VNumber (code c)) <$> list_ascii_of_string s).
Definition configuration_value (c : RouterPolicyConfig) (namespace_prefix verifying_key : string) : Value :=
  VArray [VString (rpc_fleet_id c);
    VArray ((fun r => object [("router_id", VString (rm_router_id r)); ("address", VString (rm_address r))]) <$> rpc_routers c);
    VArray (VString <$> rpc_trusted_peer_common_names c); VString namespace_prefix; bytes_value verifying_key].
Definition RouterAdmissionController_new (organization_id : string) (config : RouterPolicyConfig)
    (namespace_prefix signing_key : string) (now : instant) : AppResult Controller :=
  _ ← RouterPolicyConfig_validate config;
  _ ← match SignedPolicy_sign (router_policy config namespace_prefix 1 [] now) signing_key with
      | Ok _ => Ok tt
      | Err _ => Err unavailable
      end;
  bytes ← ok_or (canonical_to_vec (configuration_value config namespace_prefix (ed25519_verifying_key signing_key)))
            serialization_error;
  Ok (mkController organization_id config namespace_prefix signing_key (sha256 bytes)).

Section Apply.
Context (self : Controller).
Notation verifying_key := (ed25519_verifying_key (ct_signing_key self)).

(** The closure [prepare_router_policy] calls with a fresh generation and the active Agents. *)
Definition admissions (agents : list RouterAgent) : list AgentAdmission :=
  (fun a => mkAdmission (ra_agent_id a) (ra_namespace a)) <$> agents.
Definition to_unavailable {A} (r : RouterResult A) : GatewayResult A :=
  match r with Ok a => Ok a | Err e => Err (Errors.Unavailable (RouterError_to_string e)) end.
Definition build_policy (now : instant) (generation : Z) (agents : list RouterAgent) : GatewayResult NewRouterPolicy :=
  signed ← to_unavailable (SignedPolicy_sign
    (router_policy (ct_config self) (ct_namespace_prefix self) generation (admissions agents) now) (ct_signing_key self));
  verified ← to_unavailable (SignedPolicy_verify signed verifying_key (rpc_fleet_id (ct_config self)));
  digest ← ok_or (hex_decode (vp_digest verified)) (Errors.Unavailable "the digest is not hexadecimal");
  _ ← ensure (str_len digest =? 32) (CorruptState "Router digest is invalid");
  text ← ok_or (policy_to_json signed) Serialization;
  Ok (mkNewRouterPolicy text digest (po_expires_at (sp_policy signed))).

Definition gateway {A} (m : Repo A) : repo Database AppError A :=
  fun db => match m db with (Ok a, db') => (Ok a, db') | (Err e, db') => (Err (from_gateway e), db') end.
Definition or_unavailable {A} (r : RouterResult A) : AppResult A :=
  match r with Ok a => Ok a | Err _ => Err unavailable end.

(** A Router's answer to the policy counts when it names this very policy and has not expired. *)
Definition status_acknowledges (policy : PersistedRouterPolicy) (verified : VerifiedPolicy) (now : instant)
    (status : RouterStatus) : bool :=
  negb (negb (is_current status now)
    || negb (bool_decide (rs_generation status = Some (pp_generation policy)))
    || negb (bool_decide (rs_digest status = Some (vp_digest verified)))
    || negb (bool_decide (rs_expires_at status = Some (pp_expires_at policy)))).

Definition meanwhile (commits : Database -> Database) : repo Database AppError unit := fun db => (Ok tt, commits db).

(** [management] is how a Router answers the policy, [timed_out] whether the answers took too long. *)
Definition apply_current_policy (clk : ControllerClock) (others : Others)
    (management : RouterManagementConfig -> SignedPolicy -> AppResult RouterStatus) (timed_out : bool)
    : repo Database AppError RouterAdmission :=
  policy ← gateway (prepare_router_policy (ct_organization_id self) (ct_configuration_digest self)
    (cc_prepare clk + REFRESH_MARGIN) (build_policy (cc_build clk)) (cc_prepared clk));
  _ ← meanwhile (ot_applying others);
  signed ← returns (ok_or (policy_from_json (pp_signed_policy policy)) serialization_error);
  verified ← returns (or_unavailable (SignedPolicy_verify signed verifying_key (rpc_fleet_id (ct_config self))));
  _ ← returns (or_unavailable (require_current verified (cc_verify clk)));
  _ ← returns (ensure (negb (negb (String.eqb (hex_encode (pp_digest policy)) (vp_digest verified))
                || negb (po_generation (sp_policy signed) =? pp_generation policy))) unavailable);
  statuses ← returns (if timed_out then Err unavailable else
                      collect (fun router => management router signed) (rpc_routers (ct_config self)));
  _ ← returns (ensure (negb (negb (Nat.eqb (length statuses) (length (rpc_routers (ct_config self))))
                || bool_decide (length statuses = 0%nat)
                || List.existsb (fun s => negb (status_acknowledges policy verified (cc_statuses clk) s)) statuses))
              unavailable);
  gateway (acknowledge_router_policy (ct_organization_id self) policy (cc_checked clk) (cc_acknowledged clk)).

Definition reconcile clk others management timed_out (db : Database) : (AppResult RouterAdmission * Database) * RouterPolicyHealth :=
  let '(result, db') := (_ ← meanwhile (ot_waiting others); apply_current_policy clk others management timed_out) db in
  ((result, db'), match result with Ok admission => HealthReadyUntil (ra_valid_until admission) | Err _ => HealthUnavailable end).
Definition admit_agent clk others management timed_out (agent_id : string) (now : instant) : repo Database AppError RouterAdmission :=
  admission ← (fun db => fst (reconcile clk others management timed_out db));
  _ ← meanwhile (ot_acknowledged others);
  _ ← gateway (require_router_admission admission agent_id now);
  mret admission.
End Apply.

Definition readiness (health : RouterPolicyHealth) (now : instant) : Readiness :=
  match health with
  | HealthStarting => StartingUp
  | HealthReadyUntil until => if now <? until then ReadyNow else Degraded
  | HealthUnavailable => Degraded
  end.
End Controller.

(** ** What an acknowledged policy rests on *)
Lemma repo_bind_Ok {S E A B} (m : repo S E A) (f : A -> repo S E B) s b s2 :
  (m ≫= f) s = (Ok b, s2) <-> exists a s1, m s = (Ok a, s1) /\ f a s1 = (Ok b, s2).
Proof. unfold mbind, repo_bind. destruct (m s) as [[a|e] s1]; naive_solver. Qed.
Lemma returns_Ok {S E A} (r : result E A) (s s' : S) a : returns r s = (Ok a, s') <-> r = Ok a /\ s' = s.
Proof. unfold returns. split; [by intros [= -> ->]|by intros [-> ->]]. Qed.
Lemma gateway_Ok {A} (m : Repo A) db a db' : gateway m db = (Ok a, db') <-> m db = (Ok a, db').
Proof. unfold gateway. destruct (m db) as [[x|e] d]; split; by intros [= -> ->] || done. Qed.
Lemma or_unavailable_Ok {A} (r : RouterResult A) a : or_unavailable r = Ok a <-> r = Ok a.
Proof. destruct r; simpl; split; congruence. Qed.
Lemma to_unavailable_Ok {A} (r : RouterResult A) a : to_unavailable r = Ok a <-> r = Ok a.
Proof. destruct r; simpl; split; congruence. Qed.
Lemma existsb_negb_false {A} (q : A -> bool) l : List.existsb (fun x => negb (q x)) l = false -> forall x, x ∈ l -> q x = true.
Proof.
  intros Hn x Hx. destruct (q x) eqn:E; [done|]. rewrite <- Hn. apply List.existsb_exists. exists x.
  split; [by apply list_elem_of_In|]. by rewrite E.
Qed.

Section Acknowledged.
Context `{Encoding, Sha256, Ed25519, Ed25519Signing, HexDecode, Rfc3339Auto, Canonicalizer, PolicyJson, Collation}.
Context (self : Controller).
Notation verifying_key := (ed25519_verifying_key (ct_signing_key self)).
Notation fleet := (rpc_fleet_id (ct_config self)).

(** A policy that this Controller built: it is stored as a signed policy that verifies with the Controller's own key,
    for exactly the given Agents. *)
Definition built (generation : Z) (agents : list RouterAgent) (np : NewRouterPolicy) : Prop :=
  exists signed v, policy_from_json (np_signed_policy np) = Some signed /\
    SignedPolicy_verify signed verifying_key fleet = Ok v /\ po_generation (vp_policy v) = generation /\
    po_agents (vp_policy v) = admissions agents /\ po_namespace_prefix (vp_policy v) = ct_namespace_prefix self /\
    po_trusted_peer_common_names (vp_policy v) = rpc_trusted_peer_common_names (ct_config self) /\
    hex_decode (vp_digest v) = Some (np_digest np) /\ np_expires_at np = po_expires_at (vp_policy v).
Lemma build_policy_built `{!PolicyJsonSpec} now generation agents np :
  build_policy self now generation agents = Ok np -> built generation agents np.
Proof.
  unfold build_policy. intros Hb. apply bind_Ok in Hb as (signed & Hs%to_unavailable_Ok & Hb).
  apply bind_Ok in Hb as (v & Hv%to_unavailable_Ok & Hb). res_inv Hb. subst. simpl in *.
  assert (sp_policy signed = router_policy (ct_config self) (ct_namespace_prefix self) generation (admissions agents) now) as Ep
    by (unfold SignedPolicy_sign in Hs; res_inv Hs; done).
  pose proof (proj1 (SignedPolicy_verify_Ok _ _ _ _) Hv) as [Esig _].
  exists signed, v. unfold vp_policy. rewrite Esig, Ep. simpl. split_and!; try done. by eapply policy_json_roundtrip.
Qed.

(** The successful path of [apply_current_policy]. *)
Lemma apply_current_policy_Ok clk others management timed_out db admission db' :
  apply_current_policy self clk others management timed_out db = (Ok admission, db') ->
  exists policy db1 signed v,
    prepare_router_policy (ct_organization_id self) (ct_configuration_digest self) (cc_prepare clk + REFRESH_MARGIN)
      (build_policy self (cc_build clk)) (cc_prepared clk) db = (Ok policy, db1) /\
    policy_from_json (pp_signed_policy policy) = Some signed /\ SignedPolicy_verify signed verifying_key fleet = Ok v /\
    require_current v (cc_verify clk) = Ok tt /\ hex_encode (pp_digest policy) = vp_digest v /\
    po_generation (vp_policy v) = pp_generation policy /\
    rpc_routers (ct_config self) <> [] /\
    (forall router, router ∈ rpc_routers (ct_config self) -> exists status,
       management router signed = Ok status /\ status_acknowledges policy v (cc_statuses clk) status = true) /\
    acknowledge_router_policy (ct_organization_id self) policy (cc_checked clk) (cc_acknowledged clk)
      (ot_applying others db1) = (Ok admission, db').
Proof.
  unfold apply_current_policy. intros Hrun.
  apply repo_bind_Ok in Hrun as (policy & db1 & Hprep%gateway_Ok & Hrun).
  apply repo_bind_Ok in Hrun as (u0 & s0 & Hmean & Hrun). injection Hmean as <- <-.
  apply repo_bind_Ok in Hrun as (signed & s1 & [Hsigned%ok_or_Ok ->]%returns_Ok & Hrun).
  apply repo_bind_Ok in Hrun as (v & s2 & [Hv%or_unavailable_Ok ->]%returns_Ok & Hrun).
  apply repo_bind_Ok in Hrun as (u & s3 & [Hcur%or_unavailable_Ok ->]%returns_Ok & Hrun). destruct u.
  apply repo_bind_Ok in Hrun as (u & s4 & [Hdig%ensure_Ok ->]%returns_Ok & Hrun).
  apply repo_bind_Ok in Hrun as (statuses & s5 & [Hst ->]%returns_Ok & Hrun).
  apply repo_bind_Ok in Hrun as (u2 & s6 & [Hall%ensure_Ok ->]%returns_Ok & Hack%gateway_Ok).
  destruct timed_out; [done|]. apply collect_Ok in Hst. bools. strings.
  destruct (proj1 (SignedPolicy_verify_Ok _ _ _ _) Hv) as [Esig _].
  exists policy, db1, signed, v. split_and!; try done; [by unfold vp_policy; rewrite Esig| |].
  - intros E. rewrite E in Hst. inversion Hst. subst. done.
  - intros router [i Hi]%list_elem_of_lookup. destruct (Forall2_lookup_l _ _ _ _ _ Hst Hi) as (status & Hj & Hm).
    exists status. split; [done|]. eapply existsb_negb_false; [done|]. by eapply list_elem_of_lookup_2.
Qed.
(** The successful path of [admit_agent]: the reconciliation, and the check of the admission. *)
Lemma admit_agent_Ok clk others management timed_out agent now db admission db' :
  admit_agent self clk others management timed_out agent now db = (Ok admission, db') ->
  exists db1, apply_current_policy self clk others management timed_out (ot_waiting others db) = (Ok admission, db1) /\
    db' = ot_acknowledged others db1 /\ admitted db' admission agent now.
Proof.
  unfold admit_agent. intros Hadm. apply repo_bind_Ok in Hadm as (ad & db2 & Happly & Hadm).
  unfold reconcile in Happly. change ((_ ← meanwhile (ot_waiting others); apply_current_policy self clk others management timed_out) db)
    with (apply_current_policy self clk others management timed_out (ot_waiting others db)) in Happly.
  destruct (apply_current_policy _ _ _ _ _ _) as [r d]. simpl in Happly. injection Happly as -> ->.
  apply repo_bind_Ok in Hadm as (u & db3 & Hmean & Hadm). injection Hmean as <- <-.
  apply repo_bind_Ok in Hadm as (u2 & db4 & [Hin ->]%gateway_Ok%transaction_Ok%require_admission_Ok & Hret). injection Hret as -> <-.
  by exists db2.
Qed.
(** What a Router's answer that counts says. *)
Lemma status_acknowledges_true policy v now status : status_acknowledges policy v now status = true ->
  rs_ready status = true /\ now < pp_expires_at policy /\ rs_generation status = Some (pp_generation policy) /\
  rs_digest status = Some (vp_digest v) /\ rs_expires_at status = Some (pp_expires_at policy).
Proof.
  unfold status_acknowledges, is_current. destruct (rs_expires_at status) as [e|] eqn:E; intros Hs; bools; [|done].
  simplify_eq. done.
Qed.
End Acknowledged.
