(* ===== verification/EndToEnd.v ===== *)
(** * Admission from end to end

    The repository, the admission controller and the Routers together: when the Controller admits an Agent, every Router
    of the fleet runs under an access control that admits exactly the Agents that are active in the database. *)
From stdpp Require Import relations.
From S2P Require Import Prelude Json Errors Identifiers InvitationCode Protocol Schema Samples AuditLog.
From S2P Require Import RouterPolicy Commands Security Observations Inventory Keys Onboarding Enrollment.
From S2P Require Import Publications Retirement ManagedWork Dispatch AuthorityVersion System.
From S2P Require Import FleetPolicy AccessControl DataTls Supervisor RouterLife ServerErrors AdmissionController.

(** ** Only [prepare_router_policy] issues policies *)
Definition stable (db db' : Database) : Prop := forall o row', router_policies db' !! o = Some row' ->
  rp_policy_revision row' = None \/
  exists row, router_policies db !! o = Some row /\ rp_generation row' = rp_generation row /\
    rp_policy_revision row' = rp_policy_revision row /\ rp_signed_policy row' = rp_signed_policy row /\
    rp_policy_digest row' = rp_policy_digest row.
#[global] Instance stable_PreOrder : PreOrder stable.
Proof.
  split.
  - intros db o row Hr. right. by exists row.
  - intros d1 d2 d3 H12 H23 o r3 Hr3. destruct (H23 o r3 Hr3) as [|(r2 & Hr2 & ? & ? & ? & ?)]; [by left|].
    destruct (H12 o r2 Hr2) as [|(r1 & Hr1 & ? & ? & ? & ?)]; [left; congruence|]. right. exists r1. split_and!; congruence.
Qed.
#[global] Instance stable_footprint : Footprint router_policies stable.
Proof. intros db db' E o row Hr. right. exists row. unfold same in E. by rewrite E in Hr. Qed.
Lemma stable_insert (db : Database) o row row' : router_policies db !! o = Some row ->
  rp_generation row' = rp_generation row -> rp_policy_revision row' = rp_policy_revision row ->
  rp_signed_policy row' = rp_signed_policy row -> rp_policy_digest row' = rp_policy_digest row ->
  stable db (db <| router_policies := <[o := row']> (router_policies db) |>).
Proof.
  intros Hr ? ? ? ? o2 r2. simpl. destruct (decide (o = o2)) as [<-|].
  - rewrite lookup_insert_eq. intros [= <-]. right. by exists row.
  - rewrite lookup_insert_ne by done. intros Hr2. right. by exists r2.
Qed.
Lemma invalidate_organization_stable o : Steps stable (invalidate_organization o).
Proof.
  unfold invalidate_organization. intros db u db' Hrun. tx_inv Hrun; [|reflexivity]. by eapply stable_insert.
Qed.
Lemma initialize_router_policy_stable o : Steps stable (initialize_router_policy o).
Proof.
  unfold initialize_router_policy, unique. intros db u db' Hrun. tx_inv Hrun. intros o2 r2. simpl.
  destruct (decide (o = o2)) as [<-|]; [rewrite lookup_insert_eq; intros [= <-]; by left|].
  rewrite lookup_insert_ne by done. intros Hr. right. by exists r2.
Qed.
#[local] Hint Resolve invalidate_organization_stable initialize_router_policy_stable : steps.
#[local] Hint Extern 7 (Steps stable _) => solve [apply (frame_steps router_policies); [typeclasses eauto|frame]] : steps.
#[local] Hint Extern 6 (Steps stable (modify _)) =>
  solve [apply (modify_frame_evolves _ router_policies); intros; reflexivity] : steps.
Lemma invalidate_on_key_change_stable a : Steps stable (invalidate_on_key_change a).
Proof. unfold invalidate_on_key_change. steps. Qed.
#[local] Hint Resolve invalidate_on_key_change_stable : steps.
Lemma upsert_agent_stable row : Steps stable (upsert_agent row).
Proof. unfold upsert_agent, agents_constraints, unique, references, invalidate_on_agent_insert, invalidate_on_agent_update. steps. Qed.
Lemma upsert_organization_stable row : Steps stable (upsert_organization row).
Proof. unfold upsert_organization. steps. Qed.
Lemma retire_keys_stable p t : Steps stable (retire_keys_where p t).
Proof. unfold retire_keys_where. steps. Qed.
Lemma try_insert_key_stable row : Steps stable (try_insert_verification_key row).
Proof. unfold try_insert_verification_key, references. steps. Qed.
#[local] Hint Resolve upsert_agent_stable upsert_organization_stable retire_keys_stable try_insert_key_stable : steps.
Lemma acknowledge_stable o p checked now : Always stable (acknowledge_router_policy o p checked now).
Proof.
  intros db r db' Hrun. destruct r as [ad|e].
  - apply acknowledge_router_policy_Ok in Hrun as (row & t & Hrow & _ & _ & _ & _ & _ & _ & ->). by eapply stable_insert.
  - apply transaction_inv in Hrun as [(? & ? & _)|(? & _ & ->)]; [done|reflexivity].
Qed.

Section EndToEnd.
Context `{Encoding, Ed25519, Sha256, Thumbprint, EnvelopeCodec, InventoryCodec, FactsCodec, ChronoRange, Collation,
  ScanOrder, !HexSpec}.
#[local] Hint Unfold register_verification_key apply_snapshot insert_audit_event enqueue_in recent_failures
  apply_receipt policy_in active_agents reconcile_state_observation record_observation admit_in admit_new
  find_existing_managed_work existing_dispatch managed_work_target_in pending_usage insert_dispatch_command
  next_command_sequence require_admission_in is_active_agent expire_in expire_one : frames.

Lemma always_snd {A} (R : Database -> Database -> Prop) (m : Repo A) db : Always R m -> R db (snd (m db)).
Proof. intros Hm. destruct (m db) as [r d] eqn:E. exact (Hm _ _ _ E). Qed.
Lemma create_invitation_stable code o site label t1 t2 ax t : Always stable (create_invitation code o site label t1 t2 ax t).
Proof. unfold create_invitation. steps. Qed.
Lemma step_stable db db' : System.step db db' ->
  stable db db' \/ exists o cfg rb build now, db' = snd (prepare_router_policy o cfg rb build now db).
Proof.
  destruct 1; [left|left|left|left|left|left|left|right; by eauto 10|left..];
    apply (always_snd stable); try apply acknowledge_stable.
  - unfold ensure_organization. steps.
  - apply create_invitation_stable.
  - unfold invitation, expire_invitation. steps.
  - unfold list_invitations. steps.
  - unfold revoke_invitation, revoke_in, invitation, expire_invitation. steps.
  - unfold enroll_agent, enroll_in, persist_enrollment, register_verification_key. steps.
  - unfold retire_agent_credentials, retire_in. steps.
  - unfold enqueue_command. steps.
  - unfold mark_command_published. steps.
  - apply record_publication_always; [typeclasses eauto| |]; unfold record_publication_in, record_audit_event; steps.
  - unfold create_managed_work_preflight. steps.
  - unfold admit_managed_work. steps.
  - unfold expire_managed_payloads. steps.
  - unfold record_audit_event. steps.
Qed.

(** ** The stored policy *)
Context `{Ed25519Signing, HexDecode, Rfc3339Auto, Canonicalizer, PolicyJson, !PolicyJsonSpec}.
Context (self : Controller).

(** An execution in which policies for the Controller's Organization are built by the Controller. *)
Definition controller_step (db db' : Database) : Prop :=
  System.step db db' /\
  (stable db db' \/ exists o cfg rb build now, db' = snd (prepare_router_policy o cfg rb build now db) /\
     (o = ct_organization_id self -> exists t, build = build_policy self t)).
Definition controller_reachable (db : Database) : Prop := rtc controller_step empty_database db.
(** While a policy is current, it was built by the Controller for exactly the active Agents. *)
Definition policy_matches (db : Database) : Prop := forall row,
  router_policies db !! ct_organization_id self = Some row -> rp_policy_revision row = Some (rp_authority_revision row) ->
  exists agents np, built self (rp_generation row) agents np /\ rp_signed_policy row = Some (np_signed_policy np) /\
    rp_policy_digest row = Some (np_digest np) /\
    forall g, g ∈ agents <-> exists k a, authorized (ct_organization_id self) db k a /\
      g = mkRouterAgent (ag_agent_id a) (ag_namespace a).

Lemma stable_matches db db' : router_policies_wf db -> router_progress db db' -> versioned db db' -> stable db db' ->
  policy_matches db -> policy_matches db'.
Proof.
  intros Hwf Hprog Hver Hst Hm row' Hrow' Hcur.
  destruct (Hst _ _ Hrow') as [Hnone|(row & Hrow & Eg & Er & Es & Ed)]; [congruence|].
  destruct (Hprog _ _ Hrow) as (r & Hr & Hauth & _). rewrite Hrow' in Hr. injection Hr as <-.
  assert (rp_authority_revision row = rp_authority_revision row') as Erev.
  { assert (rp_authority_revision row' <= rp_authority_revision row); [|lia].
    apply (Hwf _ _ Hrow). congruence. }
  destruct (Hm row Hrow) as (ags & np & Hb & Hs & Hd & Hex); [congruence|].
  destruct (Hver _ _ Hrow) as (r & Hr & _ & Hsame). rewrite Hrow' in Hr. injection Hr as <-.
  exists ags, np. rewrite Eg, Es, Ed. split_and!; try done. intros g. rewrite Hex.
  pose proof (Hsame (eq_sym Erev)) as E. split; intros (k & a & Ha & ->); exists k, a; (split; [by apply E|done]).
Qed.
Lemma prepare_signed o cfg rb build now db p db' :
  prepare_router_policy o cfg rb build now db = (Ok p, db') ->
  exists row row' ags, router_policies db !! o = Some row /\ active_agents o db = Ok (ags, db) /\
    ((reusable row cfg rb = true /\ db' = db) \/
     exists prepared, build (rp_generation row + 1) ags = Ok prepared /\ rp_generation row' = rp_generation row + 1 /\
       rp_signed_policy row' = Some (np_signed_policy prepared) /\ rp_policy_digest row' = Some (np_digest prepared) /\
       db' = db <| router_policies := <[o := row']> (router_policies db) |>).
Proof.
  intros Hrun%transaction_Ok.
  apply tx_bind_Ok in Hrun as (row & s1 & [Hrow ->]%policy_in_Ok & Hrun).
  apply tx_bind_Ok in Hrun as (ags & s2 & Hags & Hrun).
  pose proof (active_agents_read_only o _ _ _ Hags) as <-.
  apply tx_bind_Ok in Hrun as (row' & s3 & Hrow' & [_ ->]%lift_Ok). exists row, row', ags. split_and!; [done|done|].
  destruct (reusable row cfg rb) eqn:Hre.
  - apply tx_ret_Ok in Hrow' as [_ ->]. by left.
  - right. apply tx_bind_Ok in Hrow' as (g & s4 & [Hg ->]%lift_Ok & Hrow').
    apply tx_bind_Ok in Hrow' as (g' & s5 & [Hg' ->]%expect_Ok & Hrow').
    apply tx_bind_Ok in Hrow' as (np & s6 & [Hnp ->]%lift_Ok & Hrow').
    apply tx_bind_Ok in Hrow' as (u & s7 & [_ ->]%require_Ok & Hrow').
    apply update_router_policy_Ok in Hrow' as (r & Hr & -> & _ & ->).
    apply next_generation_Ok in Hg as [-> _]. unfold u64_try_from in Hg'. destruct (is_u64 _); [|done]. injection Hg' as <-.
    exists np. simpl. by split_and!.
Qed.
Lemma prepare_matches o cfg rb build now db : (o = ct_organization_id self -> exists t, build = build_policy self t) ->
  policy_matches db -> policy_matches (snd (prepare_router_policy o cfg rb build now db)).
Proof.
  intros Hbuild Hm. destruct (prepare_router_policy o cfg rb build now db) as [[p|e] db'] eqn:E; simpl.
  2: { apply transaction_inv in E as [(? & ? & _)|(? & _ & ->)]; done. }
  apply prepare_signed in E as (row & row' & ags & Hrow & Hags & [[_ ->]|(np & Hnp & Eg & Es & Ed & ->)]); [done|].
  intros row2. simpl. destruct (decide (o = ct_organization_id self)) as [->|Hne].
  - rewrite lookup_insert_eq. intros [= <-] _. destruct (Hbuild eq_refl) as [t ->]. exists ags, np. rewrite Eg.
    split_and!; [by eapply build_policy_built|done|done|]. exact (active_agents_authorized _ _ _ _ Hags).
  - rewrite lookup_insert_ne by done. apply Hm.
Qed.
Lemma controller_reachable_sound db : controller_reachable db -> System.reachable db /\ policy_matches db.
Proof.
  intros Hr. apply (rtc_ind_r (R:=controller_step) (fun d => System.reachable d /\ policy_matches d) empty_database); [|..|exact Hr]; clear db Hr.
  - split; [constructor|]. intros row Hrow. by simplify_map_eq.
  - intros d1 d2 _ [Hstep Hhow] [Hreach Hm]. split; [by eapply rtc_r|].
    destruct Hhow as [Hst|(o & cfg & rb & build & now & -> & Hbuild)]; [|by apply prepare_matches].
    pose proof (rtc_always router_evolves (fun A m Hm => lawful_router m Hm) _ _ (rtc_once _ _ Hstep) (reachable_router_wf _ Hreach)) as [_ ?].
    pose proof (rtc_always authority_evolves (fun A m Hm => lawful_authority m Hm) _ _ (rtc_once _ _ Hstep) (reachable_agents_keyed _ Hreach)) as [_ ?].
    eapply stable_matches; eauto. by apply reachable_router_wf.
Qed.

(** ** The fleet *)
Context `{Certificates, Base64Standard, ZenohConfig, SignedPolicyCodec, !SignedPolicyCodecSpec, !Rfc3339AutoSpec,
  !CanonicalizerSpec}.
Notation key := (ed25519_verifying_key (ct_signing_key self)).
Notation fleet_id := (rpc_fleet_id (ct_config self)).
(** Each Router has its own surroundings, configuration and state. *)
Context (env : RouterManagementConfig -> Environment) (rconf : RouterManagementConfig -> RouterConfig).
Context (routers : RouterManagementConfig -> Supervisor).
Definition router_applies (router : RouterManagementConfig) (signed : SignedPolicy) :=
  let surroundings := env router in apply key fleet_id (rconf router) signed (routers router).
(** What a Router answers to a policy, and the state it is in then. *)
Definition fleet_management (router : RouterManagementConfig) (signed : SignedPolicy) : AppResult RouterStatus :=
  match router_applies router signed with Some (Ok status, _) => Ok status | _ => Err unavailable end.
Definition fleet_after (signed : SignedPolicy) (router : RouterManagementConfig) : Supervisor :=
  match router_applies router signed with Some (_, s') => s' | None => routers router end.
Lemma same_digest p q : PolicyAuthentic p key fleet_id -> PolicyAuthentic q key fleet_id -> vp_digest p = vp_digest q ->
  vp_policy p = vp_policy q \/
  exists m n, canonical (vp_policy p) = Ok m /\ canonical (vp_policy q) = Ok n /\ m <> n /\ sha256 m = sha256 n.
Proof.
  intros [Fp _ _ (m & ? & Em & _ & _ & _ & Dp)] [Fq _ _ (n & ? & En & _ & _ & _ & Dq)] Heq.
  rewrite Dp, Dq in Heq. apply hex_inj in Heq. destruct (decide (m = n)) as [<-|Hne].
  - left. apply Policy_value_inj.
    eapply canonical_unambiguous; [by apply Policy_value_exact|by apply Policy_value_exact|done|done].
  - right. exists m, n. unfold canonical. by rewrite Em, En.
Qed.
Lemma persisted_fields row ags p : persisted row ags = Ok p ->
  rp_signed_policy row = Some (pp_signed_policy p) /\ rp_generation row = pp_generation p.
Proof.
  unfold persisted, u64_try_from, utc_time. destruct (is_u64 _); [|done]. simpl.
  destruct (rp_signed_policy row); [|done]. destruct (rp_policy_digest row); [|done]. simpl.
  destruct (digest32 _); [|done]. destruct (rp_expires_at row); [|done]. by intros [= <-].
Qed.

(** ** The steps of a reconciliation *)
Lemma controller_reachable_later db db' : controller_reachable db -> rtc controller_step db db' -> controller_reachable db'.
Proof. unfold controller_reachable. intros. by transitivity db. Qed.
Lemma prepare_controller_step cfg rb t now db policy db' :
  prepare_router_policy (ct_organization_id self) cfg rb (build_policy self t) now db = (Ok policy, db') -> controller_step db db'.
Proof.
  intros E. assert (db' = snd (prepare_router_policy (ct_organization_id self) cfg rb (build_policy self t) now db)) as -> by (by rewrite E).
  split; [constructor|]. right. eexists _, _, _, _, _. split; [done|]. by exists t.
Qed.
Lemma acknowledge_controller_step o p checked now db ad db' :
  acknowledge_router_policy o p checked now db = (Ok ad, db') -> controller_step db db'.
Proof.
  intros E. assert (db' = snd (acknowledge_router_policy o p checked now db)) as Edb by (by rewrite E).
  split; [rewrite Edb; constructor|]. left. by eapply acknowledge_stable.
Qed.
Lemma controller_steps db db' : rtc controller_step db db' -> rtc System.step db db'.
Proof. induction 1 as [|d1 d2 d3 [Hs _] _ IH]; [constructor|by eapply rtc_l]. Qed.

(** The Agents a policy is for are the active ones. *)
Definition policy_agents (v : VerifiedPolicy) (db : Database) : Prop := forall g, g ∈ po_agents (vp_policy v) <->
  exists k a, authorized (ct_organization_id self) db k a /\ g = mkAdmission (ag_agent_id a) (ag_namespace a).
(** A generation has one policy: while a generation that was once prepared is current, its policy is for exactly the
    active Agents, whoever wrote to the database in between. *)
Lemma current_generation_agents db1 row1 text signed v db row : controller_reachable db1 -> rtc controller_step db1 db ->
  router_policies db1 !! ct_organization_id self = Some row1 -> rp_signed_policy row1 = Some text ->
  policy_from_json text = Some signed -> SignedPolicy_verify signed key fleet_id = Ok v ->
  router_policies db !! ct_organization_id self = Some row -> rp_generation row = rp_generation row1 ->
  rp_policy_revision row = Some (rp_authority_revision row) -> policy_agents v db.
Proof.
  intros Hreach Hrtc Hrow1 Htext Hsigned Hv Hrow Hgen Hcur g.
  destruct (controller_reachable_sound _ (controller_reachable_later _ _ Hreach Hrtc)) as [_ Hm].
  destruct (controller_reachable_sound _ Hreach) as [Hr1 _].
  destruct (rtc_always router_evolves (fun A m Hm => lawful_router m Hm) _ _ (controller_steps _ _ Hrtc) (reachable_router_wf _ Hr1))
    as [_ Hprog]. destruct (Hprog _ _ Hrow1) as (r & Hr & _ & _ & Hsame). rewrite Hrow in Hr. injection Hr as <-.
  destruct (Hsame Hgen) as (_ & _ & _ & Es & _).
  destruct (Hm row Hrow Hcur) as (ags & np & (s2 & v2 & Hs2 & Hv2 & _ & Hags & _) & Enp & _ & Hex).
  assert (v2 = v) as -> by congruence. rewrite Hags. unfold admissions. rewrite list_elem_of_fmap. split.
  - intros (x & -> & (k & a & Ha & ->)%Hex). by exists k, a.
  - intros (k & a & Ha & ->). exists (mkRouterAgent (ag_agent_id a) (ag_namespace a)). split; [done|]. apply Hex. by exists k, a.
Qed.

(** A Router that answered a policy enforces it. *)
Definition router_enforces (v : VerifiedPolicy) (r : RouterManagementConfig) (s : Supervisor) : Prop :=
  exists p t, stamp p = stamp v /\ sv_policy s = Some p /\
    sv_child s = Some (config_value (rconf r) (inline_tls t) (access_control p)) /\
    (vp_policy p = vp_policy v \/
     exists m n, canonical (vp_policy p) = Ok m /\ canonical (vp_policy v) = Ok n /\ m <> n /\ sha256 m = sha256 n).
Lemma answering_router_enforces r signed v status : RouterLife.reachable (H8 := env r) key fleet_id (rconf r) (routers r) ->
  SignedPolicy_verify signed key fleet_id = Ok v -> fleet_management r signed = Ok status ->
  router_enforces v r (fleet_after signed r).
Proof.
  intros Hr Hv. unfold fleet_management, fleet_after, router_applies.
  destruct (apply _ _ _ signed _) as [[[st|e] s']|] eqn:Eap; [|done..]. intros _.
  destruct (apply_enforces _ _ _ _ _ _ _ Hr Eap) as (p & p' & t & Hp & Hst & _ & Hpol & _ & Hauth & Hc).
  assert (p = v) as -> by congruence. exists p', t. split_and!; try done.
  apply same_digest; [done|by apply SignedPolicy_verify_Ok in Hv as [_ ?]|]. unfold stamp in Hst. congruence.
Qed.

(** C1: admission means enforcement everywhere.  Take any execution in which every policy of the Organization is built by
    this Controller, and an admission during which other transactions commit whatever they like between its own.  When
    the Controller admits an Agent, there is one signed policy, with the generation and the digest of the admission.  In the
    state in which its acknowledgment was recorded, and again in the state in which the admission was checked, its Agents
    were exactly the active Agents of the database, the admitted one among them.  Every Router of the fleet had answered
    it ready, with this generation and digest and an expiry that was still ahead and that bounds the admission, and was,
    when it answered, running a process under the access control of that policy (or of another validly signed one whose
    canonical bytes collide with it under SHA-256). *)
Theorem admitted_agent_is_enforced_everywhere clk others timed_out agent now db admission db' :
  controller_reachable db -> others_within (rtc controller_step) others ->
  (forall r, r ∈ rpc_routers (ct_config self) -> RouterLife.reachable (H8 := env r) key fleet_id (rconf r) (routers r)) ->
  admit_agent self clk others fleet_management timed_out agent now db = (Ok admission, db') ->
  exists signed v acknowledged row, SignedPolicy_verify signed key fleet_id = Ok v /\
    ra_generation admission = po_generation (vp_policy v) /\ hex_encode (ra_digest admission) = vp_digest v /\
    rtc controller_step db acknowledged /\ rtc controller_step acknowledged db' /\
    router_policies acknowledged !! ct_organization_id self = Some row /\
    rp_acknowledged_at row = Some (stored_time (cc_acknowledged clk)) /\
    policy_agents v acknowledged /\ policy_agents v db' /\
    (exists g, g ∈ po_agents (vp_policy v) /\ aa_common_name g = agent) /\
    rpc_routers (ct_config self) <> [] /\
    forall r, r ∈ rpc_routers (ct_config self) -> exists status expires, fleet_management r signed = Ok status /\
      rs_ready status = true /\ rs_generation status = Some (po_generation (vp_policy v)) /\
      rs_digest status = Some (vp_digest v) /\ rs_expires_at status = Some expires /\ cc_statuses clk < expires /\
      ra_valid_until admission <= expires /\ router_enforces v r (fleet_after signed r).
Proof.
  intros Hreach Hothers Hrouters (acked & Happly & -> & Hin)%admit_agent_Ok.
  apply apply_current_policy_Ok in Happly as (policy & db1 & signed & v & Hprep & Hsigned & Hv & _ & Hdig & Hgen & Hne & Hall & Hack).
  destruct (Hothers db) as [Hwait _]. destruct (Hothers db1) as (_ & Happlying & _). destruct (Hothers acked) as (_ & _ & Hlast).
  assert (controller_step (ot_waiting others db) db1) as Hstep1 by (by eapply prepare_controller_step).
  assert (controller_step (ot_applying others db1) acked) as Hstep2 by (by eapply acknowledge_controller_step).
  assert (controller_reachable db1) as Hr1.
  { eapply controller_reachable_later; [exact Hreach|]. eapply rtc_r; [exact Hwait|exact Hstep1]. }
  apply prepare_router_policy_Ok in Hprep as (_ & row1 & ags & _ & _ & [Htext Hg1]%persisted_fields & Hrow1 & _ & _).
  apply acknowledge_router_policy_Ok in Hack as (row & t & Hrow & Hgrow & _ & Hcur & _ & _ & Ead & Edb).
  assert (rtc controller_step db1 acked) as Hacked by (eapply rtc_r; [exact Happlying|exact Hstep2]).
  assert (router_policies acked !! ct_organization_id self = Some (row <| rp_acknowledged_at := Some (stored_time (cc_acknowledged clk)) |>)) as Hrow2
    by (rewrite Edb; simpl; by rewrite lookup_insert_eq).
  destruct Hin as [(row3 & ? & ? & Hrow3 & _ & Hgen3 & _ & Hcur3 & _) (k & a & Ha & Hid & Horg & Hact)].
  rewrite Ead in Hrow3, Hgen3, Horg. simpl in Hrow3, Hgen3, Horg.
  assert (policy_agents v (ot_acknowledged others acked)) as Hlater.
  { eapply (current_generation_agents db1 row1); [done| |done..|congruence|done]. by transitivity acked. }
  exists signed, v, acked, (row <| rp_acknowledged_at := Some (stored_time (cc_acknowledged clk)) |>). rewrite Ead. simpl.
  split_and!; try done.
  - transitivity (ot_waiting others db); [done|]. eapply rtc_l; [exact Hstep1|exact Hacked].
  - eapply (current_generation_agents db1 row1); [done..|simpl; congruence|done].
  - exists (mkAdmission (ag_agent_id a) (ag_namespace a)). split; [|done]. apply Hlater. exists k, a. by split_and!.
  - intros r Hr. destruct (Hall r Hr) as (status & Hm & (S1 & S2 & S3 & S4 & S5)%status_acknowledges_true).
    exists status, (pp_expires_at policy). split_and!; try done; [congruence|lia|].
    eapply answering_router_enforces; [by apply Hrouters|done..].
Qed.
End EndToEnd.

(** ** A Controller and two Routers *)
Import LifeToy.
#[local] Instance demo_json : PolicyJson :=
  {| policy_to_json := fun s => canonical_to_vec (SignedPolicy_value s); policy_from_json := signed_policy_from_slice |}.
#[local] Instance demo_json_spec : PolicyJsonSpec.
Proof. intros s text E. by apply stored_policy_read. Qed.
Definition demo_routers : list RouterManagementConfig :=
  [mkRouterManagement "router-a" "https://router-a:8443"; mkRouterManagement "router-b" "https://router-b:8443"].
Definition demo_controller : Controller :=
  mkController "org_acme" (mkRouterPolicyConfig "fleet-1" demo_routers ["controller"] "key" "ca" "cert" "private")
    "inari/gateway" (thirty_two "k") (digest_of "c").
Definition demo_clock : ControllerClock := let t := seconds 110 in mkControllerClock t t t t t t t.
Definition demo_agent : string := "agt_0123456789abcdef01234567".
Definition demo_enrollment : AgentEnrollmentRecord :=
  mkEnrollment demo_agent "org_acme" "site_main" "kid_2" "thumb_3" (sample_jwk "kid_2") sample_dispatch_key
    (sample_jwk "agent_state_2") ("inari/gateway/" ++ demo_agent) "2026-10-03" ["commands:execute"] "csr".
Definition demo_enrolled : Database :=
  snd (enroll_agent sample_code demo_enrollment sample_snapshot sample_limit (Ok 7%nat) sample_enroll_clock demo_2).
Definition demo_management := fleet_management demo_controller (fun _ => environment) (fun _ => sample_config) (fun _ => booted).
(** While the Routers apply the policy, somebody creates another invitation. *)
Definition demo_invite (db : Database) : Database :=
  snd (create_invitation (mkInvitationCode "MNOPQRSTUVWX" (ic_secret sample_code)) "org_acme" "site_main" None (seconds 100) (seconds 700)
    demo_audit (seconds 100) db).
Definition demo_others : Others := mkOthers id demo_invite id.
Definition demo_admit := admit_agent demo_controller demo_clock demo_others demo_management false demo_agent (seconds 111) demo_enrolled.

#[local] Existing Instance injective_canonicalizer_spec.
Lemma unissued_stable db db' : map_Forall (fun _ row => rp_policy_revision row = None) (router_policies db') -> stable db db'.
Proof. intros Hn o row Hrow. left. exact (Hn o row Hrow). Qed.
Lemma demo_enrolled_reachable : controller_reachable demo_controller demo_enrolled.
Proof.
  assert (forall db db', System.step db db' -> bool_decide (map_Forall (fun _ row => rp_policy_revision row = None) (router_policies db')) = true ->
    controller_step demo_controller db db') as Hstep.
  { intros db db' Hs Hn. split; [exact Hs|]. left. eapply unissued_stable, bool_decide_eq_true_1, Hn. }
  eapply rtc_l; [apply Hstep; [apply (step_ensure_organization _ "org_acme" "Acme" "site_main" "Main" 0)|vm_compute; reflexivity]|].
  eapply rtc_l; [apply Hstep;
    [apply (step_create_invitation _ sample_code "org_acme" "site_main" None 0 (seconds 600) demo_audit 0)|vm_compute; reflexivity]|].
  eapply rtc_l; [apply Hstep; [apply (step_enroll _ nat sample_code demo_enrollment sample_snapshot sample_limit (Ok 7%nat)
    sample_enroll_clock eq_refl)|vm_compute; reflexivity]|]. apply rtc_refl.
Qed.
Lemma demo_others_within : others_within (rtc (controller_step demo_controller)) demo_others.
Proof.
  intros db. split_and!; [apply rtc_refl| |apply rtc_refl]. apply rtc_once. split; [apply step_create_invitation|].
  left. apply (always_snd stable), create_invitation_stable.
Qed.
Lemma admitted_agent_is_enforced_everywhere_witness :
  exists admission db', demo_admit = (Ok admission, db') /\ size (invitations db') = 2%nat /\
    exists signed v, SignedPolicy_verify signed (thirty_two "k") "fleet-1" = Ok v /\
      exists g, g ∈ po_agents (vp_policy v) /\ aa_common_name g = demo_agent.
Proof.
  assert (size (invitations (snd demo_admit)) = 2%nat) as Hsize by (vm_compute; reflexivity).
  destruct demo_admit as [[admission|e] db'] eqn:E; [|vm_compute in E; discriminate E].
  exists admission, db'. split; [reflexivity|]. split; [exact Hsize|].
  destruct (admitted_agent_is_enforced_everywhere demo_controller (fun _ => environment) (fun _ => sample_config) (fun _ => booted)
    demo_clock demo_others false demo_agent (seconds 111) demo_enrolled admission db' demo_enrolled_reachable demo_others_within
    (fun _ _ => booted_reachable) E) as (signed & v & ? & ? & Hv & _ & _ & _ & _ & _ & _ & _ & _ & Hg & _).
  exists signed, v. exact (conj Hv Hg).
Defined.
