(* ===== verification/PayloadProtection.v ===== *)
(** * Protection of Managed Payloads

    [crates/inari-server/src/managed_gateway/payload.rs]: a dispatch command at rest is encrypted with AES-256-GCM under
    a fresh data key, which the Transit engine of OpenBao wraps.  AES-GCM, base64 and OpenBao are third-party; random
    bytes are arguments, [None] when the system has none. *)
From S2P Require Import Prelude InvitationCode ManagedWork DataTls ServerErrors.

(** ** Third-party functions *)
Class Aes256Gcm := {
  aes_encrypt : string -> string -> string -> string -> option string;
  aes_decrypt : string -> string -> string -> string -> option string;
}.
(** What was encrypted under a key, a nonce and associated data is decrypted by them. *)
Class Aes256GcmSpec `{Aes256Gcm} : Prop := aes_roundtrip : forall key nonce message aad ciphertext,
  aes_encrypt key nonce message aad = Some ciphertext -> aes_decrypt key nonce ciphertext aad = Some message.
Class Base64Decode := base64_decode : string -> option string.
Class Base64Spec `{Base64Standard, Base64Decode} : Prop := base64_roundtrip : forall s,
  base64_decode (base64_standard s) = Some s.

Definition DATA_KEY_BYTES : Z := 32.
(** [Aes256Gcm::new_from_slice] takes exactly 32 bytes. *)
Definition aes_key_ok (key : string) : bool := str_len key =? DATA_KEY_BYTES.

(** ** Transit ciphertexts *)
Record TransitWrappedKey := mkTransitWrappedKey { tw_ciphertext : string; tw_key_version : Z }.

(** [str::split_once]. *)
Fixpoint split_once (sep : ascii) (s : string) : option (string * string) :=
  match s with
  | EmptyString => None
  | String c rest =>
      if Ascii.eqb c sep then Some (EmptyString, rest) else
      '(a, b) ← split_once sep rest; Some (String c a, b)
  end.
(** [str::parse::<u32>]: an optional sign, then digits. *)
Definition parse_u32 (s : string) : option Z :=
  let digits := match s with String c rest => if byte_is c 43 then rest else s | EmptyString => s end in
  if is_empty digits then None else n ← parse_digits 0 digits; u32_try_from n.

Section Transit.
Context `{Base64Decode}.
Definition invalid_transit : AppError := service_unavailable "OpenBao returned an invalid Transit ciphertext.".
Definition transit_key_version (ciphertext : string) : AppResult Z :=
  parts ← ok_or (value ← strip_prefix "vault:v" ciphertext; split_once ":" value) invalid_transit;
  let '(version, body) := parts in
  ok_or (version ← parse_u32 version;
         if (0 <? version) && (version <=? i32_max) then
           if negb (is_empty body) && bool_decide (is_Some (base64_decode body)) then Some version else None
         else None) invalid_transit.
End Transit.

(** ** The key wrapper *)

(** The trait of the key wrapper, and what the protector relies on: a wrapped key is a Transit ciphertext of the version
    it names, and unwraps with the same associated data. *)
Class ManagedPayloadKeyWrapper := {
  wrap : string -> string -> AppResult TransitWrappedKey;
  unwrap : string -> string -> AppResult string;
}.
Class KeyWrapperSpec `{Base64Decode, ManagedPayloadKeyWrapper} : Prop := wrap_unwraps : forall key aad wrapped,
  aes_key_ok key = true -> wrap key aad = Ok wrapped ->
  transit_key_version (tw_ciphertext wrapped) = Ok (tw_key_version wrapped) /\ unwrap (tw_ciphertext wrapped) aad = Ok key.

(** ** The protector *)
Section Protector.
Context `{Sha256, Aes256Gcm, Base64Decode, ManagedPayloadKeyWrapper}.

Record PreparedManagedPayload := mkPreparedPayload {
  pp_data_key : string;
  pp_wrapped : TransitWrappedKey;
  pp_authenticated_data : string;
}.
Definition prepare (entropy : option string) (authenticated_data : string) : AppResult PreparedManagedPayload :=
  data_key ← ok_or entropy (service_unavailable "A Managed Payload data key could not be created.");
  wrapped ← wrap data_key authenticated_data;
  Ok (mkPreparedPayload data_key wrapped authenticated_data).

Definition seal (self : PreparedManagedPayload) (entropy : option string) (plaintext : string) : AppResult NewManagedPayload :=
  nonce ← ok_or entropy (service_unavailable "A Managed Payload nonce could not be created.");
  _ ← ensure (aes_key_ok (pp_data_key self)) (service_unavailable "The Managed Payload cipher could not be initialized.");
  ciphertext ← ok_or (aes_encrypt (pp_data_key self) nonce plaintext (pp_authenticated_data self))
                 (service_unavailable "The Managed Payload could not be encrypted.");
  plaintext_bytes ← ok_or (i64_try_from (str_len plaintext)) (bad_request "Managed Payload size is out of range.");
  Ok (mkNewPayload ciphertext nonce (tw_ciphertext (pp_wrapped self)) (tw_key_version (pp_wrapped self))
        (sha256 (pp_authenticated_data self)) plaintext_bytes).

Definition open (protected : NewManagedPayload) (authenticated_data : string) : AppResult string :=
  let mismatch := service_unavailable "Managed Payload metadata does not match its protection." in
  if negb (String.eqb (sha256 authenticated_data) (nl_authenticated_data_digest protected)) then Err mismatch else
  version ← transit_key_version (nl_wrapped_data_key protected);
  if negb (version =? nl_wrapping_key_version protected) then Err mismatch else
  data_key ← unwrap (nl_wrapped_data_key protected) authenticated_data;
  _ ← ensure (aes_key_ok data_key) (service_unavailable "The Managed Payload data key is invalid.");
  plaintext ← ok_or (aes_decrypt data_key (nl_nonce protected) (nl_ciphertext protected) authenticated_data)
                (service_unavailable "Managed Payload authentication failed.");
  if bool_decide (i64_try_from (str_len plaintext) = Some (nl_plaintext_bytes protected)) then Ok plaintext
  else Err (service_unavailable "The Managed Payload size does not match its metadata.").
End Protector.

(** ** OpenBao *)
Record OpenBaoEncryptRequest := mkEncryptRequest { en_plaintext : string; en_associated_data : string }.
Record OpenBaoDecryptRequest := mkDecryptRequest { de_ciphertext : string; de_associated_data : string }.
(** [OpenBaoClient::post] to the two paths of the Transit engine: the field of the response's [data]. *)
Class OpenBaoTransit := {
  post_encrypt : string -> OpenBaoEncryptRequest -> AppResult string;
  post_decrypt : string -> OpenBaoDecryptRequest -> AppResult string;
}.
(** The Transit engine decrypts what it encrypted under the same key and associated data. *)
Class OpenBaoTransitSpec `{OpenBaoTransit} : Prop := transit_roundtrip : forall mount key plaintext data ciphertext,
  post_encrypt ("v1/" ++ mount ++ "/encrypt/" ++ key) (mkEncryptRequest plaintext data) = Ok ciphertext ->
  post_decrypt ("v1/" ++ mount ++ "/decrypt/" ++ key) (mkDecryptRequest ciphertext data) = Ok plaintext.

Definition valid_openbao_name (value : string) : bool :=
  negb (is_empty value) && (str_len value <=? 128)
  && all_bytes (fun b => is_ascii_alphanumeric b || byte_is b 45 || byte_is b 95) value.

Section OpenBao.
Context `{Base64Standard, Base64Decode, OpenBaoTransit}.
Context (transit_mount transit_key_name : string).

Definition openbao_wrap (data_key authenticated_data : string) : AppResult TransitWrappedKey :=
  ciphertext ← post_encrypt ("v1/" ++ transit_mount ++ "/encrypt/" ++ transit_key_name)
                 (mkEncryptRequest (base64_standard data_key) (base64_standard authenticated_data));
  key_version ← transit_key_version ciphertext;
  Ok (mkTransitWrappedKey ciphertext key_version).
Definition openbao_unwrap (wrapped_data_key authenticated_data : string) : AppResult string :=
  encoded_key ← post_decrypt ("v1/" ++ transit_mount ++ "/decrypt/" ++ transit_key_name)
                  (mkDecryptRequest wrapped_data_key (base64_standard authenticated_data));
  data_key ← ok_or (base64_decode encoded_key) (service_unavailable "OpenBao returned an invalid data key.");
  if negb (str_len data_key =? DATA_KEY_BYTES) then Err (service_unavailable "OpenBao returned an invalid data key size.")
  else Ok data_key.
Definition OpenBaoTransitKeyWrapper : ManagedPayloadKeyWrapper := {| wrap := openbao_wrap; unwrap := openbao_unwrap |}.
Definition OpenBaoTransitKeyWrapper_new : AppResult ManagedPayloadKeyWrapper :=
  if negb (valid_openbao_name transit_mount) || negb (valid_openbao_name transit_key_name)
  then Err (bad_request "The Managed Payload Transit key path is invalid.") else Ok OpenBaoTransitKeyWrapper.

(** OpenBao discharges what the protector relies on. *)
Lemma openbao_key_wrapper_spec `{!Base64Spec, !OpenBaoTransitSpec} :
  @KeyWrapperSpec _ OpenBaoTransitKeyWrapper.
Proof.
  intros key aad wrapped Hkey Hw. simpl in *. unfold openbao_wrap in Hw.
  apply bind_Ok in Hw as (c & Hc & Hw). apply bind_Ok in Hw as (v & Hv & Hw). injection Hw as <-. simpl. split; [done|].
  unfold openbao_unwrap. rewrite (transit_roundtrip _ _ _ _ _ Hc). simpl. rewrite base64_roundtrip. simpl.
  unfold aes_key_ok in Hkey. by rewrite Hkey.
Qed.
End OpenBao.

(** ** What protection promises *)
Section Promise.
Context `{Sha256, Aes256Gcm, Base64Decode, ManagedPayloadKeyWrapper}.

Lemma seal_opens `{!Aes256GcmSpec, !KeyWrapperSpec} e1 e2 aad prepared plaintext protected :
  prepare e1 aad = Ok prepared -> seal prepared e2 plaintext = Ok protected -> open protected aad = Ok plaintext.
Proof.
  intros Hp Hs. unfold prepare in Hp. apply bind_Ok in Hp as (key & _ & Hp). apply bind_Ok in Hp as (w & Hw & Hp).
  injection Hp as <-. unfold seal in Hs. apply bind_Ok in Hs as (nonce & _ & Hs).
  apply bind_Ok in Hs as (u & Hk%ensure_Ok & Hs). apply bind_Ok in Hs as (c & Hc%ok_or_Ok & Hs).
  apply bind_Ok in Hs as (n & Hn%ok_or_Ok & Hs). injection Hs as <-. simpl in *.
  destruct (wrap_unwraps key aad w Hk Hw) as [Hv Hu]. unfold open. simpl.
  rewrite String.eqb_refl, Hv. simpl. rewrite Z.eqb_refl. simpl. rewrite Hu. simpl. rewrite Hk. simpl.
  rewrite (aes_roundtrip _ _ _ _ _ Hc). simpl. by rewrite bool_decide_true.
Qed.
Lemma open_Ok protected aad plaintext : open protected aad = Ok plaintext <->
  sha256 aad = nl_authenticated_data_digest protected /\
  transit_key_version (nl_wrapped_data_key protected) = Ok (nl_wrapping_key_version protected) /\
  i64_try_from (str_len plaintext) = Some (nl_plaintext_bytes protected) /\
  exists key, unwrap (nl_wrapped_data_key protected) aad = Ok key /\ aes_key_ok key = true /\
    aes_decrypt key (nl_nonce protected) (nl_ciphertext protected) aad = Some plaintext.
Proof.
  unfold open. cbv zeta. split.
  - destruct (String.eqb _ _) eqn:Hd; [|done]. apply String.eqb_eq in Hd. simpl. intros Ho.
    apply bind_Ok in Ho as (v & Hv & Ho). destruct (v =? _) eqn:Hn; [|done]. apply Z.eqb_eq in Hn as ->. simpl in Ho.
    apply bind_Ok in Ho as (key & Hu & Ho). apply bind_Ok in Ho as (u & Hk%ensure_Ok & Ho).
    apply bind_Ok in Ho as (m & Hm%ok_or_Ok & Ho). case_bool_decide; [|done]. injection Ho as <-. eauto 10.
  - intros (<- & Hv & Hn & key & Hu & Hk & Hm). rewrite String.eqb_refl, Hv. simpl. rewrite Z.eqb_refl. simpl.
    rewrite Hu. simpl. rewrite Hk. simpl. rewrite Hm. simpl. by rewrite bool_decide_true.
Qed.
End Promise.
