(* ===== verification/DispatchSigner.v ===== *)
(** * Dispatch envelopes

    [crates/inari-server/src/managed_gateway/dispatch.rs] and the claims and fingerprint of
    [crates/inari-gateway/src/protocol/managed_work.rs]: Managed Work travels to its Agent as claims signed by the
    Controller and sealed to the Agent's dispatch key.  HPKE, Ed25519, base64 and the JSON text of claims and commands
    are third-party; the entropy of the encapsulation is an argument. *)
From S2P Require Import Prelude Framing Json Errors InvitationCode Protocol Schema Security FleetPolicy ManagedWork.
From S2P Require Import ServerErrors PayloadProtection.

Definition MANAGED_WORK_CONTRACT_MAJOR : Z := 1.
Definition MANAGED_DISPATCH_VERSION : Z := 1.
Definition DISPATCH_JWS_TYPE : string := "application/inari-dispatch+jws".

Record AgentManagedScope := mkAgentManagedScope { as_organization_id : string; as_site_id : string; as_agent_id : string }.
Record ManagedDispatchEnrollment := mkDispatchEnrollment {
  de_scope : AgentManagedScope;
  de_issuer : string;
  de_epoch : Z;
  de_verification_jwk : Jwk;
}.
Record ManagedDispatchClaims := mkDispatchClaims {
  cl_issuer : string;
  cl_audience : string;
  cl_authenticated_data : ManagedDispatchAuthenticatedData;
  cl_work : ManagedDeviceWork;
}.

(** ** Third-party functions *)

(** RFC 9180 in base mode, as the [hpke] crate offers it to a sender; [hpke_open] is the receiver with the private key. *)
Class Hpke := {
  hpke_context : Type;
  hpke_public_key_is_ok : string -> bool;
  setup_sender : string -> string -> string -> option (string * hpke_context);
  context_seal : hpke_context -> string -> string -> option string;
  hpke_public_key : string -> string;
  hpke_open : string -> string -> string -> string -> string -> option string;
}.
(** The holder of the private key opens the first message of a context with the same info and associated data. *)
Class HpkeSpec `{Hpke} : Prop := hpke_roundtrip : forall private info entropy encapsulated ctx message aad ciphertext,
  setup_sender (hpke_public_key private) info entropy = Some (encapsulated, ctx) ->
  context_seal ctx message aad = Some ciphertext ->
  hpke_open private encapsulated info ciphertext aad = Some message.
(** Canonical JSON of claims, commands and device options, and reading claims and commands back. *)
Class DispatchJson := {
  claims_to_vec : ManagedDispatchClaims -> option string;
  claims_from_slice : string -> option ManagedDispatchClaims;
  command_to_vec : ControllerCommand -> option string;
  command_from_slice : string -> option ControllerCommand;
  options_to_vec : StructuredFields -> option string;
}.
Class DispatchJsonSpec `{DispatchJson} : Prop := {
  claims_roundtrip : forall c bytes, claims_to_vec c = Some bytes -> claims_from_slice bytes = Some c;
  command_roundtrip : forall c bytes, command_to_vec c = Some bytes -> command_from_slice bytes = Some c;
}.
Class Base64UrlSpec `{Encoding} : Prop := base64url_roundtrip : forall s, base64url_decode (base64url_encode s) = Some s.
(** [chrono]: the [%Y-%m-%dT%H:%M:%S%.6fZ] text of an instant. *)
Class DeadlineFormat := format_deadline : instant -> string.

(** ** The payload fingerprint *)
Section Fingerprint.
Context `{Sha256, Base64Decode, DispatchJson, DeadlineFormat}.

Definition operation_str (o : ManagedDocumentOperation) : string :=
  match o with OpReportPdf => "report_pdf" | OpLabelDocument => "label_document" end.
Definition content_base64 (d : ManagedDocument) : string :=
  match d with DocReportPdf content | DocLabelDocument content => content end.
(** [b"inari-device-work-fingerprint\0\x01"]. *)
Definition fingerprint_domain : string :=
  "inari-device-work-fingerprint" ++ String (ascii_of_nat 0) (String (ascii_of_nat 1) EmptyString).
Definition fingerprint_fields (work : ManagedDeviceWork) (document options : string) (expires_at : instant) : list string :=
  [be_bytes 4 (dw_contract_major work); operation_str (document_operation (dw_document work)); dw_device_id work;
   document_media_type (dw_document work); document; options; format_deadline expires_at].
Definition managed_work_fingerprint (work : ManagedDeviceWork) (expires_at : instant) : GatewayResult string :=
  document ← ok_or (base64_decode (content_base64 (dw_document work)))
               (InvalidInput "Managed Work document is not valid base64");
  options ← ok_or (options_to_vec (dw_normalized_device_options work)) Serialization;
  Ok (sha256 (fingerprint_domain ++ framed (fingerprint_fields work document options expires_at))).
End Fingerprint.

(** *** What a fingerprint binds *)
Section Binds.
Context `{Sha256, Base64Decode, DispatchJson, DeadlineFormat}.

(** The fields hashed for a work item and a deadline. *)
Definition fingerprinted (work : ManagedDeviceWork) (expires_at : instant) (fields : list string) : Prop :=
  exists document options, base64_decode (content_base64 (dw_document work)) = Some document /\
    options_to_vec (dw_normalized_device_options work) = Some options /\
    fields = fingerprint_fields work document options expires_at.
Lemma fingerprint_Ok work expires_at f : managed_work_fingerprint work expires_at = Ok f <->
  exists fields, fingerprinted work expires_at fields /\ f = sha256 (fingerprint_domain ++ framed fields).
Proof.
  unfold managed_work_fingerprint, fingerprinted. split.
  - intros Hf. apply bind_Ok in Hf as (d & Hd%ok_or_Ok & Hf). apply bind_Ok in Hf as (o & Ho%ok_or_Ok & Hf).
    apply Ok_inj in Hf as <-. eauto 10.
  - intros (fields & (d & o & -> & -> & ->) & ->). done.
Qed.
Lemma cons_eq {A} (a b : A) l m : a :: l = b :: m -> a = b /\ l = m.
Proof. by intros [= -> ->]. Qed.
Lemma operation_str_inj o o' : operation_str o = operation_str o' -> o = o'.
Proof. by destruct o, o'. Qed.

(** C17: two work items with the same fingerprint agree on everything an Agent executes: the contract, the operation, the
    Device, the document, the device options and the deadline.  Otherwise the hashed bytes are a SHA-256 collision. *)
Theorem fingerprint_binds_work w1 t1 fields1 w2 t2 fields2 f :
  fingerprinted w1 t1 fields1 -> fingerprinted w2 t2 fields2 -> framable fields1 -> framable fields2 ->
  0 <= dw_contract_major w1 < 65536 -> 0 <= dw_contract_major w2 < 65536 ->
  managed_work_fingerprint w1 t1 = Ok f -> managed_work_fingerprint w2 t2 = Ok f ->
  (dw_contract_major w1 = dw_contract_major w2 /\
   document_operation (dw_document w1) = document_operation (dw_document w2) /\ dw_device_id w1 = dw_device_id w2 /\
   base64_decode (content_base64 (dw_document w1)) = base64_decode (content_base64 (dw_document w2)) /\
   options_to_vec (dw_normalized_device_options w1) = options_to_vec (dw_normalized_device_options w2) /\
   format_deadline t1 = format_deadline t2) \/
  (framed fields1 <> framed fields2 /\
   sha256 (fingerprint_domain ++ framed fields1) = sha256 (fingerprint_domain ++ framed fields2)).
Proof.
  intros F1 F2 S1 S2 M1 M2 (g1 & G1 & E1)%fingerprint_Ok (g2 & G2 & E2)%fingerprint_Ok.
  assert (forall w t a b, fingerprinted w t a -> fingerprinted w t b -> a = b) as Hfun.
  { intros w t a b (d & o & Hd & Ho & ->) (d' & o' & Hd' & Ho' & ->). congruence. }
  rewrite <- (Hfun _ _ _ _ F1 G1) in E1. rewrite <- (Hfun _ _ _ _ F2 G2) in E2. clear g1 g2 G1 G2.
  destruct (decide (framed fields1 = framed fields2)) as [Heq|Hne]; [left|right; split; [done|congruence]].
  apply framed_inj in Heq; [|done..]. destruct F1 as (d1 & o1 & -> & -> & ->), F2 as (d2 & o2 & -> & -> & E).
  rewrite E in Heq. unfold fingerprint_fields in Heq. repeat (apply cons_eq in Heq as [? Heq]). subst.
  match goal with Em : be_bytes _ _ = _, Eo : operation_str _ = _ |- _ =>
    apply be_bytes_inj in Em; [|simpl; lia..]; apply operation_str_inj in Eo end. split_and!; congruence.
Qed.
End Binds.

(** ** The signer *)
Record ManagedDispatchSigner := mkDispatchSigner {
  ds_issuer : string;
  ds_key_id : string;
  ds_epoch : Z;
  ds_envelope_ttl : Z;
  ds_signing_key : string;
  ds_verification_jwk : Jwk;
}.
Definition enrollment (self : ManagedDispatchSigner) (scope : AgentManagedScope) : ManagedDispatchEnrollment :=
  mkDispatchEnrollment scope (ds_issuer self) (ds_epoch self) (ds_verification_jwk self).

(** [DateTime::timestamp]: whole seconds, rounded down. *)
Definition timestamp (t : instant) : Z := t / 1000000000.
(** [TimeDelta::from_std] refuses durations beyond [i64::MAX] milliseconds. *)
Definition time_delta_ok (d : Z) : bool := d <=? i64_max * 1000000.
Definition nul : string := String (ascii_of_nat 0) EmptyString.
Definition dispatch_info (agent_id recipient_key_id : string) : string :=
  "inari-managed-dispatch" ++ nul ++ "v" ++ show_u64 MANAGED_DISPATCH_VERSION ++ nul ++ agent_id ++ nul ++ recipient_key_id.

Section Signer.
Context `{Encoding, Rfc3339, Canonicalizer, DispatchJson, Hpke, Ed25519Signing}.

Definition DispatchHeader_value (key_id : string) : Value :=
  object [("alg", VString "EdDSA"); ("kid", VString key_id); ("typ", VString DISPATCH_JWS_TYPE)].
Definition AuthenticatedData_value (d : ManagedDispatchAuthenticatedData) : Value :=
  object [("organization_id", VString (ad_organization_id d)); ("site_id", VString (ad_site_id d));
    ("agent_id", VString (ad_agent_id d)); ("managed_work_id", VString (ad_managed_work_id d));
    ("idempotency_key", VString (ad_idempotency_key d)); ("payload_fingerprint", VString (ad_payload_fingerprint d));
    ("dispatch_epoch", VNumber (ad_dispatch_epoch d)); ("sequence", VNumber (ad_sequence d));
    ("issued_at", VNumber (ad_issued_at d)); ("expires_at", VNumber (ad_expires_at d));
    ("work_expires_at", VString (rfc3339_micros (ad_work_expires_at d)))].

Definition sign (self : ManagedDispatchSigner) (claims : ManagedDispatchClaims) : AppResult string :=
  protected ← ok_or (canonical_to_vec (DispatchHeader_value (ds_key_id self)))
                (internal "managed_dispatch_serialization" "The managed dispatch header could not be canonicalized.");
  payload ← ok_or (claims_to_vec claims)
              (internal "managed_dispatch_serialization" "The managed dispatch claims could not be canonicalized.");
  let signing_input := base64url_encode protected ++ "." ++ base64url_encode payload in
  Ok (signing_input ++ "." ++ base64url_encode (ed25519_sign (ds_signing_key self) signing_input)).

Definition seal_dispatch (entropy signed_envelope : string) (authenticated_data : ManagedDispatchAuthenticatedData)
    (recipient_key : DispatchEncryptionKey) : AppResult SealedManagedDispatch :=
  public_key ← ok_or (base64url_decode (dk_public_key_base64url recipient_key))
                 (bad_request "The Agent dispatch public key is not valid base64url.");
  _ ← ensure (hpke_public_key_is_ok public_key) (bad_request "The Agent dispatch public key is invalid.");
  let info := dispatch_info (ad_agent_id authenticated_data) (dk_key_id recipient_key) in
  sender ← ok_or (setup_sender public_key info entropy)
             (internal "managed_dispatch_encryption" "The managed dispatch HPKE context could not be created.");
  aad ← ok_or (canonical_to_vec (AuthenticatedData_value authenticated_data))
          (internal "managed_dispatch_serialization" "The managed dispatch authenticated data could not be canonicalized.");
  ciphertext ← ok_or (context_seal (snd sender) signed_envelope aad)
                 (internal "managed_dispatch_encryption" "The managed dispatch could not be encrypted.");
  Ok (mkSealedManagedDispatch MANAGED_DISPATCH_VERSION (dk_key_id recipient_key) DhkemX25519HkdfSha256HkdfSha256Aes256Gcm
        (base64url_encode (fst sender)) (base64url_encode ciphertext)).

Definition authenticated_data (self : ManagedDispatchSigner) (allocation : ManagedDispatchAllocation) (expires_at : instant)
    (idempotency_key : string) (submission : ManagedWorkSubmission) : ManagedDispatchAuthenticatedData :=
  let scope := dw_scope (sub_work submission) in
  mkManagedDispatchAuthenticatedData (sc_organization_id scope) (sc_site_id scope) (sc_agent_id scope)
    (al_managed_work_id allocation) idempotency_key (sub_payload_fingerprint submission) (ds_epoch self)
    (al_sequence allocation) (timestamp (al_issued_at allocation)) (timestamp expires_at) (al_work_expires_at allocation).

Definition signer_command (self : ManagedDispatchSigner) (entropy : string) (allocation : ManagedDispatchAllocation)
    (idempotency_key : string) (submission : ManagedWorkSubmission) : AppResult ControllerCommand :=
  _ ← ensure (time_delta_ok (ds_envelope_ttl self))
        (internal "managed_dispatch_deadline" "The managed dispatch deadline is invalid.");
  let dispatch_expires_at := al_issued_at allocation + ds_envelope_ttl self in
  let expires_at := Z.min dispatch_expires_at (al_work_expires_at allocation) in
  let data := authenticated_data self allocation expires_at idempotency_key submission in
  let claims := mkDispatchClaims (ds_issuer self) (sc_agent_id (dw_scope (sub_work submission))) data (sub_work submission) in
  signed_envelope ← sign self claims;
  sealed_envelope ← seal_dispatch entropy signed_envelope data (al_recipient_key allocation);
  Ok (CmdDispatchDeviceWork (al_message_id allocation) (al_command_id allocation) (al_sequence allocation)
        (al_issued_at allocation) (mkDispatchDeviceWork (al_managed_work_id allocation) data sealed_envelope)).
End Signer.

(** ** What an envelope carries *)
Section Envelope.
Context `{Encoding, Rfc3339, Canonicalizer, DispatchJson, Hpke, Ed25519, Ed25519Signing}.

(** With its private dispatch key and the Controller's verifying key, an Agent obtains [claims] from a dispatch: the
    sealed envelope opens under the authenticated data beside it, to a compact JWS whose signature verifies and whose
    payload reads as the claims. *)
Definition delivers (private verifying_key : string) (dispatch : DispatchDeviceWork) (claims : ManagedDispatchClaims) : Prop :=
  let sealed := ddw_sealed_envelope dispatch in
  let data := ddw_authenticated_data dispatch in
  exists aad encapsulated ciphertext protected payload signature signature_bytes payload_bytes,
    canonical_to_vec (AuthenticatedData_value data) = Some aad /\
    base64url_decode (sm_encapsulated_key_base64url sealed) = Some encapsulated /\
    base64url_decode (sm_ciphertext_base64url sealed) = Some ciphertext /\
    hpke_open private encapsulated (dispatch_info (ad_agent_id data) (sm_key_id sealed)) ciphertext aad
      = Some ((protected ++ "." ++ payload) ++ "." ++ signature) /\
    base64url_decode signature = Some signature_bytes /\
    verify_strict verifying_key (protected ++ "." ++ payload) signature_bytes = true /\
    base64url_decode payload = Some payload_bytes /\ claims_from_slice payload_bytes = Some claims.

Lemma signer_command_delivers `{!HpkeSpec, !DispatchJsonSpec, !Base64UrlSpec, !Ed25519SigningSpec}
    self entropy allocation key submission private command :
  ed25519_is_weak (ed25519_verifying_key (ds_signing_key self)) = false ->
  signer_command self entropy allocation key submission = Ok command ->
  base64url_decode (dk_public_key_base64url (al_recipient_key allocation)) = Some (hpke_public_key private) ->
  exists dispatch claims,
    command = CmdDispatchDeviceWork (al_message_id allocation) (al_command_id allocation) (al_sequence allocation)
                (al_issued_at allocation) dispatch /\
    delivers private (ed25519_verifying_key (ds_signing_key self)) dispatch claims /\
    cl_issuer claims = ds_issuer self /\ cl_audience claims = sc_agent_id (dw_scope (sub_work submission)) /\
    cl_work claims = sub_work submission /\ cl_authenticated_data claims = ddw_authenticated_data dispatch /\
    ddw_managed_work_id dispatch = al_managed_work_id allocation /\
    ddw_authenticated_data dispatch = authenticated_data self allocation
      (Z.min (al_issued_at allocation + ds_envelope_ttl self) (al_work_expires_at allocation)) key submission.
Proof.
  intros Hweak Hc Hkey. unfold signer_command in Hc. apply bind_Ok in Hc as (u & _ & Hc). cbv zeta in Hc.
  set (data := authenticated_data _ _ _ _ _) in *. set (claims := mkDispatchClaims _ _ _ _) in *.
  apply bind_Ok in Hc as (jws & Hj & Hc). apply bind_Ok in Hc as (sealed & Hs & Hc). apply Ok_inj in Hc as <-.
  unfold sign in Hj. apply bind_Ok in Hj as (header & _ & Hj). apply bind_Ok in Hj as (payload & Hp%ok_or_Ok & Hj).
  apply Ok_inj in Hj as <-. unfold seal_dispatch in Hs.
  apply bind_Ok in Hs as (pk & Hpk%ok_or_Ok & Hs). apply bind_Ok in Hs as (u2 & _ & Hs). cbv zeta in Hs.
  apply bind_Ok in Hs as ([enc ctx] & Hsend%ok_or_Ok & Hs). apply bind_Ok in Hs as (aad & Haad%ok_or_Ok & Hs).
  apply bind_Ok in Hs as (ct & Hct%ok_or_Ok & Hs). apply Ok_inj in Hs as <-. simpl in *.
  assert (pk = hpke_public_key private) as -> by congruence.
  eexists _, claims. split; [reflexivity|]. split_and!; try reflexivity.
  exists aad, enc, ct, (base64url_encode header), (base64url_encode payload). eexists _, _, payload. simpl.
  split_and!; try apply base64url_roundtrip; [done|by eapply hpke_roundtrip|by apply ed25519_sign_verifies|by apply claims_roundtrip].
Qed.
End Envelope.
