(* ===== verification/ManagedGateway.v ===== *)
(** * The managed gateway service

    [crates/inari-server/src/managed_gateway/] [mod.rs], [store.rs], [managed_work.rs], [jobs.rs], [keyspace.rs] and the
    handlers of [runtime.rs]: what the Controller does for a caller, over the repository, the Router admission
    controller, the dispatch signer and the payload protector.

    The state is the database and what was put on the data plane.  Reads of the clock, entropy, and the answers of
    Routers and of Zenoh are arguments, grouped in a record per operation in the order the code asks for them. *)
From S2P Require Import Prelude Json Errors Identifiers InvitationCode Protocol Schema RouterPolicy Commands Security.
From S2P Require Import ManagedWork Inventory AuditLog Publications Retirement FleetPolicy Supervisor ServerErrors AdmissionController.
From S2P Require Import PayloadProtection DispatchSigner.

Definition PREFLIGHT_TTL : Z := seconds (2 * 60).
Definition WORK_TTL : Z := seconds (5 * 60).
Definition IDEMPOTENCY_TTL : Z := seconds (90 * 24 * 60 * 60).
Definition REPORT_PDF_LIMIT : Z := 10 * 1024 * 1024.
Definition LABEL_DOCUMENT_LIMIT : Z := 2 * 1024 * 1024.

#[global] Instance DeviceCapability_eq_dec : EqDecision DeviceCapability.
Proof. solve_decision. Defined.
#[global] Instance DeviceState_eq_dec : EqDecision DeviceState.
Proof. solve_decision. Defined.

(** ** State and effects *)
Record World := mkWorld { w_database : Database; w_published : list (string * string) }.
#[global] Instance World_eta : Eta World := fun w => mkWorld (w_database w) (w_published w).
Notation App := (repo World AppError).

Definition from_result {A} (r : GatewayResult A) : AppResult A :=
  match r with Ok a => Ok a | Err e => Err (from_gateway e) end.
Definition in_database {A} (m : repo Database AppError A) : App A := fun w =>
  let '(r, db) := m (w_database w) in (r, w <| w_database := db |>).
(** Runs [m] and hands its result on. *)
Definition try_app {A} (m : App A) : App (AppResult A) := fun w => let '(r, w') := m w in (Ok r, w').

(** [ZenohHandle::put_bytes] with the outcome it has. *)
Definition put_bytes (key payload : string) (outcome : AppResult unit) : App unit := fun w =>
  match outcome with
  | Ok _ => (Ok tt, w <| w_published := (w_published w ++ [(key, payload)])%list |>)
  | Err e => (Err e, w)
  end.

(** ** Third-party functions *)

(** [zenoh::key_expr::OwnedKeyExpr]: [from_str] and [join]. *)
Class KeyExpressions := {
  key_from_str : string -> result string string;
  key_join : string -> string -> result string string;
}.
(** [serde_json::to_vec]; a [VObject] lists the fields in the order of the type. *)
Class JsonText := {
  json_to_vec : Value -> option string;
  job_request_to_vec : JobKind -> option string;
  message_to_vec : ControllerCommand -> option string;
  publication_from_slice : string -> option AgentPublication;
  (** [serde_json_canonicalizer::to_vec(&(work, payload_fingerprint))]. *)
  request_to_vec : ManagedDeviceWork -> string -> option string;
}.

(** ** The controller *)
Record ManagedGatewayController := mkGateway {
  mg_enabled : bool;
  mg_has_repository : bool;
  mg_controller_actions : list string;
  mg_namespace_prefix : string;
  mg_organization_id : string;
  (** [ManagedWorkSecurity]: the signer; the protector's key wrapper is the class of [PayloadProtection]. *)
  mg_security : option ManagedDispatchSigner;
  mg_router_admission : option Controller;
}.
(** What one call of the admission controller is answered, and what others commit meanwhile. *)
Record AdmissionCall := mkAdmissionCall {
  ac_clock : ControllerClock;
  ac_others : Others;
  ac_management : RouterManagementConfig -> SignedPolicy -> AppResult RouterStatus;
  ac_timed_out : bool;
  ac_now : instant;
}.
Record StoredControllerCommand := mkStoredCommand {
  st_agent_id : string;
  st_namespace : string;
  st_command_id : string;
  st_command : CommandContent;
}.
Definition stored_command (c : PersistedCommand) : StoredControllerCommand :=
  mkStoredCommand (pc_agent_id c) (pc_namespace c) (pc_command_id c) (pc_command c).

(** ** Texts *)
(** [trim_end_matches('/')]. *)
Fixpoint trim_end_slashes (s : string) : string :=
  match s with
  | EmptyString => EmptyString
  | String c rest =>
      match trim_end_slashes rest with
      | EmptyString => if byte_is c 47 then EmptyString else String c EmptyString
      | rest' => String c rest'
      end
  end.
Fixpoint contains_byte (n : Z) (s : string) : bool :=
  match s with EmptyString => false | String c rest => byte_is c n || contains_byte n rest end.

Section Gateway.
Context `{Encoding, Sha256, Ed25519, Ed25519Signing, HexDecode, Rfc3339Auto, Canonicalizer, PolicyJson, Collation}.
Context `{Rfc3339, DispatchJson, Hpke, Aes256Gcm, Base64Decode, ManagedPayloadKeyWrapper, DeadlineFormat}.
Context `{KeyExpressions, JsonText}.

Section Self.
Context (self : ManagedGatewayController).

Definition ensure_enabled : AppResult unit :=
  if mg_enabled self && mg_has_repository self then Ok tt
  else Err (service_unavailable "Managed gateway controller is not enabled.").
Definition dispatch_signer : AppResult ManagedDispatchSigner :=
  ok_or (mg_security self) (service_unavailable "Managed Work dispatch is not enabled.").
Definition payload_protector : AppResult unit :=
  match mg_security self with
  | Some _ => Ok tt
  | None => Err (service_unavailable "Managed Payload protection is not enabled.")
  end.
Definition repository {A} (m : Repo A) : App A :=
  if mg_has_repository self then in_database (gateway m)
  else returns (Err (service_unavailable "Managed gateway persistence is not enabled.")).
Definition router_admission (call : AdmissionCall) (agent_id : string) : App RouterAdmission :=
  match mg_router_admission self with
  | None => returns (Err (service_unavailable "Router admission is not configured."))
  | Some controller =>
      in_database (admit_agent controller (ac_clock call) (ac_others call) (ac_management call) (ac_timed_out call) agent_id (ac_now call))
  end.

(** ** The store *)
Definition store_enqueue_command (admission : RouterAdmission) (agent_id job_id : string) (command : JobKind)
    (clock : EnqueueClock) : App StoredControllerCommand :=
  if negb (List.existsb (fun action => String.eqb action (required_action command)) (mg_controller_actions self))
  then returns (Err (forbidden "Controller command is not allowed by managed gateway permissions.")) else
  bytes ← returns (ok_or (job_request_to_vec command) serialization_error);
  persisted ← repository (enqueue_command admission agent_id (Some job_id) (sha256 bytes)
    (fun sequence command_id message_id issued_at => Ok (into_message command message_id command_id sequence issued_at)) clock);
  mret (stored_command persisted).

(** ** Dispatch *)
Definition ManagedPayloadContext_value (c : ManagedPayloadContext) : Value :=
  object [("organization_id", VString (px_organization_id c)); ("managed_work_id", VString (px_managed_work_id c));
    ("idempotency_key", VString (px_idempotency_key c)); ("payload_fingerprint", VString (px_payload_fingerprint c));
    ("request_fingerprint", VString (px_request_fingerprint c))].

Record DispatchCall := mkDispatchCall {
  dc_admission : AdmissionCall;
  dc_payload_read : instant;
  dc_deadline_check : instant;
  dc_admission_check : instant;
}.
(** The message to send for a stored command: a protected one is opened and checked against its command. *)
Definition dispatch_message (call : DispatchCall) (command : StoredControllerCommand) : App ControllerCommand :=
  admission ← router_admission (dc_admission call) (st_agent_id command);
  match st_command command with
  | Inline message => mret message
  | ManagedWorkContent managed_work_id =>
      persisted ← repository (managed_payload managed_work_id (dc_payload_read call));
      aad ← returns (ok_or (canonical_to_vec (ManagedPayloadContext_value (pl_context persisted))) serialization_error);
      _ ← returns payload_protector;
      plaintext ← returns (open (pl_protection persisted) aad);
      message ← returns (ok_or (command_from_slice plaintext) serialization_error);
      match message with
      | CmdDispatchDeviceWork _ command_id _ _ payload =>
          if negb (String.eqb command_id (st_command_id command))
             || negb (String.eqb (ddw_managed_work_id payload) managed_work_id)
             || negb (String.eqb (ad_agent_id (ddw_authenticated_data payload)) (st_agent_id command))
             || (ad_expires_at (ddw_authenticated_data payload) <=? timestamp (dc_deadline_check call))
          then returns (Err (service_unavailable "Managed Payload does not match its dispatch metadata or deadline."))
          else
            _ ← repository (require_router_admission admission (st_agent_id command) (dc_admission_check call));
            mret message
      | _ => returns (Err (service_unavailable "Managed Payload contains another command type."))
      end
  end.

Definition invalid_key {A} (r : result string A) : AppResult A :=
  match r with Ok a => Ok a | Err source => Err (bad_request ("Invalid Zenoh command key: " ++ source)) end.
Definition command_key (command : StoredControllerCommand) : AppResult string :=
  namespace ← invalid_key (key_from_str (trim_end_slashes (st_namespace command)));
  invalid_key (key ← key_join namespace "commands"; key ← key_join key "live"; key_join key (st_command_id command)).
Record PublishCall := mkPublishCall {
  pc_dispatch : DispatchCall;
  (** [ZenohHandle::put_bytes]. *)
  pc_put : AppResult unit;
  pc_marked_at : instant;
}.
Definition publish_live_command (call : PublishCall) (command : StoredControllerCommand) : App unit :=
  key ← returns (command_key command);
  message ← dispatch_message (pc_dispatch call) command;
  payload ← returns (ok_or (message_to_vec message)
                       (internal "managed_gateway_command_serialization" "Failed to serialize controller command."));
  put_bytes key payload (pc_put call).
Definition publish_managed_dispatch (call : PublishCall) (command : option StoredControllerCommand) : App unit :=
  match command with
  | None => mret tt
  | Some command =>
      published ← try_app (publish_live_command call command);
      match (published : AppResult unit) with
      | Ok _ => repository (mark_command_published (st_agent_id command) (st_command_id command) (pc_marked_at call))
      | Err _ => mret tt
      end
  end.

(** ** Jobs *)
Record JobReceipt := mkJobReceipt { jr_job_id : string; jr_state : JobState }.
Record JobRecord := mkJobRecord {
  jo_job_id : string;
  jo_agent_id : string;
  jo_state : JobState;
  jo_issued_at : instant;
  jo_updated_at : instant;
}.
Definition job_record (c : PersistedCommand) : JobRecord :=
  mkJobRecord (pc_command_id c) (pc_agent_id c) (pc_state c) (pc_issued_at c) (pc_updated_at c).
Record EnqueueCall := mkEnqueueCall { en_admission : AdmissionCall; en_clock : EnqueueClock; en_publish : PublishCall }.

Definition enqueue_job (call : EnqueueCall) (agent_id job_id : string) (request : JobKind) : App JobReceipt :=
  _ ← returns ensure_enabled;
  admission ← router_admission (en_admission call) agent_id;
  command ← store_enqueue_command admission agent_id job_id request (en_clock call);
  published ← try_app (publish_live_command (en_publish call) command);
  match (published : AppResult unit) with
  | Ok _ =>
      _ ← repository (mark_command_published (st_agent_id command) (st_command_id command) (pc_marked_at (en_publish call)));
      mret (mkJobReceipt job_id JobPublished)
  | Err _ => mret (mkJobReceipt job_id JobQueued)
  end.
Definition list_jobs (agent_id : string) : App (list JobRecord) :=
  _ ← returns ensure_enabled;
  jobs ← repository (Commands.jobs agent_id);
  mret (job_record <$> jobs).
Definition find_job (job_id : string) : App JobRecord :=
  _ ← returns ensure_enabled;
  job ← repository (Commands.job job_id);
  mret (job_record job).
Definition cancellation_id (job_id : string) : GatewayResult string :=
  JobId_from_str ("job_cancel_" ++ prefix_of 32 (hex_encode (sha256 job_id))).
Definition cancel_job (call : EnqueueCall) (job_id : string) : App JobReceipt :=
  job ← find_job job_id;
  match jo_state job with
  | JobCompleted | JobFailed | JobRejected | JobSuperseded => returns (Err (conflict "A terminal job cannot be cancelled."))
  | _ =>
      id ← returns (from_result (cancellation_id job_id));
      enqueue_job call (jo_agent_id job) id (JobCancelJob job_id)
  end.

(** ** Managed Work: validation *)
Definition validate_text (name value : string) (max_len : Z) : AppResult unit :=
  if is_empty value || (max_len <? str_len value) || has_control value
  then Err (bad_request ("Managed Work " ++ name ++ " must contain 1 to " ++ show_u64 max_len ++ " non-control characters."))
  else Ok tt.
Definition validate_optional (name : string) (value : option string) : AppResult unit :=
  match value with Some value => validate_text name value 128 | None => Ok tt end.
Definition validate_binding (b : ReportBindingClaim) : AppResult unit :=
  _ ← validate_text "report_binding_id" (bc_report_binding_id b) 128;
  _ ← validate_text "binding_revision_id" (bc_binding_revision_id b) 128;
  _ ← validate_text "report_action_id" (bc_report_action_id b) 256;
  _ ← validate_text "report_contract_digest" (bc_report_contract_digest b) 128;
  _ ← validate_text "template_digest" (bc_template_digest b) 128;
  _ ← validate_optional "command_profile_id" (bc_command_profile_id b);
  _ ← validate_optional "layout_profile_id" (bc_layout_profile_id b);
  validate_optional "hardware_matrix_digest" (bc_hardware_matrix_digest b).
Definition validate_preflight_request (r : ManagedWorkPreflightRequest) : AppResult unit :=
  _ ← ensure (pr_contract_major r =? MANAGED_WORK_CONTRACT_MAJOR)
        (bad_request "Managed Work contract major is not supported.");
  _ ← validate_text "database" (sc_database (pr_scope r)) 128;
  _ ← validate_text "company_id" (sc_company_id (pr_scope r)) 64;
  validate_binding (pr_binding r).
Definition validate_submission (s : ManagedWorkSubmission) : AppResult unit :=
  _ ← ensure (sub_contract_major s =? MANAGED_WORK_CONTRACT_MAJOR)
        (bad_request "Managed Work contract major is not supported.");
  _ ← ensure (dw_contract_major (sub_work s) =? sub_contract_major s)
        (bad_request "Managed Work contract versions do not match.");
  _ ← validate_text "database" (sc_database (dw_scope (sub_work s))) 128;
  _ ← validate_text "company_id" (sc_company_id (dw_scope (sub_work s))) 64;
  validate_binding (po_binding (dw_origin (sub_work s))).
Definition decode_fingerprint (value : string) : AppResult string :=
  decoded ← ok_or (hex_decode value) (bad_request "Managed Work payload fingerprint is not valid hex.");
  _ ← ensure (str_len decoded =? 32) (bad_request "Managed Work payload fingerprint must contain 32 bytes.");
  Ok decoded.
Definition document_limit (o : ManagedDocumentOperation) : Z :=
  match o with OpReportPdf => REPORT_PDF_LIMIT | OpLabelDocument => LABEL_DOCUMENT_LIMIT end.
Definition decoded_document (s : ManagedWorkSubmission) : AppResult string :=
  let document := dw_document (sub_work s) in
  decoded ← ok_or (base64_decode (content_base64 document)) (bad_request "Managed Work document is not valid base64.");
  let limit := document_limit (document_operation document) in
  if is_empty decoded || (limit <? str_len decoded)
  then Err (bad_request ("Managed Work " ++ media_type (document_operation document) ++ " payload exceeds its "
              ++ show_u64 limit ++ "-byte limit."))
  else Ok decoded.

(** ** Managed Work: preflight *)
Inductive ManagedWorkPreflightState : Set := PreflightReady | PreflightBlocked.
Record ManagedWorkPreflightResult := mkPreflightResult {
  pt_contract_major : Z;
  pt_preflight_id : option string;
  pt_state : ManagedWorkPreflightState;
  pt_operation : ManagedDocumentOperation;
  pt_media_type : string;
  pt_device_id : string;
  pt_capability_digest : option string;
  pt_expires_at : option instant;
  pt_idempotency_expires_at : option instant;
  pt_submit_before : option instant;
  pt_error_code : option string;
  pt_message_key : string;
}.
Definition blocked_preflight (r : ManagedWorkPreflightRequest) (error_code : string) : ManagedWorkPreflightResult :=
  mkPreflightResult MANAGED_WORK_CONTRACT_MAJOR None PreflightBlocked (pr_operation r) (media_type (pr_operation r))
    (pr_device_id r) None None None None (Some error_code) ("managed_work." ++ error_code).
Definition random_preflight_id (entropy : option string) : AppResult string :=
  random ← ok_or entropy (internal "randomness_unavailable" "A Managed Work ID could not be created.");
  from_result (ManagedPreflightId_from_str ("mpf_" ++ hex_encode random)).
(** The [Debug] text of a capability. *)
Definition capability_debug (c : DeviceCapability) : string :=
  match c with
  | CapPrint => "Print" | CapWeigh => "Weigh" | CapScan => "Scan" | CapCashDrawer => "CashDrawer" | CapCut => "Cut"
  | CapStatus => "Status"
  end.
Fixpoint insert_text (s : string) (l : list string) : list string :=
  match l with
  | [] => [s]
  | t :: rest => match String.compare s t with Gt => t :: insert_text s rest | _ => s :: l end
  end.
Definition sort_texts (l : list string) : list string := foldr insert_text [] l.
Definition capability_facts (r : ManagedWorkPreflightRequest) (target : ManagedWorkTargetRecord) : Value :=
  let key := tg_dispatch_key target in
  VArray [VNumber MANAGED_WORK_CONTRACT_MAJOR; VString (tg_organization_id target); VString (tg_site_id target);
    VString (tg_agent_id target); VString (tg_device_id target); VString (operation_str (pr_operation r));
    VArray (VString <$> sort_texts (capability_debug <$> tg_capabilities target));
    VObject [("key_id", VString (dk_key_id key)); ("kem", VString "dhkem_x25519_hkdf_sha256");
      ("public_key_base64url", VString (dk_public_key_base64url key))]].
Definition capability_digest (r : ManagedWorkPreflightRequest) (target : ManagedWorkTargetRecord) : AppResult string :=
  bytes ← ok_or (json_to_vec (capability_facts r target)) serialization_error;
  Ok (hex_encode (sha256 bytes)).

Record PreflightCall := mkPreflightCall { pf_admission : AdmissionCall; pf_now : instant; pf_entropy : option string }.
Definition preflight_managed_work (call : PreflightCall) (request : ManagedWorkPreflightRequest)
    : App ManagedWorkPreflightResult :=
  let scope := pr_scope request in
  _ ← returns ensure_enabled;
  _ ← returns dispatch_signer;
  _ ← returns (validate_preflight_request request);
  _ ← returns (ensure (String.eqb (sc_organization_id scope) (mg_organization_id self))
                 (forbidden "Managed Work Organization does not match this Controller."));
  _ ← router_admission (pf_admission call) (sc_agent_id scope);
  target ← repository (managed_work_target (sc_organization_id scope) (sc_site_id scope) (sc_agent_id scope)
                         (pr_device_id request));
  if negb (bool_decide (tg_device_state target = DevOnline)) then mret (blocked_preflight request "device_offline") else
  if negb (bool_decide (CapPrint ∈ tg_capabilities target)) then mret (blocked_preflight request "print_not_supported") else
  let now := trunc_micros (pf_now call) in
  let submit_before := now + PREFLIGHT_TTL in
  let expires_at := now + WORK_TTL in
  let idempotency_expires_at := now + IDEMPOTENCY_TTL in
  preflight_id ← returns (random_preflight_id (pf_entropy call));
  digest ← returns (capability_digest request target);
  _ ← repository (create_managed_work_preflight (mkNewPreflight preflight_id request (dk_key_id (tg_dispatch_key target))
                    digest expires_at idempotency_expires_at submit_before now));
  mret (mkPreflightResult MANAGED_WORK_CONTRACT_MAJOR (Some preflight_id) PreflightReady (pr_operation request)
          (media_type (pr_operation request)) (pr_device_id request) (Some digest) (Some expires_at)
          (Some idempotency_expires_at) (Some submit_before) None "managed_work.ready").

(** ** Managed Work: submission *)
Record ManagedWorkReceipt := mkWorkReceipt { wr_managed_work_id : string; wr_state : ManagedWorkState }.
Definition receipt (w : PersistedManagedWork) : ManagedWorkReceipt := mkWorkReceipt (pw_managed_work_id w) (pw_state w).

Definition to_gateway {A} (r : AppResult A) : GatewayResult A :=
  match r with Ok a => Ok a | Err e => Err (Errors.Unavailable (AppError_to_string e)) end.
(** The closure that builds the protected command of a new admission. *)
Definition build_payload (signer : ManagedDispatchSigner) (prepared : PreparedManagedPayload) (idempotency_key : string)
    (submission : ManagedWorkSubmission) (payload_fingerprint hpke_entropy : string) (nonce_entropy : option string)
    (allocation : ManagedDispatchAllocation) : GatewayResult NewManagedPayload :=
  fingerprint ← managed_work_fingerprint (sub_work submission) (al_work_expires_at allocation);
  _ ← ensure (String.eqb fingerprint payload_fingerprint)
        (InvalidInput "Managed Work Payload Fingerprint does not match its normalized envelope and deadline");
  command ← to_gateway (signer_command signer hpke_entropy allocation idempotency_key submission);
  plaintext ← ok_or (command_to_vec command) (Errors.Unavailable "the command has no canonical form");
  to_gateway (seal prepared nonce_entropy plaintext).

Record SubmitCall := mkSubmitCall {
  su_data_key : option string;
  su_admission : AdmissionCall;
  su_admitted_at : instant;
  su_admit_clock : instant;
  su_hpke : string;
  su_nonce : option string;
  su_publish : PublishCall;
}.
Definition payload_context (managed_work_id idempotency_key payload_fingerprint request_fingerprint : string)
    (submission : ManagedWorkSubmission) : ManagedPayloadContext :=
  mkPayloadContext (sc_organization_id (dw_scope (sub_work submission))) managed_work_id idempotency_key
    (hex_encode payload_fingerprint) (hex_encode request_fingerprint).
(** The submission of work that was not admitted before. *)
Definition submit_new (call : SubmitCall) (signer : ManagedDispatchSigner) (managed_work_id idempotency_key : string)
    (submission : ManagedWorkSubmission) (payload_fingerprint request_fingerprint payload : string)
    : App PersistedManagedWorkDispatch :=
  aad ← returns (ok_or (canonical_to_vec (ManagedPayloadContext_value (payload_context managed_work_id idempotency_key
                   payload_fingerprint request_fingerprint submission))) serialization_error);
  _ ← returns payload_protector;
  prepared ← returns (prepare (su_data_key call) aad);
  admission ← router_admission (su_admission call) (sc_agent_id (dw_scope (sub_work submission)));
  payload_bytes ← returns (ok_or (i64_try_from (str_len payload)) (bad_request "Managed Work payload size is out of range."));
  repository (admit_managed_work
    (mkWorkAdmission admission managed_work_id idempotency_key submission request_fingerprint payload_fingerprint
       payload_bytes (su_admitted_at call))
    (build_payload signer prepared idempotency_key submission payload_fingerprint (su_hpke call) (su_nonce call))
    (su_admit_clock call)).
Definition submit_managed_work (call : SubmitCall) (managed_work_id idempotency_key : string)
    (submission : ManagedWorkSubmission) : App ManagedWorkReceipt :=
  let scope := dw_scope (sub_work submission) in
  _ ← returns ensure_enabled;
  signer ← returns dispatch_signer;
  _ ← returns (validate_submission submission);
  _ ← returns (ensure (String.eqb (sc_organization_id scope) (mg_organization_id self))
                 (forbidden "Managed Work Organization does not match this Controller."));
  payload_fingerprint ← returns (decode_fingerprint (sub_payload_fingerprint submission));
  payload ← returns (decoded_document submission);
  bytes ← returns (ok_or (request_to_vec (sub_work submission) (sub_payload_fingerprint submission)) serialization_error);
  let request_fingerprint := sha256 bytes in
  replayed ← repository (replay_managed_work managed_work_id (sc_organization_id scope) idempotency_key
                           (dw_print_intent_id (sub_work submission)) request_fingerprint);
  dispatch ← match (replayed : option PersistedManagedWorkDispatch) with
             | Some dispatch => mret dispatch
             | None => submit_new call signer managed_work_id idempotency_key submission payload_fingerprint
                         request_fingerprint payload
             end;
  _ ← publish_managed_dispatch (su_publish call) (stored_command <$> pd_command dispatch);
  mret (receipt (pd_managed_work dispatch)).

Record ManagedWorkRecord := mkWorkRecord {
  wk_managed_work_id : string;
  wk_print_intent_id : string;
  wk_scope : ManagedWorkScope;
  wk_device_id : string;
  wk_operation : ManagedDocumentOperation;
  wk_media_type : string;
  wk_state : ManagedWorkState;
  wk_print_job_id : option string;
  wk_print_job_observation : option SignedAgentStateObservation;
  wk_error_code : option string;
  wk_message_key : string;
  wk_admitted_at : instant;
  wk_updated_at : instant;
  wk_expires_at : instant;
}.
Definition read_managed_work (managed_work_id : string) : App ManagedWorkRecord :=
  _ ← returns ensure_enabled;
  p ← repository (find_managed_work managed_work_id);
  mret (mkWorkRecord (pw_managed_work_id p) (pw_print_intent_id p) (pw_scope p) (pw_device_id p) (pw_operation p)
          (media_type (pw_operation p)) (pw_state p) (pw_print_job_id p) (pw_print_job_observation p) (pw_error_code p)
          (pw_message_key p) (pw_admitted_at p) (pw_updated_at p) (pw_expires_at p)).

(** ** The data plane *)
Definition namespace_prefix_key : AppResult string :=
  match key_from_str (trim_end_slashes (mg_namespace_prefix self)) with
  | Ok key => Ok key
  | Err source => Err (bad_request ("Invalid managed namespace prefix: " ++ source))
  end.
Definition keyspace_error {A} (what : string) (r : result string A) : AppResult A :=
  match r with Ok a => Ok a | Err source => Err (bad_request ("Invalid managed " ++ what ++ " key expression: " ++ source)) end.
Definition state_commit_key : AppResult string :=
  prefix ← namespace_prefix_key; keyspace_error "state" (key_join prefix "*/state/commit").
Definition history_query_key : AppResult string :=
  prefix ← namespace_prefix_key;
  keyspace_error "history" (key ← key_join prefix "*"; key ← key_join key "commands"; key_join key "history").
Definition publications_key : AppResult string :=
  prefix ← namespace_prefix_key;
  keyspace_error "publication" (key ← key_join prefix "*"; key_join key "**").

Definition agent_id_from_key (key : string) : option string :=
  rest ← strip_prefix (trim_end_slashes (mg_namespace_prefix self)) key;
  rest ← strip_prefix "/" rest;
  head (split_on "/" rest).
Record CommandHistory := mkCommandHistory { ch_selected_protocol_version : string; ch_commands : list ControllerCommand }.
(** The call that serves the [n]-th command is [calls n]. *)
Fixpoint dispatch_all (calls : nat -> DispatchCall) (commands : list StoredControllerCommand) : App (list ControllerCommand) :=
  match commands with
  | [] => mret []
  | command :: commands =>
      message ← dispatch_message (calls 0%nat) command;
      messages ← dispatch_all (fun n => calls (S n)) commands;
      mret (message :: messages)
  end.
Definition history_for_query_key `{NaiveDate} (calls : nat -> DispatchCall) (key : string) (from_sequence : Z)
    : App (option CommandHistory) :=
  match agent_id_from_key key with
  | None => mret None
  | Some agent_id =>
      history ← repository (command_history agent_id from_sequence);
      commands ← dispatch_all calls (stored_command <$> snd history);
      mret (Some (mkCommandHistory (fst history) commands))
  end.

Record AgentStateReceipt := mkStateReceipt { sr_contract_major : Z; sr_message_id : string; sr_state_envelope_sha256 : string }.
Section Publications.
Context `{Thumbprint, EnvelopeCodec, InventoryCodec}.
Definition record_publication_from_key (key : string) (message : AgentPublication) (now occurred_at : instant) : App unit :=
  match agent_id_from_key key with
  | None => mret tt
  | Some agent_id => repository (record_publication agent_id key message now occurred_at)
  end.
Definition commit_state_publication (key payload : string) (now occurred_at : instant) : App AgentStateReceipt :=
  let commit_key id := trim_end_slashes (mg_namespace_prefix self) ++ "/" ++ id ++ "/state/commit" in
  agent_id ← returns (ok_or (id ← agent_id_from_key key;
                             if String.eqb key (commit_key id) && negb (contains_byte 42 id) then Some id else None)
                        (bad_request "Invalid Agent State commit key."));
  _ ← returns (ensure (str_len payload <=? 131072) (bad_request "Agent State publication exceeds its size limit."));
  message ← returns (ok_or (publication_from_slice payload) serialization_error);
  match message with
  | RuntimeEventPublication message_id _ event _ _ =>
      match fields_get (ev_payload event) "state_envelope" with
      | Some (SText envelope) =>
          _ ← returns (ensure (String.eqb (ev_resource_kind event) "print_job")
                         (bad_request "State commit requires a Print Job observation."));
          _ ← repository (record_publication agent_id key message now occurred_at);
          mret (mkStateReceipt 1 message_id (hex_encode (sha256 envelope)))
      | _ => returns (Err (bad_request "State commit requires a signed observation."))
      end
  | _ => returns (Err (bad_request "State commit requires a Print Job observation."))
  end.
End Publications.

(** ** Session workers

    What one worker of a Zenoh session does with a query or a sample; sending the reply is Zenoh's. *)
Inductive QueryReply (A : Type) : Type :=
| ReplyOk (key : string) (value : A)
| ReplyErr (message : string).
Arguments ReplyOk {A} _ _.
Arguments ReplyErr {A} _.
(** [str::parse::<u64>]. *)
Definition parse_u64 (s : string) : option Z :=
  let digits := match s with String c rest => if byte_is c 43 then rest else s | EmptyString => s end in
  if is_empty digits then None else n ← parse_digits 0 digits; u64_try_from n.
(** [parameter] is the value of a query parameter, if the query has it. *)
Definition from_sequence_of (parameter : string -> option string) : Z :=
  default 1 (text ← match parameter "from_sequence" with Some text => Some text | None => parameter "from" end; parse_u64 text).
Definition answer_history_query `{NaiveDate} (calls : nat -> DispatchCall) (key : string) (parameter : string -> option string)
    : App (QueryReply CommandHistory) :=
  answer ← try_app (history_for_query_key calls key (from_sequence_of parameter));
  mret match (answer : AppResult (option CommandHistory)) with
       | Ok (Some history) => ReplyOk key history
       | Ok None => ReplyErr "unknown managed gateway namespace"
       | Err error => ReplyErr (AppError_to_string error)
       end.
Definition answer_state_query `{Thumbprint, EnvelopeCodec, InventoryCodec} (key : string) (payload : option string)
    (now occurred_at : instant) : App (QueryReply AgentStateReceipt) :=
  answer ← try_app (commit_state_publication key (default "" payload) now occurred_at);
  mret match (answer : AppResult AgentStateReceipt) with
       | Ok receipt => ReplyOk key receipt
       | Err error => ReplyErr (AppError_to_string error)
       end.
Inductive SampleKind : Set := SamplePut | SampleDelete.
Definition handle_sample `{Thumbprint, EnvelopeCodec, InventoryCodec} (kind : SampleKind) (key payload : string)
    (now occurred_at : instant) : App unit :=
  match kind with
  | SampleDelete => mret tt
  | SamplePut =>
      match publication_from_slice payload with
      | Some message => _ ← try_app (record_publication_from_key key message now occurred_at); mret tt
      | None => mret tt
      end
  end.
(** One tick of the payload cleanup. *)
Definition cleanup_tick `{ScanOrder} (now : instant) : App unit :=
  _ ← repository (expire_managed_payloads now); mret tt.

(** ** Retirement *)
Definition retire_agent (call : AdmissionCall) (agent_id : string) (audit : AuditContext) (now occurred_at : instant) : App unit :=
  _ ← returns ensure_enabled;
  _ ← repository (retire_agent_credentials (mg_organization_id self) agent_id audit now occurred_at);
  match mg_router_admission self with
  | None => returns (Err (service_unavailable "Router admission is not configured."))
  | Some controller =>
      _ ← in_database (fun db => fst (reconcile controller (ac_clock call) (ac_others call) (ac_management call) (ac_timed_out call) db));
      mret tt
  end.

(** ** What success rests on *)
Lemma repository_Ok {A} (m : Repo A) w a w' : repository m w = (Ok a, w') ->
  exists db, m (w_database w) = (Ok a, db) /\ w' = w <| w_database := db |>.
Proof.
  unfold repository. destruct (mg_has_repository self); [|done]. unfold in_database.
  destruct (gateway m (w_database w)) as [r db] eqn:E. intros Hr. inversion Hr; subst. exists db. by apply gateway_Ok in E.
Qed.
Lemma router_admission_Ok call agent w ad w' : router_admission call agent w = (Ok ad, w') ->
  admitted (w_database w') ad agent (ac_now call).
Proof.
  unfold router_admission. destruct (mg_router_admission self) as [c|]; [|done]. unfold in_database.
  destruct (admit_agent _ _ _ _ _ _ _ _) as [r db] eqn:E. intros Hr. inversion Hr; subst.
  by apply admit_agent_Ok in E as (db1 & _ & _ & Hin).
Qed.
End Self.
End Gateway.
