(* ===== verification/GatewayConfig.v ===== *)
(** * Configuration of the managed gateway

    [crates/inari-server/src/config/managed_gateway.rs] and [openbao.rs]: the settings, their defaults and the checks a
    server makes before it starts.  [Duration]s are nanoseconds; a [Url] is its text, read by [UrlParts]. *)
From S2P Require Import Prelude Json Errors Identifiers InvitationCode Protocol Schema Security FleetPolicy ServerErrors.
From S2P Require Import AccessControl AdmissionController PayloadProtection DispatchSigner ManagedGateway.

Inductive ManagedGatewayCertificateMode : Set := CertificateNone | CertificateStepCa.
Inductive StepCaSigningAlgorithm : Set := SigEdDsa | SigEs256.
#[global] Instance ManagedGatewayCertificateMode_eq_dec : EqDecision ManagedGatewayCertificateMode.
Proof. solve_decision. Defined.
Record ManagedGatewayCertificateConfig := mkCertificateConfig {
  cf_mode : ManagedGatewayCertificateMode;
  cf_step_ca_base_url : option string;
  cf_step_ca_root_fingerprint : option string;
  cf_step_ca_provisioner : option string;
  cf_step_ca_key_id : option string;
  cf_step_ca_signing_key_file : option string;
  cf_step_ca_signing_algorithm : StepCaSigningAlgorithm;
  cf_step_ca_token_ttl : Z;
  cf_requires_mutual_tls_after_issuance : bool;
}.
Record ManagedGatewayDataPlaneConfig := mkDataPlaneConfig {
  dp_connect_endpoints : list string;
  dp_namespace_prefix : string;
  dp_close_link_on_expiration : bool;
}.
Record ManagedGatewayOnboardingConfig := mkOnboardingConfig {
  on_enabled : bool;
  on_public_base_url : option string;
  on_invite_ttl : Z;
  on_failed_attempt_window : Z;
  on_max_failed_attempts : Z;
}.
Record ManagedGatewayDispatchConfig := mkDispatchConfig {
  di_enabled : bool;
  di_epoch : Z;
  di_signing_key_id : option string;
  di_signing_key_file : option string;
  di_envelope_ttl : Z;
}.
Record ManagedGatewayPayloadProtectionConfig := mkProtectionConfig {
  pt_enabled : bool;
  pt_transit_mount : string;
  pt_transit_key_name : string;
}.
Record ManagedGatewayConfig := mkGatewayConfig {
  gc_enabled : bool;
  gc_controller_name : option string;
  gc_controller_instance_id : string;
  gc_supported_protocol_versions : list string;
  gc_controller_actions : list string;
  gc_onboarding : ManagedGatewayOnboardingConfig;
  gc_data_plane : ManagedGatewayDataPlaneConfig;
  gc_router_policy : RouterPolicyConfig;
  gc_certificate : ManagedGatewayCertificateConfig;
  gc_dispatch : ManagedGatewayDispatchConfig;
  gc_payload_protection : ManagedGatewayPayloadProtectionConfig;
}.

(** ** Defaults *)
Definition ManagedGatewayCertificateConfig_default : ManagedGatewayCertificateConfig :=
  mkCertificateConfig CertificateNone None None None None None SigEdDsa (seconds (5 * 60)) true.
Definition ManagedGatewayDataPlaneConfig_default : ManagedGatewayDataPlaneConfig := mkDataPlaneConfig [] "iot/v1/agents" true.
Definition ManagedGatewayOnboardingConfig_default : ManagedGatewayOnboardingConfig :=
  mkOnboardingConfig false None (seconds (10 * 60)) (seconds 60) 5.
Definition ManagedGatewayDispatchConfig_default : ManagedGatewayDispatchConfig :=
  mkDispatchConfig false 1 None None (seconds (2 * 60)).
Definition ManagedGatewayPayloadProtectionConfig_default : ManagedGatewayPayloadProtectionConfig :=
  mkProtectionConfig false "transit" "inari-managed-payload".
(** [router_policy] has a default of its own in [config/router_policy.rs]. *)
Definition ManagedGatewayConfig_default (router_policy : RouterPolicyConfig) : ManagedGatewayConfig :=
  mkGatewayConfig false (Some "Inari Controller") "inari-server" [ProtocolVersion_current]
    ["system:read"; "devices:read"; "events:read"; "jobs:cancel"; "commands:execute"; "managed_work:dispatch"]
    ManagedGatewayOnboardingConfig_default ManagedGatewayDataPlaneConfig_default router_policy
    ManagedGatewayCertificateConfig_default ManagedGatewayDispatchConfig_default ManagedGatewayPayloadProtectionConfig_default.

(** ** Validation *)
(** [str::parse::<Url>]: the error is not shown. *)
Class UrlParse := url_parse : string -> option string.
Definition is_none_or {A} (o : option A) (p : A -> bool) : bool := match o with None => true | Some a => p a end.
Definition is_some {A} (o : option A) : bool := match o with Some _ => true | None => false end.

Section Validate.
Context `{UrlParts, UrlParse, KeyExpressions}.

Definition plain_https (url : string) : bool :=
  String.eqb (url_scheme url) "https" && is_some (url_host url) && is_empty (url_username url)
  && negb (is_some (url_password url)) && negb (is_some (url_query url)) && negb (is_some (url_fragment url)).
Definition validate_onboarding (o : ManagedGatewayOnboardingConfig) : AppResult unit :=
  text ← ok_or (on_public_base_url o)
           (AppConfig "managed_gateway.onboarding.public_base_url is required when onboarding is enabled.");
  url ← ok_or (url_parse text) (AppConfig "managed_gateway.onboarding.public_base_url is invalid.");
  _ ← ensure (String.eqb (url_scheme url) "http" || String.eqb (url_scheme url) "https")
        (AppConfig "managed_gateway.onboarding.public_base_url must use HTTP or HTTPS.");
  ensure (negb ((on_invite_ttl o =? 0) || (on_failed_attempt_window o =? 0) || (on_max_failed_attempts o =? 0)))
    (AppConfig "Managed onboarding durations and max_failed_attempts must be non-zero.").
Definition validate_certificate (c : ManagedGatewayCertificateConfig) : AppResult unit :=
  _ ← ensure (negb (is_none_or (cf_step_ca_base_url c) (fun url => negb (plain_https url))
         || is_none_or (cf_step_ca_root_fingerprint c) (fun f =>
              negb (str_len f =? 64) || negb (all_bytes is_ascii_hexdigit f))
         || is_none_or (cf_step_ca_provisioner c) is_empty || is_none_or (cf_step_ca_key_id c) is_empty
         || negb (is_some (cf_step_ca_signing_key_file c))))
        (AppConfig "step-ca mode requires an HTTPS base_url without credentials, query, or fragment, a SHA-256 root_fingerprint, provisioner, key_id, and signing_key_file.");
  ensure ((seconds 60 <=? cf_step_ca_token_ttl c) && (cf_step_ca_token_ttl c <=? seconds (60 * 60)))
    (AppConfig "managed_gateway.certificate.step_ca_token_ttl must be between 1 minute and 1 hour.").
Definition validate_dispatch (self : ManagedGatewayConfig) : AppResult unit :=
  let d := gc_dispatch self in
  _ ← ensure (negb (is_none_or (di_signing_key_id d) is_empty || negb (is_some (di_signing_key_file d)) || (di_epoch d =? 0)))
        (AppConfig "managed_gateway.dispatch requires a signing_key_id, signing_key_file, and non-zero epoch.");
  _ ← ensure (List.existsb (fun action => String.eqb action "managed_work:dispatch") (gc_controller_actions self))
        (AppConfig "managed_gateway.dispatch requires the managed_work:dispatch Controller action.");
  _ ← ensure ((seconds 10 <=? di_envelope_ttl d) && (di_envelope_ttl d <=? seconds (5 * 60)))
        (AppConfig "managed_gateway.dispatch.envelope_ttl must be between 10 seconds and 5 minutes.");
  ensure (pt_enabled (gc_payload_protection self))
    (AppConfig "managed_gateway.dispatch requires managed_gateway.payload_protection.").
Definition validate_protection (p : ManagedGatewayPayloadProtectionConfig) : AppResult unit :=
  ensure (valid_openbao_name (pt_transit_mount p) && valid_openbao_name (pt_transit_key_name p))
    (AppConfig "managed_gateway.payload_protection Transit names need 1 to 128 ASCII letters, digits, hyphens, or underscores.").
Definition ManagedGatewayConfig_validate (self : ManagedGatewayConfig) : AppResult unit :=
  if negb (gc_enabled self) then Ok tt else
  _ ← RouterPolicyConfig_validate (gc_router_policy self);
  _ ← ensure (negb (bool_decide (gc_supported_protocol_versions self = [])))
        (AppConfig "managed_gateway.supported_protocol_versions must not be empty.");
  _ ← ensure (negb (bool_decide (dp_connect_endpoints (gc_data_plane self) = [])))
        (AppConfig "managed_gateway.data_plane.connect_endpoints must not be empty.");
  _ ← match key_from_str (dp_namespace_prefix (gc_data_plane self)) with
      | Ok _ => Ok tt
      | Err source => Err (AppConfig ("managed_gateway.data_plane.namespace_prefix is invalid: " ++ source))
      end;
  _ ← (if on_enabled (gc_onboarding self) then validate_onboarding (gc_onboarding self) else Ok tt);
  _ ← (if bool_decide (cf_mode (gc_certificate self) = CertificateStepCa) then validate_certificate (gc_certificate self) else Ok tt);
  _ ← (if di_enabled (gc_dispatch self) then validate_dispatch self else Ok tt);
  if pt_enabled (gc_payload_protection self) then validate_protection (gc_payload_protection self) else Ok tt.

(** ** OpenBao *)
Record OpenBaoConfig := mkOpenBaoConfig {
  ob_address : option string;
  ob_kubernetes_role : option string;
  ob_kubernetes_auth_mount : string;
  ob_service_account_token_file : string;
  ob_namespace : option string;
  ob_ca_certificate_file : option string;
  ob_request_timeout : Z;
}.
Definition OpenBaoConfig_default : OpenBaoConfig :=
  mkOpenBaoConfig None None "kubernetes" "/var/run/secrets/kubernetes.io/serviceaccount/token" None None (seconds 5).
Definition OpenBaoConfig_validate (self : OpenBaoConfig) (required : bool) : AppResult unit :=
  match ob_address self with
  | None => if required then Err (AppConfig "openbao.address is required.") else Ok tt
  | Some address =>
      _ ← ensure (negb (negb (String.eqb (url_scheme address) "https") || negb (is_some (url_host address))
             || negb (String.eqb (url_path address) "/") || is_some (url_query address) || is_some (url_fragment address)
             || negb (is_empty (url_username address)) || is_some (url_password address)))
            (AppConfig "openbao.address must be an HTTPS origin.");
      _ ← ensure (negb (is_none_or (ob_kubernetes_role self) (fun role => negb (valid_openbao_name role))
             || negb (valid_openbao_name (ob_kubernetes_auth_mount self))))
            (AppConfig "openbao role and authentication mount need 1 to 128 ASCII letters, digits, hyphens, or underscores.");
      ensure (negb (is_empty (ob_service_account_token_file self) || (ob_request_timeout self =? 0)))
        (AppConfig "openbao requires an identity token file and a non-zero request timeout.")
  end.
End Validate.

(** ** The dispatch signer *)
(** [ed25519_dalek]: a signing key from PKCS#8, as PEM text or as DER. *)
Class Pkcs8 := { from_pkcs8_pem : string -> option string; from_pkcs8_der : string -> option string }.
(** [std::str::from_utf8]. *)
Class Utf8 := from_utf8 : string -> option string.
Definition ManagedDispatchSigner_load `{Encoding, Ed25519Signing, Pkcs8, Utf8} (config : ManagedGatewayDispatchConfig)
    (controller_instance_id : string) (key_file : string -> option string) : AppResult ManagedDispatchSigner :=
  key_id ← ok_or (value ← di_signing_key_id config; if is_empty value then None else Some value)
             (internal "managed_dispatch_configuration" "The managed dispatch signing key ID is not configured.");
  key_path ← ok_or (di_signing_key_file config)
               (internal "managed_dispatch_configuration" "The managed dispatch signing key file is not configured.");
  key_bytes ← ok_or (key_file key_path) (internal "managed_dispatch_signing_key" "The managed dispatch signing key could not be read.");
  signing_key ← ok_or (match (pem ← from_utf8 key_bytes; from_pkcs8_pem pem) with
                       | Some key => Some key
                       | None => from_pkcs8_der key_bytes
                       end)
                  (internal "managed_dispatch_signing_key" "The managed dispatch Ed25519 signing key is invalid.");
  let public_key := base64url_encode (ed25519_verifying_key signing_key) in
  let verification_jwk := mkJwk (Some key_id) (Some AlgEdDSA) (Some UseSignature) false (OctetKeyPair CrvEd25519 public_key) in
  Ok (mkDispatchSigner controller_instance_id key_id (di_epoch config) (di_envelope_ttl config) signing_key verification_jwk).
