(* ===== verification/EnrollmentService.v ===== *)
(** * Enrolling an Agent

    [crates/inari-server/src/managed_gateway/] [enrollment.rs], [certificate.rs] and [fleet.rs], and the wire types of
    [crates/inari-gateway/src/protocol/enrollment.rs] and [src/certificate.rs]: the enrollment request from its checks to
    the response, the step-ca token that lets the Agent obtain its certificate, and the fleet queries of the service. *)
From S2P Require Import Prelude Json Errors Identifiers InvitationCode Protocol Schema RouterPolicy Commands Security Samples.
From S2P Require Import AuditLog Inventory Onboarding Enrollment Publications Fleet FleetPolicy ServerErrors AdmissionController.
From S2P Require Import DispatchSigner PayloadProtection ManagedGateway GatewayConfig.

(** ** Wire types *)
Record EnrollmentRequest := mkEnrollmentRequest {
  eq_protocol : ProtocolDescriptor;
  eq_agent_id : string;
  eq_key_id : string;
  eq_public_jwk : Jwk;
  eq_dispatch_key : DispatchEncryptionKey;
  eq_state_signing_jwk : Jwk;
  eq_csr_pem : string;
  eq_snapshot : GatewaySnapshot;
}.
Inductive CertificateBootstrapAuthKind : Set := AuthOtt.
Record CertificateBootstrapAuth := mkBootstrapAuth {
  ba_kind : CertificateBootstrapAuthKind; ba_token : option string; ba_expires_at : option instant }.
Record CertificateTrust := mkCertificateTrust { tr_root_fingerprint : option string }.
Record StepCaEnrollment := mkStepCaEnrollment {
  se_base_url : string;
  se_trust : CertificateTrust;
  se_bootstrap_auth : option CertificateBootstrapAuth;
  se_subject : option string;
  se_authorized_sans : list string;
  se_requires_mutual_tls_after_issuance : bool;
}.
Inductive CertificateProvisioning : Type := StepCa (enrollment : StepCaEnrollment).
Record ControllerInfo := mkControllerInfo { ci_name : option string; ci_instance_id : string }.
Record EnrollmentPermissions := mkEnrollmentPermissions { ep_controller_actions : list string }.
Inductive DataPlaneKind : Set := PlaneZenoh.
Inductive SessionMode : Set := ModeClient.
Inductive WireSerialization : Set := WireJson.
Inductive DataPlaneAuthKind : Set := AuthMtls.
Record DataPlaneAuth := mkDataPlaneAuth { da_kind : DataPlaneAuthKind }.
Record DataPlaneTls := mkDataPlaneTls { dt_close_link_on_expiration : bool }.
Record DataPlane := mkDataPlane {
  dl_kind : DataPlaneKind;
  dl_session_mode : SessionMode;
  dl_connect_endpoints : list string;
  dl_namespace : string;
  dl_serialization : WireSerialization;
  dl_auth : DataPlaneAuth;
  dl_tls : DataPlaneTls;
}.
Record EnrollmentResponse := mkEnrollmentResponse {
  es_selected_protocol_version : string;
  es_controller : ControllerInfo;
  es_permissions : EnrollmentPermissions;
  es_data_plane : DataPlane;
  es_certificate : option CertificateProvisioning;
  es_managed_dispatch : option ManagedDispatchEnrollment;
  es_enrolled_at : instant;
}.

(** ** Certificate tokens *)
Record CertificateRequest := mkCertificateRequest {
  cq_agent_id : string; cq_authorized_sans : list string; cq_csr_fingerprint : string }.
Inductive JwtAlgorithm : Set := JwtEdDSA | JwtES256.
(** [jsonwebtoken]: keys from PEM, and a token for a header with [alg], [kid] and [typ] and for claims, given as JSON. *)
Class Jwt := {
  EncodingKey : Type;
  from_ed_pem : string -> option EncodingKey;
  from_ec_pem : string -> option EncodingKey;
  jwt_encode : JwtAlgorithm -> string -> string -> Value -> EncodingKey -> result string string;
}.
(** [url::Url]: [set_path] and [join]. *)
Class UrlEdit := { url_set_path : string -> string -> string; url_join : string -> string -> option string }.

Section Certificates.
Context `{Encoding, Jwt, UrlParts, UrlEdit}.

Record StepCaIssuer := mkStepCaIssuer {
  sci_audience : string;
  sci_provisioner : string;
  sci_key_id : string;
  sci_algorithm : JwtAlgorithm;
  sci_signing_key : EncodingKey;
  sci_token_ttl : Z;
}.
Fixpoint ends_with_slash (s : string) : bool :=
  match s with
  | EmptyString => false
  | String c EmptyString => byte_is c 47
  | String _ rest => ends_with_slash rest
  end.
Definition signing_audience (base_url : string) : AppResult string :=
  let base_url := if ends_with_slash (url_path base_url) then base_url
                  else url_set_path base_url (url_path base_url ++ "/") in
  ok_or (url_join base_url "sign") (internal "step_ca_configuration" "step-ca signing URL is invalid.").
Definition required (value : option string) (label : string) : AppResult string :=
  match trim <$> value with
  | Some value => if is_empty value then Err (internal "step_ca_configuration" (label ++ " is not configured.")) else Ok value
  | None => Err (internal "step_ca_configuration" (label ++ " is not configured."))
  end.
(** [key_file] is what reading the signing key file gives. *)
Definition StepCaIssuer_load (config : ManagedGatewayCertificateConfig) (key_file : string -> option string) : AppResult StepCaIssuer :=
  base_url ← ok_or (cf_step_ca_base_url config) (internal "step_ca_configuration" "step-ca base URL is not configured.");
  audience ← signing_audience base_url;
  provisioner ← required (cf_step_ca_provisioner config) "step-ca provisioner";
  key_id ← required (cf_step_ca_key_id config) "step-ca key ID";
  key_path ← ok_or (cf_step_ca_signing_key_file config)
               (internal "step_ca_configuration" "step-ca provisioner signing key is not configured.");
  key ← ok_or (key_file key_path) (internal "step_ca_signing_key" "The step-ca provisioner signing key could not be read.");
  '(algorithm, signing_key) ← match cf_step_ca_signing_algorithm config with
    | SigEdDsa => key ← ok_or (from_ed_pem key) (internal "step_ca_signing_key" "The step-ca Ed25519 signing key is invalid.");
                  Ok (JwtEdDSA, key)
    | SigEs256 => key ← ok_or (from_ec_pem key) (internal "step_ca_signing_key" "The step-ca P-256 signing key is invalid.");
                  Ok (JwtES256, key)
    end;
  Ok (mkStepCaIssuer audience provisioner key_id algorithm signing_key (cf_step_ca_token_ttl config)).

Definition StepCaClaims (self : StepCaIssuer) (request : CertificateRequest) (issued_at : instant) (jwt_id : string) : Value :=
  VObject [("iss", VString (sci_provisioner self)); ("sub", VString (cq_agent_id request)); ("aud", VString (sci_audience self));
    ("exp", VNumber (timestamp (issued_at + sci_token_ttl self))); ("nbf", VNumber (timestamp issued_at));
    ("iat", VNumber (timestamp issued_at)); ("jti", VString jwt_id);
    ("sans", VArray (VString <$> cq_authorized_sans request));
    ("cnf", VObject [("x5rt#S256", VString (cq_csr_fingerprint request))])].
(** [entropy] is what the operating system gives, or its error. *)
Definition issue (self : StepCaIssuer) (issued_at : instant) (entropy : result string string) (request : CertificateRequest)
    : GatewayResult CertificateBootstrapAuth :=
  _ ← ensure (time_delta_ok (sci_token_ttl self)) (InvalidInput "step-ca token TTL is invalid");
  random ← match entropy with Ok bytes => Ok bytes | Err error => Err (Errors.Unavailable ("token entropy failed: " ++ error)) end;
  token ← match jwt_encode (sci_algorithm self) (sci_key_id self) "JWT"
                  (StepCaClaims self request issued_at (hex_encode random)) (sci_signing_key self) with
          | Ok token => Ok token
          | Err error => Err (Errors.Unavailable ("step-ca token signing failed: " ++ error))
          end;
  Ok (mkBootstrapAuth AuthOtt (Some token) (Some (issued_at + sci_token_ttl self))).
End Certificates.

(** ** The service *)
(** [CertificateIssuer]. *)
Definition CertificateIssuer : Type := CertificateRequest -> GatewayResult CertificateBootstrapAuth.
(** What [ManagedGatewayController::new] is given. *)
Record ManagedGatewayService := mkService {
  sv_config : ManagedGatewayConfig;
  sv_organization_id : string;
  sv_default_site_id : string;
  sv_has_repository : bool;
  sv_certificate_issuer : option CertificateIssuer;
  sv_security : option ManagedDispatchSigner;
  sv_router_admission : option Controller;
}.
Definition ManagedGatewayController_new (s : ManagedGatewayService) : ManagedGatewayController :=
  mkGateway (gc_enabled (sv_config s)) (sv_has_repository s) (gc_controller_actions (sv_config s))
    (dp_namespace_prefix (gc_data_plane (sv_config s))) (sv_organization_id s) (sv_security s) (sv_router_admission s).

Section Enroll.
Context `{Encoding, Sha256, Ed25519, Ed25519Signing, HexDecode, Rfc3339Auto, Canonicalizer, PolicyJson, Collation}.
Context `{Thumbprint, X509, InventoryCodec, FactsCodec, ChronoRange, KeyExpressions}.
Context (self : ManagedGatewayService).
Notation config := (sv_config self).
Notation gateway_self := (ManagedGatewayController_new self).

Definition invitation_code (bearer_token : option string) : AppResult InvitationCode :=
  token ← ok_or bearer_token (forbidden "Enrollment requires an invitation credential.");
  _ ← ensure (on_enabled (gc_onboarding config))
        (service_unavailable "Invitation enrollment is not enabled on this controller.");
  from_result (InvitationCode_from_str token).
Definition select_protocol_version (request : EnrollmentRequest) : AppResult string :=
  ok_or (List.find (fun version => bool_decide (version ∈ pd_supported_versions (eq_protocol request)))
           (gc_supported_protocol_versions config))
    (bad_request "Agent does not support any configured gateway protocol version.").
Definition data_plane_connect_endpoints : AppResult (list string) :=
  if bool_decide (dp_connect_endpoints (gc_data_plane config) = [])
  then Err (service_unavailable "Managed gateway data-plane connect endpoints are not configured.")
  else Ok (dp_connect_endpoints (gc_data_plane config)).
Definition namespace_for_agent (agent_id : string) : AppResult string :=
  prefix ← match key_from_str (trim_end_slashes (dp_namespace_prefix (gc_data_plane config))) with
           | Ok key => Ok key
           | Err source => Err (bad_request ("Invalid namespace prefix: " ++ source))
           end;
  match key_join prefix agent_id with
  | Ok key => Ok key
  | Err source => Err (bad_request ("Invalid agent namespace: " ++ source))
  end.
Definition certificate_payload (agent_id csr_fingerprint : string) : GatewayResult (option CertificateProvisioning) :=
  let certificate := gc_certificate config in
  match cf_mode certificate with
  | CertificateNone => Ok None
  | CertificateStepCa =>
      base_url ← ok_or (cf_step_ca_base_url certificate) (Errors.Unavailable "step-ca base URL is not configured.");
      let authorized_sans := ["urn:inari:" ++ agent_id] in
      issuer ← ok_or (sv_certificate_issuer self) (Errors.Unavailable "step-ca token issuer is unavailable.");
      bootstrap_auth ← issuer (mkCertificateRequest agent_id authorized_sans csr_fingerprint);
      Ok (Some (StepCa (mkStepCaEnrollment base_url (mkCertificateTrust (cf_step_ca_root_fingerprint certificate))
                          (Some bootstrap_auth) (Some agent_id) authorized_sans
                          (cf_requires_mutual_tls_after_issuance certificate))))
  end.
Definition enrollment_record (request : EnrollmentRequest) (identity : ValidatedIdentity) (version namespace : string)
    : AgentEnrollmentRecord :=
  mkEnrollment (eq_agent_id request) (sv_organization_id self) (sv_default_site_id self) (eq_key_id request)
    (vi_jwk_thumbprint identity) (eq_public_jwk request) (eq_dispatch_key request) (eq_state_signing_jwk request)
    namespace version (gc_controller_actions config) (vi_csr_fingerprint identity).

Record EnrollCall := mkEnrollCall { ea_clock : EnrollClock; ea_admission : AdmissionCall }.
Definition enroll (call : EnrollCall) (bearer_token : option string) (request : EnrollmentRequest) : App EnrollmentResponse :=
  _ ← returns (ensure_enabled gateway_self);
  _ ← returns (ensure (negb (is_empty (trim (eq_key_id request)))) (bad_request "Enrollment key_id is required."));
  identity ← returns (from_result (validate_identity (eq_agent_id request) (eq_key_id request) (eq_public_jwk request)
                                     (eq_csr_pem request)));
  _ ← returns (from_result (validate_dispatch_key (eq_dispatch_key request)));
  _ ← returns (from_result (validate_state_signing_key (eq_state_signing_jwk request) (vi_public_key identity)));
  selected_protocol_version ← returns (select_protocol_version request);
  namespace ← returns (namespace_for_agent (eq_agent_id request));
  connect_endpoints ← returns data_plane_connect_endpoints;
  code ← returns (invitation_code bearer_token);
  prepared ← repository gateway_self (enroll_agent code
    (enrollment_record request identity selected_protocol_version namespace) (eq_snapshot request)
    (mkAttemptLimit (on_failed_attempt_window (gc_onboarding config)) (on_max_failed_attempts (gc_onboarding config)))
    (certificate_payload (eq_agent_id request) (vi_csr_fingerprint identity)) (ea_clock call));
  _ ← router_admission gateway_self (ea_admission call) (eq_agent_id request);
  mret (mkEnrollmentResponse selected_protocol_version
    (mkControllerInfo (gc_controller_name config) (gc_controller_instance_id config))
    (mkEnrollmentPermissions (gc_controller_actions config))
    (mkDataPlane PlaneZenoh ModeClient connect_endpoints namespace WireJson (mkDataPlaneAuth AuthMtls)
       (mkDataPlaneTls (dp_close_link_on_expiration (gc_data_plane config))))
    (pe_value prepared)
    ((fun signer => enrollment signer (mkAgentManagedScope (sv_organization_id self) (sv_default_site_id self) (eq_agent_id request)))
       <$> sv_security self)
    (pe_enrolled_at prepared)).
End Enroll.

(** ** Fleet queries *)
Record AgentStatus := mkAgentStatus {
  at_agent_id : string; at_message_id : string; at_received_at : instant; at_snapshot : GatewaySnapshot }.
Record AgentDetail := mkAgentDetail { ad_summary : AgentSummary; ad_latest_status : option AgentStatus }.
Section FleetService.
Context `{Collation}.
Context (self : ManagedGatewayService).
Notation gateway_self := (ManagedGatewayController_new self).

Definition service_workload_inventory (scope : OrganizationWorkloadScope) (observed_at : instant) : App WorkloadInventory :=
  _ ← returns (ensure_enabled gateway_self);
  _ ← returns (ensure (String.eqb (ws_organization_id scope) (sv_organization_id self))
                 (forbidden "The Organization Workload Identity belongs to another Controller Organization."));
  repository gateway_self (workload_inventory scope observed_at).
Definition service_sites : App (list SiteSummary) :=
  _ ← returns (ensure_enabled gateway_self);
  repository gateway_self (fleet_sites (sv_organization_id self)).
Definition service_agents (site_id : option string) (now : instant) : App (list AgentSummary) :=
  _ ← returns (ensure_enabled gateway_self);
  repository gateway_self (fleet_agents (sv_organization_id self) site_id now).
Definition store_latest_status (agent_id : string) : App (option AgentStatus) :=
  status ← repository gateway_self (latest_status agent_id);
  mret ((fun s => mkAgentStatus agent_id (ps_message_id s) (ps_received_at s) (ps_snapshot s)) <$> status).
Definition service_agent (agent_id : string) (now : instant) : App AgentDetail :=
  all ← service_agents None now;
  summary ← returns (ok_or (List.find (fun a => String.eqb (Fleet.as_agent_id a) agent_id) all) (not_found "Agent was not found."));
  status ← store_latest_status agent_id;
  mret (mkAgentDetail summary status).
Definition service_devices (agent_id : string) : App (list DeviceSummary) :=
  _ ← returns (ensure_enabled gateway_self);
  repository gateway_self (fleet_devices agent_id).
Definition service_audit_events (before : option Z) (limit : Z) : App (list AuditEvent) :=
  _ ← returns (ensure_enabled gateway_self);
  repository gateway_self (audit_events_page (sv_organization_id self) before limit).
Definition service_record_audit_event (occurred_at : instant) (draft : AuditEventDraft) : App unit :=
  _ ← returns (ensure_enabled gateway_self);
  repository gateway_self (record_audit_event occurred_at draft).
Definition service_publications (agent_id : string) : App (list PersistedPublication) :=
  _ ← returns (ensure_enabled gateway_self);
  repository gateway_self (list_publications agent_id).
Definition service_agent_status (agent_id : string) : App AgentStatus :=
  _ ← returns (ensure_enabled gateway_self);
  status ← store_latest_status agent_id;
  returns (ok_or status (not_found "No status has been observed for this agent.")).
End FleetService.

(** ** What a response promises *)
Lemma find_first {A} (p : A -> bool) l x : List.find p l = Some x ->
  exists before after, l = (before ++ x :: after)%list /\ p x = true /\ Forall (fun y => p y = false) before.
Proof.
  induction l as [|y l IH]; simpl; [done|]. destruct (p y) eqn:E.
  - intros [= ->]. by exists [], l.
  - intros (before & after & -> & Hx & Hb)%IH. exists (y :: before), after. split_and!; [done|done|by constructor].
Qed.
Lemma from_result_Ok {A} (r : GatewayResult A) a : from_result r = Ok a -> r = Ok a.
Proof. destruct r; simpl; [|done]. by intros [= ->]. Qed.
Section Promise.
Context `{Encoding, Sha256, Ed25519, Ed25519Signing, HexDecode, Rfc3339Auto, Canonicalizer, PolicyJson, Collation}.
Context `{Thumbprint, X509, InventoryCodec, FactsCodec, ChronoRange, KeyExpressions}.
Context (self : ManagedGatewayService).
Notation config := (sv_config self).

(** C11: an enrollment response is backed.  A successful enrollment presented an unexpired invitation of the Controller's
    Organization with its secret, and a key whose possession the certificate request proves.  The response selects the
    Controller's most preferred protocol version that the Agent supports, and a namespace under the configured prefix;
    its certificate token, if the mode asks for one, was issued for this Agent, its one name and this very certificate
    request; and when the response is sent every Router has acknowledged the Agent. *)
Theorem enrollment_response_is_backed call bearer_token request w response w' :
  enroll self call bearer_token request w = (Ok response, w') ->
  exists token code i identity prefix admission,
    bearer_token = Some token /\ InvitationCode_from_str token = Ok code /\
    invitations (w_database w) !! ic_id code = Some i /\ iv_secret_digest i = secret_digest code /\
    iv_organization_id i = sv_organization_id self /\ trunc_micros (ck_now (ea_clock call)) < iv_expires_at i /\
    validate_identity (eq_agent_id request) (eq_key_id request) (eq_public_jwk request) (eq_csr_pem request) = Ok identity /\
    (exists before after, gc_supported_protocol_versions config = (before ++ es_selected_protocol_version response :: after)%list /\
       es_selected_protocol_version response ∈ pd_supported_versions (eq_protocol request) /\
       Forall (fun v => v ∉ pd_supported_versions (eq_protocol request)) before) /\
    key_from_str (trim_end_slashes (dp_namespace_prefix (gc_data_plane config))) = Ok prefix /\
    key_join prefix (eq_agent_id request) = Ok (dl_namespace (es_data_plane response)) /\
    dl_connect_endpoints (es_data_plane response) <> [] /\
    match cf_mode (gc_certificate config) with
    | CertificateNone => es_certificate response = None
    | CertificateStepCa => exists issuer auth enrollment, sv_certificate_issuer self = Some issuer /\
        issuer (mkCertificateRequest (eq_agent_id request) ["urn:inari:" ++ eq_agent_id request] (vi_csr_fingerprint identity)) = Ok auth /\
        es_certificate response = Some (StepCa enrollment) /\ se_bootstrap_auth enrollment = Some auth /\
        se_subject enrollment = Some (eq_agent_id request) /\
        se_authorized_sans enrollment = ["urn:inari:" ++ eq_agent_id request]
    end /\
    admitted (w_database w') admission (eq_agent_id request) (ac_now (ea_admission call)).
Proof.
  unfold enroll. intros Hrun.
  apply repo_bind_Ok in Hrun as (u1 & w1 & [_ ->]%returns_Ok & Hrun).
  apply repo_bind_Ok in Hrun as (u2 & w2 & [_ ->]%returns_Ok & Hrun).
  apply repo_bind_Ok in Hrun as (identity & w3 & [Hid%from_result_Ok ->]%returns_Ok & Hrun).
  apply repo_bind_Ok in Hrun as (u3 & w4 & [_ ->]%returns_Ok & Hrun).
  apply repo_bind_Ok in Hrun as (u4 & w5 & [_ ->]%returns_Ok & Hrun).
  apply repo_bind_Ok in Hrun as (version & w6 & [Hver%ok_or_Ok ->]%returns_Ok & Hrun).
  apply repo_bind_Ok in Hrun as (namespace & w7 & [Hns ->]%returns_Ok & Hrun).
  apply repo_bind_Ok in Hrun as (endpoints & w8 & [Hend ->]%returns_Ok & Hrun).
  apply repo_bind_Ok in Hrun as (code & w9 & [Hcode ->]%returns_Ok & Hrun).
  apply repo_bind_Ok in Hrun as (prepared & w10 & (db & Henr & ->)%repository_Ok & Hrun).
  apply repo_bind_Ok in Hrun as (ad & w11 & Hadm%router_admission_Ok & Hret). inversion Hret; subst. clear Hret. simpl.
  unfold invitation_code in Hcode. apply bind_Ok in Hcode as (token & Htok%ok_or_Ok & Hcode).
  apply bind_Ok in Hcode as (u5 & _ & Hcode%from_result_Ok).
  apply enroll_agent_run in Henr as [(reply & <- & Hin)|(err & ? & _)]; [|done].
  apply enroll_in_Ok in Hin as (i & Hi & _ & [(_ & ? & _)|(Hsec & Hexp & Horg & _ & fp & value & _ & Hprep & Hcase)]); [done|].
  assert (pe_value prepared = value) as ->.
  { destruct Hcase as [(_ & E & _)|(_ & _ & _ & t & E & _)]; by inversion E; subst. }
  unfold namespace_for_agent in Hns. apply bind_Ok in Hns as (prefix & Hprefix & Hns).
  destruct (key_from_str _) as [k|] eqn:Ek; [|done]. apply Ok_inj in Hprefix as ->.
  destruct (key_join _ _) as [ns|] eqn:Ej; [|done]. apply Ok_inj in Hns as ->.
  exists token, code, i, identity, prefix, ad. split_and!; try done.
  - apply find_first in Hver as (before & after & E & Hx & Hb). exists before, after. split_and!; [done|by apply bool_decide_eq_true in Hx|].
    eapply List.Forall_impl; [|exact Hb]. intros v Hv. by apply bool_decide_eq_false in Hv.
  - unfold data_plane_connect_endpoints in Hend. case_bool_decide; [done|]. by apply Ok_inj in Hend as <-.
  - unfold certificate_payload in Hprep. destruct (cf_mode _); [by apply Ok_inj in Hprep as <-|].
    apply bind_Ok in Hprep as (url & _ & Hprep). apply bind_Ok in Hprep as (issuer & Hiss%ok_or_Ok & Hprep).
    apply bind_Ok in Hprep as (auth & Hauth & Hprep). apply Ok_inj in Hprep as <-. eexists issuer, auth, _. split_and!; done.
Qed.
End Promise.

(** ** What a validated configuration guarantees *)
Section Validated.
Context `{Encoding, Jwt, UrlParts, UrlEdit, UrlParse, KeyExpressions}.
Context (service : ManagedGatewayService).
Notation config := (sv_config service).

Lemma validated_parts : ManagedGatewayConfig_validate config = Ok tt -> gc_enabled config = true ->
  gc_supported_protocol_versions config <> [] /\ dp_connect_endpoints (gc_data_plane config) <> [] /\
  (cf_mode (gc_certificate config) = CertificateStepCa -> validate_certificate (gc_certificate config) = Ok tt) /\
  (di_enabled (gc_dispatch config) = true -> validate_dispatch config = Ok tt) /\
  (pt_enabled (gc_payload_protection config) = true -> validate_protection (gc_payload_protection config) = Ok tt).
Proof.
  unfold ManagedGatewayConfig_validate. intros Hv He. rewrite He in Hv. cbn [negb] in Hv.
  apply bind_Ok in Hv as (u1 & _ & Hv). apply bind_Ok in Hv as (u2 & Hver%ensure_Ok & Hv).
  apply bind_Ok in Hv as (u3 & Hend%ensure_Ok & Hv). apply bind_Ok in Hv as (u4 & _ & Hv).
  apply bind_Ok in Hv as (u5 & _ & Hv). apply bind_Ok in Hv as (u6 & Hcert & Hv).
  apply bind_Ok in Hv as (u7 & Hdis & Hv). bools. destruct u6, u7.
  split_and!; [done|done| | |].
  - intros E. by rewrite bool_decide_true in Hcert.
  - intros E. by rewrite E in Hdis.
  - intros E. by rewrite E in Hv.
Qed.
Lemma timestamp_span t d a b : a * 1000000000 <= d <= b * 1000000000 -> a <= timestamp (t + d) - timestamp t <= b.
Proof.
  intros [Ha Hb]. unfold timestamp.
  pose proof (Z.div_mod t 1000000000 ltac:(lia)). pose proof (Z.mod_pos_bound t 1000000000 ltac:(lia)).
  pose proof (Z.div_mod (t + d) 1000000000 ltac:(lia)). pose proof (Z.mod_pos_bound (t + d) 1000000000 ltac:(lia)). lia.
Qed.

(** Certificate tokens are short-lived and bound to one certificate request.  Under a validated configuration in
    step-ca mode, an issuer loaded from it signs, for every request and at any time, claims that name the configured
    provisioner, the CA's signing endpoint, the Agent, its names and the fingerprint of its certificate request, valid
    from now for between a minute and an hour. *)
Theorem certificate_tokens_are_short_lived key_file issuer now entropy request auth :
  ManagedGatewayConfig_validate config = Ok tt -> gc_enabled config = true ->
  cf_mode (gc_certificate config) = CertificateStepCa ->
  StepCaIssuer_load (gc_certificate config) key_file = Ok issuer -> issue issuer now entropy request = Ok auth ->
  exists token random iat exp audience provisioner, entropy = Ok random /\ ba_token auth = Some token /\
    ba_expires_at auth = Some (now + cf_step_ca_token_ttl (gc_certificate config)) /\
    jwt_encode (sci_algorithm issuer) (sci_key_id issuer) "JWT"
      (VObject [("iss", VString provisioner); ("sub", VString (cq_agent_id request)); ("aud", VString audience);
         ("exp", VNumber exp); ("nbf", VNumber iat); ("iat", VNumber iat); ("jti", VString (hex_encode random));
         ("sans", VArray (VString <$> cq_authorized_sans request));
         ("cnf", VObject [("x5rt#S256", VString (cq_csr_fingerprint request))])]) (sci_signing_key issuer) = Ok token /\
    trim <$> cf_step_ca_provisioner (gc_certificate config) = Some provisioner /\
    signing_audience <$> cf_step_ca_base_url (gc_certificate config) = Some (Ok audience) /\
    iat = timestamp now /\ 60 <= exp - iat <= 3600.
Proof.
  intros Hv He Hm Hload Hissue. destruct (validated_parts Hv He) as (_ & _ & Hcert & _). specialize (Hcert Hm).
  unfold validate_certificate in Hcert. apply bind_Ok in Hcert as (u & _ & Httl%ensure_Ok). bools.
  unfold StepCaIssuer_load in Hload. apply bind_Ok in Hload as (url & Hurl%ok_or_Ok & Hload).
  apply bind_Ok in Hload as (aud & Haud & Hload). apply bind_Ok in Hload as (prov & Hprov & Hload).
  apply bind_Ok in Hload as (kid & _ & Hload). apply bind_Ok in Hload as (path & _ & Hload).
  apply bind_Ok in Hload as (key & _ & Hload). apply bind_Ok in Hload as ([alg sk] & _ & Hload). apply Ok_inj in Hload as <-.
  unfold issue in Hissue. apply bind_Ok in Hissue as (u1 & _ & Hissue).
  apply bind_Ok in Hissue as (random & Hr & Hissue). destruct entropy as [bytes|]; [|done]. apply Ok_inj in Hr as ->.
  apply bind_Ok in Hissue as (token & Ht & Hissue). destruct (jwt_encode _ _ _ _ _) as [tok|] eqn:Ej; [|done].
  apply Ok_inj in Ht as ->. apply Ok_inj in Hissue as <-.
  exists token, random, (timestamp now), (timestamp (now + cf_step_ca_token_ttl (gc_certificate config))), aud, prov.
  rewrite Hurl. simpl. rewrite Haud. unfold required in Hprov.
  destruct (trim <$> cf_step_ca_provisioner (gc_certificate config)) as [v|]; [|done].
  destruct (is_empty v); [done|]. apply Ok_inj in Hprov as ->.
  pose proof (timestamp_span now (cf_step_ca_token_ttl (gc_certificate config)) 60 3600 ltac:(unfold seconds in *; lia)).
  split_and!; try done; lia.
Qed.
End Validated.
