(* ===== verification/GatewayLife.v ===== *)
(** * The managed gateway service over time

    What a submission and its dispatch change are repository steps, whoever else writes to the database meanwhile, so a
    submitted document reaches the Agent it was submitted for; and stored work is read back as it is. *)
From stdpp Require Import relations.
From S2P Require Import Prelude Json Errors Identifiers InvitationCode Protocol Schema Samples AuditLog.
From S2P Require Import RouterPolicy Commands Security Observations Inventory Keys Onboarding Enrollment.
From S2P Require Import Publications Retirement ManagedWork Dispatch AuthorityVersion System.
From S2P Require Import FleetPolicy Supervisor ServerErrors AdmissionController.
From S2P Require Import PayloadProtection DispatchSigner ManagedGateway GatewayConfig EnrollmentService Fleet.

(** ** A protected payload is written once *)
Definition sealed_once (db db' : Database) : Prop := forall k, is_Some (managed_work db !! k) ->
  is_Some (managed_work db' !! k) /\ forall p, managed_payloads db' !! k = Some p -> managed_payloads db !! k = Some p.
#[global] Instance sealed_once_PreOrder : PreOrder sealed_once.
Proof.
  split; [by intros db k Hk|]. intros d1 d2 d3 H12 H23 k Hk. destruct (H12 k Hk) as [Hk2 P12].
  destruct (H23 k Hk2) as [Hk3 P23]. split; [done|auto].
Qed.
#[global] Instance sealed_once_footprint : Footprint (fun db => (managed_work db, managed_payloads db)) sealed_once.
Proof. intros db db' [= E1 E2] k Hk. by rewrite E1, E2. Qed.
#[local] Hint Extern 7 (Steps sealed_once _) =>
  solve [apply (frame_steps (fun db => (managed_work db, managed_payloads db))); [typeclasses eauto|frame]] : steps.
Lemma delete_payload_sealed id : Steps sealed_once (delete_managed_payload id).
Proof.
  unfold delete_managed_payload. intros db u db' [-> ->]%modify_Ok k Hk. split; [done|]. simpl.
  by intros p [_ ?]%lookup_delete_Some.
Qed.
Lemma update_work_sealed id f : Steps sealed_once (update_managed_work id f).
Proof.
  intros db u db' (w & Hw & ->)%update_managed_work_Ok k Hk. split; [|done]. simpl.
  destruct (decide (id = k)) as [->|]; [rewrite lookup_insert_eq; eauto|by rewrite lookup_insert_ne].
Qed.
#[local] Hint Resolve delete_payload_sealed update_work_sealed : steps.
Lemma admit_new_sealed `{Encoding, Sha256} m build : Steps sealed_once (admit_new m build).
Proof.
  intros db r db' Hrun k Hk. apply admit_new_Ok in Hrun as (pf & ag & dv & key & row & payload & version & cmd & db1 &
    _ & _ & _ & _ & _ & _ & _ & _ & _ & _ & _ & _ & _ & Hins & _ & (Hnew & _)%insert_managed_work_Ok & _ & _ & -> & _).
  apply insert_command_Ok in Hins as (_ & _ & _ & _ & _ & _ & ->). simpl in *.
  assert (ma_managed_work_id m <> k) as Hne by (intros <-; rewrite Hnew in Hk; by destruct Hk).
  by rewrite !lookup_insert_ne by done.
Qed.
#[local] Hint Resolve admit_new_sealed : steps.

Section Sealed.
Context `{Encoding, Ed25519, Sha256, Thumbprint, EnvelopeCodec, InventoryCodec, FactsCodec, ChronoRange, Collation,
  ScanOrder, !HexSpec}.
#[local] Hint Unfold register_verification_key apply_snapshot insert_audit_event enqueue_in recent_failures
  apply_receipt policy_in active_agents
  find_existing_managed_work existing_dispatch managed_work_target_in pending_usage insert_dispatch_command
  next_command_sequence require_admission_in is_active_agent : frames.
Lemma step_sealed db db' : System.step db db' -> sealed_once db db'.
Proof.
  assert (forall {A} (m : Repo A) db, Always sealed_once m -> sealed_once db (snd (m db))) as Hsnd.
  { intros A m d Hm. destruct (m d) as [r d'] eqn:E. exact (Hm _ _ _ E). }
  destruct 1; apply Hsnd.
  - unfold ensure_organization. steps.
  - unfold create_invitation. steps.
  - unfold invitation, expire_invitation. steps.
  - unfold list_invitations. steps.
  - unfold revoke_invitation, revoke_in, invitation, expire_invitation. steps.
  - unfold enroll_agent, enroll_in, persist_enrollment, register_verification_key. steps.
  - unfold retire_agent_credentials, retire_in. steps.
  - unfold prepare_router_policy. steps.
  - unfold acknowledge_router_policy. steps.
  - unfold enqueue_command. steps.
  - unfold mark_command_published. steps.
  - apply record_publication_always; [typeclasses eauto| |]; unfold record_publication_in, record_audit_event; steps.
    unfold reconcile_state_observation, record_observation. steps.
  - unfold create_managed_work_preflight. steps.
  - unfold admit_managed_work, admit_in. steps.
  - unfold expire_managed_payloads, expire_in, expire_one. steps.
  - unfold record_audit_event. steps.
Qed.
End Sealed.

(** ** Admission, submission and dispatch are sequences of repository steps *)
Section Service.
Context `{Encoding, Sha256, Ed25519, Ed25519Signing, HexDecode, Rfc3339Auto, Canonicalizer, PolicyJson, Collation}.
Context `{Rfc3339, DispatchJson, Hpke, Aes256Gcm, Base64Decode, ManagedPayloadKeyWrapper, DeadlineFormat}.
Context `{KeyExpressions, JsonText}.
Context `{Thumbprint, EnvelopeCodec, InventoryCodec, FactsCodec, ChronoRange, ScanOrder, NaiveDate, !HexSpec}.
Context (self : ManagedGatewayController).

Definition advances (w w' : World) : Prop :=
  rtc System.step (w_database w) (w_database w') /\ w_published w `prefix_of` w_published w'.
#[global] Instance advances_PreOrder : PreOrder advances.
Proof.
  split; [intros w; split; [apply rtc_refl|done]|]. intros w1 w2 w3 [A12 P12] [A23 P23].
  split; [exact (transitivity (R:=rtc System.step) A12 A23)|exact (transitivity P12 P23)].
Qed.

Lemma always_from {S E A} (R : S -> S -> Prop) (m : repo S E A) : (forall s, R s (snd (m s))) -> Always R m.
Proof. intros Hm s r s' Hr. specialize (Hm s). by rewrite Hr in Hm. Qed.
Lemma in_database_advances {A} (m : repo Database AppError A) :
  (forall db, rtc System.step db (snd (m db))) -> Always advances (in_database m).
Proof.
  intros Hm. apply always_from. intros w. unfold in_database, advances. specialize (Hm (w_database w)).
  destruct (m (w_database w)). by split.
Qed.
Lemma gateway_snd {A} (m : Repo A) db : snd (gateway m db) = snd (m db).
Proof. unfold gateway. by destruct (m db) as [[] ?]. Qed.
Lemma repository_advances {A} (m : Repo A) : (forall db, rtc System.step db (snd (m db))) -> Always advances (repository self m).
Proof.
  intros Hm. unfold repository. destruct (mg_has_repository self); [|steps].
  apply in_database_advances. intros db. by rewrite gateway_snd.
Qed.
Lemma repository_step {A} (m : Repo A) : (forall db, System.step db (snd (m db))) -> Always advances (repository self m).
Proof. intros Hm. apply repository_advances. intros db. by apply rtc_once. Qed.
Lemma repository_reads {A} (m : Repo A) : Always eq m -> Always advances (repository self m).
Proof.
  intros Hm. apply repository_advances. intros db. destruct (m db) as [r d] eqn:E. rewrite <- (Hm _ _ _ E). apply rtc_refl.
Qed.
Lemma try_app_advances {A} (m : App A) : Always advances m -> Always advances (try_app m).
Proof. intros Hm w r w' Hr. unfold try_app in Hr. destruct (m w) as [r0 w0] eqn:E. injection Hr as <- <-. by eapply Hm. Qed.
Lemma put_bytes_advances key payload outcome : Always advances (put_bytes key payload outcome).
Proof.
  apply always_from. intros w. unfold put_bytes. destruct outcome; [|reflexivity].
  split; [apply rtc_refl|]. simpl. by apply prefix_app_r.
Qed.

(** What holds of the repository's two operations on policies and of the others' commits holds of an admission. *)
Lemma gateway_always {A} (R : Database -> Database -> Prop) (m : Repo A) : Always R m -> Always R (gateway m).
Proof. intros Hm. apply always_from. intros d. rewrite gateway_snd. destruct (m d) as [r d'] eqn:E. exact (Hm _ _ _ E). Qed.
Lemma require_admission_reads ad agent now : Always eq (require_router_admission ad agent now).
Proof. unfold require_router_admission, require_admission_in, is_active_agent. steps. Qed.
Lemma admit_agent_within (R : Database -> Database -> Prop) `{!PreOrder R} c clk others management timed_out agent now :
  others_within R others -> (forall o cfg rb build t, Always R (prepare_router_policy o cfg rb build t)) ->
  (forall o p t1 t2, Always R (acknowledge_router_policy o p t1 t2)) ->
  Always R (admit_agent c clk others management timed_out agent now).
Proof.
  intros Ho Hp Ha. assert (Always R (apply_current_policy c clk others management timed_out)) as Happ.
  { unfold apply_current_policy. steps; try (by apply gateway_always). apply always_from. intros d. apply Ho. }
  unfold admit_agent. steps.
  - apply always_from. intros d. unfold reconcile.
    change ((_ ← meanwhile (ot_waiting others); apply_current_policy c clk others management timed_out) d)
      with (apply_current_policy c clk others management timed_out (ot_waiting others d)).
    destruct (apply_current_policy c clk others management timed_out (ot_waiting others d)) as [r d'] eqn:E.
    cbn [fst snd]. transitivity (ot_waiting others d); [apply Ho|exact (Happ _ _ _ E)].
  - apply always_from. intros d. apply Ho.
  - apply gateway_always. intros d r d' <-%require_admission_reads. reflexivity.
Qed.
Definition others_step (call : AdmissionCall) : Prop := others_within (rtc System.step) (ac_others call).
Lemma router_admission_advances call agent : others_step call -> Always advances (router_admission self call agent).
Proof.
  intros Ho. unfold router_admission. destruct (mg_router_admission self); [|steps].
  apply in_database_advances. intros db. destruct (admit_agent _ _ _ _ _ _ _ db) as [r d] eqn:E.
  eapply admit_agent_within; [apply _|exact Ho| | |exact E]; intros; apply always_from; intros; apply rtc_once; constructor.
Qed.

Lemma managed_payload_reads id now : Always eq (managed_payload id now).
Proof. unfold managed_payload. steps. Qed.
Lemma replay_reads id o k p f : Always eq (replay_managed_work id o k p f).
Proof. unfold replay_managed_work, replay_in. steps. Qed.
Lemma dispatch_message_advances call command : others_step (dc_admission call) ->
  Always advances (dispatch_message self call command).
Proof.
  intros Ho. unfold dispatch_message. steps; try (by apply router_admission_advances); apply repository_reads;
    [apply managed_payload_reads|apply require_admission_reads].
Qed.
Lemma publish_live_command_advances call command : others_step (dc_admission (pc_dispatch call)) ->
  Always advances (publish_live_command self call command).
Proof. intros Ho. unfold publish_live_command. steps; [by apply dispatch_message_advances|apply put_bytes_advances]. Qed.
Lemma mark_published_advances agent command now : Always advances (repository self (mark_command_published agent command now)).
Proof. apply repository_step. constructor. Qed.
Lemma publish_managed_dispatch_advances call command : others_step (dc_admission (pc_dispatch call)) ->
  Always advances (publish_managed_dispatch self call command).
Proof.
  intros Ho. unfold publish_managed_dispatch. steps; [by apply try_app_advances, publish_live_command_advances|apply mark_published_advances].
Qed.
Definition typed_submission (managed_work_id : string) (s : ManagedWorkSubmission) : bool :=
  let work := sub_work s in
  resource_id_valid "mw_" managed_work_id && resource_id_valid "pi_v1_" (dw_print_intent_id work)
  && resource_id_valid "org_" (sc_organization_id (dw_scope work)) && resource_id_valid "site_" (sc_site_id (dw_scope work))
  && agent_id_valid (sc_agent_id (dw_scope work)) && resource_id_valid "dev_" (dw_device_id work).

(** What a successful submission of new work has stored: its command, signed by the Controller for the Agent, in the
    payload's protection. *)
Definition protects (signer : ManagedDispatchSigner) (id key : string) (s : ManagedWorkSubmission)
    (agent_key : DispatchEncryptionKey) (issued_at expires_at : instant) (db : Database) : Prop :=
  exists work row context aad e1 e2 prepared payload hpke allocation command plaintext,
    managed_work db !! id = Some work /\
    context = mkPayloadContext (mw_organization_id work) id (mw_idempotency_key work)
                (hex_encode (mw_payload_fingerprint work)) (hex_encode (mw_request_fingerprint work)) /\
    canonical_to_vec (ManagedPayloadContext_value context) = Some aad /\ prepare e1 aad = Ok prepared /\
    seal prepared e2 plaintext = Ok payload /\ command_to_vec command = Some plaintext /\
    signer_command signer hpke allocation key s = Ok command /\ al_recipient_key allocation = agent_key /\
    al_managed_work_id allocation = id /\ al_command_id allocation = dispatch_command_id id /\
    al_issued_at allocation = issued_at /\ al_work_expires_at allocation = expires_at /\
    (0 < nl_wrapping_key_version payload <= i32_max /\ str_len (nl_nonce payload) = 12 /\
     digest32 (nl_authenticated_data_digest payload) = true) /\
    managed_payloads db !! id = Some row /\
    (mp_ciphertext row, mp_nonce row, mp_wrapped_data_key row, mp_wrapping_key_version row,
     mp_authenticated_data_digest row, mp_plaintext_bytes row)
    = (nl_ciphertext payload, nl_nonce payload, nl_wrapped_data_key payload, nl_wrapping_key_version payload,
       nl_authenticated_data_digest payload, nl_plaintext_bytes payload).

Definition unused (id key : string) (s : ManagedWorkSubmission) (db : Database) : Prop := forall k w,
  managed_work db !! k = Some w ->
  ~ identity_used id (sc_organization_id (dw_scope (sub_work s))) key (dw_print_intent_id (sub_work s)) w.
(** The Agent of a submission and its preflight are as they were, and its identities are still unused. *)
Definition undisturbed (id key : string) (s : ManagedWorkSubmission) (db db' : Database) : Prop :=
  agents db' !! sc_agent_id (dw_scope (sub_work s)) = agents db !! sc_agent_id (dw_scope (sub_work s)) /\
  managed_work_preflights db' !! sub_preflight_id s = managed_work_preflights db !! sub_preflight_id s /\
  (unused id key s db -> unused id key s db').
#[global] Instance undisturbed_PreOrder id key s : PreOrder (undisturbed id key s).
Proof.
  split; [done|]. intros d1 d2 d3 (A1 & P1 & U1) (A2 & P2 & U2). split_and!; [congruence|congruence|auto].
Qed.
#[global] Instance undisturbed_footprint id key s :
  Footprint (fun db => (agents db, managed_work db, managed_work_preflights db)) (undisturbed id key s).
Proof. intros db db' [= E1 E2 E3]. unfold undisturbed, unused. by rewrite E1, E2, E3. Qed.
Lemma router_admission_undisturbed call id key s agent w r w' :
  others_within (undisturbed id key s) (ac_others call) -> router_admission self call agent w = (r, w') ->
  undisturbed id key s (w_database w) (w_database w').
Proof.
  intros Ho. unfold router_admission. destruct (mg_router_admission self) as [c|]; [|by intros [= _ <-]].
  unfold in_database. destruct (admit_agent _ _ _ _ _ _ _ _) as [x db] eqn:E. intros [= _ <-].
  eapply admit_agent_within; [apply _|exact Ho| | |exact E]; intros; intros d1 y d2 Hy;
    apply (footprint_same (f := fun db => (agents db, managed_work db, managed_work_preflights db)));
    revert d1 y d2 Hy; apply always_transaction; try apply _; unfold policy_in, active_agents; steps.
Qed.

Lemma submit_new_protects call signer id key s pf rf payload w d w' agent agent_key pre :
  System.reachable (w_database w) -> others_step (su_admission call) ->
  others_within (undisturbed id key s) (ac_others (su_admission call)) -> unused id key s (w_database w) ->
  agents (w_database w) !! sc_agent_id (dw_scope (sub_work s)) = Some agent -> ag_dispatch_key agent = Some agent_key ->
  managed_work_preflights (w_database w) !! sub_preflight_id s = Some pre ->
  submit_new self call signer id key s pf rf payload w = (Ok d, w') ->
  protects signer id key s agent_key (su_admitted_at call) (pf_work_expires_at pre) (w_database w').
Proof.
  intros Hreach Ho Hund Hun Hag Hkey Hpf Hrun. unfold submit_new in Hrun.
  apply repo_bind_Ok in Hrun as (aad & w1 & [Haad%ok_or_Ok ->]%returns_Ok & Hrun).
  apply repo_bind_Ok in Hrun as (u & w2 & [_ ->]%returns_Ok & Hrun).
  apply repo_bind_Ok in Hrun as (prepared & w3 & [Hprep ->]%returns_Ok & Hrun).
  apply repo_bind_Ok in Hrun as (ad & w4 & Hadm & Hrun).
  apply repo_bind_Ok in Hrun as (bytes & w5 & [_ ->]%returns_Ok & Hrun).
  destruct (router_admission_undisturbed _ _ _ _ _ _ _ _ Hund Hadm) as (Eag & Epre & Hun4).
  apply repository_Ok in Hrun as (db & (_ & r & Hin & _)%admit_managed_work_Ok & ->). simpl.
  assert (System.reachable (w_database w4)) as Hwf4%reachable_controller_wf.
  { unfold System.reachable in *. transitivity (w_database w); [done|]. exact (proj1 (router_admission_advances _ _ Ho _ _ _ Hadm)). }
  destruct (admit_in_Ok _ _ _ _ _ _ ltac:(apply Hwf4) Hin) as [_ [(w0 & Hw0 & (R1 & R2 & R3 & _) & _ & _)|[_ Hnew]]].
  { exfalso. apply (Hun4 Hun _ _ Hw0). right. left. done. }
  apply admit_new_Ok in Hnew as (pre4 & ag & dv & key0 & row & sealed & version & cmd & db1 &
    Hpf4 & _ & _ & Hag4 & _ & _ & _ & Hkey4 & _ & _ & _ & (_ & _ & Hrow) & Hb & _ & _ & _ & Hver & (Hn & Hdig & Hpos) & -> & _).
  simpl in *. assert (cm_command_id row = dispatch_command_id id) as Hcid by (rewrite Hrow; done).
  rewrite Epre, Hpf in Hpf4. injection Hpf4 as <-. rewrite Eag, Hag in Hag4. injection Hag4 as <-.
  assert (key0 = agent_key) as -> by congruence.
  assert (version = nl_wrapping_key_version sealed /\ version <= i32_max) as [-> Hmax].
  { unfold i32_try_from in Hver. case_match; [|done]. bools. by injection Hver as <-. }
  unfold build_payload in Hb. apply bind_Ok in Hb as (f & _ & Hb). apply bind_Ok in Hb as (u2 & _ & Hb).
  apply bind_Ok in Hb as (command & Hc & Hb). apply bind_Ok in Hb as (plaintext & Hp%ok_or_Ok & Hb).
  unfold to_gateway in Hc, Hb. destruct (signer_command _ _ _ _ _) as [cmd2|] eqn:Ec; [|done]. apply Ok_inj in Hc as <-.
  destruct (seal _ _ _) as [sealed2|] eqn:Es; [|done]. apply Ok_inj in Hb as <-.
  eexists _, _, _, aad, _, _, prepared, _, _, _, _, _.
  split_and!; try exact Ec; try exact Es; try exact Hp; try exact Hprep; try apply lookup_insert_eq; try done.
Qed.

Lemma rtc_sealed db db' : rtc System.step db db' -> sealed_once db db'.
Proof. induction 1 as [db|d1 d2 d3 Hs _ IH]; [reflexivity|]. transitivity d2; [by apply step_sealed|done]. Qed.
Lemma protects_later signer id key s agent_key t1 t2 db db' :
  controller_wf db -> rtc System.step db db' -> is_Some (managed_payloads db' !! id) ->
  protects signer id key s agent_key t1 t2 db -> protects signer id key s agent_key t1 t2 db'.
Proof.
  intros Hwf Hrtc [row' Hrow'] (work & row & context & aad & e1 & e2 & prepared & payload & hpke & allocation & command &
    plaintext & Hw & Hc & Haad & Hprep & Hseal & Hvec & Hcmd & Hkey & Hid & Hcid & Ht1 & Ht2 & Hver & Hrow & Erow).
  pose proof (rtc_always controller_evolves (fun A m Hm => lawful_controller m Hm) _ _ Hrtc Hwf) as [_ Hprog].
  destruct (Hprog id work Hw) as (work' & Hw' & (Hident & _)).
  destruct (rtc_sealed _ _ Hrtc id ltac:(eauto)) as [_ Hsame]. pose proof (Hsame row' Hrow') as Er.
  assert (row' = row) as -> by congruence.
  exists work', row, context, aad, e1, e2, prepared, payload, hpke, allocation, command, plaintext.
  unfold work_identity in Hident. injection Hident as I1 I2 I3 I4 I5 I6 I7 I8 I9 I10 I11 I12 I13 I14 I15 I16 I17 I18 I19.
  rewrite I3, I4, I14, I15. split_and!; try done; by apply Hver.
Qed.
Lemma submit_protects call id key s w receipt w' agent agent_key pre :
  System.reachable (w_database w) -> typed_submission id s = true ->
  others_step (su_admission call) -> others_within (undisturbed id key s) (ac_others (su_admission call)) ->
  others_step (dc_admission (pc_dispatch (su_publish call))) -> unused id key s (w_database w) ->
  agents (w_database w) !! sc_agent_id (dw_scope (sub_work s)) = Some agent -> ag_dispatch_key agent = Some agent_key ->
  managed_work_preflights (w_database w) !! sub_preflight_id s = Some pre ->
  submit_managed_work self call id key s w = (Ok receipt, w') ->
  exists signer db, mg_security self = Some signer /\ rtc System.step (w_database w) db /\
    protects signer id key s agent_key (su_admitted_at call) (pf_work_expires_at pre) db /\ rtc System.step db (w_database w').
Proof.
  intros Hreach Hv Ho Hund Hpo Hun Hag Hkey Hpf Hrun. pose proof (reachable_controller_wf _ Hreach) as Hwf.
  unfold submit_managed_work in Hrun.
  apply repo_bind_Ok in Hrun as (u1 & w1 & [_ ->]%returns_Ok & Hrun).
  apply repo_bind_Ok in Hrun as (signer & w2 & [Hsec%ok_or_Ok ->]%returns_Ok & Hrun).
  apply repo_bind_Ok in Hrun as (u2 & w3 & [_ ->]%returns_Ok & Hrun).
  apply repo_bind_Ok in Hrun as (u3 & w4 & [_ ->]%returns_Ok & Hrun).
  apply repo_bind_Ok in Hrun as (pf & w5 & [_ ->]%returns_Ok & Hrun).
  apply repo_bind_Ok in Hrun as (payload & w6 & [_ ->]%returns_Ok & Hrun).
  apply repo_bind_Ok in Hrun as (bytes & w7 & [_ ->]%returns_Ok & Hrun). cbv zeta in Hrun.
  apply repo_bind_Ok in Hrun as (replayed & w8 & Hrep & Hrun).
  apply repository_Ok in Hrep as (db8 & Hrep & ->).
  assert (db8 = w_database w) as -> by (symmetry; exact (replay_reads _ _ _ _ _ _ _ _ Hrep)).
  assert (replayed = None) as ->.
  { unfold replay_managed_work in Hrep. apply repo_bind_Ok in Hrep as (r & d1 & Hin%transaction_Ok & Hrep).
    unfold replay_in in Hin. apply tx_bind_Ok in Hin as (ex & d2 & Hex & Hin).
    destruct ex as [row|]; [|apply tx_ret_Ok in Hin as [-> ->]; by inversion Hrep].
    destruct (find_existing_cases (w_database w) id (sc_organization_id (dw_scope (sub_work s))) key
      (dw_print_intent_id (sub_work s)) (sha256 bytes) ltac:(apply Hwf)) as [[E _]|[(row2 & E & Hrow & (S1 & S2 & _))|[E _]]];
      [congruence| |congruence].
    exfalso. apply (Hun _ _ Hrow). right. left. done. }
  apply repo_bind_Ok in Hrun as (d & w9 & Hnew & Hrun).
  apply repo_bind_Ok in Hrun as (u4 & w10 & Hpub & Hret). inversion Hret; subst.
  exists signer, (w_database w9). split_and!; [done| | |].
  - revert Hnew. assert (Always advances (submit_new self call signer id key s pf (sha256 bytes) payload)) as Hadv.
    { unfold submit_new. steps; [by apply router_admission_advances|]. apply repository_step. intros db. by constructor. }
    intros Hnew. exact (proj1 (Hadv _ _ _ Hnew)).
  - by eapply submit_new_protects; [| | | | | | |exact Hnew].
  - exact (proj1 (publish_managed_dispatch_advances _ _ Hpo _ _ _ Hpub)).
Qed.

Lemma repo_bind_run {St E A B} (m : repo St E A) (f : A -> repo St E B) st a st' : m st = (Ok a, st') -> (m ≫= f) st = f a st'.
Proof. intros Hm. unfold mbind, repo_bind. by rewrite Hm. Qed.
Lemma repository_runs {A} (m : Repo A) w a : mg_has_repository self = true ->
  m (w_database w) = (Ok a, w_database w) -> repository self m w = (Ok a, w).
Proof. intros Hr Hm. unfold repository, in_database, gateway. rewrite Hr, Hm. by destruct w. Qed.
Lemma repo_bind_returns {St E A B} (a : A) (f : A -> repo St E B) st : (returns (Ok a) ≫= f) st = f a st.
Proof. done. Qed.
Lemma require_admission_runs ad agent now db : admitted db ad agent now ->
  require_router_admission ad agent now db = (Ok tt, db).
Proof.
  intros Hin. unfold require_router_admission, transaction.
  by rewrite (proj2 (require_admission_Ok ad agent now db tt db)).
Qed.
Lemma submit_enabled call id key s w receipt w' : submit_managed_work self call id key s w = (Ok receipt, w') ->
  mg_has_repository self = true.
Proof.
  unfold submit_managed_work. intros Hrun. apply repo_bind_Ok in Hrun as (u & w1 & [He _]%returns_Ok & _).
  unfold ensure_enabled in He. by destruct (mg_enabled self), (mg_has_repository self).
Qed.

(** A stored submission that still awaits dispatch can be read, and opens to its command. *)
Lemma protects_opens `{!Aes256GcmSpec, !KeyWrapperSpec, !DispatchJsonSpec} signer id key s agent_key t1 t2 db now work :
  protects signer id key s agent_key t1 t2 db -> managed_work db !! id = Some work ->
  mw_state work = MwDispatching -> now < mw_expires_at work ->
  exists persisted aad plaintext command hpke allocation,
    managed_payload id now db = (Ok persisted, db) /\
    canonical_to_vec (ManagedPayloadContext_value (pl_context persisted)) = Some aad /\
    open (pl_protection persisted) aad = Ok plaintext /\ command_from_slice plaintext = Some command /\
    signer_command signer hpke allocation key s = Ok command /\ al_recipient_key allocation = agent_key /\
    al_managed_work_id allocation = id /\ al_command_id allocation = dispatch_command_id id /\
    al_issued_at allocation = t1 /\ al_work_expires_at allocation = t2.
Proof.
  intros (work0 & row & context & aad & e1 & e2 & prepared & payload & hpke & allocation & command & plaintext & Hw & -> &
    Haad & Hprep & Hseal & Hvec & Hcmd & Hkey & Hid & Hcid & Ht1 & Ht2 & ([Hv0 Hv1] & Hn & Hd) & Hrow & Erow) Hw2 Hst Hlt.
  assert (work0 = work) as -> by congruence. injection Erow as R1 R2 R3 R4 R5 R6.
  exists (mkPersistedPayload payload (mkPayloadContext (mw_organization_id work) id (mw_idempotency_key work)
    (hex_encode (mw_payload_fingerprint work)) (hex_encode (mw_request_fingerprint work)))).
  exists aad, plaintext, command, hpke, allocation. split_and!; try done.
  - unfold managed_payload, transaction, get, expect, lift, require, mret, tx_ret. unfold mbind, tx_bind.
    rewrite Hw. simpl. unfold utc_time. rewrite Hst. rewrite (proj2 (Z.leb_gt _ _) Hlt). simpl.
    rewrite Hrow. simpl. rewrite R1, R2, R3, R4, R5, R6, (proj2 (Z.eqb_eq _ _) Hn). simpl.
    unfold u32_try_from. rewrite (proj2 (Z.leb_le _ _)), (proj2 (Z.leb_le _ 4294967295)) by (unfold i32_max in *; lia).
    simpl. rewrite Hd. simpl. by destruct payload.
  - by eapply seal_opens.
  - by apply command_roundtrip.
Qed.

(** C2: a submitted document reaches its Agent.  Take a document that the service accepted as new work, while other
    requests were served that left its Agent, its preflight and its identities alone, and any later
    state of the database.  As long as the work awaits dispatch, before its deadline and the envelope's, and the fleet
    admits the Agent, sending the stored command succeeds.  What is sent names the work, the Agent and the
    Controller, and with its private dispatch key and the Controller's public key the Agent obtains exactly the
    submitted document, scope, origin and options from it. *)
Theorem submitted_work_reaches_its_agent
    `{!Aes256GcmSpec, !KeyWrapperSpec, !DispatchJsonSpec, !HpkeSpec, !Base64UrlSpec, !Ed25519SigningSpec}
    call id key s w receipt w1 agent agent_key private signer pre later ad w2 w3 work namespace :
  System.reachable (w_database w) -> typed_submission id s = true ->
  others_step (su_admission call) -> others_within (undisturbed id key s) (ac_others (su_admission call)) ->
  others_step (dc_admission (pc_dispatch (su_publish call))) -> others_step (dc_admission later) -> unused id key s (w_database w) ->
  agents (w_database w) !! sc_agent_id (dw_scope (sub_work s)) = Some agent -> ag_dispatch_key agent = Some agent_key ->
  managed_work_preflights (w_database w) !! sub_preflight_id s = Some pre ->
  base64url_decode (dk_public_key_base64url agent_key) = Some (hpke_public_key private) ->
  mg_security self = Some signer -> ed25519_is_weak (ed25519_verifying_key (ds_signing_key signer)) = false ->
  submit_managed_work self call id key s w = (Ok receipt, w1) ->
  rtc System.step (w_database w1) (w_database w2) ->
  router_admission self (dc_admission later) (sc_agent_id (dw_scope (sub_work s))) w2 = (Ok ad, w3) ->
  admitted (w_database w3) ad (sc_agent_id (dw_scope (sub_work s))) (dc_admission_check later) ->
  managed_work (w_database w3) !! id = Some work -> mw_state work = MwDispatching ->
  dc_payload_read later < mw_expires_at work ->
  timestamp (dc_deadline_check later) < timestamp (Z.min (su_admitted_at call + ds_envelope_ttl signer) (pf_work_expires_at pre)) ->
  exists message_id sequence issued_at dispatch claims,
    dispatch_message self later (mkStoredCommand (sc_agent_id (dw_scope (sub_work s))) namespace (dispatch_command_id id)
      (ManagedWorkContent id)) w2 =
      (Ok (CmdDispatchDeviceWork message_id (dispatch_command_id id) sequence issued_at dispatch), w3) /\
    ddw_managed_work_id dispatch = id /\
    delivers private (ed25519_verifying_key (ds_signing_key signer)) dispatch claims /\
    cl_work claims = sub_work s /\ cl_issuer claims = ds_issuer signer /\
    cl_audience claims = sc_agent_id (dw_scope (sub_work s)).
Proof.
  intros Hreach Hv Ho Hund Hpo Hlo Hun Hag Hkey Hpf Hpub Hsec Hweak Hsub Hlater Hadm Hin Hwork Hst Hread Hdead.
  destruct (submit_protects _ _ _ _ _ _ _ _ _ _ Hreach Hv Ho Hund Hpo Hun Hag Hkey Hpf Hsub) as (signer' & db & Hsec' & Hto & Hprot & Hfrom).
  assert (signer' = signer) as -> by congruence.
  assert (rtc System.step db (w_database w3)) as Hrtc.
  { transitivity (w_database w1); [done|]. transitivity (w_database w2); [done|].
    exact (proj1 (router_admission_advances _ _ Hlo _ _ _ Hadm)). }
  assert (System.reachable db) as Hr by (unfold System.reachable in *; by transitivity (w_database w)).
  assert (controller_wf (w_database w3)) as Hwf3.
  { apply reachable_controller_wf. unfold System.reachable in *. by transitivity db. }
  assert (is_Some (managed_payloads (w_database w3) !! id)) as Hpay.
  { destruct Hwf3 as (_ & _ & _ & (Hrows & _) & _). destruct (Hrows id work Hwork) as (_ & _ & Hl).
    unfold lifecycle in Hl. rewrite Hst in Hl. by destruct Hl as [? _]. }
  pose proof (protects_later _ _ _ _ _ _ _ _ _ (reachable_controller_wf _ Hr) Hrtc Hpay Hprot) as Hprot3.
  destruct (protects_opens _ _ _ _ _ _ _ _ _ _ Hprot3 Hwork Hst Hread) as (persisted & aad & plaintext & command & hpke &
    allocation & Hmp & Haad & Hopen & Hslice & Hcmd & Hrk & Hid & Hcid & Ht1 & Ht2).
  rewrite <- Hrk in Hpub. destruct (signer_command_delivers _ _ _ _ _ _ _ Hweak Hcmd Hpub) as (dispatch & claims & -> &
    Hdel & Hiss & Haud & Hcw & _ & Hdid & Hdata).
  exists (al_message_id allocation), (al_sequence allocation), (al_issued_at allocation), dispatch, claims.
  split_and!; try done; [|congruence].
  assert (mg_has_repository self = true) as Hrepo by (by eapply submit_enabled).
  unfold dispatch_message. cbn [st_agent_id st_command st_command_id].
  rewrite (repo_bind_run _ _ _ _ _ Hadm), (repo_bind_run _ _ _ _ _ (repository_runs _ _ _ Hrepo Hmp)), Haad.
  cbn [ok_or]. rewrite repo_bind_returns. unfold payload_protector. rewrite Hsec, repo_bind_returns, Hopen, repo_bind_returns.
  rewrite Hslice. cbn [ok_or]. rewrite repo_bind_returns.
  rewrite Hdid, Hid, Hcid, Hdata, !String.eqb_refl, Ht1, Ht2. unfold authenticated_data.
  cbn [ad_agent_id ad_expires_at]. rewrite (proj2 (Z.leb_gt _ _) Hdead).
  cbn [negb orb]. rewrite (repo_bind_run _ _ _ _ _ (repository_runs _ _ _ Hrepo (require_admission_runs _ _ _ _ Hin))).
  by rewrite <- Ht1.
Qed.
End Service.

(** ** Stored rows have the types the code reads them at *)
Section Typed.
Context `{Encoding, Ed25519, Sha256, Thumbprint, EnvelopeCodec, InventoryCodec, FactsCodec, ChronoRange, Collation,
  ScanOrder, !HexSpec}.
(** C18: stored jobs and Managed Work are well typed.  In every state that the Controller reaches, the identifiers,
    numbers and contents in the rows of jobs and of Managed Work, and the identifiers of Agents, parse at the types they
    are read with: looking up a job or Managed Work returns the stored row as it is, with the namespace of its Agent, or
    reports that there is none, and never reports corrupt state. *)
Theorem stored_work_is_well_typed db : System.reachable db ->
  (forall id, commands db !! id = None -> Commands.job id db = (Err (NotFound "job was not found"), db)) /\
  (forall id c, commands db !! id = Some c -> exists a, agents db !! cm_agent_id c = Some a /\
     Commands.job id db = (Ok (mkPersistedCommand (cm_agent_id c) (ag_namespace a) id (cm_message_id c) (cm_sequence c)
       (JobState_from (cm_state c)) (cm_command c) (cm_issued_at c) (cm_published_at c) (cm_updated_at c)), db)) /\
  (forall id, find_managed_work id db =
     (match managed_work db !! id with Some w => Ok (dispatch_view w) | None => Err (NotFound "Managed Work was not found") end, db)) /\
  (forall k a, agents db !! k = Some a -> AgentId_from_str (ag_agent_id a) = Ok k).
Proof.
  intros Hr%reachable_controller_wf. pose proof Hr as (Ha & C & S & W & _ & _). split_and!.
  - intros id Hc. unfold Commands.job, transaction, get, expect, lift. unfold mbind, tx_bind. by rewrite Hc.
  - intros id c Hc. pose proof (C id c Hc) as Hwf. destruct Hwf as (_ & _ & [a Hag] & _). exists a. split; [done|].
    unfold Commands.job, transaction, agent_namespace, require_agent, get, expect, lift. unfold mbind, tx_bind.
    rewrite Hc. simpl. rewrite Hag. simpl. by rewrite (persisted_command_ok db id c _ Ha (C id c Hc) (proj2 (proj1 S id c Hc))).
  - intros id. unfold find_managed_work, queries. destruct (managed_work db !! id) as [w|] eqn:Hw; simpl; [|done].
    rewrite persisted_managed_work_ok; [done|]. by eapply controller_ids_valid.
  - intros k a Hk. destruct (Ha k a Hk) as [-> Hv]. unfold AgentId_from_str. by rewrite Hv.
Qed.
End Typed.
