(* ===== verification/GatewayDemo.v ===== *)
(** * A sample submission

    The managed gateway service at work on concrete functions: an Agent is enrolled, a document is submitted for it and
    dispatched later. *)
From stdpp Require Import relations.
From S2P Require Import Prelude Framing Json Errors Identifiers InvitationCode Protocol Schema Samples AuditLog.
From S2P Require Import RouterPolicy Commands Security Observations Inventory Keys Onboarding Enrollment.
From S2P Require Import Publications Retirement ManagedWork Dispatch AuthorityVersion System.
From S2P Require Import FleetPolicy AccessControl DataTls Supervisor RouterLife ServerErrors AdmissionController EndToEnd.
From S2P Require Import PayloadProtection DispatchSigner ManagedGateway GatewayConfig EnrollmentService GatewayLife.

(** ** Decidable equality of what is dispatched *)
#[global] Instance ManagedDocument_eq_dec : EqDecision ManagedDocument.
Proof. solve_decision. Defined.
#[global] Instance ReportSource_eq_dec : EqDecision ReportSource.
Proof. solve_decision. Defined.
#[global] Instance ReportPrintOrigin_eq_dec : EqDecision ReportPrintOrigin.
Proof. solve_decision. Defined.
#[global] Instance ManagedDeviceWork_eq_dec : EqDecision ManagedDeviceWork.
Proof. solve_decision. Defined.
#[global] Instance ManagedDispatchAuthenticatedData_eq_dec : EqDecision ManagedDispatchAuthenticatedData.
Proof. solve_decision. Defined.
#[global] Instance ManagedDispatchClaims_eq_dec : EqDecision ManagedDispatchClaims.
Proof. solve_decision. Defined.
#[global] Instance DispatchHpkeSuite_eq_dec : EqDecision DispatchHpkeSuite.
Proof. solve_decision. Defined.
#[global] Instance SealedManagedDispatch_eq_dec : EqDecision SealedManagedDispatch.
Proof. solve_decision. Defined.
#[global] Instance DispatchDeviceWork_eq_dec : EqDecision DispatchDeviceWork.
Proof. solve_decision. Defined.
#[global] Instance DeviceCommand_eq_dec : EqDecision DeviceCommand.
Proof. solve_decision. Defined.
#[global] Instance ExecuteDeviceCommand_eq_dec : EqDecision ExecuteDeviceCommand.
Proof. solve_decision. Defined.
#[global] Instance ControllerCommand_eq_dec : EqDecision ControllerCommand.
Proof. solve_decision. Defined.

(** ** Concrete functions *)
Import LifeToy.
#[local] Existing Instances System.demo_inventory EndToEnd.demo_json.
#[local] Instance demo_rfc3339 : Rfc3339 := {| utc_year := fun _ => 2026; rfc3339_secs := pretty; rfc3339_micros := pretty |}.
#[local] Instance demo_hpke : Hpke :=
  {| hpke_context := string; hpke_public_key_is_ok := fun _ => true;
     setup_sender := fun public info _ => Some (public, public ++ info); context_seal := fun _ message _ => Some message;
     hpke_public_key := fun private => private; hpke_open := fun _ _ _ ciphertext _ => Some ciphertext |}.
#[local] Instance demo_hpke_spec : HpkeSpec.
Proof. intros private info entropy enc ctx message aad ciphertext _ E. injection E as <-. reflexivity. Qed.
#[local] Instance demo_aes : Aes256Gcm :=
  {| aes_encrypt := fun _ _ message _ => Some message; aes_decrypt := fun _ _ ciphertext _ => Some ciphertext |}.
#[local] Instance demo_aes_spec : Aes256GcmSpec.
Proof. intros key nonce message aad ciphertext E. injection E as <-. reflexivity. Qed.
#[local] Instance demo_base64 : Base64Decode := fun s => Some s.
(** A wrapper that knows one data key. *)
#[local] Instance demo_wrapper : ManagedPayloadKeyWrapper :=
  {| wrap := fun key _ => if String.eqb key (thirty_two "d") then Ok (mkTransitWrappedKey "vault:v1:a2V5" 1)
                          else Err AdmissionController.unavailable;
     unwrap := fun ciphertext _ => Ok (thirty_two "d") |}.
#[local] Instance demo_wrapper_spec : KeyWrapperSpec.
Proof.
  intros key aad wrapped _ E. simpl in E. destruct (String.eqb_spec key (thirty_two "d")) as [->|]; [|done].
  apply Ok_inj in E as <-. split; vm_compute; reflexivity.
Qed.
#[local] Instance demo_deadline : DeadlineFormat := pretty.
#[local] Instance demo_keys : KeyExpressions := {| key_from_str := Ok; key_join := fun a b => Ok (a ++ "/" ++ b) |}.
#[local] Instance demo_text : JsonText :=
  {| json_to_vec := canonical_to_vec; job_request_to_vec := fun _ => Some "job"; message_to_vec := fun _ => Some "message";
     publication_from_slice := fun _ => None; request_to_vec := fun _ _ => Some "request" |}.

(** ** A submission *)
Definition gate_scope : ManagedWorkScope := mkManagedWorkScope "odoo" "1" "org_acme" "site_main" demo_agent.
Definition gate_work : ManagedDeviceWork :=
  mkManagedDeviceWork 1 gate_scope "pi_v1_a" "dev_scale"
    (mkReportPrintOrigin sample_binding RouteManual (SourceRecords "stock.picking" [7]) 0 0) (DocLabelDocument "WFla") [].
Definition gate_submission : ManagedWorkSubmission :=
  mkManagedWorkSubmission 1 "mpf_1" (hex_encode (thirty_two "h")) gate_work.
Definition gate_enrolled : Database :=
  snd (enroll_agent sample_code demo_enrollment sample_snapshot sample_limit (Ok 7%nat) sample_enroll_clock demo_2).
Definition gate_preflight : NewManagedWorkPreflight :=
  mkNewPreflight "mpf_1" (expected_request gate_submission) "dispatch_1" "sha256:d" (seconds 600) (seconds 900)
    (seconds 160) (seconds 104).
Definition gate_ready : Database := snd (create_managed_work_preflight gate_preflight gate_enrolled).

(** ** The envelope of the submission *)
Definition gate_signer : ManagedDispatchSigner :=
  mkDispatchSigner "controller-1" "signing-1" 1 (seconds 60) (thirty_two "k") toy_jwk.
Definition gate_allocation : ManagedDispatchAllocation :=
  mkAllocation "mw_1" 1 (dispatch_command_id "mw_1") ("msg_" ++ dispatch_command_id "mw_1") (seconds 111) sample_dispatch_key
    (seconds 600).
Definition gate_claims : ManagedDispatchClaims :=
  mkDispatchClaims "controller-1" demo_agent
    (authenticated_data gate_signer gate_allocation (seconds 171) "key-1" gate_submission) gate_work.
Definition claims_text : DispatchJson :=
  {| claims_to_vec := fun c => if decide (c = gate_claims) then Some "claims" else None;
     claims_from_slice := fun text => if String.eqb text "claims" then Some gate_claims else None;
     command_to_vec := fun _ => None; command_from_slice := fun _ => None; options_to_vec := fun _ => Some "{}" |}.
Definition gate_command : ControllerCommand :=
  match signer_command (H2:=claims_text) gate_signer "entropy" gate_allocation "key-1" gate_submission with
  | Ok command => command
  | Err _ => CmdCancelJob "" "" 0 0 ""
  end.
#[local] Instance demo_dispatch_json : DispatchJson :=
  {| claims_to_vec := claims_to_vec (DispatchJson:=claims_text); claims_from_slice := claims_from_slice (DispatchJson:=claims_text);
     command_to_vec := fun c => if decide (c = gate_command) then Some "command" else None;
     command_from_slice := fun text => if String.eqb text "command" then Some gate_command else None;
     options_to_vec := fun _ => Some "{}" |}.
#[local] Instance demo_dispatch_json_spec : DispatchJsonSpec.
Proof.
  split; intros c bytes E; cbn [claims_to_vec command_to_vec demo_dispatch_json claims_text] in E;
    (destruct (decide _) as [->|]; [|discriminate E]); by injection E as <-.
Qed.
#[local] Instance demo_base64url_spec : Base64UrlSpec.
Proof. by intros s. Qed.
Example gate_command_is_a_dispatch : exists message_id command_id sequence issued_at payload,
  gate_command = CmdDispatchDeviceWork message_id command_id sequence issued_at payload.
Proof. vm_compute. repeat eexists. Qed.

(** ** The service *)
Definition gate_management (router : RouterManagementConfig) (signed : SignedPolicy) : AppResult RouterStatus :=
  match SignedPolicy_verify signed (thirty_two "k") "fleet-1" with
  | Ok v => Ok (mkRouterStatus (Some (po_generation (vp_policy v))) (Some (vp_digest v)) (Some (po_expires_at (vp_policy v))) true "")
  | Err _ => Err AdmissionController.unavailable
  end.
Definition gate_self : ManagedGatewayController :=
  mkGateway true true ["commands:execute"; "managed_work:dispatch"] "inari/gateway" "org_acme" (Some gate_signer) (Some demo_controller).
Definition gate_call : AdmissionCall := mkAdmissionCall demo_clock nobody_else gate_management false (seconds 111).
Definition gate_later : DispatchCall := mkDispatchCall gate_call (seconds 112) (seconds 112) (seconds 112).
Definition gate_submit : SubmitCall :=
  mkSubmitCall (Some (thirty_two "d")) gate_call (seconds 111) (seconds 111) "entropy" (Some "nonce-12byte")
    (mkPublishCall gate_later (Ok tt) (seconds 112)).
Definition gate_world : World := mkWorld gate_ready [].
Definition gate_submitted := submit_managed_work gate_self gate_submit "mw_1" "key-1" gate_submission gate_world.
Definition gate_readmitted := router_admission gate_self gate_call demo_agent (snd gate_submitted).

Lemma gate_ready_reachable : System.reachable gate_ready.
Proof.
  eapply rtc_l; [apply (step_ensure_organization _ "org_acme" "Acme" "site_main" "Main" 0)|].
  eapply rtc_l; [apply (step_create_invitation _ sample_code "org_acme" "site_main" None 0 (seconds 600) demo_audit 0)|].
  eapply rtc_l; [apply (step_enroll _ nat sample_code demo_enrollment sample_snapshot sample_limit (Ok 7%nat)
    sample_enroll_clock eq_refl)|].
  eapply rtc_l; [apply (step_preflight _ gate_preflight)|]. apply rtc_refl.
Qed.
Lemma nobody_within (R : Database -> Database -> Prop) `{!Reflexive R} : others_within R nobody_else.
Proof. intros db. split_and!; simpl; reflexivity. Qed.
Lemma submitted_work_reaches_its_agent_witness :
  exists dispatch claims,
    delivers (dk_public_key_base64url sample_dispatch_key) (thirty_two "k") dispatch claims /\ cl_work claims = gate_work.
Proof.
  destruct gate_submitted as [[receipt|e] w1] eqn:Esub; [|vm_compute in Esub; discriminate Esub].
  destruct gate_readmitted as [[ad|e] w3] eqn:Eadm; [|vm_compute in Eadm; discriminate Eadm].
  assert (w1 = snd gate_submitted) as Ew1 by (rewrite Esub; reflexivity).
  assert (w3 = snd gate_readmitted) as Ew3 by (rewrite Eadm; reflexivity).
  assert (exists work, managed_work (w_database w3) !! "mw_1" = Some work /\ mw_state work = MwDispatching /\
    seconds 112 < mw_expires_at work) as (work & Hw & Hst & Hexp).
  { rewrite Ew3. eexists. split; [vm_compute; reflexivity|]. split; vm_compute; reflexivity. }
  assert (exists agent, agents gate_ready !! demo_agent = Some agent /\ ag_dispatch_key agent = Some sample_dispatch_key)
    as (agent & Hag & Hkey).
  { eexists. split; [vm_compute; reflexivity|vm_compute; reflexivity]. }
  assert (exists pre, managed_work_preflights gate_ready !! "mpf_1" = Some pre /\
    timestamp (seconds 112) < timestamp (Z.min (seconds 171) (pf_work_expires_at pre))) as (pre & Hpre & Hdead).
  { eexists. split; [vm_compute; reflexivity|vm_compute; reflexivity]. }
  assert (admitted (w_database w3) ad demo_agent (seconds 112)) as Hin.
  { assert (require_admission_in ad demo_agent (seconds 112) (w_database w3) = Ok (tt, w_database w3)) as E.
    { assert (fst gate_readmitted = Ok ad) as Ead by (rewrite Eadm; reflexivity). vm_compute in Ead. injection Ead as <-.
      rewrite Ew3. vm_compute. reflexivity. }
    by apply require_admission_Ok in E as [? _]. }
  destruct (submitted_work_reaches_its_agent gate_self gate_submit "mw_1" "key-1" gate_submission gate_world receipt w1 agent
    sample_dispatch_key (dk_public_key_base64url sample_dispatch_key) gate_signer pre gate_later ad w1 w3 work "inari/gateway"
    gate_ready_reachable eq_refl (nobody_within _) (nobody_within _) (nobody_within _) (nobody_within _) ltac:(intros k w Hk; vm_compute in Hk; discriminate Hk) Hag Hkey Hpre eq_refl eq_refl eq_refl
    Esub (rtc_refl _ _) ltac:(rewrite Ew1; exact Eadm) Hin Hw Hst Hexp Hdead)
    as (message_id & sequence & issued_at & dispatch & claims & _ & _ & Hdel & Hwork & _).
  exists dispatch, claims. split; [exact Hdel|exact Hwork].
Defined.

(** ** A configured service *)
Definition gate_urls : UrlParts :=
  {| url_scheme := fun _ => "https"; url_host := Some; url_path := fun _ => "/"; url_username := fun _ => "";
     url_password := fun _ => None; url_query := fun _ => None; url_fragment := fun _ => None |}.
Definition gate_edit : UrlEdit :=
  {| url_set_path := fun u _ => u; url_join := fun u p => Some (u ++ "/" ++ p) |}.
Definition gate_jwt : Jwt :=
  {| EncodingKey := string; from_ed_pem := Some; from_ec_pem := fun _ => None; jwt_encode := fun _ _ _ _ _ => Ok "token" |}.
Definition gate_issuer : CertificateIssuer :=
  issue (H0:=gate_jwt) (@mkStepCaIssuer gate_jwt "https://ca/sign" "agents" "kid" JwtEdDSA "key" (seconds 300)) (seconds 100) (Ok "random").
Definition gate_config : ManagedGatewayConfig :=
  mkGatewayConfig true (Some "Inari") "controller-1" ["2026-10-03"; "2026-01-01"] ["commands:execute"; "managed_work:dispatch"]
    (mkOnboardingConfig true (Some "https://inari.example") (minutes 10) (minutes 5) 3)
    (mkDataPlaneConfig ["tls/router-a:7447"] "inari/gateway" true) (ct_config demo_controller)
    (mkCertificateConfig CertificateStepCa (Some "https://ca") (Some (digest_of "a" ++ digest_of "b")) (Some "agents") (Some "kid")
       (Some "key.pem") SigEdDsa (seconds 300) true)
    (mkDispatchConfig true 1 (Some "signing-1") (Some "dispatch.pem") (seconds 60)) (mkProtectionConfig true "transit" "payload").
Definition gate_service : ManagedGatewayService :=
  mkService gate_config "org_acme" "site_main" true (Some gate_issuer) (Some gate_signer) (Some demo_controller).
Definition gate_request : EnrollmentRequest :=
  mkEnrollmentRequest (mkProtocolDescriptor "2026-01-01" ["2026-01-01"]) toy_agent_id toy_kid toy_identity_jwk
    (mkDispatchEncryptionKey "dispatch_1" DhkemX25519HkdfSha256 (thirty_two "p"))
    (mkJwk (Some toy_key_id) (Some AlgEdDSA) (Some UseSignature) false (OctetKeyPair CrvEd25519 (thirty_two "z"))) "csr" sample_snapshot.
Definition gate_enrollment :=
  enroll gate_service (mkEnrollCall sample_enroll_clock gate_call) (Some (code_manual sample_code)) gate_request (mkWorld demo_2 []).

Lemma enrollment_response_is_backed_witness :
  exists response w', gate_enrollment = (Ok response, w') /\ es_selected_protocol_version response = "2026-01-01" /\
    dl_connect_endpoints (es_data_plane response) <> [].
Proof.
  destruct gate_enrollment as [[response|e] w'] eqn:E; [|vm_compute in E; discriminate E].
  exists response, w'. split; [reflexivity|].
  destruct (enrollment_response_is_backed gate_service (mkEnrollCall sample_enroll_clock gate_call) (Some (code_manual sample_code))
    gate_request (mkWorld demo_2 []) response w' E)
    as (token & code & i & identity & prefix & ad & _ & _ & _ & _ & _ & _ & _ & _ & _ & _ & Hend & _).
  split; [|exact Hend]. assert (fst gate_enrollment = Ok response) as Er by (rewrite E; reflexivity).
  vm_compute in Er. injection Er as <-. reflexivity.
Defined.
Lemma certificate_tokens_are_short_lived_witness :
  exists issuer auth token, StepCaIssuer_load (H0:=gate_jwt) (H1:=gate_urls) (H2:=gate_edit) (gc_certificate gate_config) Some = Ok issuer /\
    issue (H0:=gate_jwt) issuer (seconds 100) (Ok "random") (mkCertificateRequest toy_agent_id ["urn:inari:" ++ toy_agent_id] "csr") = Ok auth /\
    ba_token auth = Some token.
Proof.
  destruct (StepCaIssuer_load (H0:=gate_jwt) (H1:=gate_urls) (H2:=gate_edit) (gc_certificate gate_config) Some) as [issuer|e] eqn:El;
    [|vm_compute in El; discriminate El].
  destruct (issue (H0:=gate_jwt) issuer (seconds 100) (Ok "random") (mkCertificateRequest toy_agent_id ["urn:inari:" ++ toy_agent_id] "csr"))
    as [auth|e] eqn:Ei; [|exfalso; vm_compute in El; injection El as <-; vm_compute in Ei; discriminate Ei].
  destruct (certificate_tokens_are_short_lived (H0:=gate_jwt) (H1:=gate_urls) (H2:=gate_edit) (H3:=Some) (H4:=demo_keys) gate_service Some issuer (seconds 100)
    (Ok "random") (mkCertificateRequest toy_agent_id ["urn:inari:" ++ toy_agent_id] "csr") auth
    ltac:(vm_compute; reflexivity) eq_refl eq_refl El Ei) as (token & random & iat & exp & audience & provisioner & _ & Ht & _).
  exists issuer, auth, token. split; [reflexivity|]. split; [exact Ei|exact Ht].
Defined.
Lemma stored_work_is_well_typed_witness :
  System.reachable gate_ready /\ (agents gate_ready !! demo_agent) <> None /\
  AgentId_from_str demo_agent = Ok demo_agent.
Proof.
  split; [exact gate_ready_reachable|]. split; [vm_compute; discriminate|].
  destruct (agents gate_ready !! demo_agent) as [a|] eqn:Ea; [|vm_compute in Ea; discriminate Ea].
  destruct (stored_work_is_well_typed gate_ready gate_ready_reachable) as (_ & _ & _ & Ht).
  transitivity (AgentId_from_str (ag_agent_id a)); [|exact (Ht demo_agent a Ea)].
  vm_compute in Ea. injection Ea as <-. reflexivity.
Defined.
Definition gate_fields : list string := fingerprint_fields gate_work "WFla" "{}" (seconds 600).
Lemma fingerprint_binds_work_witness :
  fingerprinted gate_work (seconds 600) gate_fields /\
  (base64_decode (content_base64 (dw_document gate_work)) = base64_decode "WFla" \/ framed gate_fields <> framed gate_fields).
Proof.
  assert (fingerprinted gate_work (seconds 600) gate_fields) as Hf by (exists "WFla", "{}"; split_and!; reflexivity).
  split; [exact Hf|].
  assert (framable gate_fields) as Hs.
  { unfold framable, gate_fields, fingerprint_fields. repeat (apply List.Forall_cons; [apply Z.leb_le; vm_compute; reflexivity|]).
    apply List.Forall_nil. }
  destruct (fingerprint_binds_work gate_work (seconds 600) gate_fields gate_work (seconds 600) gate_fields (thirty_two "h")
    Hf Hf Hs Hs ltac:(split; vm_compute; congruence) ltac:(split; vm_compute; congruence)
    ltac:(vm_compute; reflexivity) ltac:(vm_compute; reflexivity)) as [(_ & _ & _ & E & _)|[Hne _]].
  - left. exact E.
  - right. exact Hne.
Defined.
