(* ===== verification/Negotiation.v ===== *)
(** * Content negotiation

    [crates/inari-server/src/zenoh/rest/negotiation.rs]: which representation answers a request with given [Accept]
    headers.  A key by which the code compares with a derived [Ord] is the list of its fields in their order; a field in
    [Reverse] is negated. *)
From S2P Require Import Prelude.

(** [http::HeaderValue]: [to_str] and [from_str]. *)
Class HeaderText := { header_to_str : string -> option string; header_from_str : string -> option string }.

(** ** Representations *)
Inductive ApiBodyFormat : Set := BodyHtml | BodyJson.
Inductive NegotiatedResponse : Set := NegotiatedEventStream | NegotiatedApi (format : ApiBodyFormat).
Definition NegotiatedResponse_DEFAULT : NegotiatedResponse := NegotiatedApi BodyJson.
Inductive ServerRepresentation : Set := RepEventStream | RepHtml | RepJson.
#[global] Instance ServerRepresentation_eq_dec : EqDecision ServerRepresentation.
Proof. solve_decision. Defined.
Definition ServerRepresentation_ALL : list ServerRepresentation := [RepEventStream; RepHtml; RepJson].
Definition negotiated_response (r : ServerRepresentation) : NegotiatedResponse :=
  match r with
  | RepEventStream => NegotiatedEventStream | RepHtml => NegotiatedApi BodyHtml | RepJson => NegotiatedApi BodyJson
  end.
Definition representation_type (r : ServerRepresentation) : string * string :=
  match r with
  | RepEventStream => ("text", "event-stream") | RepHtml => ("text", "html") | RepJson => ("application", "json")
  end.
Definition server_preference (r : ServerRepresentation) : Z :=
  match r with RepEventStream => 0 | RepHtml => 1 | RepJson => 2 end.

(** ** Quality values *)
Definition PositiveQValue_MAX : Z := 1000.
Definition PositiveQValue_new (value : Z) : option Z :=
  if (1 <=? value) && (value <=? PositiveQValue_MAX) then Some value else None.
Inductive QValue : Set := QZero | QPositive (value : Z).
Definition QValue_full : QValue := QPositive PositiveQValue_MAX.
Definition QValue_positive (q : QValue) : option Z := match q with QZero => None | QPositive v => Some v end.

(** [u16] arithmetic. *)
Definition u16 (z : Z) : Z := z mod 65536.
Fixpoint parse_decimals (value : Z) (decimals : string) : Z :=
  match decimals with
  | EmptyString => value
  | String c rest => parse_decimals (u16 (u16 (value * 10) + (code c - 48))) rest
  end.
Fixpoint scale (n : nat) (value : Z) : Z := match n with O => value | S n => scale n (u16 (value * 10)) end.
Definition parse_zero_prefixed_qvalue (decimals : string) : option Z :=
  if (3 <? str_len decimals) || negb (all_bytes is_ascii_digit decimals) then None
  else Some (scale (3 - String.length decimals) (parse_decimals 0 decimals)).
Definition parse_qvalue (value : string) : option QValue :=
  let text := trim value in
  raw ← (if String.eqb text "0" then Some 0
         else if String.eqb text "1" then Some 1000
         else match strip_prefix "0." text with
              | Some decimals => parse_zero_prefixed_qvalue decimals
              | None =>
                  match strip_prefix "1." text with
                  | Some decimals =>
                      if (str_len decimals <=? 3) && all_bytes (fun c => byte_is c 48) decimals then Some 1000 else None
                  | None => None
                  end
              end);
  if raw =? 0 then Some QZero else QPositive <$> PositiveQValue_new raw.

(** ** Media ranges *)
Inductive MediaRangeSpecificity : Set := SpecAny | SpecTypeWildcard | SpecExact.
Record AcceptMediaRange := mkMediaRange { mr_type : string; mr_subtype : string; mr_qvalue : QValue; mr_order : Z }.
(** The last parameter [q] counts; one that does not parse makes the range invalid. *)
Fixpoint range_qvalue (qvalue : QValue) (parameters : list string) : option QValue :=
  match parameters with
  | [] => Some qvalue
  | parameter :: rest =>
      match split_once "="%char (trim parameter) with
      | None => range_qvalue qvalue rest
      | Some (name, value) =>
          if eq_ignore_ascii_case (trim name) "q"
          then match parse_qvalue (trim value) with Some q => range_qvalue q rest | None => None end
          else range_qvalue qvalue rest
      end
  end.
Definition AcceptMediaRange_parse (value : string) (order : Z) : option AcceptMediaRange :=
  match split_on ";"%char value with
  | [] => None
  | media_range :: parameters =>
      types ← split_once "/"%char (trim media_range);
      qvalue ← range_qvalue QValue_full parameters;
      Some (mkMediaRange (trim (fst types)) (trim (snd types)) qvalue order)
  end.
Record AcceptMatch := mkAcceptMatch { am_qvalue : QValue; am_specificity : MediaRangeSpecificity; am_accept_order : Z }.
Definition names_exactly (range : AcceptMediaRange) (r : ServerRepresentation) : bool :=
  eq_ignore_ascii_case (mr_type range) (fst (representation_type r))
  && eq_ignore_ascii_case (mr_subtype range) (snd (representation_type r)).
Definition range_matches (range : AcceptMediaRange) (r : ServerRepresentation) : option AcceptMatch :=
  let exact := names_exactly range r in
  if bool_decide (r = RepEventStream) && negb exact then None else
  specificity ← (if String.eqb (mr_type range) "*" && String.eqb (mr_subtype range) "*" then Some SpecAny
                 else if eq_ignore_ascii_case (mr_type range) (fst (representation_type r)) && String.eqb (mr_subtype range) "*"
                 then Some SpecTypeWildcard
                 else if exact then Some SpecExact else None);
  Some (mkAcceptMatch (mr_qvalue range) specificity (mr_order range)).

(** ** The choice *)
(** [Ordering::Greater] of two keys. *)
Fixpoint key_gtb (a b : list Z) : bool :=
  match a, b with
  | x :: a, y :: b => (y <? x) || ((x =? y) && key_gtb a b)
  | _ :: _, [] => true
  | [], _ => false
  end.
(** [Iterator::max_by_key]: the last of the greatest. *)
Definition max_by_key {A} (key : A -> list Z) (l : list A) : option A :=
  match l with
  | [] => None
  | x :: l => Some (foldl (fun best y => if key_gtb (key best) (key y) then best else y) x l)
  end.
Definition specificity_key (s : MediaRangeSpecificity) : Z := match s with SpecAny => 0 | SpecTypeWildcard => 1 | SpecExact => 2 end.
Definition QValue_key (q : QValue) : list Z := match q with QZero => [0; 0] | QPositive v => [1; v] end.
Definition match_key (m : AcceptMatch) : list Z :=
  (specificity_key (am_specificity m) :: QValue_key (am_qvalue m) ++ [- am_accept_order m])%list.

Record NegotiationScore := mkScore { ns_qvalue : Z; ns_specificity : MediaRangeSpecificity; ns_accept_order : Z; ns_server_preference : Z }.
Definition score_key (s : NegotiationScore) : list Z :=
  [ns_qvalue s; specificity_key (ns_specificity s); - ns_accept_order s; ns_server_preference s].
Definition score_representation (r : ServerRepresentation) (ranges : list AcceptMediaRange) : option NegotiationScore :=
  best ← max_by_key match_key (omap (fun range => range_matches range r) ranges);
  qvalue ← QValue_positive (am_qvalue best);
  Some (mkScore qvalue (am_specificity best) (am_accept_order best) (server_preference r)).
Definition accept_ranges `{HeaderText} (accept : list string) : list AcceptMediaRange :=
  let values := omap header_to_str accept ≫= split_on ","%char in
  omap (fun '(order, value) => AcceptMediaRange_parse value order) (imap (fun i value => (Z.of_nat i, value)) values).
(** [accept]: the values of the [Accept] headers. *)
Definition negotiate_response `{HeaderText} (accept : list string) : NegotiatedResponse :=
  let ranges := accept_ranges accept in
  match ranges with
  | [] => NegotiatedResponse_DEFAULT
  | _ =>
      match max_by_key (fun p => score_key (fst p))
              (omap (fun r => (fun score => (score, r)) <$> score_representation r ranges) ServerRepresentation_ALL) with
      | Some (_, r) => negotiated_response r
      | None => NegotiatedResponse_DEFAULT
      end
  end.

(** ** Tests of the source *)
Module NegotiationToy.
#[export] Instance plain_header : HeaderText := {| header_to_str := Some; header_from_str := Some |}.
Example absent : negotiate_response [] = NegotiatedApi BodyJson.
Proof. reflexivity. Qed.
Example quality : negotiate_response ["text/html;q=0.1, application/json;q=0.9"] = NegotiatedApi BodyJson.
Proof. reflexivity. Qed.
Example first : negotiate_response ["text/html, application/json"] = NegotiatedApi BodyHtml.
Proof. reflexivity. Qed.
Example zero : negotiate_response ["text/html;q=0, text/*;q=1, */*;q=0.5"] = NegotiatedApi BodyJson.
Proof. reflexivity. Qed.
Example text : negotiate_response ["text/*"] = NegotiatedApi BodyHtml.
Proof. reflexivity. Qed.
Example stream : negotiate_response ["text/event-stream"] = NegotiatedEventStream.
Proof. reflexivity. Qed.
Example repeated : negotiate_response ["text/html;q=0.5"; "application/json;q=0.9"] = NegotiatedApi BodyJson.
Proof. reflexivity. Qed.
Example thousandths : parse_qvalue "0.12" = Some (QPositive 120) /\ parse_qvalue "1." = Some (QPositive 1000) /\ parse_qvalue "0." = Some QZero.
Proof. split_and!; reflexivity. Qed.
End NegotiationToy.

(** ** The greatest key *)
Lemma key_gtb_asym a : forall b, key_gtb a b = true -> key_gtb b a = false.
Proof.
  induction a as [|x a IH]; intros [|y b]; simpl; try done. intros [Hl|[He Hr]%andb_prop]%orb_prop.
  - apply Z.ltb_lt in Hl. rewrite (proj2 (Z.ltb_ge _ _)), (proj2 (Z.eqb_neq y x)) by lia. done.
  - apply Z.eqb_eq in He as ->. by rewrite Z.ltb_irrefl, Z.eqb_refl, (IH _ Hr).
Qed.
Lemma key_gtb_trans a : forall b c, key_gtb b a = false -> key_gtb c b = false -> key_gtb c a = false.
Proof.
  induction a as [|x a IH]; intros [|y b] [|z c]; simpl; try done.
  rewrite !orb_false_iff, !andb_false_iff, !Z.ltb_ge, !Z.eqb_neq. intros [H1 H2] [H3 H4]. split; [lia|].
  destruct (Z.eq_dec z x); [|by left]. right.
  destruct H2 as [?|H2], H4 as [?|H4]; try lia. eauto.
Qed.
Lemma key_gtb_irrefl a : key_gtb a a = false.
Proof. induction a as [|x a IH]; [done|]. simpl. by rewrite Z.ltb_irrefl, Z.eqb_refl, IH. Qed.
(** Keys of one length that are not greater either way are equal. *)
Lemma key_gtb_total a : forall b, length a = length b -> key_gtb a b = false -> key_gtb b a = false -> a = b.
Proof.
  induction a as [|x a IH]; intros [|y b]; simpl; try done. intros [= Hl].
  rewrite !orb_false_iff, !andb_false_iff, !Z.ltb_ge, !Z.eqb_neq. intros [H1 H2] [H3 H4].
  assert (x = y) as -> by lia. f_equal. destruct H2, H4; try done. eauto.
Qed.
Lemma key_gtb_cons x a y b : key_gtb (x :: a) (y :: b) = false <-> x < y \/ x = y /\ key_gtb a b = false.
Proof. cbn [key_gtb]. rewrite orb_false_iff, andb_false_iff, Z.ltb_ge, Z.eqb_neq. destruct (Z.eq_dec x y); intuition lia. Qed.
Section Max.
Context {A : Type} (key : A -> list Z).
Notation best_of := (foldl (fun best y => if key_gtb (key best) (key y) then best else y)).
Lemma best_of_spec l : forall x, let m := best_of x l in
  m ∈ x :: l /\ forall y, y ∈ x :: l -> key_gtb (key y) (key m) = false.
Proof.
  induction l as [|z l IH]; intros x; simpl.
  - split; [by left|]. intros y ->%list_elem_of_singleton. apply key_gtb_irrefl.
  - destruct (key_gtb (key x) (key z)) eqn:E; [destruct (IH x) as [Hin Hmax]|destruct (IH z) as [Hin Hmax]]; split.
    + apply elem_of_cons in Hin as [->|Hin]; [by left|by do 2 right].
    + intros y [->|[->|Hy]%elem_of_cons]%elem_of_cons; [apply Hmax; by left| |apply Hmax; by right].
      eapply key_gtb_trans; [apply Hmax; by left|]. by apply key_gtb_asym.
    + by right.
    + intros y [->|Hy]%elem_of_cons; [|by apply Hmax]. eapply key_gtb_trans; [apply Hmax; by left|done].
Qed.
Lemma max_by_key_Some l m : max_by_key key l = Some m -> m ∈ l /\ forall y, y ∈ l -> key_gtb (key y) (key m) = false.
Proof. destruct l as [|x l]; [done|]. intros [= <-]. apply best_of_spec. Qed.
Lemma max_by_key_None l : max_by_key key l = None <-> l = [].
Proof. by destruct l. Qed.
End Max.

(** ** Correctness of the choice *)
Section Choice.
Context `{HeaderText}.
(** The representation whose score no other exceeds. *)
Definition preferred (ranges : list AcceptMediaRange) (r : ServerRepresentation) (s : NegotiationScore) : Prop :=
  score_representation r ranges = Some s /\
  forall r' s', score_representation r' ranges = Some s' -> key_gtb (score_key s') (score_key s) = false.
Lemma score_preference r ranges s : score_representation r ranges = Some s -> ns_server_preference s = server_preference r.
Proof.
  unfold score_representation. destruct (max_by_key _ _) as [m|]; [|done]. simpl.
  destruct (QValue_positive _); [|done]. simpl. by intros [= <-].
Qed.
Lemma representation_all r : r ∈ ServerRepresentation_ALL.
Proof. unfold ServerRepresentation_ALL. destruct r; set_solver. Qed.
Lemma score_no_ranges r : score_representation r [] = None.
Proof. done. Qed.
Lemma scored_elem ranges s r : (s, r) ∈ omap (fun r => (fun score => (score, r)) <$> score_representation r ranges) ServerRepresentation_ALL <->
  score_representation r ranges = Some s.
Proof.
  rewrite list_elem_of_omap. split.
  - intros (r0 & _ & E). destruct (score_representation r0 ranges) eqn:Es; [|done]. simpl in E. by injection E as -> ->.
  - intros E. exists r. split; [apply representation_all|]. by rewrite E.
Qed.
Lemma negotiate_cases accept : let ranges := accept_ranges accept in
  (exists r s, preferred ranges r s /\ negotiate_response accept = negotiated_response r) \/
  ((forall r, score_representation r ranges = None) /\ negotiate_response accept = NegotiatedApi BodyJson).
Proof.
  intros ranges. unfold negotiate_response. fold ranges. generalize ranges as l. clear ranges.
  intros l. assert (l = [] \/ l <> []) as [->|Hl] by (destruct l; [by left|by right]); [right; split; [|done]; apply score_no_ranges|].
  set (scored := omap _ _).
  assert (match l with [] => NegotiatedResponse_DEFAULT | _ =>
            match max_by_key (fun p => score_key (fst p)) scored with
            | Some (_, r) => negotiated_response r | None => NegotiatedResponse_DEFAULT end end =
          match max_by_key (fun p => score_key (fst p)) scored with
          | Some (_, r) => negotiated_response r | None => NegotiatedResponse_DEFAULT end) as -> by by destruct l.
  destruct (max_by_key _ _) as [[s r]|] eqn:E.
  - left. apply max_by_key_Some in E as [Hin Hmax]. exists r, s. split; [|done]. apply scored_elem in Hin. split; [done|].
    intros r' s' Hs'. by apply (Hmax (s', r')), scored_elem.
  - right. apply max_by_key_None in E. split; [|done]. intros r.
    destruct (score_representation r l) as [s|] eqn:Es; [|done].
    apply scored_elem in Es. fold scored in Es. rewrite E in Es. by apply elem_of_nil in Es.
Qed.
End Choice.

(** ** Quality values are exact *)
(** The number that decimal digits write. *)
Fixpoint decimal (value : Z) (digits : string) : Z :=
  match digits with EmptyString => value | String c rest => decimal (value * 10 + (code c - 48)) rest end.
Lemma parse_decimals_exact d : forall v n, all_bytes is_ascii_digit d = true -> 0 <= v < 10 ^ n -> 0 <= n -> n + str_len d <= 3 ->
  parse_decimals v d = decimal v d /\ 0 <= decimal v d < 10 ^ (n + str_len d).
Proof.
  induction d as [|c d IH]; intros v n Hd Hv Hn Hl; simpl.
  - unfold str_len. simpl. rewrite Z.add_0_r. done.
  - simpl in Hd. apply andb_prop in Hd as [Hc Hd]. unfold is_ascii_digit, byte_in in Hc. bools.
    assert (str_len (String c d) = 1 + str_len d) as El by (unfold str_len; simpl; lia). rewrite El in *.
    pose proof (str_len_nonneg d).
    assert (0 <= v * 10 + (code c - 48) < 10 ^ (n + 1)) as Hb by (rewrite Z.pow_add_r by lia; change (10 ^ 1) with 10; lia).
    assert (10 ^ (n + 1) <= 10 ^ 3) as Hm by (apply Z.pow_le_mono_r; lia).
    destruct (IH (v * 10 + (code c - 48)) (n + 1)) as [E B]; [done|done|lia|lia|].
    change (10 ^ 3) with 1000 in Hm. unfold u16. rewrite (Z.mod_small (v * 10)) by lia. rewrite Z.mod_small by lia. rewrite E. split; [done|]. by replace (n + (1 + str_len d)) with (n + 1 + str_len d) by lia.
Qed.
Lemma scale_exact n : forall v, 0 <= v -> v * 10 ^ Z.of_nat n < 65536 -> scale n v = v * 10 ^ Z.of_nat n.
Proof.
  induction n as [|n IH]; intros v H0 Hv; [simpl; lia|]. rewrite Nat2Z.inj_succ, Z.pow_succ_r in Hv |- * by lia. simpl.
  assert (1 <= 10 ^ Z.of_nat n) by (apply Z.lt_pred_le; apply Z.pow_pos_nonneg; lia).
  unfold u16. rewrite Z.mod_small by nia. rewrite IH by nia. lia.
Qed.
(** Fractions of at most three digits become exact thousandths without overflow, and a quality value that parses is
    zero or between one and a thousand thousandths. *)
Theorem qvalues_are_exact_thousandths :
  (forall d, str_len d <= 3 -> all_bytes is_ascii_digit d = true ->
    parse_zero_prefixed_qvalue d = Some (decimal 0 d * 10 ^ (3 - str_len d)) /\ 0 <= decimal 0 d * 10 ^ (3 - str_len d) < 1000) /\
  (forall v q, parse_qvalue v = Some q -> q = QZero \/ exists n, q = QPositive n /\ 1 <= n <= 1000).
Proof.
  split.
  - intros d Hl Hd. pose proof (str_len_nonneg d). unfold parse_zero_prefixed_qvalue.
    rewrite (proj2 (Z.ltb_ge _ _)), Hd by lia. simpl.
    destruct (parse_decimals_exact d 0 0) as [E B]; [done|simpl; lia|lia|lia|]. rewrite Z.add_0_l in B. rewrite E.
    assert (Z.of_nat (3 - String.length d) = 3 - str_len d) as Ez by (unfold str_len in *; lia).
    assert (10 ^ str_len d * 10 ^ (3 - str_len d) = 1000) as Ep.
    { rewrite <- Z.pow_add_r by lia. by replace (str_len d + (3 - str_len d)) with 3 by lia. }
    assert (0 < 10 ^ (3 - str_len d)) by (apply Z.pow_pos_nonneg; lia).
    assert (decimal 0 d * 10 ^ (3 - str_len d) < 1000) by nia.
    rewrite scale_exact, Ez by (rewrite ?Ez; lia). split; [done|]. split; [nia|done].
  - intros v q. unfold parse_qvalue. intros (raw & _ & Hq)%bind_Some. destruct (raw =? 0); [injection Hq as <-; by left|].
    right. unfold PositiveQValue_new, PositiveQValue_MAX in Hq. destruct (_ && _) eqn:E; [|done]. simpl in Hq. injection Hq as <-.
    bools. exists raw. split; [done|lia].
Qed.

(** ** A reference for the choice *)
(** How a quality is written: ["0"] or ["1"], alone or with at most three decimals, which are zeros after a ["1"]; in
    thousandths. *)
Inductive written_quality : string -> Z -> Prop :=
| written_zero : written_quality "0" 0
| written_one : written_quality "1" 1000
| written_fraction d : str_len d <= 3 -> all_bytes is_ascii_digit d = true ->
    written_quality ("0." ++ d) (decimal 0 d * 10 ^ (3 - str_len d))
| written_full d : str_len d <= 3 -> all_bytes (fun c => byte_is c 48) d = true -> written_quality ("1." ++ d) 1000.
Definition quality (q : QValue) : Z := match q with QZero => 0 | QPositive v => v end.
Definition quality_wf (q : QValue) : Prop := match q with QZero => True | QPositive v => 1 <= v <= 1000 end.
(** How closely a range describes a representation: not at all, as anything, by its type, by its name.  An event stream
    is described only by its name. *)
Definition covers (range : AcceptMediaRange) (r : ServerRepresentation) : option Z :=
  let is_type := eq_ignore_ascii_case (mr_type range) in
  let is_subtype := eq_ignore_ascii_case (mr_subtype range) in
  let anything := String.eqb (mr_type range) "*" && String.eqb (mr_subtype range) "*" in
  match r with
  | RepEventStream => if is_type "text" && is_subtype "event-stream" then Some 2 else None
  | RepHtml =>
      if anything then Some 0 else if is_type "text" && String.eqb (mr_subtype range) "*" then Some 1
      else if is_type "text" && is_subtype "html" then Some 2 else None
  | RepJson =>
      if anything then Some 0 else if is_type "application" && String.eqb (mr_subtype range) "*" then Some 1
      else if is_type "application" && is_subtype "json" then Some 2 else None
  end.
(** What the ranges say of a representation is what the closest of them says; of several as close, the one of the highest
    quality, and of these the first. *)
Record Grade := mkGrade { gr_quality : Z; gr_level : Z; gr_order : Z }.
Definition graded (ranges : list AcceptMediaRange) (r : ServerRepresentation) (g : Grade) : Prop :=
  exists range, range ∈ ranges /\ covers range r = Some (gr_level g) /\ quality (mr_qvalue range) = gr_quality g /\
    mr_order range = gr_order g /\
    forall other level, other ∈ ranges -> covers other r = Some level ->
      level < gr_level g \/ level = gr_level g /\
        (quality (mr_qvalue other) < gr_quality g \/ quality (mr_qvalue other) = gr_quality g /\ gr_order g <= mr_order other).
(** The quality decides, then how closely the range describes, then which comes first; of two that one range describes,
    JSON goes before HTML, and HTML before an event stream. *)
Definition at_least (g : Grade) (r : ServerRepresentation) (g' : Grade) (r' : ServerRepresentation) : Prop :=
  gr_quality g' < gr_quality g \/ gr_quality g' = gr_quality g /\
    (gr_level g' < gr_level g \/ gr_level g' = gr_level g /\
      (gr_order g < gr_order g' \/ gr_order g = gr_order g' /\ (r = r' \/ r = RepJson \/ r' = RepEventStream))).

Lemma parse_qvalue_written v q : parse_qvalue v = Some q <-> exists n, written_quality (trim v) n /\ q = if n =? 0 then QZero else QPositive n.
Proof.
  unfold parse_qvalue. generalize (trim v) as t. intros t. split.
  - intros (raw & Hraw & Hq)%bind_Some. exists raw.
    assert (written_quality t raw /\ 0 <= raw <= 1000) as [Hw Hb].
    { destruct (String.eqb_spec t "0") as [E|_]; [simplify_eq; split; [constructor|lia]|].
      destruct (String.eqb_spec t "1") as [E|_]; [simplify_eq; split; [constructor|lia]|].
      destruct (strip_prefix "0." t) as [d|] eqn:E0.
      - apply strip_prefix_Some in E0 as E. rewrite E. unfold parse_zero_prefixed_qvalue in Hraw. destruct (_ || _) eqn:Eb; [done|]. bools.
        destruct (proj1 qvalues_are_exact_thousandths d) as [Hd Hd']; [lia|done|].
        unfold parse_zero_prefixed_qvalue in Hd. rewrite (proj2 (Z.ltb_ge _ _)) in Hd by lia. rewrite H0 in Hd. cbn [negb orb] in Hd.
        assert (raw = decimal 0 d * 10 ^ (3 - str_len d)) as -> by congruence. split; [by constructor; [lia|]|lia].
      - destruct (strip_prefix "1." t) as [d|] eqn:E1; [|done]. apply strip_prefix_Some in E1 as E. rewrite E.
        destruct (_ && _) eqn:Eb; [|done]. bools. simplify_eq. split; [by constructor|lia]. }
    split; [done|]. destruct (raw =? 0) eqn:Er; [congruence|]. bools. unfold PositiveQValue_new, PositiveQValue_MAX in Hq.
    rewrite (proj2 (Z.leb_le 1 raw)), (proj2 (Z.leb_le raw 1000)) in Hq by lia. cbn in Hq. congruence.
  - intros (n & Hw & ->). destruct Hw as [| |d Hl Hd|d Hl Hd]; [done|done| |].
    + change (String.eqb ("0." ++ d) "0") with false. change (String.eqb ("0." ++ d) "1") with false.
      rewrite strip_prefix_app. destruct (proj1 qvalues_are_exact_thousandths d Hl Hd) as [-> Hb]. cbn [mbind option_bind].
      destruct (_ =? 0) eqn:Er; [done|]. bools. unfold PositiveQValue_new, PositiveQValue_MAX.
      by rewrite (proj2 (Z.leb_le _ _)), (proj2 (Z.leb_le _ 1000)) by lia.
    + change (String.eqb ("1." ++ d) "0") with false. change (String.eqb ("1." ++ d) "1") with false.
      change (strip_prefix "0." ("1." ++ d)) with (None (A := string)). rewrite strip_prefix_app, Hd, (proj2 (Z.leb_le _ _)) by lia. done.
Qed.
Lemma range_qvalue_wf parameters : forall q q', quality_wf q -> range_qvalue q parameters = Some q' -> quality_wf q'.
Proof.
  induction parameters as [|p parameters IH]; intros q q' Hq; cbn [range_qvalue]; [congruence|].
  destruct (split_once _ _) as [[name value]|]; [|by apply IH]. destruct (eq_ignore_ascii_case _ _); [|by apply IH].
  destruct (parse_qvalue _) as [q1|] eqn:E; [|done]. apply IH.
  destruct (proj2 qvalues_are_exact_thousandths _ _ E) as [->|(n & -> & Hn)]; [done|exact Hn].
Qed.
Lemma accept_ranges_wf `{HeaderText} accept : Forall (fun range => quality_wf (mr_qvalue range)) (accept_ranges accept).
Proof.
  apply list.Forall_forall. intros range ([order value] & _ & E)%list_elem_of_omap. unfold AcceptMediaRange_parse in E.
  destruct (split_on _ _) as [|m parameters]; [done|]. apply bind_Some in E as (types & _ & (q & Hq & [= <-])%bind_Some).
  eapply range_qvalue_wf; [|exact Hq]. done.
Qed.
(** The code describes a representation the way the reference does. *)
Lemma range_matches_covers range r : match range_matches range r with
  | Some m => covers range r = Some (specificity_key (am_specificity m)) /\ am_qvalue m = mr_qvalue range /\ am_accept_order m = mr_order range
  | None => covers range r = None
  end.
Proof.
  unfold range_matches, covers, names_exactly.
  destruct (String.eqb_spec (mr_type range) "*") as [Et|_]; [rewrite Et|];
    (destruct (String.eqb_spec (mr_subtype range) "*") as [Es|_]; [rewrite Es|]); destruct r; cbn [representation_type fst snd];
    rewrite ?bool_decide_true, ?bool_decide_false, ?andb_true_r, ?andb_false_r by done; cbn -[eq_ignore_ascii_case]; try done;
    repeat (destruct (eq_ignore_ascii_case _ _); cbn; try done).
Qed.
Definition grade_of (m : AcceptMatch) : Grade := mkGrade (quality (am_qvalue m)) (specificity_key (am_specificity m)) (am_accept_order m).
Lemma match_key_le m m' : quality_wf (am_qvalue m) -> quality_wf (am_qvalue m') -> key_gtb (match_key m') (match_key m) = false ->
  let g := grade_of m in let g' := grade_of m' in
  gr_level g' < gr_level g \/ gr_level g' = gr_level g /\ (gr_quality g' < gr_quality g \/ gr_quality g' = gr_quality g /\ gr_order g <= gr_order g').
Proof.
  unfold match_key, grade_of. cbn [gr_level gr_quality gr_order].
  generalize (specificity_key (am_specificity m)) (specificity_key (am_specificity m')). intros l l'.
  destruct (am_qvalue m) as [|v], (am_qvalue m') as [|v']; cbn -[Z.ltb Z.eqb]; rewrite ?orb_false_r, ?orb_false_iff, ?andb_false_iff;
    rewrite ?Z.ltb_ge, ?Z.eqb_neq; intros; lia.
Qed.
Section Reference.
Variable ranges : list AcceptMediaRange.
Hypothesis Hwf : Forall (fun range => quality_wf (mr_qvalue range)) ranges.
Lemma best_match_wf r m : max_by_key match_key (omap (fun range => range_matches range r) ranges) = Some m -> quality_wf (am_qvalue m).
Proof.
  intros [(range & Hin & Hm)%list_elem_of_omap _]%max_by_key_Some. pose proof (range_matches_covers range r) as Hc. rewrite Hm in Hc.
  destruct Hc as (_ & -> & _). by apply (proj1 (list.Forall_forall _ _) Hwf range).
Qed.
Lemma best_match_graded r m : max_by_key match_key (omap (fun range => range_matches range r) ranges) = Some m -> graded ranges r (grade_of m).
Proof.
  intros [(range & Hin & Hm)%list_elem_of_omap Hmax]%max_by_key_Some. pose proof (proj1 (list.Forall_forall _ _) Hwf) as Hq.
  pose proof (range_matches_covers range r) as Hc. rewrite Hm in Hc. destruct Hc as (Hc & Eq & Eo).
  exists range. cbn. rewrite Eq. split_and!; try done. intros other level Ho Hl.
  pose proof (range_matches_covers other r) as Hc'. destruct (range_matches other r) as [m'|] eqn:Em'; [|congruence].
  destruct Hc' as (Hc' & Eq' & Eo'). assert (level = specificity_key (am_specificity m')) as -> by congruence.
  pose proof (match_key_le m m') as Hle. rewrite <- Eq, <- Eq', <- Eo'. apply Hle; [rewrite Eq; by apply (Hq range)|rewrite Eq'; by apply (Hq other)|].
  apply Hmax, list_elem_of_omap. eauto.
Qed.
Lemma graded_unique r g g' : graded ranges r g -> graded ranges r g' -> g = g'.
Proof.
  intros (x & Hx & Cx & Qx & Ox & Mx) (y & Hy & Cy & Qy & Oy & My). specialize (Mx y _ Hy Cy). specialize (My x _ Hx Cx).
  destruct g, g'; cbn in *. assert (gr_level0 = gr_level1) as <- by lia. assert (gr_quality0 = gr_quality1) as <- by lia. f_equal. lia.
Qed.
Definition score_grade (s : NegotiationScore) : Grade := mkGrade (ns_qvalue s) (specificity_key (ns_specificity s)) (ns_accept_order s).
Lemma score_graded r s : score_representation r ranges = Some s -> graded ranges r (score_grade s) /\ 0 < gr_quality (score_grade s).
Proof.
  unfold score_representation. destruct (max_by_key _ _) as [m|] eqn:E; [|done]. pose proof (best_match_wf r m E) as Hq.
  apply best_match_graded in E. cbn. unfold grade_of in E. destruct (am_qvalue m) as [|v] eqn:Eq; [done|]. intros [= <-].
  split; [done|]. cbn in *. lia.
Qed.
Lemma graded_scored r g : graded ranges r g -> 0 < gr_quality g -> exists s, score_representation r ranges = Some s /\ score_grade s = g.
Proof.
  intros Hg Hpos. unfold score_representation. destruct (max_by_key _ _) as [m|] eqn:E.
  - apply best_match_graded in E. assert (g = grade_of m) as -> by (by eapply graded_unique). unfold grade_of in Hpos. cbn in Hpos.
    destruct (am_qvalue m) as [|v] eqn:Eq; [cbn in Hpos; lia|]. cbn [mbind option_bind]; rewrite Eq; cbn [QValue_positive]. eexists. split; [reflexivity|]. unfold score_grade, grade_of. by rewrite Eq.
  - apply max_by_key_None in E. destruct Hg as (range & Hin & Hc & _). pose proof (range_matches_covers range r) as Hm.
    destruct (range_matches range r) as [m|] eqn:Em; [|congruence].
    assert (m ∈ omap (fun range => range_matches range r) ranges) as Hx by (apply list_elem_of_omap; eauto). rewrite E in Hx. by apply elem_of_nil in Hx.
Qed.
Lemma score_key_le r s r' s' : score_representation r ranges = Some s -> score_representation r' ranges = Some s' ->
  key_gtb (score_key s') (score_key s) = false -> at_least (score_grade s) r (score_grade s') r'.
Proof.
  intros Hs%score_preference Hs'%score_preference. unfold score_key, at_least, score_grade. rewrite Hs, Hs'. cbn [gr_quality gr_level gr_order].
  generalize (specificity_key (ns_specificity s)) (specificity_key (ns_specificity s')). intros l l'.
  rewrite !key_gtb_cons. intros [?|[Eq [?|[El [?|[Eo [Hr|[Hr _]]]]]]]]; [by left|right; split; [done|]..]; [by left|right; split; [done|]..];
    [left; lia|right; split; [lia|]..]; destruct r, r'; cbn in Hr; try lia; auto.
Qed.
End Reference.

(** C40: Negotiation is best choice.  Take the ranges of the [Accept] headers, with the qualities they write, in thousandths.
    A range describes a representation as anything, by its type or by its name, an event stream only by its name; what the
    ranges say of a representation is what the closest of them says, and of several as close the one of the highest
    quality and then the first.  When some representation is asked for with a quality above zero, one of those is served,
    and none of the others is better: in quality, then in how closely it is described, then in which comes first, and
    where one range describes both, JSON goes before HTML.  Otherwise JSON is served. *)
Theorem negotiation_is_best_choice `{HeaderText} accept : let ranges := accept_ranges accept in
  ((exists r g, graded ranges r g /\ 0 < gr_quality g /\ negotiate_response accept = negotiated_response r /\
      forall r' g', graded ranges r' g' -> 0 < gr_quality g' -> at_least g r g' r') \/
   (forall r g, graded ranges r g -> gr_quality g <= 0) /\ negotiate_response accept = NegotiatedApi BodyJson) /\
  (forall v q, parse_qvalue v = Some q <-> exists n, written_quality (trim v) n /\ q = if n =? 0 then QZero else QPositive n).
Proof.
  intros ranges. split; [|apply parse_qvalue_written]. pose proof (accept_ranges_wf accept) as Hwf. fold ranges in Hwf.
  pose proof (negotiate_cases accept) as Hc. cbv zeta in Hc. fold ranges in Hc. destruct Hc as [(r & s & [Hs Hm] & ->)|[Hn ->]].
  - left. destruct (score_graded ranges Hwf r s Hs) as [Hg Hpos]. exists r, (score_grade s). split_and!; try done.
    intros r' g' Hg' Hpos'. destruct (graded_scored ranges Hwf r' g' Hg' Hpos') as (s' & Hs' & <-).
    eapply score_key_le; eauto.
  - right. split; [|done]. intros r g Hg. destruct (Z.le_gt_cases (gr_quality g) 0) as [|Hpos]; [done|].
    destruct (graded_scored ranges Hwf r g Hg) as (s & Hs & _); [lia|]. by rewrite Hn in Hs.
Qed.
(** HTML is refused by name, and then asked for as text. *)
#[local] Existing Instance NegotiationToy.plain_header.
Definition toy_accept : list string := ["text/html;q=0, text/*;q=1, */*;q=0.5"].
Lemma toy_ranges : accept_ranges toy_accept =
  [mkMediaRange "text" "html" QZero 0; mkMediaRange "text" "*" (QPositive 1000) 1; mkMediaRange "*" "*" (QPositive 500) 2].
Proof. vm_compute. reflexivity. Qed.
Lemma negotiation_is_best_choice_witness : negotiate_response toy_accept = NegotiatedApi BodyJson /\
  exists g, graded (accept_ranges toy_accept) RepJson g /\ 0 < gr_quality g.
Proof.
  destruct (negotiation_is_best_choice toy_accept) as [[(r & g & Hg & Hpos & E & _)|[_ E]] _].
  - split; [reflexivity|]. exists g. destruct r; [discriminate E|discriminate E|]. exact (conj Hg Hpos).
  - split; [exact E|]. exists (mkGrade 500 0 2). split; [|reflexivity]. exists (mkMediaRange "*" "*" (QPositive 500) 2).
    rewrite toy_ranges. split; [by do 2 right; left|]. split; [reflexivity|]. split; [reflexivity|]. split; [reflexivity|].
    intros other level Ho Hl. rewrite !elem_of_cons, elem_of_nil in Ho.
    destruct Ho as [->|[->|[->|[]]]]; vm_compute in Hl; try discriminate. injection Hl as <-. right. split; [reflexivity|]. right. split; [reflexivity|]. cbn; lia.
Defined.
