(* ===== verification/Identity.v ===== *)
(** * Organization login, sessions and workload identities

    [crates/inari-server/src/identity] and [http/routes/auth.rs]: the OIDC login of operators, the session that holds
    their identity, and the access tokens of the Organization's own software (workloads).  A request sees its session
    as a value that it changes, also when it fails; the store behind it may fail at every operation.  OpenID Connect,
    JSON Web Tokens and the random values of a login are third-party.  The texts that a decoder adds to its message are
    left out. *)
From stdpp Require Import relations.
From S2P Require Import Prelude Json Errors Identifiers Protocol InvitationCode Security ServerErrors.

(** ** Data *)
Record PendingLogin := mkPendingLogin {
  pn_state : string;
  pn_nonce : string;
  pn_pkce_verifier : string;
  pn_return_to : string;
}.
Record LoginChallenge := mkLoginChallenge { lc_authorize_url : string; lc_pending : PendingLogin }.
Record WorkloadIdentity := mkWorkloadIdentity {
  wi_actor_id : string;
  wi_database : string;
  wi_company_id : string;
  wi_organization_id : string;
  wi_scopes : gset string;
  wi_expires_at : instant;
}.
Record WorkloadClaims := mkWorkloadClaims {
  wc_sub : string;
  wc_exp : Z;
  wc_inari_database : string;
  wc_inari_company_id : string;
  wc_inari_organization_id : string;
  wc_inari_permissions : list string;
}.

(** ** Third-party functions *)
(** [jsonwebtoken::Algorithm]. *)
Inductive Algorithm : Set := HS256 | HS384 | HS512 | ES256 | ES384 | RS256 | RS384 | RS512 | PS256 | PS384 | PS512 | EdDSA.
Record JwtHeader := mkJwtHeader { jh_alg : Algorithm; jh_kid : option string }.
(** [jsonwebtoken]: [decode_header], [JwkSet::find], [DecodingKey::from_jwk], and [decode] under a [Validation] with the
    given algorithm, audience, issuer and leeway that requires the claims [exp], [sub], [aud] and [iss]. *)
Class JwtValidation := {
  jwk : Type;
  decoding_key : Type;
  decode_header : string -> option JwtHeader;
  decoding_key_from_jwk : jwk -> option decoding_key;
  jwt_decode : string -> decoding_key -> Algorithm -> string -> string -> Z -> option WorkloadClaims;
}.
(** [chrono::DateTime::from_timestamp(seconds, 0)]. *)
Class FromTimestamp := from_timestamp : Z -> option instant.
(** [serde_json::from_slice] to a map. *)
Class JsonObjectText := object_from_slice : string -> option (list (string * Value)).

Record IdTokenClaims := mkIdTokenClaims {
  ic_subject : string;
  ic_email : option string;
  ic_expiration : instant;
  ic_authorized_party : option string;
  ic_audiences : list string;
  ic_access_token_hash : option string;
}.
(** [openidconnect]: the exchange of a code with its PKCE verifier, an ID token's verified claims for a client, a trust
    function for further audiences and a nonce, its signing algorithm and key, and the hash of an access token. *)
Class OpenIdConnect := {
  id_token : Type;
  id_token_text : id_token -> string;
  authorize_url : list string -> PendingLogin -> string;
  exchange_code : string -> string -> result string (string * option id_token);
  token_claims : string -> (string -> bool) -> string -> id_token -> result string IdTokenClaims;
  signing_alg : id_token -> result string string;
  signing_key : id_token -> result string string;
  access_token_hash : string -> string -> string -> result string string;
}.

(** ** The identity service *)
Section Service.
Context `{Encoding, Sha256, JwtValidation, FromTimestamp, JsonObjectText, OpenIdConnect}.

Record IdentityService := mkIdentityService {
  is_client_id : string;
  is_issuer : string;
  is_additional_id_token_audiences : list string;
  is_workload_audience : string;
  is_workload_jwks : gmap string jwk;
  is_scopes : list string;
  is_role_claim : string;
  is_role_mapping : gmap string AccessRole;
}.
Context (self : IdentityService).

(** The random values of a login are arguments. *)
Definition begin_login (state nonce pkce_verifier return_to : string) : LoginChallenge :=
  let pending := mkPendingLogin state nonce pkce_verifier return_to in
  mkLoginChallenge (authorize_url (is_scopes self) pending) pending.

Definition or_unauthorized {A} (message : string) (r : result string A) : AppResult A :=
  match r with Ok a => Ok a | Err source => Err (unauthorized (message ++ source)) end.
Definition trust_id_token_audiences (audience : string) : bool :=
  List.existsb (fun trusted => String.eqb trusted audience) (is_additional_id_token_audiences self).
(** The audiences are verified by the library, the authorized party here. *)
Definition verified_id_token_claims (token : id_token) (nonce : string) : AppResult IdTokenClaims :=
  claims ← or_unauthorized "OIDC ID token validation failed: "
             (token_claims (is_client_id self) trust_id_token_audiences nonce token);
  match ic_authorized_party claims with
  | Some authorized_party =>
      _ ← ensure (String.eqb authorized_party (is_client_id self))
            (unauthorized "OIDC authorized party did not match this client.");
      Ok claims
  | None =>
      _ ← ensure (negb (1 <? length (ic_audiences claims))%nat)
            (unauthorized "OIDC ID token with multiple audiences requires an authorized party.");
      Ok claims
  end.

Definition jwt_claims (token : string) : AppResult (list (string * Value)) :=
  payload ← ok_or (split_on "."%char token !! 1%nat) (unauthorized "OIDC ID token does not contain a claims payload.");
  decoded ← ok_or (base64url_decode payload) (unauthorized "OIDC claims payload is invalid: ");
  ok_or (object_from_slice decoded) (unauthorized "OIDC claims payload is invalid: ").
(** [serde_json::Map::get]. *)
Fixpoint object_get (name : string) (fields : list (string * Value)) : option Value :=
  match fields with
  | [] => None
  | (k, v) :: rest => if String.eqb name k then Some v else object_get name rest
  end.
Definition claim_values (claim : option Value) : list string :=
  match claim with
  | Some (VString value) => [value]
  | Some (VArray values) => omap (fun v => match v with VString s => Some s | _ => None end) values
  | Some (VObject values) => fst <$> values
  | _ => []
  end.
(** Collecting into a [BTreeSet] sorts by the order of declaration and drops duplicates. *)
Definition role_set (roles : list AccessRole) : list AccessRole :=
  filter (fun r => r ∈ roles) [Viewer; Operator; EnrollmentAdmin; Administrator].
Definition mapped_roles (claim : option Value) : list AccessRole :=
  role_set (omap (fun value => is_role_mapping self !! value) (claim_values claim)).

Definition check_access_token_hash (token : id_token) (access_token : string) (claims : IdTokenClaims) : AppResult unit :=
  match ic_access_token_hash claims with
  | None => Ok tt
  | Some expected_hash =>
      alg ← or_unauthorized "OIDC signing algorithm is invalid: " (signing_alg token);
      key ← or_unauthorized "OIDC signing key is invalid: " (signing_key token);
      actual_hash ← or_unauthorized "OIDC access-token hash is invalid: " (access_token_hash access_token alg key);
      ensure (String.eqb actual_hash expected_hash) (unauthorized "OIDC access-token hash did not match.")
  end.
Definition complete_login (code : string) (pending : PendingLogin) : AppResult SessionIdentity :=
  response ← or_unauthorized "OIDC authorization code was not accepted: " (exchange_code code (pn_pkce_verifier pending));
  token ← ok_or (snd response) (unauthorized "OIDC provider did not return an ID token.");
  claims ← verified_id_token_claims token (pn_nonce pending);
  _ ← check_access_token_hash token (fst response) claims;
  raw_claims ← jwt_claims (id_token_text token);
  let roles := mapped_roles (object_get (is_role_claim self) raw_claims) in
  _ ← ensure (negb (bool_decide (roles = []))) (forbidden "The authenticated identity has no Inari role assignment.");
  Ok (mkSessionIdentity (ActorId_from_oidc_subject (ic_subject claims)) None (ic_email claims) roles (ic_expiration claims)).

(** ** Workload tokens *)
Definition is_ascii_control (c : ascii) : bool := (code c <? 32) || (code c =? 127).
Definition workload_permission_valid (permission : string) : bool :=
  negb (is_empty permission || (64 <? str_len permission) || negb (all_bytes is_ascii permission)
        || negb (all_bytes (fun c => negb (is_ascii_whitespace c || is_ascii_control c)) permission)).
Definition authenticate_workload_token (token : string) : AppResult WorkloadIdentity :=
  header ← ok_or (decode_header token) (unauthorized "OIDC access token header is invalid.");
  _ ← ensure (match jh_alg header with RS256 | ES256 | EdDSA => true | _ => false end)
        (unauthorized "OIDC access token uses an unsupported signing algorithm.");
  key_id ← ok_or (jh_kid header) (unauthorized "OIDC access token kid is required.");
  jwk ← ok_or (is_workload_jwks self !! key_id) (unauthorized "OIDC access token kid is unknown.");
  key ← ok_or (decoding_key_from_jwk jwk) (unauthorized "OIDC access token key is invalid.");
  claims ← ok_or (jwt_decode token key (jh_alg header) (is_workload_audience self) (is_issuer self) 30)
             (unauthorized "OIDC access token is invalid.");
  expires_at ← ok_or (from_timestamp (wc_exp claims)) (unauthorized "OIDC access token expiry is invalid.");
  _ ← ensure (negb (bool_decide (wc_inari_permissions claims = []) || (16 <? length (wc_inari_permissions claims))%nat
                || List.existsb (fun p => negb (workload_permission_valid p)) (wc_inari_permissions claims)))
        (unauthorized "OIDC workload permissions are invalid.");
  Ok (mkWorkloadIdentity (ActorId_from_oidc_subject (wc_sub claims)) (wc_inari_database claims) (wc_inari_company_id claims)
        (wc_inari_organization_id claims) (list_to_set (wc_inari_permissions claims)) expires_at).
End Service.

(** ** Sessions *)
(** What the keys ["identity"] and ["pending_oidc_login"] of a session hold.  A request works on its own copy of the
    stored session: the computations below are what one request does to that copy. *)
Record Session := mkSession { ss_identity : option SessionIdentity; ss_pending : option PendingLogin }.
#[global] Instance Session_eta : Eta Session := fun s => mkSession (ss_identity s) (ss_pending s).
(** Which operations of the session store fail during a request. *)
Record SessionFaults := mkSessionFaults { sf_read : bool; sf_write : bool; sf_flush : bool; sf_rotate : bool }.
Notation Sess := (repo Session AppError).
Definition session_op {A} (failed : bool) (code message : string) (f : Session -> A * Session) : Sess A := fun s =>
  if failed then (Err (internal code message), s) else let '(a, s') := f s in (Ok a, s').

Definition session_flush (failed : bool) (code message : string) : Sess unit :=
  session_op failed code message (fun _ => (tt, mkSession None None)).
(** The principal of a session is its identity; one that has expired is removed. *)
Definition Principal_from_session (faults : SessionFaults) (now : instant) : Sess SessionIdentity :=
  stored ← session_op (sf_read faults) "session_read" "The authenticated session could not be read."
             (fun s => (ss_identity s, s));
  identity ← returns (ok_or stored (unauthorized "An authenticated session is required."));
  if si_expires_at identity <=? now then
    _ ← session_flush (sf_flush faults) "session_expiry" "The expired session could not be removed.";
    returns (Err (unauthorized "The authenticated session has expired."))
  else mret identity.
(** Without an identity runtime there is no session layer, and a request has no session. *)
Definition Principal_from_request (faults : SessionFaults) (now : instant) (session : option Session)
    : AppResult SessionIdentity * option Session :=
  match session with
  | None => (Err (unauthorized "An authenticated session is required."), None)
  | Some s => let '(r, s') := Principal_from_session faults now s in (r, Some s')
  end.
Definition Principal_require (identity : SessionIdentity) (permission : Permission) : AppResult unit :=
  ensure (session_grants identity permission)
    (forbidden "The authenticated identity does not have permission for this operation.").

(** ** Workload principals *)
Definition WorkloadPrincipal_require (identity : WorkloadIdentity) (scope : string) : AppResult unit :=
  ensure (bool_decide (scope ∈ wi_scopes identity))
    (forbidden "The Organization Workload Identity does not grant this operation.").
Definition WorkloadPrincipal_require_scope (identity : WorkloadIdentity) (scope : ManagedWorkScope) : AppResult unit :=
  ensure (String.eqb (wi_database identity) (sc_database scope) && String.eqb (wi_company_id identity) (sc_company_id scope)
          && String.eqb (wi_organization_id identity) (sc_organization_id scope))
    (forbidden "Managed Work scope does not match the Organization Workload Identity.").
(** [authorization] is the header's text, when it has one. *)
Definition WorkloadPrincipal_from_request `{JwtValidation, FromTimestamp} (identity : option IdentityService)
    (authorization : option string) : AppResult WorkloadIdentity :=
  service ← ok_or identity (service_unavailable "Organization Workload Identity is not enabled.");
  text ← ok_or authorization (unauthorized "A bearer access token is required.");
  token ← ok_or (strip_prefix "Bearer " text) (unauthorized "A bearer access token is required.");
  _ ← ensure (negb (is_empty token)) (unauthorized "A bearer access token is required.");
  authenticate_workload_token service token.

(** ** Login routes *)
Definition safe_return_path (candidate : option string) : string :=
  match candidate with
  | Some path => if (starts_with "/" path && negb (starts_with "//" path)) && negb (has_control path) then path else "/"
  | None => "/"
  end.
Definition constant_time_eq `{Sha256} (left right : string) : bool := String.eqb (sha256 left) (sha256 right).

Section Routes.
Context `{Encoding, Sha256, JwtValidation, FromTimestamp, JsonObjectText, OpenIdConnect}.

Record LoginRandom := mkLoginRandom { lr_state : string; lr_nonce : string; lr_pkce_verifier : string }.
(** A redirect is the place it leads to. *)
Definition login (identity : option IdentityService) (random : LoginRandom) (faults : SessionFaults)
    (return_to : option string) : Sess string :=
  service ← returns (ok_or identity (service_unavailable "Organization login is not configured."));
  let challenge := begin_login service (lr_state random) (lr_nonce random) (lr_pkce_verifier random) (safe_return_path return_to) in
  _ ← session_op (sf_write faults) "session_write" "The login session could not be started."
        (fun s => (tt, s <| ss_pending := Some (lc_pending challenge) |>));
  mret (lc_authorize_url challenge).

Record CallbackQuery := mkCallbackQuery { cq_code : option string; cq_state : option string; cq_error : option string }.
(** On the copy of the session that this request loaded. *)
Definition callback (identity : option IdentityService) (faults : SessionFaults) (query : CallbackQuery) : Sess string :=
  match cq_error query with
  | Some _ => returns (Err (unauthorized "Organization login was not completed."))
  | None =>
      stored ← session_op (sf_read faults) "session_read" "The login session could not be read."
                 (fun s => (ss_pending s, s <| ss_pending := None |>));
      pending ← returns (ok_or stored (unauthorized "The login request is missing or has expired."));
      state_value ← returns (ok_or (cq_state query) (unauthorized "OIDC callback state is missing."));
      _ ← returns (ensure (constant_time_eq state_value (pn_state pending))
                     (unauthorized "OIDC callback state did not match."));
      code ← returns (ok_or (cq_code query) (unauthorized "OIDC authorization code is missing."));
      service ← returns (ok_or identity (service_unavailable "Organization login is not configured."));
      authenticated ← returns (complete_login service code pending);
      _ ← session_op (sf_rotate faults) "session_rotation" "The login session could not be rotated." (fun s => (tt, s));
      _ ← session_op (sf_write faults) "session_write" "The authenticated session could not be stored."
            (fun s => (tt, s <| ss_identity := Some authenticated |>));
      mret (pn_return_to pending)
  end.
Definition logout (faults : SessionFaults) : Sess string :=
  _ ← session_flush (sf_flush faults) "session_logout" "The authenticated session could not be removed.";
  mret "/".
End Routes.

(** ** Executions of a session *)
Section Executions.
Context `{Encoding, Sha256, JwtValidation, FromTimestamp, JsonObjectText, OpenIdConnect}.

(** A browser's session with what happened to it.  Requests run at the same time, each on the copy that it loaded when
    it started, and the session layer stores the copies they leave, under the same or a new identifier, or drops them.  So
    a request may start from any version that was ever stored, also from one that another request has replaced or
    rotated away since, and what it leaves is one more version.  The logs hold the logins that were started and those
    that a callback completed. *)
Record SessionRun := mkSessionRun {
  sn_versions : list Session;
  sn_issued : list PendingLogin;
  sn_completed : list (PendingLogin * CallbackQuery);
}.
Definition issued_login (identity : option IdentityService) (random : LoginRandom) (return_to : option string) : list PendingLogin :=
  match identity with
  | Some _ => [mkPendingLogin (lr_state random) (lr_nonce random) (lr_pkce_verifier random) (safe_return_path return_to)]
  | None => []
  end.
Inductive session_step (r : SessionRun) : SessionRun -> Prop :=
| session_login s identity random faults return_to : s ∈ sn_versions r ->
    session_step r (mkSessionRun (snd (login identity random faults return_to s) :: sn_versions r)
      (sn_issued r ++ (if sf_write faults then [] else issued_login identity random return_to)) (sn_completed r))
| session_callback s identity faults query : s ∈ sn_versions r ->
    session_step r (mkSessionRun (snd (callback identity faults query s) :: sn_versions r) (sn_issued r)
      (sn_completed r ++ match fst (callback identity faults query s), ss_pending s with
                         | Ok _, Some pending => [(pending, query)] | _, _ => [] end))
| session_logout s faults : s ∈ sn_versions r ->
    session_step r (mkSessionRun (snd (logout faults s) :: sn_versions r) (sn_issued r) (sn_completed r))
| session_request s faults now : s ∈ sn_versions r ->
    session_step r (mkSessionRun (snd (Principal_from_session faults now s) :: sn_versions r) (sn_issued r) (sn_completed r)).
Definition session_new : SessionRun := mkSessionRun [mkSession None None] [] [].
Definition session_reachable (r : SessionRun) : Prop := rtc session_step session_new r.

Lemma session_op_eq {A} failed c m (f : Session -> A * Session) s :
  session_op failed c m f s = if failed then (Err (internal c m), s) else (Ok (fst (f s)), snd (f s)).
Proof. unfold session_op. destruct failed; [done|]. by destruct (f s). Qed.
Lemma callback_cases identity faults query s r s' : callback identity faults query s = (r, s') ->
  match r with
  | Ok to => exists service pending state code authenticated,
      identity = Some service /\ cq_error query = None /\ ss_pending s = Some pending /\ cq_state query = Some state /\
      sha256 state = sha256 (pn_state pending) /\ cq_code query = Some code /\
      complete_login service code pending = Ok authenticated /\ s' = mkSession (Some authenticated) None /\
      to = pn_return_to pending
  | Err _ => s' = s \/ s' = mkSession (ss_identity s) None
  end.
Proof.
  unfold callback. destruct (cq_error query); [intros [= <- <-]; by left|].
  unfold mbind, repo_bind. rewrite session_op_eq. destruct (sf_read faults); [intros [= <- <-]; by left|].
  cbn [fst snd]. change (s <| ss_pending := None |>) with (mkSession (ss_identity s) None).
  unfold returns. destruct (ss_pending s) as [pending|]; cbn [ok_or]; [|intros [= <- <-]; by right].
  destruct (cq_state query) as [state|]; cbn [ok_or]; [|intros [= <- <-]; by right].
  unfold ensure. destruct (constant_time_eq state (pn_state pending)) eqn:Es; [|intros [= <- <-]; by right].
  destruct (cq_code query) as [cd|]; cbn [ok_or]; [|intros [= <- <-]; by right].
  destruct identity as [service|]; cbn [ok_or]; [|intros [= <- <-]; by right].
  destruct (complete_login service cd pending) as [authenticated|] eqn:Ec; [|intros [= <- <-]; by right].
  rewrite session_op_eq. destruct (sf_rotate faults); [intros [= <- <-]; by right|].
  rewrite session_op_eq. destruct (sf_write faults); intros [= <- <-]; [by right|].
  exists service, pending, state, cd, authenticated. split_and!; try done. by apply String.eqb_eq.
Qed.
Lemma login_cases identity random faults return_to s :
  snd (login identity random faults return_to s) =
    match (if sf_write faults then [] else issued_login identity random return_to) with
    | [pending] => mkSession (ss_identity s) (Some pending)
    | _ => s
    end.
Proof.
  unfold login, mbind, repo_bind, returns. destruct identity as [service|]; cbn [ok_or issued_login]; [|by destruct (sf_write faults)].
  rewrite session_op_eq. by destruct (sf_write faults).
Qed.
Lemma flush_cases failed c m s : snd (session_flush failed c m s) = s \/ snd (session_flush failed c m s) = mkSession None None.
Proof. unfold session_flush. rewrite session_op_eq. destruct failed; [by left|by right]. Qed.
Lemma principal_cases faults now s r s' : Principal_from_session faults now s = (r, s') ->
  (s' = s \/ s' = mkSession None None) /\
  forall identity, r = Ok identity -> s' = s /\ ss_identity s = Some identity /\ now < si_expires_at identity.
Proof.
  unfold Principal_from_session, mbind, repo_bind, returns. rewrite session_op_eq.
  destruct (sf_read faults); [intros [= <- <-]; split; [by left|done]|]. cbn [fst snd].
  destruct (ss_identity s) as [id|] eqn:Ei; cbn [ok_or]; [|intros [= <- <-]; split; [by left|done]].
  destruct (Z.leb_spec (si_expires_at id) now).
  - unfold session_flush. rewrite session_op_eq.
    destruct (sf_flush faults); intros [= <- <-]; (split; [|done]); [by left|by right].
  - intros [= <- <-]. split; [by left|]. by intros identity [= ->].
Qed.

(** What holds of every version of a session. *)
Definition version_inv (r : SessionRun) (s : Session) : Prop :=
  (forall p, ss_pending s = Some p -> p ∈ sn_issued r) /\
  (forall id, ss_identity s = Some id -> exists service code pending query, (pending, query) ∈ sn_completed r /\
     cq_code query = Some code /\ complete_login service code pending = Ok id).
Definition session_inv (r : SessionRun) : Prop :=
  (forall pending query, (pending, query) ∈ sn_completed r -> pending ∈ sn_issued r /\ cq_error query = None /\
     exists state, cq_state query = Some state /\ sha256 state = sha256 (pn_state pending)) /\
  (forall s, s ∈ sn_versions r -> version_inv r s).
Lemma version_inv_mono v i c i' c' v' s : version_inv (mkSessionRun v i c) s ->
  version_inv (mkSessionRun v' (i ++ i') (c ++ c')) s.
Proof.
  intros [Hp Hi]. split; simpl.
  - intros p E. apply elem_of_app. left. exact (Hp p E).
  - intros id E. destruct (Hi id E) as (service & cd & pending & q & Hin & ? & ?). exists service, cd, pending, q.
    split; [|done]. apply elem_of_app. by left.
Qed.
Lemma version_inv_drop r s s' : version_inv r s -> s' = s \/ s' = mkSession (ss_identity s) None \/ s' = mkSession None None -> version_inv r s'.
Proof. intros [Hp Hi] [->|[->| ->]]; [done|by split|by split]. Qed.
(** A step that logs nothing and leaves a copy with less in it. *)
Lemma session_inv_less r s s' : session_inv r -> s ∈ sn_versions r ->
  s' = s \/ s' = mkSession (ss_identity s) None \/ s' = mkSession None None ->
  session_inv (mkSessionRun (s' :: sn_versions r) (sn_issued r) (sn_completed r)).
Proof.
  intros [Hc Hv] Hs Hless. split; [done|]. simpl. intros x [->|Hx]%elem_of_cons.
  - exact (version_inv_drop r s s' (Hv s Hs) Hless).
  - exact (Hv x Hx).
Qed.
Lemma session_login_inv r s identity random faults return_to : session_inv r -> s ∈ sn_versions r ->
  session_inv (mkSessionRun (snd (login identity random faults return_to s) :: sn_versions r)
    (sn_issued r ++ (if sf_write faults then [] else issued_login identity random return_to)) (sn_completed r)).
Proof.
  intros [Hc Hv] Hs. destruct r as [v i c]. rewrite login_cases. simpl in *.
  assert (forall x i', version_inv (mkSessionRun v i c) x -> version_inv (mkSessionRun v (i ++ i') c) x) as Hmono.
  { intros x i' Hx. rewrite <- (app_nil_r c). by apply (version_inv_mono v i c). }
  set (new := if sf_write faults then [] else issued_login identity random return_to). split; simpl.
  - intros p q Hp. destruct (Hc p q Hp) as [Hin Hq]. split; [|done]. apply elem_of_app. by left.
  - intros x [->|Hx]%elem_of_cons; [|by apply Hmono, Hv].
    destruct new as [|p [|p2 l]] eqn:En; [by apply Hmono, Hv| |by apply Hmono, Hv].
    destruct (Hmono s [p] (Hv s Hs)) as [Hp Hi]. split; simpl; [|exact Hi].
    intros q [= <-]. apply elem_of_app. right. by left.
Qed.
Lemma session_callback_inv r s identity faults query : session_inv r -> s ∈ sn_versions r ->
  session_inv (mkSessionRun (snd (callback identity faults query s) :: sn_versions r) (sn_issued r)
    (sn_completed r ++ match fst (callback identity faults query s), ss_pending s with
                       | Ok _, Some pending => [(pending, query)] | _, _ => [] end)).
Proof.
  intros Hr Hs. destruct (callback identity faults query s) as [[to|e] s'] eqn:E; apply callback_cases in E; simpl.
  - destruct E as (service & pending & st & cd & id & _ & He & Hp & Hst & Hsha & Hcd & Hc & -> & _). rewrite Hp.
    destruct Hr as [Hcomp Hv], r as [v i c]. simpl in *. destruct (Hv s Hs) as [Hpend _]. simpl in Hpend. split; simpl.
    + intros p q [Hin|[= -> ->]%list_elem_of_singleton]%elem_of_app; [by apply Hcomp|]. split_and!; eauto.
    + intros x [->|Hx]%elem_of_cons.
      * split; simpl; [done|]. intros id' [= <-]. exists service, cd, pending, query. split; [|done].
        apply elem_of_app. right. by left.
      * rewrite <- (app_nil_r i). by apply (version_inv_mono v i c), Hv.
  - rewrite app_nil_r. eapply session_inv_less; [done|exact Hs|]. destruct E as [->| ->]; auto.
Qed.
Lemma session_step_inv r r' : session_inv r -> session_step r r' -> session_inv r'.
Proof.
  intros Hr. destruct 1 as [s identity random faults return_to Hs|s identity faults query Hs|s faults Hs|s faults now Hs].
  - by apply session_login_inv.
  - by apply session_callback_inv.
  - eapply session_inv_less; [done|exact Hs|]. unfold logout, mbind, repo_bind, mret, repo_ret.
    destruct (flush_cases (sf_flush faults) "session_logout" "The authenticated session could not be removed." s) as [E|E];
      destruct (session_flush _ _ _ _) as [[]?]; simpl in *; auto.
  - eapply session_inv_less; [done|exact Hs|]. destruct (Principal_from_session _ _ _) as [x s'] eqn:E.
    apply principal_cases in E as [[->| ->] _]; auto.
Qed.
Lemma session_reachable_inv r : session_reachable r -> session_inv r.
Proof.
  apply rtc_ind_r; [|intros x y _ Hs IH; by eapply session_step_inv].
  split; simpl; [set_solver|]. by intros s ->%list_elem_of_singleton.
Qed.

(** What the identity of a completed login rests on. *)
Definition verified_login (service : IdentityService) (code : string) (pending : PendingLogin) (id : SessionIdentity) : Prop :=
  exists access_token token claims raw_claims,
    exchange_code code (pn_pkce_verifier pending) = Ok (access_token, Some token) /\
    token_claims (is_client_id service) (trust_id_token_audiences service) (pn_nonce pending) token = Ok claims /\
    (ic_authorized_party claims = Some (is_client_id service) \/
     ic_authorized_party claims = None /\ (length (ic_audiences claims) <= 1)%nat) /\
    check_access_token_hash token access_token claims = Ok tt /\
    jwt_claims (id_token_text token) = Ok raw_claims /\
    si_actor_id id = ActorId_from_oidc_subject (ic_subject claims) /\ si_expires_at id = ic_expiration claims /\
    si_roles id <> [] /\
    forall role, role ∈ si_roles id <->
      exists value, value ∈ claim_values (object_get (is_role_claim service) raw_claims) /\
        is_role_mapping service !! value = Some role.
Lemma role_set_elem roles role : role ∈ role_set roles <-> role ∈ roles.
Proof.
  unfold role_set. rewrite list_elem_of_filter. split; [by intros []|]. intros Hr. split; [done|].
  destruct role; set_solver.
Qed.
Lemma verified_id_token_claims_Ok service token nonce claims : verified_id_token_claims service token nonce = Ok claims ->
  token_claims (is_client_id service) (trust_id_token_audiences service) nonce token = Ok claims /\
  (ic_authorized_party claims = Some (is_client_id service) \/
   ic_authorized_party claims = None /\ (length (ic_audiences claims) <= 1)%nat).
Proof.
  unfold verified_id_token_claims, or_unauthorized. intros Hc.
  destruct (token_claims _ _ _ _) as [c|] eqn:Et; [|done]. cbn [mbind result_bind] in Hc.
  destruct (ic_authorized_party c) as [party|] eqn:Ep; res_inv Hc; bools; strings; subst; split; auto.
  right. split; [done|]. match goal with Hl : (_ <? _)%nat = false |- _ => apply Nat.ltb_ge in Hl end. lia.
Qed.
Lemma complete_login_verified service code pending id :
  complete_login service code pending = Ok id -> verified_login service code pending id.
Proof.
  unfold complete_login, or_unauthorized. intros Hc.
  destruct (exchange_code code _) as [[access o]|] eqn:Ee; [|done]. cbn [mbind result_bind fst snd] in Hc.
  destruct o as [token|]; [|done]. cbn [ok_or mbind result_bind] in Hc.
  apply bind_Ok in Hc as (claims & Hv & Hc). apply bind_Ok in Hc as ([] & Hh & Hc).
  apply bind_Ok in Hc as (raw & Hj & Hc). apply ensure_bind_Ok in Hc as [Hne Hc]. apply Ok_inj in Hc as <-.
  apply verified_id_token_claims_Ok in Hv as [Ht Hp].
  exists access, token, claims, raw. simpl. split_and!; try done; [by bools|].
  intros role. unfold mapped_roles. rewrite role_set_elem, list_elem_of_omap. done.
Qed.

End Executions.

(** The place a login returns to is a path.  Whatever [return_to] a request asks for, the path kept for the end of
    the login starts with one slash, is not a network path and has no control character. *)
Theorem return_path_is_local candidate : let path := safe_return_path candidate in
  starts_with "/" path = true /\ starts_with "//" path = false /\ has_control path = false /\
  (path = "/" \/ candidate = Some path).
Proof.
  unfold safe_return_path. destruct candidate as [c|]; [|split_and!; auto].
  destruct (_ && _) eqn:E; [|split_and!; auto]. bools. split_and!; auto.
Qed.
(** A backslash after the slash is kept, which browsers read as a second slash. *)
Example backslash_return_path_is_kept : safe_return_path (Some "/\attacker.example") = "/\attacker.example".
Proof. reflexivity. Qed.

(** ** A sample login *)
Module IdentityToy.
#[export] Instance toy_encoding : Encoding :=
  {| hex_encode := fun s => s; base64url_decode := fun s => Some s; base64url_encode := fun s => s |}.
#[export] Instance toy_sha256 : Sha256 := fun s => s.
#[export] Instance toy_timestamp : FromTimestamp := fun t => Some (seconds t).
Definition toy_header (alg : Algorithm) (kid : option string) : option JwtHeader := Some (mkJwtHeader alg kid).
(** A token of the key ["k1"] is its own claims. *)
#[export] Instance toy_jwt : JwtValidation :=
  {| jwk := string; decoding_key := string;
     decode_header := fun token => toy_header (if String.eqb token "none" then HS256 else EdDSA) (Some "k1");
     decoding_key_from_jwk := Some;
     jwt_decode := fun token key _ audience _ _ =>
       if String.eqb token "work" && String.eqb audience "urn:inari:managed-workload"
       then Some (mkWorkloadClaims "odoo-production" 1000 "odoo" "1" "org_acme" ["managed_work:write"; "managed_work:read"])
       else None |}.
#[export] Instance toy_object : JsonObjectText := fun text =>
  if String.eqb text "claims" then Some [("roles", VArray [VString "ops"; VString "guest"])] else None.
#[export] Instance toy_oidc : OpenIdConnect :=
  {| id_token := string; id_token_text := fun t => t;
     authorize_url := fun _ pending => "https://id.example/authorize?state=" ++ pn_state pending;
     exchange_code := fun code verifier =>
       if String.eqb code "c1" && String.eqb verifier "v1" then Ok ("access", Some "h.claims.s") else Err "invalid_grant";
     token_claims := fun client _ nonce _ =>
       if String.eqb nonce "n1" then Ok (mkIdTokenClaims "alice" None (seconds 300) None [client] None) else Err "nonce";
     signing_alg := fun _ => Ok "EdDSA"; signing_key := fun _ => Ok "k1"; access_token_hash := fun _ _ _ => Ok "hash" |}.
Definition toy_service : IdentityService :=
  mkIdentityService "inari-controller" "https://id.example" [] "urn:inari:managed-workload" {["k1" := "k1"]} ["openid"]
    "roles" {["ops" := Operator; "admins" := Administrator]}.
Definition no_faults : SessionFaults := mkSessionFaults false false false false.
Definition toy_pending : PendingLogin := mkPendingLogin "s1" "n1" "v1" "/fleet".
Definition toy_identity : SessionIdentity := mkSessionIdentity "oidc:alice" None None [Operator] (seconds 300).
Definition toy_callback : CallbackQuery := mkCallbackQuery (Some "c1") (Some "s1") None.
Definition toy_started : Session := mkSession None (Some toy_pending).
Definition toy_session : Session := mkSession (Some toy_identity) None.
(** A login and two callbacks that both loaded the session before either stored it: both complete the one challenge. *)
Definition toy_run : SessionRun :=
  mkSessionRun [toy_session; toy_session; toy_started; mkSession None None] [toy_pending]
    [(toy_pending, toy_callback); (toy_pending, toy_callback)].
Lemma toy_run_reachable : session_reachable toy_run.
Proof.
  eapply rtc_l; [apply (session_login _ (mkSession None None) (Some toy_service) (mkLoginRandom "s1" "n1" "v1") no_faults (Some "/fleet")); left|].
  eapply rtc_l; [apply (session_callback _ toy_started (Some toy_service) no_faults toy_callback); left|].
  eapply rtc_l; [apply (session_callback _ toy_started (Some toy_service) no_faults toy_callback); right; left|].
  vm_compute. apply rtc_refl.
Qed.
End IdentityToy.
