(* ===== verification/HttpApi.v ===== *)
(** * The HTTP API of the Controller

    [crates/inari-server/src/http/routes/api/extract.rs] and [inari.rs]: the extractors of a request and every handler
    under [/api/inari/v1].  A handler receives its arguments in the order in which axum extracts them; what the framework
    parses (the JSON body, the query) is an argument with its outcome.  The Inari API budget grants or refuses a permit. *)
From stdpp Require Import relations.
From S2P Require Import Prelude Framing Json Errors Identifiers InvitationCode Protocol Schema AuditLog.
From S2P Require Import RouterPolicy Commands Security Observations Inventory Onboarding Enrollment Publications.
From S2P Require Import Retirement ManagedWork Dispatch System Fleet FleetPolicy ServerErrors AdmissionController.
From S2P Require Import PayloadProtection DispatchSigner ManagedGateway GatewayConfig EnrollmentService GatewayLife Negotiation Identity.

(** ** Extractors *)
Definition api_path {A} (r : GatewayResult A) : AppResult A :=
  match r with Ok a => Ok a | Err _ => Err (bad_request "The request path contains an invalid identifier.") end.
Definition api_json {A} (r : result string A) : AppResult A :=
  match r with Ok a => Ok a | Err body_text => Err (bad_request body_text) end.
Definition api_query {A} (r : option A) : AppResult A := ok_or r (bad_request "The request query is invalid.").

Definition is_ascii_graphic : ascii -> bool := byte_in 33 126.
Definition IdempotencyKey_from_request `{HeaderText} (header : option string) : AppResult string :=
  raw ← ok_or header (bad_request "Idempotency-Key is required.");
  value ← ok_or (header_to_str raw) (bad_request "Idempotency-Key must contain visible ASCII.");
  _ ← ensure (negb (is_empty value || (128 <? str_len value) || negb (all_bytes (fun c => is_ascii_graphic c || byte_is c 32) value)))
        (bad_request "Idempotency-Key must contain 1 to 128 visible ASCII characters.");
  Ok value.
Section Keys.
Context `{Encoding, Sha256}.
Definition key_digest (owner key : string) : string := hex_encode (sha256 (owner ++ String (ascii_of_nat 0) key)).
Definition key_job_id (key agent_id : string) : AppResult string :=
  from_result (JobId_from_str ("job_" ++ Security.prefix_of 32 (key_digest agent_id key))).
Definition key_managed_work_id (key organization_id : string) : AppResult string :=
  from_result (ManagedWorkId_from_str ("mw_" ++ Security.prefix_of 32 (key_digest organization_id key))).
End Keys.

(** ** Requests and responses *)
Record AuditFilter := mkAuditFilter { af_before : option Z; af_limit : Z }.
Definition default_audit_limit : Z := 100.

(** A request by its route.  Path segments are texts; a body or a query is what the framework made of it. *)
Inductive ApiRequest : Type :=
| PostEnrollment (bearer : option string) (body : result string EnrollmentRequest)
| GetInvitation (invitation_id : string)
| GetSites
| GetAgents (query : option (option string))
| GetAgent (agent_id : string)
| PutCredentialRetirement (agent_id : string)
| GetDevices (agent_id : string)
| GetJobs (agent_id : string)
| PostJob (agent_id : string) (idempotency_key : option string) (body : result string JobKind)
| GetJob (job_id : string)
| PutCancellation (job_id : string)
| GetWorkloadInventory
| PostPreflight (body : result string ManagedWorkPreflightRequest)
| PostManagedWork (idempotency_key : option string) (body : result string ManagedWorkSubmission)
| GetManagedWork (managed_work_id : string)
| FindManagedWork (idempotency_key : option string)
| GetAuditEvents (query : option AuditFilter).

Inductive ApiResponse : Type :=
| RespEnrollment (r : EnrollmentResponse)
| RespInvitation (r : InvitationPreview)
| RespSites (r : list SiteSummary)
| RespAgents (r : list AgentSummary)
| RespAgent (r : AgentDetail)
| RespNoContent
| RespDevices (r : list DeviceSummary)
| RespJobs (r : list JobRecord)
| RespJob (r : JobRecord)
| RespAcceptedJob (location : string) (r : JobReceipt)
| RespInventory (r : WorkloadInventory)
| RespPreflight (r : ManagedWorkPreflightResult)
| RespAcceptedWork (location : string) (r : ManagedWorkReceipt)
| RespWork (r : ManagedWorkRecord)
| RespAudit (r : list AuditEvent).

(** What a request meets: its session, headers and request id, the clock, the permit of the budget, and what the
    operations of the service meet. *)
Record ApiCall := mkApiCall {
  ap_session : option Session;
  ap_faults : SessionFaults;
  ap_authorization : option string;
  ap_request_id : option string;
  ap_now : instant;
  ap_permit : AppResult unit;
  ap_occurred_at : instant;
  ap_admission : AdmissionCall;
  ap_enroll : EnrollCall;
  ap_enqueue : EnqueueCall;
  ap_preflight : PreflightCall;
  ap_submit : SubmitCall;
}.

Section Api.
Context `{Encoding, Sha256, Ed25519, Ed25519Signing, HexDecode, Rfc3339Auto, Canonicalizer, PolicyJson, Collation}.
Context `{Rfc3339, DispatchJson, Hpke, Aes256Gcm, Base64Decode, ManagedPayloadKeyWrapper, DeadlineFormat}.
Context `{KeyExpressions, JsonText, Thumbprint, X509, InventoryCodec, FactsCodec, ChronoRange, Onboarding.UrlOps, Base32}.
Context `{JwtValidation, FromTimestamp, HeaderText}.
Context (service : ManagedGatewayService) (onboarding : option OnboardingService) (identity_service : option IdentityService).
Notation self := (ManagedGatewayController_new service).
Context (call : ApiCall).

Definition request_id_value : option string :=
  match ap_request_id call with Some raw => header_to_str raw | None => None end.
Definition acquire_inari_api_permit : App unit := returns (ap_permit call).

(** ** Handlers of workloads *)
Definition get_workload_inventory (principal : WorkloadIdentity) : App ApiResponse :=
  _ ← returns (WorkloadPrincipal_require principal "inventory:read");
  let scope := mkWorkloadScope (wi_database principal) (wi_company_id principal) (wi_organization_id principal) in
  _ ← acquire_inari_api_permit;
  inventory ← service_workload_inventory service scope (ap_now call);
  mret (RespInventory inventory).
Definition preflight_handler (principal : WorkloadIdentity) (request : ManagedWorkPreflightRequest) : App ApiResponse :=
  _ ← returns (WorkloadPrincipal_require principal "managed_work:write");
  _ ← returns (WorkloadPrincipal_require_scope principal (pr_scope request));
  _ ← acquire_inari_api_permit;
  result ← preflight_managed_work self (ap_preflight call) request;
  mret (RespPreflight result).
Definition accepted_managed_work (receipt : ManagedWorkReceipt) : AppResult ApiResponse :=
  location ← ok_or (header_from_str ("/api/inari/v1/managed-work/" ++ wr_managed_work_id receipt))
               (internal "managed_work_location" "The Managed Work resource location is invalid.");
  Ok (RespAcceptedWork location receipt).
Definition submit_handler (principal : WorkloadIdentity) (idempotency_key : string) (request : ManagedWorkSubmission)
    : App ApiResponse :=
  let scope := dw_scope (sub_work request) in
  _ ← returns (WorkloadPrincipal_require principal "managed_work:write");
  _ ← returns (WorkloadPrincipal_require_scope principal scope);
  _ ← acquire_inari_api_permit;
  managed_work_id ← returns (key_managed_work_id idempotency_key (sc_organization_id scope));
  receipt ← submit_managed_work self (ap_submit call) managed_work_id idempotency_key request;
  _ ← service_record_audit_event service (ap_occurred_at call)
        (mkDraft (sc_organization_id scope) (wi_actor_id principal) ActManagedWorkSubmitted
           (ResManagedWork (wr_managed_work_id receipt)) Succeeded request_id_value);
  returns (accepted_managed_work receipt).
Definition get_managed_work (principal : WorkloadIdentity) (managed_work_id : string) : App ApiResponse :=
  _ ← returns (WorkloadPrincipal_require principal "managed_work:read");
  _ ← acquire_inari_api_permit;
  record ← read_managed_work self managed_work_id;
  _ ← returns (WorkloadPrincipal_require_scope principal (wk_scope record));
  mret (RespWork record).
Definition find_managed_work_handler (principal : WorkloadIdentity) (idempotency_key : string) : App ApiResponse :=
  managed_work_id ← returns (key_managed_work_id idempotency_key (wi_organization_id principal));
  get_managed_work principal managed_work_id.

(** ** Handlers of operators *)
Definition retire_agent_credentials_handler (principal : SessionIdentity) (agent_id : string) : App ApiResponse :=
  _ ← returns (Principal_require principal EnrollmentManage);
  _ ← acquire_inari_api_permit;
  _ ← retire_agent self (ap_admission call) agent_id (mkAuditContext (si_actor_id principal) request_id_value)
        (ap_now call) (ap_occurred_at call);
  mret RespNoContent.
Definition list_audit_events (principal : SessionIdentity) (filter : AuditFilter) : App ApiResponse :=
  _ ← returns (Principal_require principal AuditRead);
  _ ← returns (ensure (negb ((af_limit filter =? 0) || (200 <? af_limit filter)))
                 (bad_request "Audit event limit must be between 1 and 200."));
  _ ← acquire_inari_api_permit;
  events ← service_audit_events service (af_before filter) (af_limit filter);
  mret (RespAudit events).
Definition list_sites (principal : SessionIdentity) : App ApiResponse :=
  _ ← returns (Principal_require principal FleetRead);
  _ ← acquire_inari_api_permit;
  sites ← service_sites service;
  mret (RespSites sites).
Definition list_agents (principal : SessionIdentity) (site_id : option string) : App ApiResponse :=
  _ ← returns (Principal_require principal FleetRead);
  _ ← acquire_inari_api_permit;
  agents ← service_agents service site_id (ap_now call);
  mret (RespAgents agents).
Definition get_agent (principal : SessionIdentity) (agent_id : string) : App ApiResponse :=
  _ ← returns (Principal_require principal FleetRead);
  _ ← acquire_inari_api_permit;
  agent ← service_agent service agent_id (ap_now call);
  mret (RespAgent agent).
Definition list_devices (principal : SessionIdentity) (agent_id : string) : App ApiResponse :=
  _ ← returns (Principal_require principal FleetRead);
  _ ← acquire_inari_api_permit;
  devices ← service_devices service agent_id;
  mret (RespDevices devices).
Definition get_job (principal : SessionIdentity) (job_id : string) : App ApiResponse :=
  _ ← returns (Principal_require principal FleetRead);
  _ ← acquire_inari_api_permit;
  job ← find_job self job_id;
  mret (RespJob job).
Definition list_jobs_handler (principal : SessionIdentity) (agent_id : string) : App ApiResponse :=
  _ ← returns (Principal_require principal FleetRead);
  _ ← acquire_inari_api_permit;
  jobs ← list_jobs self agent_id;
  mret (RespJobs jobs).
Definition accepted_job (receipt : JobReceipt) : AppResult ApiResponse :=
  location ← ok_or (header_from_str ("/api/inari/v1/jobs/" ++ jr_job_id receipt))
               (internal "job_location" "The job resource location is invalid.");
  Ok (RespAcceptedJob location receipt).
Definition job_draft (principal : SessionIdentity) (action : AuditAction) (job_id : string) : AuditEventDraft :=
  mkDraft (EnrollmentService.sv_organization_id service) (si_actor_id principal) action (ResJob job_id) Succeeded request_id_value.
Definition create_job (principal : SessionIdentity) (agent_id idempotency_key : string) (request : JobKind) : App ApiResponse :=
  _ ← returns (Principal_require principal JobsWrite);
  _ ← acquire_inari_api_permit;
  job_id ← returns (key_job_id idempotency_key agent_id);
  receipt ← enqueue_job self (ap_enqueue call) agent_id job_id request;
  _ ← service_record_audit_event service (ap_occurred_at call) (job_draft principal ActJobCreated (jr_job_id receipt));
  returns (accepted_job receipt).
Definition cancel_job_handler (principal : SessionIdentity) (job_id : string) : App ApiResponse :=
  _ ← returns (Principal_require principal JobsWrite);
  _ ← acquire_inari_api_permit;
  receipt ← cancel_job self (ap_enqueue call) job_id;
  _ ← service_record_audit_event service (ap_occurred_at call) (job_draft principal ActJobCancellationRequested job_id);
  returns (accepted_job receipt).

(** ** Handlers without a principal *)
Definition enroll_handler (bearer_token : option string) (request : EnrollmentRequest) : App ApiResponse :=
  response ← enroll service (ap_enroll call) bearer_token request;
  mret (RespEnrollment response).
Definition preview_invitation (invitation_id : string) : App ApiResponse :=
  onboarding ← returns (ok_or onboarding (service_unavailable "Managed gateway onboarding is not enabled."));
  preview ← in_database (gateway (service_invitation_preview onboarding invitation_id (ap_now call)));
  mret (RespInvitation preview).

(** ** The routes *)
Definition session_principal : AppResult SessionIdentity := fst (Principal_from_request (ap_faults call) (ap_now call) (ap_session call)).
Definition workload_principal : AppResult WorkloadIdentity := WorkloadPrincipal_from_request identity_service (ap_authorization call).
Definition api_handle (request : ApiRequest) : App ApiResponse :=
  match request with
  | PostEnrollment bearer body => body ← returns (api_json body); enroll_handler bearer body
  | GetInvitation id => id ← returns (api_path (InvitationId_from_str id)); preview_invitation id
  | GetSites => principal ← returns session_principal; list_sites principal
  | GetAgents query => principal ← returns session_principal; site ← returns (api_query query); list_agents principal site
  | GetAgent id => principal ← returns session_principal; id ← returns (api_path (AgentId_from_str id)); get_agent principal id
  | PutCredentialRetirement id =>
      principal ← returns session_principal; id ← returns (api_path (AgentId_from_str id));
      retire_agent_credentials_handler principal id
  | GetDevices id => principal ← returns session_principal; id ← returns (api_path (AgentId_from_str id)); list_devices principal id
  | GetJobs id => principal ← returns session_principal; id ← returns (api_path (AgentId_from_str id)); list_jobs_handler principal id
  | PostJob id key body =>
      principal ← returns session_principal; id ← returns (api_path (AgentId_from_str id));
      key ← returns (IdempotencyKey_from_request key); body ← returns (api_json body); create_job principal id key body
  | GetJob id => principal ← returns session_principal; id ← returns (api_path (JobId_from_str id)); get_job principal id
  | PutCancellation id =>
      principal ← returns session_principal; id ← returns (api_path (JobId_from_str id)); cancel_job_handler principal id
  | GetWorkloadInventory => principal ← returns workload_principal; get_workload_inventory principal
  | PostPreflight body => principal ← returns workload_principal; body ← returns (api_json body); preflight_handler principal body
  | PostManagedWork key body =>
      principal ← returns workload_principal; key ← returns (IdempotencyKey_from_request key);
      body ← returns (api_json body); submit_handler principal key body
  | GetManagedWork id =>
      principal ← returns workload_principal; id ← returns (api_path (ManagedWorkId_from_str id)); get_managed_work principal id
  | FindManagedWork key =>
      principal ← returns workload_principal; key ← returns (IdempotencyKey_from_request key);
      find_managed_work_handler principal key
  | GetAuditEvents query =>
      principal ← returns session_principal; filter ← returns (api_query query); list_audit_events principal filter
  end.
End Api.

(** ** What an operation changes *)
Lemma repository_same self {A} (m : Repo A) : Always eq m -> Always eq (repository self m).
Proof.
  intros Hm. unfold repository. destruct (mg_has_repository self); [|steps].
  apply always_from. intros w. unfold in_database. destruct (gateway m (w_database w)) as [r db] eqn:E.
  assert (db = w_database w) as ->; [|by destruct w].
  pose proof (gateway_snd m (w_database w)) as Hs. rewrite E in Hs. simpl in Hs. rewrite Hs.
  destruct (m (w_database w)) as [x d] eqn:Em. simpl. symmetry. by apply (Hm _ _ _ Em).
Qed.
Create HintDb api discriminated.
#[global] Hint Resolve repository_same always_queries : api.

Section Authorization.
Context `{Encoding, Sha256, Ed25519, Ed25519Signing, HexDecode, Rfc3339Auto, Canonicalizer, PolicyJson, Collation}.
Context `{Rfc3339, DispatchJson, Hpke, Aes256Gcm, Base64Decode, ManagedPayloadKeyWrapper, DeadlineFormat}.
Context `{KeyExpressions, JsonText, Thumbprint, X509, InventoryCodec, FactsCodec, ChronoRange, Onboarding.UrlOps, Base32}.
Context `{JwtValidation, FromTimestamp, HeaderText}.
Context (service : ManagedGatewayService) (onboarding : option OnboardingService) (identity_service : option IdentityService).
Context (call : ApiCall).
Notation self := (ManagedGatewayController_new service).
Notation handle := (api_handle service onboarding identity_service call).

(** The operator behind a request: the unexpired identity of its session, with the permission. *)
Definition operator (permission : Permission) (p : SessionIdentity) : Prop :=
  (exists s, ap_session call = Some s /\ ss_identity s = Some p) /\ ap_now call < si_expires_at p /\
  session_grants p permission = true.
Definition in_scope (p : WorkloadIdentity) (scope : ManagedWorkScope) : Prop :=
  wi_database p = sc_database scope /\ wi_company_id p = sc_company_id scope /\ wi_organization_id p = sc_organization_id scope.
(** The workload behind a request: the identity of its bearer token, with the permission. *)
Definition workload (permission : string) (p : WorkloadIdentity) : Prop :=
  (exists service token, identity_service = Some service /\ ap_authorization call = Some ("Bearer " ++ token) /\
    authenticate_workload_token service token = Ok p) /\ permission ∈ wi_scopes p.

(** What may change, and on whose behalf. *)
Definition authorized_change (request : ApiRequest) (w w' : World) : Prop :=
  match request with
  | PostEnrollment bearer body => exists b, body = Ok b /\ w' = snd (enroll service (ap_enroll call) bearer b w)
  | GetInvitation id => exists i, InvitationId_from_str id = Ok i /\
      w' = w <| w_database := snd (expire_invitation i (ap_now call) (w_database w)) |>
  | PutCredentialRetirement _ => exists p, operator EnrollmentManage p
  | PostJob _ _ _ | PutCancellation _ => exists p, operator JobsWrite p
  | PostPreflight body => exists p b, body = Ok b /\ workload "managed_work:write" p /\ in_scope p (pr_scope b)
  | PostManagedWork _ body =>
      exists p b, body = Ok b /\ workload "managed_work:write" p /\ in_scope p (dw_scope (sub_work b))
  | _ => False
  end.

Lemma session_principal_Ok p : session_principal call = Ok p ->
  (exists s, ap_session call = Some s /\ ss_identity s = Some p) /\ ap_now call < si_expires_at p.
Proof.
  unfold session_principal, Principal_from_request. destruct (ap_session call) as [s|]; [|done].
  destruct (Principal_from_session _ _ _) as [r s'] eqn:E. simpl. intros ->.
  apply principal_cases in E as [_ Hp]. destruct (Hp p eq_refl) as (_ & Hi & Hn). eauto.
Qed.
Lemma operator_of permission p : session_principal call = Ok p -> Principal_require p permission = Ok tt -> operator permission p.
Proof. intros [Hs Hn]%session_principal_Ok Hg%ensure_Ok. done. Qed.
Lemma workload_of permission p : workload_principal identity_service call = Ok p ->
  WorkloadPrincipal_require p permission = Ok tt -> workload permission p.
Proof.
  unfold workload_principal, WorkloadPrincipal_from_request, WorkloadPrincipal_require. intros Hp Hg%ensure_Ok.
  apply bind_Ok in Hp as (sv & Hs%ok_or_Ok & Hp). apply bind_Ok in Hp as (text & Ht%ok_or_Ok & Hp).
  apply bind_Ok in Hp as (token & Hb%ok_or_Ok & Hp). apply ensure_bind_Ok in Hp as [_ Hp].
  apply strip_prefix_Some in Hb as ->. bools. split; [|done]. eauto 6.
Qed.
Lemma in_scope_of p scope : WorkloadPrincipal_require_scope p scope = Ok tt <-> in_scope p scope.
Proof.
  unfold WorkloadPrincipal_require_scope, in_scope. rewrite ensure_Ok, !andb_true_iff, !String.eqb_eq. tauto.
Qed.

(** Requests that only read leave everything as it was. *)
Lemma find_job_same job : Always eq (find_job self job).
Proof. unfold find_job. steps. apply repository_same. unfold Commands.job. steps. Qed.
Lemma agents_same site now : Always eq (service_agents service site now).
Proof. unfold service_agents. steps. apply repository_same. unfold fleet_agents. steps. Qed.
Lemma latest_status_same agent : Always eq (store_latest_status service agent).
Proof.
  unfold store_latest_status. steps. apply repository_same. unfold latest_status. steps.
Qed.
Lemma read_work_same id : Always eq (read_managed_work self id).
Proof. unfold read_managed_work. steps. apply repository_same. unfold find_managed_work. steps. Qed.
Definition read_only (request : ApiRequest) : bool :=
  match request with
  | GetSites | GetAgents _ | GetAgent _ | GetDevices _ | GetJobs _ | GetJob _ | GetWorkloadInventory | GetManagedWork _
  | FindManagedWork _ | GetAuditEvents _ => true
  | _ => false
  end.
Lemma read_only_same request : read_only request = true -> Always eq (handle request).
Proof.
  destruct request; try done; intros _; unfold api_handle, list_sites, list_agents, get_agent, list_devices, list_jobs_handler,
    get_job, get_workload_inventory, find_managed_work_handler, get_managed_work, list_audit_events, service_agent,
    service_sites, service_devices, service_audit_events, service_workload_inventory, list_jobs, acquire_inari_api_permit;
    steps; auto using agents_same, latest_status_same, read_work_same, find_job_same.
  all: apply repository_same.
  all: unfold fleet_sites, fleet_devices, Commands.jobs, workload_inventory, audit_events_page; steps.
  all: apply always_transaction; steps.
Qed.

Lemma unit_Ok (r : AppResult unit) u : r = Ok u -> r = Ok tt.
Proof. by destruct u. Qed.
Lemma invitation_snd id now db : snd (invitation id now db) = snd (expire_invitation id now db).
Proof.
  destruct (invitation id now db) as [r db'] eqn:E. cbn [snd]. unfold invitation in E. apply repo_bind_inv in E as [(u & db1 & Ee & Eq)|(e & Ee & _)].
  - injection Eq as _ <-. by rewrite Ee.
  - by rewrite Ee.
Qed.
Lemma preview_snd s id now db : snd (service_invitation_preview s id now db) = db \/
  snd (service_invitation_preview s id now db) = snd (expire_invitation id now db).
Proof.
  destruct (service_invitation_preview s id now db) as [r db'] eqn:E. cbn [snd].
  unfold service_invitation_preview in E.
  apply repo_bind_inv in E as [(u & db1 & Ee & Eq)|(e & Ee & _)]; [|left; by injection Ee as _ <-].
  injection Ee as _ <-. right. rewrite <- invitation_snd.
  apply repo_bind_inv in Eq as [(i & db2 & Ei & Em)|(e & Ei & _)]; rewrite Ei; [by injection Em|done].
Qed.
Lemma preview_changes id w x w' : preview_invitation onboarding call id w = (x, w') ->
  w' = w \/ w' = w <| w_database := snd (expire_invitation id (ap_now call) (w_database w)) |>.
Proof.
  unfold preview_invitation. intros Hr. apply repo_guard in Hr as [[-> _]|(o & _ & Hr)]; [by left|].
  assert (w' = w <| w_database := snd (service_invitation_preview o id (ap_now call) (w_database w)) |>) as ->.
  { rewrite <- gateway_snd. apply repo_bind_inv in Hr as [(a & w1 & Hr & Hm)|(e & Hr & _)]; [injection Hm as _ ->|];
      unfold in_database in Hr; destruct (gateway _ _); by injection Hr as _ <-. }
  destruct (preview_snd o id (ap_now call) (w_database w)) as [-> | ->]; [left; by destruct w|by right].
Qed.

(** C20: nothing changes without authority.  A request to the API that changes the database or the data plane is an
    enrollment (whose authority is the invitation it presents), the preview of an invitation, which may only mark that
    invitation as expired, or it was sent by somebody who may: an operator whose session holds an unexpired identity with
    the permission that the route asks for, or a workload whose bearer token the identity service accepted, which has
    the permission and whose database, company and organization are those of the work. *)
Theorem api_changes_are_authorized request w r w' :
  handle request w = (r, w') -> w' = w \/ authorized_change request w w'.
Proof.
  intros Hr. destruct (read_only request) eqn:Hro; [left; symmetry; by apply (read_only_same _ Hro _ _ _ Hr)|].
  destruct request; try discriminate Hro; cbn [api_handle] in Hr; cbn [authorized_change].
  - peel Hr b Hb. right. destruct body as [b'|]; [|done]. apply Ok_inj in Hb as ->. exists b. split; [done|].
    unfold enroll_handler in Hr. apply repo_bind_inv in Hr as [(a & w1 & Hr & Hm)|(e & Hr & _)]; [injection Hm as _ ->|]; by rewrite Hr.
  - peel Hr i Hi. destruct (InvitationId_from_str invitation_id) as [i'|] eqn:Ei; [|done]. apply Ok_inj in Hi as ->.
    apply preview_changes in Hr as [?|?]; [by left|right; eauto].
  - peel Hr p Hp. peel Hr a Ha. unfold retire_agent_credentials_handler in Hr. peel Hr u Hu. right. eauto using operator_of, unit_Ok.
  - peel Hr p Hp. peel Hr a Ha. peel Hr k Hk. peel Hr b Hb. unfold create_job in Hr. peel Hr u Hu. right.
    eauto using operator_of, unit_Ok.
  - peel Hr p Hp. peel Hr a Ha. unfold cancel_job_handler in Hr. peel Hr u Hu. right. eauto using operator_of, unit_Ok.
  - peel Hr p Hp. peel Hr b Hb. unfold preflight_handler in Hr. peel Hr u Hu. peel Hr v Hv. right.
    destruct body as [b'|]; [|done]. apply Ok_inj in Hb as ->.
    exists p, b. split; [done|]. split; [eauto using workload_of, unit_Ok|]. apply in_scope_of. by apply unit_Ok with v.
  - peel Hr p Hp. peel Hr k Hk. peel Hr b Hb. unfold submit_handler in Hr. peel Hr u Hu. peel Hr v Hv. right.
    destruct body as [b'|]; [|done]. apply Ok_inj in Hb as ->.
    exists p, b. split; [done|]. split; [eauto using workload_of, unit_Ok|]. apply in_scope_of. by apply unit_Ok with v.
Qed.
End Authorization.

(** ** Tenants and the audit log *)
Section Tenants.
Context `{Encoding, Sha256, Ed25519, Ed25519Signing, HexDecode, Rfc3339Auto, Canonicalizer, PolicyJson, Collation}.
Context `{Rfc3339, DispatchJson, Hpke, Aes256Gcm, Base64Decode, ManagedPayloadKeyWrapper, DeadlineFormat}.
Context `{KeyExpressions, JsonText, Thumbprint, X509, InventoryCodec, FactsCodec, ChronoRange, Onboarding.UrlOps, Base32}.
Context `{JwtValidation, FromTimestamp, HeaderText}.
Context (service : ManagedGatewayService) (onboarding : option OnboardingService) (identity_service : option IdentityService).
Context (call : ApiCall).
Notation self := (ManagedGatewayController_new service).
Notation handle := (api_handle service onboarding identity_service call).
Notation workload := (workload identity_service call).

(** Success of a handler that begins with a check. *)
Lemma guard_Ok {A B} (r : AppResult A) (f : A -> App B) w b w' : (returns r ≫= f) w = (Ok b, w') ->
  exists a, r = Ok a /\ f a w = (Ok b, w').
Proof. intros [(_ & e & _ & [=])|Ha]%repo_guard. done. Qed.

Lemma get_managed_work_scope p id w resp w' : get_managed_work service call p id w = (Ok resp, w') ->
  exists record, resp = RespWork record /\ in_scope p (wk_scope record) /\ WorkloadPrincipal_require p "managed_work:read" = Ok tt.
Proof.
  unfold get_managed_work, acquire_inari_api_permit. intros ([] & Hq & Hr)%guard_Ok. apply guard_Ok in Hr as (_ & _ & Hr).
  apply repo_bind_Ok in Hr as (record & w1 & _ & Hr). apply guard_Ok in Hr as ([] & Hs & Hr). injection Hr as <- _.
  exists record. split_and!; [done|by apply in_scope_of|done].
Qed.

Lemma inventory_scope p w resp w' : get_workload_inventory service call p w = (Ok resp, w') ->
  exists inventory, resp = RespInventory inventory /\ WorkloadPrincipal_require p "inventory:read" = Ok tt /\
    wi_organization_id p = EnrollmentService.sv_organization_id service /\
    wi_scope inventory = mkWorkloadScope (wi_database p) (wi_company_id p) (wi_organization_id p).
Proof.
  unfold get_workload_inventory, acquire_inari_api_permit. intros ([] & Hq & Hr)%guard_Ok. apply guard_Ok in Hr as (_ & _ & Hr).
  apply repo_bind_Ok in Hr as (inventory & w1 & Hi & Hr). injection Hr as <- _. exists inventory.
  unfold service_workload_inventory in Hi. apply guard_Ok in Hi as (_ & _ & Hi). apply guard_Ok in Hi as (_ & Ho%ensure_Ok & Hi).
  apply String.eqb_eq in Ho. apply repository_Ok in Hi as (db & Hi & _).
  split_and!; [done|done|done|]. unfold workload_inventory in Hi. apply transaction_Ok in Hi. by tx_inv Hi.
Qed.
(** Follows a successful handler to its response. *)
Ltac unwind Hr :=
  repeat first [apply guard_Ok in Hr as (? & _ & Hr) | apply repo_bind_Ok in Hr as (? & ? & _ & Hr)];
  first [injection Hr as <- _; exact I
        | unfold returns in Hr; destruct (header_from_str _); [injection Hr as <- _; exact I|discriminate Hr]].

(** C21: workloads are isolated.  Whatever a workload asks for, the Managed Work it reads, by identifier or by idempotency
    key, belongs to the database, company and organization of its token, the inventory it reads is that of the
    Controller's own organization and the token's, and the work that is accepted from it is for its own scope. *)
Theorem workloads_are_isolated request w resp w' : handle request w = (Ok resp, w') ->
  match resp with
  | RespWork record => exists p, workload "managed_work:read" p /\ in_scope p (wk_scope record)
  | RespInventory inventory => exists p, workload "inventory:read" p /\
      wi_organization_id p = EnrollmentService.sv_organization_id service /\
      wi_scope inventory = mkWorkloadScope (wi_database p) (wi_company_id p) (wi_organization_id p)
  | RespAcceptedWork _ _ => exists p key b, request = PostManagedWork key (Ok b) /\ workload "managed_work:write" p /\
      in_scope p (dw_scope (sub_work b))
  | _ => True
  end.
Proof.
  destruct request; cbn [api_handle]; intros Hr;
    repeat match type of Hr with (returns _ ≫= _) _ = _ => apply guard_Ok in Hr as (? & ? & Hr) end.
  1-11, 17: unfold enroll_handler, preview_invitation, list_sites, list_agents, get_agent, retire_agent_credentials_handler,
    list_devices, list_jobs_handler, create_job, get_job, cancel_job_handler, list_audit_events, accepted_job,
    acquire_inari_api_permit in Hr; unwind Hr.
  - apply inventory_scope in Hr as (inventory & -> & Hq & Ho & Hs). eauto 6 using workload_of.
  - unfold preflight_handler, acquire_inari_api_permit in Hr. unwind Hr.
  - unfold submit_handler, acquire_inari_api_permit in Hr. apply guard_Ok in Hr as ([] & Hq & Hr).
    apply guard_Ok in Hr as ([] & Hs%in_scope_of & Hr). unfold accepted_managed_work in Hr.
    do 2 apply guard_Ok in Hr as (? & _ & Hr). do 2 apply repo_bind_Ok in Hr as (? & ? & _ & Hr).
    unfold returns in Hr. destruct (header_from_str _); [injection Hr as <- _|discriminate Hr].
    destruct body as [b|]; simplify_eq/=. eauto 8 using workload_of.
  - apply get_managed_work_scope in Hr as (record & -> & Hs & Hq). eauto using workload_of.
  - unfold find_managed_work_handler in Hr. apply guard_Ok in Hr as (id & _ & Hr).
    apply get_managed_work_scope in Hr as (record & -> & Hs & Hq). eauto using workload_of.
Qed.

Lemma from_path prefix label v id : api_path (resource_id_from_str prefix label v) = Ok id -> id = v.
Proof. unfold api_path. destruct (resource_id_from_str _ _ _) as [a|] eqn:E; [|done]. apply resource_id_Ok in E as [-> _]. by intros [= ->]. Qed.
(** The newest event of the audit log. *)
Definition newest_event (db : Database) : option AuditEventRow := audit_events db !! audit_event_id_seq db.
Lemma recorded_Ok t d w u w' : service_record_audit_event service t d w = (Ok u, w') ->
  newest_event (w_database w') = Some (audit_event_row t d (audit_event_id_seq (w_database w'))).
Proof.
  unfold service_record_audit_event. intros (_ & _ & Hr)%guard_Ok. apply repository_Ok in Hr as (db & Hr & ->).
  unfold record_audit_event in Hr. apply transaction_Ok, insert_audit_event_Ok in Hr as [_ ->].
  unfold newest_event. simpl. by rewrite lookup_insert_eq.
Qed.
Definition audited (draft : AuditEventDraft) (w' : World) : Prop :=
  newest_event (w_database w') = Some (audit_event_row (ap_occurred_at call) draft (audit_event_id_seq (w_database w'))).

(** Accepted work is accountable.  A job that is created or cancelled, and Managed Work that is submitted, is
    accepted only after the newest event of the audit log says so: who asked for it, the identity of the session or of
    the bearer token, what was asked, for which resource, and the identifier of the request. *)
Theorem accepted_requests_are_audited request w resp w' : handle request w = (Ok resp, w') ->
  match resp with
  | RespAcceptedJob _ receipt => exists p action job, operator call JobsWrite p /\
      audited (mkDraft (EnrollmentService.sv_organization_id service) (si_actor_id p) action (ResJob job) Succeeded
                 (request_id_value call)) w' /\
      match request with
      | PostJob _ _ _ => action = ActJobCreated /\ job = jr_job_id receipt
      | PutCancellation id => action = ActJobCancellationRequested /\ job = id
      | _ => False
      end
  | RespAcceptedWork _ receipt => exists p, workload "managed_work:write" p /\
      audited (mkDraft (wi_organization_id p) (wi_actor_id p) ActManagedWorkSubmitted
                 (ResManagedWork (wr_managed_work_id receipt)) Succeeded (request_id_value call)) w'
  | _ => True
  end.
Proof.
  destruct request; cbn [api_handle]; intros Hr;
    repeat match type of Hr with (returns _ ≫= _) _ = _ => let Hg := fresh "Hg" in apply guard_Ok in Hr as (? & Hg & Hr) end.
  1-8, 10, 12, 13, 15-17: unfold enroll_handler, preview_invitation, list_sites, list_agents, get_agent,
    retire_agent_credentials_handler, list_devices, list_jobs_handler, get_job, get_workload_inventory, preflight_handler,
    find_managed_work_handler, get_managed_work, list_audit_events, acquire_inari_api_permit in Hr; unwind Hr.
  - unfold create_job, acquire_inari_api_permit in Hr. apply guard_Ok in Hr as ([] & Hq & Hr).
    do 2 apply guard_Ok in Hr as (? & _ & Hr). apply repo_bind_Ok in Hr as (receipt & w1 & _ & Hr).
    apply repo_bind_Ok in Hr as (u & w2 & Ha%recorded_Ok & Hr). unfold accepted_job, returns in Hr.
    destruct (header_from_str _); [injection Hr as <- <-|discriminate Hr]. unfold job_draft in Ha. eauto 10 using operator_of.
  - unfold cancel_job_handler, acquire_inari_api_permit in Hr. apply guard_Ok in Hr as ([] & Hq & Hr).
    apply guard_Ok in Hr as (? & _ & Hr). apply repo_bind_Ok in Hr as (receipt & w1 & _ & Hr).
    apply repo_bind_Ok in Hr as (u & w2 & Ha%recorded_Ok & Hr). unfold accepted_job, returns in Hr.
    destruct (header_from_str _); [injection Hr as <- <-|discriminate Hr]. unfold job_draft in Ha.
    apply from_path in Hg0 as ->. eauto 10 using operator_of.
  - unfold submit_handler, acquire_inari_api_permit in Hr. apply guard_Ok in Hr as ([] & Hq & Hr).
    apply guard_Ok in Hr as ([] & Hs%in_scope_of & Hr). do 2 apply guard_Ok in Hr as (? & _ & Hr).
    apply repo_bind_Ok in Hr as (receipt & w1 & _ & Hr). apply repo_bind_Ok in Hr as (u & w2 & Ha%recorded_Ok & Hr).
    unfold accepted_managed_work, returns in Hr. destruct (header_from_str _); [injection Hr as <- <-|discriminate Hr].
    destruct Hs as (_ & _ & Ho). rewrite <- Ho in Ha. eauto 8 using workload_of.
Qed.
End Tenants.
