(* ===== verification/HttpDemo.v ===== *)
(** * Sample requests

    The HTTP API over the sample service: an operator creates a job, a workload reads its Managed Work. *)
From stdpp Require Import relations.
From S2P Require Import Prelude Framing Json Errors Identifiers InvitationCode Protocol Schema Samples AuditLog.
From S2P Require Import RouterPolicy Commands Security Observations Inventory Keys Onboarding Enrollment.
From S2P Require Import Publications Retirement ManagedWork Dispatch AuthorityVersion System Fleet.
From S2P Require Import FleetPolicy AccessControl DataTls Supervisor RouterLife ServerErrors AdmissionController EndToEnd.
From S2P Require Import PayloadProtection DispatchSigner ManagedGateway GatewayConfig EnrollmentService GatewayLife GatewayDemo.
From S2P Require Import Negotiation Identity HttpApi.

Import LifeToy.
#[local] Existing Instances System.demo_inventory EndToEnd.demo_json.
#[local] Existing Instances demo_rfc3339 demo_hpke demo_aes demo_base64 demo_wrapper demo_deadline demo_keys demo_text
  demo_dispatch_json.
#[local] Existing Instances IdentityToy.toy_jwt IdentityToy.toy_timestamp.
#[local] Instance demo_header : HeaderText := {| header_to_str := Some; header_from_str := Some |}.
#[local] Instance demo_urls : Onboarding.UrlOps :=
  Onboarding.Build_UrlOps string (fun u => u) (fun u _ => u) (fun u => u) (fun u _ => u) (fun u p => Ok (u ++ p)).

Definition http_operator : Session := mkSession (Some IdentityToy.toy_identity) None.
Definition http_call : ApiCall :=
  mkApiCall (Some http_operator) IdentityToy.no_faults (Some "Bearer work") (Some "request-1") (seconds 112) (Ok tt)
    (seconds 112) gate_call (mkEnrollCall sample_enroll_clock gate_call)
    (mkEnqueueCall gate_call (mkEnqueueClock (seconds 111) (seconds 111) (seconds 111)) (mkPublishCall gate_later (Ok tt) (seconds 112)))
    (mkPreflightCall gate_call (seconds 111) None) gate_submit.
Notation serve := (api_handle gate_service (None : option OnboardingService) (Some IdentityToy.toy_service) http_call).
Definition http_job : ApiRequest := PostJob demo_agent (Some "key-1") (Ok (JobExecuteDeviceCommand (mkExecuteDeviceCommand "dev_scale" OpenCashDrawer []))).
Definition http_created := serve http_job gate_world.
Definition http_read := serve (GetManagedWork "mw_1") (snd gate_submitted).

Lemma api_changes_are_authorized_witness : snd http_created <> gate_world /\
  authorized_change gate_service (Some IdentityToy.toy_service) http_call http_job gate_world (snd http_created).
Proof.
  assert (snd http_created <> gate_world) as Hne.
  { intros E. apply (f_equal w_published) in E. vm_compute in E. discriminate E. }
  split; [exact Hne|].
  destruct (api_changes_are_authorized gate_service None (Some IdentityToy.toy_service) http_call http_job gate_world
    (fst http_created) (snd http_created) (surjective_pairing _)) as [E|Ha]; [destruct (Hne E)|exact Ha].
Defined.
Lemma workloads_are_isolated_witness : exists record, fst http_read = Ok (RespWork record) /\
  exists p, workload (Some IdentityToy.toy_service) http_call "managed_work:read" p /\ in_scope p (wk_scope record).
Proof.
  assert (match fst http_read with Ok (RespWork _) => true | _ => false end = true) as Hread by (vm_compute; reflexivity).
  unfold http_read in *. destruct (serve (GetManagedWork "mw_1") (snd gate_submitted)) as [[resp|e] w'] eqn:E; [|discriminate Hread].
  pose proof (workloads_are_isolated gate_service None (Some IdentityToy.toy_service) http_call (GetManagedWork "mw_1")
    (snd gate_submitted) resp w' E) as Hthm. cbn [fst] in Hread.
  destruct resp; try discriminate Hread. exists r. split; [reflexivity|exact Hthm].
Defined.
Lemma accepted_requests_are_audited_witness : exists location receipt, fst http_created = Ok (RespAcceptedJob location receipt) /\
  exists p, operator http_call JobsWrite p.
Proof.
  assert (match fst http_created with Ok (RespAcceptedJob _ _) => true | _ => false end = true) as Hjob by (vm_compute; reflexivity).
  unfold http_created in *. destruct (serve http_job gate_world) as [[resp|e] w'] eqn:E; [|discriminate Hjob].
  pose proof (accepted_requests_are_audited gate_service None (Some IdentityToy.toy_service) http_call http_job gate_world resp w' E) as Hthm.
  cbn [fst] in Hjob. destruct resp as [| | | | | | | | |location receipt| | | | |]; try discriminate Hjob.
  exists location, receipt. split; [reflexivity|]. destruct Hthm as (p & _ & _ & Hp & _). exists p. exact Hp.
Defined.
