(* ===== verification/WebFunctions.v ===== *)
(** * Server functions of the operator pages

    [crates/inari-web/src/server_fns.rs] and [server_fns/ssr.rs]: what the pages ask the Controller for.  A function has
    the session of its request and the onboarding service, if there is one; it works on the repository of that service.
    The QR code of an invitation is third-party. *)
From stdpp Require Import relations.
From S2P Require Import Prelude Errors Identifiers InvitationCode Protocol Schema AuditLog Onboarding Fleet System.
From S2P Require Import ServerErrors Identity.

(** ** Data *)
Inductive OnboardingError : Type :=
| WebDisabled
| WebForbidden
| WebInvalidRequest (detail : string)
| WebNotFound
| WebConflict (detail : string)
| WebUnavailable
| WebInternal
| WebTransport.
Definition OnboardingError_to_string (e : OnboardingError) : string :=
  match e with
  | WebDisabled => "Managed onboarding is not enabled on this controller."
  | WebForbidden => "Operator authentication failed."
  | WebInvalidRequest detail | WebConflict detail => detail
  | WebNotFound => "The invitation was not found."
  | WebUnavailable => "Managed onboarding is temporarily unavailable."
  | WebInternal => "The request could not be completed."
  | WebTransport => "The controller request failed."
  end.
Inductive WebInvitationState : Set := WebCreated | WebEnrolled | WebOnline | WebExpired | WebFailed | WebRevoked.
Definition WebInvitationState_from (s : InvitationState) : WebInvitationState :=
  match s with
  | InvCreated => WebCreated | InvEnrolled => WebEnrolled | InvOnline => WebOnline
  | InvExpired => WebExpired | InvFailed => WebFailed | InvRevoked => WebRevoked
  end.
Definition WebInvitationState_label (s : WebInvitationState) : string :=
  match s with
  | WebCreated => "Ready" | WebEnrolled => "Enrolled" | WebOnline => "Online"
  | WebExpired => "Expired" | WebFailed => "Failed" | WebRevoked => "Revoked"
  end.
Definition is_revocable (s : WebInvitationState) : bool := match s with WebCreated => true | _ => false end.
Inductive WebCertificateMode : Set := WebCertNone | WebCertController | WebCertStepCa.
Definition WebCertificateMode_from (m : CertificateMode) : WebCertificateMode :=
  match m with CertNone => WebCertNone | CertController => WebCertController | CertStepCa => WebCertStepCa end.
Record WebInvitationStatus := mkWebInvitationStatus {
  ws_invitation_id : string; ws_site_id : string; ws_label : option string; ws_state : WebInvitationState;
  ws_expires_at : instant; ws_agent_id : option string }.
Definition WebInvitationStatus_from (i : InvitationStatus) : WebInvitationStatus :=
  mkWebInvitationStatus (is_invitation_id i) (is_site_id i) (is_label i) (WebInvitationState_from (is_state i))
    (is_expires_at i) (is_agent_id i).
Record WebInvitationPreview := mkWebInvitationPreview {
  wp_invitation_id : string; wp_site_id : string; wp_expires_at : instant; wp_state : WebInvitationState;
  wp_controller_name : option string; wp_controller_instance_id : string; wp_supported_protocol_versions : list string;
  wp_certificate_mode : WebCertificateMode; wp_requires_mutual_tls_after_issuance : bool }.
Definition WebInvitationPreview_from (p : InvitationPreview) : WebInvitationPreview :=
  mkWebInvitationPreview (ip_invitation_id p) (ip_site_id p) (ip_expires_at p) (WebInvitationState_from (ip_state p))
    (ip_controller_name p) (ip_controller_instance_id p) (ip_supported_protocol_versions p)
    (WebCertificateMode_from (ip_certificate_mode p)) (ip_requires_mutual_tls_after_issuance p).
Record SiteOverview := mkSiteOverview { so_site_id : string; so_name : string; so_agent_count : Z; so_device_count : Z }.
Record FleetOverview := mkFleetOverview {
  fo_site_count : Z; fo_agent_count : Z; fo_online_agent_count : Z; fo_device_count : Z; fo_sites : list SiteOverview }.
Inductive FleetAvailability : Type := FleetAvailable (overview : FleetOverview) | FleetDisabled.

Definition onboarding_error (e : GatewayError) : OnboardingError :=
  match e with
  | InvalidInput detail => WebInvalidRequest detail
  | Forbidden _ => WebForbidden
  | NotFound _ => WebNotFound
  | Conflict detail => WebConflict detail
  | Errors.Unavailable _ => WebUnavailable
  | _ => WebInternal
  end.

(** ** The functions *)
(** [qrcode]: the picture of a text as a data URI. *)
Class QrCode := qr_data_uri : string -> option string.
(** A request of a page: its session, the store's faults and the clock. *)
Record WebCall := mkWebCall {
  wb_session : option Session;
  wb_faults : SessionFaults;
  wb_now : instant;
  wb_occurred_at : instant;
  wb_entropy : option string * option string;
}.

Section Functions.
Context `{Collation, Onboarding.UrlOps, ChronoRange, Sha256, Base32, QrCode}.
Context (url_as_str : url -> string) (context : option OnboardingService) (call : WebCall).
Notation Web := (repo Database OnboardingError).

Record WebIssuedInvitation := mkWebIssued {
  wn_invitation_id : string; wn_invitation_url : url; wn_qr_data_uri : string; wn_manual_code : string; wn_expires_at : instant }.

Definition web_onboarding : result OnboardingError OnboardingService := ok_or context WebDisabled.
(** Errors of the store are internal errors; so is a request without a session layer. *)
Definition require_permission (permission : Permission) : result OnboardingError SessionIdentity :=
  session ← ok_or (wb_session call) WebInternal;
  _ ← ensure (negb (sf_read (wb_faults call))) WebInternal;
  identity ← ok_or (ss_identity session) WebForbidden;
  if si_expires_at identity <=? wb_now call then
    _ ← ensure (negb (sf_flush (wb_faults call))) WebInternal; Err WebForbidden
  else ensure (session_grants identity permission) WebForbidden ≫= fun _ => Ok identity.
(** The session after the check: an expired one has been flushed. *)
Definition require_permission_session : option Session :=
  match wb_session call with
  | Some session =>
      if sf_read (wb_faults call) then Some session else
      match ss_identity session with
      | Some stored => if (si_expires_at stored <=? wb_now call) && negb (sf_flush (wb_faults call))
                         then Some (mkSession None None) else Some session
      | None => Some session
      end
  | None => None
  end.
Definition web_audit_context (identity : SessionIdentity) : AuditContext := mkAuditContext (si_actor_id identity) None.
Definition repository_call {A} (m : Repo A) : Web A := fun db =>
  match m db with (Ok a, db') => (Ok a, db') | (Err e, db') => (Err (onboarding_error e), db') end.

Definition load_fleet_overview : Web FleetAvailability :=
  match context with
  | None => mret FleetDisabled
  | Some service =>
      _ ← returns (require_permission FleetRead);
      sites ← repository_call (fleet_sites (sv_organization_id service));
      agents ← repository_call (fleet_agents (sv_organization_id service) None (wb_now call));
      mret (FleetAvailable (mkFleetOverview (Z.of_nat (length sites)) (Z.of_nat (length agents))
        (Z.of_nat (length (List.filter (fun a => match ah_state (as_health a) with AgentOnline => true | _ => false end) agents)))
        (foldr (fun s n => ss_device_count s + n) 0 sites)
        ((fun s => mkSiteOverview (ss_site_id s) (ss_name s) (ss_agent_count s) (ss_device_count s)) <$> sites)))
  end.
Definition issue_invitation (label : option string) : Web WebIssuedInvitation :=
  service ← returns web_onboarding;
  identity ← returns (require_permission EnrollmentManage);
  issued ← repository_call (service_create_invitation service label (web_audit_context identity) (fst (wb_entropy call))
             (snd (wb_entropy call)) (wb_now call) (wb_occurred_at call));
  qr ← returns (ok_or (qr_data_uri (url_as_str (ii_invitation_url issued))) WebInternal);
  mret (mkWebIssued (ii_invitation_id issued) (ii_invitation_url issued) qr (ii_manual_code issued) (ii_expires_at issued)).
Definition load_invitations : Web (list WebInvitationStatus) :=
  service ← returns web_onboarding;
  _ ← returns (require_permission EnrollmentManage);
  invitations ← repository_call (service_invitations service (wb_now call));
  mret (WebInvitationStatus_from <$> invitations).
Definition parse_invitation_id (id : string) : result OnboardingError string :=
  match InvitationId_from_str id with Ok i => Ok i | Err e => Err (onboarding_error e) end.
Definition revoke_invitation_function (invitation_id : string) : Web WebInvitationStatus :=
  service ← returns web_onboarding;
  identity ← returns (require_permission EnrollmentManage);
  id ← returns (parse_invitation_id invitation_id);
  status ← repository_call (service_revoke_invitation service id (web_audit_context identity) (wb_now call) (wb_occurred_at call));
  mret (WebInvitationStatus_from status).
Definition load_invitation (invitation_id : string) : Web WebInvitationPreview :=
  id ← returns (parse_invitation_id invitation_id);
  service ← returns web_onboarding;
  preview ← repository_call (service_invitation_preview service id (wb_now call));
  mret (WebInvitationPreview_from preview).
End Functions.

(** ** What the functions change *)
Section Authorized.
Context `{Collation, Onboarding.UrlOps, ChronoRange, Sha256, Base32, QrCode}.
Context (url_as_str : url -> string) (context : option OnboardingService) (call : WebCall).

Inductive WebFunction : Type :=
| FnFleetOverview | FnIssueInvitation (label : option string) | FnInvitations | FnRevoke (invitation_id : string)
| FnInvitation (invitation_id : string).
Definition web_run (f : WebFunction) (db : Database) : bool * Database :=
  match f with
  | FnFleetOverview => let '(r, db') := load_fleet_overview context call db in (is_ok r, db')
  | FnIssueInvitation label => let '(r, db') := issue_invitation url_as_str context call label db in (is_ok r, db')
  | FnInvitations => let '(r, db') := load_invitations context call db in (is_ok r, db')
  | FnRevoke id => let '(r, db') := revoke_invitation_function context call id db in (is_ok r, db')
  | FnInvitation id => let '(r, db') := load_invitation context call id db in (is_ok r, db')
  end.
Definition web_operator (permission : Permission) (p : SessionIdentity) : Prop :=
  (exists s, wb_session call = Some s /\ ss_identity s = Some p) /\ wb_now call < si_expires_at p /\
  session_grants p permission = true.
Lemma require_permission_Ok permission p : require_permission call permission = Ok p -> web_operator permission p.
Proof.
  unfold require_permission, web_operator. intros Hp. apply ok_or_bind_Ok in Hp as (s & Hs & Hp).
  apply ensure_bind_Ok in Hp as [_ Hp]. apply ok_or_bind_Ok in Hp as (id & Hi & Hp).
  destruct (Z.leb_spec (si_expires_at id) (wb_now call)) as [|Hn].
  - by apply ensure_bind_Ok in Hp as [_ Hp].
  - apply ensure_bind_Ok in Hp as [Hg Hp]. apply Ok_inj in Hp as <-. eauto.
Qed.
Lemma repository_call_inv {A} (m : Repo A) db r db' : repository_call m db = (r, db') -> db' = snd (m db).
Proof. unfold repository_call. destruct (m db) as [[] ?]; by intros [= _ <-]. Qed.
Lemma call_then {A B} (m : Repo A) (f : A -> repo Database OnboardingError B) db r db' :
  (forall a d, snd (f a d) = d) -> (repository_call m ≫= f) db = (r, db') -> db' = snd (m db).
Proof.
  intros Hf [(a & db1 & Hm%repository_call_inv & Hr)|(e & Hm%repository_call_inv & _)]%repo_bind_inv; [|done].
  rewrite <- Hm, <- (Hf a db1). by rewrite Hr.
Qed.

(** What a function may change, and on whose behalf. *)
Definition web_authorized (f : WebFunction) (db db' : Database) : Prop :=
  match f with
  | FnFleetOverview => False
  | FnIssueInvitation label => exists service p, context = Some service /\ web_operator EnrollmentManage p /\
      db' = snd (service_create_invitation service label (web_audit_context p) (fst (wb_entropy call)) (snd (wb_entropy call))
                   (wb_now call) (wb_occurred_at call) db)
  | FnInvitations => exists service p, context = Some service /\ web_operator EnrollmentManage p /\
      db' = snd (service_invitations service (wb_now call) db)
  | FnRevoke id => exists service p i, context = Some service /\ web_operator EnrollmentManage p /\
      InvitationId_from_str id = Ok i /\
      db' = snd (service_revoke_invitation service i (web_audit_context p) (wb_now call) (wb_occurred_at call) db)
  | FnInvitation id => exists service i, context = Some service /\ InvitationId_from_str id = Ok i /\
      db' = snd (service_invitation_preview service i (wb_now call) db)
  end.
Lemma parse_invitation_id_Ok id i : parse_invitation_id id = Ok i -> InvitationId_from_str id = Ok i.
Proof. unfold parse_invitation_id. destruct (InvitationId_from_str id); [|done]. by intros [= ->]. Qed.

(** Only operators manage invitations.  Whatever an operator page asks for, an invitation is created, listed or revoked
    only for a session that holds an unexpired identity with the permission to manage enrollment, and the audit log
    names that identity; the fleet overview changes nothing, and the preview of an invitation at most marks overdue
    invitations as expired. *)
Theorem web_changes_are_authorized f db ok db' : web_run f db = (ok, db') -> db' = db \/ web_authorized f db db'.
Proof.
  destruct f as [|label| |id|id]; cbn [web_run web_authorized].
  - destruct (load_fleet_overview context call db) as [r d] eqn:E. intros [= _ <-]. left.
    unfold load_fleet_overview in E. destruct context as [service|]; [|by injection E as _ <-].
    apply repo_guard in E as [[-> _]|(p & _ & E)]; [done|].
    apply repo_bind_inv in E as [(a & d1 & Hm%repository_call_inv & E)|(e & Hm%repository_call_inv & _)]; [|done].
    cbn in Hm. subst d1. by eapply call_then in E as ->.
  - destruct (issue_invitation url_as_str context call label db) as [r d] eqn:E. intros [= _ <-].
    unfold issue_invitation in E. peel E service Hc. peel E p Hp. apply ok_or_Ok in Hc. right. exists service, p.
    split; [done|]. split; [by apply require_permission_Ok|].
    eapply call_then; [|exact E]. intros a d0. unfold mbind, repo_bind, returns. by destruct (qr_data_uri (url_as_str (ii_invitation_url a))).
  - destruct (load_invitations context call db) as [r d] eqn:E. intros [= _ <-].
    unfold load_invitations in E. peel E service Hc. peel E p Hp. apply ok_or_Ok in Hc. right. exists service, p.
    split; [done|]. split; [by apply require_permission_Ok|]. by eapply call_then in E.
  - destruct (revoke_invitation_function context call id db) as [r d] eqn:E. intros [= _ <-].
    unfold revoke_invitation_function in E. peel E service Hc. peel E p Hp. peel E i Hi. apply ok_or_Ok in Hc. right.
    exists service, p, i. split_and!; [done|by apply require_permission_Ok|by apply parse_invitation_id_Ok|].
    by eapply call_then in E.
  - destruct (load_invitation context call id db) as [r d] eqn:E. intros [= _ <-].
    unfold load_invitation in E. peel E i Hi. peel E service Hc. apply ok_or_Ok in Hc. right. exists service, i.
    split_and!; [done|by apply parse_invitation_id_Ok|]. by eapply call_then in E.
Qed.
End Authorized.

(** ** A sample page *)
Module WebToy.
Import IdentityToy.
#[local] Instance web_range : ChronoRange := fun _ => true.
#[local] Instance web_sha256 : Sha256 := fun _ => "hhhhhhhhhhhhhhhhhhhhhhhhhhhhhhhh".
#[local] Instance web_base32 : Base32 := fun s => s.
#[local] Instance web_qr : QrCode := Some.
#[local] Instance web_collation : Collation := String.leb.
#[local] Instance web_urls : Onboarding.UrlOps :=
  Onboarding.Build_UrlOps string (fun u => u) (fun u _ => u) (fun u => u) (fun u _ => u) (fun u p => Ok (u ++ p)).
Definition web_database : Database :=
  snd (ensure_organization "org_acme" "Acme" "site_main" "Main" 0 empty_database).
Definition web_service : OnboardingService :=
  mkOnboardingService true (Some "https://inari.example/") None "controller-1" "org_acme" "site_main" (minutes 10)
    ["2026-10-03"] CertStepCa true.
Definition web_admin : SessionIdentity := mkSessionIdentity "oidc:alice" None None [EnrollmentAdmin] (seconds 300).
Definition web_call : WebCall :=
  mkWebCall (Some (mkSession (Some web_admin) None)) no_faults (seconds 100) (seconds 100)
    (Some "ABCDEFGH2345", Some "ABCDEFGHABCDEFGHABCDEFGHABCDEFGH").
Definition web_issued : bool * Database := web_run (fun u => u) (Some web_service) web_call (FnIssueInvitation (Some "Desk")) web_database.
Lemma web_changes_are_authorized_witness : fst web_issued = true /\
  web_authorized (Some web_service) web_call (FnIssueInvitation (Some "Desk")) web_database (snd web_issued).
Proof.
  split; [vm_compute; reflexivity|].
  destruct (web_changes_are_authorized (H0:=web_urls) (fun u => u) (Some web_service) web_call (FnIssueInvitation (Some "Desk")) web_database
    (fst web_issued) (snd web_issued) (surjective_pairing _)) as [E|Ha]; [|exact Ha].
  apply (f_equal (fun d => size (invitations d))) in E. vm_compute in E. discriminate E.
Defined.
End WebToy.
