(* ===== verification/ZenohRuntime.v ===== *)
(** * The Zenoh session of the Controller

    [crates/inari-server/src/zenoh/supervisor], [command.rs], [status.rs], [handle.rs] and [session/generation.rs]: the
    task that opens the one Zenoh session of the process, publishes its status and the session itself, carries out
    commands, and reopens the session when it is lost.  What a step waits for is its event; the outcome of a network
    operation and whether the session is closed come with it.  A command is known by the number of its reply channel. *)
From stdpp Require Import relations.
From S2P Require Import Prelude ServerErrors.

(** ** Status and events *)
Inductive ZenohConnectionState : Set := ZDisabled | ZStarting | ZConnected | ZReconnecting | ZDegraded | ZShuttingDown.
Record ZenohStatus := mkZenohStatus {
  zs_state : ZenohConnectionState; zs_attempt : Z; zs_message : option string; zs_observed_at : instant }.
Definition status_disabled : instant -> ZenohStatus := mkZenohStatus ZDisabled 0 (Some "Zenoh is disabled.").
Definition status_starting (attempt : Z) : instant -> ZenohStatus :=
  mkZenohStatus ZStarting attempt (Some "Attempting to establish the Zenoh session.").
Definition status_connected (attempt : Z) : instant -> ZenohStatus :=
  mkZenohStatus ZConnected attempt (Some "Zenoh session established.").
Definition status_reconnecting (attempt : Z) (message : string) : instant -> ZenohStatus := mkZenohStatus ZReconnecting attempt (Some message).
Definition status_degraded (attempt : Z) (message : string) : instant -> ZenohStatus := mkZenohStatus ZDegraded attempt (Some message).
Definition status_shutting_down : instant -> ZenohStatus :=
  mkZenohStatus ZShuttingDown 0 (Some "Zenoh supervisor is shutting down.").
Inductive ZenohEvent : Type :=
| ZEvDisabled
| ZEvConnecting (attempt : Z)
| ZEvConnected (attempt : Z)
| ZEvReconnecting (attempt : Z) (message : string)
| ZEvFailed (attempt : Z) (message : string)
| ZEvShuttingDown
| ZEvPublishRequested (key : string) (bytes : Z)
| ZEvDeleteRequested (key : string).

(** ** Counters *)
Definition u64_saturating_add (a b : Z) : Z := Z.min (a + b) u64_max.
Definition AttemptCounter_next (current : Z) : Z := Z.max (u64_saturating_add current 1) 1.
Definition Attempt_is_first (attempt : Z) : bool := attempt =? 1.
Definition SessionGeneration_next (generation : Z) : Z := u64_saturating_add generation 1.

(** ** Sessions, commands and states *)
(** A session is its Zenoh identifier with the generation of this process. *)
Record CurrentSession := mkCurrentSession { cs_zid : string; cs_generation : Z }.
Inductive Command : Type :=
| CommandPublish (key payload encoding : string) (attachment : option string) (respond_to : nat)
| CommandDelete (key : string) (respond_to : nat).
Definition respond_to (c : Command) : nat := match c with CommandPublish _ _ _ _ n | CommandDelete _ n => n end.
Definition requested_event (c : Command) : ZenohEvent :=
  match c with
  | CommandPublish key payload _ _ _ => ZEvPublishRequested key (str_len payload)
  | CommandDelete key _ => ZEvDeleteRequested key
  end.
(** The error of [session::publish] and [session::delete]. *)
Definition command_error (c : Command) : AppError :=
  match c with
  | CommandPublish _ _ _ _ _ => service_unavailable "Zenoh publish failed."
  | CommandDelete _ _ => service_unavailable "Zenoh delete failed."
  end.
Inductive SupervisorState : Type :=
| Opening (attempt : Z)
| Ready (session : CurrentSession) (attempt : Z)
| Degraded (attempt : Z) (error : string) (retry_at : instant)
| ShuttingDown (session : option CurrentSession).

(** The supervisor with what it shares: the published status and session, the events it sent, the replies it gave, and
    the sessions it closed.  The status and the session are two watch channels that tasks on other threads read at any
    moment; [zr_boards] is every pair of values the two have ever held, oldest first.  [zr_opened], [zr_lost] and [zr_received] record what happened: the sessions that were opened,
    those that were found closed, and the commands taken from the queue. *)
Record Runtime := mkRuntime {
  zr_state : SupervisorState;
  zr_attempts : Z;
  zr_generation : Z;
  zr_signals_closed : bool;
  zr_status : ZenohStatus;
  zr_session : option CurrentSession;
  zr_boards : list (ZenohStatus * option CurrentSession);
  zr_events : list ZenohEvent;
  zr_responses : list (nat * AppResult unit);
  zr_closed : list CurrentSession;
  zr_finished : bool;
  zr_opened : list CurrentSession;
  zr_lost : list CurrentSession;
  zr_received : list Command;
}.
#[global] Instance Runtime_eta : Eta Runtime := fun r =>
  mkRuntime (zr_state r) (zr_attempts r) (zr_generation r) (zr_signals_closed r) (zr_status r) (zr_session r) (zr_boards r) (zr_events r)
    (zr_responses r) (zr_closed r) (zr_finished r) (zr_opened r) (zr_lost r) (zr_received r).

(** ** Publishing *)
Record Publication := mkPublication {
  pu_status : instant -> ZenohStatus; pu_session : option CurrentSession; pu_event : option ZenohEvent }.
Definition RETRY_MESSAGE : string := "Retrying Zenoh session open.".
Definition publication (s : SupervisorState) : Publication :=
  match s with
  | Opening attempt =>
      if Attempt_is_first attempt then mkPublication (status_starting attempt) None (Some (ZEvConnecting attempt))
      else mkPublication (status_reconnecting attempt RETRY_MESSAGE) None (Some (ZEvReconnecting attempt RETRY_MESSAGE))
  | Ready session attempt => mkPublication (status_connected attempt) (Some session) (Some (ZEvConnected attempt))
  | Degraded attempt error _ => mkPublication (status_degraded attempt error) None (Some (ZEvFailed attempt error))
  | ShuttingDown _ => mkPublication status_shutting_down None (Some ZEvShuttingDown)
  end.
Definition disabled_publication : Publication := mkPublication status_disabled None (Some ZEvDisabled).
Definition record_event (event : ZenohEvent) (r : Runtime) : Runtime := r <| zr_events := (zr_events r ++ [event])%list |>.
(** [watch::Sender::send_replace], of either channel. *)
Definition send_status (status : ZenohStatus) (r : Runtime) : Runtime :=
  r <| zr_status := status |> <| zr_boards := (zr_boards r ++ [(status, zr_session r)])%list |>.
Definition send_session (session : option CurrentSession) (r : Runtime) : Runtime :=
  r <| zr_session := session |> <| zr_boards := (zr_boards r ++ [(zr_status r, session)])%list |>.
(** Two writes: between them the status is new and the session old. *)
Definition publish (now : instant) (p : Publication) (r : Runtime) : Runtime :=
  let r := send_session (pu_session p) (send_status (pu_status p now) r) in
  match pu_event p with Some event => record_event event r | None => r end.
Definition enter (now : instant) (s : SupervisorState) (r : Runtime) : Runtime := publish now (publication s) r <| zr_state := s |>.

(** ** Configuration *)
Definition MIN_RETRY_INTERVAL : Z := seconds 1.
Definition enabled_retry_interval (open_retry_interval : Z) : Z := Z.max open_retry_interval MIN_RETRY_INTERVAL.

(** ** Steps *)
Definition next_attempt (r : Runtime) : Z * Runtime :=
  let attempt := AttemptCounter_next (zr_attempts r) in (attempt, r <| zr_attempts := attempt |>).
Definition next_generation (r : Runtime) : Z * Runtime :=
  let generation := SessionGeneration_next (zr_generation r) in (generation, r <| zr_generation := generation |>).
Definition Degraded_after (now : instant) (attempt : Z) (error : string) (delay : Z) : SupervisorState := Degraded attempt error (now + delay).
Definition respond (c : Command) (response : AppResult unit) (r : Runtime) : Runtime :=
  r <| zr_responses := (zr_responses r ++ [(respond_to c, response)])%list |>.
Definition received (c : Command) (r : Runtime) : Runtime :=
  record_event (requested_event c) r <| zr_received := (zr_received r ++ [c])%list |>.

Section Steps.
Context (retry_interval : Z).

Inductive OpeningEvent : Type := OpeningShutdown | Opened (result : AppResult string).
(** [closed]: what [Session::is_closed] says; [done]: whether the network carried the command out. *)
Inductive ReadyEvent : Type :=
| ReadyShutdown
| ReadySignal (signal : option string) (closed : bool)
| ReadyCommand (command : option Command) (done : bool) (closed : bool).
Inductive DegradedEvent : Type :=
| DegradedShutdown
| DegradedSignal (signal : option string)
| DegradedCommand (command : option Command)
| DegradedRetry.

Definition step_opening (now : instant) (attempt : Z) (event : OpeningEvent) (r : Runtime) : Runtime :=
  match event with
  | OpeningShutdown => enter now (ShuttingDown None) r
  | Opened (Ok zid) =>
      let '(generation, r) := next_generation r in
      let lease := mkCurrentSession zid generation in
      enter now (Ready lease attempt) (r <| zr_opened := (zr_opened r ++ [lease])%list |>)
  | Opened (Err error) => enter now (Degraded_after now attempt (AppError_to_string error) retry_interval) r
  end.
Definition lose (session : CurrentSession) (r : Runtime) : Runtime := r <| zr_lost := (zr_lost r ++ [session])%list |>.
Definition handle_ready_signal (now : instant) (session : CurrentSession) (attempt : Z) (message : string) (closed : bool)
    (r : Runtime) : Runtime :=
  if closed then enter now (Degraded_after now attempt message retry_interval) (lose session r) else r.
Definition execute_ready (c : Command) (done : bool) (r : Runtime) : option string * Runtime :=
  let response := if done then Ok tt else Err (command_error c) in
  (if done then None else Some (AppError_to_string (command_error c)), respond c response r).
Definition handle_ready_command (now : instant) (session : CurrentSession) (attempt : Z) (c : Command) (done closed : bool)
    (r : Runtime) : Runtime :=
  let '(error, r) := execute_ready c done (received c r) in
  if closed then
    let message := match error with Some e => e | None => "Zenoh session is closed." end in
    enter now (Degraded_after now attempt message retry_interval) (lose session r)
  else r.
Definition step_ready (now : instant) (session : CurrentSession) (attempt : Z) (event : ReadyEvent) (r : Runtime) : Runtime :=
  match event with
  | ReadyShutdown => enter now (ShuttingDown (Some session)) r
  | ReadySignal (Some signal) closed => handle_ready_signal now session attempt signal closed r
  | ReadySignal None _ => r <| zr_signals_closed := true |>
  | ReadyCommand (Some command) done closed => handle_ready_command now session attempt command done closed r
  | ReadyCommand None _ _ => enter now (ShuttingDown (Some session)) r
  end.
Definition unavailable_message : string := "Zenoh session is unavailable.".
Definition step_degraded (now : instant) (event : DegradedEvent) (r : Runtime) : Runtime :=
  match event with
  | DegradedShutdown => enter now (ShuttingDown None) r
  | DegradedSignal (Some _) => r
  | DegradedSignal None => r <| zr_signals_closed := true |>
  | DegradedCommand (Some command) =>
      respond command (Err (service_unavailable unavailable_message)) (received command r)
  | DegradedCommand None => enter now (ShuttingDown None) r
  | DegradedRetry => let '(attempt, r) := next_attempt r in enter now (Opening attempt) r
  end.
Definition finish_shutdown (session : option CurrentSession) (r : Runtime) : Runtime :=
  match session with Some s => r <| zr_closed := (zr_closed r ++ [s])%list |> | None => r end <| zr_finished := true |>.

(** [ZenohSupervisor::new] and the beginning of [run]. *)
Definition runtime_new (created now : instant) : Runtime :=
  let r := mkRuntime (Opening 0) 0 0 false (status_starting 0 created) None [(status_starting 0 created, None)] [] [] [] false [] [] [] in
  let '(attempt, r) := next_attempt r in enter now (Opening attempt) r.

(** The loop of [run]: what may happen next at a time.  A receiver of signals that has closed is not polled again, and
    the timer fires at its time. *)
Inductive runtime_step (now : instant) (r : Runtime) : Runtime -> Prop :=
| run_opening attempt event : zr_state r = Opening attempt -> runtime_step now r (step_opening now attempt event r)
| run_ready session attempt event : zr_state r = Ready session attempt ->
    (forall s c, event = ReadySignal s c -> zr_signals_closed r = false) ->
    runtime_step now r (step_ready now session attempt event r)
| run_degraded attempt error retry_at event : zr_state r = Degraded attempt error retry_at ->
    (forall s, event = DegradedSignal s -> zr_signals_closed r = false) ->
    (event = DegradedRetry -> retry_at <= now) ->
    runtime_step now r (step_degraded now event r)
| run_shutting_down session : zr_state r = ShuttingDown session -> zr_finished r = false ->
    runtime_step now r (finish_shutdown session r).
(** Executions from [start], with the time of the last step. *)
Inductive runtime_reachable (start : instant) : instant -> Runtime -> Prop :=
| runtime_start created : runtime_reachable start start (runtime_new created start)
| runtime_later t now r r' : runtime_reachable start t r -> t <= now -> runtime_step now r r' -> runtime_reachable start now r'.
End Steps.

(** ** The supervisor of a disabled integration *)
Inductive DisabledEvent : Type := DisabledShutdown | DisabledSignal (signal : option string) | DisabledCommand (command : option Command).
(** The flag says whether the loop has ended. *)
Definition step_disabled (now : instant) (event : DisabledEvent) (r : Runtime) : bool * Runtime :=
  match event with
  | DisabledShutdown | DisabledCommand None =>
      (true, publish now (mkPublication status_shutting_down None (Some ZEvShuttingDown)) r <| zr_finished := true |>)
  | DisabledSignal (Some _) => (false, r)
  | DisabledSignal None => (false, r <| zr_signals_closed := true |>)
  | DisabledCommand (Some command) =>
      (false, respond command (Err (service_unavailable "Zenoh integration is disabled.")) (received command r))
  end.

(** ** The handle *)
Definition session_snapshot (r : Runtime) : option CurrentSession := zr_session r.
Definition status_snapshot (r : Runtime) : ZenohStatus := zr_status r.
Definition connected_session (r : Runtime) : AppResult CurrentSession :=
  ok_or (session_snapshot r) (service_unavailable "Zenoh session is not connected.").
Definition should_report_fault (e : AppError) : bool := match e with AppServiceUnavailable _ _ => true | _ => false end.
(** The signal that a failed operation on the session sends, if any. *)
Definition finish_session_operation {A} (result : AppResult A) : AppResult A * option string :=
  (result, match result with Err e => if should_report_fault e then Some (AppError_to_string e) else None | Ok _ => None end).
(** [reply]: what came back, [None] when the supervisor stopped first; [accepted]: whether the queue took the command. *)
Definition send_unit_command (accepted : bool) (reply : option (AppResult unit)) : AppResult unit :=
  if negb accepted then Err (service_unavailable "Zenoh supervisor is not accepting requests.") else
  match reply with
  | Some response => response
  | None => Err (service_unavailable "Zenoh supervisor stopped before completing the request.")
  end.

(** ** The invariant *)
(** The session that is open now. *)
Definition held (r : Runtime) : list CurrentSession :=
  match zr_state r with
  | Ready s _ => [s]
  | ShuttingDown (Some s) => if zr_finished r then [] else [s]
  | _ => []
  end.
(** What the published status and session say of the state. *)
Definition published (r : Runtime) : Prop :=
  match zr_state r with
  | Opening a => a = zr_attempts r /\ zr_session r = None /\ zs_attempt (zr_status r) = a /\
                 zs_state (zr_status r) = if a =? 1 then ZStarting else ZReconnecting
  | Ready s a => a = zr_attempts r /\ zr_session r = Some s /\ zs_attempt (zr_status r) = a /\ zs_state (zr_status r) = ZConnected
  | Degraded a e at_ => a = zr_attempts r /\ zr_session r = None /\ zs_attempt (zr_status r) = a /\
                 zs_state (zr_status r) = ZDegraded /\ zs_message (zr_status r) = Some e
  | ShuttingDown _ => zr_session r = None /\ zs_state (zr_status r) = ZShuttingDown
  end.
Definition numbered (r : Runtime) : Prop :=
  zr_generation r = Z.min (Z.of_nat (length (zr_opened r))) u64_max /\
  forall i s, zr_opened r !! i = Some s -> cs_generation s = Z.min (Z.of_nat i + 1) u64_max.
Definition paced (start t : instant) (r : Runtime) : Prop :=
  1 <= zr_attempts r /\ (zr_attempts r - 1) * MIN_RETRY_INTERVAL <= t - start /\
  forall a e retry_at, zr_state r = Degraded a e retry_at -> zr_attempts r * MIN_RETRY_INTERVAL <= retry_at - start.
Record runtime_inv (start t : instant) (r : Runtime) : Prop := {
  ri_published : published r;
  ri_answered : fst <$> zr_responses r = respond_to <$> zr_received r;
  ri_sessions : zr_opened r = (zr_lost r ++ zr_closed r ++ held r)%list;
  ri_numbered : numbered r;
  ri_paced : paced start t r;
  ri_finished : if zr_finished r then exists s, zr_state r = ShuttingDown s else zr_closed r = [];
}.

Lemma numbered_open zid r : numbered r ->
  let '(generation, r') := next_generation r in
  numbered (r' <| zr_opened := (zr_opened r' ++ [mkCurrentSession zid generation])%list |>).
Proof.
  intros [Hg Ho]. unfold next_generation, numbered. simpl. rewrite length_app. simpl.
  unfold SessionGeneration_next, u64_saturating_add. split; [rewrite Hg; lia|].
  intros i s [Hi|[Hl Hs]]%lookup_app_Some; [by apply Ho|].
  apply list_lookup_singleton_Some in Hs as [Hx <-]. simpl. rewrite Hg. lia.
Qed.
Lemma paced_later start t now r : t <= now -> paced start t r -> paced start now r.
Proof. intros Hn (H1 & H2 & H3). split_and!; [done|lia|done]. Qed.

Section Invariant.
Context (retry_interval : Z) (Hretry : MIN_RETRY_INTERVAL <= retry_interval).

Lemma running start t r : runtime_inv start t r -> (forall s, zr_state r <> ShuttingDown s) ->
  zr_finished r = false /\ zr_closed r = [].
Proof. intros [_ _ _ _ _ Hf] Hs. destruct (zr_finished r); [|done]. by destruct Hf as [s Hf%Hs]. Qed.
Lemma interval_pos : 0 < MIN_RETRY_INTERVAL.
Proof. reflexivity. Qed.

Lemma enter_degraded start t now r a error : runtime_inv start t r -> t <= now ->
  (zr_state r = Opening a \/ exists s, zr_state r = Ready s a) ->
  runtime_inv start now (enter now (Degraded_after now a error retry_interval)
    match zr_state r with Ready s _ => lose s r | _ => r end).
Proof.
  intros Hi Ht Est. destruct (running _ _ _ Hi) as [Hfin Hcl]; [by intros s0; destruct Est as [->|[s ->]]|].
  destruct Hi as [Hp Ha Hs Hn (H1 & H2 & H3) Hf]. rewrite Hfin in Hf. unfold published, held in *.
  assert (a = zr_attempts r) as -> by (by destruct Est as [E|[s E]]; rewrite E in Hp; destruct Hp).
  pose proof interval_pos. rewrite Hcl in Hs.
  destruct Est as [E|[s E]]; rewrite E in *; (split; [done|done|simpl|exact Hn| |simpl; by rewrite Hfin]).
  - by rewrite Hcl.
  - split_and!; simpl; [done|lia|]. intros a e retry_at [= _ _ <-]. lia.
  - by rewrite Hcl, Hs, <- app_assoc.
  - split_and!; simpl; [done|lia|]. intros a e retry_at [= _ _ <-]. lia.
Qed.
Lemma enter_shutting_down start t now r o : runtime_inv start t r -> t <= now -> (forall s, zr_state r <> ShuttingDown s) ->
  option_list o = held r -> runtime_inv start now (enter now (ShuttingDown o) r).
Proof.
  intros Hi Ht Hns Ho. destruct (running _ _ _ Hi Hns) as [Hfin Hcl]. destruct Hi as [Hp Ha Hs Hn Hc Hf].
  split; [done|done| |exact Hn| |simpl; by rewrite Hfin].
  - unfold held at 1. simpl. rewrite Hs, <- Ho, Hfin. by destruct o.
  - destruct Hc as (H1 & H2 & H3). split_and!; simpl; [done|lia|done].
Qed.
Lemma keep_going start t now r r' : runtime_inv start t r -> t <= now ->
  zr_state r' = zr_state r -> zr_attempts r' = zr_attempts r -> zr_generation r' = zr_generation r -> zr_status r' = zr_status r ->
  zr_session r' = zr_session r -> zr_opened r' = zr_opened r -> zr_lost r' = zr_lost r -> zr_closed r' = zr_closed r ->
  zr_finished r' = zr_finished r -> fst <$> zr_responses r' = respond_to <$> zr_received r' -> runtime_inv start now r'.
Proof.
  intros [Hp Ha Hs Hn Hc Hf] Ht E1 E2 E3 E4 E5 E6 E7 E8 E9 Hr.
  split; [| |unfold held| | |]; rewrite ?E1, ?E6, ?E7, ?E8, ?E9; try done.
  - revert Hp. unfold published. by rewrite E1, E2, E4, E5.
  - revert Hn. unfold numbered. by rewrite E3, E6.
  - destruct Hc as (H1 & H2 & H3). unfold paced. rewrite E1, E2. split_and!; [done|lia|done].
Qed.
Lemma answered_app r c x : fst <$> zr_responses r = respond_to <$> zr_received r ->
  fst <$> (zr_responses r ++ [(respond_to c, x)])%list = respond_to <$> (zr_received r ++ [c])%list.
Proof. intros E. by rewrite !fmap_app, E. Qed.

Lemma opening_inv start t now r a event : runtime_inv start t r -> t <= now -> zr_state r = Opening a ->
  runtime_inv start now (step_opening retry_interval now a event r).
Proof.
  intros Hi Ht Est. destruct event as [|[zid|e]]; simpl step_opening.
  - eapply enter_shutting_down; [done|done| |]; [by rewrite Est|by unfold held; rewrite Est].
  - destruct (running _ _ _ Hi) as [Hfin Hcl]; [by rewrite Est|].
    destruct Hi as [Hp Ha Hs Hn Hc Hf]. pose proof (numbered_open zid r Hn) as Hn'. unfold next_generation in *.
    unfold published, held in *. rewrite Est in *. destruct Hp as (-> & _).
    split; [done|done| |exact Hn'| |simpl; by rewrite Hfin].
    + simpl. rewrite Hs, Hcl. simpl. by rewrite app_nil_r.
    + destruct Hc as (H1 & H2 & H3). split_and!; simpl; [done|lia|done].
  - pose proof (enter_degraded start t now r a (AppError_to_string e) Hi Ht (or_introl Est)) as Hd. by rewrite Est in Hd.
Qed.
Lemma ready_inv start t now r s a event : runtime_inv start t r -> t <= now -> zr_state r = Ready s a ->
  runtime_inv start now (step_ready retry_interval now s a event r).
Proof.
  intros Hi Ht Est.
  assert (forall r0, runtime_inv start now r0 -> zr_state r0 = Ready s a -> forall m,
    runtime_inv start now (enter now (Degraded_after now a m retry_interval) (lose s r0))) as Hdeg.
  { intros r0 Hi0 E0 m. pose proof (enter_degraded start now now r0 a m Hi0 ltac:(lia) (or_intror (ex_intro _ s E0))) as Hd.
    by rewrite E0 in Hd. }
  assert (runtime_inv start now r) as Hnow by (by eapply keep_going; [exact Hi|..]; try done; apply Hi).
  destruct event as [|[signal|] closed|[c|] done_ closed]; simpl step_ready.
  - eapply enter_shutting_down; [done|done| |]; [by rewrite Est|by unfold held; rewrite Est].
  - unfold handle_ready_signal. destruct closed; [by apply Hdeg|done].
  - by eapply keep_going; [exact Hi|..]; try done; apply Hi.
  - unfold handle_ready_command, execute_ready.
    assert (runtime_inv start now (respond c (if done_ then Ok tt else Err (command_error c)) (received c r))) as Hr.
    { eapply keep_going; [exact Hi|..]; try done. apply (answered_app r c), Hi. }
    destruct closed; [by apply Hdeg|done].
  - eapply enter_shutting_down; [done|done| |]; [by rewrite Est|by unfold held; rewrite Est].
Qed.
Lemma degraded_inv start t now r a e at_ event : runtime_inv start t r -> t <= now -> zr_state r = Degraded a e at_ ->
  (event = DegradedRetry -> at_ <= now) -> runtime_inv start now (step_degraded now event r).
Proof.
  intros Hi Ht Est Hretry_at. destruct event as [|[signal|]|[c|]|]; simpl step_degraded.
  - eapply enter_shutting_down; [done|done| |]; [by rewrite Est|by unfold held; rewrite Est].
  - by eapply keep_going; [exact Hi|..]; try done; apply Hi.
  - by eapply keep_going; [exact Hi|..]; try done; apply Hi.
  - eapply keep_going; [exact Hi|..]; try done. apply (answered_app r c), Hi.
  - eapply enter_shutting_down; [done|done| |]; [by rewrite Est|by unfold held; rewrite Est].
  - destruct (running _ _ _ Hi) as [Hfin Hcl]; [by rewrite Est|]. destruct Hi as [Hp Ha Hs Hn (H1 & H2 & H3) Hf].
    specialize (Hretry_at eq_refl). specialize (H3 _ _ _ Est). pose proof interval_pos.
    assert (AttemptCounter_next (zr_attempts r) <= zr_attempts r + 1 /\ 1 <= AttemptCounter_next (zr_attempts r)) as [Hle Hge]
      by (unfold AttemptCounter_next, u64_saturating_add; lia).
    unfold next_attempt. cbv beta iota zeta. unfold enter, publish, publication.
    destruct (Attempt_is_first (AttemptCounter_next (zr_attempts r))) eqn:Ef; unfold Attempt_is_first in Ef;
      (split; [|exact Ha| |exact Hn| |simpl; by rewrite Hfin]).
    1,4: unfold published; simpl; by rewrite Ef.
    1,3: simpl; unfold held in *; simpl; rewrite Est in Hs; done.
    all: split_and!; simpl; [done|nia|done].
Qed.
Lemma shutting_down_inv start t now r o : runtime_inv start t r -> t <= now -> zr_state r = ShuttingDown o -> zr_finished r = false ->
  runtime_inv start now (finish_shutdown o r).
Proof.
  intros [Hp Ha Hs Hn (H1 & H2 & H3) Hf] Ht Est Hfin. rewrite Hfin in Hf. unfold held in *. rewrite Est, Hfin in Hs.
  unfold published in Hp. rewrite Est in Hp.
  unfold finish_shutdown. destruct o as [s|]; (split; [|done| |exact Hn| |simpl; eauto]).
  1,4: unfold published; simpl; by rewrite Est.
  1,3: simpl; unfold held; simpl; rewrite Est, Hs, ?Hf; by rewrite ?app_nil_r.
  all: split_and!; simpl; [done|lia|]; rewrite Est; done.
Qed.
Lemma runtime_reachable_inv start t r : runtime_reachable retry_interval start t r -> runtime_inv start t r.
Proof.
  induction 1 as [created|t now r r' _ IH Ht Hs].
  - split; [done|done|done|split; [done|]; by intros [|i] s [=]| |done].
    split_and!; [done|change (0 <= start - start); lia|done].
  - destruct Hs as [a event E|s a event E _|a e at_ event E _ Hat|o E Hfin].
    + by eapply opening_inv.
    + by eapply ready_inv.
    + by eapply degraded_inv.
    + by eapply shutting_down_inv.
Qed.
End Invariant.

(** ** What other tasks see *)
(** The status says [Connected] exactly when there is a session. *)
Definition settled (b : ZenohStatus * option CurrentSession) : Prop := zs_state b.1 = ZConnected <-> b.2 <> None.
(** A disagreement ends with the next write, of the session that belongs to the status. *)
Definition boards_inv (r : Runtime) : Prop :=
  list.last (zr_boards r) = Some (zr_status r, zr_session r) /\ settled (zr_status r, zr_session r) /\
  forall i b, zr_boards r !! i = Some b -> settled b \/ exists b', zr_boards r !! S i = Some b' /\ b'.1 = b.1 /\ settled b'.
Lemma publication_settled now s : settled (pu_status (publication s) now, pu_session (publication s)).
Proof. destruct s; simpl; try done. by destruct (Attempt_is_first attempt). Qed.
Lemma boards_inv_same r r' : boards_inv r -> zr_boards r' = zr_boards r -> zr_status r' = zr_status r -> zr_session r' = zr_session r ->
  boards_inv r'.
Proof. unfold boards_inv. by intros ? -> -> ->. Qed.
Lemma enter_boards now s r : boards_inv r -> boards_inv (enter now s r).
Proof.
  intros (Hlast & Hset & Hall). pose proof (publication_settled now s) as Hp.
  apply (boards_inv_same (send_session (pu_session (publication s)) (send_status (pu_status (publication s) now) r)));
    [|unfold enter, publish; by destruct (pu_event (publication s))..].
  unfold boards_inv, send_session, send_status. cbn. rewrite <- app_assoc. split_and!; [by rewrite list.last_app|done|].
  set (mid := (pu_status (publication s) now, zr_session r)). set (new := (pu_status (publication s) now, pu_session (publication s))).
  intros i b [Hi|[Hge Hi]]%lookup_app_Some.
  - destruct (Hall i b Hi) as [?|(b' & Hn & ?)]; [by left|]. right. exists b'. split; [|done]. by apply lookup_app_l_Some.
  - destruct (i - length (zr_boards r))%nat as [|[|k]] eqn:Ei; simpl in Hi; simplify_eq.
    + right. exists new. split; [|done]. rewrite lookup_app_r by lia. by replace (S i - length (zr_boards r))%nat with 1%nat by lia.
    + by left.
Qed.
Lemma runtime_step_boards retry_interval now r r' : boards_inv r -> runtime_step retry_interval now r r' -> boards_inv r'.
Proof.
  intros Hb. destruct 1 as [a event _|s a event _ _|a e at_ event _ _ _|o _ _].
  - destruct event as [|[zid|e]]; by apply enter_boards.
  - destruct event as [|[signal|] closed|[c|] d closed]; simpl; try by apply enter_boards.
    + unfold handle_ready_signal. destruct closed; [by apply enter_boards|done].
    + exact Hb.
    + unfold handle_ready_command, execute_ready. destruct closed; [by apply enter_boards|exact Hb].
  - destruct event as [|[signal|]|[c|]|]; simpl; try (exact Hb); by apply enter_boards.
  - apply (boards_inv_same r); [done|by destruct o..].
Qed.
Lemma runtime_reachable_boards retry_interval start t r : runtime_reachable retry_interval start t r -> boards_inv r.
Proof.
  induction 1 as [created|t now r r' _ IH _ Hs]; [|by eapply runtime_step_boards].
  apply (enter_boards start (Opening 1)). split_and!; [done|done|]. intros [|i] b [=]; subst. by left.
Qed.

(** ** What the supervisor guarantees *)
Section Guarantees.
Context (open_retry_interval : Z).
Notation retry_interval := (enabled_retry_interval open_retry_interval).
Lemma retry_interval_min : MIN_RETRY_INTERVAL <= retry_interval.
Proof. unfold enabled_retry_interval. lia. Qed.

(** C24: what the supervisor publishes is the truth, and nothing is lost.  Whenever the supervisor has taken a step, the
    published status is [Connected] exactly when a session is published, and that session is the one the supervisor holds.
    The two are written one after the other, so other tasks may find them in disagreement in between, but in whole
    executions a disagreement never outlasts the write of the session that belongs to the status.  Every command that
    was taken from the queue has been answered once, in its order.  Every session that was ever opened is the one held now,
    was found closed, or has been closed by the supervisor; when it has finished it holds none.  No two sessions have the
    same generation, and from the start there was at most one attempt to open a session per second. *)
Theorem zenoh_supervisor_is_truthful start t r : runtime_reachable retry_interval start t r ->
  settled (zr_status r, zr_session r) /\
  list.last (zr_boards r) = Some (zr_status r, zr_session r) /\
  (forall i b, zr_boards r !! i = Some b -> settled b \/ exists b', zr_boards r !! S i = Some b' /\ b'.1 = b.1 /\ settled b') /\
  (forall s, zr_session r = Some s <-> exists a, zr_state r = Ready s a) /\
  fst <$> zr_responses r = respond_to <$> zr_received r /\
  zr_opened r = (zr_lost r ++ zr_closed r ++ held r)%list /\ (zr_finished r = true -> held r = []) /\
  (Z.of_nat (length (zr_opened r)) <= u64_max -> NoDup (cs_generation <$> zr_opened r)) /\
  (zr_attempts r - 1) * MIN_RETRY_INTERVAL <= t - start.
Proof.
  intros Hr. destruct (runtime_reachable_inv _ retry_interval_min _ _ _ Hr) as [Hp Ha Hs [Hg Hn] (_ & Hc & _) Hf].
  destruct (runtime_reachable_boards _ _ _ _ Hr) as (Hlast & Hset & Hboards). split_and!; try done.
  - intros s. unfold published in Hp. destruct (zr_state r) as [a|s' a|a e at_|o].
    + destruct Hp as (_ & -> & _). split; [done|by intros [? [=]]].
    + destruct Hp as (_ & -> & _). split; [intros [= ->]; eauto|by intros [? [= -> _]]].
    + destruct Hp as (_ & -> & _). split; [done|by intros [? [=]]].
    + destruct Hp as (-> & _). split; [done|by intros [? [=]]].
  - intros Hfin. rewrite Hfin in Hf. destruct Hf as [o Ho]. unfold held. rewrite Ho, Hfin. by destruct o.
  - intros Hl. apply NoDup_alt. intros i j g Hi Hj.
    apply list_lookup_fmap_Some in Hi as (s & -> & Hi). apply list_lookup_fmap_Some in Hj as (s' & E & Hj).
    rewrite (Hn _ _ Hi), (Hn _ _ Hj) in E. apply lookup_lt_Some in Hi, Hj. lia.
Qed.

(** A shutdown ends the supervisor.  From every reachable state in which it still runs, a shutdown request is taken
    next and the supervisor finishes in at most two steps, publishing that it is shutting down and holding no session. *)
Theorem zenoh_supervisor_shuts_down start t r : runtime_reachable retry_interval start t r -> zr_finished r = false ->
  exists r', rtc (runtime_step retry_interval t) r r' /\ zr_finished r' = true /\ zr_session r' = None /\
    zs_state (zr_status r') = ZShuttingDown /\ zr_opened r' = (zr_lost r' ++ zr_closed r')%list.
Proof.
  intros Hr Hfin. assert (exists o r1, rtc (runtime_step retry_interval t) r r1 /\ zr_state r1 = ShuttingDown o /\ zr_finished r1 = false)
    as (o & r1 & Hs & Est & Hf1).
  { destruct (zr_state r) as [a|s a|a e at_|o] eqn:Est.
    - exists None, (enter t (ShuttingDown None) r). split_and!; [|done|done]. apply rtc_once.
      by apply (run_opening _ _ _ a OpeningShutdown).
    - exists (Some s), (enter t (ShuttingDown (Some s)) r). split_and!; [|done|done]. apply rtc_once.
      by apply (run_ready _ _ _ s a ReadyShutdown).
    - exists None, (enter t (ShuttingDown None) r). split_and!; [|done|done]. apply rtc_once.
      by apply (run_degraded _ _ _ a e at_ DegradedShutdown).
    - exists o, r. split_and!; [apply rtc_refl|done|done]. }
  assert (runtime_reachable retry_interval start t r1) as Hr1.
  { clear -Hr Hs. induction Hs as [|x y z Hxy _ IH]; [done|]. apply IH. eapply runtime_later; [exact Hr|lia|done]. }
  exists (finish_shutdown o r1). split; [eapply rtc_r; [exact Hs|by apply run_shutting_down]|].
  assert (runtime_reachable retry_interval start t (finish_shutdown o r1)) as Hr2.
  { eapply runtime_later; [exact Hr1|lia|by apply run_shutting_down]. }
  destruct (runtime_reachable_inv _ retry_interval_min _ _ _ Hr2) as [Hp _ Hses _ _ _].
  assert (zr_state (finish_shutdown o r1) = ShuttingDown o) as E2 by (by destruct o).
  assert (zr_finished (finish_shutdown o r1) = true) as F2 by (by destruct o).
  unfold published in Hp. unfold held in Hses. rewrite E2, ?F2 in *. destruct Hp as [Hp1 Hp2].
  split_and!; try done. rewrite Hses. destruct o; by rewrite app_nil_r.
Qed.
End Guarantees.

(** ** A sample execution *)
(** The session opens, a command is carried out, the session is lost, and a command meanwhile is refused. *)
Definition sample_publish (n : nat) : Command := CommandPublish "inari/gateway/agt_1/commands" "payload" "application/json" None n.
Definition sample_session : CurrentSession := mkCurrentSession "a1" 1.
Definition sample_interval : Z := enabled_retry_interval (seconds 5).
Definition sample_0 : Runtime := runtime_new 0 (seconds 1).
Definition sample_1 : Runtime := step_opening sample_interval (seconds 2) 1 (Opened (Ok "a1")) sample_0.
Definition sample_2 : Runtime := step_ready sample_interval (seconds 3) sample_session 1 (ReadyCommand (Some (sample_publish 7)) true false) sample_1.
Definition sample_3 : Runtime := step_ready sample_interval (seconds 4) sample_session 1 (ReadySignal (Some "lost") true) sample_2.
Definition sample_4 : Runtime := step_degraded (seconds 5) (DegradedCommand (Some (sample_publish 8))) sample_3.
Lemma sample_reachable : runtime_reachable sample_interval (seconds 1) (seconds 5) sample_4.
Proof.
  apply (runtime_later _ _ (seconds 4) _ sample_3);
    [|discriminate|apply (run_degraded _ _ _ 1 "lost" (seconds 9) (DegradedCommand (Some (sample_publish 8)))); [reflexivity|discriminate|discriminate]].
  apply (runtime_later _ _ (seconds 3) _ sample_2);
    [|discriminate|apply (run_ready _ _ _ sample_session 1 (ReadySignal (Some "lost") true)); reflexivity].
  apply (runtime_later _ _ (seconds 2) _ sample_1);
    [|discriminate|apply (run_ready _ _ _ sample_session 1 (ReadyCommand (Some (sample_publish 7)) true false)); [reflexivity|discriminate]].
  apply (runtime_later _ _ (seconds 1) _ sample_0); [|discriminate|apply (run_opening _ _ _ 1 (Opened (Ok "a1"))); reflexivity].
  apply runtime_start.
Qed.
Lemma zenoh_supervisor_is_truthful_witness :
  zr_lost sample_4 = [sample_session] /\ fst <$> zr_responses sample_4 = [7%nat; 8%nat] /\
  zr_boards sample_4 !! 3%nat = Some (status_connected 1 (seconds 2), None) /\ settled (zr_status sample_4, zr_session sample_4).
Proof.
  split; [reflexivity|]. split; [reflexivity|]. split; [reflexivity|].
  exact (proj1 (zenoh_supervisor_is_truthful (seconds 5) (seconds 1) (seconds 5) sample_4 sample_reachable)).
Defined.
Lemma zenoh_supervisor_shuts_down_witness :
  zr_finished sample_4 = false /\ exists r', rtc (runtime_step sample_interval (seconds 5)) sample_4 r' /\ zr_finished r' = true.
Proof.
  split; [reflexivity|].
  destruct (zenoh_supervisor_shuts_down (seconds 5) (seconds 1) (seconds 5) sample_4 sample_reachable eq_refl) as (r' & Hs & Hf & _).
  exists r'. split; [exact Hs|exact Hf].
Defined.
