(* ===== verification/Readiness.v ===== *)
(** * Readiness of the Controller

    [crates/inari-server/src/state.rs], [http/routes/system.rs], [managed_gateway/mod.rs] ([router_policy_readiness]), the
    readiness tasks of [app.rs] and the status page of [http/mod.rs].  The watch channel holds the last snapshot and
    counts its notifications; the Zenoh supervisor is that of [ZenohRuntime] and the health of the Router policy that of
    [AdmissionController]. *)
From S2P Require Import Prelude ServerErrors AdmissionController ZenohRuntime.

(** ** Levels and components *)
Inductive ReadinessLevel : Set := LevelReady | LevelStarting | LevelDegraded | LevelDisabled.
Definition level_as_str (l : ReadinessLevel) : string :=
  match l with LevelReady => "ready" | LevelStarting => "starting" | LevelDegraded => "degraded" | LevelDisabled => "disabled" end.
Definition counts_as_ready (l : ReadinessLevel) : bool := match l with LevelReady | LevelDisabled => true | _ => false end.
#[global] Instance ReadinessLevel_eq_dec : EqDecision ReadinessLevel.
Proof. solve_decision. Defined.
Record ReadinessStatus := mkReadinessStatus { rd_level : ReadinessLevel; rd_summary : string }.
#[global] Instance ReadinessStatus_eq_dec : EqDecision ReadinessStatus.
Proof. solve_decision. Defined.
(** The marker types; a [ComponentReadiness<C>] is the status kept under its marker. *)
Inductive Component : Set := CHttp | CDatabase | CIdentity | CCertificate | CEnrollment | CRouterPolicy | CZenoh.
#[global] Instance Component_eq_dec : EqDecision Component.
Proof. solve_decision. Defined.
Definition component_name (c : Component) : string :=
  match c with
  | CHttp => "http" | CDatabase => "database" | CIdentity => "identity" | CCertificate => "certificate"
  | CEnrollment => "enrollment" | CRouterPolicy => "router_policy" | CZenoh => "zenoh"
  end.
Record ReadinessComponents := mkReadinessComponents {
  rc_http : ReadinessStatus; rc_database : ReadinessStatus; rc_identity : ReadinessStatus; rc_certificate : ReadinessStatus;
  rc_enrollment : ReadinessStatus; rc_router_policy : ReadinessStatus; rc_zenoh : ReadinessStatus }.
#[global] Instance ReadinessComponents_eta : Eta ReadinessComponents := fun r =>
  mkReadinessComponents (rc_http r) (rc_database r) (rc_identity r) (rc_certificate r) (rc_enrollment r) (rc_router_policy r) (rc_zenoh r).
Definition ReadinessComponents_new (http database identity' certificate enrollment zenoh : ReadinessStatus) : ReadinessComponents :=
  mkReadinessComponents http database identity' certificate enrollment
    (mkReadinessStatus LevelDisabled "Managed Router policy is disabled.") zenoh.
Definition component (c : Component) (rc : ReadinessComponents) : ReadinessStatus :=
  match c with
  | CHttp => rc_http rc | CDatabase => rc_database rc | CIdentity => rc_identity rc | CCertificate => rc_certificate rc
  | CEnrollment => rc_enrollment rc | CRouterPolicy => rc_router_policy rc | CZenoh => rc_zenoh rc
  end.
Definition set_slot (c : Component) (s : ReadinessStatus) (rc : ReadinessComponents) : ReadinessComponents :=
  match c with
  | CHttp => rc <| rc_http := s |> | CDatabase => rc <| rc_database := s |> | CIdentity => rc <| rc_identity := s |>
  | CCertificate => rc <| rc_certificate := s |> | CEnrollment => rc <| rc_enrollment := s |>
  | CRouterPolicy => rc <| rc_router_policy := s |> | CZenoh => rc <| rc_zenoh := s |>
  end.
Record ReadinessEntry := mkReadinessEntry {
  re_name : string; re_level : ReadinessLevel; re_summary : string; re_counts_as_ready : bool }.
Definition entry (rc : ReadinessComponents) (c : Component) : ReadinessEntry :=
  let s := component c rc in mkReadinessEntry (component_name c) (rd_level s) (rd_summary s) (counts_as_ready (rd_level s)).
Definition iteration : list Component := [CHttp; CDatabase; CIdentity; CCertificate; CEnrollment; CRouterPolicy; CZenoh].
Definition readiness_iter (rc : ReadinessComponents) : list ReadinessEntry := entry rc <$> iteration.
Definition is_ready (rc : ReadinessComponents) : bool := forallb re_counts_as_ready (readiness_iter rc).
Record ReadinessSnapshot := mkReadinessSnapshot { sn_observed_at : instant; sn_components : ReadinessComponents }.
Definition set_component (c : Component) (s : ReadinessStatus) (now : instant) (snapshot : ReadinessSnapshot) : ReadinessSnapshot :=
  mkReadinessSnapshot now (set_slot c s (sn_components snapshot)).
(** [Display]. *)
Definition snapshot_to_string (s : ReadinessSnapshot) : string :=
  (if is_ready (sn_components s) then "ready" else "not_ready") ++
  String.concat "" ((fun e => ", " ++ re_name e ++ "=" ++ level_as_str (re_level e)) <$> readiness_iter (sn_components s)).

(** ** Where the statuses come from *)
Definition bootstrapped : ReadinessStatus := mkReadinessStatus LevelReady "HTTP server bootstrap completed.".
Definition listening : ReadinessStatus := mkReadinessStatus LevelReady "HTTP listener is accepting connections.".
Definition ZenohReadiness_from (status : ZenohStatus) : ReadinessStatus :=
  match zs_state status with
  | ZDisabled => mkReadinessStatus LevelDisabled "Zenoh integration is disabled."
  | ZStarting | ZReconnecting => mkReadinessStatus LevelStarting (default "Zenoh session is still starting." (zs_message status))
  | ZConnected => mkReadinessStatus LevelReady "Zenoh session is connected."
  | ZDegraded => mkReadinessStatus LevelDegraded (default "Zenoh session is unavailable." (zs_message status))
  | ZShuttingDown => mkReadinessStatus LevelDegraded "Zenoh session is shutting down."
  end.
(** [RouterAdmissionController::readiness] with its texts. *)
Definition admission_readiness (health : RouterPolicyHealth) (now : instant) : ReadinessStatus :=
  match readiness health now with
  | StartingUp => mkReadinessStatus LevelStarting "Router policy awaits acknowledgment."
  | ReadyNow => mkReadinessStatus LevelReady "Every Router acknowledged the current policy."
  | AdmissionController.Degraded =>
      mkReadinessStatus LevelDegraded "Router acknowledgment is unavailable or expired. Managed admission is closed."
  end.
Definition router_policy_readiness (enabled : bool) (admission : option RouterPolicyHealth) (now : instant) : ReadinessStatus :=
  if negb enabled then mkReadinessStatus LevelDisabled "Managed Router policy is disabled." else
  match admission with
  | None => mkReadinessStatus LevelDegraded "Router admission is not configured."
  | Some health => admission_readiness health now
  end.

(** ** The state of the application that readiness depends on *)
Record AppState := mkAppState {
  ap_gateway_enabled : bool;
  ap_admission : option RouterPolicyHealth;
  ap_readiness : ReadinessSnapshot;
  ap_notified : nat;
}.
#[global] Instance AppState_eta : Eta AppState := fun a =>
  mkAppState (ap_gateway_enabled a) (ap_admission a) (ap_readiness a) (ap_notified a).
(** What [new_with_onboarding] looks at: which integrations were initialized, and whether enrollment is configured. *)
Record Integrations := mkIntegrations {
  in_onboarding : bool; in_identity : bool; in_certificate_issuer : bool; in_enrollment_enabled : bool;
  in_gateway_enabled : bool; in_admission : option RouterPolicyHealth }.
Definition ready_or_disabled (available : bool) (ready disabled : string) : ReadinessStatus :=
  if available then mkReadinessStatus LevelReady ready else mkReadinessStatus LevelDisabled disabled.
Definition new_with_onboarding (i : Integrations) (zenoh : ZenohStatus) (now : instant) : AppState :=
  mkAppState (in_gateway_enabled i) (in_admission i)
    (mkReadinessSnapshot now (ReadinessComponents_new bootstrapped
      (ready_or_disabled (in_onboarding i || in_identity i)
         "PostgreSQL connection pool is available." "Controller persistence is disabled.")
      (ready_or_disabled (in_identity i)
         "OIDC discovery and session storage are available." "Organization identity is disabled.")
      (ready_or_disabled (in_certificate_issuer i)
         "Agent certificate issuer is available." "Managed certificate issuance is disabled.")
      (ready_or_disabled (in_enrollment_enabled i)
         "Invitation enrollment is available." "Invitation enrollment is disabled.")
      (ZenohReadiness_from zenoh))) 0.

Definition readiness_snapshot (now : instant) (app : AppState) : ReadinessSnapshot :=
  set_component CRouterPolicy (router_policy_readiness (ap_gateway_enabled app) (ap_admission app) now) now (ap_readiness app).
(** [send_modify] always notifies, [send_if_modified] only of a change. *)
Definition send_modify (c : Component) (s : ReadinessStatus) (now : instant) (app : AppState) : AppState :=
  app <| ap_readiness := set_component c s now (ap_readiness app) |> <| ap_notified := S (ap_notified app) |>.
Definition update_http_readiness (s : ReadinessStatus) : instant -> AppState -> AppState := send_modify CHttp s.
Definition update_zenoh_readiness (status : ZenohStatus) : instant -> AppState -> AppState :=
  send_modify CZenoh (ZenohReadiness_from status).
Definition update_router_policy_readiness (now : instant) (app : AppState) : AppState :=
  let s := router_policy_readiness (ap_gateway_enabled app) (ap_admission app) now in
  if bool_decide (component CRouterPolicy (sn_components (ap_readiness app)) = s) then app else send_modify CRouterPolicy s now app.

(** ** The routes that report it *)
Record ReadinessResponse := mkReadinessResponse { rr_status : Z; rr_ready : bool; rr_readiness : ReadinessSnapshot }.
(** [GET /readyz]: the status code, and the body with the [ready] flag of its serialization. *)
Definition readyz (now : instant) (app : AppState) : ReadinessResponse :=
  let snapshot := readiness_snapshot now app in
  mkReadinessResponse (if is_ready (sn_components snapshot) then 200 else 503) (is_ready (sn_components snapshot)) snapshot.
Inductive ControllerComponentState : Set := StateReady | StateStarting | StateDegraded | StateDisabled.
Record ControllerComponent := mkControllerComponent {
  co_kind : Component; co_state : ControllerComponentState; co_summary : string }.
Record ControllerSnapshot := mkControllerSnapshot { co_ready : bool; co_components : list ControllerComponent }.
Definition controller_component (rc : ReadinessComponents) (kind : Component) : ControllerComponent :=
  let s := component kind rc in
  mkControllerComponent kind
    match rd_level s with
    | LevelReady => StateReady | LevelStarting => StateStarting | LevelDegraded => StateDegraded | LevelDisabled => StateDisabled
    end (rd_summary s).
(** The status page; its component kinds are those of readiness less the Router policy. *)
Definition controller_context (now : instant) (app : AppState) : ControllerSnapshot :=
  let rc := sn_components (readiness_snapshot now app) in
  mkControllerSnapshot (is_ready rc) (controller_component rc <$> [CHttp; CDatabase; CIdentity; CCertificate; CEnrollment; CZenoh]).
Definition shows_ready (c : ControllerComponent) : bool := match co_state c with StateReady | StateDisabled => true | _ => false end.

(** ** The running service *)
(** The supervisor of Zenoh, whether [sync_readiness] has read its last status, and the application. *)
Record Service := mkService { sc_zenoh : Runtime; sc_seen : bool; sc_app : AppState }.
#[global] Instance Service_eta : Eta Service := fun s => mkService (sc_zenoh s) (sc_seen s) (sc_app s).
Section Run.
Context (retry_interval : Z).

Inductive service_step (now : instant) (s : Service) : Service -> Prop :=
| service_zenoh r' seen' : runtime_step retry_interval now (sc_zenoh s) r' ->
    (seen' = true -> sc_seen s = true /\ zr_status r' = zr_status (sc_zenoh s)) ->
    service_step now s (s <| sc_zenoh := r' |> <| sc_seen := seen' |>)
| service_sync : service_step now s
    (s <| sc_app := update_zenoh_readiness (status_snapshot (sc_zenoh s)) now (sc_app s) |> <| sc_seen := true |>)
| service_tick : service_step now s (s <| sc_app := update_router_policy_readiness now (sc_app s) |>)
| service_health health : ap_admission (sc_app s) <> None ->
    service_step now s (s <| sc_app := sc_app s <| ap_admission := Some health |> |>)
| service_listening : service_step now s (s <| sc_app := update_http_readiness listening now (sc_app s) |>).
Inductive service_reachable (start : instant) : instant -> Service -> Prop :=
| service_start created i at_ : let r := runtime_new created start in
    service_reachable start start (mkService r true (new_with_onboarding i (status_snapshot r) at_))
| service_later t now s s' : service_reachable start t s -> t <= now -> service_step now s s' -> service_reachable start now s'.
End Run.

(** ** Lemmas *)
Lemma component_set_slot c c' s rc : component c (set_slot c' s rc) = if decide (c = c') then s else component c rc.
Proof. by destruct c, c'. Qed.
Lemma is_ready_spec rc : is_ready rc = true <-> forall c, counts_as_ready (rd_level (component c rc)) = true.
Proof.
  unfold is_ready, readiness_iter, iteration. simpl. rewrite !andb_true_iff. split.
  - intros (H1 & H2 & H3 & H4 & H5 & H6 & H7 & _) []; assumption.
  - intros Hc. split_and!; try apply (Hc CHttp) || apply (Hc CDatabase) || apply (Hc CIdentity) || apply (Hc CCertificate)
      || apply (Hc CEnrollment) || apply (Hc CRouterPolicy) || apply (Hc CZenoh); done.
Qed.
Lemma component_snapshot c now app : component c (sn_components (readiness_snapshot now app)) =
  if decide (c = CRouterPolicy) then router_policy_readiness (ap_gateway_enabled app) (ap_admission app) now
  else component c (sn_components (ap_readiness app)).
Proof. apply component_set_slot. Qed.

(** The part of the invariant about the application: the components that no task revises are ready or disabled, and the
    stored status of Zenoh is one the supervisor has published. *)
Record app_inv (app : AppState) : Prop := {
  ai_fixed : forall c, c <> CRouterPolicy -> c <> CZenoh ->
    counts_as_ready (rd_level (component c (sn_components (ap_readiness app)))) = true;
  ai_zenoh : exists status, component CZenoh (sn_components (ap_readiness app)) = ZenohReadiness_from status;
  ai_policy : ap_gateway_enabled app = false ->
    rd_level (component CRouterPolicy (sn_components (ap_readiness app))) = LevelDisabled;
}.
Lemma component_send_modify c' c s now app : component c' (sn_components (ap_readiness (send_modify c s now app))) =
  if decide (c' = c) then s else component c' (sn_components (ap_readiness app)).
Proof. apply component_set_slot. Qed.
Lemma send_modify_inv c s now app : app_inv app ->
  (c <> CRouterPolicy -> c <> CZenoh -> counts_as_ready (rd_level s) = true) ->
  (c = CZenoh -> exists status, s = ZenohReadiness_from status) ->
  (c = CRouterPolicy -> ap_gateway_enabled app = false -> rd_level s = LevelDisabled) ->
  app_inv (send_modify c s now app).
Proof.
  intros [Hf Hz Hp] H1 H2 H3. split.
  - intros c' Hr Hn. rewrite component_send_modify. case_decide; subst; auto.
  - rewrite component_send_modify. case_decide; subst; auto.
  - intros Hd. rewrite component_send_modify. case_decide; subst; auto.
Qed.
Lemma router_policy_disabled admission now : rd_level (router_policy_readiness false admission now) = LevelDisabled.
Proof. done. Qed.
Lemma router_policy_ready enabled admission now : counts_as_ready (rd_level (router_policy_readiness enabled admission now)) = true <->
  (enabled = true -> exists until, admission = Some (HealthReadyUntil until) /\ now < until).
Proof.
  unfold router_policy_readiness, admission_readiness, readiness. destruct enabled; simpl; [|naive_solver].
  destruct admission as [[|until|]|]; simpl; try (split; [done|intros H; by destruct (H eq_refl) as (? & ? & _)]).
  destruct (now <? until) eqn:E; simpl; bools; split; try done.
  - intros _ _. eauto.
  - intros H. destruct (H eq_refl) as (u & [= ->] & Hu). lia.
Qed.
Lemma ready_or_disabled_counts b r d : counts_as_ready (rd_level (ready_or_disabled b r d)) = true.
Proof. by destruct b. Qed.
Lemma new_with_onboarding_inv i zenoh now : app_inv (new_with_onboarding i zenoh now).
Proof. split; [|by exists zenoh|done]. intros [] ? ?; try done; apply ready_or_disabled_counts. Qed.

Section Truth.
Context (retry_interval : Z).

Lemma service_step_app now s s' : service_step retry_interval now s s' -> app_inv (sc_app s) -> app_inv (sc_app s').
Proof.
  intros Hs Hi. destruct Hs; simpl; [done| | | |].
  - apply send_modify_inv; [done|done| |done]. intros _. eauto.
  - unfold update_router_policy_readiness. case_bool_decide; [done|]. apply send_modify_inv; [done|done|done|].
    intros _ ->. apply router_policy_disabled.
  - destruct Hi. by split.
  - by apply send_modify_inv.
Qed.
Lemma service_inv start t s : service_reachable retry_interval start t s ->
  app_inv (sc_app s) /\ (exists t', t' <= t /\ runtime_reachable retry_interval start t' (sc_zenoh s)) /\
  (sc_seen s = true -> component CZenoh (sn_components (ap_readiness (sc_app s))) = ZenohReadiness_from (zr_status (sc_zenoh s))).
Proof.
  induction 1 as [created i at_ r|t now s s' _ (Hi & (t' & Ht' & Hr) & Hz) Ht Hs].
  { split_and!; [apply new_with_onboarding_inv|exists start; split; [lia|constructor]|done]. }
  split_and!; [by eapply service_step_app| |].
  - destruct Hs as [r' seen' Hs _| | | |]; simpl; try (exists t'; split; [lia|done]).
    exists now. split; [lia|]. eapply runtime_later; [done|lia|done].
  - destruct Hs as [r' seen' _ Hseen| | | |]; simpl.
    + intros [Es Est]%Hseen. rewrite Est. by apply Hz.
    + done.
    + unfold update_router_policy_readiness. case_bool_decide; [done|]. intros Es. exact (Hz Es).
    + done.
    + done.
Qed.
Lemma zenoh_counts_as_ready status : counts_as_ready (rd_level (ZenohReadiness_from status)) = true <->
  zs_state status = ZConnected \/ zs_state status = ZDisabled.
Proof. unfold ZenohReadiness_from. destruct (zs_state status); simpl; naive_solver. Qed.
Lemma app_ready now app : app_inv app -> (is_ready (sn_components (readiness_snapshot now app)) = true <->
  counts_as_ready (rd_level (component CZenoh (sn_components (ap_readiness app)))) = true /\
  (ap_gateway_enabled app = true -> exists until, ap_admission app = Some (HealthReadyUntil until) /\ now < until)).
Proof.
  intros [Hf _ _]. rewrite is_ready_spec, <- router_policy_ready. split.
  - intros Hc. generalize (Hc CZenoh), (Hc CRouterPolicy). by rewrite !component_snapshot.
  - intros [Hz Hp] c. rewrite component_snapshot. case_decide as E; [done|].
    destruct (decide (c = CZenoh)) as [->|Hn]; [done|auto].
Qed.
Lemma published_state start t r : MIN_RETRY_INTERVAL <= retry_interval -> runtime_reachable retry_interval start t r ->
  zs_state (zr_status r) <> ZDisabled /\ (zs_state (zr_status r) = ZConnected -> exists s a, zr_state r = Ready s a /\ zr_session r = Some s).
Proof.
  intros Hmin Hr. destruct (runtime_reachable_inv _ Hmin _ _ _ Hr) as [Hp _ _ _ _ _]. unfold published in Hp.
  destruct (zr_state r) as [a|s a|a e at_|o].
  - destruct Hp as (_ & _ & _ & ->). by destruct (a =? 1).
  - destruct Hp as (_ & ? & _ & ->). split; [done|eauto].
  - by destruct Hp as (_ & _ & _ & -> & _).
  - by destruct Hp as (_ & ->).
Qed.
End Truth.

(** [/readyz] tells the truth about the moment it is asked.  In every reachable state of a Controller with Zenoh enabled
    whose readiness task has read the last status of the supervisor, the route answers 200 exactly when the Zenoh session
    is open and, if the managed gateway is enabled, every Router's acknowledgment of the current policy is unexpired
    *now*, however old the stored snapshot is; otherwise it answers 503. *)
Theorem readyz_is_truthful open_retry_interval start t now s :
  service_reachable (enabled_retry_interval open_retry_interval) start t s -> sc_seen s = true ->
  rr_status (readyz now (sc_app s)) = (if rr_ready (readyz now (sc_app s)) then 200 else 503) /\
  (rr_ready (readyz now (sc_app s)) = true <->
   (exists session attempt, zr_state (sc_zenoh s) = Ready session attempt /\ zr_session (sc_zenoh s) = Some session) /\
   (ap_gateway_enabled (sc_app s) = true ->
      exists until, ap_admission (sc_app s) = Some (HealthReadyUntil until) /\ now < until)).
Proof.
  intros Hs Hseen. destruct (service_inv _ _ _ _ Hs) as (Hi & (t' & _ & Hr) & Hz). split; [done|].
  unfold readyz. cbn [rr_ready]. rewrite (app_ready _ _ Hi), (Hz Hseen), zenoh_counts_as_ready.
  destruct (published_state _ _ _ _ (Z.le_max_r _ _) Hr) as [Hd Hc]. split.
  - intros [[E|E] Hp]; [|done]. split; [by apply Hc|done].
  - intros [(session & a & Est & _) Hp]. split; [|done]. left.
    destruct (runtime_reachable_inv _ (Z.le_max_r _ _) _ _ _ Hr) as [Hpub _ _ _ _ _]. unfold published in Hpub.
    rewrite Est in Hpub. by destruct Hpub as (_ & _ & _ & ->).
Qed.

(** The status page is ready exactly when its rows are and the Router policy, which has no row, is. *)
Lemma controller_context_ready now app : co_ready (controller_context now app) =
  forallb shows_ready (co_components (controller_context now app))
  && counts_as_ready (rd_level (router_policy_readiness (ap_gateway_enabled app) (ap_admission app) now)).
Proof.
  unfold controller_context, is_ready, readiness_iter, iteration. simpl. unfold shows_ready. simpl.
  destruct (ap_readiness app) as [at_ [a b c d e f g]]. simpl.
  destruct (rd_level a), (rd_level b), (rd_level c), (rd_level d), (rd_level e), (rd_level g),
    (counts_as_ready (rd_level (router_policy_readiness (ap_gateway_enabled app) (ap_admission app) now))); done.
Qed.

(** ** A run *)
Module ReadinessToy.
Definition integrations : Integrations := mkIntegrations true true true true true (Some HealthStarting).
Definition interval : Z := enabled_retry_interval (seconds 5).
Definition r0 : Runtime := runtime_new 0 (seconds 1).
Definition r1 : Runtime := step_opening interval (seconds 2) 1 (Opened (Ok "a1")) r0.
Definition s0 : Service := mkService r0 true (new_with_onboarding integrations (status_snapshot r0) 0).
Definition s1 : Service := mkService r1 false (sc_app s0).
Definition s2 : Service := mkService r1 true (update_zenoh_readiness (status_snapshot r1) (seconds 3) (sc_app s1)).
Definition s3 : Service := mkService r1 true (sc_app s2 <| ap_admission := Some (HealthReadyUntil (seconds 60)) |>).
Lemma run : service_reachable interval (seconds 1) (seconds 4) s3.
Proof.
  eapply (service_later _ _ (seconds 3) _ s2); [|discriminate|by apply (service_health interval _ s2 (HealthReadyUntil (seconds 60)))].
  eapply (service_later _ _ (seconds 2) _ s1); [|discriminate|exact (service_sync interval _ s1)].
  eapply (service_later _ _ (seconds 1) _ s0); [|discriminate|].
  - exact (service_start interval (seconds 1) 0 integrations 0).
  - apply (service_zenoh interval (seconds 2) s0 r1 false); [|done].
    exact (run_opening interval (seconds 2) r0 1 (Opened (Ok "a1")) eq_refl).
Qed.
(** The same stored snapshot is ready at 59 seconds and not at 60. *)
Lemma readyz_is_truthful_witness :
  rr_status (readyz (seconds 59) (sc_app s3)) = 200 /\ rr_status (readyz (seconds 60) (sc_app s3)) = 503 /\
  exists session attempt, zr_state (sc_zenoh s3) = Ready session attempt /\ zr_session (sc_zenoh s3) = Some session.
Proof.
  split; [reflexivity|]. split; [reflexivity|].
  apply (proj2 (readyz_is_truthful (seconds 5) (seconds 1) (seconds 4) (seconds 59) s3 run eq_refl)). reflexivity.
Defined.
(** A Controller whose page shows six healthy rows under "not ready". *)
Example page_hides_router_policy :
  co_ready (controller_context (seconds 60) (sc_app s3)) = false /\
  forallb shows_ready (co_components (controller_context (seconds 60) (sc_app s3))) = true.
Proof. split; reflexivity. Qed.
End ReadinessToy.
