(* ===== verification/Application.v ===== *)
(** * The Controller process: budgets, shutdown and background tasks

    [crates/inari-server/src/coordination], [shutdown.rs] and the task supervision of [app.rs].  The semaphore of a budget
    is Tokio's, used through [Semaphore].  The set of background tasks is the sequence in which they end, each with its
    time, how many never end unless they are aborted, and how those still running at the deadline end once they are
    aborted: an abort takes effect only where a task yields, so they end later, or never. *)
From S2P Require Import Prelude ServerErrors.

(** ** Limits *)
(** [tokio::sync::Semaphore], behind its documentation. *)
Inductive TryAcquireError : Set := NoPermits | SemaphoreClosed.
Class Semaphore := {
  semaphore : Type;
  MAX_PERMITS : Z;
  semaphore_new : Z -> semaphore;
  available_permits : semaphore -> Z;
  semaphore_is_closed : semaphore -> bool;
  semaphore_close : semaphore -> semaphore;
  try_acquire_owned : semaphore -> result TryAcquireError semaphore;
  drop_permit : semaphore -> semaphore;
}.
Class SemaphoreSpec `{Semaphore} : Prop := {
  new_available n : available_permits (semaphore_new n) = n /\ semaphore_is_closed (semaphore_new n) = false;
  close_closes s : semaphore_is_closed (semaphore_close s) = true /\ available_permits (semaphore_close s) = available_permits s;
  acquire_closed s : semaphore_is_closed s = true -> try_acquire_owned s = Err SemaphoreClosed;
  acquire_exhausted s : semaphore_is_closed s = false -> available_permits s <= 0 -> try_acquire_owned s = Err NoPermits;
  acquire_takes s : semaphore_is_closed s = false -> 0 < available_permits s -> exists s',
    try_acquire_owned s = Ok s' /\ available_permits s' = available_permits s - 1 /\ semaphore_is_closed s' = false;
  drop_returns s : available_permits (drop_permit s) = available_permits s + 1 /\
    semaphore_is_closed (drop_permit s) = semaphore_is_closed s;
}.

Inductive InvalidConcurrencyLimit : Set := LimitZero | LimitExceedsMaximum (max : Z).
Inductive InvalidChannelCapacity : Set := CapacityZero.
Definition ChannelCapacity_try_from (value : Z) : result InvalidChannelCapacity Z :=
  if value =? 0 then Err CapacityZero else Ok value.
(** The two kinds of budget with their messages. *)
Inductive BudgetKind : Set := InariApiRequest | ZenohRestRequest.
Definition EXHAUSTED_MESSAGE (k : BudgetKind) : string :=
  match k with
  | InariApiRequest => "Too many Inari API requests are already running."
  | ZenohRestRequest => "Too many concurrent Zenoh REST queries are already running."
  end.
Definition CLOSED_MESSAGE (k : BudgetKind) : string :=
  match k with
  | InariApiRequest => "The Inari API request budget is no longer available."
  | ZenohRestRequest => "The Zenoh REST query budget is no longer available."
  end.

Section Budget.
Context `{Semaphore}.

Definition ConcurrencyLimit_try_from (value : Z) : result InvalidConcurrencyLimit Z :=
  if value =? 0 then Err LimitZero else if MAX_PERMITS <? value then Err (LimitExceedsMaximum MAX_PERMITS) else Ok value.
(** A budget with the number of permits its callers hold. *)
Record Budget := mkBudget { bu_kind : BudgetKind; bu_limit : Z; bu_semaphore : semaphore; bu_held : Z }.
Definition Budget_new (kind : BudgetKind) (limit : Z) : Budget := mkBudget kind limit (semaphore_new limit) 0.
Definition Budget_close (b : Budget) : Budget := mkBudget (bu_kind b) (bu_limit b) (semaphore_close (bu_semaphore b)) (bu_held b).
Definition try_acquire (b : Budget) : AppResult unit * Budget :=
  match try_acquire_owned (bu_semaphore b) with
  | Ok s => (Ok tt, mkBudget (bu_kind b) (bu_limit b) s (bu_held b + 1))
  | Err NoPermits => (Err (service_unavailable (EXHAUSTED_MESSAGE (bu_kind b))), b)
  | Err SemaphoreClosed => (Err (service_unavailable (CLOSED_MESSAGE (bu_kind b))), b)
  end.
(** [acquire] at one moment: [None] when it goes on waiting. *)
Definition acquire (b : Budget) : option (AppResult unit) * Budget :=
  match try_acquire_owned (bu_semaphore b) with
  | Ok s => (Some (Ok tt), mkBudget (bu_kind b) (bu_limit b) s (bu_held b + 1))
  | Err NoPermits => (None, b)
  | Err SemaphoreClosed => (Some (Err (service_unavailable (CLOSED_MESSAGE (bu_kind b)))), b)
  end.
Definition release (b : Budget) : Budget := mkBudget (bu_kind b) (bu_limit b) (drop_permit (bu_semaphore b)) (bu_held b - 1).
Inductive budget_step (b : Budget) : Budget -> Prop :=
| budget_try : budget_step b (snd (try_acquire b))
| budget_acquire : budget_step b (snd (acquire b))
| budget_release : 0 < bu_held b -> budget_step b (release b)
| budget_close : budget_step b (Budget_close b).
Inductive budget_reachable (kind : BudgetKind) (limit : Z) : Budget -> Prop :=
| budget_start : budget_reachable kind limit (Budget_new kind limit)
| budget_later b b' : budget_reachable kind limit b -> budget_step b b' -> budget_reachable kind limit b'.

Context `{!SemaphoreSpec}.
Definition budget_inv (kind : BudgetKind) (limit : Z) (b : Budget) : Prop :=
  bu_kind b = kind /\ bu_limit b = limit /\ 0 <= bu_held b /\ 0 <= available_permits (bu_semaphore b) /\
  bu_held b + available_permits (bu_semaphore b) = limit.
Lemma try_acquire_owned_spec s : 0 <= available_permits s ->
  (semaphore_is_closed s = true /\ try_acquire_owned s = Err SemaphoreClosed) \/
  (semaphore_is_closed s = false /\ available_permits s = 0 /\ try_acquire_owned s = Err NoPermits) \/
  (semaphore_is_closed s = false /\ 0 < available_permits s /\ exists s', try_acquire_owned s = Ok s' /\
     available_permits s' = available_permits s - 1).
Proof.
  intros Hs. destruct (semaphore_is_closed s) eqn:Ec; [left; split; [done|by apply acquire_closed]|right].
  destruct (decide (available_permits s = 0)) as [E|E]; [left|right].
  - split_and!; [done|done|]. apply acquire_exhausted; [done|lia].
  - destruct (acquire_takes s Ec) as (s' & Hs' & Ha & _); [lia|]. split_and!; [done|lia|eauto].
Qed.
Lemma budget_reachable_inv kind limit b : 0 <= limit -> budget_reachable kind limit b -> budget_inv kind limit b.
Proof.
  intros Hl. induction 1 as [|b b' _ IH Hs].
  { destruct (new_available limit) as [Ha _]. unfold budget_inv. simpl. rewrite Ha. split_and!; try done; lia. }
  destruct IH as (<- & <- & Hh & Ha & Hsum).
  destruct Hs as [| | |].
  1, 2: unfold try_acquire, acquire;
    destruct (try_acquire_owned_spec (bu_semaphore b) Ha) as [[_ ->]|[(_ & _ & ->)|(_ & Hp & s' & -> & Hs')]];
    unfold budget_inv; simpl; split_and!; try done; lia.
  - destruct (drop_returns (bu_semaphore b)) as [Hd _]. unfold budget_inv. simpl. split_and!; try done; lia.
  - destruct (close_closes (bu_semaphore b)) as [_ Hc]. unfold budget_inv. simpl. rewrite Hc. done.
Qed.

(** A budget whose limit was accepted from the configuration never lets more callers run than that limit, whatever the
    order of acquisitions, releases and its closing: the permits held and the permits left always add up to the limit.
    A caller that does not wait gets a permit exactly when the budget is open and fewer than the limit are held, and
    otherwise the message of the reason. *)
Theorem budget_bounds_concurrency kind value limit b : 0 <= value -> ConcurrencyLimit_try_from value = Ok limit -> budget_reachable kind limit b ->
  1 <= limit <= MAX_PERMITS /\ 0 <= bu_held b <= limit /\ available_permits (bu_semaphore b) = limit - bu_held b /\
  fst (try_acquire b) =
    (if semaphore_is_closed (bu_semaphore b) then Err (service_unavailable (CLOSED_MESSAGE kind))
     else if bu_held b <? limit then Ok tt else Err (service_unavailable (EXHAUSTED_MESSAGE kind))) /\
  (fst (acquire b) = None <-> semaphore_is_closed (bu_semaphore b) = false /\ bu_held b = limit).
Proof.
  intros Hv Hl Hr. unfold ConcurrencyLimit_try_from in Hl.
  destruct (value =? 0) eqn:E0; [done|]. destruct (MAX_PERMITS <? value) eqn:Em; [done|]. apply Ok_inj in Hl as <-. bools.
  destruct (budget_reachable_inv kind value b ltac:(lia) Hr) as (<- & Hlim & Hh & Ha & Hsum).
  split_and!; try lia; unfold try_acquire, acquire;
    destruct (try_acquire_owned_spec (bu_semaphore b) Ha) as [[-> ->]|[(-> & He & ->)|(-> & Hp & s' & -> & _)]]; simpl.
  - done.
  - by rewrite (proj2 (Z.ltb_ge _ _)) by lia.
  - by rewrite (proj2 (Z.ltb_lt _ _)) by lia.
  - split; [done|by intros [? _]].
  - split; [split; [done|lia]|done].
  - split; [done|lia].
Qed.
End Budget.

(** ** Shutdown *)
Inductive SignalKind : Set := CtrlC | Interrupt | Quit_ | Terminate.
Definition SignalKind_to_string (k : SignalKind) : string :=
  match k with CtrlC => "ctrl_c" | Interrupt => "interrupt" | Quit_ => "quit" | Terminate => "terminate" end.
Inductive ShutdownReason : Type := ReasonSignal (kind : SignalKind) | TaskFailed (task : string) | ServerStopped.
Definition ShutdownReason_to_string (r : ShutdownReason) : string :=
  match r with
  | ReasonSignal kind => "signal:" ++ SignalKind_to_string kind
  | TaskFailed name => "task_failed:" ++ name
  | ServerStopped => "server_stopped"
  end.
Record ShutdownCoordinator := mkShutdownCoordinator { sd_state : option ShutdownReason; sd_grace_period : Z }.
Definition ShutdownCoordinator_new (grace_period : Z) : ShutdownCoordinator := mkShutdownCoordinator None grace_period.
Definition is_requested (s : ShutdownCoordinator) : bool := match sd_state s with Some _ => true | None => false end.
Definition request (reason : ShutdownReason) (s : ShutdownCoordinator) : bool * ShutdownCoordinator :=
  if is_requested s then (false, s) else (true, mkShutdownCoordinator (Some reason) (sd_grace_period s)).

(** ** Background tasks *)
Inductive TaskName : Set :=
| SignalListener | ZenohSupervisor | SessionCleanup | ManagedGatewayDataPlane | ReadinessSync | ReadinessMonitor | HttpServer.
#[global] Instance TaskName_eq_dec : EqDecision TaskName.
Proof. solve_decision. Defined.
Definition task_as_str (t : TaskName) : string :=
  match t with
  | SignalListener => "signal-listener"
  | ZenohSupervisor => "zenoh-supervisor"
  | SessionCleanup => "session-cleanup"
  | ManagedGatewayDataPlane => "managed-gateway-data-plane"
  | ReadinessSync => "readiness-sync"
  | ReadinessMonitor => "readiness-monitor"
  | HttpServer => "http-server"
  end.
Inductive CleanExitPolicy : Set := ShutdownApplication | KeepRunning.
Definition clean_exit_policy (t : TaskName) : CleanExitPolicy :=
  match t with SignalListener | HttpServer => ShutdownApplication | _ => KeepRunning end.
(** How a task ends: the signal listener with the reason it requests, another task with its outcome, or neither when it
    panicked or was cancelled. *)
Inductive Ended : Type :=
| SignalEnded (signal : AppResult ShutdownReason)
| TaskEnded (name : TaskName) (outcome : AppResult unit)
| JoinFailed.
Definition NamedTaskResult : Type := TaskName * AppResult unit.
(** What [join_next] yields. *)
Definition joined (e : Ended) : AppResult NamedTaskResult :=
  match e with
  | SignalEnded (Ok _) => Ok (SignalListener, Ok tt)
  | SignalEnded (Err error) => Ok (SignalListener, Err error)
  | TaskEnded name outcome => Ok (name, outcome)
  | JoinFailed => Err AppTaskJoin
  end.
(** What the signal listener did before it ended. *)
Definition effect (e : Ended) (s : ShutdownCoordinator) : ShutdownCoordinator :=
  match e with SignalEnded (Ok reason) => snd (request reason s) | _ => s end.
(** [run] spawns every task under its own name. *)
Definition spawned (e : Ended) : bool := match e with TaskEnded SignalListener _ => false | _ => true end.
(** [js_ends], [js_stuck]: the tasks left alone.  [js_after], [js_never]: the tasks that still run when [abort_all] is
    called, in the order they end after it, most of them as [JoinFailed]; one that never yields never ends. *)
Record JoinSet := mkJoinSet {
  js_ends : list (instant * Ended); js_stuck : nat; js_after : list (instant * Ended); js_never : nat }.

Inductive Supervised : Type :=
| Waiting (s : ShutdownCoordinator)
| Emptied (s : ShutdownCoordinator)
| MustDrain (at_ : instant) (failure : option AppError) (s : ShutdownCoordinator) (rest : list (instant * Ended)).
(** The loop of [supervise_tasks]. *)
Fixpoint supervise_loop (ends : list (instant * Ended)) (stuck : nat) (s : ShutdownCoordinator) : Supervised :=
  match ends with
  | [] => match stuck with O => Emptied s | _ => Waiting s end
  | (at_, e) :: rest =>
      let s := effect e s in
      match joined e with
      | Err error => MustDrain at_ (Some error) (snd (request (TaskFailed "background-join") s)) rest
      | Ok (name, Ok _) =>
          match clean_exit_policy name with
          | ShutdownApplication =>
              MustDrain at_ None (if bool_decide (name = HttpServer) then snd (request ServerStopped s) else s) rest
          | KeepRunning => supervise_loop rest stuck s
          end
      | Ok (name, Err error) => MustDrain at_ (Some error) (snd (request (TaskFailed (task_as_str name)) s)) rest
      end
  end.
(** [drain_remaining] from [at_]: its result with the time it returns, or [None] when it goes on waiting. *)
Fixpoint drain_remaining (at_ : instant) (ends : list (instant * Ended)) (stuck : nat) : option (AppResult unit * instant) :=
  match ends with
  | [] => match stuck with O => Some (Ok tt, at_) | _ => None end
  | (t, e) :: rest =>
      let at_ := Z.max at_ t in
      match joined e with
      | Err error => Some (Err error, at_)
      | Ok (_, Err error) => Some (Err error, at_)
      | Ok (_, Ok _) => drain_remaining at_ rest stuck
      end
  end.
(** [time::timeout]. *)
Definition timeout {A} (deadline : instant) (r : option (A * instant)) : option (A * instant) :=
  match r with Some (a, t) => if deadline <? t then None else Some (a, t) | None => None end.
(** The second drain, of the aborted tasks, has no deadline; its result is dropped. *)
Definition drain_with_timeout (show : Z -> string) (grace_period : Z) (at_ : instant) (ends : list (instant * Ended)) (tasks : JoinSet)
    : option (AppResult unit * instant) :=
  match timeout (at_ + grace_period) (drain_remaining at_ ends (js_stuck tasks)) with
  | Some result => Some result
  | None =>
      match drain_remaining (at_ + grace_period) (js_after tasks) (js_never tasks) with
      | Some (_, finished) => Some (Err (AppGracefulShutdownTimeout (show grace_period)), finished)
      | None => None
      end
  end.
(** [None]: the call does not return.  [show] displays a grace period. *)
Definition supervise_tasks (show : Z -> string) (tasks : JoinSet) (s : ShutdownCoordinator)
    : option (AppResult unit * option instant * ShutdownCoordinator) :=
  match supervise_loop (js_ends tasks) (js_stuck tasks) s with
  | Waiting _ => None
  | Emptied s => Some (Ok tt, None, s)
  | MustDrain at_ failure s rest =>
      match drain_with_timeout show (sd_grace_period s) at_ rest tasks with
      | Some (drained, finished) => Some (match failure with Some error => Err error | None => drained end, Some finished, s)
      | None => None
      end
  end.

(** ** Supervision ends *)
(** The error an end reports, and whether it makes the application stop. *)
Definition failed (e : Ended) : option AppError :=
  match joined e with Err error => Some error | Ok (_, Err error) => Some error | Ok (_, Ok _) => None end.
Definition stops (e : Ended) : bool :=
  match joined e with
  | Ok (name, Ok _) => match clean_exit_policy name with ShutdownApplication => true | KeepRunning => false end
  | _ => true
  end.
Lemma request_requested reason s : is_requested (snd (request reason s)) = true /\
  sd_grace_period (snd (request reason s)) = sd_grace_period s.
Proof. unfold request. destruct (is_requested s) eqn:E; done. Qed.
Lemma effect_keeps e s : (is_requested s = true -> effect e s = s) /\ sd_grace_period (effect e s) = sd_grace_period s.
Proof.
  destruct e as [[reason|]| |]; simpl; try done. split; [|apply request_requested].
  unfold request. by intros ->.
Qed.
Lemma supervise_loop_quiet pre ends stuck s : Forall (fun e => stops (snd e) = false) pre ->
  supervise_loop (pre ++ ends)%list stuck s = supervise_loop ends stuck s.
Proof.
  induction 1 as [|[t e] pre He _ IH]; [done|]. simpl in *. unfold stops in He.
  destruct e as [[reason|error]|name [[]|error]|]; simpl in *; try done.
  destruct (clean_exit_policy name); done.
Qed.
Lemma supervise_loop_stops t e rest stuck s : stops e = true -> spawned e = true -> exists s',
  supervise_loop ((t, e) :: rest) stuck s = MustDrain t (failed e) s' rest /\ is_requested s' = true /\
  sd_grace_period s' = sd_grace_period s.
Proof.
  unfold stops, failed. intros He Hn.
  destruct e as [[reason|error]|[] [[]|error]|]; simpl in *; try done; eexists; (split; [done|]); apply request_requested.
Qed.
(** The first task to stop the application, if there is one. *)
Lemma first_stop (ends : list (instant * Ended)) : Forall (fun e => stops (snd e) = false) ends \/
  exists pre t e post, ends = (pre ++ (t, e) :: post)%list /\ Forall (fun e => stops (snd e) = false) pre /\ stops e = true.
Proof.
  induction ends as [|[t e] ends IH]; [by left|]. destruct (stops e) eqn:He; [right; by exists [], t, e, ends|].
  destruct IH as [IH|(pre & t' & e' & post & -> & Hp & He')]; [left; by constructor|right].
  exists ((t, e) :: pre), t', e', post. split; [done|]. split; [by constructor|done].
Qed.
(** A task that ended cleanly by a deadline. *)
Definition clean_by (deadline : instant) (e : instant * Ended) : Prop := fst e <= deadline /\ failed (snd e) = None.
(** What a drain under a deadline says of the tasks it waited for. *)
Definition drains (deadline : instant) (stuck : nat) (ends : list (instant * Ended)) (r : option (AppResult unit * instant)) : Prop :=
  match r with
  | None => ~ (stuck = O /\ Forall (clean_by deadline) ends)
  | Some (Ok _, t) => t <= deadline /\ stuck = O /\ Forall (clean_by deadline) ends
  | Some (Err error, t) => t <= deadline /\ exists e, e ∈ ends /\ failed (snd e) = Some error
  end.
Lemma drain_remaining_clean t e rest at_ stuck : failed e = None ->
  drain_remaining at_ ((t, e) :: rest) stuck = drain_remaining (Z.max at_ t) rest stuck.
Proof. unfold failed. cbn [drain_remaining]. by destruct (joined e) as [[? [[]|?]]|?]. Qed.
Lemma drain_remaining_failed t e rest at_ stuck error : failed e = Some error ->
  drain_remaining at_ ((t, e) :: rest) stuck = Some (Err error, Z.max at_ t).
Proof. unfold failed. cbn [drain_remaining]. destruct (joined e) as [[? [[]|?]]|?]; by intros [= ->]. Qed.
Lemma drain_remaining_later at_ ends stuck a t : drain_remaining at_ ends stuck = Some (a, t) -> at_ <= t.
Proof.
  revert at_. induction ends as [|[t' e] ends IH]; intros at_; [destruct stuck; [|done]; by intros [= _ <-]|].
  destruct (failed e) as [error|] eqn:Ef.
  - rewrite (drain_remaining_failed _ _ _ _ _ _ Ef). intros [= _ <-]. lia.
  - rewrite drain_remaining_clean by done. intros E%IH. lia.
Qed.
Lemma drains_cons deadline stuck t e ends r : t <= deadline -> failed e = None -> drains deadline stuck ends r ->
  drains deadline stuck ((t, e) :: ends) r.
Proof.
  intros Ht Hf. destruct r as [[[]]|]; simpl.
  - intros (? & ? & IH). split_and!; try done. by constructor.
  - intros (Hle & e1 & Hin & He1). split; [done|]. exists e1. split; [by right|done].
  - intros IH [Hs [_ Hall]%Forall_cons_1]. auto.
Qed.
Lemma drain_remaining_outcome deadline stuck : forall ends at_, at_ <= deadline ->
  drains deadline stuck ends (timeout deadline (drain_remaining at_ ends stuck)).
Proof.
  induction ends as [|[t e] ends IH]; intros at_ Ha.
  { destruct stuck; cbn; [|by intros []]. rewrite (proj2 (Z.ltb_ge _ _)) by done. split_and!; done. }
  destruct (failed e) as [error|] eqn:Ef.
  - rewrite (drain_remaining_failed _ _ _ _ _ _ Ef). cbn. destruct (deadline <? Z.max at_ t) eqn:Et; bools; cbn.
    + intros [_ [[_ Hn] _]%Forall_cons_1]. cbn in Hn. congruence.
    + split; [done|]. exists (t, e). split; [by left|done].
  - rewrite drain_remaining_clean by done. destruct (deadline <? t) eqn:Et; bools; [|apply drains_cons; [done..|apply IH; lia]].
    assert (timeout deadline (drain_remaining (Z.max at_ t) ends stuck) = None) as ->.
    { destruct (drain_remaining _ _ _) as [[a t']|] eqn:E; [|done]. apply drain_remaining_later in E. cbn.
      by rewrite (proj2 (Z.ltb_lt _ _)) by lia. }
    intros [_ [[Hle _] _]%Forall_cons_1]. cbn in Hle. lia.
Qed.
(** A drain returns when every task ends, at the latest with the last of them. *)
Lemma drain_remaining_returns at_ ends bound : at_ <= bound -> Forall (fun e => fst e <= bound) ends ->
  exists a t, drain_remaining at_ ends O = Some (a, t) /\ t <= bound.
Proof.
  intros Ha Hall. revert at_ Ha. induction Hall as [|[t e] ends Ht _ IH]; intros at_ Ha; [by eexists _, _|]. cbn in Ht.
  destruct (failed e) as [error|] eqn:Ef.
  - rewrite (drain_remaining_failed _ _ _ _ _ _ Ef). eexists _, _. split; [done|lia].
  - rewrite drain_remaining_clean by done. apply IH. lia.
Qed.
Lemma drain_remaining_waits at_ ends stuck : stuck <> O -> Forall (fun e => failed (snd e) = None) ends -> drain_remaining at_ ends stuck = None.
Proof.
  intros Hs Hall. revert at_. induction Hall as [|[t e] ends He _ IH]; intros at_; [by destruct stuck|]. by rewrite drain_remaining_clean.
Qed.
(** Every task that is aborted at the deadline reaches a point where it yields within [d] of it. *)
Definition yields (tasks : JoinSet) (deadline : instant) (d : Z) : Prop :=
  js_never tasks = O /\ Forall (fun e => fst e <= deadline + d) (js_after tasks).
(** What the drain of the tasks returns once the application stops at [t]. *)
Lemma drain_with_timeout_outcome show grace t post tasks d : 0 <= grace -> 0 <= d -> yields tasks (t + grace) d ->
  exists drained finished, drain_with_timeout show grace t post tasks = Some (drained, finished) /\
    finished <= t + grace + d /\ (drained <> Err (AppGracefulShutdownTimeout (show grace)) -> finished <= t + grace) /\
    (drained = Ok tt <-> js_stuck tasks = O /\ Forall (clean_by (t + grace)) post) /\
    (forall error, drained = Err error -> error = AppGracefulShutdownTimeout (show grace) \/
       exists e', e' ∈ post /\ failed (snd e') = Some error).
Proof.
  intros Hg Hd [Hnever Hall]. unfold drain_with_timeout. assert (t <= t + grace) as Ht by lia.
  pose proof (drain_remaining_outcome _ (js_stuck tasks) post t Ht) as Ho.
  destruct (timeout _ _) as [[[[]|error] fin]|].
  - destruct Ho as (Hle & Hst). eexists _, _. split; [done|]. split_and!; try done; lia.
  - destruct Ho as (Hle & e' & Hin & He'). eexists _, _. split; [done|]. split_and!; [lia|done| |intros ? [= <-]; eauto].
    split; [done|]. intros [_ Hc]. apply list_elem_of_In in Hin. rewrite List.Forall_forall in Hc.
    destruct (Hc _ Hin) as [_ Hnone]. by discriminate (eq_trans (eq_sym He') Hnone).
  - destruct (drain_remaining_returns (t + grace) (js_after tasks) (t + grace + d) ltac:(lia) Hall) as (a & fin & E & Hle).
    rewrite Hnever, E. eexists _, _. split; [done|]. split_and!; [done|by intros []| |intros ? [= <-]; by left].
    split; [done|]. by intros Hc%Ho.
Qed.

(** C38: Supervision of the background tasks comes to an end once a task makes the application stop, and reports the first
    failure.  Let [e] be the first task that failed, panicked, or is the listener of signals or the HTTP server, and let
    every task that is aborted at the end of the grace period reach a point where it yields within [d] of it.  Then the
    shutdown is requested, the call returns within the grace period and [d] after [e] ended, and within the grace period
    alone unless that was exceeded; and
    - if [e] failed, its error is returned, never one of the drain;
    - otherwise success is returned exactly when every other task ends cleanly within the grace period, and any error is
      that of another task or the timeout.
    A task that never yields, with no other task that fails or is cancelled, keeps the call from returning: the wait for
    aborted tasks has no limit.  If no task stops the application, the call returns success when the last one has ended. *)
Theorem supervision_ends_once_tasks_yield show tasks s :
  Forall (fun e => spawned (snd e) = true) (js_ends tasks) -> 0 <= sd_grace_period s ->
  (Forall (fun e => stops (snd e) = false) (js_ends tasks) ->
     supervise_tasks show tasks s = if decide (js_stuck tasks = O) then Some (Ok tt, None, s) else None) /\
  (forall pre t e post, js_ends tasks = (pre ++ (t, e) :: post)%list -> Forall (fun e => stops (snd e) = false) pre -> stops e = true ->
     (forall d, 0 <= d -> yields tasks (t + sd_grace_period s) d ->
       exists result finished s', supervise_tasks show tasks s = Some (result, Some finished, s') /\
       is_requested s' = true /\ finished <= t + sd_grace_period s + d /\
       (js_stuck tasks = O -> Forall (clean_by (t + sd_grace_period s)) post -> finished <= t + sd_grace_period s) /\
       (forall error, failed e = Some error -> result = Err error) /\
       (failed e = None ->
         (result = Ok tt <-> js_stuck tasks = O /\ Forall (clean_by (t + sd_grace_period s)) post) /\
         (forall error, result = Err error -> error = AppGracefulShutdownTimeout (show (sd_grace_period s)) \/
            exists e', e' ∈ post /\ failed (snd e') = Some error))) /\
     (js_stuck tasks <> O -> js_never tasks <> O -> Forall (fun e => failed (snd e) = None) post ->
        Forall (fun e => failed (snd e) = None) (js_after tasks) -> supervise_tasks show tasks s = None)).
Proof.
  intros Hsp Hg. unfold supervise_tasks. split.
  - intros Hq. rewrite <- (app_nil_r (js_ends tasks)), supervise_loop_quiet by done. simpl. by destruct (js_stuck tasks).
  - intros pre t e post Eends Hpre He. rewrite Eends in Hsp |- *. rewrite supervise_loop_quiet by done.
    apply Forall_app in Hsp as [_ [Hn _]%Forall_cons_1]. simpl in Hn.
    destruct (supervise_loop_stops t e post (js_stuck tasks) s He Hn) as (s' & -> & Hreq & Hgr). rewrite Hgr. split.
    + intros d Hd Hy. destruct (drain_with_timeout_outcome show _ t post tasks d Hg Hd Hy) as (drained & fin & -> & Hle & Hin & Hok & Herr).
      eexists _, _, _. split; [done|]. split_and!; [done|done| |by intros ? ->|intros ->; by split].
      intros Hst Hall. apply Hin. by rewrite (proj2 Hok (conj Hst Hall)).
    + intros Hs Hnev Hpost Hafter. unfold drain_with_timeout.
      by rewrite (drain_remaining_waits _ _ _ Hs Hpost), (drain_remaining_waits _ _ _ Hnev Hafter).
Qed.

(** ** Runs *)
Module ApplicationToy.
(** A semaphore that counts. *)
#[local] Instance counting : Semaphore := {|
  semaphore := Z * bool; MAX_PERMITS := 2 ^ 61 - 1;
  semaphore_new n := (n, false);
  available_permits s := fst s;
  semaphore_is_closed s := snd s;
  semaphore_close s := (fst s, true);
  try_acquire_owned s := if snd s : bool then Err SemaphoreClosed else if fst s <=? 0 then Err NoPermits else Ok (fst s - 1, false);
  drop_permit s := (fst s + 1, snd s);
|}.
#[local] Instance counting_spec : SemaphoreSpec.
Proof.
  split; simpl; try done.
  - intros [n c] E. simpl in *. by subst.
  - intros [n c] E Hn. simpl in *. subst. by rewrite (proj2 (Z.leb_le _ _)) by lia.
  - intros [n c] E Hn. simpl in *. subst. rewrite (proj2 (Z.leb_gt _ _)) by lia. by eexists.
Qed.
Definition full : Budget := snd (try_acquire (snd (try_acquire (Budget_new ZenohRestRequest 2)))).
Lemma budget_bounds_concurrency_witness :
  ConcurrencyLimit_try_from 2 = Ok 2 /\ bu_held full = 2 /\
  fst (try_acquire full) = Err (service_unavailable "Too many concurrent Zenoh REST queries are already running.").
Proof.
  split; [reflexivity|]. split; [reflexivity|].
  apply (budget_bounds_concurrency ZenohRestRequest 2 2 full); [discriminate|reflexivity|].
  eapply budget_later; [eapply budget_later; [constructor|exact (budget_try _)]|exact (budget_try _)].
Defined.

(** The server is asked to stop and its data plane does not: it is aborted after the grace period, and yields a second
    later. *)
Definition tasks : JoinSet := mkJoinSet
  [(seconds 5, TaskEnded SessionCleanup (Ok tt)); (seconds 9, SignalEnded (Ok (ReasonSignal Terminate)));
   (seconds 10, TaskEnded HttpServer (Ok tt))] 1 [(seconds 30, JoinFailed)] 0.
Definition coordinator : ShutdownCoordinator := ShutdownCoordinator_new (seconds 20).
Lemma supervision_ends_once_tasks_yield_witness : exists result finished s',
  supervise_tasks (fun _ => "20s") tasks coordinator = Some (result, Some finished, s') /\ is_requested s' = true /\
  finished <= seconds 30 /\ result = Err (AppGracefulShutdownTimeout "20s").
Proof.
  destruct (proj1 (proj2 (supervision_ends_once_tasks_yield (fun _ => "20s") tasks coordinator
    ltac:(repeat constructor) ltac:(discriminate)) [(seconds 5, TaskEnded SessionCleanup (Ok tt))] (seconds 9)
    (SignalEnded (Ok (ReasonSignal Terminate))) [(seconds 10, TaskEnded HttpServer (Ok tt))] eq_refl ltac:(repeat constructor) eq_refl)
    (seconds 1) ltac:(discriminate) ltac:(split; [reflexivity|repeat constructor; discriminate]))
    as (result & finished & s' & E & Hreq & Hfin & _).
  exists result, finished, s'. split; [exact E|]. split; [exact Hreq|]. split; [exact Hfin|].
  vm_compute in E. injection E as <- _ _. reflexivity.
Defined.
End ApplicationToy.
