(* ===== verification/Startup.v ===== *)
(** * Starting the Controller

    [crates/inari-server/src/app.rs] ([ServerBuilder::build] and its [initialize_] functions) and [database.rs]: which parts
    of the Controller a configuration starts, in which order they may fail, and what a database must look like.  What
    files, the identity provider and the database server answer is a [StartupIo]; SeaORM's migrator is asked for the
    pending migrations and to apply them. *)
From S2P Require Import Prelude Json Errors Identifiers InvitationCode Protocol Schema AuditLog Onboarding FleetPolicy ServerErrors.
From S2P Require Import AccessControl AdmissionController PayloadProtection DispatchSigner ManagedGateway GatewayConfig EnrollmentService.
From S2P Require Import ZenohRuntime Readiness.

(** ** The database *)
Record MigrationReport := mkMigrationReport { mr_applied : list string; mr_pending : list string }.
Definition migration_error : AppError := internal "database_migration" "The controller database migration failed.".
(** The database server: [dq_relation] is [to_regclass], the migrator is asked in [dq_pending] and [dq_pending_after],
    and each [bool] says whether a statement succeeded. *)
Record DatabaseIo := mkDatabaseIo {
  dq_url_file : option string;
  dq_url_valid : string -> bool;
  dq_connects : bool;
  dq_relation : string -> option bool;
  dq_migrations : list string;
  dq_pending : option (list string);
  dq_guard_connects : bool;
  dq_guard_timeout : bool;
  dq_guard_lock : bool;
  dq_guard_reset : bool;
  dq_up : bool;
  dq_pending_after : option (list string);
  dq_guard_closes : bool;
}.
Section Database.
Context (io : DatabaseIo).

Definition read_database_url : AppResult string :=
  value ← ok_or (dq_url_file io) (internal "database_secret" "The PostgreSQL connection secret could not be read.");
  Ok (trim value).
Definition database_connect : AppResult unit :=
  url ← read_database_url;
  _ ← ensure (dq_url_valid io url) (internal "database_url" "The PostgreSQL connection URL is invalid.");
  ensure (dq_connects io) (internal "database_connection" "The controller could not connect to PostgreSQL.").
Definition relation_exists (relation : string) : AppResult bool :=
  ok_or (dq_relation io relation) (internal "database_introspection" "The controller database schema could not be inspected.").
Definition reject_legacy_schema : AppResult unit :=
  seaorm_history ← relation_exists "seaql_migrations";
  sqlx_history ← relation_exists "_sqlx_migrations";
  controller_schema ← relation_exists "organizations";
  ensure (negb (sqlx_history || (controller_schema && negb seaorm_history)))
    (internal "legacy_database_schema" "This database uses the disposable alpha SQLx schema. Recreate it before applying the SeaORM baseline; no compatibility importer is provided.").
Definition pending_migration_names : AppResult (list string) := ok_or (dq_pending io) migration_error.
Definition database_migrate : AppResult MigrationReport :=
  _ ← reject_legacy_schema;
  _ ← ensure (dq_guard_connects io) (internal "migration_connection" "The migration lock connection could not be established.");
  let migration_result :=
    _ ← ensure (dq_guard_timeout io) migration_error;
    _ ← ensure (dq_guard_lock io) (internal "migration_lock" "The migration lock could not be acquired within 30s.");
    _ ← ensure (dq_guard_reset io) migration_error;
    applied ← pending_migration_names;
    _ ← ensure (dq_up io) migration_error;
    pending ← ok_or (dq_pending_after io) migration_error;
    Ok (mkMigrationReport applied pending) in
  match migration_result with
  | Ok report => _ ← ensure (dq_guard_closes io) migration_error; Ok report
  | Err error => Err error
  end.
Definition database_status : AppResult MigrationReport :=
  _ ← reject_legacy_schema;
  history ← relation_exists "seaql_migrations";
  if negb history then Ok (mkMigrationReport [] (dq_migrations io)) else
  pending ← pending_migration_names;
  Ok (mkMigrationReport [] pending).
Definition ensure_current : AppResult unit :=
  report ← database_status;
  match mr_pending report with
  | [] => Ok tt
  | pending => Err (internal "database_migrations_pending" ("The controller database has " ++ show_u64 (Z.of_nat (length pending)) ++
      " pending migration(s); run `inari-server database migrate` before starting the service."))
  end.
End Database.

(** ** Building the application *)
Record Settings := mkSettings {
  se_gateway : ManagedGatewayConfig;
  se_organization_id : string; se_organization_name : string; se_default_site_id : string; se_default_site_name : string;
  se_oidc_enabled : bool;
  se_client_secret_file : option string;
  se_public_url : option string;
  se_migrate_on_startup : bool;
}.
Section Build.
Context `{UrlParts, UrlEdit, Jwt, UrlOps}.

(** [si_discover] has the client secret; the loaders of OpenBao, the dispatch signer and the Router admission read files. *)
Record StartupIo := mkStartupIo {
  si_leptos : bool;
  si_database : DatabaseIo;
  si_parse_url : string -> option Onboarding.url;
  si_read : string -> option string;
  si_discover : option string -> AppResult unit;
  si_openbao : AppResult unit;
  si_signer : AppResult unit;
  si_wrapper : AppResult unit;
  si_admission : AppResult Controller;
  si_now : instant;
}.
Context (settings : Settings) (io : StartupIo).
Notation gateway_config := (se_gateway settings).

Definition initialize_database : AppResult bool :=
  if negb (gc_enabled gateway_config) && negb (se_oidc_enabled settings) then Ok false else
  _ ← database_connect (si_database io);
  if se_migrate_on_startup settings then _ ← database_migrate (si_database io); Ok true
  else _ ← ensure_current (si_database io); Ok true.
Definition onboarding_config (public_base_url : option Onboarding.url) : OnboardingConfig :=
  Onboarding.mkOnboardingConfig (se_organization_id settings) (se_organization_name settings) (se_default_site_id settings)
    (se_default_site_name settings) (on_enabled (gc_onboarding gateway_config)) public_base_url (gc_controller_name gateway_config)
    (gc_controller_instance_id gateway_config) (on_invite_ttl (gc_onboarding gateway_config))
    (gc_supported_protocol_versions gateway_config)
    match cf_mode (gc_certificate gateway_config) with CertificateNone => CertNone | CertificateStepCa => CertStepCa end
    (cf_requires_mutual_tls_after_issuance (gc_certificate gateway_config)).
Definition initialize_onboarding (database : bool) : repo Database AppError (option OnboardingService) :=
  if negb (gc_enabled gateway_config) then mret None else
  public_base_url ← returns match on_public_base_url (gc_onboarding gateway_config) with
    | None => Ok None
    | Some text => u ← ok_or (si_parse_url io text)
                     (internal "managed_gateway_public_url" "Managed onboarding public_base_url is invalid."); Ok (Some u)
    end;
  _ ← returns (ensure database (internal "managed_gateway_database" "Managed onboarding requires the controller database."));
  service ← gateway (service_initialize (onboarding_config public_base_url) (si_now io));
  mret (Some service).
Definition initialize_identity (database : bool) : AppResult bool :=
  if negb (se_oidc_enabled settings) then Ok false else
  _ ← ok_or (se_public_url settings) (internal "oidc_configuration" "OIDC requires server.public_url.");
  client_secret ← match se_client_secret_file settings with
    | Some path => text ← ok_or (si_read io path)
                     (internal "oidc_client_secret" "The OIDC client secret could not be read."); Ok (Some (trim text))
    | None => Ok None
    end;
  _ ← ensure database (internal "oidc_database" "OIDC requires the managed controller database.");
  _ ← si_discover io client_secret;
  Ok true.
Definition initialize_certificate_issuer : AppResult (option StepCaIssuer) :=
  if negb (gc_enabled gateway_config) || bool_decide (cf_mode (gc_certificate gateway_config) = CertificateNone) then Ok None else
  issuer ← StepCaIssuer_load (gc_certificate gateway_config) (si_read io);
  Ok (Some issuer).
Definition dispatch_enabled : bool := gc_enabled gateway_config && di_enabled (gc_dispatch gateway_config).
Definition initialize_openbao_client : AppResult bool :=
  if negb dispatch_enabled then Ok false else _ ← si_openbao io; Ok true.
Definition initialize_managed_work_security (openbao : bool) : AppResult bool :=
  if negb dispatch_enabled then Ok false else
  _ ← si_signer io;
  _ ← ensure openbao (service_unavailable "Managed Payload protection requires OpenBao.");
  _ ← si_wrapper io;
  Ok true.
Definition initialize_router_admission (onboarding : option OnboardingService) : AppResult (option Controller) :=
  if negb (gc_enabled gateway_config) then Ok None else
  _ ← ok_or onboarding (service_unavailable "Router admission requires Controller persistence and onboarding.");
  controller ← si_admission io;
  Ok (Some controller).
Record Built := mkBuilt {
  bt_database : bool; bt_onboarding : option OnboardingService; bt_identity : bool; bt_certificate_issuer : option StepCaIssuer;
  bt_managed_work_security : bool; bt_router_admission : option Controller; bt_state : AppState }.
Definition integrations (onboarding : option OnboardingService) (identity' : bool) (issuer : option StepCaIssuer)
    (admission : option Controller) : Integrations :=
  mkIntegrations (is_some onboarding) identity' (is_some issuer) (on_enabled (gc_onboarding gateway_config))
    (gc_enabled gateway_config) ((fun _ => HealthStarting) <$> admission).
Definition build (zenoh : ZenohStatus) : repo Database AppError Built :=
  _ ← returns (ensure (si_leptos io) (internal "leptos_configuration" "Failed to load the Leptos runtime configuration."));
  database ← returns initialize_database;
  onboarding ← initialize_onboarding database;
  identity' ← returns (initialize_identity database);
  certificate_issuer ← returns initialize_certificate_issuer;
  openbao ← returns initialize_openbao_client;
  security ← returns (initialize_managed_work_security openbao);
  router_admission ← returns (initialize_router_admission onboarding);
  mret (mkBuilt database onboarding identity' certificate_issuer security router_admission
    (new_with_onboarding (integrations onboarding identity' certificate_issuer router_admission) zenoh (si_now io))).
End Build.

(** ** What a started Controller rests on *)
Lemma reject_legacy_schema_Ok io : reject_legacy_schema io = Ok tt <-> exists history controller,
  dq_relation io "seaql_migrations" = Some history /\ dq_relation io "_sqlx_migrations" = Some false /\
  dq_relation io "organizations" = Some controller /\ (controller = true -> history = true).
Proof.
  unfold reject_legacy_schema, relation_exists. split.
  - intros Hr. res_inv Hr. bools. eexists _, _. split_and!; [done|congruence|done|].
    repeat match goal with b : bool |- _ => destruct b end; done.
  - intros (h & c & -> & -> & -> & Hc). simpl. destruct c, h; try done. by discriminate (Hc eq_refl).
Qed.
Lemma ensure_current_Ok io : ensure_current io = Ok tt -> reject_legacy_schema io = Ok tt /\
  (if bool_decide (dq_relation io "seaql_migrations" = Some true) then dq_pending io = Some [] else dq_migrations io = []).
Proof.
  unfold ensure_current, database_status. intros Hr. apply bind_Ok in Hr as (report & Hr & Hp).
  apply bind_Ok in Hr as ([] & Hl & Hr). split; [done|]. apply bind_Ok in Hr as (h & Hh%ok_or_Ok & Hr). rewrite Hh.
  destruct h; simpl in *.
  - apply bind_Ok in Hr as (l & Hl2%ok_or_Ok & Hr). apply Ok_inj in Hr as <-. simpl in Hp. by destruct l.
  - apply Ok_inj in Hr as <-. simpl in Hp. by destruct (dq_migrations io).
Qed.
Lemma database_migrate_Ok io report : database_migrate io = Ok report -> reject_legacy_schema io = Ok tt /\
  dq_guard_lock io = true /\ dq_up io = true /\ dq_pending io = Some (mr_applied report) /\ dq_pending_after io = Some (mr_pending report).
Proof.
  unfold database_migrate. intros Hr. apply bind_Ok in Hr as ([] & Hl & Hr). split; [done|].
  apply bind_Ok in Hr as (u & _ & Hr). match type of Hr with match ?m with _ => _ end = _ => destruct m as [r|] eqn:Hm end; [|done].
  apply bind_Ok in Hr as (u2 & _ & Hr). apply Ok_inj in Hr as <-. unfold pending_migration_names in Hm. res_inv Hm.
  repeat match goal with Hx : ensure _ _ = Ok _ |- _ => apply ensure_Ok in Hx end. subst. split_and!; done.
Qed.
Lemma ensure_organization_stores o n st sn now db u db' : ensure_organization o n st sn now db = (Ok u, db') ->
  (exists row, organizations db' !! o = Some row /\ og_name row = n) /\ (exists row, sites db' !! st = Some row /\ st_name row = sn).
Proof.
  unfold ensure_organization. rewrite transaction_Ok. intros Hr. apply tx_bind_Ok in Hr as (a & db1 & Ho & Hs).
  assert (exists row, organizations db1 !! o = Some row /\ og_name row = n) as Horg.
  { unfold upsert_organization, initialize_router_policy, unique in Ho. tx_inv Ho; simpl; (eexists; split; [by rewrite lookup_insert_eq|done]). }
  unfold upsert_site, sites_constraints, unique, references in Hs. tx_inv Hs. simpl. split; [done|].
  rewrite lookup_insert; case_decide; [|done]. eexists. split; [done|]. by destruct (sites db1 !! st).
Qed.

Lemma starting_is_not_ready i zenoh at_ now : in_gateway_enabled i = true -> in_admission i = Some HealthStarting ->
  rr_status (readyz now (new_with_onboarding i zenoh at_)) = 503.
Proof.
  intros Eg Ea. unfold readyz. cbn [rr_status].
  destruct (is_ready _) eqn:E; [|done]. apply (app_ready _ _ (new_with_onboarding_inv _ _ _)) in E as [_ Hp].
  simpl in Hp. rewrite Ea in Hp. by destruct (Hp Eg) as (until & ? & _).
Qed.
Lemma ensure_Err {E} b (e e' : E) : ensure b e = Err e' -> b = false.
Proof. by destruct b. Qed.

Section Started.
Context `{UrlParts, UrlEdit, Jwt, UrlOps}.
Context (settings : Settings) (io : StartupIo).
Notation gateway_config := (se_gateway settings).

Lemma initialize_database_Ok b : initialize_database settings io = Ok b ->
  b = gc_enabled gateway_config || se_oidc_enabled settings /\
  (b = true -> reject_legacy_schema (si_database io) = Ok tt /\
     (se_migrate_on_startup settings = false -> ensure_current (si_database io) = Ok tt)).
Proof.
  unfold initialize_database. destruct (gc_enabled gateway_config), (se_oidc_enabled settings); simpl;
    try (by intros <-%Ok_inj); intros Hr; apply bind_Ok in Hr as (u & _ & Hr);
    (destruct (se_migrate_on_startup settings);
      [apply bind_Ok in Hr as (r & [Hl _]%database_migrate_Ok & <-%Ok_inj)
      |apply bind_Ok in Hr as ([] & Hc & <-%Ok_inj); pose proof (proj1 (ensure_current_Ok _ Hc))]; done).
Qed.
Lemma initialize_identity_Ok d b : initialize_identity settings io d = Ok b -> b = se_oidc_enabled settings.
Proof. unfold initialize_identity. destruct (se_oidc_enabled settings); simpl; intros Hr; res_inv Hr; by subst. Qed.
Lemma initialize_certificate_issuer_Ok i : initialize_certificate_issuer settings io = Ok i ->
  is_some i = gc_enabled gateway_config && bool_decide (cf_mode (gc_certificate gateway_config) = CertificateStepCa).
Proof.
  unfold initialize_certificate_issuer. destruct (gc_enabled gateway_config), (cf_mode (gc_certificate gateway_config)); simpl;
    intros Hr; try (by apply Ok_inj in Hr as <-). by apply bind_Ok in Hr as (issuer & _ & <-%Ok_inj).
Qed.
Lemma initialize_managed_work_security_Ok o b : initialize_managed_work_security settings io o = Ok b -> b = dispatch_enabled settings.
Proof. unfold initialize_managed_work_security. destruct (dispatch_enabled settings); simpl; intros Hr; res_inv Hr; by subst. Qed.
Lemma initialize_router_admission_Ok o a : initialize_router_admission settings io o = Ok a -> is_some a = gc_enabled gateway_config.
Proof.
  unfold initialize_router_admission. destruct (gc_enabled gateway_config); simpl; intros Hr; [|by apply Ok_inj in Hr as <-].
  apply bind_Ok in Hr as (u & _ & Hr). by apply bind_Ok in Hr as (c & _ & <-%Ok_inj).
Qed.
Lemma initialize_onboarding_Ok d db o db' : initialize_onboarding settings io d db = (Ok o, db') ->
  is_some o = gc_enabled gateway_config /\ (gc_enabled gateway_config = false -> db' = db) /\
  (gc_enabled gateway_config = true ->
    (exists row, organizations db' !! se_organization_id settings = Some row /\ og_name row = se_organization_name settings) /\
    (exists row, sites db' !! se_default_site_id settings = Some row /\ st_name row = se_default_site_name settings)).
Proof.
  unfold initialize_onboarding. destruct (gc_enabled gateway_config); simpl; [|by intros [= <- <-]].
  intros Hr. apply repo_bind_Ok in Hr as (u & db1 & [_ ->]%returns_Ok & Hr). apply repo_bind_Ok in Hr as (v & db2 & [_ ->]%returns_Ok & Hr).
  apply repo_bind_Ok in Hr as (service & db3 & Hs%gateway_Ok & [= <- <-]).
  unfold service_initialize in Hs. apply repo_bind_Ok in Hs as (w & db4 & Ho & [= _ <-]).
  split_and!; [done|done|]. intros _. by apply ensure_organization_stores in Ho.
Qed.

(** A Controller that starts has started exactly what its configuration asks for, on a database it may use.
    - Onboarding and Router admission run exactly when the managed gateway is enabled, identity when OIDC is, the
      certificate issuer when the gateway uses step-ca, the Managed Work keys when the gateway dispatches work, and the
      database is opened exactly when one of gateway and OIDC needs it.
    - An opened database does not have the schema of the alpha; unless migrations run at startup, it has none pending.
    - With the gateway enabled the configured Organization and its default site are stored under their names, and the
      Controller reports not ready, whatever the state of Zenoh, as no Router has acknowledged a policy.
    - With neither enabled, the stored data is unchanged and nothing but the web runtime can keep the Controller from
      starting: no file, provider or database is consulted. *)
Theorem startup_matches_configuration zenoh db result db' : build settings io zenoh db = (result, db') ->
  (forall b, result = Ok b ->
    bt_database b = gc_enabled gateway_config || se_oidc_enabled settings /\ bt_identity b = se_oidc_enabled settings /\
    is_some (bt_onboarding b) = gc_enabled gateway_config /\ is_some (bt_router_admission b) = gc_enabled gateway_config /\
    is_some (bt_certificate_issuer b) =
      gc_enabled gateway_config && bool_decide (cf_mode (gc_certificate gateway_config) = CertificateStepCa) /\
    bt_managed_work_security b = gc_enabled gateway_config && di_enabled (gc_dispatch gateway_config) /\
    (bt_database b = true -> dq_relation (si_database io) "_sqlx_migrations" = Some false /\
       (dq_relation (si_database io) "organizations" = Some true -> dq_relation (si_database io) "seaql_migrations" = Some true) /\
       (se_migrate_on_startup settings = false -> dq_relation (si_database io) "seaql_migrations" = Some true ->
          dq_pending (si_database io) = Some [])) /\
    (gc_enabled gateway_config = true ->
      (exists row, organizations db' !! se_organization_id settings = Some row /\ og_name row = se_organization_name settings) /\
      (exists row, sites db' !! se_default_site_id settings = Some row /\ st_name row = se_default_site_name settings) /\
      forall now, rr_status (readyz now (bt_state b)) = 503)) /\
  (gc_enabled gateway_config = false -> se_oidc_enabled settings = false -> db' = db /\
     (si_leptos io = true -> exists b, result = Ok b)).
Proof.
  intros Hb. split.
  - intros b ->. unfold build in Hb. apply repo_bind_Ok in Hb as (u & db1 & [_ ->]%returns_Ok & Hb).
    apply repo_bind_Ok in Hb as (database & db1 & [[Hd Hsch]%initialize_database_Ok ->]%returns_Ok & Hb).
    apply repo_bind_Ok in Hb as (o & db1 & (Ho & _ & Hst)%initialize_onboarding_Ok & Hb).
    apply repo_bind_Ok in Hb as (i & db2 & [Hi%initialize_identity_Ok ->]%returns_Ok & Hb).
    apply repo_bind_Ok in Hb as (c & db2 & [Hc%initialize_certificate_issuer_Ok ->]%returns_Ok & Hb).
    apply repo_bind_Ok in Hb as (bao & db2 & [_ ->]%returns_Ok & Hb).
    apply repo_bind_Ok in Hb as (w & db2 & [Hw%initialize_managed_work_security_Ok ->]%returns_Ok & Hb).
    apply repo_bind_Ok in Hb as (a & db2 & [Ha%initialize_router_admission_Ok ->]%returns_Ok & [= <- <-]).
    cbn [bt_database bt_identity bt_onboarding bt_router_admission bt_certificate_issuer bt_managed_work_security bt_state].
    split_and!; try done.
    + intros [Hl Hcur]%Hsch. apply reject_legacy_schema_Ok in Hl as (h & ctl & Hh & Hx & Hct & Himp).
      split_and!; [done|rewrite Hct, Hh; naive_solver|]. intros Hm Hhist. destruct (ensure_current_Ok _ (Hcur Hm)) as [_ Hp].
      by rewrite bool_decide_eq_true_2 in Hp.
    + intros Hen. destruct (Hst Hen) as [Horg Hsite]. split_and!; [done|done|]. intros now.
      apply starting_is_not_ready; [done|]. simpl. rewrite Hen in Ha. by destruct a.
  - intros Eg Eo. unfold build in Hb. apply repo_guard in Hb as [[-> (e & Hl%ensure_Err & _)]|(u & _ & Hb)].
    { split; [done|]. by rewrite Hl. }
    unfold initialize_database, initialize_onboarding, initialize_identity, initialize_certificate_issuer, initialize_openbao_client,
      initialize_managed_work_security, initialize_router_admission, dispatch_enabled in Hb.
    rewrite Eg, Eo in Hb. injection Hb as <- <-. eauto.
Qed.
End Started.

(** ** Runs *)
Module StartupToy.
#[local] Instance toy_parts : UrlParts :=
  {| url_scheme _ := "https"; url_host _ := Some "ca"; AdmissionController.url_path u := u; url_username _ := ""; url_password _ := None;
     url_query _ := None; url_fragment _ := None |}.
#[local] Instance toy_edit : UrlEdit := {| EnrollmentService.url_set_path _ p := p; EnrollmentService.url_join u p := Some (u ++ p) |}.
#[local] Instance toy_jwt : Jwt :=
  {| EncodingKey := string; from_ed_pem := Some; from_ec_pem := fun _ => None; jwt_encode := fun _ _ _ _ _ => Ok "token" |}.
#[local] Instance toy_urls : Onboarding.UrlOps :=
  Onboarding.Build_UrlOps string (fun u => u) (fun u _ => u) (fun u => u) (fun u _ => u) (fun u p => Ok (u ++ p)).
Definition routers : RouterPolicyConfig := mkRouterPolicyConfig "fleet" [mkRouterManagement "router-a" "https://router-a"] [] "k" "ca" "c" "p".
Definition toy_gateway (enabled : bool) : ManagedGatewayConfig :=
  mkGatewayConfig enabled (Some "Inari") "controller-1" ["2026-01-01"] ["managed_work:dispatch"]
    (GatewayConfig.mkOnboardingConfig true (Some "https://inari.example") (seconds 600) (seconds 60) 5)
    (mkDataPlaneConfig ["tls/router-a:7447"] "inari/gateway" true) routers
    (mkCertificateConfig CertificateStepCa (Some "https://ca") None (Some "agents") (Some "kid") (Some "key.pem") SigEdDsa (seconds 300) true)
    (mkDispatchConfig true 1 (Some "signing-1") (Some "dispatch.pem") (seconds 60)) (mkProtectionConfig true "transit" "payload").
Definition toy_settings (enabled : bool) : Settings :=
  mkSettings (toy_gateway enabled) "org_acme" "Acme" "site_main" "Main" false None None false.
Definition toy_database : DatabaseIo :=
  mkDatabaseIo (Some "postgres://inari") (fun _ => true) true (fun r => Some (negb (String.eqb r "_sqlx_migrations"))) ["m0001"]
    (Some []) true true true true true (Some []) true.
Definition toy_io : StartupIo :=
  mkStartupIo true toy_database Some (fun _ => Some "pem") (fun _ => Ok tt) (Ok tt) (Ok tt) (Ok tt)
    (Ok (mkController "org_acme" routers "inari/gateway" "key" "digest")) 0.
Definition toy_zenoh : ZenohStatus := status_connected 1 0.
Definition toy_built := build (toy_settings true) toy_io toy_zenoh empty_database.
Lemma startup_matches_configuration_witness : exists b db', toy_built = (Ok b, db') /\ is_some (bt_onboarding b) = true /\
  (exists row, organizations db' !! "org_acme" = Some row /\ og_name row = "Acme") /\
  forall now, rr_status (readyz now (bt_state b)) = 503.
Proof.
  destruct toy_built as [result db'] eqn:E. pose proof E as Hrun. vm_compute in E. injection E as <- <-.
  destruct (proj1 (startup_matches_configuration (toy_settings true) toy_io toy_zenoh empty_database _ _ Hrun) _ eq_refl)
    as (_ & _ & Ho & _ & _ & _ & _ & Hg).
  destruct (Hg eq_refl) as (Horg & _ & Hready).
  eexists _, _. split; [reflexivity|]. split; [exact Ho|]. split; [exact Horg|exact Hready].
Defined.
(** With the gateway disabled there is no onboarding service, and enrollment is reported as available. *)
Example disabled_gateway_reports_enrollment : exists b,
  build (toy_settings false) toy_io toy_zenoh empty_database = (Ok b, empty_database) /\ bt_onboarding b = None /\
  component CEnrollment (sn_components (readiness_snapshot 0 (bt_state b))) =
    mkReadinessStatus LevelReady "Invitation enrollment is available.".
Proof. eexists. split; [reflexivity|]. split; reflexivity. Qed.
End StartupToy.
