(* ===== verification/HttpMetadata.v ===== *)
(** * HTTP metadata of Zenoh samples

    [crates/inari-server/src/zenoh/rest/metadata.rs], the headers of [request.rs] and [response.rs]: how the [Content-Type]
    and [Content-Encoding] of a written body are kept with the Zenoh sample, and given back with a raw reply.  MIME
    types, JSON and Zenoh's encodings are third-party. *)
From S2P Require Import Prelude InvitationCode Negotiation.

(** ** Parts *)
(** [mime::Mime]: type, subtype, the suffix after a [+], and the parameters of a text. *)
Record MimeType := mkMimeType { mt_type : string; mt_subtype : string; mt_suffix : option string; mt_params : list (string * string) }.
Class Mime := { mime_parse : string -> option MimeType; mime_text : MimeType -> string }.
(** [serde_json] of [HttpMetadataAttachment], and [zenoh::bytes::Encoding] from and to text. *)
Class AttachmentJson := { attachment_to_vec : list string -> option string; attachment_from_slice : string -> option (list string) }.
Class ZenohEncoding := { Encoding_t : Type; encoding_from : string -> Encoding_t; encoding_to_string : Encoding_t -> string;
                        encoding_registered : string -> bool }.
Definition tchar (c : ascii) : bool :=
  is_ascii_digit c || byte_in 65 90 c || byte_in 97 122 c
  || existsb (byte_is c) [33; 35; 36; 37; 38; 39; 42; 43; 45; 46; 94; 95; 96; 124; 126].
Definition is_http_token (value : string) : bool := negb (is_empty value) && all_bytes tchar value.
Definition normalize_content_codings (value : string) : option string :=
  let codings := trim <$> split_on "," value in
  if existsb (fun coding => is_empty coding || negb (is_http_token coding)) codings then None
  else Some (String.concat ", " codings).
Section Metadata.
Context `{HeaderText, Mime, AttachmentJson, ZenohEncoding}.

Definition split_content_type (value : string) : option (string * list string) :=
  parsed ← mime_parse value;
  Some (mt_type parsed ++ "/" ++ mt_subtype parsed, (fun '(name, v) => name ++ "=" ++ v) <$> mt_params parsed).
Definition encode_content_type_parameters (parameters : list string) : option string :=
  match parameters with [] => None | _ => attachment_to_vec parameters end.
Definition decode_content_type_parameters (attachment : option string) : option (list string) :=
  bytes ← attachment;
  parameters ← attachment_from_slice bytes;
  match parameters with [] => None | _ => Some parameters end.
Record RequestMetadata := mkRequestMetadata {
  md_media_type : option string; md_content_encoding : option string; md_attachment : option string }.
Definition header_text (header : option string) : option string :=
  value ← header; text ← header_to_str value; if is_empty (trim text) then None else Some (trim text).
Definition RequestMetadata_from_request (content_type content_encoding : option string) : RequestMetadata :=
  let coding := header_text content_encoding ≫= normalize_content_codings in
  match header_text content_type with
  | Some content_type =>
      match split_content_type content_type with
      | None => mkRequestMetadata None None None
      | Some (media_type, parameters) =>
          mkRequestMetadata (Some media_type) coding (encode_content_type_parameters parameters)
      end
  | None => mkRequestMetadata None coding None
  end.
Record RequestTransport := mkRequestTransport { tr_encoding : Encoding_t; tr_attachment : option string }.
Definition into_transport (m : RequestMetadata) (default_encoding : string) : RequestTransport :=
  let media_type := default default_encoding (md_media_type m) in
  mkRequestTransport
    (encoding_from match md_content_encoding m with Some coding => media_type ++ ";" ++ coding | None => media_type end)
    (md_attachment m).

(** The headers of a raw reply. *)
Record HttpReplyHeaders := mkHttpReplyHeaders { hr_content_type : option string; hr_content_encoding : option string }.
Definition parse_media_type (value : string) : option MimeType := if is_empty value then None else mime_parse value.
Definition parse_content_encoding_schema (schema : string) : option string :=
  let schema := trim schema in
  if is_empty schema then None
  else if negb (all_bytes (fun c => negb (byte_is c 59)) schema) then None
  else codings ← normalize_content_codings schema; header_from_str codings.
Definition join_content_type_parameters (media_type : string) (parameters : list string) : string :=
  match parameters with [] => media_type | _ => media_type ++ "; " ++ String.concat "; " parameters end.
Definition content_type_header (media_type : MimeType) (parameters : list string) : option string :=
  mime ← mime_parse (join_content_type_parameters (mt_type media_type ++ "/" ++ mt_subtype media_type) parameters);
  header_from_str (mime_text mime).
Definition from_zenoh_metadata (encoding : Encoding_t) (attachment : option string) : HttpReplyHeaders :=
  let text := encoding_to_string encoding in
  let '(media_type, schema) :=
    match split_once ";" text with Some (m, s) => (trim m, Some (trim s)) | None => (trim text, None) end in
  match parse_media_type media_type with
  | None => mkHttpReplyHeaders None None
  | Some mime =>
      mkHttpReplyHeaders (content_type_header mime (default [] (decode_content_type_parameters attachment)))
        (schema ≫= parse_content_encoding_schema)
  end.
End Metadata.


(** ** Trimming texts that begin and end with a visible character *)
Definition solid (c : ascii) : bool := is_ascii c && negb (ws1 c).
Definition edged (s : string) : Prop := forall c, head (list_ascii_of_string s) = Some c \/ head (reverse (list_ascii_of_string s)) = Some c -> solid c = true.
Lemma drop_ws_solid w2 w3 l :
  (forall a b, is_ascii a = true -> w2 a b = false) -> (forall a b c, is_ascii a = true -> w3 a b c = false) ->
  (forall c, head l = Some c -> solid c = true) -> drop_ws w2 w3 l = l.
Proof.
  intros H2 H3 Hl. destruct l as [|a [|b [|c l]]]; [done|..]; specialize (Hl a eq_refl); unfold solid in Hl; bools; simpl;
    destruct (ws1 a); rewrite ?H2, ?H3 by done; done.
Qed.
Lemma trim_edged s : edged s -> trim s = s.
Proof.
  intros Hs. unfold trim.
  rewrite (drop_ws_solid ws2 ws3); [|by intros a b Ha; destruct (ascii_not_wide a b Ha)
    |by intros a b c Ha; destruct (ascii_not_wide3 a b c Ha)|auto].
  rewrite drop_ws_solid; [by rewrite reverse_involutive, string_of_list_ascii_of_string
    |by intros a b Ha; destruct (ascii_not_wide a b Ha)|by intros a b c Ha; destruct (ascii_not_wide3 a b c Ha)|].
  intros c Hc. apply Hs. by right.
Qed.
Lemma list_ascii_app s t : list_ascii_of_string (s ++ t) = (list_ascii_of_string s ++ list_ascii_of_string t)%list.
Proof. induction s; simpl; congruence. Qed.
Lemma edged_all s : all_bytes solid s = true -> edged s.
Proof.
  rewrite forallb_list_ascii. intros Ha c Hc. rewrite forallb_forall in Ha. apply Ha, list_elem_of_In.
  destruct Hc as [Hc|Hc]; apply head_Some_elem_of in Hc; [done|by apply elem_of_reverse].
Qed.
Lemma edged_app s t u : all_bytes solid s = true -> s <> "" -> edged u -> u <> "" -> edged (s ++ t ++ u).
Proof.
  intros Hs Hsn Hu Hun. destruct s as [|c s]; [done|]. intros d. rewrite list_ascii_app, list_ascii_app, !reverse_app. simpl.
  intros [[= ->]|Hd].
  - simpl in Hs. by apply andb_true_iff in Hs as [? _].
  - apply Hu. right. destruct (reverse (list_ascii_of_string u)) as [|e l] eqn:E; [|done].
    apply (f_equal reverse) in E. rewrite reverse_involutive in E. by destruct u.
Qed.

(** ** Content codings *)
Lemma tchar_solid c : tchar c = true -> solid c = true /\ Ascii.eqb c "," = false /\ byte_is c 59 = false /\ Ascii.eqb c ";" = false.
Proof.
  pose proof (ascii_by_code (fun c => implb (tchar c) (solid c && negb (Ascii.eqb c ",") && negb (byte_is c 59) && negb (Ascii.eqb c ";")))
    ltac:(vm_compute; reflexivity) c) as Hc. intros Ht. simpl in Hc. rewrite Ht in Hc. simpl in Hc. bools. done.
Qed.
Lemma token_solid t : is_http_token t = true -> all_bytes solid t = true /\ t <> "" /\
  all_bytes (fun c => negb (Ascii.eqb c ",")) t = true /\ all_bytes (fun c => negb (byte_is c 59)) t = true /\
  all_bytes (fun c => negb (Ascii.eqb c ";")) t = true.
Proof.
  unfold is_http_token. intros [Hn Ht]%andb_true_iff. split_and!; [|by destruct t| | |];
    apply (all_bytes_impl tchar); try done; intros c Hc; destruct (tchar_solid c Hc) as (? & H1 & H2 & H3); by rewrite ?H1, ?H2, ?H3.
Qed.
(** A list of tokens, as it is normalized. *)
Fixpoint codings_text (ts : list string) : string :=
  match ts with [] => "" | [t] => t | t :: rest => t ++ ", " ++ codings_text rest end.
Lemma codings_text_concat ts : String.concat ", " ts = codings_text ts.
Proof. induction ts as [|t [|u ts] IH]; [done|done|]. simpl in *. by rewrite IH. Qed.
Lemma codings_edged ts : ts <> [] -> Forall (fun t => is_http_token t = true) ts -> edged (codings_text ts) /\ codings_text ts <> "" /\
  all_bytes (fun c => negb (byte_is c 59)) (codings_text ts) = true.
Proof.
  induction ts as [|t [|u ts] IH]; [done| |]; intros _ [Ht Hts]%Forall_cons_1; destruct (token_solid t Ht) as (Hs & Hne & _ & H59 & _).
  - split_and!; [by apply edged_all|done|done].
  - destruct IH as (He & Hne2 & H592); [done|done|]. change (codings_text (t :: u :: ts)) with (t ++ ", " ++ codings_text (u :: ts)).
    split_and!; [by apply edged_app|by destruct t|]. by rewrite !all_bytes_app, H59, H592.
Qed.
Lemma trim_space s : trim (" " ++ s) = trim s.
Proof. done. Qed.
Lemma codings_split ts : ts <> [] -> Forall (fun t => is_http_token t = true) ts ->
  trim <$> split_on "," (codings_text ts) = ts /\ trim <$> split_on "," (" " ++ codings_text ts) = ts.
Proof.
  assert (forall t, is_http_token t = true -> trim t = t) as Htrim.
  { intros t Ht. apply trim_edged, edged_all. by apply token_solid. }
  assert (forall t, is_http_token t = true -> split_on "," t = [t] /\ split_on "," (" " ++ t) = [(" " ++ t)%string]) as Hsplit.
  { intros t Ht. destruct (token_solid t Ht) as (_ & _ & Hc & _). split; apply split_on_none; [done|]. by simpl. }
  induction ts as [|t [|u ts] IH]; [done| |]; intros _ [Ht Hts]%Forall_cons_1; destruct (Hsplit t Ht) as [H1 H2].
  - change (codings_text [t]) with t. rewrite H1, H2. cbn [fmap list_fmap]. rewrite trim_space. by rewrite Htrim.
  - destruct IH as [_ IH]; [done|done|].
    change (codings_text (t :: u :: ts)) with (t ++ "," ++ (" " ++ codings_text (u :: ts))).
    rewrite (string_app_assoc " " t). split; rewrite split_on_app, ?H1, ?H2, fmap_app, IH; cbn [fmap list_fmap]; by rewrite ?trim_space, Htrim.
Qed.
(** What was normalized is a list of tokens, and normalizing it again changes nothing. *)
Lemma normalize_tokens value text : normalize_content_codings value = Some text ->
  exists ts, ts <> [] /\ Forall (fun t => is_http_token t = true) ts /\ text = codings_text ts.
Proof.
  unfold normalize_content_codings. destruct (existsb _ _) eqn:E; [done|]. intros [= <-]. eexists. split_and!; [| |apply codings_text_concat].
  - intros En%fmap_nil_inv. by eapply split_on_nonempty.
  - apply list.Forall_forall. intros t Ht. destruct (is_http_token t) eqn:Et; [done|].
    exfalso. apply (Bool.diff_true_false). rewrite <- E. symmetry. apply (proj2 (existsb_exists _ _)).
    exists t. split; [by apply list_elem_of_In|]. rewrite Et. by destruct (is_empty t).
Qed.
Lemma normalize_again ts : ts <> [] -> Forall (fun t => is_http_token t = true) ts ->
  normalize_content_codings (codings_text ts) = Some (codings_text ts).
Proof.
  intros Hne Hts. unfold normalize_content_codings. rewrite (proj1 (codings_split ts Hne Hts)), codings_text_concat.
  destruct (existsb _ _) eqn:E; [|done]. apply existsb_exists in E as (t & Hin & Ht).
  apply list_elem_of_In in Hin. pose proof (proj1 (list.Forall_forall _ _) Hts t Hin) as Htok. cbv beta in Htok. rewrite Htok in Ht.
  unfold is_http_token in Htok. by destruct t.
Qed.

(** ** The round trip *)
Definition media_type_text (m : MimeType) : string := mt_type m ++ "/" ++ mt_subtype m.
Definition parameter_text (p : string * string) : string := let '(name, v) := p in name ++ "=" ++ v.
(** What the libraries promise: the names of a MIME type are tokens, a type without suffix and with token parameters is
    read back from its text, and JSON of strings can be written and is read back.  Zenoh numbers the encodings it knows:
    one of these, with a schema after a semicolon or without, has the text it was made from; any other text becomes, as a
    whole, the schema of [zenoh/bytes]. *)
Definition encoding_id (s : string) : string := match split_once ";" s with Some (id, _) => id | None => s end.
Definition no_semicolon : string -> bool := all_bytes (fun c => negb (Ascii.eqb c ";")).
Class MetadataSpec `{Mime, AttachmentJson, ZenohEncoding} : Prop := {
  mime_names v m : mime_parse v = Some m -> is_http_token (mt_type m) = true /\ is_http_token (mt_subtype m) = true;
  mime_reads v m : mime_parse v = Some m -> mt_suffix m = None ->
    Forall (fun p => is_http_token (fst p) = true /\ is_http_token (snd p) = true) (mt_params m) ->
    mime_parse (join_content_type_parameters (media_type_text m) (parameter_text <$> mt_params m)) = Some m /\
    mime_parse (media_type_text m) = Some (mkMimeType (mt_type m) (mt_subtype m) None []);
  attachment_written l : exists b, attachment_to_vec l = Some b /\ attachment_from_slice b = Some l;
  encoding_text id : encoding_registered id = true -> encoding_to_string (encoding_from id) = id;
  encoding_schema id schema : encoding_registered id = true -> no_semicolon id = true -> schema <> "" ->
    encoding_to_string (encoding_from (id ++ ";" ++ schema)) = id ++ ";" ++ schema;
  encoding_unknown s : s <> "" -> encoding_registered (encoding_id s) = false ->
    encoding_to_string (encoding_from s) = "zenoh/bytes;" ++ s;
}.
Section RoundTrip.
Context `{HeaderText, Mime, AttachmentJson, ZenohEncoding, !MetadataSpec}.

Lemma media_type_solid v m : mime_parse v = Some m -> all_bytes solid (media_type_text m) = true /\
  all_bytes (fun c => negb (Ascii.eqb c ";")) (media_type_text m) = true /\ media_type_text m <> "".
Proof.
  intros [(Ht & Hne & _ & _ & Hts)%token_solid (Hs & _ & _ & _ & Hss)%token_solid]%mime_names. unfold media_type_text.
  rewrite !all_bytes_app, Ht, Hs, Hts, Hss. split_and!; [done|done|]. by destruct (mt_type m).
Qed.
Lemma split_once_none sep s : all_bytes (fun c => negb (Ascii.eqb c sep)) s = true -> split_once sep s = None.
Proof. induction s as [|c s IH]; simpl; [done|]. intros [Hc Hs]%andb_true_iff. apply negb_true_iff in Hc. by rewrite Hc, IH. Qed.
Lemma split_once_app sep s t : all_bytes (fun c => negb (Ascii.eqb c sep)) s = true ->
  split_once sep (s ++ String sep EmptyString ++ t) = Some (s, t).
Proof.
  induction s as [|c s IH]; simpl; [by rewrite Ascii.eqb_refl|]. intros [Hc Hs]%andb_true_iff. apply negb_true_iff in Hc.
  rewrite Hc. simpl in IH. by rewrite IH.
Qed.
Lemma decode_encode ps : default [] (decode_content_type_parameters (encode_content_type_parameters ps)) = ps.
Proof.
  unfold encode_content_type_parameters, decode_content_type_parameters. destruct ps as [|p ps]; [done|].
  destruct (attachment_written (p :: ps)) as (b & -> & Hb). simpl. by rewrite Hb.
Qed.

(** A media type is no coding, alone or with codings after it. *)
Lemma media_type_is_no_coding v m coding : mime_parse v = Some m ->
  (forall c, coding = Some c -> exists ts, ts <> [] /\ Forall (fun t => is_http_token t = true) ts /\ c = codings_text ts) ->
  parse_content_encoding_schema (trim match coding with Some c => media_type_text m ++ ";" ++ c | None => media_type_text m end) = None.
Proof.
  intros Hm Hc. destruct (media_type_solid _ _ Hm) as (Hsolid & _ & Hne). destruct (mime_names _ _ Hm) as [Ht Hs].
  unfold parse_content_encoding_schema. destruct coding as [c|].
  - destruct (Hc c eq_refl) as (ts & Htne & Htok & ->). destruct (codings_edged ts Htne Htok) as (He & Hcne & _).
    rewrite !(trim_edged (media_type_text m ++ _)) by (by apply edged_app).
    destruct (is_empty _); [done|]. by rewrite !all_bytes_app, andb_false_r.
  - pose proof (trim_edged _ (edged_all _ Hsolid)) as Htrim. rewrite !Htrim. destruct (is_empty _); [done|]. destruct (negb _); [done|].
    unfold normalize_content_codings. apply token_solid in Ht as (_ & _ & Htc & _), Hs as (_ & _ & Hsc & _).
    rewrite split_on_none by (unfold media_type_text; by rewrite !all_bytes_app, Htc, Hsc). cbn [fmap list_fmap].
    rewrite Htrim. cbn [existsb].
    assert (is_http_token (media_type_text m) = false) as ->; [|by rewrite orb_true_r].
    unfold is_http_token, media_type_text. by rewrite !all_bytes_app, !andb_false_r.
Qed.
(** A type that Zenoh does not know is not given back: whatever the type and the codings were, the reply has the type
    [zenoh/bytes] and no coding. *)
Lemma unregistered_type_is_lost content_type content_encoding text m default_encoding z :
  header_text (Some content_type) = Some text -> mime_parse text = Some m -> mime_parse "zenoh/bytes" = Some z ->
  encoding_registered (media_type_text m) = false ->
  let t := into_transport (RequestMetadata_from_request (Some content_type) content_encoding) default_encoding in
  from_zenoh_metadata (tr_encoding t) (tr_attachment t) =
    mkHttpReplyHeaders (content_type_header z (parameter_text <$> mt_params m)) None.
Proof.
  intros Ht Hm Hz Hreg t. subst t. unfold RequestMetadata_from_request. rewrite Ht. unfold split_content_type. rewrite Hm.
  cbn [mbind option_bind]. fold (media_type_text m). change (fun '(name, v) => name ++ "=" ++ v) with parameter_text.
  unfold into_transport, from_zenoh_metadata. cbn [md_media_type md_content_encoding md_attachment tr_encoding tr_attachment default from_option id].
  destruct (media_type_solid _ _ Hm) as (Hsolid & Hsemi & Hne). set (coding := header_text content_encoding ≫= _).
  set (whole := match coding with Some coding => media_type_text m ++ ";" ++ coding | None => media_type_text m end).
  assert (encoding_id whole = media_type_text m) as Hid.
  { unfold encoding_id, whole. destruct coding; [by rewrite split_once_app|by rewrite split_once_none]. }
  rewrite encoding_unknown; [|subst whole; destruct coding; by destruct (media_type_text m)|by rewrite Hid].
  change (split_once ";" ("zenoh/bytes;" ++ whole)) with (Some ("zenoh/bytes", whole)).
  cbv beta iota zeta. change (trim "zenoh/bytes") with "zenoh/bytes".
  change (parse_media_type "zenoh/bytes") with (mime_parse "zenoh/bytes"). rewrite Hz, decode_encode. f_equal.
  apply (media_type_is_no_coding text); [done|]. unfold coding. intros c (value & _ & Hcod)%bind_Some. by eapply normalize_tokens.
Qed.
(** The suffix of a type such as ["image/svg+xml"] is not kept: with and without it the sample is the same. *)
Lemma structured_suffix_is_dropped content_type text m content_encoding default_encoding :
  header_text (Some content_type) = Some text -> mime_parse text = Some m ->
  tr_encoding (into_transport (RequestMetadata_from_request (Some content_type) content_encoding) default_encoding) =
  encoding_from (media_type_text m ++ match header_text content_encoding ≫= normalize_content_codings with
                                      | Some coding => ";" ++ coding | None => "" end).
Proof.
  intros Ht Hm. unfold RequestMetadata_from_request. rewrite Ht. unfold split_content_type. rewrite Hm. simpl.
  unfold into_transport. simpl. destruct (header_text content_encoding ≫= normalize_content_codings); [done|by rewrite string_app_nil].
Qed.
End RoundTrip.
