(* ===== verification/RestService.v ===== *)
(** * Direct access to Zenoh over HTTP

    [crates/inari-server/src/zenoh/rest] (selectors, query options, the service, its routes) and
    [http/routes/api/zenoh.rs]: who may read and write Zenoh through the Controller, which keys they reach, and what is
    audited.  An operation on the Zenoh session is a [ZenohAction]; its answer is an argument.  Zenoh key expressions and
    axum's routing are third-party. *)
From S2P Require Import Prelude Json Errors Identifiers Schema AuditLog ServerErrors ManagedGateway EnrollmentService.
From S2P Require Import Onboarding Negotiation HttpMetadata Identity HttpApi ZenohRuntime Readiness Startup.

(** ** Selectors *)
Fixpoint trim_start_slashes (s : string) : string :=
  match s with String c rest => if byte_is c 47 then trim_start_slashes rest else s | EmptyString => s end.
(** [str::trim_start_matches] of a pattern that is not empty: every leading occurrence goes. *)
Fixpoint trim_start_fuel (fuel : nat) (p s : string) : string :=
  match fuel with
  | O => s
  | S fuel => match strip_prefix p s with Some rest => trim_start_fuel fuel p rest | None => s end
  end.
Definition trim_start_matches (p s : string) : string := trim_start_fuel (S (String.length s)) p s.
Definition NormalizedSelector_from_str (selector : string) : AppResult string :=
  let selector := trim_start_slashes selector in
  _ ← ensure (negb (is_empty selector)) (bad_request "Zenoh key expression cannot be empty.");
  Ok selector.
Definition is_admin (selector : string) : bool := starts_with "@/" selector.
Inductive AdminRole : Set := RoleRead | RoleWrite.
Record RestSettings := mkRestSettings {
  rs_enabled : bool; rs_allow_admin_space : bool; rs_query_timeout : Z; rs_sse_buffer : Z;
  rs_admin_enabled : bool; rs_admin_read : bool; rs_admin_write : bool }.
Definition check_admin_perms (role : AdminRole) (s : RestSettings) : bool :=
  match role with RoleRead => rs_admin_read s | RoleWrite => rs_admin_write s end.
Definition operation_name (role : AdminRole) : string := match role with RoleRead => "reads" | RoleWrite => "writes" end.
Definition ensure_admin_space_allowed (role : AdminRole) (s : RestSettings) : AppResult unit :=
  _ ← ensure (rs_allow_admin_space s) (forbidden "Zenoh admin space access is disabled for this HTTP surface.");
  _ ← ensure (rs_admin_enabled s) (service_unavailable "Zenoh admin space is not enabled in the embedded router.");
  ensure (check_admin_perms role s)
    (forbidden ("Zenoh admin space " ++ operation_name role ++ " are disabled in the embedded router.")).
Section Selectors.
Context `{KeyExpressions}.
Context (settings : RestSettings) (session : option CurrentSession).

Definition connected_zid : AppResult string :=
  ok_or (cs_zid <$> session) (service_unavailable "Zenoh session is not connected.").
Definition resolve_admin_selector (role : AdminRole) (selector : string) : AppResult string :=
  _ ← ensure_admin_space_allowed role settings;
  zid ← connected_zid;
  if String.eqb selector "@/local" then Ok ("@/" ++ zid)
  else if starts_with "@/local/" selector then Ok ("@/" ++ zid ++ "/" ++ trim_start_matches "@/local/" selector)
  else Ok selector.
Definition resolve (role : AdminRole) (selector : string) : AppResult string :=
  resolved ← (if is_admin selector then resolve_admin_selector role selector else Ok selector);
  match key_from_str resolved with
  | Ok key => Ok key
  | Err source => Err (bad_request ("Invalid Zenoh key expression `" ++ selector ++ "`: " ++ source ++ "."))
  end.
(** [path] is what axum extracts: the selector, or why there is none. *)
Definition extract_selector (role : AdminRole) (path : result string string) : AppResult string :=
  selector ← match path with Ok s => Ok s | Err source => Err (bad_request source) end;
  normalized ← NormalizedSelector_from_str selector;
  resolve role normalized.
End Selectors.

(** ** Query options *)
Inductive RawResponseMode : Set := JsonEnvelope | RawHttp.
Definition is_raw (m : RawResponseMode) : bool := match m with RawHttp => true | JsonEnvelope => false end.
Inductive LivelinessMode : Set := LiveCurrent | WithHistory.
Inductive ConsolidationStrategy : Set := ConsolidateLatest | ConsolidateNone.
Inductive QueryOptions : Type :=
| StandardQuery (selector_query : option string) (raw_response : RawResponseMode) (consolidation : ConsolidationStrategy)
| LivelinessQuery (raw_response : RawResponseMode) (mode : LivelinessMode).
(** [query.split(['&', ';'])]. *)
Definition query_segments (query : string) : list string :=
  split_on "&" (map_bytes (fun c => if byte_is c 59 then "&"%char else c) query).
Definition query_parameter_names (query : string) : list string :=
  (fun segment => match split_once "=" segment with Some (name, _) => name | None => segment end)
    <$> List.filter (fun segment => negb (is_empty segment)) (query_segments query).
Record ParsedQuery := mkParsedQuery {
  pq_raw : RawResponseMode; pq_liveliness : bool; pq_history : bool; pq_consolidation : ConsolidationStrategy;
  pq_saw_time : bool; pq_unsupported : list string }.
#[global] Instance ParsedQuery_eta : Eta ParsedQuery := fun q =>
  mkParsedQuery (pq_raw q) (pq_liveliness q) (pq_history q) (pq_consolidation q) (pq_saw_time q) (pq_unsupported q).
Definition parse_name (q : ParsedQuery) (name : string) : ParsedQuery :=
  if String.eqb name "_raw" then q <| pq_raw := RawHttp |>
  else if String.eqb name "_liveliness" then q <| pq_liveliness := true |>
  else if String.eqb name "_history" then q <| pq_history := true |>
  else if String.eqb name "_time" then q <| pq_consolidation := ConsolidateNone |> <| pq_saw_time := true |>
  else q <| pq_unsupported := (pq_unsupported q ++ [name])%list |>.
Definition QueryOptions_parse (query : option string) : AppResult QueryOptions :=
  let query := match query with Some q => if is_empty q then None else Some q | None => None end in
  let q := fold_left parse_name (query_parameter_names (default "" query))
             (mkParsedQuery JsonEnvelope false false ConsolidateLatest false []) in
  if pq_liveliness q then
    let unsupported := if pq_saw_time q then (pq_unsupported q ++ ["_time"])%list else pq_unsupported q in
    match unsupported with
    | [] => Ok (LivelinessQuery (pq_raw q) (if pq_history q then WithHistory else LiveCurrent))
    | _ => Err (bad_request ("Zenoh liveliness requests do not accept selector parameters other than `_liveliness`, `_history`, and `_raw`: "
             ++ String.concat ", " unsupported ++ "."))
    end
  else Ok (StandardQuery query (pq_raw q) (pq_consolidation q)).

(** ** The service *)
Inductive Method : Set := GET | HEAD | POST | PUT | PATCH | DELETE.
Inductive RestError : Type :=
| RestApp (error : AppError)
| RestRejected (status : Z)
| RestBusy.
Section Rest.
Context `{KeyExpressions, HeaderText, Mime, AttachmentJson, ZenohEncoding, Onboarding.UrlOps}.
Context {Reply : Type}.

Record QueryPayload := mkQueryPayload { qp_body : string; qp_transport : RequestTransport }.
Inductive ZenohAction : Type :=
| ZenohPut (key payload : string) (transport : RequestTransport)
| ZenohDelete (key : string)
| ZenohQuery (first : bool) (key parameters : string) (timeout : Z) (consolidation : ConsolidationStrategy) (payload : option QueryPayload)
| ZenohLiveliness (first : bool) (key : string) (timeout : Z)
| ZenohSubscribe (key : string) (capacity : Z)
| ZenohSubscribeLiveliness (key : string) (capacity : Z) (history : bool).
Inductive RestResponse : Type :=
| RestIndex (settings : RestSettings) (status : ZenohStatus)
| RestStream
| RestRaw (reply : option Reply)
| RestReplies (format : ApiBodyFormat) (replies : list Reply)
| RestOk.
(** The stored data and the operations on the Zenoh session so far. *)
Record RestWorld := mkRestWorld { rw_world : World; rw_actions : list ZenohAction }.
Notation Rest := (repo RestWorld RestError).
(** A request: the path as the Controller received it, the selector axum extracts from it, its headers and body, and
    what it meets: the clock, the session and what Zenoh answers. *)
Record RestRequest := mkRestRequest {
  rq_method : Method;
  rq_path : string;
  rq_selector : option (result string string);
  rq_query : option string;
  rq_accept : list string;
  rq_content_type : option string;
  rq_content_encoding : option string;
  rq_body : result Z string;
  rq_session : option Session;
  rq_faults : SessionFaults;
  rq_now : instant;
  rq_occurred_at : instant;
  rq_permit : bool;
  rq_zenoh : ZenohAction -> AppResult (list Reply);
}.
Context (settings : RestSettings) (service : ManagedGatewayService) (onboarding : option OnboardingService) (zenoh : Runtime).
Context (request : RestRequest).

Definition rest_app {A} (r : AppResult A) : Rest A := returns match r with Ok a => Ok a | Err e => Err (RestApp e) end.
Definition perform (action : ZenohAction) : Rest (list Reply) := fun w =>
  (match rq_zenoh request action with Ok l => Ok l | Err e => Err (RestApp e) end,
   mkRestWorld (rw_world w) (rw_actions w ++ [action])%list).
(** An operation on the open session. *)
Definition session_operation (action : ZenohAction) : Rest (list Reply) :=
  _ ← rest_app (connected_session zenoh);
  perform action.
Definition build_query_request (first : bool) (key : string) (selector_query : option string) (consolidation : ConsolidationStrategy)
    (metadata : RequestMetadata) (body : string) : ZenohAction :=
  ZenohQuery first key (default "" selector_query) (rs_query_timeout settings) consolidation
    (if is_empty body then None else Some (mkQueryPayload body (into_transport metadata "zenoh/bytes"))).
Definition rest_query (key : string) (options : QueryOptions) (negotiated : NegotiatedResponse) (metadata : RequestMetadata)
    (body : string) : Rest RestResponse :=
  match options with
  | StandardQuery selector_query raw consolidation =>
      match negotiated with
      | NegotiatedEventStream =>
          _ ← session_operation (ZenohSubscribe key (rs_sse_buffer settings)); mret RestStream
      | NegotiatedApi format =>
          replies ← session_operation (build_query_request (is_raw raw) key selector_query consolidation metadata body);
          mret (if is_raw raw then RestRaw (head replies) else RestReplies format replies)
      end
  | LivelinessQuery raw mode =>
      _ ← rest_app (ensure (is_empty body) (bad_request "Zenoh liveliness requests do not accept query payloads."));
      match negotiated with
      | NegotiatedEventStream =>
          _ ← session_operation (ZenohSubscribeLiveliness key (rs_sse_buffer settings)
                match mode with WithHistory => true | LiveCurrent => false end); mret RestStream
      | NegotiatedApi format =>
          replies ← session_operation (ZenohLiveliness (is_raw raw) key (rs_query_timeout settings));
          mret (if is_raw raw then RestRaw (head replies) else RestReplies format replies)
      end
  end.
Definition rest_write (key : string) (metadata : RequestMetadata) (body : string) : Rest RestResponse :=
  _ ← perform (ZenohPut key body (into_transport metadata "application/octet-stream")); mret RestOk.
Definition rest_delete (key : string) : Rest RestResponse := _ ← perform (ZenohDelete key); mret RestOk.

(** ** Routes *)
(** The extractors run in the order of the arguments, the body last. *)
Definition request_metadata : RequestMetadata := RequestMetadata_from_request (rq_content_type request) (rq_content_encoding request).
Definition request_body : Rest string := returns match rq_body request with Ok b => Ok b | Err status => Err (RestRejected status) end.
Definition query_handler (path : result string string) : Rest RestResponse :=
  key ← rest_app (extract_selector settings (session_snapshot zenoh) RoleRead path);
  options ← rest_app (QueryOptions_parse (rq_query request));
  body ← request_body;
  rest_query key options (negotiate_response (rq_accept request)) request_metadata body.
Definition write_handler (path : result string string) : Rest RestResponse :=
  key ← rest_app (extract_selector settings (session_snapshot zenoh) RoleWrite path);
  body ← request_body;
  rest_write key request_metadata body.
Definition remove_handler (path : result string string) : Rest RestResponse :=
  key ← rest_app (extract_selector settings (session_snapshot zenoh) RoleWrite path);
  rest_delete key.
(** [shed_excess_zenoh_rest_requests] around the routes with a selector; the index has no budget. *)
Definition rest_route : Rest RestResponse :=
  match rq_selector request with
  | None => mret (RestIndex settings (status_snapshot zenoh))
  | Some path =>
      if negb (rq_permit request) then returns (Err RestBusy) else
      match rq_method request with
      | GET | HEAD | POST => query_handler path
      | PUT | PATCH => write_handler path
      | DELETE => remove_handler path
      end
  end.
Definition rest_status (r : result RestError RestResponse) : Z :=
  match r with Ok _ => 200 | Err (RestApp e) => status_code e | Err (RestRejected status) => status | Err RestBusy => 503 end.
Definition is_success (status : Z) : bool := (200 <=? status) && (status <? 300).

(** ** Authorization and audit *)
Definition required (m : Method) : Permission * AuditAction :=
  match m with GET | HEAD => (PermZenohRead, ActZenohRead) | _ => (PermZenohWrite, ActZenohWrite) end.
(** [uri] is the path the middleware sees. *)
Definition audited_selector (uri : string) : string := default "" (strip_prefix "/api/zenoh/v1/" uri).
Definition rest_draft (p : SessionIdentity) (action : AuditAction) (uri : string) (outcome : AuditOutcome) : AuditEventDraft :=
  mkDraft (EnrollmentService.sv_organization_id service) (si_actor_id p) action (ResZenohSelector (audited_selector uri)) outcome None.
(** Nothing is recorded without onboarding; an event that cannot be stored is only logged. *)
Definition record_rest_event (draft : AuditEventDraft) (w : RestWorld) : RestWorld :=
  match onboarding with
  | None => w
  | Some _ => mkRestWorld (snd (service_record_audit_event service (rq_occurred_at request) draft (rw_world w))) (rw_actions w)
  end.
Definition authorize (uri : string) : Rest RestResponse := fun w =>
  match fst (Principal_from_request (rq_faults request) (rq_now request) (rq_session request)) with
  | Err e => (Err (RestApp e), w)
  | Ok principal =>
      let '(permission, action) := required (rq_method request) in
      match Principal_require principal permission with
      | Err e => (Err (RestApp e), record_rest_event (rest_draft principal action uri Denied) w)
      | Ok _ =>
          let '(response, w') := rest_route w in
          (response, record_rest_event (rest_draft principal action uri
            (if is_success (rest_status response) then Succeeded else AuditLog.Failed)) w')
      end
  end.
End Rest.
Arguments RestRequest {_} Reply.
Arguments ZenohAction {_}.
Arguments RestWorld {_}.
(** axum: a nested router sees the path without the prefix it is mounted at. *)
Class Nesting := nested_path : string -> string -> string.
Class NestingSpec `{Nesting} : Prop := nested_strips prefix rest : starts_with "/" rest = true -> nested_path prefix (prefix ++ rest) = rest.
(** The routes are mounted at ["/zenoh/v1"] of a router mounted at ["/api"]. *)
Definition zenoh_api `{KeyExpressions, HeaderText, Mime, AttachmentJson, ZenohEncoding, Onboarding.UrlOps, Nesting} {Reply}
    (settings : RestSettings) (service : ManagedGatewayService) (onboarding : option OnboardingService) (zenoh : Runtime)
    (request : RestRequest Reply) :=
  authorize settings service onboarding zenoh request (nested_path "/zenoh/v1" (nested_path "/api" (rq_path request))).

(** ** Who reaches which key *)
(** A key expression that parses is the text that was parsed. *)
Class KeyExpressionsSpec `{KeyExpressions} : Prop := key_from_str_same s k : key_from_str s = Ok k -> k = s.
Definition action_key `{ZenohEncoding} (a : ZenohAction) : string :=
  match a with
  | ZenohPut key _ _ | ZenohDelete key | ZenohQuery _ key _ _ _ _ | ZenohLiveliness _ key _ | ZenohSubscribe key _
  | ZenohSubscribeLiveliness key _ _ => key
  end.
Definition action_role `{ZenohEncoding} (a : ZenohAction) : AdminRole :=
  match a with ZenohPut _ _ _ | ZenohDelete _ => RoleWrite | _ => RoleRead end.
Lemma extract_selector_admin `{KeyExpressions, !KeyExpressionsSpec} settings session role path key :
  extract_selector settings session role path = Ok key -> is_admin key = true -> ensure_admin_space_allowed role settings = Ok tt.
Proof.
  unfold extract_selector, resolve. intros Hr Ha. apply bind_Ok in Hr as (sel & _ & Hr). apply bind_Ok in Hr as (n & _ & Hr).
  apply bind_Ok in Hr as (resolved & Hres & Hk). destruct (key_from_str resolved) as [k|] eqn:Ek; [|done].
  apply Ok_inj in Hk as <-. apply key_from_str_same in Ek as ->.
  destruct (is_admin n) eqn:En; [|apply Ok_inj in Hres; congruence].
  unfold resolve_admin_selector in Hres. by apply bind_Ok in Hres as ([] & Hok & _).
Qed.

Section Access.
Context `{KeyExpressions, !KeyExpressionsSpec, HeaderText, Mime, AttachmentJson, ZenohEncoding, Onboarding.UrlOps, Nesting} {Reply : Type}.
Context (settings : RestSettings) (service : ManagedGatewayService) (onboarding : option OnboardingService) (zenoh : Runtime).
Context (request : RestRequest Reply).

(** What one request may do to Zenoh: nothing, or one operation of the method's kind on a key that is open to it. *)
Definition may_do (w w' : RestWorld) : Prop :=
  rw_world w' = rw_world w /\
  (rw_actions w' = rw_actions w \/ exists a, rw_actions w' = (rw_actions w ++ [a])%list /\
     (action_role a = RoleWrite <-> rq_method request = PUT \/ rq_method request = PATCH \/ rq_method request = DELETE) /\
     (is_admin (action_key a) = true -> ensure_admin_space_allowed (action_role a) settings = Ok tt)).
Lemma guard_keeps {A B} (r : result RestError A) (f : A -> repo RestWorld RestError B) w x w' (P : Prop) :
  (returns r ≫= f) w = (x, w') -> (w' = w -> P) -> (forall a, r = Ok a -> f a w = (x, w') -> P) -> P.
Proof. intros [[-> _]|(a & E & Hr)]%repo_guard Hk Hg; [by apply Hk|by eapply Hg]. Qed.
Lemma may_do_nothing w : may_do w w.
Proof. split; [done|by left]. Qed.
Lemma perform_cases {B} a (f : list Reply -> repo RestWorld RestError B) w x w' : (forall l u, snd (f l u) = u) ->
  (perform request a ≫= f) w = (x, w') -> w' = mkRestWorld (rw_world w) (rw_actions w ++ [a])%list.
Proof.
  intros Hf. unfold mbind, repo_bind, perform. destruct (rq_zenoh request a) as [l|e]; [|by intros [= _ <-]].
  intros E. by rewrite <- (Hf l), E.
Qed.
Lemma operation_cases {B} a (f : list Reply -> repo RestWorld RestError B) w x w' : (forall l u, snd (f l u) = u) ->
  (session_operation zenoh request a ≫= f) w = (x, w') -> w' = w \/ w' = mkRestWorld (rw_world w) (rw_actions w ++ [a])%list.
Proof.
  intros Hf. unfold session_operation, rest_app. destruct (connected_session zenoh) as [c|e]; [|intros [= _ <-]; by left].
  intros E. right. by eapply perform_cases.
Qed.
Lemma rest_query_cases key options negotiated metadata body w x w' :
  rest_query settings zenoh request key options negotiated metadata body w = (x, w') ->
  w' = w \/ exists a, w' = mkRestWorld (rw_world w) (rw_actions w ++ [a])%list /\ action_key a = key /\ action_role a = RoleRead.
Proof.
  assert (forall a f, (forall l u, snd (f l u) = u) -> action_key a = key -> action_role a = RoleRead ->
    (session_operation zenoh request a ≫= f) w = (x, w') -> w' = w \/ exists a, w' = mkRestWorld (rw_world w) (rw_actions w ++ [a])%list /\
    action_key a = key /\ action_role a = RoleRead) as Hop.
  { intros a f Hf Hk Hrole E. apply operation_cases in E as [->| ->]; [by left|right; by exists a|done]. }
  unfold rest_query. destruct options as [sq raw cons|raw mode].
  - destruct negotiated as [|format]; by apply Hop.
  - intros E. eapply guard_keeps; [exact E|by left|]. intros u _. destruct negotiated as [|format]; by apply Hop.
Qed.
(** A handler starts with its selector. *)
Lemma selected {B} role path (f : string -> repo RestWorld RestError B) w x w' :
  (rest_app (extract_selector settings (session_snapshot zenoh) role path) ≫= f) w = (x, w') ->
  w' = w \/ exists key, (is_admin key = true -> ensure_admin_space_allowed role settings = Ok tt) /\ f key w = (x, w').
Proof.
  intros E. eapply guard_keeps; [exact E|by left|]. cbv beta. intros key Hkey E1. right. exists key. split; [|done].
  destruct (extract_selector settings _ role path) as [k|] eqn:Ek; [|done]. injection Hkey as ->. by eapply extract_selector_admin.
Qed.
Lemma query_may_do path w x w' : rq_method request = GET \/ rq_method request = HEAD \/ rq_method request = POST ->
  query_handler settings zenoh request path w = (x, w') -> may_do w w'.
Proof.
  intros Hm [->|(key & Hadmin & E)]%selected; [apply may_do_nothing|].
  eapply guard_keeps; [exact E|intros ->; apply may_do_nothing|]. cbv beta. intros options _ E2.
  eapply guard_keeps; [exact E2|intros ->; apply may_do_nothing|]. cbv beta. intros body _ E3.
  apply rest_query_cases in E3 as [->|(a & -> & <- & Hrole)]; [apply may_do_nothing|]. split; [done|right]. exists a.
  rewrite Hrole. split_and!; [done| |done]. split; [done|]. intros [?|[?|?]]; destruct Hm as [?|[?|?]]; congruence.
Qed.
Lemma write_may_do path w x w' : rq_method request = PUT \/ rq_method request = PATCH ->
  write_handler settings zenoh request path w = (x, w') -> may_do w w'.
Proof.
  intros Hm [->|(key & Hadmin & E)]%selected; [apply may_do_nothing|].
  eapply guard_keeps; [exact E|intros ->; apply may_do_nothing|]. cbv beta. intros body _ E2.
  apply perform_cases in E2 as ->; [|done]. split; [done|right]. eexists. split_and!; [done| |exact Hadmin].
  split; [tauto|done].
Qed.
Lemma remove_may_do path w x w' : rq_method request = DELETE -> remove_handler settings zenoh request path w = (x, w') -> may_do w w'.
Proof.
  intros Hm [->|(key & Hadmin & E)]%selected; [apply may_do_nothing|].
  apply perform_cases in E as ->; [|done]. split; [done|right]. eexists. split_and!; [done| |exact Hadmin].
  split; [tauto|done].
Qed.
Lemma rest_route_may_do w x w' : rest_route settings zenoh request w = (x, w') -> may_do w w'.
Proof.
  unfold rest_route. destruct (rq_selector request) as [path|]; [|intros [= _ <-]; apply may_do_nothing].
  destruct (rq_permit request); simpl; [|intros [= _ <-]; apply may_do_nothing].
  destruct (rq_method request) eqn:Em; eauto using query_may_do, write_may_do, remove_may_do.
Qed.

(** The operator behind a request. *)
Definition rest_operator (p : SessionIdentity) : Prop :=
  (exists s, rq_session request = Some s /\ ss_identity s = Some p) /\ rq_now request < si_expires_at p.
Lemma rest_principal p : fst (Principal_from_request (rq_faults request) (rq_now request) (rq_session request)) = Ok p -> rest_operator p.
Proof.
  unfold Principal_from_request. destruct (rq_session request) as [s|] eqn:Es; [|done].
  destruct (Principal_from_session _ _ _) as [r s'] eqn:E. simpl. intros ->.
  apply principal_cases in E as [_ Hp]. destruct (Hp p eq_refl) as (_ & Hi & Hn). split; [|done]. eauto.
Qed.
Lemma record_rest_actions draft w : rw_actions (record_rest_event service onboarding request draft w) = rw_actions w.
Proof. unfold record_rest_event. by destruct onboarding. Qed.

(** C23: nobody reaches Zenoh through the Controller without the right to.  One request performs at most one operation on
    the Zenoh session, and only for an unexpired session whose identity has the permission of the method: reading for
    [GET] and [HEAD], writing for every other one.  Only [PUT], [PATCH] and [DELETE] change anything, and an operation on
    a key of the admin space is performed only if the configuration opens that space to it, for reads or for writes. *)
Theorem zenoh_access_is_authorized w x w' : zenoh_api settings service onboarding zenoh request w = (x, w') ->
  rw_actions w' = rw_actions w \/ exists a p, rw_actions w' = (rw_actions w ++ [a])%list /\ rest_operator p /\
    session_grants p (match rq_method request with GET | HEAD => PermZenohRead | _ => PermZenohWrite end) = true /\
    (action_role a = RoleWrite <-> rq_method request = PUT \/ rq_method request = PATCH \/ rq_method request = DELETE) /\
    (is_admin (action_key a) = true ->
       rs_allow_admin_space settings = true /\ rs_admin_enabled settings = true /\ check_admin_perms (action_role a) settings = true).
Proof.
  unfold zenoh_api, authorize. destruct (fst (Principal_from_request _ _ _)) as [p|e] eqn:Ep; [|intros [= _ <-]; by left].
  destruct (required (rq_method request)) as [permission action] eqn:Er.
  destruct (Principal_require p permission) as [u|e] eqn:Eg; [|intros [= _ <-]; left; apply record_rest_actions].
  destruct (rest_route settings zenoh request w) as [response w1] eqn:Hr. apply rest_route_may_do in Hr as [_ Hr].
  intros [= _ <-]. rewrite record_rest_actions. destruct Hr as [Hr|(a & Hr & Hrole & Hadmin)]; [by left|right].
  exists a, p. apply rest_principal in Ep. apply ensure_Ok in Eg. split_and!; try done.
  - by destruct (rq_method request); simpl in Er; injection Er as <- <-.
  - intros Ha%Hadmin. unfold ensure_admin_space_allowed in Ha. apply ensure_bind_Ok in Ha as [H1' Ha].
    apply ensure_bind_Ok in Ha as [H2' Ha]. by apply ensure_Ok in Ha.
Qed.

(** Direct access to Zenoh is accountable.  A request without a valid session leaves the stored data alone; every
    other one, where the Controller runs with onboarding, leaves exactly what recording one event leaves: the identity of the session, a read or a write, and
    whether it was denied, succeeded (its status is 2xx) or failed.  When that event can be stored it is the newest of
    the audit log. *)
Theorem zenoh_access_is_audited w x w' : zenoh_api settings service onboarding zenoh request w = (x, w') ->
  match fst (Principal_from_request (rq_faults request) (rq_now request) (rq_session request)) with
  | Err _ => w' = w
  | Ok p => exists draft, rw_world w' = (if onboarding then
        snd (service_record_audit_event service (rq_occurred_at request) draft (rw_world w)) else rw_world w) /\
      ed_actor_id draft = si_actor_id p /\ ed_organization_id draft = EnrollmentService.sv_organization_id service /\
      ed_action draft = (match rq_method request with GET | HEAD => ActZenohRead | _ => ActZenohWrite end) /\
      ed_outcome draft =
        (if session_grants p (match rq_method request with GET | HEAD => PermZenohRead | _ => PermZenohWrite end)
         then if is_success (rest_status x) then Succeeded else AuditLog.Failed else Denied) /\
      (forall u w1, service_record_audit_event service (rq_occurred_at request) draft (rw_world w) = (Ok u, w1) ->
         audit_events (w_database w1) !! audit_event_id_seq (w_database w1) =
           Some (audit_event_row (rq_occurred_at request) draft (audit_event_id_seq (w_database w1))))
  end.
Proof.
  unfold zenoh_api, authorize. destruct (fst (Principal_from_request _ _ _)) as [p|e] eqn:Ep; [|by intros [= _ <-]].
  destruct (required (rq_method request)) as [permission action] eqn:Er.
  assert (permission = match rq_method request with GET | HEAD => PermZenohRead | _ => PermZenohWrite end /\
          action = match rq_method request with GET | HEAD => ActZenohRead | _ => ActZenohWrite end) as [-> ->]
    by (by destruct (rq_method request); simpl in Er; injection Er as <- <-).
  assert (forall draft u w1, service_record_audit_event service (rq_occurred_at request) draft (rw_world w) = (Ok u, w1) ->
    audit_events (w_database w1) !! audit_event_id_seq (w_database w1) =
      Some (audit_event_row (rq_occurred_at request) draft (audit_event_id_seq (w_database w1)))) as Hnew
    by (intros draft u w1; apply HttpApi.recorded_Ok).
  set (draft := rest_draft service p _ _). unfold Principal_require. set (permission := match rq_method request with GET | HEAD => PermZenohRead | _ => PermZenohWrite end).
  destruct (session_grants p permission); simpl.
  - destruct (rest_route settings zenoh request w) as [response w1] eqn:Hr. apply rest_route_may_do in Hr as [Hw _].
    intros [= <- <-]. exists (draft (if is_success (rest_status response) then Succeeded else AuditLog.Failed)).
    split; [|split_and!; try done; apply Hnew]. unfold record_rest_event. rewrite <- Hw. by destruct onboarding.
  - intros [= <- <-]. exists (draft Denied). split; [|split_and!; try done; apply Hnew].
    unfold record_rest_event. by destruct onboarding.
Qed.

(** The selector of an audited request is lost: the middleware looks for the full path, and a nested router does not see
    it. *)
Theorem zenoh_audit_omits_selector `{!NestingSpec} rest : starts_with "/" rest = true -> starts_with "/api/zenoh/v1/" rest = false ->
  audited_selector (nested_path "/zenoh/v1" (nested_path "/api" ("/api" ++ ("/zenoh/v1" ++ rest)))) = "".
Proof.
  intros Hr Hn. rewrite (nested_strips "/api" ("/zenoh/v1" ++ rest)) by done. rewrite nested_strips by done.
  unfold audited_selector, starts_with in *. by destruct (strip_prefix "/api/zenoh/v1/" rest).
Qed.
End Access.

(** ** Query options *)
Definition has (name : string) (names : list string) : bool := existsb (String.eqb name) names.
Definition control_names : list string := ["_raw"; "_liveliness"; "_history"; "_time"].
Lemma parse_names names : forall q, fold_left parse_name names q =
  mkParsedQuery (if has "_raw" names then RawHttp else pq_raw q) (has "_liveliness" names || pq_liveliness q)
    (has "_history" names || pq_history q) (if has "_time" names then ConsolidateNone else pq_consolidation q)
    (has "_time" names || pq_saw_time q)
    (pq_unsupported q ++ List.filter (fun n => negb (has n control_names)) names)%list.
Proof.
  induction names as [|n names IH]; intros q; [destruct q; simpl; by rewrite app_nil_r|].
  cbn [fold_left]. rewrite IH. unfold has, control_names, parse_name.
  cbn [existsb List.filter]. rewrite !(String.eqb_sym n), !orb_false_r.
  destruct (String.eqb_spec "_raw" n) as [<-|_]; [simpl; by destruct (existsb _ names)|].
  destruct (String.eqb_spec "_liveliness" n) as [<-|_]; [simpl; by rewrite orb_true_r|].
  destruct (String.eqb_spec "_history" n) as [<-|_]; [simpl; by rewrite orb_true_r|].
  destruct (String.eqb_spec "_time" n) as [<-|_]; [cbn -[String.eqb existsb]; rewrite ?orb_true_r; by destruct (existsb (String.eqb "_time") names)|].
  simpl. by rewrite <- app_assoc.
Qed.
(** The outcome of reading the query string of a request, on every input.  It asks for liveliness exactly when a
    parameter is named [_liveliness]; then every other parameter must be [_history] or [_raw], or the request is refused
    as bad.  Otherwise the query string is handed to Zenoh as it is.  [_raw], [_history] and [_time] count wherever and
    however often they appear, whatever their values. *)
Theorem query_options_outcome query : let names := query_parameter_names (default "" query) in
  let raw := if has "_raw" names then RawHttp else JsonEnvelope in
  if has "_liveliness" names then
    if forallb (fun n => has n ["_liveliness"; "_history"; "_raw"]) names
    then QueryOptions_parse query = Ok (LivelinessQuery raw (if has "_history" names then WithHistory else LiveCurrent))
    else exists message, QueryOptions_parse query = Err (bad_request message)
  else QueryOptions_parse query = Ok (StandardQuery (if is_empty (default "" query) then None else query) raw
         (if has "_time" names then ConsolidateNone else ConsolidateLatest)).
Proof.
  cbv zeta. unfold QueryOptions_parse.
  replace (default "" match query with Some q => if is_empty q then None else Some q | None => None end) with (default "" query)
    by (by destruct query as [[|]|]).
  rewrite parse_names. cbn [pq_raw pq_liveliness pq_history pq_consolidation pq_saw_time pq_unsupported]. rewrite !orb_false_r, app_nil_l.
  set (names := query_parameter_names (default "" query)).
  destruct (has "_liveliness" names); [|by destruct query as [[|]|]].
  assert (forallb (fun n => has n ["_liveliness"; "_history"; "_raw"]) names =
    negb (has "_time" names) && bool_decide (List.filter (fun n => negb (has n control_names)) names = [])) as ->.
  { clear. induction names as [|n names IH]; [done|]. cbn [forallb List.filter]. rewrite IH. unfold has, control_names.
    cbn [existsb]. rewrite !(String.eqb_sym n), !orb_false_r.
    destruct (String.eqb_spec "_raw" n) as [<-|_]; [done|]. destruct (String.eqb_spec "_liveliness" n) as [<-|_]; [done|].
    destruct (String.eqb_spec "_history" n) as [<-|_]; [done|]. destruct (String.eqb_spec "_time" n) as [<-|_]; [done|].
    cbn. by rewrite andb_false_r. }
  destruct (has "_time" names); simpl.
  - destruct (List.filter _ names) as [|a l]; simpl; eauto.
  - destruct (List.filter _ names) as [|a l]; simpl; eauto.
Qed.

(** ** Runs *)
Module RestToy.
#[local] Instance toy_keys : KeyExpressions := {| key_from_str := Ok; key_join := fun a b => Ok (a ++ "/" ++ b) |}.
#[local] Instance toy_keys_spec : KeyExpressionsSpec.
Proof. by intros s k [= ->]. Qed.
#[local] Instance toy_headers : HeaderText := {| header_to_str := Some; header_from_str := Some |}.
(** Only two types are known. *)
Definition plain : MimeType := mkMimeType "text" "plain" None [].
Definition plain_utf8 : MimeType := mkMimeType "text" "plain" None [("charset", "utf-8")].
#[local] Instance toy_mime : Mime := {|
  mime_parse v := if String.eqb v "text/plain" then Some plain
                  else if String.eqb v "text/plain; charset=utf-8" then Some plain_utf8 else None;
  mime_text m := join_content_type_parameters (media_type_text m) (parameter_text <$> mt_params m) |}.
(** A codec for lists of texts. *)
Fixpoint bits (p : positive) : string :=
  match p with xH => "" | xO p => String "0" (bits p) | xI p => String "1" (bits p) end.
Fixpoint unbits (s : string) : positive :=
  match s with EmptyString => xH | String c s => if Ascii.eqb c "0" then xO (unbits s) else xI (unbits s) end.
Lemma unbits_bits p : unbits (bits p) = p.
Proof. by induction p; simpl; f_equal. Qed.
#[local] Instance toy_attachment : AttachmentJson :=
  {| attachment_to_vec l := Some (bits (encode l)); attachment_from_slice s := decode (unbits s) |}.
#[local] Instance toy_encoding : ZenohEncoding := {|
  Encoding_t := string;
  encoding_registered s := existsb (String.eqb s) ["zenoh/bytes"; "text/plain"];
  encoding_from s := if is_empty s || existsb (String.eqb (encoding_id s)) ["zenoh/bytes"; "text/plain"] then s else "zenoh/bytes;" ++ s;
  encoding_to_string s := s |}.
#[local] Instance toy_spec : MetadataSpec.
Proof.
  assert (forall v m, mime_parse v = Some m -> m = plain \/ m = plain_utf8) as Hm.
  { intros v m. simpl. repeat case_match; naive_solver. }
  split.
  - by intros v m [->| ->]%Hm.
  - intros v m [->| ->]%Hm _ _; by split.
  - intros l. eexists. split; [done|]. simpl. by rewrite unbits_bits, countable.decode_encode.
  - intros name Hid. cbn [encoding_registered toy_encoding existsb] in Hid.
    rewrite !orb_true_iff, !String.eqb_eq in Hid. by destruct Hid as [E|[E|E]]; [rewrite E|rewrite E|].
  - intros id schema Hid Hs _. cbn [encoding_from encoding_to_string toy_encoding]. unfold encoding_id.
    rewrite (split_once_app ";" id schema Hs). cbn [encoding_registered toy_encoding] in Hid. by rewrite Hid, orb_true_r.
  - intros s Hs Hid. cbn [encoding_from encoding_to_string encoding_registered toy_encoding] in *. rewrite Hid. by destruct s.
Qed.

#[local] Existing Instance StartupToy.toy_urls.
#[local] Instance toy_nesting : Nesting := fun prefix path => default path (strip_prefix prefix path).
#[local] Instance toy_nesting_spec : NestingSpec.
Proof. intros prefix rest _. unfold nested_path, toy_nesting. by rewrite strip_prefix_app. Qed.
Definition toy_service : ManagedGatewayService :=
  EnrollmentService.mkService (StartupToy.toy_gateway true) "org_acme" "site_main" true None None None.
Definition toy_onboarding : option OnboardingService :=
  Some (mkOnboardingService true None None "controller" "org_acme" "site_main" (minutes 10) ["v1"] CertNone false).
Definition toy_world : RestWorld :=
  mkRestWorld (mkWorld (snd (ensure_organization "org_acme" "Acme" "site_main" "Main" 0 empty_database)) []) [].
Definition admin : SessionIdentity := mkSessionIdentity "oidc:root" None None [Administrator] (seconds 300).
Definition toy_rest : RestSettings := mkRestSettings true true (seconds 5) 8 true true false.
Definition toy_request (m : Method) (selector : string) : RestRequest unit :=
  mkRestRequest m ("/api" ++ ("/zenoh/v1" ++ ("/" ++ selector))) (Some (Ok selector)) None [] (Some "text/plain") None (Ok "on")
    (Some (mkSession (Some admin) None)) IdentityToy.no_faults 0 (seconds 1) true (fun _ => Ok []).
Definition toy_runtime : Runtime := ReadinessToy.r1.
Definition put_lamp := zenoh_api toy_rest toy_service toy_onboarding toy_runtime (toy_request PUT "home/lamp") toy_world.
Lemma zenoh_access_is_authorized_witness : exists a, rw_actions (snd put_lamp) = [a] /\ action_role a = RoleWrite /\
  session_grants admin PermZenohWrite = true /\
  fst (zenoh_api toy_rest toy_service toy_onboarding toy_runtime (toy_request PUT "@/local/config") toy_world) =
    Err (RestApp (forbidden "Zenoh admin space writes are disabled in the embedded router.")).
Proof.
  destruct put_lamp as [x w'] eqn:E.
  destruct (zenoh_access_is_authorized toy_rest toy_service toy_onboarding toy_runtime (toy_request PUT "home/lamp") toy_world x w' E)
    as [Hn|(a & p & Ha & _ & Hg & Hrole & _)].
  - exfalso. vm_compute in E. injection E as _ <-. discriminate Hn.
  - exists a. split; [exact Ha|]. split; [by apply Hrole; left|]. split; [reflexivity|vm_compute; reflexivity].
Defined.
Lemma zenoh_access_is_audited_witness : exists draft, ed_actor_id draft = "oidc:root" /\ ed_action draft = ActZenohWrite /\
  ed_outcome draft = Succeeded /\
  rw_world (snd put_lamp) = snd (service_record_audit_event toy_service (seconds 1) draft (rw_world toy_world)).
Proof.
  destruct put_lamp as [x w'] eqn:E.
  pose proof (zenoh_access_is_audited toy_rest toy_service toy_onboarding toy_runtime (toy_request PUT "home/lamp") toy_world x w' E) as Hd.
  cbv beta iota delta [toy_request rq_faults rq_now rq_session Principal_from_request Principal_from_session] in Hd. simpl in Hd.
  destruct Hd as (draft & Hw & Hactor & _ & Hact & Hout & _). exists draft. split; [exact Hactor|]. split; [exact Hact|].
  split; [rewrite Hout; vm_compute in E; by injection E as <- _|exact Hw].
Defined.
(** The repeated prefix goes as a whole. *)
Example repeated_local_prefix :
  extract_selector toy_rest (Some (mkCurrentSession "a1" 1)) RoleRead (Ok "@/local/@/local/router") = Ok "@/a1/router".
Proof. reflexivity. Qed.
End RestToy.
