(* ===== verification/AgentModel.v ===== *)
(** * What Device Center accepts from the local Agent

    The data of [crates/inari-agent-client]: [model.rs], [error.rs], [events.rs], [print_jobs.rs], [client_pairing.rs],
    the endpoint checks of [pairing.rs] and [local_transport.rs], and the stored identity of [identity.rs].  Everything
    here is a pure conversion of an answer of the Agent, or of what the operator typed, into the types that Device Center
    works with.  The [url] crate, key material and the JSON decoder are arguments. *)
From S2P Require Import AdmissionController GatewayConfig.
From S2P Require Import Prelude.

(** ** Errors *)
(** The kinds of [std::io::Error] that the code looks at. *)
Inductive IoKind : Set := IoNotFound | IoConnectionRefused | IoTimedOut | IoWouldBlock | IoBrokenPipe | IoOther.
(** One link of a chain of [Error::source]: its text and, for an [io::Error], its kind. *)
Record ErrorSource := mkSource { es_text : string; es_io : option IoKind }.
Inductive AgentClientError : Type :=
| Unavailable (source : list ErrorSource)
| Rejected
| PairingUnavailable (source : list ErrorSource)
| EventStreamUnavailable (source : list ErrorSource)
| InvalidResponse (source : list ErrorSource)
| IdentityUnavailable (source : list ErrorSource)
| IdentityLocked (reason : string)
| MalformedIdentity
| IdentityRequired
| InvalidInvitation
| EventStreamClosed.
Definition AgentClientResult : Type -> Type := result AgentClientError.
(** [std::io::Error::other] as a source. *)
Definition io_other (text : string) : list ErrorSource := [mkSource text (Some IoOther)].
Definition plain_error (text : string) : list ErrorSource := [mkSource text None].
Definition AgentClientError_to_string (e : AgentClientError) : string :=
  match e with
  | Unavailable _ => "the local agent is unavailable"
  | Rejected => "the local agent rejected the request"
  | PairingUnavailable _ => "Device Center could not establish protected local trust"
  | EventStreamUnavailable _ => "the local event stream is unavailable"
  | InvalidResponse _ => "the local agent returned data that this Device Center cannot understand"
  | IdentityUnavailable _ => "the local client identity is unavailable"
  | IdentityLocked reason => "this computer's stored identity is locked: " ++ reason
  | MalformedIdentity => "the stored local client identity is malformed"
  | IdentityRequired => "Device Center must establish a protected local identity before it can continue"
  | InvalidInvitation => "the invitation is not a valid Inari invitation"
  | EventStreamClosed => "the local event stream stopped unexpectedly"
  end.
(** [Error::source], all the way down. *)
Definition error_sources (e : AgentClientError) : list ErrorSource :=
  match e with
  | Unavailable s | PairingUnavailable s | EventStreamUnavailable s | InvalidResponse s | IdentityUnavailable s => s
  | _ => []
  end.

(** ** Identifiers and links *)
Definition id_byte (c : ascii) : bool := is_ascii_alphanumeric c || byte_is c 45 || byte_is c 95.
Definition identifier_parse (kind value : string) : result string string :=
  if negb (is_empty value) && (str_len value <=? 128) && all_bytes id_byte value then Ok value
  else Err ("invalid " ++ kind ++ " identifier").
Definition DeviceId_parse : string -> result string string := identifier_parse "device".
Definition JobId_parse : string -> result string string := identifier_parse "job".
Definition PairingRequestId_parse : string -> result string string := identifier_parse "Pairing Request".
(** [.map_err(AgentClientError::invalid_response)]. *)
Definition or_invalid {A} (r : result string A) : AgentClientResult A :=
  match r with Ok a => Ok a | Err text => Err (InvalidResponse (plain_error text)) end.

(** [url::ParseError], displayed; the host of a URL; ports. *)
Inductive Host : Type := HostDomain (name : string) | HostIpv4 (address : Z) | HostIpv6 (address : Z).
Class UrlHosts := {
  url_parse_error : string -> string;
  url_host_kind : string -> option Host;
  url_port : string -> option Z;
  url_port_or_known_default : string -> option Z;
}.
Definition ipv4_is_loopback (address : Z) : bool := Z.shiftr address 24 =? 127.
Definition ipv6_is_loopback (address : Z) : bool := address =? 1.

Section Links.
Context `{UrlParts, UrlParse, UrlHosts}.

(** A parsed URL is its serialization. *)
Definition Url_parse (text : string) : result string string :=
  match url_parse text with Some url => Ok url | None => Err (url_parse_error text) end.
Definition InvitationLinkError : string := "invalid Inari invitation link".
Definition InvitationLink_parse (value : string) : result string string :=
  match url_parse value with
  | None => Err InvitationLinkError
  | Some url =>
      if String.eqb (url_scheme url) "inari"
         && match url_fragment url with Some fragment => negb (is_empty fragment) | None => false end
      then Ok url else Err InvitationLinkError
  end.
Definition InvitationLink_debug (_ : string) : string := "InvitationLink([REDACTED])".

Definition PairingLinkError : string := "Enter a Pairing Request ID or an inari://pairing/ link.".
(** [value.contains("://")]. *)
Fixpoint contains_scheme_separator (s : string) : bool :=
  starts_with "://" s || match s with EmptyString => false | String _ rest => contains_scheme_separator rest end.
Definition option_eqb (o : option string) (s : string) : bool := match o with Some t => String.eqb t s | None => false end.
Definition parse_input (input : string) : result string string :=
  let value := trim input in
  let refuse {A} (r : result string A) : result string A := match r with Ok a => Ok a | Err _ => Err PairingLinkError end in
  if negb (contains_scheme_separator value) then refuse (PairingRequestId_parse value)
  else
    url ← refuse (Url_parse value);
    _ ← ensure (negb (negb (String.eqb (url_scheme url) "inari") || negb (option_eqb (url_host url) "pairing")
                      || negb (is_empty (url_username url)) || is_some (url_password url) || is_some (url_port url)
                      || is_some (url_query url) || is_some (url_fragment url))) PairingLinkError;
    path ← ok_or (strip_prefix "/" (url_path url)) PairingLinkError;
    id ← refuse (PairingRequestId_parse path);
    _ ← ensure (String.eqb value ("inari://pairing/" ++ id)) PairingLinkError;
    Ok id.

Inductive InariLink : Type := LinkEnrollment (invitation : string) | LinkClientPairing (id : string).
Definition InariLinkError : string := "This is not a valid Inari enrollment or Client Pairing link.".
Definition InariLink_parse (input : string) : result string InariLink :=
  let value := trim input in
  match url_parse value with
  | None => Err InariLinkError
  | Some url =>
      if option_eqb (url_host url) "pairing"
      then match parse_input value with Ok id => Ok (LinkClientPairing id) | Err _ => Err InariLinkError end
      else match InvitationLink_parse value with Ok i => Ok (LinkEnrollment i) | Err _ => Err InariLinkError end
  end.

(** ** Where the Agent may be *)
Definition endpoint_error : string :=
  "The native Agent Endpoint must use HTTPS or local loopback HTTP without credentials, a path, query, or fragment.".
(** [pairing::decode_agent_endpoint], after the JSON is read. *)
Definition decode_agent_endpoint (agent_endpoint : string) : AgentClientResult string :=
  let loopback := match url_host_kind agent_endpoint with
                  | Some (HostDomain name) => String.eqb name "localhost"
                  | Some (HostIpv4 address) => ipv4_is_loopback address
                  | Some (HostIpv6 address) => ipv6_is_loopback address
                  | None => false
                  end in
  if is_none (url_host agent_endpoint)
     || negb (String.eqb (url_scheme agent_endpoint) "https" || (String.eqb (url_scheme agent_endpoint) "http" && loopback))
     || negb (is_empty (url_username agent_endpoint)) || is_some (url_password agent_endpoint)
     || negb (String.eqb (url_path agent_endpoint) "/") || is_some (url_query agent_endpoint)
     || is_some (url_fragment agent_endpoint)
  then Err (InvalidResponse (io_other endpoint_error)) else Ok agent_endpoint.
(** [local_transport::socket_address]. *)
Definition socket_address (endpoint : string) : AgentClientResult (Host * Z) :=
  host ← match url_host_kind endpoint with
         | Some (HostDomain _) => Ok (HostIpv4 2130706433)
         | Some (HostIpv4 ip) => if ipv4_is_loopback ip then Ok (HostIpv4 ip)
             else Err (InvalidResponse (io_other "The local Agent Endpoint needs a certificate hostname or a loopback address."))
         | Some (HostIpv6 ip) => if ipv6_is_loopback ip then Ok (HostIpv6 ip)
             else Err (InvalidResponse (io_other "The local Agent Endpoint needs a certificate hostname or a loopback address."))
         | None => Err (InvalidResponse (io_other "The local Agent Endpoint needs a certificate hostname or a loopback address."))
         end;
  port ← ok_or (url_port_or_known_default endpoint)
           (InvalidResponse (io_other "The local Agent Endpoint has no listener port."));
  Ok (host, port).
End Links.

(** ** Enrollment of this computer *)
Inductive SetupAccess : Set := AccessUnknown | AccessRequired | AccessComplete.
Inductive SetupStage : Set := StageInvitation | StageSecuring | StageConnecting | StageDevices | StageFailed | StageComplete.
#[global] Instance SetupAccess_eq_dec : EqDecision SetupAccess. Proof. solve_decision. Defined.
#[global] Instance SetupStage_eq_dec : EqDecision SetupStage. Proof. solve_decision. Defined.
Inductive DeviceState : Set := DeviceOnline | DeviceOffline | DeviceDegraded | DeviceBlocked | DeviceUnknown.
Inductive DeviceKind : Set := KindPrinter | KindScale | KindScanner | KindOther.
Record Device := mkDevice { dv_id : string; dv_name : string; dv_kind : DeviceKind; dv_state : DeviceState }.
Record SetupSnapshot := mkSetupSnapshot {
  ss_access : SetupAccess;
  ss_stage : SetupStage;
  ss_restart_required : bool;
  ss_completed_at : option instant;
  ss_guidance : option string;
  ss_devices : list Device;
}.
Definition SetupSnapshot_invitation : SetupSnapshot := mkSetupSnapshot AccessRequired StageInvitation false None None [].
Definition SetupSnapshot_unavailable_with (guidance : string) : SetupSnapshot :=
  mkSetupSnapshot AccessUnknown StageInvitation false None (Some guidance) [].
Definition SetupSnapshot_unavailable : SetupSnapshot :=
  SetupSnapshot_unavailable_with "Device Center could not reach the agent. Start the service, then try again.".
Record EnrollmentPreview := mkPreview {
  ep_controller_name : option string;
  ep_controller_url : string;
  ep_expires_at : instant;
  ep_requires_mutual_tls : bool;
  ep_supported_protocol_versions : list string;
}.

(** The answers of the Agent's API. *)
Inductive Phase : Set :=
| PhaseNotStarted | PhaseRestartRequired | PhaseSecuringConnection | PhaseConnecting | PhaseFindingDevices | PhaseReady | PhaseFailed.
Inductive WireDeviceKind : Set := WirePrinter | WireScale | WireScanner | WireDisplay.
Inductive WireDeviceConnectionState : Set := WireOnline | WireOffline.
Record DeviceResponse := mkDeviceResponse {
  dr_id : string; dr_name : string; dr_kind : WireDeviceKind; dr_connection : WireDeviceConnectionState }.
Record StatusResponse := mkStatusResponse {
  sr_phase : Phase;
  sr_detail : string;
  sr_restart_required : option bool;
  sr_completed_at : option instant;
  sr_last_error : option string;
  sr_devices : list DeviceResponse;
}.
Record PreviewResponse := mkPreviewResponse {
  pv_controller_name : option string;
  pv_controller_url : string;
  pv_expires_at : instant;
  pv_requires_mutual_tls_after_issuance : bool;
  pv_supported_protocol_versions : list string;
}.
Definition map_device (d : DeviceResponse) : AgentClientResult Device :=
  let kind := match dr_kind d with
              | WirePrinter => KindPrinter | WireScale => KindScale | WireScanner => KindScanner | WireDisplay => KindOther
              end in
  let state := match dr_connection d with WireOnline => DeviceOnline | WireOffline => DeviceOffline end in
  id ← or_invalid (DeviceId_parse (dr_id d));
  Ok (mkDevice id (dr_name d) kind state).
Definition map_devices (devices : list DeviceResponse) : AgentClientResult (list Device) := collect map_device devices.
Definition setup_snapshot (r : StatusResponse) : AgentClientResult SetupSnapshot :=
  let restart_required := match sr_restart_required r with Some b => b | None => false end in
  let access := if is_some (sr_completed_at r) && negb restart_required then AccessComplete else AccessRequired in
  let stage := match sr_phase r with
               | PhaseNotStarted => StageInvitation
               | PhaseRestartRequired | PhaseSecuringConnection => StageSecuring
               | PhaseConnecting => StageConnecting
               | PhaseFindingDevices => StageDevices
               | PhaseReady => if bool_decide (access = AccessComplete) then StageComplete else StageDevices
               | PhaseFailed => StageFailed
               end in
  let guidance := match sr_last_error r with
                  | Some e => Some e
                  | None => if negb (is_empty (trim (sr_detail r))) then Some (sr_detail r) else None
                  end in
  devices ← collect map_device (sr_devices r);
  Ok (mkSetupSnapshot access stage restart_required (sr_completed_at r) guidance devices).
Definition enrollment_preview `{UrlParse, UrlHosts} (r : PreviewResponse) : AgentClientResult EnrollmentPreview :=
  controller_url ← or_invalid (Url_parse (pv_controller_url r));
  Ok (mkPreview (pv_controller_name r) controller_url (pv_expires_at r) (pv_requires_mutual_tls_after_issuance r)
        (pv_supported_protocol_versions r)).

(** ** Jobs *)
Inductive JobState : Set := JobQueued | JobRunning | JobSucceeded | JobFailed | JobCancelled | JobUnknown.
Record Job := mkJob { jb_id : string; jb_device_id : string; jb_state : JobState; jb_created_at : instant }.
Inductive WireJobState : Set :=
| WireQueued | WireDispatched | WireRunning | WireRetryScheduled | WireSucceeded | WireFailed | WireCancelled.
Record JobResponse := mkJobResponse { jr_id : string; jr_target_device_id : string; jr_state : WireJobState; jr_created_at : instant }.
Definition map_job (job : JobResponse) : AgentClientResult Job :=
  let state := match jr_state job with
               | WireQueued => JobQueued
               | WireDispatched | WireRunning => JobRunning
               | WireRetryScheduled => JobQueued
               | WireSucceeded => JobSucceeded
               | WireFailed => JobFailed
               | WireCancelled => JobCancelled
               end in
  id ← or_invalid (JobId_parse (jr_id job));
  device_id ← or_invalid (DeviceId_parse (jr_target_device_id job));
  Ok (mkJob id device_id state (jr_created_at job)).
Definition map_jobs (jobs : list JobResponse) : AgentClientResult (list Job) := collect map_job jobs.

(** ** Print jobs *)
Inductive PrintOriginKind : Set := OriginPos | OriginPreparation | OriginReport.
#[global] Instance PrintOriginKind_eq_dec : EqDecision PrintOriginKind. Proof. solve_decision. Defined.
Inductive OutputEvidence : Set := EvidenceDevice | EvidenceSpooler | EvidenceTransport.
Inductive PrintJobState : Set :=
| PrintAccepted | PrintInProgress | PrintOutputConfirmed (evidence : OutputEvidence) | PrintFailed | PrintOutcomeUnknown
| PrintExpired | PrintCanceled.
Record PrintJob := mkPrintJob {
  pj_id : string;
  pj_intent_id : string;
  pj_device_id : string;
  pj_origin_kind : PrintOriginKind;
  pj_database : string;
  pj_document_kind : option string;
  pj_pos_configuration_id : option string;
  pj_state : PrintJobState;
  pj_state_version : Z;
  pj_occurred_at : instant;
}.
Inductive WirePrintJobState : Set :=
| WpAccepted | WpInProgress | WpOutputConfirmed | WpFailed | WpOutcomeUnknown | WpExpired | WpCanceled.
Record WirePrintJob := mkWirePrintJob {
  wp_print_job_id : string;
  wp_print_intent_id : string;
  wp_device_id : string;
  wp_origin_kind : PrintOriginKind;
  wp_database : string;
  wp_document_kind : option string;
  wp_pos_configuration_id : option string;
  wp_state : WirePrintJobState;
  wp_state_version : Z;
  wp_accepted_at : instant;
  wp_started_at : option instant;
  wp_terminal_at : option instant;
  wp_confirmation_evidence : option OutputEvidence;
}.
Definition print_byte (c : ascii) : bool :=
  is_ascii_alphanumeric c || byte_is c 46 || byte_is c 95 || byte_is c 58 || byte_is c 47 || byte_is c 45.
Definition valid_identifier (value : string) : bool :=
  negb (is_empty value) && (str_len value <=? 256)
  && match first_byte value with Some c => is_ascii_alphanumeric c | None => false end && all_bytes print_byte value.
Definition is_some_and {A} (o : option A) (p : A -> bool) : bool := match o with Some a => p a | None => false end.
Definition unwrap_or {A} (o : option A) (d : A) : A := match o with Some a => a | None => d end.
Definition malformed_print_job : AgentClientError :=
  InvalidResponse (io_other "The native monitor returned an invalid Print Job snapshot.").
Definition print_job_state (job : WirePrintJob) : option PrintJobState :=
  match wp_state job, wp_started_at job, wp_terminal_at job, wp_confirmation_evidence job with
  | WpAccepted, None, None, None => Some PrintAccepted
  | WpInProgress, Some _, None, None => Some PrintInProgress
  | WpOutputConfirmed, Some _, Some _, Some evidence => Some (PrintOutputConfirmed evidence)
  | WpFailed, _, Some _, None => Some PrintFailed
  | WpOutcomeUnknown, Some _, Some _, None => Some PrintOutcomeUnknown
  | WpExpired, None, Some _, None => Some PrintExpired
  | WpCanceled, None, Some _, None => Some PrintCanceled
  | _, _, _, _ => None
  end.
Definition print_job (job : WirePrintJob) : AgentClientResult PrintJob :=
  let report := bool_decide (wp_origin_kind job = OriginReport) in
  if (wp_state_version job =? 0)
     || negb (valid_identifier (wp_print_intent_id job))
     || negb (valid_identifier (wp_database job))
     || is_some_and (wp_document_kind job) (fun kind => is_empty kind || (64 <? chars_count kind))
     || is_some_and (wp_pos_configuration_id job) (fun id => negb (valid_identifier id))
     || is_some_and (wp_started_at job) (fun at_ => at_ <? wp_accepted_at job)
     || is_some_and (wp_terminal_at job) (fun at_ => at_ <? unwrap_or (wp_started_at job) (wp_accepted_at job))
     || xorb report (is_none (wp_pos_configuration_id job))
     || xorb report (is_none (wp_document_kind job))
  then Err malformed_print_job
  else
    state ← ok_or (print_job_state job) malformed_print_job;
    id ← or_invalid (JobId_parse (wp_print_job_id job));
    device_id ← or_invalid (DeviceId_parse (wp_device_id job));
    Ok (mkPrintJob id (wp_print_intent_id job) device_id (wp_origin_kind job) (wp_database job) (wp_document_kind job)
          (wp_pos_configuration_id job) state (wp_state_version job)
          (unwrap_or (match wp_terminal_at job with Some t => Some t | None => wp_started_at job end) (wp_accepted_at job))).

(** ** Live events *)
Inductive EventResource : Type := ResourceDevice (id : string) | ResourceJob (id : string).
Inductive AgentEventKind : Set :=
| EventDeviceConnected | EventDeviceDisconnected | EventDeviceUpdated | EventJobQueued | EventJobDispatched | EventJobRunning
| EventJobSucceeded | EventJobFailed | EventJobCancelled | EventJobRecovered | EventJobRetryScheduled.
Record AgentEvent := mkAgentEvent {
  ev_sequence : Z; ev_occurred_at : instant; ev_resource : EventResource; ev_kind : AgentEventKind; ev_summary : string }.
Record AgentMonitorUpdate := mkMonitorUpdate { mu_print_jobs : list PrintJob; mu_event : option AgentEvent }.
Inductive WireResourceKind : Set := WireDevice | WireJob.
(** The wire kind of an event has the same cases, under their wire names. *)
Definition WireEventKind : Set := AgentEventKind.
Record WireEvent := mkWireEvent {
  we_sequence : Z; we_resource_kind : WireResourceKind; we_resource_id : string; we_event_type : WireEventKind; we_occurred_at : instant }.
Inductive LiveMessage : Type :=
| LiveSnapshot (print_jobs : list WirePrintJob)
| LiveEventUpdate (event : WireEvent) (print_jobs : list WirePrintJob).
Definition event_summary (kind : WireEventKind) : string :=
  match kind with
  | EventDeviceConnected => "Device connected"
  | EventDeviceDisconnected => "Device disconnected"
  | EventDeviceUpdated => "Device updated"
  | EventJobQueued => "Job queued"
  | EventJobDispatched => "Job dispatched"
  | EventJobRunning => "Job running"
  | EventJobSucceeded => "Job completed"
  | EventJobFailed => "Job failed"
  | EventJobCancelled => "Job cancelled"
  | EventJobRecovered => "Job recovered after restart"
  | EventJobRetryScheduled => "Job retry scheduled"
  end.
Definition agent_event (e : WireEvent) : AgentClientResult AgentEvent :=
  resource ← match we_resource_kind e with
             | WireDevice => id ← or_invalid (DeviceId_parse (we_resource_id e)); Ok (ResourceDevice id)
             | WireJob => id ← or_invalid (JobId_parse (we_resource_id e)); Ok (ResourceJob id)
             end;
  Ok (mkAgentEvent (we_sequence e) (we_occurred_at e) resource (we_event_type e) (event_summary (we_event_type e))).
Definition history_error : AgentClientError :=
  InvalidResponse (io_other "The native monitor exceeded the Print Job history limit.").
(** [AgentEventStream::next] on the next item of the stream: none, a stream error, or the text of a message as decoded. *)
Definition AgentEventStream_next (item : option (AgentClientResult (result string LiveMessage))) : AgentClientResult (option AgentMonitorUpdate) :=
  match item with
  | None => Ok None
  | Some message =>
      payload ← message;
      message ← or_invalid payload;
      '(jobs, event) ← match message with
                       | LiveSnapshot print_jobs => Ok (print_jobs, None)
                       | LiveEventUpdate event print_jobs => e ← agent_event event; Ok (print_jobs, Some e)
                       end;
      _ ← ensure (negb (100 <? Z.of_nat (length jobs))) history_error;
      print_jobs ← collect print_job jobs;
      Ok (Some (mkMonitorUpdate print_jobs event))
  end.

(** ** Requests to pair a browser *)
Inductive PairingDecision : Set := DecisionApprove | DecisionDeny.
Inductive PairingRequestState : Set :=
| PairingPending | PairingApproved | PairingDenied | PairingCanceled | PairingExpired | PairingCompleted.
#[global] Instance PairingRequestState_eq_dec : EqDecision PairingRequestState. Proof. solve_decision. Defined.
Record PairingScope := mkPairingScope {
  sc_agent_id : string; sc_agent_endpoint : string; sc_browser_origin : string; sc_database : string; sc_company_id : string;
  sc_organization_id : string; sc_site_id : string; sc_pos_configuration_id : option string }.
Record PairingRequest := mkPairingRequest {
  pq_id : string; pq_scope : PairingScope; pq_phrase : string; pq_requested_permissions : list string;
  pq_expires_at : instant; pq_state : PairingRequestState }.
Definition can_decide_at (r : PairingRequest) (at_ : instant) : bool :=
  bool_decide (pq_state r = PairingPending) && (at_ <? pq_expires_at r).
Record PairingRequestResponse := mkPairingResponse {
  pr_request_id : string; pr_scope : PairingScope; pr_phrase : string; pr_requested_permissions : list string;
  pr_expires_at : instant; pr_state : string }.
Definition pairing_state (state : string) : AgentClientResult PairingRequestState :=
  if String.eqb state "pending" then Ok PairingPending
  else if String.eqb state "approved" then Ok PairingApproved
  else if String.eqb state "denied" then Ok PairingDenied
  else if String.eqb state "canceled" then Ok PairingCanceled
  else if String.eqb state "expired" then Ok PairingExpired
  else if String.eqb state "completed" then Ok PairingCompleted
  else Err (InvalidResponse (io_other "Unknown Pairing Request state.")).
Definition pairing_request `{UrlParse, UrlHosts} (v : PairingRequestResponse) : AgentClientResult PairingRequest :=
  state ← pairing_state (pr_state v);
  id ← or_invalid (PairingRequestId_parse (pr_request_id v));
  let s := pr_scope v in
  agent_endpoint ← or_invalid (Url_parse (sc_agent_endpoint s));
  browser_origin ← or_invalid (Url_parse (sc_browser_origin s));
  Ok (mkPairingRequest id
        (mkPairingScope (sc_agent_id s) agent_endpoint browser_origin (sc_database s) (sc_company_id s) (sc_organization_id s)
           (sc_site_id s) (sc_pos_configuration_id s))
        (pr_phrase v) (pr_requested_permissions v) (pr_expires_at v) state).

(** ** What is accepted *)
Lemma identifier_parse_Ok kind value id : identifier_parse kind value = Ok id ->
  id = value /\ is_empty id = false /\ str_len id <= 128 /\ all_bytes id_byte id = true.
Proof.
  unfold identifier_parse. destruct (_ && _) eqn:E; [|done]. intros [= <-]. rewrite !andb_true_iff, negb_true_iff, Z.leb_le in E. tauto.
Qed.
(** A Pairing Request is named by its identifier, or by the one link that stands for it. *)
Lemma pairing_input_is_canonical `{UrlParts, UrlParse, UrlHosts} input id : parse_input input = Ok id ->
  (trim input = id \/ trim input = "inari://pairing/" ++ id) /\ all_bytes id_byte id = true /\ str_len id <= 128.
Proof.
  unfold parse_input. cbv zeta. destruct (negb (contains_scheme_separator (trim input))).
  - destruct (PairingRequestId_parse (trim input)) as [x|] eqn:E; [|done]. intros [= <-].
    apply identifier_parse_Ok in E as (-> & _ & Hl & Hb). auto.
  - intros E. res_inv E. destruct (PairingRequestId_parse a0) as [x|] eqn:Ex; [|done]. injection Hok2 as ->.
    apply identifier_parse_Ok in Ex as (-> & _ & Hl & Hb). apply String.eqb_eq in Hok3. auto.
Qed.
(** What a print job that is shown as printed rests on. *)
Lemma or_invalid_Ok {A} (r : result string A) a : or_invalid r = Ok a -> r = Ok a.
Proof. destruct r; cbn; congruence. Qed.
Lemma print_jobs_are_consistent w j : print_job w = Ok j ->
  0 <> pj_state_version j /\ wp_accepted_at w <= pj_occurred_at j /\
  (forall evidence, pj_state j = PrintOutputConfirmed evidence <->
     wp_state w = WpOutputConfirmed /\ wp_confirmation_evidence w = Some evidence) /\
  (wp_terminal_at w = None <-> pj_state j = PrintAccepted \/ pj_state j = PrintInProgress) /\
  (pj_pos_configuration_id j = None <-> pj_origin_kind j = OriginReport) /\ (pj_document_kind j = None <-> pj_origin_kind j = OriginReport).
Proof.
  unfold print_job. cbv zeta. destruct (_ || _) eqn:Eg; [done|]. rewrite !orb_false_iff in Eg.
  destruct Eg as ((((((((Hv & Hi) & Hd) & Hk) & Hpos) & Hs) & Ht) & Hr1) & Hr2). apply Z.eqb_neq in Hv. intros E. res_inv E.
  cbn. unfold print_job_state in Hok.
  destruct (wp_started_at w) as [started|], (wp_terminal_at w) as [terminal|]; cbn in *; rewrite ?Z.ltb_ge in Hs, Ht;
    destruct (wp_state w), (wp_confirmation_evidence w) as [ev|]; simplify_eq/=;
    (split_and!; [lia|lia|naive_solver|naive_solver|..];
     [destruct (wp_pos_configuration_id w)|destruct (wp_document_kind w)]; cbn in Hr1, Hr2; destruct (wp_origin_kind w); cbn in *; naive_solver).
Qed.
