(* ===== verification/AgentClient.v ===== *)
(** * Device Center's client of the local Agent

    [crates/inari-agent-client/src/client.rs] and [identity.rs]: the client that keeps the Agent's endpoint, the outcome
    of reading the credential vault and the last access token, and that signs, pairs and asks on Device Center's behalf.
    What happens outside the client (the vault, the clock, each answer of the Agent) is the environment, which answers
    the n-th thing that happened; everything that happened is kept in a log with its answer.  Each definition is one operation
    that runs to its end with no other in between: the client's locks are held only inside [endpoint], [identity] and
    [access_token], so two operations may interleave around them, and an operation may be dropped while it waits; neither
    is modelled, and no theorem here speaks of several operations at once. *)
From S2P Require Import InvitationCode AdmissionController GatewayConfig ManagedGateway.
From S2P Require Import Prelude AgentModel.

(** ** The stored identity *)
Record ClientIdentity := mkClientIdentity {
  ci_client_id : string; ci_client_name : string; ci_private_key_pem : string; ci_public_key_pem : string }.
(** Ed25519 keys and their PEM and DER encodings, SHA-256 with hexadecimal, and the vault's JSON. *)
Class ClientKeys := {
  signing_key_of_pem : string -> option string;
  verifying_key_of_pem : string -> option string;
  signing_key_of_seed : string -> string;
  verifying_key : string -> string;
  signing_key_pem : string -> result string string;
  verifying_key_pem : string -> result string string;
  verifying_key_der : string -> result string string;
  sha256_hex : string -> string;
  sign_base64url : string -> string -> string;
  pem_error : string -> string;
  stored_to_json : ClientIdentity -> result string string;
  stored_of_json : string -> option ClientIdentity;
}.

Section Identity.
Context `{ClientKeys}.

Definition StoredIdentity_validate (stored : ClientIdentity) : AgentClientResult ClientIdentity :=
  _ ← ensure (negb (is_empty (trim (ci_client_id stored)) || is_empty (trim (ci_client_name stored))
                    || is_empty (trim (ci_public_key_pem stored)))) MalformedIdentity;
  signing_key ← ok_or (signing_key_of_pem (ci_private_key_pem stored)) MalformedIdentity;
  public ← ok_or (verifying_key_of_pem (ci_public_key_pem stored)) MalformedIdentity;
  _ ← ensure (String.eqb (verifying_key signing_key) public) MalformedIdentity;
  Ok stored.
(** What the vault answers; [keyring::Error::NoEntry] is apart. *)
Inductive VaultAnswer : Type := VaultPassword (value : string) | VaultNoEntry | VaultError (source : list ErrorSource).
Definition LocalIdentityStore_load (entry : result (list ErrorSource) VaultAnswer) : AgentClientResult (option ClientIdentity) :=
  match entry with
  | Err source => Err (IdentityUnavailable source)
  | Ok (VaultError source) => Err (IdentityUnavailable source)
  | Ok VaultNoEntry => Ok None
  | Ok (VaultPassword credential) =>
      stored ← ok_or (stored_of_json credential) MalformedIdentity;
      valid ← StoredIdentity_validate stored;
      Ok (Some valid)
  end.
(** The text that is put into the vault. *)
Definition LocalIdentityStore_store (client_identity : ClientIdentity) : AgentClientResult string :=
  or_invalid (stored_to_json client_identity).
(** [seed]: what [getrandom] filled in. *)
Definition create_identity (seed : result string string) : AgentClientResult ClientIdentity :=
  seed ← or_invalid seed;
  let signing_key := signing_key_of_seed seed in
  private_key_pem ← or_invalid (signing_key_pem signing_key);
  public_key_pem ← or_invalid (verifying_key_pem (verifying_key signing_key));
  public_key_der ← or_invalid (verifying_key_der (verifying_key signing_key));
  let fingerprint := sha256_hex public_key_der in
  Ok (mkClientIdentity ("device_center_" ++ String.substring 0 24 fingerprint) "Inari Device Center" private_key_pem public_key_pem).
(** The message that is signed names the purpose of the challenge. *)
Definition challenge_message (purpose challenge : string) : string := "inari.local-trust.v1:" ++ purpose ++ ":" ++ challenge.
Definition sign_challenge (client_identity : ClientIdentity) (purpose challenge : string) : AgentClientResult string :=
  match signing_key_of_pem (ci_private_key_pem client_identity) with
  | None => Err (InvalidResponse (plain_error (pem_error (ci_private_key_pem client_identity))))
  | Some signing_key => Ok (sign_base64url signing_key (challenge_message purpose challenge))
  end.
End Identity.

(** What the code relies on of the encodings. *)
Definition solid_byte (c : ascii) : bool := is_ascii c && negb (ws1 c).
Class ClientKeysSpec `{ClientKeys} : Prop := {
  json_roundtrip : forall stored text, stored_to_json stored = Ok text -> stored_of_json text = Some stored;
  signing_pem_roundtrip : forall key pem, signing_key_pem key = Ok pem -> signing_key_of_pem pem = Some key;
  verifying_pem_roundtrip : forall key pem, verifying_key_pem key = Ok pem -> verifying_key_of_pem pem = Some key;
  verifying_pem_text : forall key pem, verifying_key_pem key = Ok pem -> is_empty (trim pem) = false;
  sha256_hex_solid : forall bytes, all_bytes solid_byte (sha256_hex bytes) = true;
}.
Lemma all_bytes_substring p n s : all_bytes p s = true -> all_bytes p (String.substring 0 n s) = true.
Proof.
  revert n. induction s as [|c s IH]; intros [|n] Hs; try done. simpl in *. apply andb_true_iff in Hs as [Hc Hs]. by rewrite Hc, IH.
Qed.
Lemma validate_Ok `{ClientKeys} stored key : is_empty (trim (ci_client_id stored)) = false -> is_empty (trim (ci_client_name stored)) = false ->
  is_empty (trim (ci_public_key_pem stored)) = false -> signing_key_of_pem (ci_private_key_pem stored) = Some key ->
  verifying_key_of_pem (ci_public_key_pem stored) = Some (verifying_key key) -> StoredIdentity_validate stored = Ok stored.
Proof. intros E1 E2 E3 E4 E5. unfold StoredIdentity_validate. rewrite E1, E2, E3, E4, E5. cbn. by rewrite String.eqb_refl. Qed.
(** An identity survives the vault.  The identity that Device Center creates for itself, written into the credential
    vault as it writes it, is accepted when it is read back, and is the same: its identifier, its name and both keys. *)
Theorem created_identity_roundtrip `{ClientKeysSpec} seed who text : create_identity seed = Ok who ->
  LocalIdentityStore_store who = Ok text -> LocalIdentityStore_load (Ok (VaultPassword text)) = Ok (Some who).
Proof.
  intros Hc Hs. apply or_invalid_Ok in Hs. unfold LocalIdentityStore_load. rewrite (json_roundtrip _ _ Hs).
  assert (Hv : StoredIdentity_validate who = Ok who); [|unfold mbind, result_bind; cbn [ok_or]; by rewrite Hv].
  unfold create_identity in Hc. cbv zeta in Hc. res_inv Hc. apply or_invalid_Ok in Hok0, Hok1, Hok2.
  eapply validate_Ok; [|reflexivity|by eapply verifying_pem_text|by apply signing_pem_roundtrip|by apply verifying_pem_roundtrip].
  change (is_empty (trim ("device_center_" ++ String.substring 0 24 (sha256_hex a2))) = false). rewrite trim_id; [done|].
  change (all_bytes solid_byte ("device_center_" ++ String.substring 0 24 (sha256_hex a2)) = true).
  rewrite all_bytes_app. by rewrite (all_bytes_substring _ _ _ (sha256_hex_solid a2)).
Qed.

(** ** What the client sends and hears *)
Inductive TransportError : Type :=
| CommunicationError (source : list ErrorSource)
| ErrorResponse (status : Z)
| UnexpectedResponse (status : Z)
| TransportFailure (source : list ErrorSource) (status : option Z).
(** [Error::status]. *)
Definition transport_status (e : TransportError) : option Z :=
  match e with
  | CommunicationError _ => None
  | ErrorResponse s | UnexpectedResponse s => Some s
  | TransportFailure _ s => s
  end.
Definition refused (status : Z) : bool := (status =? 401) || (status =? 403) || (status =? 409).
Definition map_transport_error (e : TransportError) : AgentClientError :=
  match e with
  | CommunicationError source => Unavailable source
  | ErrorResponse status => if refused status then Rejected else InvalidResponse (plain_error "Error Response")
  | UnexpectedResponse status => if refused status then Rejected else InvalidResponse (plain_error "Unexpected Response")
  | TransportFailure source _ => InvalidResponse source
  end.
Record Challenge := mkChallenge { ch_challenge_id : string; ch_challenge : string }.
Record Attestation := mkAttestation { at_challenge_id : string; at_client_id : string; at_signature : string }.
Record TokenRequest := mkTokenRequest { tq_attestation : Attestation; tq_client_name : string }.
Record AccessToken := mkAccessToken { tk_access_token : string; tk_expires_at : instant }.
Record PairingGrant := mkPairingGrant { pg_secret : string; pg_expires_at : instant }.
Record PairingComplete := mkPairingComplete {
  pc_attestation : Attestation; pc_client_id : string; pc_client_name : string; pc_pairing_secret : string; pc_public_key_pem : string }.
Inductive ApiRequest : Type :=
| RequestStatus
| RequestPreview (invitation : string)
| RequestStart (invitation : string)
| RequestConfirm (device_ids : list string)
| RequestCancel
| RequestDevices
| RequestJobs
| RequestReview (id : string)
| RequestDecide (id decision : string)
| RequestEvents.
Inductive Event : Type :=
| EvForget
| EvClock (now : instant)
| EvVaultRead (answer : AgentClientResult (option ClientIdentity))
| EvCreate (answer : AgentClientResult ClientIdentity)
| EvVaultWrite (client_identity : ClientIdentity) (answer : AgentClientResult unit)
| EvNativeEndpoint (answer : AgentClientResult string)
| EvNativeGrant (answer : AgentClientResult PairingGrant)
| EvChallenge (base client_id purpose : string) (answer : result TransportError Challenge)
| EvToken (base : string) (request : TokenRequest) (answer : result TransportError AccessToken)
| EvStartPairing (base : string) (answer : result TransportError PairingGrant)
| EvCompletePairing (base : string) (request : PairingComplete) (answer : result TransportError unit)
| EvApi (base token : string) (request : ApiRequest).

(** ** The client *)
Inductive PairingMode : Set := PairingNative | PairingLoopback.
Inductive IdentityState : Type := IdentityUnread | IdentityReady (client_identity : ClientIdentity) | IdentityUnavailableFor (reason : string).
Record Client := mkClient { ac_endpoint : option string; ac_resolved : IdentityState; ac_token : option AccessToken }.
#[global] Instance Client_eta : Eta Client := fun c => mkClient (ac_endpoint c) (ac_resolved c) (ac_token c).
Record AgentClientOptions := mkOptions { op_endpoint : option string; op_pairing_mode : PairingMode; op_windows : bool }.
Record Run := mkRun { run_client : Client; run_events : list Event }.
#[global] Instance Run_eta : Eta Run := fun r => mkRun (run_client r) (run_events r).
Definition AgentClient_new (options : AgentClientOptions) : Run := mkRun (mkClient (op_endpoint options) IdentityUnread None) [].

(** What the world answers to the n-th thing that happens. *)
Record Environment := mkEnvironment {
  env_now : nat -> instant;
  env_vault_read : nat -> AgentClientResult (option ClientIdentity);
  env_vault_write : nat -> AgentClientResult unit;
  env_create : nat -> AgentClientResult ClientIdentity;
  env_native_endpoint : nat -> AgentClientResult string;
  env_native_grant : nat -> AgentClientResult PairingGrant;
  env_native_restart : nat -> AgentClientResult bool;
  env_challenge : nat -> result TransportError Challenge;
  env_token : nat -> result TransportError AccessToken;
  env_start_pairing : nat -> result TransportError PairingGrant;
  env_complete_pairing : nat -> result TransportError unit;
  env_http_build : nat -> AgentClientResult unit;
  env_status : nat -> result TransportError StatusResponse;
  env_preview : nat -> result TransportError PreviewResponse;
  env_started : nat -> result TransportError unit;
  env_devices : nat -> result TransportError (list DeviceResponse);
  env_jobs : nat -> result TransportError (list JobResponse);
  env_pairing : nat -> result TransportError PairingRequestResponse;
  env_connect : nat -> AgentClientResult (Z * option string);
}.
(** [HeaderValue::from_str], [Url::join] and the length that the generated [Invitation] type accepts. *)
Class ClientLibs := { header_value_error : string -> option string; endpoint_join : string -> string -> result string string;
                      transport_invitation : string -> result string string }.

(** [value.split(';').next()]. *)
Fixpoint before_semicolon (s : string) : string :=
  match s with EmptyString => EmptyString | String c rest => if byte_is c 59 then EmptyString else String c (before_semicolon rest) end.
Definition M : Type -> Type := repo Run AgentClientError.
Definition DEFAULT_AGENT_ENDPOINT : string := "http://127.0.0.1:7310/".

Section Client.
Context `{UrlParts, UrlParse, UrlHosts, ClientKeys, ClientLibs}.
Variable options : AgentClientOptions.
Variable env : Environment.

Definition reads {A} (f : Client -> A) : M A := fun r => (Ok (f (run_client r)), r).
Definition writes (f : Client -> Client) : M unit := fun r => (Ok tt, r <| run_client := f (run_client r) |>).
Definition happens (event : Event) : M unit := fun r => (Ok tt, r <| run_events := (run_events r ++ [event])%list |>).
Definition ask {A} (answers : nat -> A) (event : A -> Event) : M A :=
  fun r => let a := answers (length (run_events r)) in (Ok a, r <| run_events := (run_events r ++ [event a])%list |>).
(** The answer of an operation that leaves nothing in the log. *)
Definition peek {A} (answers : nat -> AgentClientResult A) : M A := fun r => (answers (length (run_events r)), r).
Definition transported {A} (answer : result TransportError A) : M A :=
  returns match answer with Ok a => Ok a | Err e => Err (map_transport_error e) end.

Definition generated_transport_base (endpoint : string) : string := trim_end_slashes endpoint.
Definition endpoint : M string :=
  cached ← reads ac_endpoint;
  match cached with
  | Some endpoint => _ ← returns (socket_address endpoint); mret endpoint
  | None =>
      resolved ← match op_pairing_mode options with
                 | PairingLoopback => returns (or_invalid (Url_parse DEFAULT_AGENT_ENDPOINT))
                 | PairingNative =>
                     if op_windows options then
                       answer ← ask (env_native_endpoint env) EvNativeEndpoint;
                       agent_endpoint ← returns answer;
                       returns (decode_agent_endpoint agent_endpoint)
                     else returns (Err IdentityRequired)
                 end;
      _ ← returns (socket_address resolved);
      _ ← writes (fun c => c <| ac_endpoint := Some resolved |>);
      mret resolved
  end.

(** The part of [identity] that runs when nothing is cached. *)
Definition resolve_identity : M ClientIdentity :=
  loaded ← ask (env_vault_read env) EvVaultRead;
  found ← returns loaded;
  match found with
  | Some client_identity => mret client_identity
  | None =>
      created ← ask (env_create env) EvCreate;
      client_identity ← returns created;
      stored ← ask (env_vault_write env) (EvVaultWrite client_identity);
      _ ← returns stored;
      mret client_identity
  end.
Definition identity : M ClientIdentity := fun r =>
  match ac_resolved (run_client r) with
  | IdentityReady client_identity => (Ok client_identity, r)
  | IdentityUnavailableFor reason => (Err (IdentityLocked reason), r)
  | IdentityUnread =>
      match resolve_identity r with
      | (Ok client_identity, r') =>
          (Ok client_identity, r' <| run_client := run_client r' <| ac_resolved := IdentityReady client_identity |> |>)
      | (Err error, r') =>
          (Err error, r' <| run_client := run_client r' <| ac_resolved := IdentityUnavailableFor (AgentClientError_to_string error) |> |>)
      end
  end.
(** [has_identity] asks the vault itself: nothing is cached, and nothing cached is consulted. *)
Definition has_identity : M bool :=
  loaded ← ask (env_vault_read env) EvVaultRead;
  found ← returns loaded;
  mret (match found with Some _ => true | None => false end).
Definition forget_identity : M unit :=
  _ ← happens EvForget;
  _ ← writes (fun c => c <| ac_resolved := IdentityUnread |>);
  writes (fun c => c <| ac_token := None |>).

Definition attest (base : string) (who : ClientIdentity) (purpose : string) : M Attestation :=
  answer ← ask (env_challenge env) (EvChallenge base (ci_client_id who) purpose);
  challenge ← transported answer;
  signature ← returns (sign_challenge who purpose (ch_challenge challenge));
  mret (mkAttestation (ch_challenge_id challenge) (ci_client_id who) signature).
Definition access_token_request (base : string) (who : ClientIdentity) : M TokenRequest :=
  attestation ← attest base who "token";
  mret (mkTokenRequest attestation (ci_client_name who)).
(** [pairing::decode_pairing_grant], after the JSON is read. *)
Definition decode_pairing_grant (grant : PairingGrant) (now : instant) : AgentClientResult PairingGrant :=
  if is_empty (pg_secret grant) || (pg_expires_at grant <=? now) then Err MalformedIdentity else Ok grant.
Definition native_pairing_grant : M PairingGrant :=
  answer ← ask (env_native_grant env) EvNativeGrant;
  grant ← returns answer;
  now ← ask (env_now env) EvClock;
  returns (decode_pairing_grant grant now).
Definition pairing_grant (base : string) : M PairingGrant :=
  match op_pairing_mode options with
  | PairingLoopback => answer ← ask (env_start_pairing env) (EvStartPairing base); transported answer
  | PairingNative =>
      if op_windows options then native_pairing_grant else returns (Err IdentityRequired)
  end.
Definition pair_identity (base : string) (who : ClientIdentity) : M unit :=
  grant ← pairing_grant base;
  now ← ask (env_now env) EvClock;
  _ ← returns (ensure (negb (pg_expires_at grant <=? now)) Rejected);
  attestation ← attest base who "pairing";
  answer ← ask (env_complete_pairing env)
             (EvCompletePairing base (mkPairingComplete attestation (ci_client_id who) (ci_client_name who) (pg_secret grant)
                                        (ci_public_key_pem who)));
  transported answer.
Definition request_token (base : string) (who : ClientIdentity) : M (result TransportError AccessToken) :=
  request ← access_token_request base who;
  ask (env_token env) (EvToken base request).
Definition unpaired (e : TransportError) : bool :=
  match transport_status e with Some status => (status =? 403) || (status =? 409) | None => false end.
Definition TOKEN_MARGIN : Z := seconds 30.
(** [access_token] when no cached token is good for long enough. *)
Definition refresh_token : M AccessToken :=
  who ← identity;
  endpoint ← endpoint;
  let base := generated_transport_base endpoint in
  answer ← request_token base who;
  response ← match answer with
             | Ok response => mret response
             | Err error =>
                 if unpaired error then
                   _ ← pair_identity base who;
                   again ← request_token base who;
                   transported again
                 else returns (Err (map_transport_error error))
             end;
  _ ← writes (fun c => c <| ac_token := Some response |>);
  mret response.
Definition access_token : M AccessToken :=
  cached ← reads ac_token;
  match cached with
  | None => refresh_token
  | Some token =>
      now ← ask (env_now env) EvClock;
      if now + TOKEN_MARGIN <? tk_expires_at token then mret token else refresh_token
  end.
(** The base and the token that a request carries. *)
Definition authorized_transport : M (string * string) :=
  token ← access_token;
  let authorization := "Bearer " ++ tk_access_token token in
  _ ← returns (match header_value_error authorization with
               | None => Ok tt | Some text => Err (InvalidResponse (plain_error text)) end);
  _ ← peek (env_http_build env);
  endpoint ← endpoint;
  mret (generated_transport_base endpoint, tk_access_token token).
Definition api {A} (transport : string * string) (request : ApiRequest) (answers : nat -> result TransportError A) : M A :=
  answer ← ask answers (fun _ => EvApi (fst transport) (snd transport) request);
  transported answer.

Definition setup : M SetupSnapshot :=
  transport ← authorized_transport;
  response ← api transport RequestStatus (env_status env);
  returns (setup_snapshot response).
(** [restart_setup], a Windows operation, answers whether the restart was requested. *)
Definition restart_setup : M unit :=
  restart_requested ← peek (env_native_restart env);
  returns (ensure restart_requested Rejected).
Definition api_reference : M string :=
  endpoint ← endpoint;
  returns (or_invalid (endpoint_join endpoint "docs")).
Definition reviewed (id : string) (response : PairingRequestResponse) : AgentClientResult PairingRequest :=
  request ← pairing_request response;
  _ ← ensure (String.eqb (pq_id request) id) (InvalidResponse (io_other "Pairing Request identity changed."));
  Ok request.
Definition review_client_pairing (id : string) : M PairingRequest :=
  transport ← authorized_transport;
  response ← api transport (RequestReview id) (env_pairing env);
  returns (reviewed id response).
Definition decision_text (d : PairingDecision) : string := match d with DecisionApprove => "approve" | DecisionDeny => "deny" end.
Definition decide_client_pairing (id : string) (decision : PairingDecision) : M PairingRequest :=
  transport ← authorized_transport;
  response ← api transport (RequestDecide id (decision_text decision)) (env_pairing env);
  returns (reviewed id response).
Definition preview (invitation : string) : M EnrollmentPreview :=
  transport ← authorized_transport;
  value ← returns (or_invalid (transport_invitation invitation));
  response ← api transport (RequestPreview value) (env_preview env);
  returns (enrollment_preview response).
Definition begin_setup (invitation : string) : M SetupSnapshot :=
  transport ← authorized_transport;
  value ← returns (or_invalid (transport_invitation invitation));
  _ ← api transport (RequestStart value) (env_started env);
  setup.
Definition confirm_devices (device_ids : list string) : M SetupSnapshot :=
  transport ← authorized_transport;
  response ← api transport (RequestConfirm device_ids) (env_status env);
  returns (setup_snapshot response).
Definition cancel_setup : M SetupSnapshot :=
  transport ← authorized_transport;
  response ← api transport RequestCancel (env_status env);
  returns (setup_snapshot response).
Definition devices : M (list Device) :=
  transport ← authorized_transport;
  response ← api transport RequestDevices (env_devices env);
  returns (map_devices response).
Definition jobs : M (list Job) :=
  transport ← authorized_transport;
  response ← api transport RequestJobs (env_jobs env);
  returns (map_jobs response).
(** [AgentEventStream::connect]; the answer is its status and its readable content type.  The stream's URL is below the
    endpoint. *)
Definition media_type (content_type : option string) : option string := before_semicolon <$> content_type.
Definition connect (endpoint : string) (token : AccessToken) : M unit :=
  _ ← returns (socket_address endpoint);
  _ ← returns (or_invalid (endpoint_join endpoint "system/events"));
  _ ← peek (env_http_build env);
  answer ← ask (env_connect env) (fun _ => EvApi (generated_transport_base endpoint) (tk_access_token token) RequestEvents);
  '(status, content_type) ← returns answer;
  _ ← returns (ensure ((200 <=? status) && (status <? 300)) Rejected);
  returns (ensure (option_eqb (media_type content_type) "text/event-stream") Rejected).
Definition events : M unit :=
  token ← access_token;
  endpoint ← endpoint;
  connect endpoint token.

End Client.

(** ** The identity is read once *)
Section Cached.
Context `{ClientKeys}.
Variable env : Environment.
(** What [identity] answers from its cache. *)
Definition cached_identity (s : IdentityState) : option (AgentClientResult ClientIdentity) :=
  match s with
  | IdentityUnread => None
  | IdentityReady client_identity => Some (Ok client_identity)
  | IdentityUnavailableFor reason => Some (Err (IdentityLocked reason))
  end.
Lemma resolve_identity_client r : run_client (snd (resolve_identity env r)) = run_client r.
Proof.
  unfold resolve_identity, mbind, repo_bind, ask, returns, mret, repo_ret. cbn.
  destruct (env_vault_read env _) as [[?|]|?]; [done| |done]. cbn.
  destruct (env_create env _) as [?|?]; [|done]. cbn. by destruct (env_vault_write env _).
Qed.
(** A finished [identity] leaves its outcome behind, success and failure alike: asked again, under whatever the vault
    would answer then, it answers from memory and nothing happens. *)
Lemma identity_is_remembered env' r x r1 : identity env r = (x, r1) ->
  exists y, identity env' r1 = (y, r1) /\ cached_identity (ac_resolved (run_client r1)) = Some y /\
    (forall who, x = Ok who <-> y = Ok who) /\ ac_endpoint (run_client r1) = ac_endpoint (run_client r) /\
    ac_token (run_client r1) = ac_token (run_client r).
Proof.
  unfold identity at 1. intros E. destruct (ac_resolved (run_client r)) as [|who|reason] eqn:Er.
  - pose proof (resolve_identity_client r) as Hc. destruct (resolve_identity env r) as [[who|e] r'] eqn:Ei; cbn in Hc; simplify_eq.
    + exists (Ok who). unfold identity. cbn. rewrite Hc. by split_and!.
    + eexists. unfold identity. cbn. rewrite Hc. by split_and!.
  - simplify_eq. exists (Ok who). unfold identity. rewrite Er. by split_and!.
  - simplify_eq. exists (Err (IdentityLocked reason)). unfold identity. rewrite Er. by split_and!.
Qed.
End Cached.

(** ** A run *)
Module Sample.
#[local] Instance sample_parts : UrlParts := {|
  url_scheme := fun _ => "http"; url_host := fun _ => Some "127.0.0.1"; url_path := fun _ => "/"; url_username := fun _ => "";
  url_password := fun _ => None; url_query := fun _ => None; url_fragment := fun _ => None |}.
#[local] Instance sample_parse : UrlParse := fun s => Some s.
#[local] Instance sample_hosts : UrlHosts := {|
  url_parse_error := fun _ => ""; url_host_kind := fun _ => Some (HostIpv4 2130706433); url_port := fun _ => Some 7310;
  url_port_or_known_default := fun _ => Some 7310 |}.
#[local] Instance sample_keys : ClientKeys := {|
  signing_key_of_pem := fun s => Some s; verifying_key_of_pem := fun s => Some s; signing_key_of_seed := fun s => s;
  verifying_key := fun s => s; signing_key_pem := fun s => Ok s; verifying_key_pem := fun s => Ok s;
  verifying_key_der := fun s => Ok s; sha256_hex := fun s => s; sign_base64url := fun k m => k ++ "/" ++ m;
  pem_error := fun _ => ""; stored_to_json := fun s => Ok (ci_client_id s); stored_of_json := fun _ => None |}.
#[local] Instance sample_libs : ClientLibs := {|
  header_value_error := fun _ => None; endpoint_join := fun e p => Ok (e ++ p); transport_invitation := fun i => Ok i |}.
Definition sample_options : AgentClientOptions := mkOptions None PairingLoopback false.
(** The vault is empty, the Agent does not know the client yet, and a token lasts five minutes; a second passes per event. *)
Definition sample_env : Environment := {|
  env_now := fun n => seconds (Z.of_nat n);
  env_vault_read := fun _ => Ok None;
  env_vault_write := fun _ => Ok tt;
  env_create := fun _ => create_identity (Ok "0123456789abcdef0123456789abcdef");
  env_native_endpoint := fun _ => Err IdentityRequired;
  env_native_grant := fun _ => Err IdentityRequired;
  env_native_restart := fun _ => Ok false;
  env_challenge := fun n => Ok (mkChallenge "challenge" "nonce");
  env_token := fun n => if (n <? 6)%nat then Err (ErrorResponse 403) else Ok (mkAccessToken "token" (seconds (Z.of_nat n) + minutes 5));
  env_start_pairing := fun _ => Ok (mkPairingGrant "secret" (minutes 5));
  env_complete_pairing := fun _ => Ok tt;
  env_http_build := fun _ => Ok tt;
  env_status := fun _ => Ok (mkStatusResponse PhaseNotStarted "Start" None None None []);
  env_preview := fun _ => Err (ErrorResponse 500);
  env_started := fun _ => Ok tt;
  env_devices := fun _ => Ok [];
  env_jobs := fun _ => Ok [];
  env_pairing := fun _ => Err (ErrorResponse 404);
  env_connect := fun _ => Ok (200, Some "text/event-stream; charset=utf-8") |}.
(** The client opens the event stream, reads its setup, forgets, and reads its setup again, each finishing before the
    next begins. *)
Definition sample_run : Run :=
  let r1 := snd (events sample_options sample_env (AgentClient_new sample_options)) in
  let r2 := snd (setup sample_options sample_env r1) in
  let r3 := snd (forget_identity r2) in
  snd (setup sample_options sample_env r3).
(** It pairs once, and the second start reads the vault a second time. *)
Example sample_log :
  map (fun e => match e with
                | EvForget => "forget" | EvClock _ => "clock" | EvVaultRead _ => "read" | EvCreate _ => "create"
                | EvVaultWrite _ _ => "write" | EvChallenge _ _ purpose _ => "challenge " ++ purpose | EvToken _ _ _ => "token"
                | EvStartPairing _ _ => "grant" | EvCompletePairing _ _ _ => "pair" | EvApi _ _ _ => "api" | _ => "native" end)
      (run_events sample_run) =
  ["read"; "create"; "write"; "challenge token"; "token"; "grant"; "clock"; "challenge pairing"; "pair"; "challenge token"; "token"; "api";
   "clock"; "api"; "forget"; "read"; "create"; "write"; "challenge token"; "token"; "api"].
Proof. vm_compute. reflexivity. Qed.
End Sample.

(** ** A vault *)
Module SampleVault.
Definition toy_identity : ClientIdentity :=
  mkClientIdentity "device_center_0123456789abcdef01234567" "Inari Device Center" "PRIVATE" "PUBLIC".
#[global] Instance ClientIdentity_eq_dec : EqDecision ClientIdentity. Proof. solve_decision. Defined.
Definition only (key text s : string) : result string string := if String.eqb s key then Ok text else Err "unknown key".
Definition back (key text s : string) : option string := if String.eqb s text then Some key else None.
#[local] Instance toy_keys : ClientKeys := {|
  signing_key_of_pem := back "key" "PRIVATE"; verifying_key_of_pem := back "public" "PUBLIC"; signing_key_of_seed := fun _ => "key";
  verifying_key := fun _ => "public"; signing_key_pem := only "key" "PRIVATE"; verifying_key_pem := only "public" "PUBLIC";
  verifying_key_der := fun s => Ok s; sha256_hex := fun _ => "0123456789abcdef0123456789abcdef"; sign_base64url := fun k m => k ++ m;
  pem_error := fun _ => ""; stored_to_json := fun s => if bool_decide (s = toy_identity) then Ok "{}" else Err "unknown";
  stored_of_json := fun text => if String.eqb text "{}" then Some toy_identity else None |}.
Lemma only_back key text s pem : only key text s = Ok pem -> pem = text /\ s = key.
Proof. unfold only. destruct (String.eqb_spec s key); [|done]. by intros [= <-]. Qed.
#[local] Instance toy_spec : ClientKeysSpec.
Proof.
  split; cbn.
  - intros stored text. case_bool_decide as E; [|done]. intros [= <-]. by rewrite E.
  - intros key pem E. by apply only_back in E as [-> ->].
  - intros key pem E. by apply only_back in E as [-> ->].
  - intros key pem E. by apply only_back in E as [-> ->].
  - done.
Qed.
Lemma created_identity_roundtrip_witness : create_identity (Ok "seed") = Ok toy_identity /\
  LocalIdentityStore_load (Ok (VaultPassword "{}")) = Ok (Some toy_identity).
Proof. split; [vm_compute; reflexivity|]. apply (created_identity_roundtrip (Ok "seed")); vm_compute; reflexivity. Defined.
End SampleVault.
