(* ===== verification/DeviceSetup.v ===== *)
(** * Enrolling this computer from Device Center

    [crates/inari-device-center/src/infrastructure/setup.rs] (following the Agent's progress until it settles or the
    deadline passes), [onboarding.rs] (the enrollment window) and the controls that [features/setup.rs] offers in it.
    Time, the answers of the Agent and what the operator does are inputs.  A task of the window is the answer it waits
    for; assigning another task drops the one before, as GPUI does. *)
From stdpp Require Import relations.
From S2P Require Import AdmissionController GatewayConfig.
From S2P Require Import Prelude AgentModel.

(** ** Following the Agent's progress *)
Inductive SetupProgressError : Type :=
| ProgressAgent (error : AgentClientError)
| ProgressService (text : string)
| ProgressTimedOut.
Definition SetupProgressError_to_string (e : SetupProgressError) : string :=
  match e with
  | ProgressAgent error => AgentClientError_to_string error
  | ProgressService text => text
  | ProgressTimedOut => "Inari did not finish connecting. Select Check again to read its state."
  end.
Inductive SetupProgressMode : Set := ModeObserve | ModeRetry | ModeAfterRestart.
#[global] Instance SetupProgressMode_eq_dec : EqDecision SetupProgressMode. Proof. solve_decision. Defined.
Definition after_restart (mode : SetupProgressMode) : bool := bool_decide (mode = ModeAfterRestart).
Definition pending (s : SetupSnapshot) (after_restart : bool) : bool :=
  bool_decide (ss_access s = AccessRequired)
  && (ss_restart_required s && after_restart
      || negb (ss_restart_required s)
         && match ss_stage s with StageSecuring | StageConnecting => true | _ => false end).
Fixpoint first_io (sources : list ErrorSource) : option IoKind :=
  match sources with [] => None | s :: rest => match es_io s with Some kind => Some kind | None => first_io rest end end.
Definition transient (e : AgentClientError) : bool :=
  match e with
  | Unavailable _ => true
  | PairingUnavailable sources =>
      match first_io sources with
      | Some (IoNotFound | IoConnectionRefused | IoTimedOut | IoWouldBlock | IoBrokenPipe) => true
      | _ => false
      end
  | _ => false
  end.
(** The world of one [follow]: how long the n-th read takes (if it ends) and its answer, how long the n-th send waits for
    room, whether the receiver is there to take it, whether the receiver goes away during the n-th pause, and how late
    the n-th pause ends. *)
Record FollowWorld := mkFollowWorld {
  fw_read : nat -> option (Z * AgentClientResult SetupSnapshot);
  fw_send : nat -> Z;
  fw_taken : nat -> bool;
  fw_closed : nat -> bool;
  fw_late : nat -> Z;
}.
Definition ProgressUpdate : Type := result SetupProgressError SetupSnapshot.

Section Follow.
Variable world : FollowWorld.
Variable after_restart : bool.
Variable interval deadline : Z.

(** One update that the receiver takes, or that is lost with it. *)
Definition sent (n : nat) (u : ProgressUpdate) : list ProgressUpdate := if fw_taken world n then [u] else [].
(** One turn of the loop: what it sends, and when the next turn starts unless it returned. *)
Definition follow_turn (n : nat) (now : instant) : list ProgressUpdate * option instant :=
  if deadline <=? now then (sent n (Err ProgressTimedOut), None)
  else
    let pause (at_ : instant) : option instant :=
      if fw_closed world n then None else Some (Z.min (at_ + interval) deadline + fw_late world n) in
    match fw_read world n with
    | None => (sent n (Err ProgressTimedOut), None)
    | Some (took, answer) =>
        if deadline <? now + took then (sent n (Err ProgressTimedOut), None)
        else
          match answer with
          | Ok snapshot =>
              if negb (fw_taken world n) || negb (pending snapshot after_restart) then (sent n (Ok snapshot), None)
              else ([Ok snapshot], pause (now + took + fw_send world n))
          | Err error => if transient error then ([], pause (now + took)) else (sent n (Err (ProgressAgent error)), None)
          end
    end.
(** [None] when the fuel does not reach the end of the loop. *)
Fixpoint follow_loop (fuel n : nat) (now : instant) : option (list ProgressUpdate) :=
  match fuel with
  | O => None
  | S fuel' =>
      let '(updates, next) := follow_turn n now in
      match next with
      | None => Some updates
      | Some at_ => match follow_loop fuel' (S n) at_ with None => None | Some rest => Some (updates ++ rest)%list end
      end
  end.
End Follow.
Definition follow_fuel (timeout interval : Z) : nat := (Z.to_nat (timeout / interval) + 2)%nat.
Definition follow (world : FollowWorld) (after_restart : bool) (timeout interval : Z) (start : instant) : option (list ProgressUpdate) :=
  follow_loop world after_restart interval (start + timeout) (follow_fuel timeout interval) 0 start.
Definition FOLLOW_TIMEOUT : Z := seconds 90.
Definition FOLLOW_INTERVAL : Z := seconds 1.

(** *** It ends, and only with its last update *)
Record fair (w : FollowWorld) : Prop := {
  fair_read : forall n took answer, fw_read w n = Some (took, answer) -> 0 <= took;
  fair_send : forall n, 0 <= fw_send w n;
  fair_late : forall n, 0 <= fw_late w n;
}.
(** Updates after which the sender goes on. *)
Definition goes_on (after_restart : bool) (u : ProgressUpdate) : bool := match u with Ok s => pending s after_restart | Err _ => false end.
Section FollowProofs.
Variable w : FollowWorld.
Variable after : bool.
Variable interval deadline : Z.
Hypothesis Hfair : fair w.
Hypothesis Hinterval : 0 < interval.

Lemma follow_turn_next n now updates at_ : follow_turn w after interval deadline n now = (updates, Some at_) ->
  now < deadline /\ Z.min (now + interval) deadline <= at_ /\ Forall (fun u => goes_on after u = true) updates.
Proof.
  destruct Hfair as [Hread Hsend Hlate]. unfold follow_turn. destruct (Z.leb_spec deadline now) as [|Hnow]; [done|].
  destruct (fw_read w n) as [[took answer]|] eqn:Er; [|done]. pose proof (Hread _ _ _ Er). pose proof (Hsend n). pose proof (Hlate n).
  destruct (deadline <? now + took); [done|]. destruct answer as [s|e].
  - destruct (fw_taken w n), (pending s after) eqn:Ep; cbn; try done.
    destruct (fw_closed w n); [done|]. intros [= <- <-]. split_and!; [lia|lia|]. by repeat constructor.
  - destruct (transient e); [|done]. destruct (fw_closed w n); [done|]. intros [= <- <-]. split_and!; [lia|lia|constructor].
Qed.
Lemma follow_turn_last n now updates : follow_turn w after interval deadline n now = (updates, None) ->
  updates = [] \/ exists u, updates = [u].
Proof.
  unfold follow_turn, sent. intros E. repeat case_match; simplify_eq; eauto.
Qed.
Lemma follow_loop_ends fuel n now : (Z.to_nat ((deadline - now + interval - 1) / interval) < fuel)%nat ->
  is_Some (follow_loop w after interval deadline fuel n now).
Proof.
  revert n now. induction fuel as [|fuel IH]; intros n now Hfuel; [lia|]. cbn [follow_loop].
  destruct (follow_turn w after interval deadline n now) as [updates [at_|]] eqn:Et; [|done].
  apply follow_turn_next in Et as (Hnow & Hat & _).
  assert (is_Some (follow_loop w after interval deadline fuel (S n) at_)) as [rest ->]; [|done].
  apply IH.
  assert (Hle : (deadline - at_ + interval - 1) / interval <= (deadline - now + interval - 1) / interval - 1 \/ deadline <= at_).
  { destruct (Z.le_gt_cases deadline at_); [by right|]. left.
    replace ((deadline - now + interval - 1) / interval - 1) with ((deadline - now - 1) / interval).
    - apply Z.div_le_mono; lia.
    - replace (deadline - now + interval - 1) with (deadline - now - 1 + 1 * interval) by lia. rewrite Z.div_add; lia. }
  assert (0 < (deadline - now + interval - 1) / interval) by (apply Z.div_str_pos; lia).
  destruct Hle as [Hle|Hle]; [lia|].
  assert ((deadline - at_ + interval - 1) / interval <= 0); [|lia].
  destruct (Z.le_gt_cases 0 (deadline - at_ + interval - 1)); [rewrite Z.div_small; lia|].
  apply Z.lt_le_incl, Z.div_lt_upper_bound; lia.
Qed.
(** Every update but the last leaves the progress pending. *)
Lemma follow_loop_shape fuel n now updates : follow_loop w after interval deadline fuel n now = Some updates ->
  Forall (fun u => goes_on after u = true) (removelast updates).
Proof.
  revert n now updates. induction fuel as [|fuel IH]; intros n now updates; [done|]. cbn [follow_loop].
  destruct (follow_turn w after interval deadline n now) as [us [at_|]] eqn:Et.
  - apply follow_turn_next in Et as (_ & _ & Hus). destruct (follow_loop w after interval deadline fuel (S n) at_) as [rest|] eqn:E; [|done].
    intros [= <-]. destruct rest as [|x rest].
    + rewrite app_nil_r. clear -Hus. induction Hus as [|u us Hu Hus IH]; [constructor|]. destruct us; [constructor|]. by constructor.
    + rewrite removelast_app; [|done]. apply Forall_app. split; [done|]. by eapply IH.
  - intros [= <-]. apply follow_turn_last in Et as [->|[u ->]]; constructor.
Qed.
End FollowProofs.

(** ** Reading the state of the setup *)
Record SetupResult := mkSetupResult {
  rs_agent_endpoint : option string; rs_snapshot : SetupSnapshot; rs_diagnostic : option string; rs_identity_retry_available : bool }.
Definition agent_failure_message (e : AgentClientError) : string :=
  match e with
  | MalformedIdentity => "Device Center cannot use its saved identity. Ask an administrator to reset it, then try again."
  | IdentityUnavailable _ => "Device Center cannot use its saved sign-in information. Unlock the computer, then try again."
  | IdentityLocked _ => "Device Center stopped asking for its saved sign-in information. Select Check again to allow access."
  | IdentityRequired | PairingUnavailable _ =>
      "Device Center could not create a trusted connection. Select Check again. If this error continues, ask an administrator to verify the Agent installation."
  | InvalidResponse _ => "The agent returned an invalid response. Restart the agent service."
  | Unavailable _ | Rejected | EventStreamUnavailable _ | InvalidInvitation | EventStreamClosed =>
      "Device Center could not reach the agent. Start the service, then try again."
  end.
Definition error_chain (e : AgentClientError) : string :=
  foldl (fun message source => message ++ ": " ++ es_text source) (AgentClientError_to_string e) (error_sources e).
Definition setup_failure (e : AgentClientError) : SetupSnapshot := SetupSnapshot_unavailable_with (agent_failure_message e).
(** [read_setup] on the answers of [endpoint] and, if that succeeds, of [setup]. *)
Definition read_setup (endpoint : AgentClientResult string) (setup : AgentClientResult SetupSnapshot) : SetupResult :=
  let '(agent_endpoint, answer) := match endpoint with Ok e => (Some e, setup) | Err error => (None, Err error) end in
  match answer with
  | Ok snapshot => mkSetupResult agent_endpoint snapshot None false
  | Err error =>
      mkSetupResult agent_endpoint (setup_failure error) (Some (error_chain error))
        match error with IdentityUnavailable _ | IdentityLocked _ => true | _ => false end
  end.

(** ** The window *)
(** What the window asks for and does. *)
Inductive Effect : Type :=
| EfShowWindow
| EfShowRequested
| EfHideWindow
| EfCloseWindow
| EfOpenOperations (snapshot : SetupSnapshot)
| EfPreview (invitation : string)
| EfReadSetup (forget : bool)
| EfBegin (invitation : string)
| EfConfirm (device_ids : list string)
| EfCancel
| EfRestart
| EfFollow (mode : SetupProgressMode).
(** The answer that the current task waits for.  A follower that sent its last update is done. *)
Inductive SetupTask : Type :=
| TaskReady
| TaskSetup
| TaskPreview
| TaskResponse
| TaskRestart
| TaskFollow (mode : SetupProgressMode) (done : bool).
Record Onboarding := mkOnboarding {
  on_snapshot : SetupSnapshot;
  on_input : string;
  on_preview : option EnrollmentPreview;
  on_error : option string;
  on_working : bool;
  on_forced : bool;
  on_selected : gset string;
  on_revealed : bool;
  on_handle : bool;
  on_task : SetupTask;
  on_effects : list Effect;
}.
#[global] Instance Onboarding_eta : Eta Onboarding := fun o => mkOnboarding (on_snapshot o) (on_input o) (on_preview o) (on_error o)
  (on_working o) (on_forced o) (on_selected o) (on_revealed o) (on_handle o) (on_task o) (on_effects o).
Definition effect (e : Effect) (o : Onboarding) : Onboarding := o <| on_effects := (on_effects o ++ [e])%list |>.

Section Window.
Context `{UrlParts, UrlParse}.

Definition load_invitation_preview (invitation : string) (o : Onboarding) : Onboarding :=
  effect (EfPreview invitation) o <| on_task := TaskPreview |>.
Definition load_setup (o : Onboarding) : Onboarding := effect (EfReadSetup false) o <| on_task := TaskSetup |>.
Definition retry_setup (o : Onboarding) : Onboarding := effect (EfReadSetup true) o <| on_task := TaskSetup |>.
Definition follow_setup (mode : SetupProgressMode) (o : Onboarding) : Onboarding :=
  effect (EfFollow mode) o <| on_task := TaskFollow mode false |>.
Definition Onboarding_new (invitation : option string) : Onboarding :=
  let parsed := match invitation with
                | Some value => match InvitationLink_parse value with Ok link => Some link | Err _ => None end
                | None => None
                end in
  let base := mkOnboarding (if is_some invitation then SetupSnapshot_invitation else SetupSnapshot_unavailable)
    (match invitation with Some value => value | None => "" end) None None (is_some parsed) (is_some invitation) ∅ false true TaskReady [] in
  match parsed with
  | Some link => load_invitation_preview link base
  | None => load_setup base
  end.
Definition set_device_selected (id : string) (selected : bool) (o : Onboarding) : Onboarding :=
  o <| on_selected := if selected then {[ id ]} ∪ on_selected o else on_selected o ∖ {[ id ]} |>.
Definition blocking (o : Onboarding) : bool := on_forced o || bool_decide (ss_access (on_snapshot o) = AccessRequired).
Definition settle (o : Onboarding) : Onboarding :=
  if blocking o then
    if on_revealed o then o
    else let o := o <| on_revealed := true |> in if on_handle o then effect EfShowWindow o else o
  else
    let o := effect (EfOpenOperations (on_snapshot o)) o in
    if on_handle o then effect EfCloseWindow (o <| on_handle := false |>) else o.
Definition default_device_selection (s : SetupSnapshot) : gset string :=
  if bool_decide (ss_stage s = StageDevices) then list_to_set (dv_id <$> ss_devices s) else ∅.
Definition select_all_devices (o : Onboarding) : Onboarding := o <| on_selected := default_device_selection (on_snapshot o) |>.
Definition track_progress (o : Onboarding) : Onboarding :=
  if pending (on_snapshot o) false then follow_setup ModeObserve (o <| on_working := true |>) else o.

Definition receive_invitation (value : string) (o : Onboarding) : Onboarding :=
  if on_working o then o
  else
    let o := o <| on_input := value |> <| on_forced := true |> <| on_snapshot := SetupSnapshot_invitation |>
               <| on_preview := None |> <| on_error := None |> in
    match InvitationLink_parse value with
    | Ok invitation => load_invitation_preview invitation (o <| on_working := true |>)
    | Err error => o <| on_error := Some error |>
    end.
(** [OnboardingWindow::show]: whoever opens an enrollment link, or asks for the window again, also sees it. *)
Definition OnboardingWindow_show (invitation : option string) (o : Onboarding) : Onboarding :=
  effect EfShowRequested (match invitation with Some value => receive_invitation value o | None => o end).
Definition stopped_message : string := "The agent stopped before it replied.".
Definition preview_answered (answer : option (AgentClientResult EnrollmentPreview)) (o : Onboarding) : Onboarding :=
  let o := o <| on_task := TaskReady |> <| on_working := false |> in
  settle match answer with
         | Some (Ok preview) => o <| on_preview := Some preview |>
         | Some (Err error) => o <| on_error := Some (agent_failure_message error) |>
         | None => o <| on_error := Some stopped_message |>
         end.
Definition apply_setup (answer : option SetupResult) (o : Onboarding) : Onboarding :=
  let o := o <| on_task := TaskReady |> in
  let snapshot := match answer with Some r => rs_snapshot r | None => SetupSnapshot_unavailable end in
  settle (track_progress (select_all_devices (o <| on_snapshot := if on_forced o then SetupSnapshot_invitation else snapshot |>))).
Definition retry_connection (o : Onboarding) : Onboarding :=
  if on_working o then o
  else
    let o := o <| on_error := None |> in
    if bool_decide (ss_access (on_snapshot o) = AccessRequired) then follow_setup ModeRetry (o <| on_working := true |>)
    else retry_setup o.
Definition restart_agent_service (o : Onboarding) : Onboarding :=
  if on_working o || negb (ss_restart_required (on_snapshot o)) || negb (bool_decide (ss_access (on_snapshot o) = AccessRequired)) then o
  else effect EfRestart (o <| on_working := true |> <| on_error := None |>) <| on_task := TaskRestart |>.
Definition restart_answered (answer : option (result SetupProgressError unit)) (o : Onboarding) : Onboarding :=
  let o := o <| on_task := TaskReady |> in
  match answer with
  | Some (Ok _) => follow_setup ModeAfterRestart o
  | Some (Err error) => o <| on_working := false |> <| on_error := Some (SetupProgressError_to_string error) |>
  | None => o <| on_working := false |> <| on_error := Some "The Agent service did not restart. Try again." |>
  end.
Definition progress_message (e : SetupProgressError) (restart_required : bool) : string :=
  match e with
  | ProgressAgent error => agent_failure_message error
  | ProgressTimedOut => if restart_required then "The Agent still requires a restart. Select Restart Agent to try again."
                        else SetupProgressError_to_string e
  | _ => SetupProgressError_to_string e
  end.
(** One update of the follower; it is done after one that does not leave the progress pending. *)
Definition follow_update (mode : SetupProgressMode) (update : ProgressUpdate) (o : Onboarding) : Onboarding :=
  let o := o <| on_task := TaskFollow mode (negb (goes_on (after_restart mode) update)) |> in
  settle match update with
         | Ok snapshot =>
             select_all_devices (o <| on_working := pending snapshot (after_restart mode) |> <| on_snapshot := snapshot |>)
               <| on_error := None |>
         | Err error =>
             o <| on_working := false |> <| on_error := Some (progress_message error (ss_restart_required (on_snapshot o))) |>
         end.
Definition check_stopped : string := "The connection check stopped. Try again.".
Definition follow_ended (o : Onboarding) : Onboarding :=
  let o := o <| on_task := TaskReady |> in
  if on_working o then o <| on_working := false |> <| on_error := Some check_stopped |> else o.
Definition preview_invitation (o : Onboarding) : Onboarding :=
  if on_working o then o
  else match InvitationLink_parse (on_input o) with
       | Err error => o <| on_error := Some error |> <| on_preview := None |>
       | Ok invitation =>
           load_invitation_preview invitation (o <| on_working := true |> <| on_error := None |> <| on_preview := None |>)
       end.
Definition begin_setup (o : Onboarding) : Onboarding :=
  if on_working o then o
  else match InvitationLink_parse (on_input o) with
       | Err error => o <| on_error := Some error |>
       | Ok invitation =>
           effect (EfBegin invitation)
             (o <| on_working := true |> <| on_error := None |> <| on_forced := false |> <| on_input := "" |>)
             <| on_task := TaskResponse |>
       end.
Definition confirm_devices (o : Onboarding) : Onboarding :=
  if on_working o then o
  else effect (EfConfirm (elements (on_selected o))) (o <| on_working := true |> <| on_error := None |>) <| on_task := TaskResponse |>.
Definition continue_without_devices (o : Onboarding) : Onboarding :=
  if on_working o then o
  else effect (EfConfirm []) (o <| on_working := true |> <| on_error := None |>) <| on_task := TaskResponse |>.
Definition start_over (o : Onboarding) : Onboarding :=
  if on_working o then o
  else effect EfCancel (o <| on_working := true |> <| on_error := None |> <| on_preview := None |>) <| on_task := TaskResponse |>.
Definition apply_setup_response (answer : option (AgentClientResult SetupSnapshot)) (o : Onboarding) : Onboarding :=
  let o := o <| on_task := TaskReady |> <| on_working := false |> in
  settle match answer with
         | Some (Ok snapshot) => track_progress (select_all_devices (o <| on_snapshot := snapshot |>) <| on_preview := None |>)
         | Some (Err error) => o <| on_error := Some (agent_failure_message error) |>
         | None => o <| on_error := Some stopped_message |>
         end.
(** Enter in the field. *)
Definition press_enter (o : Onboarding) : Onboarding :=
  if on_working o then o else if is_some (on_preview o) then begin_setup o else preview_invitation o.

(** ** What the view offers *)
Inductive Action : Set := ActRetryConnection | ActRestartAgentService | ActPreviewInvitation | ActBeginSetup | ActConfirmDevices | ActContinueWithoutDevices | ActStartOver.
Definition act (a : Action) : Onboarding -> Onboarding :=
  match a with
  | ActRetryConnection => retry_connection
  | ActRestartAgentService => restart_agent_service
  | ActPreviewInvitation => preview_invitation
  | ActBeginSetup => begin_setup
  | ActConfirmDevices => confirm_devices
  | ActContinueWithoutDevices => continue_without_devices
  | ActStartOver => start_over
  end.
Definition required (o : Onboarding) : bool := bool_decide (ss_access (on_snapshot o) = AccessRequired).
Definition at_stage (stage : SetupStage) (o : Onboarding) : bool := bool_decide (ss_stage (on_snapshot o) = stage).
(** The invitation field is there and takes text. *)
Definition field_offered (o : Onboarding) : bool := required o && at_stage StageInvitation o && negb (on_working o).
Definition devices_offered (o : Onboarding) : bool := at_stage StageDevices o && negb (ss_restart_required (on_snapshot o)) && negb (on_working o).
(** The buttons that are there and enabled. *)
Definition offered (o : Onboarding) (a : Action) : bool :=
  match a with
  | ActPreviewInvitation => field_offered o && negb (is_some (on_preview o)) && negb (is_empty (trim (on_input o)))
  | ActBeginSetup => field_offered o && is_some (on_preview o)
  | ActRestartAgentService => required o && ss_restart_required (on_snapshot o) && negb (on_working o)
  | ActRetryConnection =>
      (required o && negb (ss_restart_required (on_snapshot o)) && (at_stage StageSecuring o || at_stage StageConnecting o)
       && is_some (on_error o) || bool_decide (ss_access (on_snapshot o) = AccessUnknown)) && negb (on_working o)
  | ActConfirmDevices => devices_offered o
  | ActContinueWithoutDevices => devices_offered o && negb (bool_decide (ss_devices (on_snapshot o) = []))
  | ActStartOver => at_stage StageFailed o && negb (on_working o)
  end.

(** ** Everything that can happen to the window *)
(** Snapshots are read from an answer of the Agent, or stand for the failure to read one. *)
Definition from_agent (s : SetupSnapshot) : Prop := exists response, setup_snapshot response = Ok s.
Definition answer_from_agent {E} (answer : result E SetupSnapshot) : Prop := match answer with Ok s => from_agent s | Err _ => True end.
Inductive window_step (o : Onboarding) : Onboarding -> Prop :=
| step_action a : offered o a = true -> window_step o (act a o)
| step_enter : field_offered o = true -> window_step o (press_enter o)
| step_type text : field_offered o = true -> window_step o (o <| on_input := text |>)
| step_select id selected : devices_offered o = true -> id ∈ dv_id <$> ss_devices (on_snapshot o) ->
    window_step o (set_device_selected id selected o)
| step_show invitation : window_step o (OnboardingWindow_show invitation o)
| step_hide : window_step o (effect EfHideWindow o)
| step_preview answer : on_task o = TaskPreview -> window_step o (preview_answered answer o)
| step_setup answer : on_task o = TaskSetup ->
    (forall endpoint setup, answer = Some (endpoint, setup) -> answer_from_agent setup) ->
    window_step o (apply_setup ((fun '(endpoint, setup) => read_setup endpoint setup) <$> answer) o)
| step_response answer : on_task o = TaskResponse -> (forall r, answer = Some r -> answer_from_agent r) ->
    window_step o (apply_setup_response answer o)
| step_restart answer : on_task o = TaskRestart -> window_step o (restart_answered answer o)
| step_follow mode update : on_task o = TaskFollow mode false -> answer_from_agent update -> window_step o (follow_update mode update o)
| step_follow_end mode done : on_task o = TaskFollow mode done -> window_step o (follow_ended o).
(** The window is gone once its handle was taken. *)
Definition alive_step (o o' : Onboarding) : Prop := on_handle o = true /\ window_step o o'.
Definition reachable (o : Onboarding) : Prop := exists invitation, rtc alive_step (Onboarding_new invitation) o.

(** *** The invariant *)
(** The window waits for an answer; reading the setup, when it opens and when the Agent did not tell its state, is the
    one wait during which the operator may go on. *)
Definition outstanding (t : SetupTask) : bool := match t with TaskReady => false | TaskFollow _ done => negb done | _ => true end.
Definition reads_setup (t : SetupTask) : bool := match t with TaskSetup => true | _ => false end.
Definition busy (t : SetupTask) : bool := outstanding t && negb (reads_setup t).
Definition shows (log : list Effect) : nat := length (List.filter (fun e => match e with EfShowWindow => true | _ => false end) log).
Definition opens_ok (log : list Effect) : Prop := forall s, EfOpenOperations s ∈ log -> ss_access s <> AccessRequired.
Definition progressing (s : SetupSnapshot) : bool :=
  bool_decide (ss_access s = AccessRequired) && negb (ss_restart_required s)
  && match ss_stage s with StageSecuring | StageConnecting => true | _ => false end.
(** What holds between two changes of the window, before it is shown or closed. *)
Record core_inv (o : Onboarding) : Prop := {
  ci_busy : on_working o = busy (on_task o);
  ci_forced : on_forced o = true -> on_snapshot o = SetupSnapshot_invitation /\ (busy (on_task o) = true -> on_task o = TaskPreview);
  ci_complete : ss_stage (on_snapshot o) = StageComplete -> ss_access (on_snapshot o) = AccessComplete;
  ci_preview : on_task o = TaskPreview -> ss_stage (on_snapshot o) = StageInvitation;
  ci_error : progressing (on_snapshot o) = true -> on_working o = false -> is_Some (on_error o);
}.
Record log_inv (o : Onboarding) : Prop := {
  li_opens : opens_ok (on_effects o);
  li_shows : (shows (on_effects o) <= if on_revealed o then 1 else 0)%nat;
  li_closed : on_handle o = false -> exists log s, on_effects o = (log ++ [EfOpenOperations s; EfCloseWindow])%list;
}.
Definition win_inv (o : Onboarding) : Prop := core_inv o /\ log_inv o.

Lemma from_agent_complete s : from_agent s -> ss_stage s = StageComplete -> ss_access s = AccessComplete.
Proof.
  intros [response E]. unfold setup_snapshot in E. cbv zeta in E. res_inv E. cbn.
  destruct (sr_phase response), (is_some (sr_completed_at response)), (sr_restart_required response) as [[]|]; done.
Qed.
Lemma progressing_pending s : progressing s = pending s false.
Proof. unfold progressing, pending. by destruct (ss_access s), (ss_restart_required s), (ss_stage s). Qed.
Lemma pending_progressing s b : progressing s = true -> pending s b = true.
Proof. unfold progressing, pending. by destruct (ss_access s), (ss_restart_required s), (ss_stage s), b. Qed.
(** A request is one more effect. *)
Lemma log_effect o e : on_handle o = true -> log_inv o -> (forall s, e <> EfOpenOperations s) -> e <> EfShowWindow -> log_inv (effect e o).
Proof.
  intros Hh [Ho Hs Hc] He Hshow. split; cbn.
  - intros s Hin. apply elem_of_app in Hin as [Hin|Hin]; [by apply Ho|]. apply list_elem_of_singleton in Hin. by destruct (He s).
  - unfold shows in *. rewrite filter_app, length_app. cbn. destruct e; cbn; try done; lia.
  - congruence.
Qed.
Lemma log_same o o' : log_inv o -> on_effects o' = on_effects o -> on_revealed o' = on_revealed o -> on_handle o' = on_handle o -> log_inv o'.
Proof. intros [Ho Hs Hc] E1 E2 E3. split; rewrite ?E1, ?E2, ?E3; auto. Qed.
(** Showing or closing the window changes neither the rest of its state nor what holds of it. *)
Lemma settle_core o : core_inv o -> core_inv (settle o).
Proof. intros [Hb Hf Hc Hp He]. unfold settle. repeat case_match; split; auto. Qed.
Lemma settle_log o : on_handle o = true -> log_inv o -> log_inv (settle o).
Proof.
  intros Hh [Ho Hs Hc]. unfold settle, blocking. destruct (on_forced o || _) eqn:Eb.
  - destruct (on_revealed o) eqn:Er; [by split; rewrite ?Er|]. cbn. rewrite Hh. split; cbn.
    + intros s Hin. apply elem_of_app in Hin as [Hin|Hin]; [by apply Ho|]. by apply list_elem_of_singleton in Hin.
    + unfold shows in *. rewrite filter_app, length_app. cbn. lia.
    + congruence.
  - apply orb_false_iff in Eb as [_ Eb]. apply bool_decide_eq_false in Eb. cbn. rewrite Hh. split; cbn.
    + intros s Hin. rewrite !elem_of_app, !list_elem_of_singleton in Hin. destruct Hin as [[Hin|[= ->]]|[=]]; [by apply Ho|done].
    + unfold shows in *. rewrite !filter_app, !length_app. cbn. destruct (on_revealed o); lia.
    + intros _. exists (on_effects o), (on_snapshot o). by rewrite <- app_assoc.
Qed.
Lemma settle_inv o : on_handle o = true -> win_inv o -> win_inv (settle o).
Proof. intros Hh [Hcore Hlog]. split; [by apply settle_core|by apply settle_log]. Qed.

(** *** Every step keeps it *)
Lemma window_inv_new invitation : win_inv (Onboarding_new invitation).
Proof.
  unfold Onboarding_new. destruct invitation as [value|]; [destruct (InvitationLink_parse value)|]; cbn;
    (split; split; cbn; try done; try lia; try (intros s Hin; by apply list_elem_of_singleton in Hin)).
Qed.
(** A request that replaces a task that nobody waits for. *)
Lemma inv_request o e t o' : on_handle o = true -> log_inv o -> (forall s, e <> EfOpenOperations s) -> e <> EfShowWindow ->
  on_effects o' = (on_effects o ++ [e])%list -> on_revealed o' = on_revealed o -> on_handle o' = on_handle o -> on_task o' = t ->
  (on_task o' = t -> core_inv o') -> win_inv o'.
Proof.
  intros Hh Hlog He Hshow E1 E2 E3 Et Hcore. split; [auto|]. eapply log_same; [by apply (log_effect o e)|..]; done.
Qed.
Ltac request :=
  eapply inv_request; [eassumption|eassumption| | |reflexivity|reflexivity|reflexivity|reflexivity|]; [discriminate|discriminate|].
Ltac field_inv H := unfold field_offered, devices_offered, required, at_stage in H; rewrite ?andb_true_iff, ?negb_true_iff, ?bool_decide_eq_true in H.

Lemma retry_inv o : on_handle o = true -> win_inv o -> offered o ActRetryConnection = true -> win_inv (retry_connection o).
Proof.
  intros Hh [Hcore Hlog] Hoff. pose proof Hcore as [Hb Hf Hc Hp He]. unfold offered, required, at_stage in Hoff.
  unfold retry_connection. apply andb_true_iff in Hoff as [Hoff Hw]. apply negb_true_iff in Hw. rewrite Hw. cbn.
  assert (Hforced : on_forced o = false).
  { destruct (on_forced o) eqn:E; [|done]. destruct (Hf eq_refl) as [Hs _]. by rewrite Hs in Hoff. }
  case_bool_decide as Ha; request; intros _; split; cbn; try done; try by rewrite Hforced.
  intros Hprog _. unfold progressing in Hprog. by rewrite (bool_decide_eq_false_2 _ Ha) in Hprog.
Qed.
Lemma restart_inv o : on_handle o = true -> win_inv o -> win_inv (restart_agent_service o).
Proof.
  intros Hh [Hcore Hlog]. pose proof Hcore as [Hb Hf Hc Hp He]. unfold restart_agent_service.
  destruct (on_working o) eqn:Hw; [done|]. destruct (ss_restart_required (on_snapshot o)) eqn:Hr; [|done].
  case_bool_decide as Ha; [|done]. cbn. request. intros _. split; cbn; try done.
  intros E. destruct (Hf E) as [Hs _]. by rewrite Hs in Hr.
Qed.
Lemma preview_inv o : on_handle o = true -> win_inv o -> field_offered o = true -> win_inv (preview_invitation o).
Proof.
  intros Hh [Hcore Hlog] Hoff. pose proof Hcore as [Hb Hf Hc Hp He]. field_inv Hoff. destruct Hoff as [[Ha Hs] Hw].
  unfold preview_invitation. rewrite Hw. destruct (InvitationLink_parse (on_input o)).
  - request. intros _. split; cbn; try done. intros E. destruct (Hf E). done.
  - split; [|by eapply log_same]. split; cbn; auto; rewrite ?Hw; eauto.
Qed.
Lemma begin_inv o : on_handle o = true -> win_inv o -> win_inv (begin_setup o).
Proof.
  intros Hh [Hcore Hlog]. pose proof Hcore as [Hb Hf Hc Hp He]. unfold begin_setup. destruct (on_working o) eqn:Hw; [done|].
  destruct (InvitationLink_parse (on_input o)).
  - request. intros _. by split; cbn.
  - split; [|by eapply log_same]. split; cbn; rewrite ?Hw; eauto.
Qed.
(** Confirming, continuing and starting over all ask and wait, at a stage where no link forces the window. *)
Lemma response_inv o o' e : on_handle o = true -> win_inv o -> on_snapshot o <> SetupSnapshot_invitation ->
  (forall s, e <> EfOpenOperations s) -> e <> EfShowWindow ->
  on_effects o' = (on_effects o ++ [e])%list -> on_revealed o' = on_revealed o -> on_handle o' = on_handle o ->
  on_snapshot o' = on_snapshot o -> on_forced o' = on_forced o -> on_task o' = TaskResponse -> on_working o' = true -> win_inv o'.
Proof.
  intros Hh [Hcore Hlog] Hs He Hshow E1 E2 E3 E4 E5 E6 E7. pose proof Hcore as [Hb Hf Hc Hp Herr].
  eapply inv_request; try eassumption. intros _. split; rewrite ?E4, ?E5, ?E6, ?E7; try done. intros E. by destruct (Hf E).
Qed.
Lemma stage_not_invitation o s : ss_stage (on_snapshot o) = s -> s <> StageInvitation -> on_snapshot o <> SetupSnapshot_invitation.
Proof. intros E Hs Heq. by rewrite Heq in E. Qed.
Lemma act_inv o a : on_handle o = true -> win_inv o -> offered o a = true -> win_inv (act a o).
Proof.
  intros Hh Hinv Hoff. destruct a; cbn [act].
  - by apply retry_inv.
  - by apply restart_inv.
  - apply preview_inv; [done..|]. unfold offered in Hoff. by rewrite !andb_true_iff in Hoff; destruct Hoff as [[? _] _].
  - by apply begin_inv.
  - unfold offered in Hoff. field_inv Hoff. destruct Hoff as [[Hs Hr] Hw]. unfold confirm_devices. rewrite Hw.
    by eapply (response_inv o _ (EfConfirm _)); [| |eapply stage_not_invitation|..].
  - unfold offered in Hoff. field_inv Hoff. destruct Hoff as [[[Hs Hr] Hw] _]. unfold continue_without_devices. rewrite Hw.
    by eapply (response_inv o _ (EfConfirm _)); [| |eapply stage_not_invitation|..].
  - unfold offered in Hoff. field_inv Hoff. destruct Hoff as [Hs Hw]. unfold start_over. rewrite Hw.
    by eapply (response_inv o _ EfCancel); [| |eapply stage_not_invitation|..].
Qed.
Lemma link_inv o value : on_handle o = true -> win_inv o -> win_inv (receive_invitation value o).
Proof.
  intros Hh [Hcore Hlog]. pose proof Hcore as [Hb Hf Hc Hp He]. unfold receive_invitation. destruct (on_working o) eqn:Hw; [done|].
  destruct (InvitationLink_parse value).
  - request. intros _. by split; cbn.
  - split; [|by eapply log_same]. split; cbn; rewrite ?Hw, <- ?Hb; try done.
Qed.
Lemma core_effect o e : core_inv o -> core_inv (effect e o).
Proof. intros [Hb Hf Hc Hp He]. by split. Qed.
Lemma receive_handle value o : on_handle (receive_invitation value o) = on_handle o.
Proof. unfold receive_invitation. destruct (on_working o); [done|]. by destruct (InvitationLink_parse value). Qed.
Lemma show_inv o invitation : on_handle o = true -> win_inv o -> win_inv (OnboardingWindow_show invitation o).
Proof.
  intros Hh Hinv. unfold OnboardingWindow_show.
  assert (Hi : win_inv match invitation with Some value => receive_invitation value o | None => o end).
  { destruct invitation; [by apply link_inv|done]. }
  split; [by apply core_effect, Hi|]. apply log_effect; [|by apply Hi|done..]. destruct invitation; [by rewrite receive_handle|done].
Qed.
Lemma preview_answered_inv o answer : on_handle o = true -> win_inv o -> on_task o = TaskPreview -> win_inv (preview_answered answer o).
Proof.
  intros Hh [Hcore Hlog] Ht. pose proof Hcore as [Hb Hf Hc Hp He]. apply settle_inv; [by destruct answer as [[]|]|].
  assert (Hstage : progressing (on_snapshot o) = false).
  { unfold progressing. by rewrite (Hp Ht), andb_false_r. }
  destruct answer as [[p|e]|]; (split; [|by eapply log_same]); split; cbn; try done; try (rewrite Hstage; done);
    intros E; by destruct (Hf E).
Qed.
(** Following, when the progress of a new snapshot is pending. *)
Lemma track_inv o : on_handle o = true -> log_inv o -> on_working o = false -> busy (on_task o) = false ->
  (on_forced o = true -> on_snapshot o = SetupSnapshot_invitation) ->
  (ss_stage (on_snapshot o) = StageComplete -> ss_access (on_snapshot o) = AccessComplete) -> win_inv (track_progress o).
Proof.
  intros Hh Hlog Hw Hb Hf Hc. unfold track_progress. destruct (pending (on_snapshot o) false) eqn:Ep.
  - request. intros _. split; cbn; try done. intros E. by rewrite (Hf E) in Ep.
  - split; [|done]. split; try done; [by rewrite Hb|intros E; split; [auto|by rewrite Hb]|by intros E; rewrite E in Hb|].
    by rewrite progressing_pending, Ep.
Qed.
Lemma apply_setup_inv o answer : on_handle o = true -> win_inv o -> on_task o = TaskSetup ->
  (forall endpoint setup, answer = Some (endpoint, setup) -> answer_from_agent setup) ->
  win_inv (apply_setup ((fun '(endpoint, setup) => read_setup endpoint setup) <$> answer) o).
Proof.
  intros Hh [Hcore Hlog] Ht Hans. pose proof Hcore as [Hb Hf Hc Hp He]. rewrite Ht in Hb. unfold apply_setup.
  apply settle_inv; [unfold track_progress; by destruct (pending _ _)|].
  apply track_inv; cbn; try done; [by eapply log_same|by intros ->|].
  destruct (on_forced o); [done|]. destruct answer as [[endpoint setup]|]; [|done]. cbn.
  specialize (Hans _ _ eq_refl). unfold read_setup. destruct endpoint as [e|e]; [|done].
  destruct setup as [s|e']; [|done]. by apply from_agent_complete.
Qed.
Lemma response_answered_inv o answer : on_handle o = true -> win_inv o -> on_task o = TaskResponse ->
  (forall r, answer = Some r -> answer_from_agent r) -> win_inv (apply_setup_response answer o).
Proof.
  intros Hh [Hcore Hlog] Ht Hans. pose proof Hcore as [Hb Hf Hc Hp He]. rewrite Ht in Hf.
  assert (Hforced : on_forced o = false).
  { destruct (on_forced o); [|done]. destruct (Hf eq_refl) as [_ Hx]. by specialize (Hx eq_refl). }
  unfold apply_setup_response. destruct answer as [[s|e]|].
  - apply settle_inv; [unfold track_progress; by destruct (pending _ _)|].
    apply track_inv; cbn; try done; [by eapply log_same|by rewrite Hforced|]. apply from_agent_complete. by specialize (Hans _ eq_refl).
  - apply settle_inv; [done|]. split; [|by eapply log_same]. split; cbn; eauto; try done. by rewrite Hforced.
  - apply settle_inv; [done|]. split; [|by eapply log_same]. split; cbn; eauto; try done. by rewrite Hforced.
Qed.
Lemma not_forced o t : core_inv o -> on_task o = t -> busy t = true -> t <> TaskPreview -> on_forced o = false.
Proof. intros [_ Hf _ _ _] Ht Hb Hn. destruct (on_forced o); [|done]. destruct (Hf eq_refl) as [_ Hx]. rewrite Ht in Hx. by specialize (Hx Hb). Qed.
Lemma restart_answered_inv o answer : on_handle o = true -> win_inv o -> on_task o = TaskRestart -> win_inv (restart_answered answer o).
Proof.
  intros Hh [Hcore Hlog] Ht. pose proof (not_forced _ _ Hcore Ht eq_refl ltac:(done)) as Hforced.
  pose proof Hcore as [Hb Hf Hc Hp He]. rewrite Ht in Hb. unfold restart_answered. destruct answer as [[u|e]|].
  - request. intros _. split; cbn; try done; by rewrite ?Hforced, ?Hb.
  - split; [|by eapply log_same]. split; cbn; eauto; try done. by rewrite Hforced.
  - split; [|by eapply log_same]. split; cbn; eauto; try done. by rewrite Hforced.
Qed.
Lemma follow_update_inv o mode update : on_handle o = true -> win_inv o -> on_task o = TaskFollow mode false ->
  answer_from_agent update -> win_inv (follow_update mode update o).
Proof.
  intros Hh [Hcore Hlog] Ht Hans. pose proof (not_forced _ _ Hcore Ht eq_refl ltac:(done)) as Hforced.
  pose proof Hcore as [Hb Hf Hc Hp He]. unfold follow_update. apply settle_inv; [by destruct update|].
  destruct update as [s|e]; (split; [|by eapply log_same]); split; cbn; eauto; try done; unfold busy, outstanding, reads_setup;
    rewrite ?andb_true_r, ?negb_involutive; try done; try by rewrite Hforced.
  - by apply from_agent_complete.
  - intros Hprog. by rewrite (pending_progressing _ (after_restart mode) Hprog).
Qed.
Lemma follow_ended_inv o mode d : win_inv o -> on_task o = TaskFollow mode d -> win_inv (follow_ended o).
Proof.
  intros [Hcore Hlog] Ht. pose proof Hcore as [Hb Hf Hc Hp He]. unfold follow_ended. cbn.
  destruct (on_working o) eqn:Hw; (split; [|by eapply log_same]); split; cbn; eauto; try done; intros E; by destruct (Hf E).
Qed.
Lemma step_inv o o' : win_inv o -> alive_step o o' -> win_inv o'.
Proof.
  intros Hinv [Hh Hstep]. pose proof Hinv as [Hcore Hlog]. pose proof Hcore as [Hb Hf Hc Hp He]. destruct Hstep.
  - by apply act_inv.
  - unfold press_enter. destruct (on_working o); [done|]. destruct (on_preview o); cbn; [by apply begin_inv|by apply preview_inv].
  - split; [by split|by eapply log_same].
  - split; [by split|by eapply log_same].
  - by apply show_inv.
  - split; [by apply core_effect|by apply log_effect].
  - by apply preview_answered_inv.
  - by apply apply_setup_inv.
  - by apply response_answered_inv.
  - by apply restart_answered_inv.
  - by apply follow_update_inv.
  - by eapply follow_ended_inv.
Qed.
Lemma window_reachable_inv o : reachable o -> win_inv o.
Proof.
  intros [invitation Hsteps]. remember (Onboarding_new invitation) as o0 eqn:E. assert (Hinv : win_inv o0) by (subst; apply window_inv_new).
  clear E. induction Hsteps as [|o1 o2 o3 Hstep _ IH]; [done|]. by apply IH, (step_inv o1).
Qed.

Lemma never_stranded o : core_inv o -> blocking o = true -> on_working o = false -> field_offered o = true \/ exists a, offered o a = true.
Proof.
  intros [Hb Hf Hc Hp He] Hblock Hw. unfold blocking in Hblock. destruct (on_forced o).
  { destruct (Hf eq_refl) as [Hs _]. left. unfold field_offered, required, at_stage. by rewrite Hs, Hw. }
  apply bool_decide_eq_true in Hblock. unfold progressing in He. rewrite (bool_decide_eq_true_2 _ Hblock) in He. rewrite Hw in He.
  destruct (ss_restart_required (on_snapshot o)) eqn:Er.
  { right. exists ActRestartAgentService. unfold offered, required. by rewrite (bool_decide_eq_true_2 _ Hblock), Er, Hw. }
  destruct (ss_stage (on_snapshot o)) eqn:Es; cbn in He.
  - left. unfold field_offered, required, at_stage. by rewrite (bool_decide_eq_true_2 _ Hblock), Es, Hw.
  - right. exists ActRetryConnection. destruct (He eq_refl eq_refl) as [m Hm].
    unfold offered, required, at_stage. by rewrite (bool_decide_eq_true_2 _ Hblock), Er, Es, Hw, Hm.
  - right. exists ActRetryConnection. destruct (He eq_refl eq_refl) as [m Hm].
    unfold offered, required, at_stage. by rewrite (bool_decide_eq_true_2 _ Hblock), Er, Es, Hw, Hm.
  - right. exists ActConfirmDevices. unfold offered, devices_offered, at_stage. by rewrite Er, Es, Hw.
  - right. exists ActStartOver. unfold offered, at_stage. by rewrite Es, Hw.
  - rewrite (Hc eq_refl) in Hblock. done.
Qed.

(** C35: The enrollment window stands between the operator and the devices exactly as long as it must.  In every state that
    the window reaches: the operations window was opened only with a setup that is not required any more, or whose state
    the Agent did not tell; the enrollment window closes only by handing over to it, and shows itself at most once, every
    other time because an enrollment link or the operator asked for it; it is working, and its buttons disabled, exactly
    while an answer is outstanding other than that of reading the setup, which happens when the window opens and when the
    operator checks again an Agent that did not tell its state; and while it blocks and is not working, it offers the
    operator something to do. *)
Theorem enrollment_window_is_sound o : reachable o ->
  (forall s, EfOpenOperations s ∈ on_effects o -> ss_access s <> AccessRequired) /\
  (on_handle o = false -> exists log s, on_effects o = (log ++ [EfOpenOperations s; EfCloseWindow])%list) /\
  (shows (on_effects o) <= 1)%nat /\
  on_working o = outstanding (on_task o) && negb (reads_setup (on_task o)) /\
  (blocking o = true -> on_working o = false -> field_offered o = true \/ exists a, offered o a = true).
Proof.
  intros Ho. apply window_reachable_inv in Ho as [Hcore [Hopens Hshows Hclosed]]. split_and!; [done|done| |by destruct Hcore|by apply never_stranded].
  destruct (on_revealed o); lia.
Qed.

(** ** Waiting ends *)
(** What the world answers to whatever the window waits for. *)
Record Answers := mkAnswers {
  an_preview : option (AgentClientResult EnrollmentPreview);
  an_response : option (AgentClientResult SetupSnapshot);
  an_restart : option (result SetupProgressError unit);
  an_follow : FollowWorld;
  an_start : instant;
}.
(** The updates of a follower, as long as there is a window to receive them. *)
Definition deliver (mode : SetupProgressMode) (updates : list ProgressUpdate) (o : Onboarding) : Onboarding :=
  foldl (fun o u => if on_handle o then follow_update mode u o else o) o updates.
Definition answered (an : Answers) (o : Onboarding) : Onboarding :=
  if negb (on_handle o) then o else
  match on_task o with
  | TaskPreview => preview_answered (an_preview an) o
  | TaskResponse => apply_setup_response (an_response an) o
  | TaskRestart => restart_answered (an_restart an) o
  | TaskFollow mode false =>
      match follow (an_follow an) (after_restart mode) FOLLOW_TIMEOUT FOLLOW_INTERVAL (an_start an) with
      | Some updates => let o' := deliver mode updates o in if on_handle o' then follow_ended o' else o'
      | None => o
      end
  | _ => o
  end.
Record answers_from_agent (an : Answers) : Prop := {
  aa_response : forall r, an_response an = Some r -> answer_from_agent r;
  aa_follow : forall n took answer, fw_read (an_follow an) n = Some (took, answer) -> answer_from_agent answer;
  aa_fair : fair (an_follow an);
}.
(** The receiver of the updates stays until the follower is done. *)
Definition attended (w : FollowWorld) : Prop := (forall n, fw_taken w n = true) /\ (forall n, fw_closed w n = false).

Lemma follow_updates_from_agent w after interval deadline fuel n now updates :
  (forall n took answer, fw_read w n = Some (took, answer) -> answer_from_agent answer) ->
  follow_loop w after interval deadline fuel n now = Some updates -> Forall answer_from_agent updates.
Proof.
  intros Hw. revert n now updates. induction fuel as [|fuel IH]; intros n now updates; [done|]. cbn [follow_loop].
  assert (Hturn : Forall answer_from_agent (fst (follow_turn w after interval deadline n now))).
  { unfold follow_turn, sent. destruct (fw_read w n) as [[took answer]|] eqn:Er; [apply Hw in Er|];
      repeat case_match; simplify_eq; by repeat constructor. }
  destruct (follow_turn w after interval deadline n now) as [us [at_|]]; cbn in Hturn; [|by intros [= <-]].
  destruct (follow_loop w after interval deadline fuel (S n) at_) as [rest|] eqn:E; [|done]. intros [= <-].
  apply Forall_app. split; [done|]. by eapply IH.
Qed.
Lemma follow_ends w after start : fair w -> is_Some (follow w after FOLLOW_TIMEOUT FOLLOW_INTERVAL start).
Proof.
  intros Hfair. unfold follow. apply follow_loop_ends; [done|done|]. unfold follow_fuel, FOLLOW_TIMEOUT, FOLLOW_INTERVAL.
  replace (start + seconds 90 - start + seconds 1 - 1) with (seconds 90 + seconds 1 - 1) by lia. vm_compute. lia.
Qed.
(** An attended follower ends with an update that leaves nothing pending. *)
Lemma follow_attended w after interval deadline fuel n now updates : attended w ->
  follow_loop w after interval deadline fuel n now = Some updates ->
  exists us u, updates = (us ++ [u])%list /\ goes_on after u = false.
Proof.
  intros [Htaken Hclosed]. revert n now updates. induction fuel as [|fuel IH]; intros n now updates; [done|]. cbn [follow_loop].
  destruct (follow_turn w after interval deadline n now) as [us [at_|]] eqn:Et.
  - destruct (follow_loop w after interval deadline fuel (S n) at_) as [rest|] eqn:E; [|done]. intros [= <-].
    apply IH in E as (us' & u & -> & Hu). exists (us ++ us')%list, u. by rewrite <- app_assoc.
  - intros [= <-]. unfold follow_turn, sent in Et. rewrite Htaken, Hclosed in Et. exists [].
    repeat case_match; simplify_eq; eexists; (split; [reflexivity|]); cbn; try done.
    by destruct (pending _ _).
Qed.

Lemma settle_task o : on_task (settle o) = on_task o.
Proof. unfold settle. by repeat case_match. Qed.
Lemma follow_update_task mode u o : on_task (follow_update mode u o) = TaskFollow mode (negb (goes_on (after_restart mode) u)).
Proof. unfold follow_update. rewrite settle_task. by destruct u. Qed.
Lemma deliver_dead mode updates o : on_handle o = false -> deliver mode updates o = o.
Proof. intros Hh. induction updates as [|u updates IH]; [done|]. cbn. by rewrite Hh. Qed.
(** The updates of a follower are steps of the window, and it still waits for the follower after them. *)
Lemma deliver_steps mode updates o : on_task o = TaskFollow mode false -> Forall answer_from_agent updates ->
  Forall (fun u => goes_on (after_restart mode) u = true) (removelast updates) ->
  rtc alive_step o (deliver mode updates o) /\ exists d, on_task (deliver mode updates o) = TaskFollow mode d.
Proof.
  revert o. induction updates as [|u updates IH]; intros o Ht Hans Hgo; [by split; [|eexists]|].
  destruct (on_handle o) eqn:Hh; [|rewrite deliver_dead by done; by split; [|eexists]].
  apply Forall_cons_1 in Hans as [Hu Hans]. cbn [deliver foldl]. rewrite Hh.
  assert (Hstep : alive_step o (follow_update mode u o)) by (split; [done|by constructor]).
  destruct updates as [|u' updates].
  - split; [by apply rtc_once|]. cbn. rewrite follow_update_task. by eexists.
  - apply Forall_cons_1 in Hgo as [Hg Hgo].
    destruct (IH (follow_update mode u o)) as [Hrtc Htask]; [by rewrite follow_update_task, Hg|done|done|].
    split; [by eapply rtc_l|done].
Qed.
Lemma answered_steps an o : answers_from_agent an -> rtc alive_step o (answered an o) /\
  (on_handle (answered an o) = true -> busy (on_task (answered an o)) = true ->
   (exists mode, on_task (answered an o) = TaskFollow mode false) /\ forall mode, on_task o <> TaskFollow mode false).
Proof.
  intros [Hresp Hread Hfair]. unfold answered. destruct (on_handle o) eqn:Hh; cbn [negb]; [|rewrite Hh; by split].
  destruct (on_task o) as [| | | | |mode []] eqn:Ht; try (by rewrite Ht; split).
  - split; [apply rtc_once; split; [done|by constructor]|]. unfold preview_answered. rewrite settle_task. by destruct (an_preview an) as [[]|].
  - split; [apply rtc_once; split; [done|by constructor]|]. unfold apply_setup_response. rewrite settle_task.
    destruct (an_response an) as [[s|e]|]; cbn; try done. unfold track_progress. destruct (pending _ _); cbn; [|done]. by split; [exists ModeObserve|].
  - split; [apply rtc_once; split; [done|by constructor]|]. unfold restart_answered.
    destruct (an_restart an) as [[[]|e]|]; cbn; try done. by split; [exists ModeAfterRestart|].
  - destruct (follow_ends (an_follow an) (after_restart mode) (an_start an) Hfair) as [updates E]. rewrite E. unfold follow in E.
    pose proof (follow_updates_from_agent _ _ _ _ _ _ _ _ Hread E) as Hans.
    pose proof (follow_loop_shape _ _ _ _ Hfair _ _ _ _ E) as Hgo.
    destruct (deliver_steps mode updates o Ht Hans Hgo) as [Hrtc [d Hd]]. cbn zeta.
    destruct (on_handle (deliver mode updates o)) eqn:Hh'; [|by rewrite Hh'].
    split; [eapply rtc_r; [exact Hrtc|]; split; [done|]; by eapply step_follow_end|].
    unfold follow_ended. cbn. by destruct (on_working (deliver mode updates o)).
Qed.
Lemma rtc_reachable o o' : reachable o -> rtc alive_step o o' -> reachable o'.
Proof. intros [i Hi] Hs. exists i. by etrans. Qed.
Lemma progress_message_not_stopped e r : (forall text, e <> ProgressService text) -> progress_message e r <> check_stopped.
Proof. destruct e as [[]|text|], r; intros Hs; try done; by destruct (Hs text). Qed.
Lemma answered_idle an o : busy (on_task o) = false -> answered an o = o.
Proof. unfold answered. destruct (on_handle o); [|done]. cbn. by destruct (on_task o) as [| | | | |mode []]. Qed.
Lemma follow_no_service w after interval deadline fuel n now updates text :
  follow_loop w after interval deadline fuel n now = Some updates -> Err (ProgressService text) ∉ updates.
Proof.
  revert n now updates. induction fuel as [|fuel IH]; intros n now updates; [done|]. cbn [follow_loop].
  assert (Hturn : Err (ProgressService text) ∉ fst (follow_turn w after interval deadline n now)).
  { unfold follow_turn, sent. repeat case_match; simplify_eq; cbn; rewrite ?elem_of_cons, ?elem_of_nil; naive_solver. }
  destruct (follow_turn w after interval deadline n now) as [us [at_|]]; cbn in Hturn; [|by intros [= <-]].
  destruct (follow_loop w after interval deadline fuel (S n) at_) as [rest|] eqn:E; [|done]. intros [= <-].
  rewrite elem_of_app. intros [?|Hin]; [done|]. by eapply IH in Hin.
Qed.
Lemma settle_error o : on_error (settle o) = on_error o.
Proof. unfold settle. by repeat case_match. Qed.
Lemma settle_working o : on_working (settle o) = on_working o.
Proof. unfold settle. by repeat case_match. Qed.
(** An attended follower leaves its own message, or none. *)
Lemma attended_error an o mode : on_task o = TaskFollow mode false -> attended (an_follow an) -> fair (an_follow an) -> on_handle (answered an o) = true ->
  on_error (answered an o) <> Some check_stopped.
Proof.
  intros Ht Hatt Hfair. unfold answered. destruct (on_handle o) eqn:Hh; cbn [negb]; [|by rewrite Hh]. rewrite Ht.
  destruct (follow_ends (an_follow an) (after_restart mode) (an_start an) Hfair) as [updates E]. rewrite E. unfold follow in E. cbn zeta.
  destruct (follow_attended _ _ _ _ _ _ _ _ Hatt E) as (us & u & -> & Hu).
  assert (Hnot : forall text, u <> Err (ProgressService text)).
  { intros text ->. eapply follow_no_service in E. apply E. apply elem_of_app. right. by apply list_elem_of_singleton. }
  clear E. unfold deliver. rewrite foldl_app. cbn. set (o1 := foldl _ o us).
  destruct (on_handle o1) eqn:Hh1; [|rewrite ?Hh1; congruence].
  destruct (on_handle (follow_update mode u o1)) eqn:Hh2; [|rewrite ?Hh2; congruence].
  intros _. unfold follow_ended. cbn.
  assert (Hw : on_working (follow_update mode u o1) = false).
  { unfold follow_update. rewrite settle_working. by destruct u. }
  rewrite Hw. cbn. unfold follow_update. rewrite settle_error. destruct u as [s|e]; cbn; [done|].
  intros [= Hm]. eapply progress_message_not_stopped; [|exact Hm]. intros text ->. by eapply Hnot.
Qed.

(** Waiting for the Agent always ends.  Take any state of a window that is still there, and let the world answer what
    the window waits for, and once more if that answer makes it follow the Agent's progress; a follower reads once a second
    for at most 90 seconds, however slow reads, sends and timers are.  The answers are steps of the window, and after them
    it has either closed or is no longer working.  A follower whose updates are all received never leaves the message
    that the check stopped. *)
Theorem enrollment_waiting_ends o an an' : reachable o -> answers_from_agent an -> answers_from_agent an' ->
  let o' := answered an' (answered an o) in
  rtc alive_step o o' /\ reachable o' /\ (on_handle o' = true -> on_working o' = false) /\
  (forall mode, on_task o = TaskFollow mode false -> attended (an_follow an) -> on_handle (answered an o) = true ->
     on_error (answered an o) <> Some check_stopped).
Proof.
  intros Ho Han Han' o'. destruct (answered_steps an o Han) as [Hs1 Hb1], (answered_steps an' (answered an o) Han') as [Hs2 Hb2].
  fold o' in Hs2, Hb2. assert (Hs : rtc alive_step o o') by (by etrans). assert (Ho' : reachable o') by (by eapply rtc_reachable).
  split_and!; [done|done| |intros; by eapply attended_error; [| |apply Han|]].
  intros Hh. pose proof (window_reachable_inv _ Ho') as [[Hbusy _ _ _ _] _]. rewrite Hbusy. destruct (busy (on_task o')) eqn:Eb; [|done].
  destruct (Hb2 Hh eq_refl) as [_ Hnf]. destruct (on_handle (answered an o)) eqn:Hh1.
  - destruct (busy (on_task (answered an o))) eqn:Eb1.
    + destruct (Hb1 eq_refl eq_refl) as [[mode Hm] _]. by destruct (Hnf mode).
    + unfold o' in Eb. by rewrite (answered_idle _ _ Eb1), Eb1 in Eb.
  - unfold o' in Hh. unfold answered at 1 in Hh. rewrite Hh1 in Hh. cbn in Hh. congruence.
Qed.

(** ** The invitation that is used *)
(** Without an edit between the review and the connection, the reviewed invitation is the one that is used. *)
Lemma reviewed_invitation_is_used o invitation preview : on_working o = false -> InvitationLink_parse (on_input o) = Ok invitation ->
  let reviewed := preview_answered (Some (Ok preview)) (preview_invitation o) in
  blocking o = true -> on_handle o = true ->
  (exists log, on_effects (begin_setup reviewed) = (on_effects o ++ EfPreview invitation :: log ++ [EfBegin invitation])%list) /\
  on_input (begin_setup reviewed) = "".
Proof.
  intros Hw Hp. cbv zeta. unfold preview_invitation. rewrite Hw, Hp. intros Hblock Hh.
  unfold preview_answered. set (x := (load_invitation_preview _ _) <| on_task := _ |> <| on_working := _ |>).
  assert (Ex : settle (x <| on_preview := Some preview |>) =
               if on_revealed o then x <| on_preview := Some preview |>
               else effect EfShowWindow (x <| on_preview := Some preview |> <| on_revealed := true |>)).
  { unfold settle, x, blocking in *. cbn. rewrite Hblock, Hh. done. }
  rewrite Ex. unfold begin_setup, x. destruct (on_revealed o); cbn; rewrite Hp; cbn; (split; [|done]).
  - exists []. by rewrite <- app_assoc.
  - exists [EfShowWindow]. by rewrite <- !app_assoc.
Qed.
End Window.

(** ** Runs *)
Module Sample.
(** Links are their own text; what follows [#] is the fragment. *)
Fixpoint fragment (s : string) : option string :=
  match s with EmptyString => None | String c rest => if byte_is c 35 then Some rest else fragment rest end.
#[local] Instance sample_parts : UrlParts := {|
  url_scheme := fun s => if starts_with "inari://" s then "inari" else ""; url_host := fun _ => Some "setup"; url_path := fun _ => "/";
  url_username := fun _ => ""; url_password := fun _ => None; url_query := fun _ => None; url_fragment := fragment |}.
#[local] Instance sample_parse : UrlParse := fun s => Some s.
Definition preview_of (name : string) : EnrollmentPreview := mkPreview (Some name) "https://controller.example/" (minutes 10) true ["v1"].
Definition not_enrolled : StatusResponse := mkStatusResponse PhaseNotStarted "Connect this computer." None None None [].
Definition securing : StatusResponse := mkStatusResponse PhaseSecuringConnection "Securing." (Some true) None None [].
Definition snapshot_of (r : StatusResponse) : SetupSnapshot := match setup_snapshot r with Ok s => s | Err _ => SetupSnapshot_unavailable end.
Definition start : Onboarding := Onboarding_new None.
Definition asked : Onboarding := apply_setup (Some (read_setup (Ok "http://127.0.0.1:7310/") (setup_snapshot not_enrolled))) start.
Definition pasted (link : string) (o : Onboarding) : Onboarding := o <| on_input := link |>.
Definition known_pasted : Onboarding := pasted "inari://setup/known#code" asked.
Definition reviewed : Onboarding := preview_answered (Some (Ok (preview_of "Known"))) (preview_invitation known_pasted).
Lemma agent_answer r : answer_from_agent (setup_snapshot r).
Proof. destruct (setup_snapshot r) as [s|e] eqn:E; [by exists r|done]. Qed.
Lemma setup_answer e r (endpoint : AgentClientResult string) setup : Some (e, setup_snapshot r) = Some (endpoint, setup) -> answer_from_agent setup.
Proof. intros E. assert (setup = setup_snapshot r) as -> by congruence. apply agent_answer. Qed.
Lemma response_answer r setup : Some (setup_snapshot r) = Some setup -> answer_from_agent setup.
Proof. intros E. assert (setup = setup_snapshot r) as -> by congruence. apply agent_answer. Qed.
Definition other_pasted : Onboarding := pasted "inari://setup/other#code" reviewed.
Definition replaced : Onboarding := begin_setup other_pasted.
Lemma alive_action o a : on_handle o = true -> offered o a = true -> alive_step o (act a o).
Proof. intros Hh Ha. split; [done|by constructor]. Qed.
Lemma alive_type o text : on_handle o = true -> field_offered o = true -> alive_step o (pasted text o).
Proof. intros Hh Ha. split; [done|by constructor]. Qed.
Lemma steps_to_replaced : rtc alive_step start replaced.
Proof.
  apply rtc_l with asked.
  { split; [reflexivity|]. apply (step_setup start (Some (Ok "http://127.0.0.1:7310/", setup_snapshot not_enrolled))); [reflexivity|apply setup_answer]. }
  apply rtc_l with known_pasted; [apply alive_type; vm_compute; reflexivity|].
  apply rtc_l with (preview_invitation known_pasted); [apply (alive_action _ ActPreviewInvitation); vm_compute; reflexivity|].
  apply rtc_l with reviewed.
  { split; [vm_compute; reflexivity|]. apply (step_preview _ (Some (Ok (preview_of "Known")))). vm_compute. reflexivity. }
  apply rtc_l with other_pasted; [apply alive_type; vm_compute; reflexivity|].
  apply rtc_once. apply (alive_action _ ActBeginSetup); vm_compute; reflexivity.
Qed.
(** The field stays editable after the review, and the connection uses what the field holds: an invitation that was
    never reviewed is used, through controls that the window offers. *)
Lemma unreviewed_invitation_can_be_used :
  reachable replaced /\ EfBegin "inari://setup/other#code" ∈ on_effects replaced /\ EfPreview "inari://setup/other#code" ∉ on_effects replaced.
Proof.
  split; [exists None; apply steps_to_replaced|].
  assert (E : on_effects replaced = [EfReadSetup false; EfShowWindow; EfPreview "inari://setup/known#code"; EfBegin "inari://setup/other#code"])
    by (vm_compute; reflexivity).
  rewrite E. split; [set_solver|]. rewrite !elem_of_cons, elem_of_nil. naive_solver.
Qed.
(** The Agent needs a restart, then is done; reads take a tenth of a second. *)
Definition sample_world : FollowWorld := {|
  fw_read := fun n => Some (100000000, if (n <? 3)%nat then setup_snapshot securing else setup_snapshot not_enrolled);
  fw_send := fun _ => 0; fw_taken := fun _ => true; fw_closed := fun _ => false; fw_late := fun _ => 0 |}.
Definition sample_answers : Answers :=
  mkAnswers None (Some (setup_snapshot securing)) (Some (Ok tt)) sample_world 0.
Lemma sample_answers_ok : answers_from_agent sample_answers.
Proof.
  split.
  - apply response_answer.
  - unfold sample_answers, sample_world, an_follow, fw_read. intros n took answer E. destruct (n <? 3)%nat; [apply (setup_answer (Ok "") securing (Ok ""))|apply (setup_answer (Ok "") not_enrolled (Ok ""))]; congruence.
  - split; unfold sample_answers, sample_world, an_follow, fw_read, fw_send, fw_late; try done.
    intros n took answer E. assert (took = 100000000) as -> by congruence. done.
Qed.
Definition restart_needed : Onboarding := apply_setup_response (Some (setup_snapshot securing)) replaced.
Definition restarting : Onboarding := restart_agent_service restart_needed.
Lemma steps_to_restarting : reachable restarting.
Proof.
  exists None. eapply rtc_r; [eapply rtc_r; [apply steps_to_replaced|]|apply (alive_action restart_needed ActRestartAgentService); vm_compute; reflexivity].
  split; [vm_compute; reflexivity|]. apply (step_response _ (Some (setup_snapshot securing))); [vm_compute; reflexivity|apply response_answer].
Qed.
Lemma enrollment_window_is_sound_witness :
  on_handle restarting = true /\ on_working restarting = true /\ outstanding (on_task restarting) = true /\ (shows (on_effects restarting) <= 1)%nat.
Proof.
  pose proof (enrollment_window_is_sound restarting steps_to_restarting) as (_ & _ & Hshows & _).
  split; [vm_compute; reflexivity|]. split; [vm_compute; reflexivity|]. split; [vm_compute; reflexivity|exact Hshows].
Defined.
Lemma enrollment_waiting_ends_witness :
  let o' := answered sample_answers (answered sample_answers restarting) in
  on_handle o' = true /\ on_working o' = false /\ on_error o' = None.
Proof.
  pose proof (enrollment_waiting_ends restarting sample_answers sample_answers steps_to_restarting sample_answers_ok sample_answers_ok)
    as (_ & _ & Hw & _).
  split; [vm_compute; reflexivity|]. split; [apply Hw; vm_compute; reflexivity|vm_compute; reflexivity].
Defined.
End Sample.
