(* ===== verification/AgentRuntime.v ===== *)
(** * Device Center's connection to the Agent

    [crates/inari-device-center/src/infrastructure/runtime.rs]: the supervisor that keeps an event stream to the Agent
    open and publishes the connection, the print jobs and the live events, and the subscription through which a window
    receives them; and [crates/inari-agent-client/src/service.rs]: control of the Agent's system service.  A watch channel
    is its value with a version; a broadcast channel holds the last 128 values for its receiver. *)
From stdpp Require Import relations.
From S2P Require Import AdmissionController GatewayConfig.
From S2P Require Import Prelude AgentModel.

(** ** Channels *)
Record Watch (A : Type) := mkWatch { wt_value : A; wt_version : nat }.
Arguments mkWatch {_} _ _.
Arguments wt_value {_} _.
Arguments wt_version {_} _.
Definition send_replace {A} (value : A) (w : Watch A) : Watch A := mkWatch value (S (wt_version w)).
Definition send_if_modified {A} `{EqDecision A} (value : A) (w : Watch A) : Watch A :=
  if bool_decide (wt_value w = value) then w else mkWatch value (S (wt_version w)).
(** What a broadcast receiver still has to read, and how many values it missed. *)
Record Broadcast (A : Type) := mkBroadcast { bc_queue : list A; bc_missed : nat }.
Arguments mkBroadcast {_} _ _.
Arguments bc_queue {_} _.
Arguments bc_missed {_} _.
Definition BROADCAST_CAPACITY : nat := 128.
Definition broadcast_send {A} (value : A) (b : Broadcast A) : Broadcast A :=
  let queue := (bc_queue b ++ [value])%list in
  if (BROADCAST_CAPACITY <? length queue)%nat then mkBroadcast (drop 1 queue) (S (bc_missed b)) else mkBroadcast queue (bc_missed b).

#[global] Instance OutputEvidence_eq_dec : EqDecision OutputEvidence. Proof. solve_decision. Defined.
#[global] Instance PrintJobState_eq_dec : EqDecision PrintJobState. Proof. solve_decision. Defined.
#[global] Instance PrintJob_eq_dec : EqDecision PrintJob. Proof. solve_decision. Defined.

(** ** The supervisor *)
Inductive AgentConnection : Set := ConnectionChecking | ConnectionConnected | ConnectionReconnecting | ConnectionUnavailable.
#[global] Instance AgentConnection_eq_dec : EqDecision AgentConnection. Proof. solve_decision. Defined.
Inductive AgentRuntimeEvent : Type := RuntimeEvent (event : AgentEvent) | RuntimeActivation (invitation : option string).
(** What the supervisor waits for. *)
Inductive SupervisorPhase : Type := Connecting | Streaming | Sleeping (delay_ms : Z) | Stopped.
Record Supervisor := mkSupervisor {
  su_attempt : Z;
  su_phase : SupervisorPhase;
  su_connection : Watch AgentConnection;
  su_print_jobs : Watch (list PrintJob);
  su_updates : Broadcast AgentRuntimeEvent;
}.
#[global] Instance Supervisor_eta : Eta Supervisor := fun s =>
  mkSupervisor (su_attempt s) (su_phase s) (su_connection s) (su_print_jobs s) (su_updates s).
Definition runtime_new : Supervisor :=
  mkSupervisor 0 Connecting (mkWatch ConnectionChecking 0) (mkWatch [] 0) (mkBroadcast [] 0).
Definition u32_max : Z := 4294967295.
Definition u64_max : Z := 18446744073709551615.
Definition saturating_add (bound a b : Z) : Z := Z.min (a + b) bound.
Definition saturating_mul (bound a b : Z) : Z := Z.min (a * b) bound.
Definition backoff_base (attempt : Z) : Z := saturating_mul u64_max 250 (Z.shiftl 1 (Z.min attempt 5)).
(** The end of a turn of the loop: a pause that grows with the attempts; [jitter] is drawn from [0..=base / 3]. *)
Definition back_off (jitter : Z) (s : Supervisor) : Supervisor :=
  let attempt := saturating_add u32_max (su_attempt s) 1 in
  s <| su_attempt := attempt |> <| su_phase := Sleeping (Z.min (backoff_base attempt + jitter) 10000) |>.
Definition jitter_ok (jitter : Z) (s : Supervisor) : bool :=
  (0 <=? jitter) && (jitter <=? backoff_base (saturating_add u32_max (su_attempt s) 1) / 3).
Definition publish (connection : AgentConnection) (s : Supervisor) : Supervisor :=
  s <| su_connection := send_replace connection (su_connection s) |>.
Definition connected (s : Supervisor) : Supervisor := publish ConnectionConnected (s <| su_attempt := 0 |>) <| su_phase := Streaming |>.
Definition connect_failed (jitter : Z) (s : Supervisor) : Supervisor :=
  back_off jitter (publish (if su_attempt s =? 0 then ConnectionUnavailable else ConnectionReconnecting) s).
Definition received (update : AgentMonitorUpdate) (s : Supervisor) : Supervisor :=
  let s := s <| su_print_jobs := send_if_modified (mu_print_jobs update) (su_print_jobs s) |> in
  match mu_event update with
  | Some event => s <| su_updates := broadcast_send (RuntimeEvent event) (su_updates s) |>
  | None => s
  end.
Definition stream_lost (jitter : Z) (s : Supervisor) : Supervisor := back_off jitter (publish ConnectionReconnecting s).
(** [serve_activations], on Windows: the first byte tells a plain start from a link, which must be UTF-8. *)
Definition activation (utf8 : list ascii -> option string) (bytes : list ascii) : option (option string) :=
  match bytes with
  | c :: invitation => if byte_is c 0 then Some None
                       else if byte_is c 1 then match utf8 invitation with Some value => Some (Some value) | None => None end
                       else None
  | [] => None
  end.
Definition activated (invitation : option string) (s : Supervisor) : Supervisor :=
  s <| su_updates := broadcast_send (RuntimeActivation invitation) (su_updates s) |>.
Inductive supervisor_step (s : Supervisor) : Supervisor -> Prop :=
| sv_connected : su_phase s = Connecting -> supervisor_step s (connected s)
| sv_connect_failed jitter : su_phase s = Connecting -> jitter_ok jitter s = true -> supervisor_step s (connect_failed jitter s)
| sv_received item update : su_phase s = Streaming -> AgentEventStream_next item = Ok (Some update) -> supervisor_step s (received update s)
| sv_stream_lost item jitter : su_phase s = Streaming -> (forall update, AgentEventStream_next item <> Ok (Some update)) ->
    jitter_ok jitter (s <| su_connection := send_replace ConnectionReconnecting (su_connection s) |>) = true ->
    supervisor_step s (stream_lost jitter s)
| sv_awake delay : su_phase s = Sleeping delay -> supervisor_step s (s <| su_phase := Connecting |>)
| sv_cancelled : supervisor_step s (s <| su_phase := Stopped |>)
| sv_activated utf8 bytes invitation : activation utf8 bytes = Some invitation -> supervisor_step s (activated invitation s).

(** ** The subscription *)
Record Subscription := mkSubscription {
  sb_connection_seen : nat; sb_initial_connection_pending : bool; sb_print_jobs_seen : nat; sb_initial_print_jobs_pending : bool }.
#[global] Instance Subscription_eta : Eta Subscription := fun s => mkSubscription (sb_connection_seen s) (sb_initial_connection_pending s)
  (sb_print_jobs_seen s) (sb_initial_print_jobs_pending s).
(** The receiver of events starts with what is sent from now on. *)
Definition subscribe (s : Supervisor) : Supervisor * Subscription :=
  (s <| su_updates := mkBroadcast [] 0 |>,
   mkSubscription (wt_version (su_connection s)) true (wt_version (su_print_jobs s)) (negb (bool_decide (wt_value (su_print_jobs s) = [])))).
Inductive AgentRuntimeUpdate : Type :=
| UpdateConnection (connection : AgentConnection)
| UpdatePrintJobs (jobs : list PrintJob)
| UpdateEvent (event : AgentEvent)
| UpdateActivation (invitation : option string)
| UpdateLagged.
(** [recv], when something is ready: the choice is biased towards the connection, then the print jobs. *)
Definition recv (s : Supervisor) (b : Subscription) : option (AgentRuntimeUpdate * Supervisor * Subscription) :=
  let connection (b : Subscription) :=
    Some (UpdateConnection (wt_value (su_connection s)), s, b <| sb_connection_seen := wt_version (su_connection s) |>) in
  let print_jobs (b : Subscription) :=
    Some (UpdatePrintJobs (wt_value (su_print_jobs s)), s, b <| sb_print_jobs_seen := wt_version (su_print_jobs s) |>) in
  if sb_initial_connection_pending b then connection (b <| sb_initial_connection_pending := false |>)
  else if sb_initial_print_jobs_pending b then print_jobs (b <| sb_initial_print_jobs_pending := false |>)
  else if negb (bool_decide (sb_connection_seen b = wt_version (su_connection s))) then connection b
  else if negb (bool_decide (sb_print_jobs_seen b = wt_version (su_print_jobs s))) then print_jobs b
  else if (0 <? bc_missed (su_updates s))%nat then
    Some (UpdateLagged, s <| su_updates := mkBroadcast (bc_queue (su_updates s)) 0 |>, b)
  else match bc_queue (su_updates s) with
       | RuntimeEvent event :: rest => Some (UpdateEvent event, s <| su_updates := mkBroadcast rest 0 |>, b)
       | RuntimeActivation invitation :: rest => Some (UpdateActivation invitation, s <| su_updates := mkBroadcast rest 0 |>, b)
       | [] => None
       end.

(** ** What the supervisor keeps *)
Definition streaming (p : SupervisorPhase) : bool := match p with Streaming => true | _ => false end.
Record supervisor_inv (s : Supervisor) : Prop := {
  sp_attempt : 0 <= su_attempt s <= u32_max;
  sp_connected : wt_value (su_connection s) = ConnectionConnected -> su_phase s <> Stopped -> su_phase s = Streaming;
  sp_streaming : su_phase s = Streaming -> wt_value (su_connection s) = ConnectionConnected;
  sp_checking : wt_value (su_connection s) = ConnectionChecking -> wt_version (su_connection s) = 0%nat;
  sp_sleep : forall delay, su_phase s = Sleeping delay -> 500 <= delay <= 10000;
  sp_queue : (length (bc_queue (su_updates s)) <= BROADCAST_CAPACITY)%nat;
}.
Lemma backoff_base_bounds attempt : 1 <= attempt -> 500 <= backoff_base attempt <= 8000.
Proof.
  intros Ha. unfold backoff_base, saturating_mul, u64_max. rewrite Z.shiftl_1_l.
  assert (2 ^ 1 <= 2 ^ Z.min attempt 5 <= 2 ^ 5) by (split; apply Z.pow_le_mono_r; lia). lia.
Qed.
Lemma broadcast_send_bound {A} (v : A) b : (length (bc_queue b) <= BROADCAST_CAPACITY)%nat ->
  (length (bc_queue (broadcast_send v b)) <= BROADCAST_CAPACITY)%nat.
Proof.
  intros Hb. unfold broadcast_send. destruct (Nat.ltb_spec BROADCAST_CAPACITY (length (bc_queue b ++ [v])%list)) as [Hlt|Hle]; cbn; [|done].
  rewrite length_skipn, length_app in *. cbn. unfold BROADCAST_CAPACITY in *. lia.
Qed.
Lemma back_off_inv s jitter : 0 <= su_attempt s <= u32_max -> wt_value (su_connection s) <> ConnectionConnected ->
  (wt_value (su_connection s) = ConnectionChecking -> wt_version (su_connection s) = 0%nat) ->
  (length (bc_queue (su_updates s)) <= BROADCAST_CAPACITY)%nat -> jitter_ok jitter s = true -> supervisor_inv (back_off jitter s).
Proof.
  intros Ha Hc Hk Hq Hj. unfold jitter_ok in Hj. apply andb_true_iff in Hj as [Hj0 Hj1]. apply Z.leb_le in Hj0, Hj1.
  unfold back_off, saturating_add in *.
  assert (Hat : 1 <= Z.min (su_attempt s + 1) u32_max) by (unfold u32_max in *; lia).
  pose proof (backoff_base_bounds _ Hat). split; cbn; try done; [lia|]. intros delay [= <-]. lia.
Qed.
Lemma supervisor_step_inv s s' : supervisor_inv s -> supervisor_step s s' -> supervisor_inv s'.
Proof.
  intros [Ha Hc Hs Hk Hsl Hq] Hstep. destruct Hstep.
  - split; cbn; try done.
  - apply back_off_inv; cbn; try done; by destruct (su_attempt s =? 0).
  - unfold received. destruct (mu_event update); split; cbn; auto. by apply broadcast_send_bound.
  - by apply back_off_inv.
  - split; cbn; try done. intros E _. by rewrite (Hc E) in H; [|by rewrite H].
  - split; cbn; try done.
  - split; cbn; auto. by apply broadcast_send_bound.
Qed.
Lemma runtime_new_inv : supervisor_inv runtime_new.
Proof. split; cbn; try done. unfold BROADCAST_CAPACITY. lia. Qed.

(** ** The Agent's system service *)
Inductive ServiceState : Set := ServiceChecking | ServiceStarting | ServiceRunning | ServiceStopped | ServiceNotInstalled | ServiceUnavailable.
#[global] Instance ServiceState_eq_dec : EqDecision ServiceState. Proof. solve_decision. Defined.
Inductive ServiceOperation : Set := ServiceInspect | ServiceStart | ServiceStop | ServiceRestart.
Inductive ServiceControlError : Type :=
| ServiceInProgress
| ServiceManagerUnavailable
| ServiceManager (source : string)
| ServiceOperationFailed (operation : ServiceOperation) (source : string)
| ServiceUnexpectedState
| ServiceTimedOut
| ServiceWorker (source : string).
Definition operation_name (o : ServiceOperation) : string :=
  match o with ServiceInspect => "inspect" | ServiceStart => "start" | ServiceStop => "stop" | ServiceRestart => "restart" end.
Definition ServiceControlError_to_string (e : ServiceControlError) : string :=
  match e with
  | ServiceInProgress => "An Agent service operation is already in progress. Wait, then try again."
  | ServiceManagerUnavailable => "the native service manager is unavailable"
  | ServiceManager _ => "could not access the native service manager"
  | ServiceOperationFailed operation _ => "could not " ++ operation_name operation ++ " the agent service"
  | ServiceUnexpectedState => "the agent service changed state while the request was running"
  | ServiceTimedOut => "the Agent service did not finish its state change within 30 seconds"
  | ServiceWorker _ => "the service operation ended unexpectedly"
  end.
(** What the native manager answers to the n-th call, and how long each call and each pause takes beyond its time. *)
Inductive ServiceCall : Type := CallManager | CallStatus (answer : result string ServiceState) | CallStart (answer : result string unit) | CallStop (answer : result string unit).
Record ServiceWorld := mkServiceWorld {
  wn_native : nat -> result string bool;
  wn_status : nat -> result string ServiceState;
  wn_start : nat -> result string unit;
  wn_stop : nat -> result string unit;
  wn_took : nat -> Z;
  wn_late : nat -> Z;
}.
Record ServiceRun := mkServiceRun { sn_now : instant; sn_calls : list ServiceCall }.
(** [None]: the fuel of a loop ran out. *)
Definition SM (A : Type) : Type := ServiceRun -> option (result ServiceControlError A * ServiceRun).
#[global] Instance SM_ret : MRet SM := fun _ a r => Some (Ok a, r).
#[global] Instance SM_bind : MBind SM := fun _ _ f m r =>
  match m r with Some (Ok a, r') => f a r' | Some (Err e, r') => Some (Err e, r') | None => None end.

Section Service.
Variable world : ServiceWorld.
Definition call {A} (answers : nat -> A) (c : A -> ServiceCall) : SM A := fun r =>
  let n := length (sn_calls r) in
  Some (Ok (answers n), mkServiceRun (sn_now r + wn_took world n) (sn_calls r ++ [c (answers n)])%list).
Definition fails {A} (answer : result string A) (e : string -> ServiceControlError) : SM A := fun r =>
  Some (match answer with Ok a => Ok a | Err text => Err (e text) end, r).
Definition refuse {A} (e : ServiceControlError) : SM A := fun r => Some (Err e, r).
Definition manager : SM unit :=
  native ← call (wn_native world) (fun _ => CallManager);
  available ← fails native ServiceManager;
  if (available : bool) then mret tt else refuse ServiceManagerUnavailable.
Definition inspect_with : SM ServiceState :=
  status ← call (wn_status world) CallStatus;
  fails status (ServiceOperationFailed ServiceInspect).
Definition manager_start (operation : ServiceOperation) : SM unit :=
  answer ← call (wn_start world) CallStart;
  fails answer (ServiceOperationFailed operation).
Definition manager_stop (operation : ServiceOperation) : SM unit :=
  answer ← call (wn_stop world) CallStop;
  fails answer (ServiceOperationFailed operation).
Definition WAIT_STEP : Z := 100000000.
(** [thread::sleep] until the step has passed or the deadline is reached. *)
Definition pause (deadline : instant) : SM unit := fun r =>
  let now := sn_now r in
  Some (Ok tt, mkServiceRun (now + Z.min WAIT_STEP (Z.max (deadline - now) 0) + wn_late world (length (sn_calls r))) (sn_calls r)).
Fixpoint wait_loop (fuel : nat) (expected : ServiceState) (deadline : instant) : SM ServiceState :=
  match fuel with
  | O => fun _ => None
  | S fuel' =>
      state ← inspect_with;
      if bool_decide (state = expected) then mret state
      else if bool_decide (state = ServiceNotInstalled) || bool_decide (state = ServiceUnavailable) then refuse ServiceUnexpectedState
      else fun r => if deadline <=? sn_now r then Some (Err ServiceTimedOut, r)
                    else (mbind (M:=SM) (fun _ => wait_loop fuel' expected deadline) (pause deadline)) r
  end.
Definition wait_fuel (timeout : Z) : nat := (Z.to_nat (timeout / WAIT_STEP) + 2)%nat.
Definition wait_for_state (expected : ServiceState) (timeout : Z) : SM ServiceState := fun r =>
  wait_loop (wait_fuel timeout) expected (sn_now r + timeout) r.
Definition SERVICE_TIMEOUT : Z := seconds 30.
Definition service_start : SM ServiceState :=
  _ ← manager; _ ← manager_start ServiceStart; wait_for_state ServiceRunning SERVICE_TIMEOUT.
Definition service_stop : SM ServiceState :=
  _ ← manager; _ ← manager_stop ServiceStop; wait_for_state ServiceStopped SERVICE_TIMEOUT.
Definition service_restart : SM ServiceState :=
  _ ← manager;
  state ← inspect_with;
  let start : SM ServiceState := _ ← manager_start ServiceRestart; wait_for_state ServiceRunning SERVICE_TIMEOUT in
  match state with
  | ServiceRunning => _ ← manager_stop ServiceRestart; _ ← wait_for_state ServiceStopped SERVICE_TIMEOUT; start
  | ServiceStopped => start
  | ServiceNotInstalled => mret ServiceNotInstalled
  | ServiceChecking | ServiceStarting | ServiceUnavailable => refuse ServiceUnexpectedState
  end.
Definition service_state : SM ServiceState := _ ← manager; inspect_with.
(** [control]: one operation at a time. *)
Definition control (in_progress : bool) (operation : SM ServiceState) : SM ServiceState :=
  if in_progress then refuse ServiceInProgress else operation.
(** [restart_setup] of the runtime, where the Agent does not restart itself. *)
Definition restart_for_setup (in_progress : bool) : SM unit :=
  state ← control in_progress service_restart;
  if bool_decide (state = ServiceRunning) then mret tt else refuse ServiceUnexpectedState.

(** *** Every operation ends *)
Definition patient : Prop := (forall n, 0 <= wn_took world n) /\ (forall n, 0 <= wn_late world n).
Definition returns_always {A} (m : SM A) : Prop := forall r, is_Some (m r).
Lemma bind_returns {A B} (m : SM A) (f : A -> SM B) : returns_always m -> (forall a, returns_always (f a)) -> returns_always (m ≫= f).
Proof. intros Hm Hf r. destruct (Hm r) as [[[a|e] r'] E]; unfold mbind, SM_bind; rewrite E; [apply Hf|done]. Qed.
Lemma call_returns {A} (answers : nat -> A) c : returns_always (call answers c).
Proof. intros r. done. Qed.
Lemma fails_returns {A} (x : result string A) e : returns_always (fails x e).
Proof. intros r. done. Qed.
Lemma inspect_with_time r x r' : patient -> inspect_with r = Some (x, r') -> sn_now r <= sn_now r'.
Proof. intros [Ht _] E. unfold inspect_with, mbind, SM_bind, call, fails in E. cbn in E. injection E as _ <-. cbn. specialize (Ht (length (sn_calls r))). lia. Qed.
Lemma wait_loop_returns fuel expected deadline r : patient ->
  (Z.to_nat ((deadline - sn_now r + WAIT_STEP - 1) / WAIT_STEP) < fuel)%nat -> is_Some (wait_loop fuel expected deadline r).
Proof.
  intros Hp. pose proof Hp as [Ht Hl]. revert r. induction fuel as [|fuel IH]; intros r Hfuel; [lia|]. cbn [wait_loop].
  unfold mbind at 1, SM_bind at 1.
  destruct (inspect_with r) as [[[state|e] r1]|] eqn:Ei; [|done|by unfold inspect_with, mbind, SM_bind, call, fails in Ei].
  apply (inspect_with_time _ _ _ Hp) in Ei. destruct (bool_decide (state = expected)); [done|]. destruct (_ || _); [done|].
  destruct (Z.leb_spec deadline (sn_now r1)) as [|Hnow]; [done|]. unfold mbind, SM_bind, pause. apply IH. cbn.
  pose proof (Hl (length (sn_calls r1))). set (step := Z.min _ _). set (late := wn_late _ _) in *.
  assert (Hpos : 0 < (deadline - sn_now r + WAIT_STEP - 1) / WAIT_STEP) by (apply Z.div_str_pos; unfold WAIT_STEP; lia).
  assert (Hstep : step = WAIT_STEP \/ sn_now r1 + step = deadline) by (unfold step, WAIT_STEP; lia).
  assert (Hle : (deadline - (sn_now r1 + step + late) + WAIT_STEP - 1) / WAIT_STEP <= (deadline - sn_now r + WAIT_STEP - 1) / WAIT_STEP - 1); [|lia].
  destruct Hstep as [->|Hd].
  - replace ((deadline - sn_now r + WAIT_STEP - 1) / WAIT_STEP - 1) with ((deadline - sn_now r - 1) / WAIT_STEP).
    + apply Z.div_le_mono; unfold WAIT_STEP; lia.
    + replace (deadline - sn_now r + WAIT_STEP - 1) with (deadline - sn_now r - 1 + 1 * WAIT_STEP) by lia. rewrite Z.div_add; [lia|done].
  - assert ((deadline - (sn_now r1 + step + late) + WAIT_STEP - 1) / WAIT_STEP <= 0); [|lia].
    replace (deadline - (sn_now r1 + step + late) + WAIT_STEP - 1) with (WAIT_STEP - 1 - late) by lia.
    transitivity ((WAIT_STEP - 1) / WAIT_STEP); [apply Z.div_le_mono; unfold WAIT_STEP; lia|done].
Qed.
Lemma wait_for_state_returns expected : patient -> returns_always (wait_for_state expected SERVICE_TIMEOUT).
Proof.
  intros Hp r. apply wait_loop_returns; [done|]. unfold wait_fuel.
  replace (sn_now r + SERVICE_TIMEOUT - sn_now r + WAIT_STEP - 1) with (SERVICE_TIMEOUT + WAIT_STEP - 1) by lia. vm_compute. lia.
Qed.
Lemma manager_returns : returns_always manager.
Proof. apply bind_returns; [apply call_returns|]. intros native. apply bind_returns; [apply fails_returns|]. by intros [] r. Qed.
Lemma inspect_with_returns : returns_always inspect_with.
Proof. apply bind_returns; [apply call_returns|]. intros status. apply fails_returns. Qed.
Lemma manager_start_returns o : returns_always (manager_start o).
Proof. apply bind_returns; [apply call_returns|]. intros a. apply fails_returns. Qed.
Lemma manager_stop_returns o : returns_always (manager_stop o).
Proof. apply bind_returns; [apply call_returns|]. intros a. apply fails_returns. Qed.

Lemma SM_bind_Ok {A B} (m : SM A) (f : A -> SM B) r b r' : (m ≫= f) r = Some (Ok b, r') ->
  exists a r1, m r = Some (Ok a, r1) /\ f a r1 = Some (Ok b, r').
Proof. unfold mbind, SM_bind. destruct (m r) as [[[a|e] r1]|]; naive_solver. Qed.
Definition is_status (c : ServiceCall) : bool := match c with CallStatus _ => true | _ => false end.
Lemma asked_log {A} (answers : nat -> result string A) (c : result string A -> ServiceCall) e r a r' :
  (answer ← call answers c; fails answer e) r = Some (Ok a, r') -> sn_calls r' = (sn_calls r ++ [c (Ok a)])%list.
Proof. unfold mbind, SM_bind, call, fails. cbn. destruct (answers (length (sn_calls r))) as [x|text] eqn:Ea; [|done]. by intros [= <- <-]. Qed.
(** A wait that succeeds looked at the state and saw the expected one last. *)
Lemma wait_loop_log fuel expected deadline r s r' : wait_loop fuel expected deadline r = Some (Ok s, r') ->
  s = expected /\ exists looks, sn_calls r' = (sn_calls r ++ looks ++ [CallStatus (Ok expected)])%list /\ Forall (fun c => is_status c = true) looks.
Proof.
  revert r. induction fuel as [|fuel IH]; intros r; [done|]. cbn [wait_loop]. intros (state & r1 & E1 & E2)%SM_bind_Ok.
  apply asked_log in E1. destruct (bool_decide_reflect (state = expected)) as [->|_].
  { injection E2 as <- <-. split; [done|]. exists []. by rewrite E1. }
  destruct (_ || _); [done|]. destruct (deadline <=? sn_now r1); [done|].
  apply SM_bind_Ok in E2 as (u & r2 & [= <- <-] & E2). apply IH in E2 as (-> & looks & El & Hl). split; [done|]. cbn in El.
  exists (CallStatus (Ok state) :: looks). split; [rewrite El, E1, <- app_assoc; done|by constructor].
Qed.
Lemma manager_log r u r' : manager r = Some (Ok u, r') -> sn_calls r' = (sn_calls r ++ [CallManager])%list.
Proof.
  intros (native & r1 & [= <- <-] & E)%SM_bind_Ok. apply SM_bind_Ok in E as (available & r2 & E2 & E).
  unfold fails in E2. injection E2 as _ <-. destruct available; [|done]. by injection E as _ <-.
Qed.
(** A start with the wait that follows it. *)
Definition start_calls (log : list ServiceCall) : Prop :=
  exists looks, log = (CallStart (Ok tt) :: looks ++ [CallStatus (Ok ServiceRunning)])%list /\ Forall (fun c => is_status c = true) looks.
Lemma start_log o r s r' : (_ ← manager_start o; wait_for_state ServiceRunning SERVICE_TIMEOUT) r = Some (Ok s, r') ->
  s = ServiceRunning /\ exists log, sn_calls r' = (sn_calls r ++ log)%list /\ start_calls log.
Proof.
  intros ([] & r1 & E1 & E2)%SM_bind_Ok. apply asked_log in E1. apply wait_loop_log in E2 as (-> & looks & El & Hl). split; [done|].
  eexists. split; [rewrite El, E1, <- app_assoc; reflexivity|]. by exists looks.
Qed.

Section Returns.
Hypothesis Hpatient : patient.
Lemma start_wait_returns o : returns_always (_ ← manager_start o; wait_for_state ServiceRunning SERVICE_TIMEOUT).
Proof. apply bind_returns; [apply manager_start_returns|]. intros _. by apply wait_for_state_returns. Qed.
Lemma service_start_returns : returns_always service_start.
Proof. apply bind_returns; [apply manager_returns|]. intros _. apply start_wait_returns. Qed.
Lemma service_stop_returns : returns_always service_stop.
Proof.
  apply bind_returns; [apply manager_returns|]. intros _. apply bind_returns; [apply manager_stop_returns|].
  intros _. by apply wait_for_state_returns.
Qed.
Lemma service_restart_returns : returns_always service_restart.
Proof.
  apply bind_returns; [apply manager_returns|]. intros _. apply bind_returns; [apply inspect_with_returns|].
  intros state. cbv zeta. destruct state; try (intros r'; by eexists); [|apply start_wait_returns].
  apply bind_returns; [apply manager_stop_returns|]. intros _. apply bind_returns; [by apply wait_for_state_returns|].
  intros _. apply start_wait_returns.
Qed.
End Returns.

(** Service operations end, and a restart is a restart.  Whatever the native manager answers and however long it takes,
    starting, stopping and restarting the Agent's service return.  A restart that reports a running service first found it
    stopped, or stopped it and saw it stopped; only then did it start it, once, and it saw it running last.  A restart that
    reports that the service is not installed only looked. *)
Theorem service_restart_is_ordered r : patient ->
  is_Some (service_start r) /\ is_Some (service_stop r) /\ is_Some (service_restart r) /\
  forall s r', service_restart r = Some (Ok s, r') ->
    exists first log, sn_calls r' = (sn_calls r ++ [CallManager; CallStatus (Ok first)] ++ log)%list /\
    match first with
    | ServiceRunning => s = ServiceRunning /\ exists looks started, Forall (fun c => is_status c = true) looks /\ start_calls started /\
        log = (CallStop (Ok tt) :: looks ++ CallStatus (Ok ServiceStopped) :: started)%list
    | ServiceStopped => s = ServiceRunning /\ start_calls log
    | ServiceNotInstalled => s = ServiceNotInstalled /\ log = []
    | _ => False
    end.
Proof.
  intros Hp. split_and!; [by apply service_start_returns|by apply service_stop_returns|by apply service_restart_returns|].
    intros s r' E. apply SM_bind_Ok in E as ([] & r1 & E1 & E). apply manager_log in E1.
    apply SM_bind_Ok in E as (first & r2 & E2 & E). apply asked_log in E2. exists first. cbn zeta in E.
    assert (Hlog : sn_calls r2 = (sn_calls r ++ [CallManager; CallStatus (Ok first)])%list) by (rewrite E2, E1, <- app_assoc; done).
    destruct first; try done.
    + apply SM_bind_Ok in E as ([] & r3 & E3 & E). apply asked_log in E3. apply SM_bind_Ok in E as (st & r4 & E4 & E).
      apply wait_loop_log in E4 as (-> & looks & El & Hl). apply start_log in E as (-> & started & Es & Hs).
      exists (CallStop (Ok tt) :: looks ++ CallStatus (Ok ServiceStopped) :: started)%list. split.
      * rewrite Es, El, E3, Hlog, <- !app_assoc. done.
      * split; [done|]. by exists looks, started.
    + apply start_log in E as (-> & started & Es & Hs). exists started. by rewrite Es, Hlog, <- app_assoc.
    + injection E as <- <-. exists []. by rewrite app_nil_r.
Qed.
End Service.

(** ** A restart *)
Module Sample.
(** A running service that takes two looks to stop and two to start. *)
Definition sample_service : ServiceWorld := {|
  wn_native := fun _ => Ok true;
  wn_status := fun n => Ok (match n with 1%nat => ServiceRunning | 3%nat => ServiceRunning | 4%nat => ServiceStopped | 6%nat => ServiceStopped | _ => ServiceRunning end);
  wn_start := fun _ => Ok tt; wn_stop := fun _ => Ok tt; wn_took := fun _ => 1000000; wn_late := fun _ => 0 |}.
Lemma sample_patient : patient sample_service.
Proof. split; intros n; cbn; lia. Qed.
Lemma service_restart_is_ordered_witness : is_Some (service_restart sample_service (mkServiceRun 0 [])) /\
  match service_restart sample_service (mkServiceRun 0 []) with
  | Some (Ok ServiceRunning, r) => length (sn_calls r) = 8%nat
  | _ => False
  end.
Proof. split; [apply (service_restart_is_ordered sample_service (mkServiceRun 0 []) sample_patient)|vm_compute; reflexivity]. Defined.
End Sample.
