(* ===== verification/DeviceCenter.v ===== *)
(** * The operations window of Device Center

    [crates/inari-device-center/src/app.rs], [app/runtime.rs], [app/setup.rs], [features/client_pairing.rs] and the labels
    of [infrastructure/tray.rs]: the window that shows the Agent's connection, work and service, mirrors them in the tray,
    and reviews requests of browsers to pair with the Agent.  A task is the answer it waits for; reads of the clock are
    inputs; what the window asks for and does is kept in a log. *)
From stdpp Require Import relations.
From S2P Require Import AdmissionController GatewayConfig.
From S2P Require Import Prelude AgentModel AgentClient DeviceSetup AgentRuntime.

(** ** Reviewing a browser *)
Inductive ReviewState : Type :=
| ReviewIdle
| ReviewLoading
| ReviewReady (request : PairingRequest)
| ReviewDeciding (request : PairingRequest)
| ReviewFailed (message : string).
(** The tray's menu. *)
Record Tray := mkTray { ty_connection : string; ty_setup_required : bool; ty_service : ServiceState }.
#[global] Instance Tray_eta : Eta Tray := fun t => mkTray (ty_connection t) (ty_setup_required t) (ty_service t).
Inductive Destination : Set := ToOverview | ToDevices | ToActivity | ToSupport | ToClientPairing.
#[global] Instance Destination_eq_dec : EqDecision Destination. Proof. solve_decision. Defined.
Inductive TrayCommand : Set := TrayOpen | TrayReviewSetup | TrayServiceAction | TrayOpenLogs | TrayQuit.
#[global] Instance TrayCommand_eq_dec : EqDecision TrayCommand. Proof. solve_decision. Defined.
Inductive CenterEffect : Type :=
| CeReadSetup (forget : bool)
| CeReadData
| CeServiceState
| CeServiceStart
| CeServiceRestart
| CeOpenOnboarding (invitation : option string)
| CeShowWindow
| CeOpenLogs
| CeQuit
| CeReview (id : string)
| CeDecide (request : PairingRequest) (decision : PairingDecision) (input : string) (at_ : instant)
| CeAnswered (request : PairingRequest).
Record Center := mkCenter {
  dc_destination : Destination;
  dc_previous_destination : Destination;
  dc_setup : SetupSnapshot;
  dc_devices : list Device;
  dc_jobs : list Job;
  dc_print_jobs : list PrintJob;
  dc_events : list AgentEvent;
  dc_connection : AgentConnection;
  dc_service_state : ServiceState;
  dc_service_error : option string;
  dc_agent_error : option string;
  dc_agent_endpoint : option string;
  dc_identity_retry_available : bool;
  dc_tray : option Tray;
  dc_setup_task : bool;
  dc_service_task : bool;
  dc_data_task : bool;
  dc_pairing_input : string;
  dc_pairing_state : ReviewState;
  (** The request that the pairing task waits for. *)
  dc_pairing_task : option string;
  dc_effects : list CenterEffect;
}.
#[global] Instance Center_eta : Eta Center := fun c => mkCenter (dc_destination c) (dc_previous_destination c) (dc_setup c) (dc_devices c)
  (dc_jobs c) (dc_print_jobs c) (dc_events c) (dc_connection c) (dc_service_state c) (dc_service_error c) (dc_agent_error c)
  (dc_agent_endpoint c) (dc_identity_retry_available c) (dc_tray c) (dc_setup_task c) (dc_service_task c) (dc_data_task c)
  (dc_pairing_input c) (dc_pairing_state c) (dc_pairing_task c) (dc_effects c).
Definition does (e : CenterEffect) (c : Center) : Center := c <| dc_effects := (dc_effects c ++ [e])%list |>.

(** ** The tray *)
Definition connection_label (c : AgentConnection) : string :=
  match c with
  | ConnectionChecking => "Checking local agent"
  | ConnectionConnected => "Agent connected"
  | ConnectionReconnecting => "Reconnecting to agent"
  | ConnectionUnavailable => "Agent unavailable"
  end.
Definition setup_label (required : bool) : string := if required then "Continue setup" else "Setup complete".
Definition service_label (s : ServiceState) : string * bool :=
  match s with
  | ServiceChecking => ("Checking agent service", false)
  | ServiceStarting => ("Starting agent service", false)
  | ServiceRunning => ("Restart agent service", true)
  | ServiceStopped => ("Start agent service", true)
  | ServiceNotInstalled => ("Agent service is not installed", false)
  | ServiceUnavailable => ("Service controls unavailable", false)
  end.
Definition setup_required (c : Center) : bool := negb (bool_decide (ss_access (dc_setup c) = AccessComplete)).
Definition on_tray (f : Tray -> Tray) (c : Center) : Center := c <| dc_tray := f <$> dc_tray c |>.
Definition tray_connection (c : Center) : Center := on_tray (fun t => t <| ty_connection := connection_label (dc_connection c) |>) c.
Definition tray_setup (c : Center) : Center := on_tray (fun t => t <| ty_setup_required := setup_required c |>) c.
Definition update_tray_service_state (c : Center) : Center := on_tray (fun t => t <| ty_service := dc_service_state c |>) c.
Definition tray_new : Tray := mkTray "Checking local agent" true ServiceChecking.
Definition install_tray (c : Center) : Center :=
  c <| dc_tray := Some (mkTray (connection_label (dc_connection c)) (setup_required c) (dc_service_state c)) |>.

(** ** Reading the Agent *)
Definition load_setup (c : Center) : Center := does (CeReadSetup false) c <| dc_setup_task := true |>.
Definition retry_setup (c : Center) : Center := does (CeReadSetup true) c <| dc_setup_task := true |>.
Definition load_service_state (c : Center) : Center := does CeServiceState c <| dc_service_task := true |>.
Definition DeviceCenter_new : Center :=
  load_service_state (load_setup (mkCenter ToOverview ToOverview SetupSnapshot_unavailable [] [] [] [] ConnectionChecking ServiceChecking None
    None None false None false false false "" ReviewIdle None [])).
Definition refresh_operational_data (c : Center) : Center :=
  if negb (bool_decide (ss_access (dc_setup c) = AccessComplete)) then c else does CeReadData c <| dc_data_task := true |>.
Definition data_answered (devices : option (AgentClientResult (list Device))) (jobs : option (AgentClientResult (list Job))) (c : Center) : Center :=
  let c := c <| dc_data_task := false |> in
  let c := match devices with Some (Ok devices) => c <| dc_devices := devices |> | _ => c end in
  match jobs with Some (Ok jobs) => c <| dc_jobs := jobs |> | _ => c end.
Definition accept_setup (snapshot : SetupSnapshot) (c : Center) : Center :=
  refresh_operational_data (tray_setup (load_setup c <| dc_setup := snapshot |>)).
Definition apply_setup (answer : option SetupResult) (c : Center) : Center :=
  let c := c <| dc_setup_task := false |>
             <| dc_identity_retry_available := is_some_and answer rs_identity_retry_available |>
             <| dc_agent_endpoint := r ← answer; rs_agent_endpoint r |>
             <| dc_agent_error := r ← answer; rs_diagnostic r |>
             <| dc_setup := match answer with Some r => rs_snapshot r | None => SetupSnapshot_unavailable end |> in
  refresh_operational_data (tray_setup c).

(** ** The service *)
Definition begin_service_operation (e : CenterEffect) (c : Center) : Center :=
  update_tray_service_state (does e c <| dc_service_state := ServiceStarting |> <| dc_service_error := None |>) <| dc_service_task := true |>.
Definition refresh_agent_service (c : Center) : Center :=
  load_service_state (update_tray_service_state (retry_setup (c <| dc_service_state := ServiceChecking |> <| dc_service_error := None |>))).
Definition start_agent_service (c : Center) : Center :=
  if bool_decide (dc_service_state c = ServiceStopped) then begin_service_operation CeServiceStart c else c.
Definition restart_agent_service (c : Center) : Center :=
  if bool_decide (dc_service_state c = ServiceRunning) then begin_service_operation CeServiceRestart c else c.
Definition request_service_action (c : Center) : Center :=
  match dc_service_state c with
  | ServiceStopped => begin_service_operation CeServiceStart c
  | ServiceRunning => begin_service_operation CeServiceRestart c
  | _ => c
  end.
Definition service_answered (answer : option (result ServiceControlError ServiceState)) (c : Center) : Center :=
  let c := c <| dc_service_task := false |> in
  update_tray_service_state
    match answer with
    | Some (Ok state) =>
        let c := c <| dc_service_state := state |> <| dc_service_error := None |> in
        if bool_decide (state = ServiceRunning) && bool_decide (ss_access (dc_setup c) = AccessUnknown) then load_setup c else c
    | Some (Err error) => c <| dc_service_state := ServiceUnavailable |> <| dc_service_error := Some (ServiceControlError_to_string error) |>
    | None => c <| dc_service_state := ServiceUnavailable |> <| dc_service_error := Some "The service request ended before it completed." |>
    end.

(** ** Pairing a browser *)
Section Pairing.
Context `{UrlParts, UrlParse, UrlHosts}.

Definition working (c : Center) : bool := match dc_pairing_state c with ReviewLoading | ReviewDeciding _ => true | _ => false end.
Definition load_request (id : string) (c : Center) : Center :=
  does (CeReview id) c <| dc_pairing_state := ReviewLoading |> <| dc_pairing_task := Some id |>.
Definition show_error (message : string) (c : Center) : Center :=
  c <| dc_pairing_task := None |> <| dc_pairing_state := ReviewFailed message |>.
Definition open_request (id : string) (c : Center) : Center := load_request id (c <| dc_pairing_input := id |>).
Definition review (c : Center) : Center :=
  if working c then c
  else match parse_input (dc_pairing_input c) with
       | Ok id => load_request id c
       | Err error => show_error error c
       end.
Definition decision_allowed (request : PairingRequest) (input : string) (at_ : instant) : bool :=
  can_decide_at request at_ && match parse_input input with Ok id => String.eqb id (pq_id request) | Err _ => false end.
Definition decide (decision : PairingDecision) (now : instant) (c : Center) : Center :=
  match dc_pairing_state c with
  | ReviewReady request =>
      if negb (decision_allowed request (dc_pairing_input c) now) then c
      else does (CeDecide request decision (dc_pairing_input c) now) c <| dc_pairing_state := ReviewDeciding request |>
             <| dc_pairing_task := Some (pq_id request) |>
  | _ => c
  end.
Definition pairing_answered (answer : option (AgentClientResult PairingRequest)) (c : Center) : Center :=
  let c := c <| dc_pairing_task := None |> in
  match answer with
  | Some (Ok request) => does (CeAnswered request) c <| dc_pairing_state := ReviewReady request |>
  | Some (Err _) => c <| dc_pairing_state :=
      ReviewFailed "The Agent could not complete this request. Select Review request to read its current state." |>
  | None => c <| dc_pairing_state :=
      ReviewFailed "The Agent stopped before it replied. Select Review request to read its current state." |>
  end.
(** The title and the message that [request_status] shows. *)
Definition request_status (request : PairingRequest) (at_ : instant) : string * string :=
  match pq_state request with
  | PairingPending =>
      if pq_expires_at request <=? at_ then ("Expired", "Create a new Pairing Request in Odoo.")
      else ("Awaiting approval", "Compare the phrase and requested access with Odoo before you decide.")
  | PairingApproved =>
      if pq_expires_at request <=? at_ then ("Expired", "Create a new Pairing Request in Odoo.")
      else ("Browser approved", "Return to Odoo to complete Client Pairing.")
  | PairingCompleted => ("Client Pairing complete", "This browser can use its approved access.")
  | PairingDenied => ("Request denied", "This request cannot grant access to the browser.")
  | PairingCanceled => ("Request canceled", "Create a new Pairing Request in Odoo.")
  | PairingExpired => ("Expired", "Create a new Pairing Request in Odoo.")
  end.

(** ** Navigation, links and the tray's commands *)
Definition navigate (destination : Destination) (c : Center) : Center :=
  if bool_decide (dc_destination c = destination) then c
  else c <| dc_previous_destination := dc_destination c |> <| dc_destination := destination |>.
Definition open_link (value : string) (c : Center) : Center :=
  match InariLink_parse value with
  | Ok (LinkEnrollment _) => does (CeOpenOnboarding (Some value)) c
  | Ok (LinkClientPairing id) => navigate ToClientPairing (open_request id (does CeShowWindow c))
  | Err error => navigate ToClientPairing (show_error error (does CeShowWindow c))
  end.
Definition tray_command (command : TrayCommand) (c : Center) : Center :=
  match command with
  | TrayOpen | TrayReviewSetup =>
      if bool_decide (command = TrayReviewSetup) || bool_decide (ss_access (dc_setup c) = AccessRequired)
      then does (CeOpenOnboarding None) c else does CeShowWindow c
  | TrayOpenLogs => does CeOpenLogs c
  | TrayServiceAction => request_service_action c
  | TrayQuit => does CeQuit c
  end.

(** ** Updates of the runtime *)
Definition EVENT_HISTORY : nat := 100.
Definition push_event (event : AgentEvent) (events : list AgentEvent) : list AgentEvent :=
  let events := (events ++ [event])%list in if (EVENT_HISTORY <? length events)%nat then drop 1 events else events.
Definition listen (update : AgentRuntimeUpdate) (c : Center) : Center :=
  match update with
  | UpdateConnection connection =>
      let c := tray_connection (c <| dc_connection := connection |>) in
      if bool_decide (connection = ConnectionConnected) && bool_decide (ss_access (dc_setup c) = AccessUnknown) then load_setup c else c
  | UpdateEvent event => refresh_operational_data (c <| dc_events := push_event event (dc_events c) |>)
  | UpdatePrintJobs jobs => c <| dc_print_jobs := jobs |>
  | UpdateActivation (Some invitation) => open_link invitation c
  | UpdateActivation None =>
      if bool_decide (ss_access (dc_setup c) = AccessRequired) then does (CeOpenOnboarding None) c else does CeShowWindow c
  | UpdateLagged => refresh_operational_data c
  end.

(** ** Everything that happens to the window *)
Inductive center_step (c : Center) : Center -> Prop :=
| cs_tray : dc_tray c = None -> center_step c (install_tray c)
| cs_setup answer : dc_setup_task c = true -> center_step c (apply_setup answer c)
| cs_accept snapshot : center_step c (accept_setup snapshot c)
| cs_data devices jobs : dc_data_task c = true -> center_step c (data_answered devices jobs c)
| cs_service answer : dc_service_task c = true -> center_step c (service_answered answer c)
| cs_refresh : center_step c (refresh_agent_service c)
| cs_start : center_step c (start_agent_service c)
| cs_restart : center_step c (restart_agent_service c)
| cs_command command : center_step c (tray_command command c)
| cs_navigate destination : center_step c (navigate destination c)
| cs_link value : center_step c (open_link value c)
| cs_type text : working c = false -> center_step c (c <| dc_pairing_input := text |>)
| cs_review : center_step c (review c)
| cs_decide decision now : center_step c (decide decision now c)
| cs_pairing id answer : dc_pairing_task c = Some id ->
    (forall request, answer = Some (Ok request) -> exists response, reviewed id response = Ok request) ->
    center_step c (pairing_answered answer c).
(** The window with the runtime it is subscribed to, and the events it was given. *)
Record Shell := mkShell { sh_supervisor : Supervisor; sh_subscription : Subscription; sh_center : Center; sh_given : list AgentEvent }.
Definition given (u : AgentRuntimeUpdate) : list AgentEvent := match u with UpdateEvent e => [e] | _ => [] end.
Inductive shell_step (x : Shell) : Shell -> Prop :=
| shell_supervisor s : supervisor_step (sh_supervisor x) s -> shell_step x (mkShell s (sh_subscription x) (sh_center x) (sh_given x))
| shell_center c : center_step (sh_center x) c -> shell_step x (mkShell (sh_supervisor x) (sh_subscription x) c (sh_given x))
| shell_recv u s b : recv (sh_supervisor x) (sh_subscription x) = Some (u, s, b) ->
    shell_step x (mkShell s b (listen u (sh_center x)) (sh_given x ++ given u)%list).
(** The supervisor may have run before the window subscribes. *)
Definition shell_start (s : Supervisor) : Shell := let '(s, b) := subscribe s in mkShell s b DeviceCenter_new [].
Definition shell_reachable (x : Shell) : Prop := exists s, rtc supervisor_step runtime_new s /\ rtc shell_step (shell_start s) x.

(** *** What the tray mirrors *)
Definition mirrored (c : Center) : Prop := forall t, dc_tray c = Some t ->
  ty_connection t = connection_label (dc_connection c) /\ ty_setup_required t = setup_required c /\ ty_service t = dc_service_state c.
(** What a step of the window keeps: its tray, and what it shows of the runtime. *)
Record same_view (c c' : Center) : Prop := {
  sv_tray : mirrored c -> mirrored c';
  sv_connection : dc_connection c' = dc_connection c;
  sv_print_jobs : dc_print_jobs c' = dc_print_jobs c;
  sv_events : dc_events c' = dc_events c;
}.
#[global] Instance same_view_refl : Reflexive same_view.
Proof. by split. Qed.
#[global] Instance same_view_trans : Transitive same_view.
Proof. intros a b c [F1 F2 F3 F4] [G1 G2 G3 G4]. split; [auto|congruence..]. Qed.
(** A change of fields that the tray does not mirror. *)
Lemma unmirrored c c' : dc_tray c' = dc_tray c -> dc_connection c' = dc_connection c -> dc_setup c' = dc_setup c ->
  dc_service_state c' = dc_service_state c -> dc_print_jobs c' = dc_print_jobs c -> dc_events c' = dc_events c -> same_view c c'.
Proof. intros E1 E2 E3 E4 E5 E6. split; auto. intros Hm t. unfold setup_required. rewrite E1, E2, E3, E4. apply Hm. Qed.
Lemma does_view e c : same_view c (does e c).
Proof. by apply unmirrored. Qed.
Lemma refresh_view c : same_view c (refresh_operational_data c).
Proof. unfold refresh_operational_data. destruct (negb _); [done|]. by apply unmirrored. Qed.
Lemma load_setup_view c : same_view c (load_setup c).
Proof. by apply unmirrored. Qed.
(** A new setup, mirrored. *)
Lemma new_setup_view c c' : dc_tray c' = dc_tray c -> dc_connection c' = dc_connection c -> dc_service_state c' = dc_service_state c ->
  dc_print_jobs c' = dc_print_jobs c -> dc_events c' = dc_events c -> same_view c (tray_setup c').
Proof.
  intros E1 E2 E4 E5 E6. split; cbn; auto. intros Hm t. cbn. rewrite E1. destruct (dc_tray c) as [t0|] eqn:Et; [|done]. intros [= <-].
  destruct (Hm t0 Et) as (Hx & Hy & Hz). unfold setup_required in *. cbn. rewrite ?E2, ?E4. by split_and!.
Qed.
Lemma new_service_view c c' : dc_tray c' = dc_tray c -> dc_connection c' = dc_connection c -> dc_setup c' = dc_setup c ->
  dc_print_jobs c' = dc_print_jobs c -> dc_events c' = dc_events c -> same_view c (update_tray_service_state c').
Proof.
  intros E1 E2 E4 E5 E6. split; cbn; auto. intros Hm t. cbn. rewrite E1. destruct (dc_tray c) as [t0|] eqn:Et; [|done]. intros [= <-].
  destruct (Hm t0 Et) as (Hx & Hy & Hz). unfold setup_required in *. cbn. rewrite ?E2, ?E4. by split_and!.
Qed.
Lemma begin_service_view e c : same_view c (begin_service_operation e c).
Proof.
  etrans; [apply (new_service_view c (does e c <| dc_service_state := ServiceStarting |> <| dc_service_error := None |>)); done|].
  by apply unmirrored.
Qed.
Lemma open_link_view value c : same_view c (open_link value c).
Proof.
  unfold open_link, navigate, open_request, load_request, show_error.
  destruct (InariLink_parse value) as [[i|id]|e]; [by apply does_view|..]; case_bool_decide; by apply unmirrored.
Qed.
Lemma center_step_view c c' : center_step c c' -> same_view c c' \/ (dc_tray c = None /\ c' = install_tray c).
Proof.
  intros Hstep. destruct Hstep; [by right|left..].
  - etrans; [|apply refresh_view]. by apply new_setup_view.
  - etrans; [|apply refresh_view]. by apply new_setup_view.
  - unfold data_answered. destruct devices as [[]|], jobs as [[]|]; by apply unmirrored.
  - unfold service_answered. apply new_service_view; destruct answer as [[]|]; cbn; try done; by destruct (_ && _).
  - etrans; [apply (new_service_view c (retry_setup (c <| dc_service_state := ServiceChecking |> <| dc_service_error := None |>))); done|].
    by apply unmirrored.
  - unfold start_agent_service. case_bool_decide; [apply begin_service_view|done].
  - unfold restart_agent_service. case_bool_decide; [apply begin_service_view|done].
  - destruct command; cbn [tray_command]; try apply does_view.
    + case_match; apply does_view.
    + unfold request_service_action. destruct (dc_service_state c); try done; apply begin_service_view.
  - unfold navigate. case_bool_decide; [done|]. by apply unmirrored.
  - apply open_link_view.
  - by apply unmirrored.
  - unfold review. destruct (working c); [done|]. destruct (parse_input _); by apply unmirrored.
  - unfold decide. destruct (dc_pairing_state c); try done. destruct (negb _); [done|]. by apply unmirrored.
  - unfold pairing_answered. destruct answer as [[]|]; by apply unmirrored.
Qed.

(** *** What the window shows is what the runtime published *)
(** The last [EVENT_HISTORY] events. *)
Definition recent (events : list AgentEvent) : list AgentEvent := drop (length events - EVENT_HISTORY) events.
Record shell_inv (x : Shell) : Prop := {
  xi_supervisor : supervisor_inv (sh_supervisor x);
  xi_tray : mirrored (sh_center x);
  xi_connection : sb_initial_connection_pending (sh_subscription x) = false ->
    sb_connection_seen (sh_subscription x) = wt_version (su_connection (sh_supervisor x)) ->
    dc_connection (sh_center x) = wt_value (su_connection (sh_supervisor x));
  xi_connection_seen : (sb_connection_seen (sh_subscription x) <= wt_version (su_connection (sh_supervisor x)))%nat;
  xi_print_jobs : sb_initial_print_jobs_pending (sh_subscription x) = false ->
    sb_print_jobs_seen (sh_subscription x) = wt_version (su_print_jobs (sh_supervisor x)) ->
    dc_print_jobs (sh_center x) = wt_value (su_print_jobs (sh_supervisor x));
  xi_print_jobs_seen : (sb_print_jobs_seen (sh_subscription x) <= wt_version (su_print_jobs (sh_supervisor x)))%nat;
  xi_events : dc_events (sh_center x) = recent (sh_given x);
}.
(** A channel only moves to later versions, and keeps its value while it keeps its version. *)
Definition later {A} (w w' : Watch A) : Prop :=
  (wt_version w <= wt_version w')%nat /\ (wt_version w = wt_version w' -> wt_value w = wt_value w').
Lemma supervisor_step_later s s' : supervisor_step s s' -> later (su_connection s) (su_connection s') /\ later (su_print_jobs s) (su_print_jobs s').
Proof.
  intros Hstep. destruct Hstep; try (unfold received; destruct (mu_event update)); cbn; (split; [|]);
    try (by split; cbn; [lia|]); try (by split; cbn; lia);
    unfold send_if_modified; case_bool_decide; (split; cbn; [lia|]); intros E; try done; lia.
Qed.
Lemma push_event_recent e events : push_event e (recent events) = recent (events ++ [e])%list.
Proof.
  unfold push_event, recent. rewrite length_app. cbn [length].
  assert (Hlen : length (drop (length events - EVENT_HISTORY) events) = Nat.min (length events) EVENT_HISTORY) by (rewrite length_skipn; lia).
  rewrite length_app, Hlen. cbn [length]. destruct (Nat.ltb_spec EVENT_HISTORY (Nat.min (length events) EVENT_HISTORY + 1)) as [Hlt|Hge].
  - rewrite <- drop_app_le by (unfold EVENT_HISTORY in *; lia). rewrite drop_drop. f_equal. unfold EVENT_HISTORY in *. lia.
  - replace (length events - EVENT_HISTORY)%nat with 0%nat by lia. replace (length events + 1 - EVENT_HISTORY)%nat with 0%nat by lia. done.
Qed.
(** What an update changes of the view. *)
Lemma listen_view u c : mirrored c ->
  mirrored (listen u c) /\
  dc_connection (listen u c) = match u with UpdateConnection x => x | _ => dc_connection c end /\
  dc_print_jobs (listen u c) = match u with UpdatePrintJobs x => x | _ => dc_print_jobs c end /\
  dc_events (listen u c) = match u with UpdateEvent e => push_event e (dc_events c) | _ => dc_events c end.
Proof.
  intros Hm. destruct u as [connection|jobs|event|[invitation|]|]; cbn [listen].
  - set (c1 := tray_connection (c <| dc_connection := connection |>)).
    assert (Hm1 : mirrored c1).
    { intros t. cbn. destruct (dc_tray c) as [t0|] eqn:Et; [|done]. intros [= <-]. by destruct (Hm t0 Et) as (Hx & Hy & Hz). }
    destruct (_ && _); [|done]. destruct (load_setup_view c1) as [Hx Hy Hz Hw]. split_and!; [by apply Hx|done..].
  - done.
  - destruct (refresh_view (c <| dc_events := push_event event (dc_events c) |>)) as [Hx Hy Hz Hw]. split_and!; [by apply Hx|done..].
  - destruct (open_link_view invitation c) as [Hx Hy Hz Hw]. split_and!; [by apply Hx|done..].
  - case_bool_decide.
    + destruct (does_view (CeOpenOnboarding None) c) as [Hx Hy Hz Hw]. split_and!; [by apply Hx|done..].
    + destruct (does_view CeShowWindow c) as [Hx Hy Hz Hw]. split_and!; [by apply Hx|done..].
  - destruct (refresh_view c) as [Hx Hy Hz Hw]. split_and!; [by apply Hx|done..].
Qed.
Lemma shell_supervisor_inv x s : shell_inv x -> supervisor_step (sh_supervisor x) s ->
  shell_inv (mkShell s (sh_subscription x) (sh_center x) (sh_given x)).
Proof.
  intros [Hs Ht Hc Hcs Hp Hps He] Hstep. destruct (supervisor_step_later _ _ Hstep) as [[Hv1 Hv2] [Hw1 Hw2]].
  split; cbn; [by eapply supervisor_step_inv|done| |lia| |lia|done].
  - intros Hi Hseen. rewrite <- Hv2 by lia. apply Hc; [done|lia].
  - intros Hi Hseen. rewrite <- Hw2 by lia. apply Hp; [done|lia].
Qed.
Lemma shell_center_inv x c : shell_inv x -> center_step (sh_center x) c -> shell_inv (mkShell (sh_supervisor x) (sh_subscription x) c (sh_given x)).
Proof.
  intros [Hs Ht Hc Hcs Hp Hps He] Hstep. apply center_step_view in Hstep as [[Hx Hy Hz Hw]|[Hn ->]]; split; cbn; auto.
  - by rewrite Hy.
  - by rewrite Hz.
  - by rewrite Hw.
  - intros t [= <-]. done.
Qed.
Lemma shell_recv_inv x u s b : shell_inv x -> recv (sh_supervisor x) (sh_subscription x) = Some (u, s, b) ->
  shell_inv (mkShell s b (listen u (sh_center x)) (sh_given x ++ given u)%list).
Proof.
  intros [Hs Ht Hc Hcs Hp Hps He] E. destruct (listen_view u _ Ht) as (Hm & Hl1 & Hl2 & Hl3). unfold recv in E. cbv zeta in E.
  assert (Hq : forall rest missed, (length rest <= length (bc_queue (su_updates (sh_supervisor x))))%nat ->
    supervisor_inv (sh_supervisor x <| su_updates := mkBroadcast rest missed |>)).
  { intros rest missed Hlen. destruct Hs as [A1 A2 A3 A4 A5 A6]. split; cbn; auto. lia. }
  destruct (sb_initial_connection_pending (sh_subscription x)) eqn:Ei1;
    [|destruct (sb_initial_print_jobs_pending (sh_subscription x)) eqn:Ei2;
      [|case_bool_decide as Ev1; cbn [negb] in E; [case_bool_decide as Ev2; cbn [negb] in E; [destruct (0 <? _)%nat; [|destruct (bc_queue _) as [|[event|inv] rest] eqn:Eq]|]|]]];
    simplify_eq; split; cbn [sh_supervisor sh_subscription sh_center sh_given sb_connection_seen sb_print_jobs_seen sb_initial_connection_pending sb_initial_print_jobs_pending update]; rewrite ?Hl1, ?Hl2, ?Hl3; cbn [given]; rewrite ?app_nil_r; auto; try congruence;
    try (by rewrite He, push_event_recent); try (by apply Hq; cbn; lia).
Qed.
Lemma shell_reachable_inv x : shell_reachable x -> shell_inv x.
Proof.
  intros (s & Hs & Hx). assert (Hsv : supervisor_inv s).
  { remember runtime_new as s0 eqn:E. assert (Hinv : supervisor_inv s0) by (subst; apply runtime_new_inv). clear E Hx.
    induction Hs as [|a b c Hstep _ IH]; [done|]. by apply IH, (supervisor_step_inv a). }
  assert (Hstart : shell_inv (shell_start s)).
  { destruct Hsv as [A1 A2 A3 A4 A5 A6]. unfold shell_start, subscribe. cbn. split; cbn; try done.
    - split; cbn; auto. unfold BROADCAST_CAPACITY. lia.
    - intros Hi _. apply negb_false_iff, bool_decide_eq_true in Hi. done. }
  remember (shell_start s) as x0 eqn:E. clear E. induction Hx as [|a b c Hstep _ IH]; [done|]. apply IH. destruct Hstep.
  - by apply shell_supervisor_inv.
  - by apply shell_center_inv.
  - by eapply shell_recv_inv.
Qed.

(** C36: Device Center shows the Agent as it is.  However the supervisor, the window and the operator interleave: the tray
    shows the window's connection, setup and service; the window keeps exactly the last 100 events it was given; and once
    nothing more is ready to be received, the connection and the print jobs that the window shows are the published ones,
    and it shows a connection exactly while the event stream is open, until the supervisor stops. *)
Theorem device_center_shows_the_agent x : shell_reachable x ->
  let s := sh_supervisor x in
  let c := sh_center x in
  mirrored c /\
  dc_events c = recent (sh_given x) /\ (length (dc_events c) <= EVENT_HISTORY)%nat /\
  (recv s (sh_subscription x) = None ->
     dc_connection c = wt_value (su_connection s) /\ dc_print_jobs c = wt_value (su_print_jobs s) /\
     (su_phase s <> Stopped -> (dc_connection c = ConnectionConnected <-> su_phase s = Streaming))).
Proof.
  intros Hx. apply shell_reachable_inv in Hx as [[_ Hcon Hstr _ _ _] Ht Hc _ Hp _ He]. cbv zeta. split_and!; [done|done| |].
  { rewrite He. unfold recent. rewrite length_skipn. lia. }
  intros Hidle. unfold recv in Hidle. cbv zeta in Hidle.
  destruct (sb_initial_connection_pending _); [done|]. destruct (sb_initial_print_jobs_pending _); [done|].
  case_bool_decide as Ev1; [|done]. case_bool_decide as Ev2; [|done]. specialize (Hc eq_refl Ev1). split_and!; [done|by apply Hp|].
  intros Hrun. rewrite Hc. split; auto.
Qed.

(** ** Decisions about browsers *)
Definition pairing_effect (e : CenterEffect) : bool := match e with CeReview _ | CeDecide _ _ _ _ | CeAnswered _ => true | _ => false end.
(** The last thing that concerned a request. *)
Definition last_pairing (log : list CenterEffect) : option CenterEffect := foldl (fun o e => if pairing_effect e then Some e else o) None log.
Lemma last_pairing_snoc log e : last_pairing (log ++ [e])%list = if pairing_effect e then Some e else last_pairing log.
Proof. unfold last_pairing. by rewrite foldl_app. Qed.
(** What the Agent was last asked, for that request. *)
Definition asked_about (id : string) (log : list CenterEffect) : Prop :=
  last_pairing log = Some (CeReview id) \/
  exists request decision input at_, last_pairing log = Some (CeDecide request decision input at_) /\ pq_id request = id.
Definition effect_ok (log : list CenterEffect) (e : CenterEffect) : Prop :=
  match e with
  | CeDecide request _ input at_ =>
      last_pairing log = Some (CeAnswered request) /\ can_decide_at request at_ = true /\ parse_input input = Ok (pq_id request)
  | CeAnswered request => asked_about (pq_id request) log
  | _ => True
  end.
Record pairing_inv (c : Center) : Prop := {
  pi_ready : forall request, dc_pairing_state c = ReviewReady request -> last_pairing (dc_effects c) = Some (CeAnswered request);
  pi_task : forall id, dc_pairing_task c = Some id -> asked_about id (dc_effects c);
  pi_log : forall l e l', dc_effects c = (l ++ e :: l')%list -> effect_ok l e;
}.
(** A step that has nothing to do with requests. *)
Record same_pairing (c c' : Center) : Prop := {
  sg_state : dc_pairing_state c' = dc_pairing_state c;
  sg_task : dc_pairing_task c' = dc_pairing_task c;
  sg_effects : dc_effects c' = dc_effects c \/ exists e, dc_effects c' = (dc_effects c ++ [e])%list /\ pairing_effect e = false;
}.
Lemma effects_snoc c e : pairing_inv c -> effect_ok (dc_effects c) e -> forall l x l', (dc_effects c ++ [e])%list = (l ++ x :: l')%list -> effect_ok l x.
Proof.
  intros [_ _ Hlog] He l x l' E. destruct l' as [|y l' _] using rev_ind.
  - apply app_inj_tail in E as [<- <-]. done.
  - rewrite app_comm_cons, app_assoc in E. apply app_inj_tail in E as [E _]. eauto.
Qed.
Lemma same_pairing_inv c c' : pairing_inv c -> same_pairing c c' -> pairing_inv c'.
Proof.
  intros Hinv [Es Et Ee]. pose proof Hinv as [Hr Ht Hl]. destruct Ee as [Ee|(e & Ee & He)]; split; rewrite ?Es, ?Et, Ee; auto; unfold asked_about; rewrite ?last_pairing_snoc, ?He; auto.
  apply effects_snoc; [done|]. by destruct e.
Qed.
Lemma load_request_inv id c : pairing_inv c -> pairing_inv (load_request id c).
Proof.
  intros Hinv. split; cbn; [done| |by apply (effects_snoc _ _ Hinv)]. intros id' [= <-]. left. by rewrite last_pairing_snoc.
Qed.
Lemma show_error_inv message c : pairing_inv c -> pairing_inv (show_error message c).
Proof. intros [Hr Ht Hl]. by split. Qed.
Lemma decide_inv decision now c : pairing_inv c -> pairing_inv (decide decision now c).
Proof.
  intros Hinv. unfold decide. destruct (dc_pairing_state c) as [| |request| |] eqn:Es; try done.
  destruct (decision_allowed request (dc_pairing_input c) now) eqn:Ea; [|done]. cbn. unfold decision_allowed in Ea.
  apply andb_true_iff in Ea as [Hd Hi]. destruct (parse_input (dc_pairing_input c)) as [id|] eqn:Ep; [|done]. apply String.eqb_eq in Hi as ->.
  split; cbn; [done| |].
  - intros id [= <-]. right. exists request, decision, (dc_pairing_input c), now. by rewrite last_pairing_snoc.
  - apply (effects_snoc _ _ Hinv). split_and!; [by apply (pi_ready _ Hinv)|done|done].
Qed.
Lemma pairing_answered_inv id answer c : pairing_inv c -> dc_pairing_task c = Some id ->
  (forall request, answer = Some (Ok request) -> exists response, reviewed id response = Ok request) -> pairing_inv (pairing_answered answer c).
Proof.
  intros Hinv Ht Hans. pose proof Hinv as [Hr Htask Hl]. destruct answer as [[request|e]|]; cbn; [|by split..].
  destruct (Hans _ eq_refl) as [response E]. unfold reviewed in E. res_inv E. apply String.eqb_eq in Hok0.
  split; cbn; [|done|].
  - intros r [= <-]. by rewrite last_pairing_snoc.
  - apply (effects_snoc _ _ Hinv). cbn. rewrite Hok0. auto.
Qed.
Lemma navigate_inv d c : pairing_inv c -> pairing_inv (navigate d c).
Proof. intros [Hr Ht Hl]. unfold navigate. case_bool_decide; by split. Qed.
Lemma does_inv e c : pairing_effect e = false -> pairing_inv c -> pairing_inv (does e c).
Proof. intros He Hinv. eapply same_pairing_inv; [exact Hinv|]. split; cbn; eauto. Qed.
Lemma open_link_inv value c : pairing_inv c -> pairing_inv (open_link value c).
Proof.
  intros Hinv. unfold open_link. destruct (InariLink_parse value) as [[i|id]|e]; [by apply does_inv|..]; apply navigate_inv.
  - apply load_request_inv. eapply same_pairing_inv; [by apply (does_inv CeShowWindow c)|]. split; cbn; auto.
  - apply show_error_inv. by apply does_inv.
Qed.
Lemma kept c c' : dc_pairing_state c' = dc_pairing_state c -> dc_pairing_task c' = dc_pairing_task c -> dc_effects c' = dc_effects c ->
  pairing_inv c -> pairing_inv c'.
Proof. intros E1 E2 E3 Hinv. eapply same_pairing_inv; [exact Hinv|]. split; auto. Qed.
Lemma effected e c c' : dc_pairing_state c' = dc_pairing_state c -> dc_pairing_task c' = dc_pairing_task c ->
  dc_effects c' = (dc_effects c ++ [e])%list -> pairing_effect e = false -> pairing_inv c -> pairing_inv c'.
Proof. intros E1 E2 E3 He Hinv. eapply same_pairing_inv; [exact Hinv|]. split; eauto. Qed.
Lemma refresh_inv c : pairing_inv c -> pairing_inv (refresh_operational_data c).
Proof. intros Hinv. unfold refresh_operational_data. destruct (negb _); [done|]. by apply (effected CeReadData c). Qed.
Lemma begin_service_inv e c : pairing_effect e = false -> pairing_inv c -> pairing_inv (begin_service_operation e c).
Proof. intros He. by apply (effected e c). Qed.
Lemma center_step_pairing c c' : pairing_inv c -> center_step c c' -> pairing_inv c'.
Proof.
  intros Hinv Hstep. destruct Hstep.
  - by apply (kept c).
  - apply refresh_inv. by apply (kept c).
  - apply refresh_inv. by apply (effected (CeReadSetup false) c).
  - unfold data_answered. destruct devices as [[]|], jobs as [[]|]; by apply (kept c).
  - unfold service_answered. destruct answer as [[state|e]|]; [|by apply (kept c)..].
    destruct (_ && _); [by apply (effected (CeReadSetup false) c)|by apply (kept c)].
  - apply (effected CeServiceState (retry_setup c)); try done. by apply (effected (CeReadSetup true) c).
  - unfold start_agent_service. case_bool_decide; [by apply begin_service_inv|done].
  - unfold restart_agent_service. case_bool_decide; [by apply begin_service_inv|done].
  - destruct command; cbn [tray_command]; try by apply does_inv.
    + case_match; by apply does_inv.
    + unfold request_service_action. destruct (dc_service_state c); try done; by apply begin_service_inv.
  - by apply navigate_inv.
  - by apply open_link_inv.
  - by apply (kept c).
  - unfold review. destruct (working c); [done|]. destruct (parse_input _); [by apply load_request_inv|by apply show_error_inv].
  - by apply decide_inv.
  - by eapply pairing_answered_inv.
Qed.
Lemma listen_pairing u c : pairing_inv c -> pairing_inv (listen u c).
Proof.
  intros Hinv. destruct u as [connection|jobs|event|[invitation|]|]; cbn [listen].
  - destruct (_ && _); [by apply (effected (CeReadSetup false) c)|by apply (kept c)].
  - by apply (kept c).
  - apply refresh_inv. by apply (kept c).
  - by apply open_link_inv.
  - case_bool_decide; by apply does_inv.
  - by apply refresh_inv.
Qed.
Lemma shell_pairing x : shell_reachable x -> pairing_inv (sh_center x).
Proof.
  intros (s & _ & Hx). assert (Hstart : pairing_inv (sh_center (shell_start s))).
  { split; try done. intros ls e l' E. change (dc_effects _) with [CeReadSetup false; CeServiceState] in E.
    destruct ls as [|a [|b ls]]; cbn in E; [by injection E as <- _|by injection E as _ <- _|]. injection E as _ _ E. by destruct ls. }
  remember (shell_start s) as x0 eqn:E. clear E. induction Hx as [|a b c Hstep _ IH]; [done|]. apply IH. destruct Hstep; cbn.
  - done.
  - by eapply center_step_pairing.
  - by apply listen_pairing.
Qed.

(** C37: A browser is approved only by a decision about what was reviewed.  Whatever the operator, links, activations and
    the Agent do: every decision that is sent to the Agent is about the request that the Agent described last, which the
    Agent was asked about by the same identifier; the request was pending and not expired when the decision was made, and
    the field named that request and no other. *)
Theorem pairing_decisions_are_reviewed x l l' request decision input at_ : shell_reachable x ->
  dc_effects (sh_center x) = (l ++ CeDecide request decision input at_ :: l')%list ->
  parse_input input = Ok (pq_id request) /\ pq_state request = PairingPending /\ at_ < pq_expires_at request /\
  exists a b, l = (a ++ CeAnswered request :: b)%list /\ (forall e, e ∈ b -> pairing_effect e = false) /\ asked_about (pq_id request) a.
Proof.
  intros Hx E. apply shell_pairing in Hx as [_ _ Hlog]. destruct (Hlog _ _ _ E) as (Hlast & Hcan & Hparse).
  unfold can_decide_at in Hcan. apply andb_true_iff in Hcan as [Hp Ha]. apply bool_decide_eq_true in Hp. apply Z.ltb_lt in Ha.
  split_and!; [done..|].
  assert (Hsplit : forall log y, last_pairing log = Some y -> exists a b, log = (a ++ y :: b)%list /\ (forall e, e ∈ b -> pairing_effect e = false)).
  { intros log y. induction log as [|e log IH] using rev_ind; [done|]. rewrite last_pairing_snoc. destruct (pairing_effect e) eqn:Ee.
    - intros [= <-]. exists log, []. split; [done|]. intros ? Hin. by apply not_elem_of_nil in Hin.
    - intros Hy. destruct (IH Hy) as (a & b & -> & Hb). exists a, (b ++ [e])%list. rewrite <- app_assoc. split; [done|].
      intros e' Hin. apply elem_of_app in Hin as [Hin|Hin]; [auto|]. by apply list_elem_of_singleton in Hin as ->. }
  destruct (Hsplit _ _ Hlast) as (a & b & -> & Hb). exists a, b. split_and!; [done|done|].
  apply (Hlog a (CeAnswered request) (b ++ CeDecide request decision input at_ :: l')%list). by rewrite E, <- app_assoc.
Qed.
End Pairing.

(** ** A run *)
Module Sample.
#[local] Instance sample_parts : UrlParts := {|
  url_scheme := fun _ => "inari"; url_host := fun _ => Some "pairing"; url_path := fun _ => "/"; url_username := fun _ => "";
  url_password := fun _ => None; url_query := fun _ => None; url_fragment := fun _ => None |}.
#[local] Instance sample_parse : UrlParse := fun s => Some s.
#[local] Instance sample_hosts : UrlHosts := {|
  url_parse_error := fun _ => ""; url_host_kind := fun _ => None; url_port := fun _ => None; url_port_or_known_default := fun _ => None |}.
Definition sample_response : PairingRequestResponse := mkPairingResponse "req_123"
  (mkPairingScope "agt_1" "https://agent.example:7310/" "https://odoo.example/" "odoo" "1" "org_1" "site_1" None)
  "maple river cloud stone" ["jobs:submit"] (minutes 5) "pending".
Definition sample_request : PairingRequest := match reviewed "req_123" sample_response with Ok r => r | Err _ => mkPairingRequest "" (pr_scope sample_response) "" [] 0 PairingExpired end.
Definition with_center (f : Center -> Center) (x : Shell) : Shell := mkShell (sh_supervisor x) (sh_subscription x) (f (sh_center x)) (sh_given x).
Definition receive (x : Shell) : Shell :=
  match recv (sh_supervisor x) (sh_subscription x) with
  | Some (u, s, b) => mkShell s b (listen u (sh_center x)) (sh_given x ++ given u)%list
  | None => x
  end.
Definition x0 : Shell := shell_start runtime_new.
Definition x1 : Shell := receive x0.
Definition x2 : Shell := mkShell (connected (sh_supervisor x1)) (sh_subscription x1) (sh_center x1) (sh_given x1).
Definition x3 : Shell := receive x2.
Definition x4 : Shell := with_center (fun c => c <| dc_pairing_input := "req_123" |>) x3.
Definition x5 : Shell := with_center review x4.
Definition x6 : Shell := with_center (pairing_answered (Some (Ok sample_request))) x5.
Definition x7 : Shell := with_center (decide DecisionApprove (minutes 1)) x6.
Lemma receive_step x : is_Some (recv (sh_supervisor x) (sh_subscription x)) -> shell_step x (receive x).
Proof. intros [[[u s] b] E]. unfold receive. rewrite E. by constructor. Qed.
Lemma steps_to_x3 : rtc shell_step x0 x3.
Proof.
  apply rtc_l with x1; [apply receive_step; by eexists|].
  apply rtc_l with x2; [apply (shell_supervisor x1), sv_connected; reflexivity|].
  apply rtc_once. apply receive_step. by eexists.
Qed.
Lemma steps_to_x7 : rtc shell_step x0 x7.
Proof.
  etrans; [apply steps_to_x3|].
  apply rtc_l with x4; [apply (shell_center x3), cs_type; reflexivity|].
  apply rtc_l with x5; [apply (shell_center x4), cs_review|].
  apply rtc_l with x6.
  { apply (shell_center x5), (cs_pairing _ "req_123"); [vm_compute; reflexivity|]. intros request E. exists sample_response.
    assert (request = sample_request) as -> by congruence. vm_compute. reflexivity. }
  apply rtc_once. apply (shell_center x6), cs_decide.
Qed.
Lemma device_center_shows_the_agent_witness :
  recv (sh_supervisor x3) (sh_subscription x3) = None /\ dc_connection (sh_center x3) = ConnectionConnected /\ su_phase (sh_supervisor x3) = Streaming.
Proof.
  assert (Hx : shell_reachable x3) by (exists runtime_new; split; [done|apply steps_to_x3]).
  pose proof (device_center_shows_the_agent x3 Hx) as (_ & _ & _ & Hshow).
  assert (Hidle : recv (sh_supervisor x3) (sh_subscription x3) = None) by (vm_compute; reflexivity).
  split; [exact Hidle|]. destruct (Hshow Hidle) as (Hc & _ & _). rewrite Hc. split; vm_compute; reflexivity.
Defined.
Lemma pairing_decisions_are_reviewed_witness :
  dc_pairing_state (sh_center x7) = ReviewDeciding sample_request /\ parse_input "req_123" = Ok (pq_id sample_request) /\
  pq_state sample_request = PairingPending.
Proof.
  assert (Hx : shell_reachable x7) by (exists runtime_new; split; [done|apply steps_to_x7]).
  destruct (pairing_decisions_are_reviewed x7 [CeReadSetup false; CeServiceState; CeReadSetup false; CeReview "req_123"; CeAnswered sample_request] []
    sample_request DecisionApprove "req_123" (minutes 1) Hx ltac:(vm_compute; reflexivity)) as (Hp & Hs & _).
  split; [vm_compute; reflexivity|]. split; [exact Hp|exact Hs].
Defined.
End Sample.
