(* ===== verification/Settings.v ===== *)
(** * Settings of the Controller

    [crates/inari-server/src/config.rs], [config/identity.rs] and [config/platform.rs]: the settings of the Controller with
    their defaults, the checks they pass before anything starts, the layers they are loaded from and the report of which
    layer supplied a setting.  The [config] crate, which merges the layers and reads the merged tree back, is third-party
    code ([ConfigCrate]).  A [SocketAddr], a [Url] and a path are their texts and a [Duration] is in nanoseconds. *)
From S2P Require Import Json Errors Identifiers Schema ServerErrors FleetPolicy AccessControl AdmissionController.
From S2P Require Import PayloadProtection ManagedGateway GatewayConfig Application Prelude.

(** ** The settings *)
Inductive DeploymentEnvironment : Set := Development | Preview | Production.
#[global] Instance DeploymentEnvironment_eq_dec : EqDecision DeploymentEnvironment.
Proof. solve_decision. Defined.
Definition is_deployed (e : DeploymentEnvironment) : bool := match e with Preview | Production => true | Development => false end.
Record ServerConfig := mkServerConfig {
  sv_bind : string;
  sv_public_url : option string;
  sv_environment : DeploymentEnvironment;
  sv_request_timeout : Z;
  sv_shutdown_grace_period : Z;
  sv_max_body_size_bytes : Z;
}.
Record DatabaseConfig := mkDatabaseConfig {
  dc_url_file : string;
  dc_migrate_on_startup : bool;
  dc_min_connections : Z;
  dc_max_connections : Z;
}.
Record OrganizationConfig := mkOrganizationConfig {
  oc_id : string;
  oc_name : string;
  oc_default_site_id : string;
  oc_default_site_name : string;
}.
Record RuntimeConfig := mkRuntimeConfig {
  rn_worker_threads : option Z;
  rn_max_blocking_threads : Z;
  rn_thread_stack_size_bytes : Z;
  rn_event_interval : Z;
  rn_global_queue_interval : Z;
  rn_thread_keep_alive : Z;
}.
Inductive LogFormat : Set := LogPretty | LogJson.
Record ObservabilityConfig := mkObservabilityConfig {
  lo_service_name : string;
  lo_filter : string;
  lo_format : LogFormat;
  lo_include_targets : bool;
  lo_include_thread_ids : bool;
  lo_include_thread_names : bool;
}.
Record OidcConfig := mkOidcConfig {
  oi_enabled : bool;
  oi_issuer_url : option string;
  oi_client_id : string;
  oi_additional_id_token_audiences : list string;
  oi_client_secret_file : option string;
  oi_workload_audience : string;
  oi_scopes : list string;
  oi_role_claim : string;
  oi_role_mapping : gmap string AccessRole;
}.
Record CorsConfig := mkCorsConfig {
  co_enabled : bool;
  co_allow_origins : list string;
  co_allow_methods : list string;
  co_allow_headers : list string;
  co_expose_headers : list string;
  co_allow_credentials : bool;
  co_max_age : Z;
}.
Record InariApiConfig := mkInariApiConfig { ia_max_concurrent_requests : Z }.
Record ZenohRestConfig := mkZenohRestConfig {
  zr_enabled : bool;
  zr_allow_admin_space : bool;
  zr_query_timeout : Z;
  zr_sse_keep_alive : Z;
  zr_sse_buffer : Z;
  zr_max_concurrent_requests : Z;
}.
Record HttpConfig := mkHttpConfig { ht_cors : CorsConfig; ht_inari_api : InariApiConfig; ht_zenoh_rest : ZenohRestConfig }.
Record ZenohAdminSpaceConfig := mkAdminSpaceConfig { as_enabled : bool; as_read : bool; as_write : bool }.
Inductive ZenohMode : Set := ModeClient | ModeRouter.
#[global] Instance ZenohMode_eq_dec : EqDecision ZenohMode.
Proof. solve_decision. Defined.
Record ZenohTlsConfig := mkZenohTlsConfig {
  zt_root_ca_certificate : option string;
  zt_listen_certificate : option string;
  zt_listen_private_key : option string;
  zt_connect_certificate : option string;
  zt_connect_private_key : option string;
  zt_enable_mtls : bool;
  zt_close_link_on_expiration : bool;
}.
Inductive ZenohAclPermission : Set := AclAllow | AclDeny.
Record ZenohAccessControlConfig := mkZenohAclConfig {
  za_enabled : bool;
  za_default_permission : ZenohAclPermission;
  za_managed_gateway_namespace_prefix : option string;
  za_managed_gateway_cert_common_names : list string;
}.
Record ZenohSettings := mkZenohSettings {
  zn_enabled : bool;
  zn_mode : ZenohMode;
  zn_admin_space : ZenohAdminSpaceConfig;
  zn_connect_endpoints : list string;
  zn_listen_endpoints : list string;
  zn_tls : ZenohTlsConfig;
  zn_access_control : ZenohAccessControlConfig;
  zn_open_retry_interval : Z;
  zn_command_buffer : Z;
  zn_event_buffer : Z;
}.
(** [AppConfig]; [IdentityConfig] has the one field [oidc]. *)
Record ControllerConfig := mkControllerConfig {
  ac_config_version : Z;
  ac_server : ServerConfig;
  ac_database : DatabaseConfig;
  ac_organization : OrganizationConfig;
  ac_runtime : RuntimeConfig;
  ac_observability : ObservabilityConfig;
  ac_oidc : OidcConfig;
  ac_http : HttpConfig;
  ac_managed_gateway : ManagedGatewayConfig;
  ac_openbao : OpenBaoConfig;
  ac_zenoh : ZenohSettings;
}.

(** ** Defaults *)
Definition CONFIG_VERSION : Z := 1.
Definition DEFAULT_REQUEST_TIMEOUT : Z := seconds 30.
Definition DEFAULT_SHUTDOWN_GRACE_PERIOD : Z := seconds 30.
Definition DEFAULT_THREAD_KEEP_ALIVE : Z := seconds 10.
Definition DEFAULT_CORS_MAX_AGE : Z := seconds (10 * 60).
Definition DEFAULT_ZENOH_REST_QUERY_TIMEOUT : Z := seconds 15.
Definition DEFAULT_ZENOH_REST_SSE_KEEP_ALIVE : Z := seconds 15.
Definition DEFAULT_ZENOH_RETRY_INTERVAL : Z := seconds 5.
Definition DEFAULT_ZENOH_REST_SSE_BUFFER : Z := 64.
Definition DEFAULT_ZENOH_COMMAND_BUFFER : Z := 256.
Definition DEFAULT_ZENOH_EVENT_BUFFER : Z := 128.
Definition DEFAULT_ZENOH_REST_MAX_CONCURRENT_QUERIES : Z := 64.
Definition DEFAULT_INARI_API_MAX_CONCURRENT_REQUESTS : Z := 1024.
Definition ServerConfig_default : ServerConfig :=
  mkServerConfig "127.0.0.1:8080" None Development DEFAULT_REQUEST_TIMEOUT DEFAULT_SHUTDOWN_GRACE_PERIOD (1024 * 1024).
Definition DatabaseConfig_default : DatabaseConfig := mkDatabaseConfig "/var/run/secrets/inari/database-url" true 1 16.
Definition OrganizationConfig_default : OrganizationConfig :=
  mkOrganizationConfig "org_default" "Inari organization" "site_default" "Default site".
Definition RuntimeConfig_default : RuntimeConfig := mkRuntimeConfig None 512 (2 * 1024 * 1024) 61 31 DEFAULT_THREAD_KEEP_ALIVE.
Definition ObservabilityConfig_default : ObservabilityConfig :=
  mkObservabilityConfig "inari-server" "inari_server=debug,tower_http=info,axum=info" LogPretty true false false.
Definition OidcConfig_default : OidcConfig :=
  mkOidcConfig false None "" [] None "urn:inari:managed-workload" ["openid"; "profile"; "email"] "roles" ∅.
Definition CorsConfig_default : CorsConfig :=
  mkCorsConfig false [] ["GET"; "HEAD"; "POST"; "OPTIONS"] ["authorization"; "content-type"; "x-request-id"] ["x-request-id"]
    false DEFAULT_CORS_MAX_AGE.
Definition InariApiConfig_default : InariApiConfig := mkInariApiConfig DEFAULT_INARI_API_MAX_CONCURRENT_REQUESTS.
Definition ZenohRestConfig_default : ZenohRestConfig :=
  mkZenohRestConfig false false DEFAULT_ZENOH_REST_QUERY_TIMEOUT DEFAULT_ZENOH_REST_SSE_KEEP_ALIVE DEFAULT_ZENOH_REST_SSE_BUFFER
    DEFAULT_ZENOH_REST_MAX_CONCURRENT_QUERIES.
Definition HttpConfig_default : HttpConfig := mkHttpConfig CorsConfig_default InariApiConfig_default ZenohRestConfig_default.
Definition ZenohAdminSpaceConfig_default : ZenohAdminSpaceConfig := mkAdminSpaceConfig false true false.
Definition ZenohTlsConfig_default : ZenohTlsConfig := mkZenohTlsConfig None None None None None false false.
Definition ZenohAccessControlConfig_default : ZenohAccessControlConfig := mkZenohAclConfig false AclDeny None [].
Definition ZenohSettings_default : ZenohSettings :=
  mkZenohSettings false ModeClient ZenohAdminSpaceConfig_default [] [] ZenohTlsConfig_default ZenohAccessControlConfig_default
    DEFAULT_ZENOH_RETRY_INTERVAL DEFAULT_ZENOH_COMMAND_BUFFER DEFAULT_ZENOH_EVENT_BUFFER.
Definition RouterPolicyConfig_default : RouterPolicyConfig := mkRouterPolicyConfig "" [] [] "" "" "" "".
Definition ControllerConfig_default : ControllerConfig :=
  mkControllerConfig CONFIG_VERSION ServerConfig_default DatabaseConfig_default OrganizationConfig_default RuntimeConfig_default
    ObservabilityConfig_default OidcConfig_default HttpConfig_default (ManagedGatewayConfig_default RouterPolicyConfig_default)
    OpenBaoConfig_default ZenohSettings_default.
(** [RuntimeConfig::worker_threads]: the configured number, what the host offers, or four. *)
Definition worker_threads (available_parallelism : option Z) (self : RuntimeConfig) : Z :=
  default 4 (match rn_worker_threads self with Some n => Some n | None => available_parallelism end).

(** ** Validation *)
Section Validation.
Context `{UrlParts, UrlParse, KeyExpressions}.

Definition OidcConfig_validate (self : OidcConfig) (server : ServerConfig) : AppResult unit :=
  if negb (oi_enabled self) then Ok tt else
  issuer ← ok_or (oi_issuer_url self) (AppConfig "identity.oidc.issuer_url is required when OIDC is enabled.");
  _ ← ensure (negb (negb (String.eqb (url_scheme issuer) "https") && is_deployed (sv_environment server)))
        (AppConfig "identity.oidc.issuer_url must use HTTPS outside development.");
  _ ← ensure (negb (is_empty (trim (oi_client_id self))))
        (AppConfig "identity.oidc.client_id is required when OIDC is enabled.");
  _ ← ensure (negb (List.existsb (fun audience => is_empty audience || negb (String.eqb (trim audience) audience))
                      (oi_additional_id_token_audiences self)))
        (AppConfig "identity.oidc.additional_id_token_audiences must contain non-empty identifiers without surrounding whitespace.");
  _ ← ensure (negb (is_empty (trim (oi_workload_audience self)))) (AppConfig "identity.oidc.workload_audience must not be empty.");
  _ ← ensure (negb (List.forallb (fun scope => negb (String.eqb scope "openid")) (oi_scopes self)))
        (AppConfig "identity.oidc.scopes must include `openid`.");
  _ ← ensure (negb (is_empty (trim (oi_role_claim self)) || bool_decide (oi_role_mapping self = ∅)))
        (AppConfig "identity.oidc.role_claim and role_mapping are required when OIDC is enabled.");
  public_url ← ok_or (sv_public_url server) (AppConfig "server.public_url is required when OIDC is enabled.");
  ensure (negb (is_deployed (sv_environment server) && negb (String.eqb (url_scheme public_url) "https")))
    (AppConfig "server.public_url must use HTTPS outside development.").
Definition DatabaseConfig_validate (self : DatabaseConfig) (required : bool) : AppResult unit :=
  _ ← ensure (negb (required && is_empty (dc_url_file self)))
        (AppConfig "database.url_file is required when managed controller features are enabled.");
  ensure (negb ((dc_max_connections self =? 0) || (dc_max_connections self <? dc_min_connections self)))
    (AppConfig "database connection limits must be non-zero and min_connections must not exceed max_connections.").
Definition OrganizationConfig_validate (self : OrganizationConfig) : AppResult unit :=
  ensure (negb (is_empty (trim (oc_name self)) || is_empty (trim (oc_default_site_name self))))
    (AppConfig "organization identity and default site fields must not be empty.").
Definition ControllerConfig_validate (self : ControllerConfig) : AppResult ControllerConfig :=
  let gateway := ac_managed_gateway self in
  let deployed := is_deployed (sv_environment (ac_server self)) in
  _ ← ensure (ac_config_version self =? CONFIG_VERSION)
        (AppConfig ("Unsupported config_version " ++ pretty (ac_config_version self) ++ "; expected " ++ pretty CONFIG_VERSION ++ "."));
  _ ← ManagedGatewayConfig_validate gateway;
  _ ← OpenBaoConfig_validate (ac_openbao self) (gc_enabled gateway && pt_enabled (gc_payload_protection gateway));
  _ ← OidcConfig_validate (ac_oidc self) (ac_server self);
  _ ← DatabaseConfig_validate (ac_database self) (gc_enabled gateway || oi_enabled (ac_oidc self));
  _ ← OrganizationConfig_validate (ac_organization self);
  _ ← ensure (negb (deployed && gc_enabled gateway && negb (oi_enabled (ac_oidc self))))
        (AppConfig "identity.oidc.enabled must be true for a deployed managed controller.");
  _ ← ensure (negb (gc_enabled gateway && negb (zn_enabled (ac_zenoh self))))
        (AppConfig "zenoh.enabled must be true when the managed gateway is enabled.");
  _ ← ensure (negb (zr_enabled (ht_zenoh_rest (ac_http self)) && negb (oi_enabled (ac_oidc self))))
        (AppConfig "identity.oidc.enabled must be true when the direct Zenoh HTTP surface is enabled.");
  _ ← ensure (negb (deployed && negb (bool_decide (zn_mode (ac_zenoh self) = ModeClient))))
        (AppConfig "preview and production controllers must connect to a separate Zenoh router in client mode.");
  Ok self.
End Validation.

(** ** What accepted settings guarantee *)
(** An origin a secret may be sent to: HTTPS, with a host and without a path, credentials, query or fragment. *)
Definition https_origin `{UrlParts} (url : string) : Prop :=
  url_scheme url = "https" /\ is_some (url_host url) = true /\ url_path url = "/" /\ url_username url = "" /\
  url_password url = None /\ url_query url = None /\ url_fragment url = None.
Record SafeSettings `{UrlParts} (c : ControllerConfig) : Prop := {
  ss_version : ac_config_version c = CONFIG_VERSION;
  ss_client_mode : is_deployed (sv_environment (ac_server c)) = true -> zn_mode (ac_zenoh c) = ModeClient;
  ss_deployed_identity : is_deployed (sv_environment (ac_server c)) = true -> gc_enabled (ac_managed_gateway c) = true ->
    oi_enabled (ac_oidc c) = true;
  ss_rest_identity : zr_enabled (ht_zenoh_rest (ac_http c)) = true -> oi_enabled (ac_oidc c) = true;
  ss_identity : oi_enabled (ac_oidc c) = true -> exists issuer public_url,
    oi_issuer_url (ac_oidc c) = Some issuer /\ sv_public_url (ac_server c) = Some public_url /\
    "openid" ∈ oi_scopes (ac_oidc c) /\ oi_role_mapping (ac_oidc c) <> ∅ /\
    (is_deployed (sv_environment (ac_server c)) = true -> url_scheme issuer = "https" /\ url_scheme public_url = "https");
  ss_gateway : gc_enabled (ac_managed_gateway c) = true -> zn_enabled (ac_zenoh c) = true /\
    gc_supported_protocol_versions (ac_managed_gateway c) <> [] /\
    dp_connect_endpoints (gc_data_plane (ac_managed_gateway c)) <> [];
  ss_routers : gc_enabled (ac_managed_gateway c) = true ->
    (0 < length (rpc_routers (gc_router_policy (ac_managed_gateway c))) <= 32)%nat /\
    NoDup (rm_router_id <$> rpc_routers (gc_router_policy (ac_managed_gateway c))) /\
    NoDup (rm_address <$> rpc_routers (gc_router_policy (ac_managed_gateway c))) /\
    Forall (fun r => https_origin (rm_address r)) (rpc_routers (gc_router_policy (ac_managed_gateway c)));
  ss_dispatch : gc_enabled (ac_managed_gateway c) = true -> di_enabled (gc_dispatch (ac_managed_gateway c)) = true ->
    pt_enabled (gc_payload_protection (ac_managed_gateway c)) = true /\ di_epoch (gc_dispatch (ac_managed_gateway c)) <> 0 /\
    seconds 10 <= di_envelope_ttl (gc_dispatch (ac_managed_gateway c)) <= seconds 300;
  ss_protection : gc_enabled (ac_managed_gateway c) = true -> pt_enabled (gc_payload_protection (ac_managed_gateway c)) = true ->
    exists address, ob_address (ac_openbao c) = Some address /\ https_origin address;
  ss_database : 0 <= dc_max_connections (ac_database c) ->
    0 < dc_max_connections (ac_database c) /\ dc_min_connections (ac_database c) <= dc_max_connections (ac_database c);
}.

Section Guarantees.
Context `{UrlParts, UrlParse, KeyExpressions}.

Lemma is_none_iff {A} (o : option A) : is_none o = true <-> o = None.
Proof. by destruct o. Qed.
Lemma is_empty_iff s : is_empty s = true <-> s = "".
Proof. by destruct s. Qed.
(** The condition both address checks write, in its order for Routers. *)
Lemma router_address_origin url :
  negb (String.eqb (url_scheme url) "https") || is_none (url_host url) || negb (String.eqb (url_path url) "/")
    || negb (is_empty (url_username url)) || negb (is_none (url_password url)) || negb (is_none (url_query url))
    || negb (is_none (url_fragment url)) = false -> https_origin url.
Proof.
  rewrite !orb_false_iff, !negb_false_iff, !is_none_iff, is_empty_iff, !String.eqb_eq.
  intros ((((((? & Hh) & ?) & ?) & ?) & ?) & ?). split_and!; try done. by destruct (url_host url).
Qed.
Lemma check_routers_Ok ids addresses routers : check_routers ids addresses routers = Ok tt ->
  (forall r, r ∈ routers -> rm_router_id r ∉ ids /\ rm_address r ∉ addresses /\ https_origin (rm_address r)) /\
  NoDup (rm_router_id <$> routers) /\ NoDup (rm_address <$> routers).
Proof.
  revert ids addresses. induction routers as [|r rest IH]; intros ids addresses; simpl.
  { intros _. split_and!; [by intros r Hr%elem_of_nil|constructor|constructor]. }
  match goal with |- context [if ?b then _ else _] => destruct b eqn:E; [done|] end.
  intros (Hrest & Hi & Ha)%IH. rewrite <- !orb_assoc in E.
  apply orb_false_iff in E as [_ E]. apply orb_false_iff in E as [Ei E]. apply orb_false_iff in E as [Ea E].
  rewrite !orb_assoc in E. apply router_address_origin in E. apply bool_decide_eq_false in Ei, Ea.
  split_and!.
  - intros q [->|Hq]%elem_of_cons; [done|]. destruct (Hrest q Hq) as (H1' & H2' & H3'). set_solver.
  - apply NoDup_cons_2; [|done]. intros (q & Eq & Hq)%list_elem_of_fmap. destruct (Hrest q Hq) as (H1' & _). set_solver.
  - apply NoDup_cons_2; [|done]. intros (q & Eq & Hq)%list_elem_of_fmap. destruct (Hrest q Hq) as (_ & H2' & _). set_solver.
Qed.
Lemma RouterPolicyConfig_validate_Ok c : RouterPolicyConfig_validate c = Ok tt ->
  (0 < length (rpc_routers c) <= 32)%nat /\ NoDup (rm_router_id <$> rpc_routers c) /\ NoDup (rm_address <$> rpc_routers c) /\
  Forall (fun r => https_origin (rm_address r)) (rpc_routers c).
Proof.
  unfold RouterPolicyConfig_validate. match goal with |- context [if ?b then _ else _] => destruct b eqn:E; [done|] end.
  intros (Hr & Hi & Ha)%check_routers_Ok. rewrite <- !orb_assoc in E. apply orb_false_iff in E as [En E].
  apply orb_false_iff in E as [El _]. apply bool_decide_eq_false in En.
  split_and!; [destruct (rpc_routers c); [done|simpl; lia]|lia|done|done|].
  apply list.Forall_forall. intros r Hin. apply Hr, Hin.
Qed.
Lemma ManagedGatewayConfig_validate_Ok c : ManagedGatewayConfig_validate c = Ok tt -> gc_enabled c = true ->
  RouterPolicyConfig_validate (gc_router_policy c) = Ok tt /\ gc_supported_protocol_versions c <> [] /\
  dp_connect_endpoints (gc_data_plane c) <> [] /\ (di_enabled (gc_dispatch c) = true -> validate_dispatch c = Ok tt).
Proof.
  unfold ManagedGatewayConfig_validate. intros Hv Hen. rewrite Hen in Hv. simpl in Hv.
  apply bind_Ok in Hv as ([] & Hr & Hv). apply bind_Ok in Hv as (? & Hp%ensure_Ok & Hv). apply bind_Ok in Hv as (? & He%ensure_Ok & Hv).
  apply bind_Ok in Hv as (? & _ & Hv). apply bind_Ok in Hv as (? & _ & Hv). apply bind_Ok in Hv as (? & _ & Hv).
  apply bind_Ok in Hv as ([] & Hd & Hv). apply negb_true_iff, bool_decide_eq_false in Hp, He.
  split_and!; try done. intros Hdi. by rewrite Hdi in Hd.
Qed.
Lemma validate_dispatch_Ok c : validate_dispatch c = Ok tt ->
  pt_enabled (gc_payload_protection c) = true /\ di_epoch (gc_dispatch c) <> 0 /\
  seconds 10 <= di_envelope_ttl (gc_dispatch c) <= seconds 300.
Proof.
  unfold validate_dispatch. intros Hv. apply bind_Ok in Hv as (? & Hk%ensure_Ok & Hv). apply bind_Ok in Hv as (? & _ & Hv).
  apply bind_Ok in Hv as (? & Ht%ensure_Ok & Hv%ensure_Ok).
  rewrite negb_true_iff, !orb_false_iff in Hk. destruct Hk as [_ Hk].
  split_and!; [done|lia|..]; unfold seconds in *; bools; lia.
Qed.
Lemma OpenBaoConfig_validate_Ok c : OpenBaoConfig_validate c true = Ok tt -> exists address, ob_address c = Some address /\ https_origin address.
Proof.
  unfold OpenBaoConfig_validate. destruct (ob_address c) as [address|]; [|done]. intros Hv.
  apply bind_Ok in Hv as (? & Ha%ensure_Ok & _). exists address. split; [done|].
  rewrite negb_true_iff, !orb_false_iff, !negb_false_iff, is_empty_iff, !String.eqb_eq in Ha.
  destruct Ha as ((((((? & ?) & ?) & Hq) & Hf) & ?) & Hp). unfold https_origin. split_and!; try done;
    [by destruct (url_password address)|by destruct (url_query address)|by destruct (url_fragment address)].
Qed.
Lemma OidcConfig_validate_Ok c server : OidcConfig_validate c server = Ok tt -> oi_enabled c = true -> exists issuer public_url,
  oi_issuer_url c = Some issuer /\ sv_public_url server = Some public_url /\ "openid" ∈ oi_scopes c /\ oi_role_mapping c <> ∅ /\
  (is_deployed (sv_environment server) = true -> url_scheme issuer = "https" /\ url_scheme public_url = "https").
Proof.
  unfold OidcConfig_validate. intros Hv Hen. rewrite Hen in Hv. simpl in Hv.
  apply bind_Ok in Hv as (issuer & Hi%ok_or_Ok & Hv). apply bind_Ok in Hv as (? & Hs%ensure_Ok & Hv).
  do 3 (apply bind_Ok in Hv as (? & _ & Hv)). apply bind_Ok in Hv as (? & Ho%ensure_Ok & Hv).
  apply bind_Ok in Hv as (? & Hm%ensure_Ok & Hv). apply bind_Ok in Hv as (public_url & Hp%ok_or_Ok & Hv%ensure_Ok).
  exists issuer, public_url. rewrite negb_true_iff in Hs, Ho, Hm, Hv. apply orb_false_iff in Hm as [_ Hm%bool_decide_eq_false].
  split_and!; try done.
  - destruct (decide ("openid" ∈ oi_scopes c)) as [Hin|Hout]; [done|]. exfalso.
    rewrite (proj2 (List.forallb_forall _ _)) in Ho; [done|]. intros scope Hsc. apply negb_true_iff, String.eqb_neq.
    intros ->. apply Hout. by apply list_elem_of_In.
  - intros Hd. rewrite Hd in Hs, Hv. simpl in *. rewrite andb_true_r in Hs.
    apply negb_false_iff, String.eqb_eq in Hs, Hv. done.
Qed.
Lemma ControllerConfig_validate_Ok c c' : ControllerConfig_validate c = Ok c' -> c' = c /\ SafeSettings c.
Proof.
  unfold ControllerConfig_validate. intros Hv.
  apply bind_Ok in Hv as (? & Hver%ensure_Ok & Hv). apply bind_Ok in Hv as ([] & Hg & Hv). apply bind_Ok in Hv as ([] & Hb & Hv).
  apply bind_Ok in Hv as ([] & Ho & Hv). apply bind_Ok in Hv as (? & Hd & Hv). apply bind_Ok in Hv as (? & _ & Hv).
  apply bind_Ok in Hv as (? & Hdep%ensure_Ok & Hv). apply bind_Ok in Hv as (? & Hz%ensure_Ok & Hv).
  apply bind_Ok in Hv as (? & Hr%ensure_Ok & Hv). apply bind_Ok in Hv as (? & Hm%ensure_Ok & <-%Ok_inj). split; [done|].
  unfold DatabaseConfig_validate in Hd. apply bind_Ok in Hd as (? & _ & Hd%ensure_Ok).
  split.
  - lia.
  - intros E. rewrite E in Hm. simpl in Hm. rewrite negb_involutive in Hm. by apply bool_decide_eq_true in Hm.
  - intros E Eg. rewrite E, Eg in Hdep. simpl in Hdep. by rewrite negb_involutive in Hdep.
  - intros E. rewrite E in Hr. simpl in Hr. by rewrite negb_involutive in Hr.
  - by apply OidcConfig_validate_Ok.
  - intros E. destruct (ManagedGatewayConfig_validate_Ok _ Hg E) as (_ & ? & ? & _). rewrite E in Hz. simpl in Hz.
    rewrite negb_involutive in Hz. done.
  - intros E. apply RouterPolicyConfig_validate_Ok, ManagedGatewayConfig_validate_Ok; done.
  - intros E Ed. apply validate_dispatch_Ok, ManagedGatewayConfig_validate_Ok; done.
  - intros E Ep. rewrite E, Ep in Hb. by apply OpenBaoConfig_validate_Ok.
  - intros Hn. rewrite negb_true_iff in Hd. lia.
Qed.
(** Out of the box nothing is exposed and the settings are accepted. *)
Lemma default_settings_are_accepted : ControllerConfig_validate ControllerConfig_default = Ok ControllerConfig_default.
Proof. reflexivity. Qed.
End Guarantees.

(** ** Where a setting came from *)
(** The merged tree of the [config] crate: every value carries the layer that supplied it.  A table is a map, kept as its
    entries in the order the map lists them; every other kind of value, arrays included, is a leaf. *)
Inductive Tree : Type :=
| Leaf (origin : option string)
| Table (origin : option string) (entries : list (string * Tree)).
Inductive Origin : Type := OriginDefault | OriginFile (path : string) | OriginEnvironment | OriginUnknown (origin : string).
#[global] Instance Origin_eq_dec : EqDecision Origin.
Proof. solve_decision. Defined.
Definition is_default (o : Origin) : bool := match o with OriginDefault => true | _ => false end.
Definition Origin_to_string (o : Origin) : string :=
  match o with
  | OriginDefault => "built-in default"
  | OriginFile path => path
  | OriginEnvironment => "environment"
  | OriginUnknown origin => "unrecognized source (" ++ origin ++ ")"
  end.
Definition ENVIRONMENT_ORIGIN : string := "the environment".
Definition classify (origin : option string) : Origin :=
  match origin with
  | None => OriginDefault
  | Some other =>
      if String.eqb other ENVIRONMENT_ORIGIN then OriginEnvironment
      else if contains_any [47] other then OriginFile other
      else OriginUnknown other
  end.
(** [Map::get]: the names of a table are distinct. *)
Fixpoint table_get (name : string) (entries : list (string * Tree)) : option Tree :=
  match entries with
  | [] => None
  | (k, child) :: rest => if String.eqb k name then Some child else table_get name rest
  end.
Fixpoint descend (value : Tree) (segments : list string) : option Tree :=
  match segments with
  | [] => Some value
  | segment :: rest =>
      match value with
      | Leaf _ => None
      | Table _ entries => match table_get segment entries with Some child => descend child rest | None => None end
      end
  end.
Definition origin_of (root : Tree) (key : string) : option Origin :=
  match descend root (split_on "." key) with
  | Some (Leaf origin) => Some (classify origin)
  | _ => None
  end.
(** [prefix] is restored after each child. *)
Definition push_name (prefix name : string) : string := if is_empty prefix then name else prefix ++ "." ++ name.
Fixpoint collect (value : Tree) (prefix : string) : list (string * Origin) :=
  match value with
  | Table _ entries => flat_map (fun e => collect (snd e) (push_name prefix (fst e))) entries
  | Leaf origin => [(prefix, classify origin)]
  end.
Definition key_le (a b : string * Origin) : bool := String.leb (fst a) (fst b).
Definition Provenance_all (root : Tree) : list (string * Origin) := order_by key_le (collect root "").
Definition Provenance_overrides (root : Tree) : list (string * Origin) :=
  List.filter (fun s => negb (is_default (snd s))) (Provenance_all root).

(** *** The report is complete *)
(** The names of each table are distinct, not empty and without the separator. *)
Definition setting_name (s : string) : bool := negb (is_empty s) && all_bytes (fun c => negb (Ascii.eqb c ".")) s.
Fixpoint named (t : Tree) : Prop :=
  match t with
  | Leaf _ => True
  | Table _ entries => NoDup (fst <$> entries) /\ Forall (fun e => setting_name (fst e) = true) entries /\
      (fix all l := match l with [] => True | e :: l' => named (snd e) /\ all l' end) entries
  end.
(** The settings by the names on the way to them. *)
Fixpoint paths (t : Tree) : list (list string * Origin) :=
  match t with
  | Leaf origin => [([], classify origin)]
  | Table _ entries => flat_map (fun e => (fun p => (fst e :: fst p, snd p)) <$> paths (snd e)) entries
  end.
Lemma tree_ind' (P : Tree -> Prop) : (forall o, P (Leaf o)) ->
  (forall o entries, Forall (fun e => P (snd e)) entries -> P (Table o entries)) -> forall t, P t.
Proof.
  intros Hl Ht. fix IH 1. intros [o|o entries]; [apply Hl|apply Ht].
  induction entries as [|[k t] rest IHr]; constructor; [apply IH|exact IHr].
Qed.
Lemma named_children o entries : named (Table o entries) ->
  NoDup (fst <$> entries) /\ forall e, e ∈ entries -> setting_name (fst e) = true /\ named (snd e).
Proof.
  simpl. intros (Hn & Hs & Ha). split; [done|]. clear Hn. revert Hs Ha. induction entries as [|e rest IH]; intros Hs Ha.
  { by intros e ?%elem_of_nil. }
  apply Forall_cons_1 in Hs as [Hs1 Hs2]. destruct Ha as [Ha1 Ha2]. intros q [->|Hq]%elem_of_cons; [done|]. by apply IH.
Qed.
Lemma table_get_iff name child entries : NoDup (fst <$> entries) -> table_get name entries = Some child <-> (name, child) ∈ entries.
Proof.
  induction entries as [|[k t] rest IH]; simpl; [by rewrite elem_of_nil|].
  intros [Hk Hn]%list.NoDup_cons. rewrite elem_of_cons. destruct (String.eqb_spec k name) as [->|Hne].
  - split; [intros [= ->]; by left|]. intros [[= ->]|Hin]; [done|]. exfalso. apply Hk, list_elem_of_fmap. by exists (name, child).
  - rewrite IH by done. split; [by right|]. intros [[= -> ->]|]; done.
Qed.
Lemma paths_iff t segments o : named t ->
  (segments, o) ∈ paths t <-> exists origin, descend t segments = Some (Leaf origin) /\ o = classify origin.
Proof.
  revert segments. induction t as [origin|origin entries IH] using tree_ind'; intros segments Hn.
  - simpl. rewrite list_elem_of_singleton. split.
    + intros [= -> ->]. by exists origin.
    + intros (w & Hd & ->). destruct segments; [|done]. simpl in Hd. by injection Hd as <-.
  - destruct (named_children _ _ Hn) as [Hd Hc]. simpl. rewrite list_elem_of_In, in_flat_map. split.
    + intros (e & He%list_elem_of_In & Hp). apply list_elem_of_In, list_elem_of_fmap in Hp as ([s o'] & [= -> ->] & Hp).
      rewrite list.Forall_forall in IH. apply (IH e He s (proj2 (Hc e He))) in Hp as (w & Hw & ->). exists w. split; [|done].
      simpl. rewrite (proj2 (table_get_iff (fst e) (snd e) entries Hd)); [done|]. by destruct e.
    + intros (w & Hw & ->). destruct segments as [|name rest]; [done|]. simpl in Hw.
      destruct (table_get name entries) as [child|] eqn:Eg; [|done]. apply table_get_iff in Eg; [|done].
      exists (name, child). split; [by apply list_elem_of_In|]. apply list_elem_of_In, list_elem_of_fmap. exists (rest, classify w). split; [done|].
      rewrite list.Forall_forall in IH. apply (IH _ Eg); [apply (Hc _ Eg)|]. eauto.
Qed.
Lemma paths_NoDup t : named t -> NoDup (fst <$> paths t).
Proof.
  induction t as [origin|origin entries IH] using tree_ind'; intros Hn; [by repeat constructor; apply not_elem_of_nil|].
  destruct (named_children _ _ Hn) as [Hd Hc]. clear Hn. simpl. induction entries as [|e rest IHr]; [constructor|].
  simpl in *. apply list.NoDup_cons in Hd as [He Hd]. apply Forall_cons_1 in IH as [IHe IHrest].
  rewrite fmap_app. apply list.NoDup_app. rewrite <- list_fmap_compose. split_and!.
  - assert ((fst ∘ (fun p : list string * Origin => (fst e :: fst p, snd p)) <$> paths (snd e)) =
      cons (fst e) <$> (fst <$> paths (snd e))) as -> by (by rewrite <- list_fmap_compose).
    apply NoDup_fmap_2; [by intros ?? [= ->]|]. apply IHe, Hc, elem_of_cons. by left.
  - intros s (p & -> & Hp)%list_elem_of_fmap (q & Eq & Hq)%list_elem_of_fmap. apply He.
    apply list_elem_of_In, in_flat_map in Hq as (e' & He' & Hq). apply list_elem_of_In, list_elem_of_fmap in Hq as (p' & -> & _).
    simpl in Eq. injection Eq as -> _. apply list_elem_of_fmap. exists e'. split; [done|]. by apply list_elem_of_In.
  - apply IHr; [done|done|]. intros q Hq. apply Hc, elem_of_cons. by right.
Qed.
Definition path_key (prefix : string) (segments : list string) : string := foldl push_name prefix segments.
Lemma collect_paths t prefix : collect t prefix = (fun p => (path_key prefix (fst p), snd p)) <$> paths t.
Proof.
  revert prefix. induction t as [origin|origin entries IH] using tree_ind'; intros prefix; [done|]. simpl.
  induction entries as [|e rest IHr]; [done|]. apply Forall_cons_1 in IH as [IHe IHrest]. simpl.
  rewrite fmap_app, (IHr IHrest), IHe. f_equal. by rewrite <- list_fmap_compose.
Qed.
Lemma paths_names t segments o : named t -> (segments, o) ∈ paths t -> Forall (fun s => setting_name s = true) segments.
Proof.
  revert segments. induction t as [origin|origin entries IH] using tree_ind'; intros segments Hn; simpl.
  - intros [= -> _]%list_elem_of_singleton. constructor.
  - destruct (named_children _ _ Hn) as [_ Hc]. rewrite list_elem_of_In, in_flat_map. intros (e & He%list_elem_of_In & Hp).
    apply list_elem_of_In, list_elem_of_fmap in Hp as ([s o'] & [= -> ->] & Hp). rewrite list.Forall_forall in IH.
    destruct (Hc e He) as [Hs Hne]. constructor; [done|]. by apply (IH e He s).
Qed.
(** A key is the names joined by the separator, so splitting it gives them back. *)
Lemma path_key_split rest prefix : is_empty prefix = false -> Forall (fun s => setting_name s = true) rest ->
  split_on "." (path_key prefix rest) = (split_on "." prefix ++ rest)%list.
Proof.
  revert prefix. induction rest as [|name rest IH]; intros prefix Hp Hr; [by rewrite app_nil_r|].
  apply Forall_cons_1 in Hr as [Hn Hr]. unfold setting_name in Hn. apply andb_true_iff in Hn as [Hn1 Hn2].
  unfold path_key. simpl. fold (path_key (push_name prefix name) rest). unfold push_name. rewrite Hp.
  rewrite IH; [|by destruct prefix|done]. rewrite (split_on_app "." prefix name), (split_on_none "." name Hn2).
  by rewrite <- app_assoc.
Qed.
Lemma path_key_names segments : segments <> [] -> Forall (fun s => setting_name s = true) segments ->
  split_on "." (path_key "" segments) = segments.
Proof.
  destruct segments as [|name rest]; [done|]. intros _ [Hn Hr]%Forall_cons_1.
  change (path_key "" (name :: rest)) with (path_key name rest). unfold setting_name in Hn. apply andb_true_iff in Hn as [Hn1%negb_true_iff Hn2].
  rewrite (path_key_split rest name Hn1 Hr). by rewrite (split_on_none "." name Hn2).
Qed.

Lemma string_leb_total a b : String.leb a b = true \/ String.leb b a = true.
Proof. unfold String.leb. rewrite (String.compare_antisym a b). by destruct (String.compare b a); simpl; auto. Qed.
Lemma string_compare_le_trans a b c : String.compare a b <> Gt -> String.compare b c <> Gt -> String.compare a c <> Gt.
Proof.
  revert b c. induction a as [|x a IH]; intros [|y b] [|z c]; simpl; try done.
  unfold Ascii.compare. destruct (N.compare_spec (N_of_ascii x) (N_of_ascii y)) as [E|E|E]; try done;
    destruct (N.compare_spec (N_of_ascii y) (N_of_ascii z)) as [F|F|F]; try done;
    destruct (N.compare_spec (N_of_ascii x) (N_of_ascii z)) as [G|G|G]; try done; try lia. apply IH.
Qed.
Lemma string_leb_trans a b c : String.leb a b = true -> String.leb b c = true -> String.leb a c = true.
Proof.
  unfold String.leb. pose proof (string_compare_le_trans a b c) as Ht.
  destruct (String.compare a b), (String.compare b c), (String.compare a c); naive_solver.
Qed.
Lemma elem_of_collect root key o : named root -> (exists origin entries, root = Table origin entries) ->
  (key, o) ∈ collect root "" <-> origin_of root key = Some o.
Proof.
  intros Hn (origin & entries & Er). rewrite collect_paths, list_elem_of_fmap. unfold origin_of. split.
  - intros ([segments o'] & [= -> ->] & Hp). pose proof (paths_names _ _ _ Hn Hp) as Hs.
    apply paths_iff in Hp as (w & Hw & ->); [|done].
    rewrite path_key_names, Hw; [done| |done]. intros ->. simpl in Hw. congruence.
  - destruct (descend root (split_on "." key)) as [[w|]|] eqn:E; try done. intros [= <-].
    assert ((split_on "." key, classify w) ∈ paths root) as Hp by (apply paths_iff; eauto).
    exists (split_on "." key, classify w). split; [|done]. simpl. f_equal.
    assert (Hk : split_on "." (path_key "" (split_on "." key)) = split_on "." key).
    { apply path_key_names; [apply split_on_nonempty|]. by apply (paths_names root _ (classify w)). }
    apply (f_equal (String.concat ".")) in Hk. by rewrite !(split_on_join ".") in Hk.
Qed.

(** What the report should say, by the layers themselves: a setting that the [config] crate recorded no layer for is a
    built-in default, one it recorded the environment for came from there, one with a path came from that file, and any other
    text is reported as it is. *)
Definition supplied (recorded : option string) (o : Origin) : Prop :=
  match o with
  | OriginDefault => recorded = None
  | OriginEnvironment => recorded = Some "the environment"
  | OriginFile path => recorded = Some path /\ path <> "the environment" /\ "/"%char ∈ list_ascii_of_string path
  | OriginUnknown text => recorded = Some text /\ text <> "the environment" /\ "/"%char ∉ list_ascii_of_string text
  end.
(** A value that is no table, below the tables of these names. *)
Inductive leaf_at : Tree -> list string -> option string -> Prop :=
| leaf_here recorded : leaf_at (Leaf recorded) [] recorded
| leaf_below origin entries name child names recorded : (name, child) ∈ entries -> leaf_at child names recorded ->
    leaf_at (Table origin entries) (name :: names) recorded.
Lemma contains_slash s : contains_any [47] s = true <-> "/"%char ∈ list_ascii_of_string s.
Proof.
  induction s as [|c s IH]; simpl; [by rewrite elem_of_nil|]. rewrite orb_true_iff, IH, elem_of_cons.
  assert (((code c =? 47) || false = true) <-> "/"%char = c) as ->; [|tauto].
  rewrite orb_false_r, Z.eqb_eq. split; [|by intros <-]. intros E. unfold code in E.
  rewrite <- (ascii_N_embedding c). by replace (N_of_ascii c) with 47%N by lia.
Qed.
Lemma classify_supplied recorded o : classify recorded = o <-> supplied recorded o.
Proof.
  unfold classify, supplied, ENVIRONMENT_ORIGIN. destruct recorded as [text|]; [|by destruct o; naive_solver].
  pose proof (contains_slash text) as Hs. destruct (String.eqb_spec text "the environment") as [->|Hne].
  - destruct o; naive_solver.
  - destruct (contains_any [47] text).
    + assert ("/"%char ∈ list_ascii_of_string text) by (by apply Hs). destruct o; naive_solver.
    + assert ("/"%char ∉ list_ascii_of_string text) by (by intros ?%Hs). destruct o; naive_solver.
Qed.
Lemma descend_leaf t names recorded : named t -> descend t names = Some (Leaf recorded) <-> leaf_at t names recorded.
Proof.
  revert names. induction t as [origin|origin entries IH] using tree_ind'; intros names Hn.
  - split; [|by inversion 1]. destruct names; [|done]. intros [= <-]. constructor.
  - destruct (named_children _ _ Hn) as [Hd Hc]. rewrite list.Forall_forall in IH. destruct names as [|name rest]; simpl; [by split; inversion 1|]. split.
    + destruct (table_get name entries) as [child|] eqn:Eg; [|done]. apply table_get_iff in Eg; [|done]. intros Hr.
      econstructor; [exact Eg|]. by apply (IH _ Eg); [apply (Hc _ Eg)|].
    + inversion 1 as [|? ? ? child ? ? Hin Hl]; subst. rewrite (proj2 (table_get_iff name child entries Hd) Hin).
      by apply (IH _ Hin); [apply (Hc _ Hin)|].
Qed.
Lemma leaf_names t names recorded : named t -> leaf_at t names recorded -> Forall (fun s => setting_name s = true) names.
Proof.
  intros Hn Hl. apply descend_leaf in Hl; [|done]. eapply paths_names; [exact Hn|]. apply paths_iff; [done|]. eauto.
Qed.
Lemma names_joined names : names <> [] -> Forall (fun s => setting_name s = true) names -> split_on "." (String.concat "." names) = names.
Proof.
  intros Hne Hs. pose proof (path_key_names names Hne Hs) as E. pose proof (f_equal (String.concat ".") E) as F.
  rewrite (split_on_join ".") in F. by rewrite <- F.
Qed.
Lemma origin_of_supplied origin entries (root := Table origin entries) key o : named root ->
  origin_of root key = Some o <-> exists names recorded, leaf_at root names recorded /\ key = String.concat "." names /\ supplied recorded o.
Proof.
  intros Hn. unfold origin_of. split.
  - destruct (descend root (split_on "." key)) as [[w|]|] eqn:E; try done. intros [= Ho].
    exists (split_on "." key), w. split_and!; [by apply descend_leaf|by rewrite (split_on_join ".")|by apply classify_supplied].
  - intros (names & w & Hl & -> & Ho%classify_supplied). rewrite names_joined; [|by intros ->; inversion Hl|by eapply leaf_names].
    rewrite (proj2 (descend_leaf _ _ _ Hn) Hl). by rewrite Ho.
Qed.

(** C33: the report of a configuration's layers is complete and truthful.  Take a merged tree whose tables have distinct
    names that are not empty and have no dots.  A key is listed with a layer exactly when it is the dotted path of a
    setting and that layer supplied it: no recorded layer is a built-in default, the environment is the environment, a path
    is that file, and any other record is reported as it is.  Looking a key up answers the same; every setting is listed once, in the
    order of the keys; and the overrides are exactly the settings that no built-in default supplied. *)
Theorem provenance_is_complete origin entries (root := Table origin entries) : named root ->
  (forall key o, (key, o) ∈ Provenance_all root <->
     exists names recorded, leaf_at root names recorded /\ key = String.concat "." names /\ supplied recorded o) /\
  (forall key o, origin_of root key = Some o <-> (key, o) ∈ Provenance_all root) /\
  NoDup (fst <$> Provenance_all root) /\
  StronglySorted (fun a b => String.leb (fst a) (fst b) = true) (Provenance_all root) /\
  (forall key o, (key, o) ∈ Provenance_overrides root <-> (key, o) ∈ Provenance_all root /\ o <> OriginDefault).
Proof.
  intros Hn. assert (Hall : forall key o, (key, o) ∈ Provenance_all root <-> origin_of root key = Some o).
  { intros key o. unfold Provenance_all. rewrite elem_of_order_by. apply elem_of_collect; [done|]. by exists origin, entries. }
  split_and!.
  - intros key o. rewrite Hall. by apply origin_of_supplied.
  - intros key o. by rewrite Hall.
  - unfold Provenance_all. rewrite order_by_Permutation, collect_paths, <- list_fmap_compose.
    assert ((fst ∘ (fun p : list string * Origin => (path_key "" (fst p), snd p)) <$> paths root) =
      path_key "" <$> (fst <$> paths root)) as -> by (by rewrite <- list_fmap_compose).
    apply NoDup_fmap_2_strong; [|by apply paths_NoDup].
    assert (Hok : forall s, s ∈ fst <$> paths root -> split_on "." (path_key "" s) = s).
    { intros s ([s' o] & -> & Hp)%list_elem_of_fmap. apply path_key_names; [|by apply (paths_names root _ o)].
      intros E. simpl in E. subst s'. apply paths_iff in Hp as (w & Hw & _); [done|done]. }
    intros s s' Hs Hs' E. rewrite <- (Hok s Hs), <- (Hok s' Hs'). by rewrite E.
  - apply order_by_sorted; unfold key_le; [intros a b c; apply string_leb_trans|intros a b; apply string_leb_total].
  - intros key o. unfold Provenance_overrides. rewrite list_elem_of_In, List.filter_In, <- list_elem_of_In. simpl.
    destruct o; naive_solver.
Qed.

(** ** Loading *)
(** [ConfigError], with [ConfigError::invalid] as [ConfigInvalid]; the server reports it as [AppConfig] of its text. *)
Inductive ConfigError : Type :=
| ConfigMissingExplicitPath (key path : string)
| ConfigInvalid (message : string)
| ConfigSerializeDefaults
| ConfigBuild
| ConfigDeserialize.
Definition ConfigError_to_string (e : ConfigError) : string :=
  match e with
  | ConfigMissingExplicitPath key path => "configuration file specified by " ++ key ++ " does not exist: " ++ path
  | ConfigInvalid message => message
  | ConfigSerializeDefaults => "failed to serialize the default configuration layer"
  | ConfigBuild => "failed to build layered configuration"
  | ConfigDeserialize => "failed to deserialize layered configuration"
  end.
Definition CONFIG_PATH_ENV : string := "INARI_SERVER_CONFIG".
Definition ENV_PREFIX : string := "INARI_SERVER".
Definition ENV_SEPARATOR : string := "__".
Definition DEFAULT_CONFIG_CANDIDATES : list string := ["inari-server.toml"; "config/inari-server.toml"].
Definition ENV_LIST_KEYS : list string :=
  ["http.cors.allow_origins"; "http.cors.allow_methods"; "http.cors.allow_headers"; "http.cors.expose_headers";
   "identity.oidc.scopes"; "identity.oidc.additional_id_token_audiences"; "managed_gateway.controller_actions";
   "managed_gateway.supported_protocol_versions"; "managed_gateway.data_plane.connect_endpoints";
   "managed_gateway.router_policy.trusted_peer_common_names"; "zenoh.access_control.managed_gateway_cert_common_names";
   "zenoh.connect_endpoints"; "zenoh.listen_endpoints"].
(** [config::Environment] as the builder leaves it. *)
Record Environment := mkEnvironment {
  en_prefix : string;
  en_prefix_separator : string;
  en_separator : string;
  en_ignore_empty : bool;
  en_list_separator : string;
  en_try_parsing : bool;
  en_list_parse_keys : list string;
  en_source : option (gmap string string);
}.
(** A layer, in the order the layers are added: a later one wins. *)
Inductive Layer : Type := LayerText (toml : string) | LayerFile (path : string) | LayerEnvironment (environment : Environment).
(** [toml::to_string], [ConfigBuilder::build] and [Config::try_deserialize]. *)
Class ConfigCrate := {
  toml_to_string : ControllerConfig -> option string;
  config_build : list Layer -> option Tree;
  config_deserialize : Tree -> option ControllerConfig;
}.
Definition is_environment_override_key (key : string) : bool :=
  starts_with (ENV_PREFIX ++ "_") key && negb (String.eqb key CONFIG_PATH_ENV).
Definition build_environment_source : Environment :=
  mkEnvironment ENV_PREFIX "_" ENV_SEPARATOR true "," true ENV_LIST_KEYS None.
Definition environment_source_with (source : gmap string string) : Environment :=
  let e := build_environment_source in
  mkEnvironment (en_prefix e) (en_prefix_separator e) (en_separator e) (en_ignore_empty e) (en_list_separator e)
    (en_try_parsing e) (en_list_parse_keys e)
    (Some (filter (fun kv => is_environment_override_key (fst kv) = true) source)).
(** The variables of the process: names and values are any bytes.  [env::vars] panics, here [None], on the first that is
    not UTF-8; collecting them into a map keeps the last of a name. *)
Definition os_variables := list (string * string).
Fixpoint env_vars `{Utf8} (variables : os_variables) : option (gmap string string) :=
  match variables with
  | [] => Some ∅
  | (k, v) :: rest =>
      match from_utf8 k, from_utf8 v with
      | Some k', Some v' => (fun m => match m !! k' with Some _ => m | None => <[k' := v']> m end) <$> env_vars rest
      | _, _ => None
      end
  end.
Definition environment_source `{Utf8} (variables : os_variables) : option Environment :=
  environment_source_with <$> env_vars variables.
(** [env::var_os]: the value of the first variable of that name. *)
Fixpoint var_os (key : string) (variables : os_variables) : option string :=
  match variables with
  | [] => None
  | (k, v) :: rest => if String.eqb k key then Some v else var_os key rest
  end.
Record ConfigOrigin := mkConfigOrigin { og_files : list string; og_includes_environment : bool }.
Definition ConfigOrigin_to_string (o : ConfigOrigin) : string :=
  match og_files o, og_includes_environment o with
  | [], true => "defaults + environment"
  | [], false => "defaults"
  | [file], true => file ++ " + environment"
  | [file], false => file
  | files, includes_environment =>
      let files := String.concat ", " files in if includes_environment then files ++ " + environment" else files
  end.
Record LoadedConfig := mkLoadedConfig { ld_settings : ControllerConfig; ld_origin : ConfigOrigin; ld_raw : Tree }.

Section Load.
Context `{UrlParts, UrlParse, KeyExpressions, ConfigCrate, Utf8}.
Definition config_error {A} (e : ConfigError) : AppResult A := Err (AppConfig (ConfigError_to_string e)).
(** [exists_] is [Path::exists]. *)
Definition config_files (exists_ : string -> bool) (explicit_path : option string) : AppResult (list string) :=
  match explicit_path with
  | Some path => if exists_ path then Ok [path] else config_error (ConfigMissingExplicitPath CONFIG_PATH_ENV path)
  | None => Ok (List.filter exists_ DEFAULT_CONFIG_CANDIDATES)
  end.
Definition discover (exists_ : string -> bool) (variables : os_variables) : AppResult ConfigOrigin :=
  files ← config_files exists_ (var_os CONFIG_PATH_ENV variables);
  Ok (mkConfigOrigin files (List.existsb (fun kv => match from_utf8 (fst kv) with
                                                   | Some key => is_environment_override_key key
                                                   | None => false
                                                   end) variables)).
Definition build_settings (files : list string) (environment : Environment) : AppResult (ControllerConfig * Tree) :=
  defaults ← ok_or (toml_to_string ControllerConfig_default) (AppConfig (ConfigError_to_string ConfigSerializeDefaults));
  config ← ok_or (config_build (LayerText defaults :: (LayerFile <$> files) ++ [LayerEnvironment environment])%list)
             (AppConfig (ConfigError_to_string ConfigBuild));
  settings ← ok_or (config_deserialize config) (AppConfig (ConfigError_to_string ConfigDeserialize));
  settings ← ControllerConfig_validate settings;
  Ok (settings, config).
Definition load_with (origin : ConfigOrigin) (environment : Environment) : AppResult LoadedConfig :=
  '(settings, raw) ← build_settings (og_files origin) environment;
  Ok (mkLoadedConfig settings origin raw).
(** [None] is a panic. *)
Definition LoadedConfig_load (exists_ : string -> bool) (variables : os_variables) : option (AppResult LoadedConfig) :=
  match discover exists_ variables with
  | Err e => Some (Err e)
  | Ok origin => (fun environment => load_with origin environment) <$> environment_source variables
  end.
Definition load_from_environment_map (exists_ : string -> bool) (overrides : gmap string string) : AppResult LoadedConfig :=
  files ← config_files exists_ None;
  load_with (mkConfigOrigin files (negb (bool_decide (overrides = ∅)))) (environment_source_with overrides).

Lemma load_with_Ok origin environment l : load_with origin environment = Ok l ->
  ld_origin l = origin /\ SafeSettings (ld_settings l) /\ config_deserialize (ld_raw l) = Some (ld_settings l) /\
  exists defaults, toml_to_string ControllerConfig_default = Some defaults /\
    config_build (LayerText defaults :: (LayerFile <$> og_files origin) ++ [LayerEnvironment environment])%list = Some (ld_raw l).
Proof.
  unfold load_with. intros Hl. apply bind_Ok in Hl as ([settings raw] & Hb & <-%Ok_inj). unfold build_settings in Hb.
  apply bind_Ok in Hb as (defaults & Hd%ok_or_Ok & Hb). apply bind_Ok in Hb as (config & Hc%ok_or_Ok & Hb).
  apply bind_Ok in Hb as (s & Hs%ok_or_Ok & Hb). apply bind_Ok in Hb as (s' & Hv & E%Ok_inj).
  apply ControllerConfig_validate_Ok in Hv as [-> Hsafe]. injection E as <- <-. simpl. eauto 10.
Qed.
Lemma config_files_Ok exists_ path files : config_files exists_ path = Ok files -> Forall (fun f => exists_ f = true) files /\
  (forall p, path = Some p -> files = [p]).
Proof.
  destruct path as [p|]; unfold config_files.
  - destruct (exists_ p) eqn:E; [|done]. intros <-%Ok_inj. split; [by repeat constructor|]. by intros ? [= ->].
  - intros <-%Ok_inj. split; [|done]. apply list.Forall_forall. intros f Hf. apply list_elem_of_In, List.filter_In in Hf. apply Hf.
Qed.

(** What the map of the variables holds: of each name that is UTF-8 the last value. *)
Definition last_value (variables : os_variables) (key value : string) : Prop :=
  exists before raw_key raw_value after, variables = (before ++ (raw_key, raw_value) :: after)%list /\
    from_utf8 raw_key = Some key /\ from_utf8 raw_value = Some value /\
    Forall (fun kv => from_utf8 (fst kv) <> Some key) after.
Lemma env_vars_name variables m key : env_vars variables = Some m ->
  is_Some (m !! key) <-> exists kv, kv ∈ variables /\ from_utf8 (fst kv) = Some key.
Proof.
  revert m. induction variables as [|[k v] rest IH]; intros m; simpl.
  { intros [= <-]. rewrite lookup_empty. split; [by intros []|]. intros (kv & []%elem_of_nil & _). }
  destruct (from_utf8 k) as [k'|] eqn:Ek; [|done]. destruct (from_utf8 v) as [v'|] eqn:Ev; [|done].
  destruct (env_vars rest) as [m0|]; [|done]. intros [= <-]. specialize (IH m0 eq_refl).
  assert (is_Some ((match m0 !! k' with Some _ => m0 | None => <[k' := v']> m0 end) !! key) <-> key = k' \/ is_Some (m0 !! key)) as ->.
  { destruct (m0 !! k') as [x|] eqn:E; [split; [auto|intros [->|?]; eauto]|]. destruct (decide (key = k')) as [->|].
    - rewrite lookup_insert_eq. split; eauto.
    - rewrite lookup_insert_ne by done. tauto. }
  rewrite IH. split.
  - intros [->|(kv & Hin & E)]; [exists (k, v); split; [by left|done]|exists kv; split; [by right|done]].
  - intros (kv & [->|Hin]%elem_of_cons & E); [left; simpl in E; congruence|right; eauto].
Qed.
Lemma env_vars_last variables m key value : env_vars variables = Some m -> m !! key = Some value <-> last_value variables key value.
Proof.
  revert m. induction variables as [|[k v] rest IH]; intros m Hm.
  { simpl in Hm. injection Hm as <-. rewrite lookup_empty. split; [done|]. intros ([|] & ? & ? & ? & [=] & _). }
  simpl in Hm. destruct (from_utf8 k) as [k'|] eqn:Ek; [|done]. destruct (from_utf8 v) as [v'|] eqn:Ev; [|done].
  destruct (env_vars rest) as [m0|] eqn:Er; [|done]. injection Hm as <-. specialize (IH m0 eq_refl).
  assert (last_value ((k, v) :: rest) key value <-> last_value rest key value \/ (key = k' /\ value = v' /\ m0 !! key = None)) as ->.
  { split.
    - intros ([|x before] & rk & rv & after & Ev' & Hk & Hv & Hafter); simpl in Ev'.
      + injection Ev' as <- <- <-. right. split_and!; [congruence..|]. apply eq_None_not_Some. intros (kv & Hin & Hkv)%(env_vars_name _ _ _ Er).
        rewrite list.Forall_forall in Hafter. by apply (Hafter kv).
      + injection Ev' as _ ->. left. by exists before, rk, rv, after.
    - intros [(before & rk & rv & after & -> & Hrest)|(-> & -> & Hnone)].
      + by exists ((k, v) :: before), rk, rv, after.
      + exists [], k, v, rest. split_and!; [done..|]. apply list.Forall_forall. intros kv Hin Hkv.
        apply eq_None_not_Some in Hnone. apply Hnone, (env_vars_name _ _ _ Er). eauto. }
  rewrite <- IH. destruct (m0 !! k') as [x|] eqn:E.
  - split; [by left|]. intros [?|(-> & _ & ?)]; [done|congruence].
  - destruct (decide (key = k')) as [->|Hne].
    + rewrite lookup_insert_eq, E. naive_solver.
    + rewrite lookup_insert_ne by done. naive_solver.
Qed.
(** The environment layer: how it reads names and lists, and its variables. *)
Definition environment_layer (source : gmap string string) : Layer :=
  LayerEnvironment (mkEnvironment "INARI_SERVER" "_" "__" true "," true
    ["http.cors.allow_origins"; "http.cors.allow_methods"; "http.cors.allow_headers"; "http.cors.expose_headers";
     "identity.oidc.scopes"; "identity.oidc.additional_id_token_audiences"; "managed_gateway.controller_actions";
     "managed_gateway.supported_protocol_versions"; "managed_gateway.data_plane.connect_endpoints";
     "managed_gateway.router_policy.trusted_peer_common_names"; "zenoh.access_control.managed_gateway_cert_common_names";
     "zenoh.connect_endpoints"; "zenoh.listen_endpoints"] (Some source)).
Lemma discover_environment variables m : env_vars variables = Some m ->
  List.existsb (fun kv => match from_utf8 (fst kv) with Some key => is_environment_override_key key | None => false end) variables = true
  <-> filter (fun kv => is_environment_override_key (fst kv) = true) m <> ∅.
Proof.
  intros Hm. rewrite List.existsb_exists. split.
  - intros (kv & Hin%list_elem_of_In & Hk). destruct (from_utf8 (fst kv)) as [key|] eqn:E; [|done].
    destruct (proj2 (env_vars_name _ _ key Hm)) as [v Hv]; [eauto|]. intros Hempty.
    assert (filter (fun kv => is_environment_override_key (fst kv) = true) m !! key = Some v) as Hf by (by apply map_lookup_filter_Some).
    by rewrite Hempty, lookup_empty in Hf.
  - intros (key & v & [Hv Hk]%map_lookup_filter_Some)%map_choose.
    destruct (proj1 (env_vars_name _ _ key Hm)) as (kv & Hin & E); [eauto|]. exists kv. split; [by apply list_elem_of_In|by rewrite E].
Qed.

(** A variable that is not UTF-8 stops the load with a panic, whatever its name, although the origin skips such names. *)
Lemma foreign_variable_stops_loading exists_ variables origin : discover exists_ variables = Ok origin ->
  (LoadedConfig_load exists_ variables = None <-> exists kv, kv ∈ variables /\ (from_utf8 (fst kv) = None \/ from_utf8 (snd kv) = None)).
Proof.
  intros Hd. unfold LoadedConfig_load. rewrite Hd. unfold environment_source. clear Hd.
  assert (Hv : env_vars variables = None <-> exists kv, kv ∈ variables /\ (from_utf8 (fst kv) = None \/ from_utf8 (snd kv) = None)).
  { induction variables as [|[k v] rest IH]; simpl; [split; [done|intros (kv & []%elem_of_nil & _)]|].
    destruct (from_utf8 k) as [k'|] eqn:Ek; [|split; [intros _|done]; exists (k, v); split; [by left|by left]].
    destruct (from_utf8 v) as [v'|] eqn:Ev; [|split; [intros _|done]; exists (k, v); split; [by left|by right]].
    rewrite fmap_None, IH. split.
    - intros (kv & Hin & Hb). exists kv. split; [by right|done].
    - intros (kv & [->|Hin]%elem_of_cons & Hb); [simpl in Hb; destruct Hb; congruence|eauto]. }
  rewrite <- Hv. by destruct (env_vars variables).
Qed.

(** C26: settings are loaded from what they say they are loaded from, and only safe ones are.
    - A load that succeeds merged the defaults, then the files of its origin, then the environment; every file exists, a
      file named by [INARI_SERVER_CONFIG] is the only one, and without that variable the files are those of the two default
      places that exist, in their order.
    - The environment layer holds exactly the variables whose name starts with [INARI_SERVER_], that variable apart, each with
      its last value, and reads them with these separators and list settings; the origin mentions the environment
      exactly when the layer is not empty.
    - The settings are those of the merged tree and pass validation: they are [SafeSettings].
    - A named file that does not exist is an error that names it, before the environment is read: also when some other variable is
      not UTF-8, which stops any other load with a panic. *)
Theorem loaded_settings_are_safe exists_ variables :
  (forall l, LoadedConfig_load exists_ variables = Some (Ok l) ->
     SafeSettings (ld_settings l) /\ config_deserialize (ld_raw l) = Some (ld_settings l) /\
     og_files (ld_origin l) = match var_os "INARI_SERVER_CONFIG" variables with
                              | Some path => [path]
                              | None => List.filter exists_ ["inari-server.toml"; "config/inari-server.toml"]
                              end /\
     Forall (fun f => exists_ f = true) (og_files (ld_origin l)) /\
     exists defaults source, toml_to_string ControllerConfig_default = Some defaults /\
       config_build (LayerText defaults :: (LayerFile <$> og_files (ld_origin l)) ++ [environment_layer source])%list
         = Some (ld_raw l) /\
       (forall key value, source !! key = Some value <-> last_value variables key value /\
          starts_with "INARI_SERVER_" key = true /\ key <> "INARI_SERVER_CONFIG") /\
       (og_includes_environment (ld_origin l) = true <-> source <> ∅)) /\
  (forall path, var_os "INARI_SERVER_CONFIG" variables = Some path -> exists_ path = false ->
     LoadedConfig_load exists_ variables =
       Some (Err (AppConfig ("configuration file specified by INARI_SERVER_CONFIG does not exist: " ++ path)))) /\
  (forall kv, kv ∈ variables -> from_utf8 (fst kv) = None \/ from_utf8 (snd kv) = None ->
     forall l, LoadedConfig_load exists_ variables <> Some (Ok l)).
Proof.
  unfold LoadedConfig_load. split_and!.
  - intros l Hl. destruct (discover exists_ variables) as [origin|] eqn:Ed; [|done].
    unfold environment_source in Hl. destruct (env_vars variables) as [m|] eqn:Em; [|done]. injection Hl as Hl.
    apply load_with_Ok in Hl as (<- & Hs & Hd & defaults & Ht & Hb). unfold discover in Ed.
    apply bind_Ok in Ed as (files & Hfiles & E%Ok_inj). rewrite <- E in *. simpl in *.
    split_and!; [done|done| |by apply config_files_Ok in Hfiles as [? _]|].
    + unfold config_files in Hfiles. change "INARI_SERVER_CONFIG" with CONFIG_PATH_ENV.
      destruct (var_os CONFIG_PATH_ENV variables); [destruct (exists_ _); [|done]|]; by injection Hfiles as <-.
    + exists defaults, (filter (fun kv => is_environment_override_key (fst kv) = true) m).
      split_and!; [done|exact Hb| |by apply discover_environment].
      intros key value. rewrite map_lookup_filter_Some. simpl. rewrite (env_vars_last _ _ _ _ Em).
      unfold is_environment_override_key, CONFIG_PATH_ENV. rewrite andb_true_iff, negb_true_iff, String.eqb_neq. done.
  - intros path Hp Hex. unfold discover. change CONFIG_PATH_ENV with "INARI_SERVER_CONFIG". rewrite Hp. simpl. by rewrite Hex.
  - intros kv Hin Hbad l. destruct (discover exists_ variables) as [origin|] eqn:Ed; [|done].
    pose proof (proj2 (foreign_variable_stops_loading _ _ _ Ed) (ex_intro _ kv (conj Hin Hbad))) as Hp.
    unfold LoadedConfig_load in Hp. rewrite Ed in Hp. by rewrite Hp.
Qed.
End Load.

(** ** Runs *)
Module SettingsToy.
Definition toy_scheme (url : string) : string := if starts_with "https:" url then "https" else "http".
#[local] Instance toy_parts : UrlParts :=
  {| url_scheme := toy_scheme; url_host _ := Some "host"; AdmissionController.url_path _ := "/"; url_username _ := "";
     url_password _ := None; url_query _ := None; url_fragment _ := None |}.
#[local] Instance toy_parse : UrlParse := Some.
#[local] Instance toy_keys : KeyExpressions := {| key_from_str := Ok; key_join a b := Ok (a ++ "/" ++ b) |}.
#[local] Instance toy_utf8 : Utf8 := fun s => if contains_any [255] s then None else Some s.
(** A production Controller with a managed gateway. *)
Definition gateway : ManagedGatewayConfig :=
  mkGatewayConfig true (Some "Inari Controller") "controller-1" ["2026-01-01"] ["managed_work:dispatch"]
    ManagedGatewayOnboardingConfig_default (mkDataPlaneConfig ["tls/router.example:7447"] "iot/v1/agents" true)
    (mkRouterPolicyConfig "fleet" [mkRouterManagement "router-a" "https://a/"; mkRouterManagement "router-b" "https://b/"]
       ["controller"] "key" "ca" "cert" "private")
    ManagedGatewayCertificateConfig_default (mkDispatchConfig true 1 (Some "signing") (Some "signing.pem") (seconds 60))
    (mkProtectionConfig true "transit" "payload").
Definition production (mode : ZenohMode) : ControllerConfig :=
  mkControllerConfig 1 (mkServerConfig "0.0.0.0:8080" (Some "https://inari.example") Production (seconds 30) (seconds 30) 1048576)
    DatabaseConfig_default OrganizationConfig_default RuntimeConfig_default ObservabilityConfig_default
    (mkOidcConfig true (Some "https://identity.example") "controller" [] None "urn:inari:managed-workload" ["openid"] "roles"
       {[ "admins" := Administrator ]})
    HttpConfig_default gateway
    (mkOpenBaoConfig (Some "https://bao.example/") (Some "controller") "kubernetes" "/token" None None (seconds 5))
    (mkZenohSettings true mode ZenohAdminSpaceConfig_default ["tls/router.example:7447"] [] ZenohTlsConfig_default
       ZenohAccessControlConfig_default DEFAULT_ZENOH_RETRY_INTERVAL DEFAULT_ZENOH_COMMAND_BUFFER DEFAULT_ZENOH_EVENT_BUFFER).
Definition tree : Tree :=
  Table None [("server", Table (Some "the environment") [("environment", Leaf (Some "/etc/inari/inari-server.toml"));
                                                          ("bind", Leaf (Some "the environment"))]);
              ("config_version", Leaf None)].
#[local] Instance toy_crate : ConfigCrate :=
  {| toml_to_string _ := Some "defaults"; config_build _ := Some tree; config_deserialize _ := Some (production ModeClient) |}.
Definition variables : os_variables :=
  [("PATH", "/bin"); ("INARI_SERVER_CONFIG", "/etc/inari/inari-server.toml"); ("INARI_SERVER_SERVER__BIND", "0.0.0.0:8080")].
Example production_settings_are_accepted : ControllerConfig_validate (production ModeClient) = Ok (production ModeClient).
Proof. vm_compute. reflexivity. Qed.
Example deployed_controllers_are_no_routers : ControllerConfig_validate (production ModeRouter) =
  Err (AppConfig "preview and production controllers must connect to a separate Zenoh router in client mode.").
Proof. vm_compute. reflexivity. Qed.
Lemma loaded_settings_are_safe_witness : exists l, LoadedConfig_load (fun _ => true) variables = Some (Ok l) /\
  SafeSettings (ld_settings l) /\ og_files (ld_origin l) = ["/etc/inari/inari-server.toml"].
Proof.
  destruct (LoadedConfig_load (fun _ => true) variables) as [[l|]|] eqn:E; [|by vm_compute in E|by vm_compute in E].
  destruct (loaded_settings_are_safe (fun _ => true) variables) as [Hok _].
  destruct (Hok l E) as (Hs & _ & Hp & _). exists l. split; [done|]. split; [exact Hs|]. rewrite Hp. reflexivity.
Defined.
Lemma provenance_is_complete_witness :
  Provenance_all tree = [("config_version", OriginDefault); ("server.bind", OriginEnvironment);
                         ("server.environment", OriginFile "/etc/inari/inari-server.toml")] /\
  origin_of tree "server.bind" = Some OriginEnvironment /\ origin_of tree "server" = None /\
  NoDup (fst <$> Provenance_all tree).
Proof.
  assert (Hn : named tree).
  { simpl. split_and!; try done; repeat (constructor; try done); rewrite ?elem_of_cons, ?elem_of_nil; intuition congruence. }
  destruct (provenance_is_complete None _ Hn) as (_ & Hall & Hd & _). split; [reflexivity|].
  split; [apply Hall; by right; left|]. split; [reflexivity|exact Hd].
Defined.
(** A variable of another program is enough. *)
Example foreign_variable_panics : LoadedConfig_load (fun _ => true) (("LS_COLORS", String (ascii_of_nat 255) EmptyString) :: variables) = None.
Proof. vm_compute. reflexivity. Qed.
End SettingsToy.
