(* ===== verification/ZenohSession.v ===== *)
(** * The Zenoh session of the Controller

    [crates/inari-server/src/zenoh/session/lifecycle.rs], [zenoh/access.rs] and [time/deadline.rs]: the Zenoh configuration
    the Controller opens its session with, the access control of an embedded router in it, and the queries, liveliness
    queries and subscriptions made on a session, each under one deadline.  Zenoh is third-party code: its configuration
    is a type with one insertion, and a session is what it answers. *)
From S2P Require Import Json Errors Identifiers Schema ServerErrors FleetPolicy AccessControl AdmissionController.
From S2P Require Import PayloadProtection ManagedGateway GatewayConfig Application Settings Prelude.

(** ** Third-party functions *)
(** [zenoh::Config]: its default and [insert_json5], which may refuse a value; [EndPoint::from_str] and [zenoh::open]. *)
Class ZenohCrate := {
  zconfig : Type;
  zconfig_default : zconfig;
  insert_json5 : string -> string -> zconfig -> option zconfig;
  endpoint_valid : string -> bool;
  zsession : Type;
  zenoh_open : zconfig -> result string zsession;
}.
(** [serde_json::Value]'s [Display]. *)
Class ValueText := value_to_string : Value -> string.

(** [str::trim_end_matches('/')]. *)
Fixpoint drop_slashes (s : list ascii) : list ascii :=
  match s with c :: s' => if Ascii.eqb c "/" then drop_slashes s' else s | [] => [] end.
Definition trim_end_slashes (s : string) : string :=
  string_of_list_ascii (reverse (drop_slashes (reverse (list_ascii_of_string s)))).

(** ** Access control of an embedded router *)
(** A subject without certificate names matches every connection. *)
Record SessionSubject := mkSessionSubject { sj_id : string; sj_cert_common_names : option (list string) }.
Record SessionPolicy := mkSessionPolicy { sp_rules : list string; sp_subjects : list string }.
Record SessionAccessControl := mkSessionAcl {
  sa_default_permission : string;
  sa_rules : list Rule;
  sa_subjects : list SessionSubject;
  sa_policies : list SessionPolicy;
}.
Definition managed_rules (namespace_prefix : string) : list Rule :=
  let at_ suffix := namespace_prefix ++ suffix in
  [mkRule "managed-agent-publications" ["put"] ["ingress"] "allow"
     [at_ "/*/presence/agent"; at_ "/*/status/latest"; at_ "/*/results/*"; at_ "/*/events/*"; at_ "/*/errors/*"];
   mkRule "managed-agent-presence" ["liveliness_token"] ["ingress"] "allow" [at_ "/*/presence/agent"];
   mkRule "managed-controller-publication-subscription" ["declare_subscriber"] ["egress"] "allow" [at_ "/*/**"];
   mkRule "managed-agent-state-commit" ["query"] ["ingress"] "allow" [at_ "/*/state/commit"];
   mkRule "managed-agent-state-receipt" ["reply"; "declare_queryable"] ["egress"] "allow" [at_ "/*/state/commit"];
   mkRule "managed-agent-state-receipt-source" ["reply"; "declare_queryable"] ["ingress"] "deny" [at_ "/*/state/commit"];
   mkRule "managed-agent-command-read" ["declare_subscriber"] ["ingress"] "allow" [at_ "/*/commands/live/**"];
   mkRule "managed-controller-command-publish" ["put"] ["egress"] "allow" [at_ "/*/commands/live/**"];
   mkRule "managed-agent-history-query" ["query"] ["ingress"] "allow" [at_ "/*/commands/history"];
   mkRule "managed-controller-history-reply" ["declare_queryable"; "reply"] ["egress"] "allow" [at_ "/*/commands/history"]].
Definition managed_policy_rules : list string :=
  ["managed-agent-publications"; "managed-agent-presence"; "managed-controller-publication-subscription";
   "managed-agent-state-commit"; "managed-agent-state-receipt"; "managed-agent-state-receipt-source";
   "managed-agent-command-read"; "managed-controller-command-publish"; "managed-agent-history-query";
   "managed-controller-history-reply"].
Definition permission_text (p : ZenohAclPermission) : string := match p with AclAllow => "allow" | AclDeny => "deny" end.
(** What [apply_access_control] writes; [None] leaves access control alone. *)
Definition session_access_control (settings : ZenohAccessControlConfig) : option SessionAccessControl :=
  if negb (za_enabled settings) then None else
  let default_permission := permission_text (za_default_permission settings) in
  Some match za_managed_gateway_namespace_prefix settings with
       | None => mkSessionAcl default_permission [] [] []
       | Some namespace_prefix =>
           let names := za_managed_gateway_cert_common_names settings in
           let subject := mkSessionSubject "managed-agents" (if bool_decide (names = []) then None else Some names) in
           mkSessionAcl default_permission (managed_rules (trim_end_slashes namespace_prefix)) [subject]
             [mkSessionPolicy managed_policy_rules ["managed-agents"]]
       end.
Definition SessionSubject_value (s : SessionSubject) : Value :=
  match sj_cert_common_names s with
  | None => object [("id", VString (sj_id s))]
  | Some names => object [("id", VString (sj_id s)); ("cert_common_names", strings_value names)]
  end.
Definition SessionPolicy_value (p : SessionPolicy) : Value :=
  object [("rules", strings_value (sp_rules p)); ("subjects", strings_value (sp_subjects p))].
Definition SessionAccessControl_value (a : SessionAccessControl) : Value :=
  object [("enabled", VBool true); ("default_permission", VString (sa_default_permission a));
    ("rules", VArray (Rule_value <$> sa_rules a)); ("subjects", VArray (SessionSubject_value <$> sa_subjects a));
    ("policies", VArray (SessionPolicy_value <$> sa_policies a))].

(** ** The configuration *)
Section Configure.
Context `{ZenohCrate, ValueText}.

Definition insert_json5_value (config : zconfig) (key : string) (value : Value) : AppResult zconfig :=
  ok_or (insert_json5 key (value_to_string value) config)
    (internal "zenoh_configuration" "Failed to apply Zenoh session configuration.").
(** [serde_json::to_value] of a boolean, a string or a unit variant does not fail. *)
Definition insert_json5_serialized (config : zconfig) (key : string) (value : Value) : AppResult zconfig :=
  insert_json5_value config key value.
Definition mode_value (m : ZenohMode) : Value := VString match m with ModeClient => "client" | ModeRouter => "router" end.
Fixpoint check_zenoh_endpoints (kind : string) (endpoints : list string) : AppResult unit :=
  match endpoints with
  | [] => Ok tt
  | endpoint :: rest =>
      if endpoint_valid endpoint then check_zenoh_endpoints kind rest
      else Err (bad_request ("Invalid Zenoh " ++ kind ++ " endpoint: " ++ endpoint))
  end.
Definition apply_endpoints (config : zconfig) (key kind : string) (endpoints : list string) : AppResult zconfig :=
  _ ← check_zenoh_endpoints kind endpoints;
  insert_json5_value config key (strings_value endpoints).
Definition insert_path (config : zconfig) (key : string) (path : option string) : AppResult zconfig :=
  match path with Some path => insert_json5_serialized config key (VString path) | None => Ok config end.
Definition insert_flag (config : zconfig) (key : string) (flag : bool) : AppResult zconfig :=
  if flag then insert_json5_serialized config key (VBool true) else Ok config.
Definition apply_tls (config : zconfig) (tls : ZenohTlsConfig) : AppResult zconfig :=
  config ← insert_path config "transport/link/tls/root_ca_certificate" (zt_root_ca_certificate tls);
  config ← insert_path config "transport/link/tls/listen_private_key" (zt_listen_private_key tls);
  config ← insert_path config "transport/link/tls/listen_certificate" (zt_listen_certificate tls);
  config ← insert_path config "transport/link/tls/connect_private_key" (zt_connect_private_key tls);
  config ← insert_path config "transport/link/tls/connect_certificate" (zt_connect_certificate tls);
  config ← insert_flag config "transport/link/tls/enable_mtls" (zt_enable_mtls tls);
  insert_flag config "transport/link/tls/close_link_on_expiration" (zt_close_link_on_expiration tls).
Definition apply_access_control (config : zconfig) (settings : ZenohAccessControlConfig) : AppResult zconfig :=
  match session_access_control settings with
  | None => Ok config
  | Some acl => insert_json5_value config "access_control" (SessionAccessControl_value acl)
  end.
Definition configure_zenoh (config : zconfig) (settings : ZenohSettings) : AppResult zconfig :=
  config ← insert_json5_serialized config "mode" (mode_value (zn_mode settings));
  config ← insert_json5_serialized config "adminspace/enabled" (VBool (as_enabled (zn_admin_space settings)));
  config ← insert_json5_serialized config "adminspace/permissions/read" (VBool (as_read (zn_admin_space settings)));
  config ← insert_json5_serialized config "adminspace/permissions/write" (VBool (as_write (zn_admin_space settings)));
  config ← (if bool_decide (zn_connect_endpoints settings = []) then Ok config
            else apply_endpoints config "connect/endpoints" "connect" (zn_connect_endpoints settings));
  config ← (if bool_decide (zn_listen_endpoints settings = []) then Ok config
            else apply_endpoints config "listen/endpoints" "listen" (zn_listen_endpoints settings));
  config ← apply_tls config (zn_tls settings);
  apply_access_control config (zn_access_control settings).
Definition open_session (settings : ZenohSettings) : AppResult zsession :=
  config ← configure_zenoh zconfig_default settings;
  match zenoh_open config with
  | Ok session => Ok session
  | Err source => Err (service_unavailable ("Failed to open the Zenoh session: " ++ source))
  end.

(** *** What is written, as one table *)
Definition optional_path (key : string) (path : option string) : list (string * Value) :=
  match path with Some p => [(key, VString p)] | None => [] end.
Definition optional_flag (key : string) (flag : bool) : list (string * Value) := if flag then [(key, VBool true)] else [].
Definition optional_endpoints (key : string) (endpoints : list string) : list (string * Value) :=
  if bool_decide (endpoints = []) then [] else [(key, strings_value endpoints)].
Definition admin_entries (s : ZenohSettings) : list (string * Value) :=
  [("mode", mode_value (zn_mode s)); ("adminspace/enabled", VBool (as_enabled (zn_admin_space s)));
   ("adminspace/permissions/read", VBool (as_read (zn_admin_space s)));
   ("adminspace/permissions/write", VBool (as_write (zn_admin_space s)))].
Definition tls_entries (tls : ZenohTlsConfig) : list (string * Value) :=
  (optional_path "transport/link/tls/root_ca_certificate" (zt_root_ca_certificate tls)
   ++ optional_path "transport/link/tls/listen_private_key" (zt_listen_private_key tls)
   ++ optional_path "transport/link/tls/listen_certificate" (zt_listen_certificate tls)
   ++ optional_path "transport/link/tls/connect_private_key" (zt_connect_private_key tls)
   ++ optional_path "transport/link/tls/connect_certificate" (zt_connect_certificate tls)
   ++ optional_flag "transport/link/tls/enable_mtls" (zt_enable_mtls tls)
   ++ optional_flag "transport/link/tls/close_link_on_expiration" (zt_close_link_on_expiration tls))%list.
Definition access_entries (settings : ZenohAccessControlConfig) : list (string * Value) :=
  match session_access_control settings with
  | Some acl => [("access_control", SessionAccessControl_value acl)]
  | None => []
  end.
Definition session_entries (s : ZenohSettings) : list (string * Value) :=
  (admin_entries s ++ optional_endpoints "connect/endpoints" (zn_connect_endpoints s)
   ++ optional_endpoints "listen/endpoints" (zn_listen_endpoints s) ++ tls_entries (zn_tls s)
   ++ access_entries (zn_access_control s))%list.
Fixpoint insert_all (config : zconfig) (entries : list (string * Value)) : AppResult zconfig :=
  match entries with
  | [] => Ok config
  | (key, value) :: rest => config ← insert_json5_value config key value; insert_all config rest
  end.
Lemma insert_all_app config l l' : insert_all config (l ++ l')%list = (config ← insert_all config l; insert_all config l').
Proof.
  revert config. induction l as [|[k v] l IH]; intros config; [done|]. cbn [insert_all app].
  destruct (insert_json5_value config k v) as [c|]; [|done]. apply IH.
Qed.
Lemma insert_path_entries config key path : insert_path config key path = insert_all config (optional_path key path).
Proof. destruct path; [|done]. simpl. unfold insert_json5_serialized. by destruct (insert_json5_value config key _). Qed.
Lemma insert_flag_entries config key flag : insert_flag config key flag = insert_all config (optional_flag key flag).
Proof. destruct flag; [|done]. simpl. unfold insert_json5_serialized. by destruct (insert_json5_value config key _). Qed.
Lemma check_zenoh_endpoints_Ok kind endpoints :
  check_zenoh_endpoints kind endpoints = Ok tt <-> Forall (fun e => endpoint_valid e = true) endpoints.
Proof.
  induction endpoints as [|e rest IH]; simpl; [split; [constructor|done]|]. destruct (endpoint_valid e) eqn:E.
  - rewrite IH. split; [by constructor|]. by intros [_ Hr]%Forall_cons_1.
  - split; [done|]. intros [Hc _]%Forall_cons_1. congruence.
Qed.
Lemma endpoints_entries config key kind endpoints : Forall (fun e => endpoint_valid e = true) endpoints ->
  (if bool_decide (endpoints = []) then Ok config else apply_endpoints config key kind endpoints) =
  insert_all config (optional_endpoints key endpoints).
Proof.
  intros Hv. unfold optional_endpoints. case_bool_decide; [done|]. unfold apply_endpoints.
  rewrite (proj2 (check_zenoh_endpoints_Ok kind endpoints) Hv). simpl. by destruct (insert_json5_value config key _).
Qed.
Lemma apply_tls_entries config tls : apply_tls config tls = insert_all config (tls_entries tls).
Proof.
  unfold apply_tls, tls_entries. rewrite !insert_all_app.
  repeat (rewrite insert_path_entries; destruct (insert_all config (optional_path _ _)) as [c|]; [|done];
          clear config; rename c into config; change (mbind ?f (Ok config)) with (f config); cbv beta; rewrite ?insert_all_app).
  rewrite insert_flag_entries. destruct (insert_all config (optional_flag _ _)) as [c|]; [|done]. apply insert_flag_entries.
Qed.
Lemma apply_access_control_entries config s : apply_access_control config s = insert_all config (access_entries s).
Proof.
  unfold apply_access_control, access_entries. destruct (session_access_control s); [|done]. simpl.
  by destruct (insert_json5_value config _ _).
Qed.
Lemma configure_admin_entries config s k :
  (config ← insert_json5_serialized config "mode" (mode_value (zn_mode s));
   config ← insert_json5_serialized config "adminspace/enabled" (VBool (as_enabled (zn_admin_space s)));
   config ← insert_json5_serialized config "adminspace/permissions/read" (VBool (as_read (zn_admin_space s)));
   config ← insert_json5_serialized config "adminspace/permissions/write" (VBool (as_write (zn_admin_space s)));
   k config : AppResult zconfig) = (config ← insert_all config (admin_entries s); k config).
Proof.
  unfold admin_entries, insert_json5_serialized. cbn [insert_all].
  destruct (insert_json5_value config "mode" _) as [c1|]; [|done]. unfold mbind, result_bind.
  destruct (insert_json5_value c1 _ _) as [c2|]; [|done]. destruct (insert_json5_value c2 _ _) as [c3|]; [|done].
  by destruct (insert_json5_value c3 _ _).
Qed.
Lemma configure_zenoh_entries config s : Forall (fun e => endpoint_valid e = true) (zn_connect_endpoints s) ->
  Forall (fun e => endpoint_valid e = true) (zn_listen_endpoints s) ->
  configure_zenoh config s = insert_all config (session_entries s).
Proof.
  intros Hc Hl. unfold configure_zenoh, session_entries. rewrite configure_admin_entries, insert_all_app.
  destruct (insert_all config (admin_entries s)) as [c1|]; [|done]. unfold mbind, result_bind.
  rewrite (endpoints_entries c1 _ "connect") by done. rewrite insert_all_app.
  destruct (insert_all c1 _) as [c2|]; [|done]. rewrite (endpoints_entries c2 _ "listen") by done. unfold mbind, result_bind.
  rewrite insert_all_app. destruct (insert_all c2 _) as [c3|]; [|done]. unfold mbind, result_bind.
  rewrite apply_tls_entries, insert_all_app. destruct (insert_all c3 _) as [c4|]; [|done]. apply apply_access_control_entries.
Qed.
End Configure.

(** ** What the embedded router lets through

    Zenoh's documentation: a rule applies to a message of one of its kinds, in one of its directions, on a key one of its
    key expressions includes, from a connection a subject of a policy with that rule matches; an applicable "deny" beats an
    applicable "allow", and the default permission decides when no rule applies. *)
Definition rule_applies `{KeyExpr} (acl : SessionAccessControl) (permission : string) (name : option string)
    (message flow key : string) : Prop :=
  exists p r s key_expr, p ∈ sa_policies acl /\ r ∈ sa_rules acl /\ s ∈ sa_subjects acl /\
    ru_id r ∈ sp_rules p /\ sj_id s ∈ sp_subjects p /\
    (forall names, sj_cert_common_names s = Some names -> exists n, name = Some n /\ n ∈ names) /\
    ru_permission r = permission /\ message ∈ ru_messages r /\ flow ∈ ru_flows r /\
    key_expr ∈ ru_key_exprs r /\ keyexpr_includes (split_on "/" key_expr) (split_on "/" key) = true.
Class SessionAcl := session_permits : SessionAccessControl -> option string -> string -> string -> string -> bool.
Class SessionAclSpec `{KeyExpr, SessionAcl} : Prop := session_permits_rules : forall acl name message flow key,
  session_permits acl name message flow key = true ->
  ~ rule_applies acl "deny" name message flow key /\
  (sa_default_permission acl = "allow" \/ rule_applies acl "allow" name message flow key).
(** What an Agent may send, by kind of message. *)
Definition agent_ingress (namespace_prefix message : string) : list string :=
  if String.eqb message "put" then
    (fun s => namespace_prefix ++ s) <$> ["/*/presence/agent"; "/*/status/latest"; "/*/results/*"; "/*/events/*"; "/*/errors/*"]
  else if String.eqb message "liveliness_token" then [namespace_prefix ++ "/*/presence/agent"]
  else if String.eqb message "query" then [namespace_prefix ++ "/*/state/commit"; namespace_prefix ++ "/*/commands/history"]
  else if String.eqb message "declare_subscriber" then [namespace_prefix ++ "/*/commands/live/**"]
  else [].

Section Embedded.
Context `{KeyExpr, !SessionAcl, !SessionAclSpec}.
Lemma managed_ingress_rules p r message key_expr : r ∈ managed_rules p -> ru_permission r = "allow" -> message ∈ ru_messages r ->
  "ingress" ∈ ru_flows r -> key_expr ∈ ru_key_exprs r -> key_expr ∈ agent_ingress p message.
Proof.
  intros Hr Hp Hm Hf Hk. unfold managed_rules in Hr.
  repeat (apply elem_of_cons in Hr as [->|Hr]); [..|by apply elem_of_nil in Hr];
    cbn [ru_permission ru_messages ru_flows ru_key_exprs] in *; try discriminate Hp;
    try (apply list_elem_of_singleton in Hf; discriminate Hf);
    apply list_elem_of_singleton in Hm as ->; cbn [agent_ingress String.eqb Ascii.eqb Bool.eqb fmap list_fmap] in *;
    rewrite !elem_of_cons in *; intuition.
Qed.

(** What the access control of a managed namespace lets in. *)
Definition reserves (settings : ZenohAccessControlConfig) (prefix : string) (acl : SessionAccessControl) : Prop :=
  forall name message key, session_permits acl name message "ingress" key = true ->
  (za_default_permission settings = AclDeny ->
     (exists key_expr, key_expr ∈ agent_ingress (trim_end_slashes prefix) message /\
        keyexpr_includes (split_on "/" key_expr) (split_on "/" key) = true) /\
     (za_managed_gateway_cert_common_names settings <> [] -> exists n, name = Some n /\ n ∈ za_managed_gateway_cert_common_names settings)) /\
  (message ∈ ["reply"; "declare_queryable"] ->
     keyexpr_includes (split_on "/" (trim_end_slashes prefix ++ "/*/state/commit")) (split_on "/" key) = true ->
     za_managed_gateway_cert_common_names settings <> [] /\
     forall n, name = Some n -> n ∉ za_managed_gateway_cert_common_names settings).
Lemma session_access_control_reserves settings acl prefix : session_access_control settings = Some acl ->
  za_managed_gateway_namespace_prefix settings = Some prefix -> reserves settings prefix acl.
Proof.
  intros Hacl Hprefix name message key. revert Hacl Hprefix.
  unfold session_access_control. destruct (za_enabled settings); [|done]. simpl. intros [= <-] -> [Hdeny Hallow]%session_permits_rules.
  split.
  - intros Ed. rewrite Ed in Hallow. simpl in Hallow. destruct Hallow as [|(p & r & s & ke & _ & Hr & Hs & _ & _ & Hn & Hp & Hm & Hf & Hk & Hi)];
      [done|]. simpl in Hr, Hs. split; [exists ke; split; [by eapply managed_ingress_rules|done]|].
    intros Hne. apply list_elem_of_singleton in Hs as ->. apply Hn. simpl. by rewrite bool_decide_eq_false_2.
  - intros Hm Hi. match type of Hdeny with context [rule_applies ?a _ _ _ _ _] => set (acl := a) in * end.
    set (r := mkRule "managed-agent-state-receipt-source" ["reply"; "declare_queryable"] ["ingress"] "deny"
                [trim_end_slashes prefix ++ "/*/state/commit"]).
    assert (Happ : (forall names, sj_cert_common_names (List.hd (mkSessionSubject "" None) (sa_subjects acl)) = Some names ->
        exists n, name = Some n /\ n ∈ names) -> rule_applies acl "deny" name message "ingress" key).
    { intros Hn. exists (mkSessionPolicy managed_policy_rules ["managed-agents"]), r, (List.hd (mkSessionSubject "" None) (sa_subjects acl)),
        (trim_end_slashes prefix ++ "/*/state/commit"). subst acl.
      split_and!; try done; unfold managed_rules, managed_policy_rules; simpl; rewrite ?elem_of_cons; subst r; simpl; tauto. }
    destruct (decide (za_managed_gateway_cert_common_names settings = [])) as [E|E].
    + destruct Hdeny. apply Happ. subst acl. simpl. by rewrite bool_decide_eq_true_2.
    + split; [done|]. intros n Hname Hin. destruct Hdeny. apply Happ. subst acl. simpl. rewrite bool_decide_eq_false_2 by done.
      intros names [= <-]. eauto.
Qed.

(** C28: agents cannot act as the Controller through an embedded router.  Whenever configuring a session with access
    control enabled for the Managed Gateway namespace succeeds, the last thing it writes is an access control under which,
    - if the default permission is "deny", what a connection may send is one of the four kinds of Agent traffic, on a key of
      that kind below the namespace; with certificate names configured, only a connection with one of them may send at all;
    - whatever the default permission, no Agent connection may answer, or offer to answer, on a key that is included in
      the commits of Agent State of the namespace.  (An offer on a wider key expression is not included; it is refused only
      under the default "deny".) *)
Theorem embedded_router_reserves_authority `{ZenohCrate, ValueText} config settings prefix written :
  configure_zenoh config settings = Ok written ->
  za_enabled (zn_access_control settings) = true ->
  za_managed_gateway_namespace_prefix (zn_access_control settings) = Some prefix ->
  exists acl before, insert_json5 "access_control" (value_to_string (SessionAccessControl_value acl)) before = Some written /\
    reserves (zn_access_control settings) prefix acl.
Proof.
  intros Hc Hon Hprefix. unfold configure_zenoh in Hc.
  do 7 (apply bind_Ok in Hc as (? & _ & Hc)). unfold apply_access_control in Hc.
  destruct (session_access_control (zn_access_control settings)) as [acl|] eqn:Ea.
  - unfold insert_json5_value in Hc. apply ok_or_Ok in Hc. exists acl. eexists. split; [exact Hc|].
    by apply session_access_control_reserves.
  - unfold session_access_control in Ea. by rewrite Hon in Ea.
Qed.
End Embedded.

(** ** Queries under a deadline *)
(** [Deadline] is the instant it expires at; the clock is read by each operation. *)
Definition Deadline_after (now timeout : Z) : Z := now + timeout.
Definition Deadline_remaining (expires_at now : Z) : AppResult Z :=
  if expires_at <=? now then Err AppRequestTimeout else Ok (expires_at - now).
(** [tokio::time::timeout] of a future that is ready at [ready] with a value, or never. *)
Definition Deadline_timeout {A} (expires_at now : Z) (future : option (Z * A)) : AppResult A :=
  _ ← Deadline_remaining expires_at now;
  match future with
  | Some (ready, a) => if ready <=? expires_at then Ok a else Err AppRequestTimeout
  | None => Err AppRequestTimeout
  end.
Record ZenohRequestPayload := mkRequestPayload { rp_body : string; rp_encoding : string; rp_attachment : option string }.
Definition ZenohRequestPayload_new (body encoding : string) : ZenohRequestPayload := mkRequestPayload body encoding None.
Definition with_attachment (p : ZenohRequestPayload) (attachment : string) : ZenohRequestPayload :=
  mkRequestPayload (rp_body p) (rp_encoding p) (Some attachment).
Record ZenohQueryRequest := mkQueryRequest {
  qr_selector : string;
  qr_payload : option ZenohRequestPayload;
  qr_timeout : Z;
  qr_consolidation : string;
}.
Definition ZenohQueryRequest_new (selector : string) (timeout : Z) (consolidation : string) : ZenohQueryRequest :=
  mkQueryRequest selector None timeout consolidation.
Definition with_payload (r : ZenohQueryRequest) (p : ZenohRequestPayload) : ZenohQueryRequest :=
  mkQueryRequest (qr_selector r) (Some p) (qr_timeout r) (qr_consolidation r).
(** What is sent to Zenoh: [Session::get] and [Liveliness::get], with the time Zenoh gives the replies. *)
Inductive Get : Type :=
| GetQuery (selector consolidation : string) (timeout : Z) (payload : option ZenohRequestPayload)
| GetLiveliness (key : string) (timeout : Z).
(** The channel of replies: each with the time it arrives, in order, and the time Zenoh closes the channel. *)
Record Replies (R : Type) := mkReplies { rs_arrivals : list (Z * R); rs_closes : option Z }.
Arguments mkReplies {R}.
Arguments rs_arrivals {R}.
Arguments rs_closes {R}.
Section Query.
Context {R : Type}.
(** The session: whether it accepts a [Get], and its replies. *)
Context (session_get : Get -> result string (Replies R)).

Definition map_zenoh_error {A} (r : result string A) (user_message : string) : AppResult A :=
  match r with Ok a => Ok a | Err _ => Err (service_unavailable user_message) end.
Definition issue_query (request : ZenohQueryRequest) (deadline now : Z) : AppResult (Replies R) :=
  remaining ← Deadline_remaining deadline now;
  map_zenoh_error (session_get (GetQuery (qr_selector request) (qr_consolidation request) remaining (qr_payload request)))
    "Zenoh query failed.".
Definition issue_liveliness_get (key : string) (deadline now : Z) : AppResult (Replies R) :=
  remaining ← Deadline_remaining deadline now;
  map_zenoh_error (session_get (GetLiveliness key remaining)) "Zenoh liveliness query failed.".
(** Every reply until the channel is closed. *)
Definition Replies_collect (replies : Replies R) (deadline now : Z) : AppResult (list R) :=
  Deadline_timeout deadline now ((fun closes => (closes, snd <$> rs_arrivals replies)) <$> rs_closes replies).
(** The first reply, or none when the channel is closed first. *)
Definition Replies_first (replies : Replies R) (deadline now : Z) : AppResult (option R) :=
  Deadline_timeout deadline now match rs_arrivals replies with
                                | (at_, r) :: _ => Some (at_, Some r)
                                | [] => (fun closes => (closes, None)) <$> rs_closes replies
                                end.
(** The clock is read when the deadline is made, when the query is issued and when the replies are awaited. *)
Definition execute_query_collect (request : ZenohQueryRequest) (t0 t1 t2 : Z) : AppResult (list R) :=
  let deadline := Deadline_after t0 (qr_timeout request) in
  replies ← issue_query request deadline t1; Replies_collect replies deadline t2.
Definition execute_query_first (request : ZenohQueryRequest) (t0 t1 t2 : Z) : AppResult (option R) :=
  let deadline := Deadline_after t0 (qr_timeout request) in
  replies ← issue_query request deadline t1; Replies_first replies deadline t2.
Definition execute_liveliness_get_collect (key : string) (timeout t0 t1 t2 : Z) : AppResult (list R) :=
  let deadline := Deadline_after t0 timeout in
  replies ← issue_liveliness_get key deadline t1; Replies_collect replies deadline t2.
Definition execute_liveliness_get_first (key : string) (timeout t0 t1 t2 : Z) : AppResult (option R) :=
  let deadline := Deadline_after t0 timeout in
  replies ← issue_liveliness_get key deadline t1; Replies_first replies deadline t2.
(** [FifoChannel] of a subscriber: [session_declare] is the declaration, with capacity and history. *)
Definition declare_subscription (session_declare : string -> Z -> result string unit) (key : string) (capacity : Z) : AppResult unit :=
  map_zenoh_error (session_declare key capacity) "Zenoh subscription setup failed.".
Definition declare_liveliness_subscription (session_declare : string -> bool -> Z -> result string unit) (key : string)
    (capacity : Z) (history : bool) : AppResult unit :=
  map_zenoh_error (session_declare key history capacity) "Zenoh liveliness subscription setup failed.".
Definition recv_async (received : result string R) : AppResult R :=
  match received with Ok sample => Ok sample | Err _ => Err (service_unavailable "Zenoh subscription stream is no longer available.") end.

Lemma Deadline_timeout_cases {A} expires_at now (future : option (Z * A)) :
  (exists ready a, future = Some (ready, a) /\ now < expires_at /\ ready <= expires_at /\ Deadline_timeout expires_at now future = Ok a) \/
  (Deadline_timeout expires_at now future = Err AppRequestTimeout /\
   forall ready a, future = Some (ready, a) -> expires_at <= now \/ expires_at < ready).
Proof.
  unfold Deadline_timeout, Deadline_remaining. destruct (Z.leb_spec expires_at now) as [Hn|Hn]; [right; auto|].
  unfold mbind, result_bind. destruct future as [[ready a]|]; [|by right]. destruct (Z.leb_spec ready expires_at) as [Hr|Hr].
  - left. exists ready, a. done.
  - right. split; [done|]. intros ?? [= <- <-]. auto.
Qed.
(** One deadline covers a query from end to end: what is returned was complete by the deadline fixed when the query
    started, and Zenoh was given no longer than the rest of it; a query that is late, wherever it lost the time, is a
    request timeout, and a refusal by Zenoh is reported as unavailable. *)
Lemma query_deadline request t0 t1 t2 : t0 <= t1 -> t1 <= t2 ->
  match execute_query_collect request t0 t1 t2 with
  | Ok l => exists timeout replies closes, 0 < timeout <= qr_timeout request /\
      session_get (GetQuery (qr_selector request) (qr_consolidation request) timeout (qr_payload request)) = Ok replies /\
      rs_closes replies = Some closes /\ closes <= t0 + qr_timeout request /\ l = (snd <$> rs_arrivals replies)
  | Err e => e = AppRequestTimeout \/ e = service_unavailable "Zenoh query failed."
  end.
Proof.
  intros H1 H2. unfold execute_query_collect, issue_query, Deadline_after, Deadline_remaining.
  destruct (Z.leb_spec (t0 + qr_timeout request) t1) as [Hn|Hn]; [by left|]. unfold mbind at 1 2, result_bind.
  destruct (session_get _) as [replies|source] eqn:Eg; [|by right]. cbn [map_zenoh_error]. unfold Replies_collect.
  match goal with |- context [Deadline_timeout ?d ?n ?f] => destruct (Deadline_timeout_cases d n f) as [(ready & a & Hf & ? & Hr & ->)|[-> _]] end;
    [|by left].
  apply fmap_Some in Hf as (closes & Hc & [= -> ->]). exists (t0 + qr_timeout request - t1), replies, closes.
  split_and!; try done; lia.
Qed.
End Query.

(** ** Runs *)
Module SessionToy.
(** Zenoh's matching of a key without wildcards. *)
Fixpoint toy_includes (expr key : list string) : bool :=
  match expr, key with
  | [], [] => true
  | e :: expr', k :: key' =>
      if String.eqb e "**" then true else (String.eqb e "*" || String.eqb e k) && toy_includes expr' key'
  | _, _ => false
  end.
#[local] Instance toy_keyexpr : KeyExpr := toy_includes.
Definition subject_matches (s : SessionSubject) (name : option string) : bool :=
  match sj_cert_common_names s, name with
  | None, _ => true
  | Some names, Some n => bool_decide (n ∈ names)
  | Some _, None => false
  end.
Definition applies (acl : SessionAccessControl) (permission : string) (name : option string) (message flow key : string) : bool :=
  List.existsb (fun p => List.existsb (fun r => List.existsb (fun s => List.existsb (fun ke =>
    bool_decide (ru_id r ∈ sp_rules p) && bool_decide (sj_id s ∈ sp_subjects p) && subject_matches s name
    && String.eqb (ru_permission r) permission && bool_decide (message ∈ ru_messages r) && bool_decide (flow ∈ ru_flows r)
    && keyexpr_includes (split_on "/" ke) (split_on "/" key)) (ru_key_exprs r)) (sa_subjects acl)) (sa_rules acl)) (sa_policies acl).
Lemma subject_matches_iff s name : subject_matches s name = true <->
  (forall names, sj_cert_common_names s = Some names -> exists n, name = Some n /\ n ∈ names).
Proof.
  unfold subject_matches. destruct (sj_cert_common_names s) as [names|], name as [n|]; rewrite ?bool_decide_eq_true; split; try done.
  - intros Hn ? [= <-]. eauto.
  - intros Hn. destruct (Hn names eq_refl) as (m & [= ->] & Hm). done.
  - intros Hn. destruct (Hn names eq_refl) as (m & [=] & _).
Qed.
Lemma applies_iff acl permission name message flow key :
  applies acl permission name message flow key = true <-> rule_applies acl permission name message flow key.
Proof.
  unfold applies, rule_applies. repeat setoid_rewrite List.existsb_exists. repeat setoid_rewrite <- list_elem_of_In.
  repeat setoid_rewrite andb_true_iff. repeat setoid_rewrite bool_decide_eq_true. setoid_rewrite subject_matches_iff.
  setoid_rewrite String.eqb_eq.
  naive_solver.
Qed.
#[local] Instance toy_acl : SessionAcl := fun acl name message flow key =>
  negb (applies acl "deny" name message flow key)
  && (String.eqb (sa_default_permission acl) "allow" || applies acl "allow" name message flow key).
#[local] Instance toy_acl_spec : SessionAclSpec.
Proof.
  intros acl name message flow key. unfold session_permits, toy_acl.
  rewrite andb_true_iff, negb_true_iff, orb_true_iff, String.eqb_eq, applies_iff. intros [Hd Ha]. split; [|done].
  intros Hd'%applies_iff. congruence.
Qed.
Definition toy_settings : ZenohAccessControlConfig := mkZenohAclConfig true AclDeny (Some "iot/v1/agents/") ["agt_test"].
Definition toy_document : SessionAccessControl :=
  default (mkSessionAcl "" [] [] []) (session_access_control toy_settings).
Example agents_publish_and_do_not_command :
  session_permits toy_document (Some "agt_test") "put" "ingress" "iot/v1/agents/agt_test/status/latest" = true /\
  session_permits toy_document (Some "agt_test") "put" "ingress" "iot/v1/agents/agt_test/commands/live/cmd_1" = false /\
  session_permits toy_document (Some "agt_test") "declare_queryable" "ingress" "iot/v1/agents/agt_test/state/commit" = false /\
  session_permits toy_document (Some "agt_test") "declare_queryable" "egress" "iot/v1/agents/agt_test/state/commit" = true /\
  session_permits toy_document (Some "stranger") "put" "ingress" "iot/v1/agents/agt_test/status/latest" = false.
Proof. vm_compute. done. Qed.
(** Zenoh's configuration as the list of what was written, latest first. *)
#[local] Instance toy_crate : ZenohCrate :=
  {| zconfig := list (string * string); zconfig_default := []; insert_json5 key text config := Some ((key, text) :: config);
     endpoint_valid e := contains_any [47] e; zsession := list (string * string); zenoh_open := Ok |}.
#[local] Instance toy_text : ValueText := fun v => match v with VString s => s | VBool true => "true" | VBool false => "false" | _ => "json" end.
Definition client : ZenohSettings :=
  mkZenohSettings true ModeClient ZenohAdminSpaceConfig_default ["tls/router:7447"] [] ZenohTlsConfig_default
    ZenohAccessControlConfig_default 0 1 1.
Example client_session : open_session client = Ok
  [("connect/endpoints", "json"); ("adminspace/permissions/write", "false"); ("adminspace/permissions/read", "true");
   ("adminspace/enabled", "false"); ("mode", "client")].
Proof. reflexivity. Qed.
Definition router : ZenohSettings :=
  mkZenohSettings true ModeRouter ZenohAdminSpaceConfig_default [] ["tls/0.0.0.0:7447"] ZenohTlsConfig_default toy_settings 0 1 1.
Lemma embedded_router_reserves_authority_witness :
  session_permits toy_document (Some "agt_test") "put" "ingress" "iot/v1/agents/agt_test/status/latest" = true /\
  exists acl written, configure_zenoh zconfig_default router = Ok written /\
    hd_error written = Some ("access_control", value_to_string (SessionAccessControl_value acl)) /\ reserves toy_settings "iot/v1/agents/" acl.
Proof.
  split; [vm_compute; reflexivity|].
  destruct (configure_zenoh zconfig_default router) as [written|] eqn:E; [|by vm_compute in E].
  destruct (embedded_router_reserves_authority zconfig_default router "iot/v1/agents/" written E eq_refl eq_refl) as (acl & before & Hw & Hr).
  exists acl, written. split; [reflexivity|]. split; [injection Hw as <-; reflexivity|exact Hr].
Defined.
(** Under the default "allow" an Agent may declare a queryable on everything below the namespace, the commits included. *)
Lemma wide_queryable_is_let_in :
  session_permits (default toy_document (session_access_control (mkZenohAclConfig true AclAllow (Some "iot/v1/agents/") ["agt_test"])))
    (Some "agt_test") "declare_queryable" "ingress" "iot/v1/agents/**" = true.
Proof. vm_compute. reflexivity. Qed.
Example late_query : execute_query_collect (fun _ => Ok (mkReplies [(5, "a"); (20, "b")] (Some 40)))
  (ZenohQueryRequest_new "key" 30 "none") 0 1 2 = Err AppRequestTimeout.
Proof. reflexivity. Qed.
End SessionToy.
