(* ===== verification/OpenBao.v ===== *)
(** * The OpenBao client

    [crates/inari-server/src/openbao/client.rs]: requests to OpenBao under a token that is logged in for with the workload
    identity of the Controller, kept until it is due for renewal and dropped when OpenBao refuses it.  What OpenBao, the
    clock and the token file answer may depend on everything that was sent before. *)
From S2P Require Import Json Errors Identifiers InvitationCode Schema ServerErrors FleetPolicy AccessControl AdmissionController.
From S2P Require Import PayloadProtection ManagedGateway GatewayConfig Prelude.

Definition MAX_OPENBAO_RESPONSE_BYTES : Z := 64 * 1024.
Inductive Method : Set := POST | GET.
Record BaoRequest := mkBaoRequest {
  bq_method : Method;
  bq_url : string;
  bq_body : option Value;
  bq_namespace : option string;
  bq_token : option string;
}.
(** A response as it is read: chunks, of which one may fail to arrive. *)
Record BaoResponse := mkBaoResponse { br_status : Z; br_content_length : option Z; br_chunks : list (option string) }.
(** [value] with the instant it is due for renewal. *)
Record CachedToken := mkCachedToken { ct_value : string; ct_refresh_at : instant }.
(** The client's state, and what it sent so far, latest first. *)
Record Bao := mkBao { bao_token : option CachedToken; bao_log : list BaoRequest }.
Record OpenBaoAuth := mkOpenBaoAuth { oa_client_token : string; oa_lease_duration : Z }.
(** [OpenBaoLoginRequest] as its JSON. *)
Definition OpenBaoLoginRequest_value (role jwt : string) : Value := object [("role", VString role); ("jwt", VString jwt)].

(** [Url::join], and [serde_json::from_slice] of a login response. *)
Class BaoCodec := { bao_join : string -> string -> option string; login_from_slice : string -> option OpenBaoAuth }.
(** OpenBao answers the latest request of the log, or is not reached; the clock and the token file are read after the
    requests of the log.  [bw_token_file] is what reading at most one byte over the limit gives, [None] on an error. *)
Record BaoWorld := mkBaoWorld {
  bw_server : list BaoRequest -> option BaoResponse;
  bw_clock : list BaoRequest -> instant;
  bw_token_file : list BaoRequest -> option string;
}.
Notation bao := (repo Bao AppError).

(** [u64::saturating_mul]. *)
Definition saturating_mul_u64 (a b : Z) : Z := Z.min (a * b) u64_max.
(** [Instant::checked_add] of seconds; the seconds of an instant are an [i64]. *)
Definition instant_checked_add (now seconds_ : Z) : option Z :=
  if now / seconds 1 + seconds_ <=? i64_max then Some (now + seconds seconds_) else None.
Definition refresh_seconds (lease_duration : Z) : Z := Z.max (saturating_mul_u64 lease_duration 4 / 5) 1.

(** The body, chunk by chunk, within the limit. *)
Fixpoint read_body (bytes : string) (chunks : list (option string)) : AppResult string :=
  match chunks with
  | [] => Ok bytes
  | None :: _ => Err (service_unavailable "The OpenBao response could not be read.")
  | Some chunk :: rest =>
      if MAX_OPENBAO_RESPONSE_BYTES <? str_len bytes + str_len chunk
      then Err (service_unavailable "The OpenBao response exceeded its size limit.")
      else read_body (bytes ++ chunk) rest
  end.
Definition is_success (status : Z) : bool := (200 <=? status) && (status <? 300).

Section Client.
Context `{BaoCodec}.
Context (config : OpenBaoConfig) (world : BaoWorld).

Definition send (request : BaoRequest) : bao BaoResponse := fun s =>
  let log := request :: bao_log s in
  (ok_or (bw_server world log) (service_unavailable "OpenBao did not accept the request."), mkBao (bao_token s) log).
Definition drop_token : bao unit := fun s => (Ok tt, mkBao None (bao_log s)).
Definition request {T} (parse : string -> option T) (method : Method) (path : string) (token : option string)
    (body : option Value) : bao T :=
  address ← returns (ok_or (ob_address config) (service_unavailable "The OpenBao address is not configured."));
  url ← returns (ok_or (bao_join address path) (service_unavailable "The OpenBao request URL is invalid."));
  response ← send (mkBaoRequest method url body (ob_namespace config) token);
  _ ← (if is_some token && ((br_status response =? 401) || (br_status response =? 403)) then drop_token else mret tt);
  _ ← returns (ensure (negb (negb (is_success (br_status response))
                         || match br_content_length response with
                            | Some length => MAX_OPENBAO_RESPONSE_BYTES <? length
                            | None => false
                            end)) (service_unavailable "OpenBao returned an unsuccessful response."));
  bytes ← returns (read_body "" (br_chunks response));
  returns (ok_or (parse bytes) (service_unavailable "OpenBao returned an invalid response.")).

Definition store_token (cached : CachedToken) : bao string := fun s => (Ok (ct_value cached), mkBao (Some cached) (bao_log s)).
Definition unread_token : AppError := service_unavailable "The Controller workload identity token could not be read.".
Definition login : bao string :=
  file ← queries (fun s => ok_or (bw_token_file world (bao_log s)) unread_token);
  _ ← returns (ensure (negb ((MAX_OPENBAO_RESPONSE_BYTES <? str_len file) || is_empty (trim file)))
                 (service_unavailable "The Controller workload identity token is invalid."));
  role ← returns (ok_or (ob_kubernetes_role config) (service_unavailable "The OpenBao role is not configured."));
  auth ← request login_from_slice POST ("v1/auth/" ++ ob_kubernetes_auth_mount config ++ "/login") None
           (Some (OpenBaoLoginRequest_value role (trim file)));
  _ ← returns (ensure (negb (is_empty (oa_client_token auth) || (oa_lease_duration auth =? 0)))
                 (service_unavailable "OpenBao returned invalid authentication data."));
  refresh_at ← queries (fun s => ok_or (instant_checked_add (bw_clock world (bao_log s)) (refresh_seconds (oa_lease_duration auth)))
                                   (service_unavailable "OpenBao returned an invalid token lifetime."));
  store_token (mkCachedToken (oa_client_token auth) refresh_at).
Definition token : bao string := fun s =>
  match bao_token s with
  | Some cached => if bw_clock world (bao_log s) <? ct_refresh_at cached then (Ok (ct_value cached), s) else login s
  | None => login s
  end.
Definition bao_post {T} (parse : string -> option T) (path : string) (body : Value) : bao T :=
  token ← token; request parse POST path (Some token) (Some body).
Definition bao_get {T} (parse : string -> option T) (path : string) : bao T :=
  token ← token; request parse GET path (Some token) None.
End Client.
(** [OpenBaoClient::load]: the configuration is checked, the certificate authority read and the client built. *)
Definition OpenBaoClient_load `{UrlParts} (config : OpenBaoConfig) (read : string -> option string) (from_pem : string -> bool)
    (client_builds : bool) : AppResult Bao :=
  _ ← OpenBaoConfig_validate config true;
  _ ← match ob_ca_certificate_file config with
      | Some path =>
          pem ← ok_or (read path) (service_unavailable "The OpenBao certificate authority file could not be read.");
          ensure (from_pem pem) (service_unavailable "The OpenBao certificate authority file is invalid.")
      | None => Ok tt
      end;
  _ ← ensure client_builds (service_unavailable "The OpenBao client could not be initialized.");
  Ok (mkBao None []).

(** ** Bodies are bounded *)
Lemma read_body_bounded bytes chunks body : str_len bytes <= MAX_OPENBAO_RESPONSE_BYTES -> read_body bytes chunks = Ok body ->
  str_len body <= MAX_OPENBAO_RESPONSE_BYTES.
Proof.
  revert bytes. induction chunks as [|[chunk|] rest IH]; intros bytes Hb; simpl; [by intros <-%Ok_inj| |done].
  destruct (Z.ltb_spec MAX_OPENBAO_RESPONSE_BYTES (str_len bytes + str_len chunk)); [done|].
  apply IH. rewrite str_len_app. lia.
Qed.

(** ** One request *)
Section Requests.
Context `{BaoCodec}.
Context (config : OpenBaoConfig) (world : BaoWorld).

(** A request was answered with an accepted body. *)
Definition answered {T} (parse : string -> option T) (log : list BaoRequest) (t : T) : Prop :=
  exists response body, bw_server world log = Some response /\ is_success (br_status response) = true /\
    str_len body <= MAX_OPENBAO_RESPONSE_BYTES /\ read_body "" (br_chunks response) = Ok body /\ parse body = Some t.
Definition refused (log : list BaoRequest) : Prop :=
  exists response, bw_server world log = Some response /\ (br_status response = 401 \/ br_status response = 403).
Lemma request_run {T} (parse : string -> option T) method path tok body s r s' :
  request config world parse method path tok body s = (r, s') ->
  (s' = s /\ exists e, r = Err e) \/
  (exists url, bao_log s' = mkBaoRequest method url body (ob_namespace config) tok :: bao_log s /\
     (forall t, r = Ok t -> answered parse (bao_log s') t /\ bao_token s' = bao_token s) /\
     (bao_token s' = bao_token s \/ bao_token s' = None) /\ (tok = None -> bao_token s' = bao_token s) /\
     (is_some tok = true -> refused (bao_log s') -> bao_token s' = None)).
Proof.
  unfold request. intros Hr. apply repo_guard in Hr as [[-> (e & _ & ->)]|(address & _ & Hr)]; [left; eauto|].
  apply repo_guard in Hr as [[-> (e & _ & ->)]|(url & _ & Hr)]; [left; eauto|]. right. exists url.
  set (q := mkBaoRequest method url body (ob_namespace config) tok) in *.
  unfold mbind at 1, repo_bind, send in Hr. destruct (bw_server world (q :: bao_log s)) as [response|] eqn:Es; simpl in Hr.
  2:{ injection Hr as <- <-. simpl. split_and!; try done; [by left|]. intros _ (response & Hs & _). congruence. }
  set (drops := is_some tok && ((br_status response =? 401) || (br_status response =? 403))) in *.
  assert (Hd : ((if drops then drop_token else mret tt) : bao unit) (mkBao (bao_token s) (q :: bao_log s)) =
    (Ok tt, mkBao (if drops then None else bao_token s) (q :: bao_log s))) by (by destruct drops).
  unfold mbind at 1, repo_bind in Hr. rewrite Hd in Hr. set (s1 := mkBao _ _) in Hr.
  assert (Hfin : s' = s1 /\ forall t, r = Ok t -> is_success (br_status response) = true /\ exists body_,
      read_body "" (br_chunks response) = Ok body_ /\ parse body_ = Some t).
  { apply repo_guard in Hr as [[-> (e & _ & ->)]|(u & Hu%ensure_Ok & Hr)]; [done|].
    apply repo_guard in Hr as [[-> (e & _ & ->)]|(bytes & Hb & Hr)]; [done|]. injection Hr as Hp <-. split; [done|].
    intros t ->. apply ok_or_Ok in Hp. rewrite negb_true_iff, orb_false_iff, negb_false_iff in Hu. split; [apply Hu|eauto]. }
  destruct Hfin as [-> Hfin]. subst s1. cbn [bao_log bao_token].
  split; [done|]. split_and!.
  - intros t Ht. destruct (Hfin t Ht) as [Hok (body_ & Hb & Hp)]. split.
    + exists response, body_. split_and!; try done. eapply read_body_bounded; [|done]. done.
    + subst drops. unfold is_success in Hok. destruct tok; [|done]. simpl. destruct (Z.eqb_spec (br_status response) 401), (Z.eqb_spec (br_status response) 403); simpl; try done; lia.
  - destruct drops; auto.
  - intros ->. by subst drops.
  - intros Ht (response' & Hs & Hst). assert (response' = response) as -> by congruence. subst drops. rewrite Ht. simpl.
    destruct Hst as [->| ->]; done.
Qed.

(** ** Tokens *)
(** A new token of a lease of some seconds is due after four fifths of it, rounded down, and not before a second; a lease
    whose fourfold does not fit 64 bits counts as the largest that does. *)
Definition due_after (lease due : Z) : Prop :=
  lease <> 0 /\ (4 * lease <= u64_max -> due = Z.max 1 (4 * lease / 5)) /\ (u64_max < 4 * lease -> due = u64_max / 5).
Lemma refresh_seconds_due lease : lease <> 0 -> due_after lease (refresh_seconds lease).
Proof.
  intros Hl. unfold due_after, refresh_seconds, saturating_mul_u64. split_and!; [done| |]; intros Hm.
  - rewrite Z.min_l by lia. rewrite (Z.mul_comm lease 4). lia.
  - rewrite Z.min_r by lia. unfold u64_max. vm_compute. done.
Qed.
Lemma login_run s r s' : login config world s = (r, s') ->
  (exists e, r = Err e /\ bao_token s' = bao_token s /\ (bao_log s' = bao_log s \/ exists q, bao_log s' = q :: bao_log s /\ bq_token q = None)) \/
  (exists value q auth, r = Ok value /\ bao_log s' = q :: bao_log s /\ bq_token q = None /\ bq_method q = POST /\
     answered login_from_slice (bao_log s') auth /\ oa_client_token auth = value /\ value <> "" /\
     exists due, due_after (oa_lease_duration auth) due /\
       bao_token s' = Some (mkCachedToken value (bw_clock world (bao_log s') + seconds due))).
Proof.
  unfold login. intros Hr.
  apply repo_bind_inv in Hr as [(file & s1 & Hf & Hr)|(e & Hf & ->)]; unfold queries in Hf; injection Hf as Hf <-; [|left; eauto 10].
  apply repo_guard in Hr as [[-> (e & _ & ->)]|(u & _ & Hr)]; [left; eauto 10|].
  apply repo_guard in Hr as [[-> (e & _ & ->)]|(role & _ & Hr)]; [left; eauto 10|].
  apply repo_bind_inv in Hr as [(auth & s1 & Hq & Hr)|(e & Hq & ->)].
  2:{ apply request_run in Hq as [[-> _]|(url & -> & _ & _ & Hk & _)]; left; [eauto 10|]. rewrite Hk by done. eauto 10. }
  apply request_run in Hq as [[-> (e & [=])]|(url & El & Ha & _ & _ & _)]. destruct (Ha auth eq_refl) as [Hans Htok].
  apply repo_guard in Hr as [[-> (e & _ & ->)]|(v & Hv%ensure_Ok & Hr)]; [left; rewrite El, Htok; eauto 10|].
  apply repo_bind_inv in Hr as [(at_ & s2 & Hc & Hr)|(e & Hc & ->)]; unfold queries in Hc; injection Hc as Hc <-.
  2:{ left. rewrite El, Htok. eauto 10. }
  unfold store_token in Hr. injection Hr as <- <-. right. apply ok_or_Ok in Hc.
  exists (oa_client_token auth), (mkBaoRequest POST url (Some (OpenBaoLoginRequest_value role (trim file))) (ob_namespace config) None), auth.
  cbn [bao_log bao_token]. split_and!; try done.
  - intros E. rewrite E in Hv. done.
  - exists (refresh_seconds (oa_lease_duration auth)). split.
    + apply refresh_seconds_due. intros E. rewrite E in Hv. by rewrite orb_true_r in Hv.
    + unfold instant_checked_add in Hc. destruct (_ <=? i64_max); [|done]. injection Hc as <-. done.
Qed.
(** The token a call is made with: the cached one while it is not due, otherwise a new login. *)
Definition usable (s : Bao) (value : string) (s1 : Bao) : Prop :=
  (exists cached, bao_token s = Some cached /\ ct_value cached = value /\ bw_clock world (bao_log s) < ct_refresh_at cached /\ s1 = s) \/
  (exists q auth, (forall cached, bao_token s = Some cached -> ct_refresh_at cached <= bw_clock world (bao_log s)) /\
     bao_log s1 = q :: bao_log s /\ bq_token q = None /\ answered login_from_slice (bao_log s1) auth /\ oa_client_token auth = value /\
     exists due, due_after (oa_lease_duration auth) due /\
       bao_token s1 = Some (mkCachedToken value (bw_clock world (bao_log s1) + seconds due))).
Lemma token_run s r s' : token config world s = (r, s') ->
  match r with
  | Ok value => usable s value s'
  | Err _ => bao_token s' = bao_token s /\ (bao_log s' = bao_log s \/ exists q, bao_log s' = q :: bao_log s /\ bq_token q = None)
  end.
Proof.
  unfold token. intros Ht.
  assert (Hlogin : (forall cached, bao_token s = Some cached -> ct_refresh_at cached <= bw_clock world (bao_log s)) ->
    login config world s = (r, s') -> match r with
  | Ok value => usable s value s'
  | Err _ => bao_token s' = bao_token s /\ (bao_log s' = bao_log s \/ exists q, bao_log s' = q :: bao_log s /\ bq_token q = None)
  end).
  { intros Hdue [(e & -> & Hk & Hl)|(value & q & auth & -> & Hl & Hq & _ & Ha & Hv & _ & Ht')]%login_run; [done|].
    right. eauto 12. }
  destruct (bao_token s) as [cached|] eqn:Ec; [|by apply Hlogin].
  destruct (Z.ltb_spec (bw_clock world (bao_log s)) (ct_refresh_at cached)) as [Hlt|Hge].
  - injection Ht as <- <-. left. eauto.
  - apply Hlogin; [|done]. by intros ? [= <-].
Qed.

(** C27: the Controller speaks to OpenBao only under a current token.  A call, whether it succeeds or not, sends at most a
    login and then one request.
    - The login carries no token; the request carries a token that is either the cached one, before it is due for renewal,
      or the one OpenBao has just issued, which is then due after four fifths of the seconds of its lease, rounded down and
      never less than one (of the largest 64-bit number where the lease's fourfold is larger).
    - A result was parsed from the successful answer to that request, of at most 64 KiB.
    - A token that OpenBao refuses with 401 or 403 is dropped, so the next call logs in again. *)
Theorem openbao_calls_are_authenticated {T} (parse : string -> option T) method path body s r s' :
  ((tok ← token config world; request config world parse method path (Some tok) body) : bao T) s = (r, s') ->
  (bao_log s' = bao_log s /\ exists e, r = Err e) \/
  (exists q, bao_log s' = q :: bao_log s /\ bq_token q = None /\ exists e, r = Err e) \/
  (exists value s1 q, usable s value s1 /\ bao_log s' = q :: bao_log s1 /\ bq_token q = Some value /\ bq_method q = method /\
     bq_body q = body /\
     (forall t, r = Ok t -> answered parse (bao_log s') t) /\
     (refused (bao_log s') -> bao_token s' = None /\ exists e, r = Err e)).
Proof.
  intros Hc. apply repo_bind_inv in Hc as [(value & s1 & Ht%token_run & Hr)|(e & Ht%token_run & ->)].
  - apply request_run in Hr as [[-> (e & ->)]|(url & El & Ha & _ & _ & Hd)].
    + destruct Ht as [(cached & _ & _ & _ & ->)|(q & auth & _ & Hl & Hq & _)]; [left; eauto|right; left]. eauto 10.
    + right. right. exists value, s1, (mkBaoRequest method url body (ob_namespace config) (Some value)).
      split_and!; try done; [by intros t Ht'; apply Ha|]. intros Href. split; [by apply Hd|].
      destruct r as [t|e]; [|eauto]. destruct (Ha t eq_refl) as [(response & _ & Hs & Hok & _) _].
      destruct Href as (response' & Hs' & Hst). assert (response' = response) as -> by congruence. unfold is_success in Hok. lia.
  - simpl in Ht. destruct Ht as [_ [Hl|(q & Hl & Hq)]]; [left; eauto|right; left; eauto].
Qed.
End Requests.

(** ** Runs *)
Module BaoToy.
#[export] Instance toy_codec : BaoCodec :=
  {| bao_join address path := Some (address ++ path);
     login_from_slice body := if String.eqb body "login" then Some (mkOpenBaoAuth "token-1" 100) else None |}.
Definition toy_config : OpenBaoConfig :=
  mkOpenBaoConfig (Some "https://bao/") (Some "controller") "kubernetes" "/token" None None (seconds 5).
(** Answers logins, and refuses requests once the log is longer than [refuse_after]. *)
Definition toy_server (refuse_after : Z) (log : list BaoRequest) : option BaoResponse :=
  match log with
  | q :: _ =>
      match bq_token q with
      | None => Some (mkBaoResponse 200 (Some 5) [Some "log"; Some "in"])
      | Some _ => if (refuse_after <? Z.of_nat (length log)) then Some (mkBaoResponse 403 None [])
                  else Some (mkBaoResponse 200 None [Some "ok"])
      end
  | [] => None
  end.
Definition toy_world (refuse_after : Z) : BaoWorld :=
  mkBaoWorld (toy_server refuse_after) (fun log => seconds (50 * Z.of_nat (length log))) (fun _ => Some " jwt ").
Definition fetch (w : BaoWorld) : bao string := bao_get toy_config w Some "v1/transit/keys/root".
(** The token is due 80 s after the login at 50 s, so it serves two requests and the third logs in again. *)
Example token_is_renewed :
  let '(a, s1) := fetch (toy_world 9) (mkBao None []) in let '(b, s2) := fetch (toy_world 9) s1 in
  let '(c, s3) := fetch (toy_world 9) s2 in
  (a, b, c) = (Ok "ok", Ok "ok", Ok "ok") /\ bq_token <$> bao_log s3 = [Some "token-1"; None; Some "token-1"; Some "token-1"; None].
Proof. vm_compute. done. Qed.
Lemma openbao_calls_are_authenticated_witness : exists value s1 q s',
  fetch (toy_world 1) (mkBao None []) = (Err (service_unavailable "OpenBao returned an unsuccessful response."), s') /\
  usable (toy_world 1) (mkBao None []) value s1 /\ bao_log s' = q :: bao_log s1 /\ bao_token s' = None.
Proof.
  destruct (fetch (toy_world 1) (mkBao None [])) as [r s'] eqn:E. pose proof E as Hrun. vm_compute in E. injection E as <- <-.
  destruct (openbao_calls_are_authenticated toy_config (toy_world 1) Some GET "v1/transit/keys/root" None _ _ _ Hrun)
    as [[Hl _]|[(q & Hl & _)|(value & s1 & q & Hu & Hl & _ & _ & _ & _ & Hd)]]; [discriminate Hl|discriminate Hl|].
  eexists value, s1, q, _. split; [reflexivity|]. split; [exact Hu|]. split; [exact Hl|].
  apply Hd. exists (mkBaoResponse 403 None []). split; [reflexivity|right; reflexivity].
Defined.
End BaoToy.
