(* ===== verification/AuthoritySigning.v ===== *)
(** * Signing of device authority

    [crates/inari-server/src/openbao/signing.rs] and [device_authority.rs]: the assembly of an authority bundle from an
    operator's draft under an independent approval, signed by keys that never leave OpenBao, and its storage.  A bundle is
    verified as an Agent would verify it before it is returned and again before it is stored. *)
From S2P Require Import Json Errors Identifiers InvitationCode Schema Security Authority ServerErrors FleetPolicy AccessControl.
From S2P Require Import AdmissionController ManagedWork DataTls PayloadProtection ManagedGateway GatewayConfig OpenBao Prelude.

(** ** Approvals and drafts *)
Record TransitApproval := mkTransitApproval { ta_key_name : string; ta_key_version : Z; ta_signer : SignerRecord }.
Record AuthorityApproval := mkApproval {
  aa_agent_id : string;
  aa_scope : AuthorityScope;
  aa_transit_mount : string;
  aa_root : TransitApproval;
  aa_profile : TransitApproval;
  aa_matrix : TransitApproval;
  aa_binding : TransitApproval;
  aa_agent_signers : list SignerRecord;
}.
Record AuthorityDraft := mkDraft {
  ad_agent_id : string;
  ad_scope : AuthorityScope;
  ad_revision_id : string;
  ad_revision_number : Z;
  ad_effective_at : instant;
  ad_expires_at : instant;
  ad_profiles : list DriverProfile;
  ad_certification_rows : list HardwareCertificationMatrixRow;
  ad_bindings : list BindingRevision;
  ad_evidence : list SignedDeviceTestEvidence;
  ad_activations : list BindingActivation;
}.
(** The [?] of a gateway result in the server. *)
Definition authority_result {A} (r : GatewayResult A) : AppResult A :=
  match r with Ok a => Ok a | Err e => Err (from_gateway e) end.
(** A signing key that may be used now. *)
Definition signer_current (s : SignerRecord) (now : instant) : bool :=
  negb (negb (bool_decide (sg_state s = SignerActive)) || (now <? sg_not_before s)
        || match sg_not_after s with Some stop => stop <=? now | None => false end).
Fixpoint check_controller_keys (now : instant) (key_names public_keys : gset string) (keys : list (TransitApproval * SignerPurpose))
    : AppResult (gset string) :=
  match keys with
  | [] => Ok public_keys
  | (key, purpose) :: rest =>
      _ ← authority_result (SignerRecord_validate (ta_signer key));
      _ ← ensure (negb (bool_decide (ta_key_name key ∈ key_names) || bool_decide (sg_public_key (ta_signer key) ∈ public_keys)))
            (bad_request "Each Controller signing purpose requires a distinct Transit key and public key.");
      _ ← ensure (bool_decide (sg_purpose (ta_signer key) = purpose) && valid_openbao_name (ta_key_name key)
                  && (ta_key_version key <=? i32_max) && signer_current (ta_signer key) now)
            (bad_request "A Controller signing approval is not current for its purpose.");
      check_controller_keys now ({[ ta_key_name key ]} ∪ key_names) ({[ sg_public_key (ta_signer key) ]} ∪ public_keys) rest
  end.
Definition agent_purpose (p : SignerPurpose) : bool :=
  match p with ForDeviceObservation | ForDeviceTestEvidence => true | _ => false end.
Fixpoint check_agent_signers (public_keys : gset string) (signers : list SignerRecord) : AppResult unit :=
  match signers with
  | [] => Ok tt
  | signer :: rest =>
      _ ← authority_result (SignerRecord_validate signer);
      _ ← ensure (negb (bool_decide (sg_public_key signer ∈ public_keys)))
            (bad_request "An Agent signing key cannot share another signing purpose's key material.");
      _ ← ensure (agent_purpose (sg_purpose signer)) (bad_request "An Agent signer has a Controller purpose.");
      check_agent_signers ({[ sg_public_key signer ]} ∪ public_keys) rest
  end.
Definition controller_keys (a : AuthorityApproval) : list (TransitApproval * SignerPurpose) :=
  [(aa_root a, ForAuthorityRevision); (aa_profile a, ForDriverProfile); (aa_matrix a, ForCertificationMatrix);
   (aa_binding a, ForBindingRevision)].
Definition AuthorityApproval_validate (self : AuthorityApproval) (now : instant) : AppResult unit :=
  _ ← authority_result (AuthorityScope_validate (aa_scope self));
  _ ← ensure (negb (negb (valid_openbao_name (aa_transit_mount self)) || (125 <? Z.of_nat (length (aa_agent_signers self)))))
        (bad_request "The authority approval is invalid.");
  public_keys ← check_controller_keys now ∅ ∅ (controller_keys self);
  check_agent_signers public_keys (aa_agent_signers self).

(** ** Keys in OpenBao *)
Record AuthoritySigningKey := mkSigningKey {
  ak_transit_mount : string;
  ak_key_name : string;
  ak_key_version : Z;
  ak_signer : SignerRecord;
}.
Record KeyMetadata := mkKeyMetadata {
  km_name : string;
  km_key_type : string;
  km_derived : bool;
  km_exportable : bool;
  km_allow_plaintext_backup : bool;
  km_supports_signing : bool;
  km_min_encryption_version : Z;
  km_keys : gmap string string;
}.
(** [serde_json::from_slice] of a [KeyResponse] and of a [SignResponse]. *)
Class SigningCodec := { key_from_slice : string -> option KeyMetadata; sign_from_slice : string -> option string }.
Definition SignRequest_value (input : string) (key_version : Z) : Value :=
  object [("input", VString input); ("key_version", VNumber key_version); ("prehashed", VBool false)].
Definition invalid_response : string -> AppError := service_unavailable.
Definition controller_purpose (p : SignerPurpose) : bool :=
  match p with ForAuthorityRevision | ForDriverProfile | ForCertificationMatrix | ForBindingRevision => true | _ => false end.

(** [serde_json::to_vec_pretty] of a bundle. *)
Class BundleText := bundle_to_vec_pretty : AuthorityBundle -> option string.

Section Signing.
Context `{BaoCodec, SigningCodec, Base64Standard, Base64Decode, Encoding, Ed25519, Sha256, Rfc3339, Canonicalizer}.
Context (config : OpenBaoConfig) (world : BaoWorld).

Definition metadata_approved (self : AuthoritySigningKey) (metadata : KeyMetadata) : bool :=
  negb (negb (String.eqb (km_name metadata) (ak_key_name self)) || negb (String.eqb (km_key_type metadata) "ed25519")
        || km_derived metadata || km_exportable metadata || km_allow_plaintext_backup metadata
        || negb (km_supports_signing metadata) || (ak_key_version self <? km_min_encryption_version metadata)).
Definition verify_metadata (self : AuthoritySigningKey) : bao unit :=
  metadata ← bao_get config world key_from_slice ("v1/" ++ ak_transit_mount self ++ "/keys/" ++ ak_key_name self);
  _ ← returns (ensure (metadata_approved self metadata) (invalid_response "The authority Transit key no longer meets its approval."));
  public ← returns (ok_or (version ← km_keys metadata !! show_u64 (ak_key_version self); base64_decode version)
                      (invalid_response "The approved authority key version is absent or invalid."));
  returns (ensure (String.eqb public (sg_public_key (ak_signer self)))
             (invalid_response "The authority Transit public key differs from its approval.")).
Definition AuthoritySigningKey_load (transit_mount key_name : string) (key_version : Z) (signer : SignerRecord) : bao AuthoritySigningKey :=
  _ ← returns (authority_result (SignerRecord_validate signer));
  _ ← returns (ensure (negb (negb (valid_openbao_name transit_mount) || negb (valid_openbao_name key_name) || (i32_max <? key_version)
                             || negb (controller_purpose (sg_purpose signer))))
                 (bad_request "The approved Controller Transit key is invalid."));
  let key := mkSigningKey transit_mount key_name key_version signer in
  _ ← verify_metadata key;
  mret key.
Definition signature_bytes (encoded : string) : option string :=
  bytes ← base64_decode encoded; if str_len bytes =? 64 then Some bytes else None.
Definition sign `{RecordPayload T} (self : AuthoritySigningKey) (record : CanonicalRecord T) (now : instant) : bao string :=
  _ ← returns (ensure (bool_decide (PURPOSE (T := T) = sg_purpose (ak_signer self)) && signer_current (ak_signer self) now)
                 (forbidden "The Controller authority signing key is not current for this purpose."));
  _ ← verify_metadata self;
  response ← bao_post config world sign_from_slice ("v1/" ++ ak_transit_mount self ++ "/sign/" ++ ak_key_name self)
               (SignRequest_value (base64_standard (cr_bytes record)) (ak_key_version self));
  encoded ← returns (ok_or (strip_prefix ("vault:v" ++ show_u64 (ak_key_version self) ++ ":") response)
                       (invalid_response "OpenBao returned another authority key version."));
  bytes ← returns (ok_or (signature_bytes encoded) (invalid_response "OpenBao returned an invalid Ed25519 signature."));
  _ ← returns (ensure (ed25519_from_bytes_is_ok (sg_public_key (ak_signer self)))
                 (invalid_response "The approved authority public key is invalid."));
  _ ← returns (ensure (verify_strict (sg_public_key (ak_signer self)) (cr_bytes record) bytes)
                 (invalid_response "OpenBao signed with an unapproved authority key."));
  mret bytes.

(** ** Assembly *)
(** [HexBytes::new([0; 64])]: the place of a signature to come. *)
Definition no_signature : string := string_of_list_ascii (replicate 64 (ascii_of_nat 0)).
Fixpoint unsigned `{RecordPayload T} (signer_key_id : string) (records : list T) : GatewayResult (list (Signed T)) :=
  match records with
  | [] => Ok []
  | record :: rest =>
      canonical ← CanonicalRecord_new record;
      rest ← unsigned signer_key_id rest;
      Ok (from_signature canonical signer_key_id no_signature :: rest)
  end.
Definition approved_signers (a : AuthorityApproval) : list SignerRecord :=
  (ta_signer (aa_profile a) :: ta_signer (aa_matrix a) :: ta_signer (aa_binding a) :: aa_agent_signers a).
Definition evidence_approved (a : AuthorityApproval) (now : instant) (evidence : SignedDeviceTestEvidence) : AppResult unit :=
  signer ← ok_or (List.find (fun s => String.eqb (sg_key_id s) (sr_signer_key_id evidence)) (aa_agent_signers a))
             (forbidden "The Device Test evidence signer is not approved.");
  authority_result (Signed_verify evidence signer now).
Fixpoint check_evidence (a : AuthorityApproval) (now : instant) (l : list SignedDeviceTestEvidence) : AppResult unit :=
  match l with [] => Ok tt | e :: rest => _ ← evidence_approved a now e; check_evidence a now rest end.
Definition prepare_bundle (draft : AuthorityDraft) (approval : AuthorityApproval) (now : instant) : AppResult AuthorityBundle :=
  _ ← AuthorityApproval_validate approval now;
  _ ← ensure (negb (negb (String.eqb (ad_agent_id draft) (aa_agent_id approval)) || negb (bool_decide (ad_scope draft = aa_scope approval))))
        (forbidden "The draft differs from the approved Agent or Binding Scope.");
  _ ← ensure (negb ((now <? ad_effective_at draft) || (ad_expires_at draft <=? now) || (ad_expires_at draft <=? ad_effective_at draft)))
        (bad_request "The authority revision needs a current, bounded lifetime.");
  _ ← ensure (negb (List.existsb (fun s => String.eqb (sg_key_id s) (sg_key_id (ta_signer (aa_root approval)))) (approved_signers approval)))
        (bad_request "The manifest cannot contain the authority root key.");
  profiles ← authority_result (unsigned (sg_key_id (ta_signer (aa_profile approval))) (ad_profiles draft));
  rows ← authority_result (unsigned (sg_key_id (ta_signer (aa_matrix approval))) (ad_certification_rows draft));
  bindings ← authority_result (unsigned (sg_key_id (ta_signer (aa_binding approval))) (ad_bindings draft));
  let manifest := mkManifest ContractV1 (ad_agent_id draft) (ad_scope draft) (approved_signers approval) profiles rows bindings
                    (ad_evidence draft) (ad_activations draft) in
  _ ← authority_result (AuthorityManifest_validate manifest);
  _ ← check_evidence approval now (mf_evidence manifest);
  digest ← authority_result (AuthorityManifest_digest manifest);
  revision ← authority_result (CanonicalRecord_new (mkRevision (ad_revision_id draft) (ad_revision_number draft) digest
                                 (ad_effective_at draft) (Some (ad_expires_at draft))));
  Ok (mkBundle (from_signature revision (sg_key_id (ta_signer (aa_root approval))) no_signature) manifest).
Definition approval_key (self : AuthorityApproval) (approved : TransitApproval) : bao AuthoritySigningKey :=
  AuthoritySigningKey_load (aa_transit_mount self) (ta_key_name approved) (ta_key_version approved) (ta_signer approved).
(** [for item in &mut ..]: a record is signed in place. *)
Fixpoint sign_all `{RecordPayload T} (key : AuthoritySigningKey) (now : instant) (items : list (Signed T)) : bao (list (Signed T)) :=
  match items with
  | [] => mret []
  | item :: rest =>
      record ← returns (authority_result (CanonicalRecord_new (sr_payload item)));
      signature ← sign key record now;
      rest ← sign_all key now rest;
      mret (mkSigned (sr_payload item) (sr_digest item) (sr_signer_key_id item) signature :: rest)
  end.
Definition sign_bundle (draft : AuthorityDraft) (approval : AuthorityApproval) (now : instant) : bao AuthorityBundle :=
  bundle ← returns (prepare_bundle draft approval now);
  root ← approval_key approval (aa_root approval);
  profile ← approval_key approval (aa_profile approval);
  matrix ← approval_key approval (aa_matrix approval);
  binding ← approval_key approval (aa_binding approval);
  let m := bd_manifest bundle in
  profiles ← sign_all profile now (mf_profiles m);
  rows ← sign_all matrix now (mf_certification_rows m);
  bindings ← sign_all binding now (mf_bindings m);
  let manifest := mkManifest (mf_contract m) (mf_agent_id m) (mf_scope m) (mf_signers m) profiles rows bindings (mf_evidence m)
                    (mf_activations m) in
  digest ← returns (authority_result (AuthorityManifest_digest manifest));
  let r := sr_payload (bd_revision bundle) in
  record ← returns (authority_result (CanonicalRecord_new (mkRevision (rv_revision_id r) (rv_revision_number r) digest
                                        (rv_effective_at r) (rv_expires_at r))));
  signature ← sign root record now;
  let bundle := mkBundle (from_signature record (sg_key_id (ta_signer (aa_root approval))) signature) manifest in
  _ ← returns (authority_result (AuthorityBundle_verify bundle (ta_signer (aa_root approval)) (aa_agent_id approval) (aa_scope approval) now));
  mret bundle.

(** ** Documents *)
Definition MAX_DOCUMENT_BYTES : Z := 4 * 1024 * 1024.
Definition io_error (message : string) : AppError := internal "authority_document_io" message.
Inductive FileRead : Type := CannotOpen | CannotRead | FileBytes (bytes : string).
(** At most one byte over the limit is read. *)
Definition read_document {T} (from_slice : string -> option T) (file : FileRead) : AppResult T :=
  match file with
  | CannotOpen => Err (io_error "The authority input could not be opened.")
  | CannotRead => Err (io_error "The authority input could not be read.")
  | FileBytes bytes =>
      if MAX_DOCUMENT_BYTES <? str_len bytes then Err (bad_request "The authority input exceeds 4 MiB.")
      else ok_or (from_slice bytes) (bad_request "The authority input is invalid.")
  end.
(** What the file system does with a new file: it may refuse it, store only a part, and then keep it. *)
Record WriteIo := mkWriteIo { wi_creates : bool; wi_stored : string -> option string; wi_removes : bool }.
Context `{BundleText}.
(** [wi_stored] is [None] when the bytes were written and synced, otherwise what is left in the file. *)
Definition write_bundle (io : WriteIo) (path : string) (bundle : AuthorityBundle) : repo (gmap string string) AppError unit := fun fs =>
  match bundle_to_vec_pretty bundle with
  | None => (Err (internal "authority_serialization" "The signed authority bundle could not be encoded."), fs)
  | Some bytes =>
      if bool_decide (is_Some (fs !! path)) || negb (wi_creates io) then (Err (io_error "The authority output must be a new file."), fs) else
      match wi_stored io bytes with
      | None => (Ok tt, <[path := bytes]> fs)
      | Some partial =>
          (Err (io_error "The signed authority output could not be stored."), if wi_removes io then fs else <[path := partial]> fs)
      end
  end.
Definition trunc_subsecs_6 (t : instant) : instant := t - t mod 1000.
(** [fs] is threaded beside the OpenBao state; [loaded] is [OpenBaoClient::load]. *)
Definition sign_bundle_files (loaded : AppResult Bao) (draft approval : FileRead) (draft_from_slice : string -> option AuthorityDraft)
    (approval_from_slice : string -> option AuthorityApproval) (io : WriteIo) (output : string) (now later : instant)
    (fs : gmap string string) : AppResult string * gmap string string :=
  (draft ← returns (read_document draft_from_slice draft);
   approval ← returns (read_document approval_from_slice approval);
   now ← returns (authority_result (AuthorityTime_new (trunc_subsecs_6 now)));
   client ← returns loaded;
   bundle ← returns (fst (sign_bundle draft approval now client));
   later ← returns (authority_result (AuthorityTime_new (trunc_subsecs_6 later)));
   _ ← returns (authority_result (AuthorityBundle_verify bundle (ta_signer (aa_root approval)) (aa_agent_id approval)
                                    (aa_scope approval) later));
   _ ← write_bundle io output bundle;
   mret (sr_digest (bd_revision bundle))) fs.

(** ** A signature is one of the approved key *)
Lemma verify_metadata_run key s u s' : verify_metadata key s = (Ok u, s') ->
  exists metadata encoded, metadata_approved key metadata = true /\
    km_keys metadata !! show_u64 (ak_key_version key) = Some encoded /\ base64_decode encoded = Some (sg_public_key (ak_signer key)) /\
    answered world key_from_slice (bao_log s') metadata.
Proof.
  unfold verify_metadata. intros Hr. apply repo_bind_inv in Hr as [(metadata & s1 & Hg & Hr)|(e & _ & [=])].
  apply repo_guard in Hr as [[_ (e & _ & [=])]|(u1 & Hm%ensure_Ok & Hr)].
  apply repo_guard in Hr as [[_ (e & _ & [=])]|(public & Hp%ok_or_Ok & Hr)]. unfold returns in Hr. injection Hr as He%ensure_Ok <-.
  apply String.eqb_eq in He as ->. apply bind_Some in Hp as (encoded & Hk & Hd). exists metadata, encoded. split_and!; try done.
  unfold bao_get in Hg. apply repo_bind_inv in Hg as [(tok & s2 & _ & Hq)|(e & _ & [=])].
  apply request_run in Hq as [[_ (e & [=])]|(url & _ & Ha & _)]. by apply Ha.
Qed.
Lemma sign_run `{RecordPayload T} key (record : CanonicalRecord T) now s signature s' :
  sign key record now s = (Ok signature, s') ->
  PURPOSE (T := T) = sg_purpose (ak_signer key) /\ signer_current (ak_signer key) now = true /\
  str_len signature = 64 /\ verify_strict (sg_public_key (ak_signer key)) (cr_bytes record) signature = true.
Proof.
  unfold sign. intros Hr. apply repo_guard in Hr as [[_ (e & _ & [=])]|(u & Hc%ensure_Ok & Hr)].
  apply repo_bind_inv in Hr as [(u1 & s1 & _ & Hr)|(e & _ & [=])].
  apply repo_bind_inv in Hr as [(response & s2 & _ & Hr)|(e & _ & [=])].
  apply repo_guard in Hr as [[_ (e & _ & [=])]|(encoded & _ & Hr)].
  apply repo_guard in Hr as [[_ (e & _ & [=])]|(bytes & Hb%ok_or_Ok & Hr)].
  apply repo_guard in Hr as [[_ (e & _ & [=])]|(u2 & _ & Hr)].
  apply repo_guard in Hr as [[_ (e & _ & [=])]|(u3 & Hv%ensure_Ok & Hr)]. injection Hr as <- _.
  apply andb_true_iff in Hc as [Hp%bool_decide_eq_true Hc]. split_and!; try done.
  unfold signature_bytes in Hb. apply bind_Some in Hb as (b & _ & Hb). destruct (Z.eqb_spec (str_len b) 64); [|done]. by injection Hb as ->.
Qed.
(** Nothing but the signatures changes. *)
Lemma sign_all_run `{RecordPayload T} key now (items signed : list (Signed T)) s s' :
  sign_all key now items s = (Ok signed, s') ->
  (sr_payload <$> signed) = (sr_payload <$> items) /\ (sr_signer_key_id <$> signed) = (sr_signer_key_id <$> items) /\
  (items <> [] -> PURPOSE (T := T) = sg_purpose (ak_signer key)) /\
  Forall (fun i => exists canonical, CanonicalRecord_new (sr_payload i) = Ok canonical /\
            verify_strict (sg_public_key (ak_signer key)) (cr_bytes canonical) (sr_signature i) = true) signed.
Proof.
  revert signed s s'. induction items as [|item rest IH]; intros signed s s'; cbn [sign_all].
  { intros [= <- <-]. by split_and!. }
  intros Hr. apply repo_guard in Hr as [[_ (e & _ & [=])]|(record & Hc & Hr)].
  apply repo_bind_inv in Hr as [(signature & s1 & Hs%sign_run & Hr)|(e & _ & [=])].
  apply repo_bind_inv in Hr as [(rest' & s2 & (Hp & Hk & _ & Hf)%IH & Hr)|(e & _ & [=])]. injection Hr as <- <-.
  destruct Hs as (Hpu & _ & _ & Hv). unfold authority_result in Hc. destruct (CanonicalRecord_new (sr_payload item)) as [c|] eqn:Ec; [|done].
  injection Hc as ->. cbn [fmap list_fmap]. rewrite Hp, Hk. split_and!; try done. constructor; [|done]. exists record. split; [exact Ec|exact Hv].
Qed.
Lemma unsigned_Ok `{RecordPayload T} key_id (records : list T) items : unsigned key_id records = Ok items ->
  (sr_payload <$> items) = records /\ Forall (fun i => sr_signer_key_id i = key_id) items.
Proof.
  revert items. induction records as [|r rest IH]; intros items; cbn [unsigned]; [by intros <-%Ok_inj|].
  intros Hu. apply bind_Ok in Hu as (c & Hc & Hu). apply bind_Ok in Hu as (rest' & [Hp Hk]%IH & <-%Ok_inj).
  unfold CanonicalRecord_new in Hc. apply bind_Ok in Hc as (? & _ & Hc). apply bind_Ok in Hc as (? & _ & Hc).
  apply bind_Ok in Hc as (? & _ & <-%Ok_inj). cbn [fmap list_fmap]. rewrite Hp. split; [done|by constructor].
Qed.

(** ** Key separation *)
Lemma check_controller_keys_Ok now names keys l result : check_controller_keys now names keys l = Ok result ->
  NoDup ((fun k => ta_key_name (fst k)) <$> l) /\ NoDup ((fun k => sg_public_key (ta_signer (fst k))) <$> l) /\
  (forall k, k ∈ l -> sg_purpose (ta_signer (fst k)) = snd k /\ signer_current (ta_signer (fst k)) now = true /\
     ta_key_name (fst k) ∉ names /\ sg_public_key (ta_signer (fst k)) ∉ keys) /\
  result = list_to_set ((fun k => sg_public_key (ta_signer (fst k))) <$> l) ∪ keys.
Proof.
  revert names keys. induction l as [|[key purpose] rest IH]; intros names keys; cbn [check_controller_keys].
  { intros <-%Ok_inj. split_and!; [constructor|constructor|by intros k ?%elem_of_nil|set_solver]. }
  intros Hc. apply bind_Ok in Hc as (? & _ & Hc). apply bind_Ok in Hc as (? & Hd%ensure_Ok & Hc).
  apply bind_Ok in Hc as (? & Hp%ensure_Ok & (Hn & Hk & Hall & ->)%IH). bools.
  cbn [fmap list_fmap fst]. split_and!.
  - apply NoDup_cons_2; [|done]. intros (k & E & Hin)%list_elem_of_fmap. destruct (Hall k Hin) as (_ & _ & Hx & _). set_solver.
  - apply NoDup_cons_2; [|done]. intros (k & E & Hin)%list_elem_of_fmap. destruct (Hall k Hin) as (_ & _ & _ & Hx). set_solver.
  - intros k [->|Hin]%elem_of_cons; [done|]. destruct (Hall k Hin) as (? & ? & ? & ?). split_and!; set_solver.
  - cbn [list_to_set]. set_solver.
Qed.
Lemma check_agent_signers_Ok keys signers : check_agent_signers keys signers = Ok tt ->
  NoDup (sg_public_key <$> signers) /\
  forall s, s ∈ signers -> agent_purpose (sg_purpose s) = true /\ sg_public_key s ∉ keys.
Proof.
  revert keys. induction signers as [|s rest IH]; intros keys; cbn [check_agent_signers].
  { intros _. split; [constructor|by intros s ?%elem_of_nil]. }
  intros Hc. apply bind_Ok in Hc as (? & _ & Hc). apply bind_Ok in Hc as (? & Hd%ensure_Ok & Hc).
  apply bind_Ok in Hc as (? & Hp%ensure_Ok & [Hn Hall]%IH). bools. cbn [fmap list_fmap]. split.
  - apply NoDup_cons_2; [|done]. intros (k & E & Hin)%list_elem_of_fmap. destruct (Hall k Hin) as (_ & Hx). set_solver.
  - intros k [->|Hin]%elem_of_cons; [done|]. destruct (Hall k Hin). set_solver.
Qed.
(** Every purpose has its own key: the root, the three Controller keys and every Agent key differ. *)
Lemma AuthorityApproval_validate_Ok a now : AuthorityApproval_validate a now = Ok tt ->
  NoDup (sg_public_key <$> ta_signer (aa_root a) :: approved_signers a) /\
  NoDup [ta_key_name (aa_root a); ta_key_name (aa_profile a); ta_key_name (aa_matrix a); ta_key_name (aa_binding a)] /\
  (forall k, k ∈ controller_keys a -> sg_purpose (ta_signer (fst k)) = snd k) /\
  (forall s, s ∈ aa_agent_signers a -> agent_purpose (sg_purpose s) = true).
Proof.
  unfold AuthorityApproval_validate. intros Hv. apply bind_Ok in Hv as (? & _ & Hv). apply bind_Ok in Hv as (? & _ & Hv).
  apply bind_Ok in Hv as (keys & (Hn & Hk & Hall & ->)%check_controller_keys_Ok & [Ha Hag]%check_agent_signers_Ok).
  split_and!.
  - change (NoDup (((fun k => sg_public_key (ta_signer (fst k))) <$> controller_keys a) ++ (sg_public_key <$> aa_agent_signers a))%list).
    apply list.NoDup_app. split_and!; [done| |done]. intros k Hin (s & -> & Hs)%list_elem_of_fmap. destruct (Hag s Hs) as [_ Hx].
    apply Hx, elem_of_union_l, elem_of_list_to_set. done.
  - done.
  - intros k Hin. apply Hall, Hin.
  - intros s Hs. apply Hag, Hs.
Qed.

(** A record is signed with this approved key. *)
Definition signed_with `{RecordPayload T} (signer : SignerRecord) (i : Signed T) : Prop :=
  sr_signer_key_id i = sg_key_id signer /\ exists canonical, CanonicalRecord_new (sr_payload i) = Ok canonical /\
    verify_strict (sg_public_key signer) (cr_bytes canonical) (sr_signature i) = true.
Lemma approval_key_run a approved s key s' : approval_key a approved s = (Ok key, s') ->
  ak_signer key = ta_signer approved /\ ak_key_name key = ta_key_name approved /\ ak_key_version key = ta_key_version approved.
Proof.
  unfold approval_key, AuthoritySigningKey_load. intros Hr. apply repo_guard in Hr as [[_ (e & _ & [=])]|(u & _ & Hr)].
  apply repo_guard in Hr as [[_ (e & _ & [=])]|(u1 & _ & Hr)]. apply repo_bind_inv in Hr as [(u2 & s1 & _ & Hr)|(e & _ & [=])].
  by injection Hr as <- _.
Qed.
Lemma prepare_bundle_Ok draft approval now b : prepare_bundle draft approval now = Ok b ->
  AuthorityApproval_validate approval now = Ok tt /\ ad_agent_id draft = aa_agent_id approval /\ ad_scope draft = aa_scope approval /\
  exists profiles rows bindings digest,
    unsigned (sg_key_id (ta_signer (aa_profile approval))) (ad_profiles draft) = Ok profiles /\
    unsigned (sg_key_id (ta_signer (aa_matrix approval))) (ad_certification_rows draft) = Ok rows /\
    unsigned (sg_key_id (ta_signer (aa_binding approval))) (ad_bindings draft) = Ok bindings /\
    bd_manifest b = mkManifest ContractV1 (ad_agent_id draft) (ad_scope draft) (approved_signers approval) profiles rows bindings
      (ad_evidence draft) (ad_activations draft) /\
    sr_payload (bd_revision b) = mkRevision (ad_revision_id draft) (ad_revision_number draft) digest (ad_effective_at draft)
      (Some (ad_expires_at draft)).
Proof.
  unfold prepare_bundle, authority_result. intros Hp. apply bind_Ok in Hp as ([] & Hv & Hp). apply bind_Ok in Hp as (? & Ht%ensure_Ok & Hp).
  apply bind_Ok in Hp as (? & _ & Hp). apply bind_Ok in Hp as (? & _ & Hp).
  apply bind_Ok in Hp as (profiles & H1' & Hp). apply bind_Ok in Hp as (rows & H2' & Hp). apply bind_Ok in Hp as (bindings & H3' & Hp).
  apply bind_Ok in Hp as (? & _ & Hp). apply bind_Ok in Hp as (? & _ & Hp). apply bind_Ok in Hp as (digest & _ & Hp).
  apply bind_Ok in Hp as (revision & Hr & <-%Ok_inj). bools. strings. split_and!; try done. exists profiles, rows, bindings, digest.
  destruct (unsigned _ (ad_profiles draft)) as [p|]; [|done]. injection H1' as ->.
  destruct (unsigned _ (ad_certification_rows draft)) as [r|]; [|done]. injection H2' as ->.
  destruct (unsigned _ (ad_bindings draft)) as [i|]; [|done]. injection H3' as ->. split_and!; try done.
  destruct (CanonicalRecord_new _) as [c|] eqn:Ec; [|done]. injection Hr as ->. unfold CanonicalRecord_new in Ec.
  apply bind_Ok in Ec as (? & _ & Ec). apply bind_Ok in Ec as (? & _ & Ec). by apply bind_Ok in Ec as (? & _ & <-%Ok_inj).
Qed.
(** The records of one kind after signing: those of the draft, each signed with the approved key. *)
Lemma signed_records `{RecordPayload T} key signer now (records : list T) items signed s s' :
  unsigned (sg_key_id signer) records = Ok items -> ak_signer key = signer -> sign_all key now items s = (Ok signed, s') ->
  (sr_payload <$> signed) = records /\ Forall (signed_with signer) signed.
Proof.
  intros [Hp Hk]%unsigned_Ok Hs (Hp' & Hk' & _ & Hf)%sign_all_run. rewrite Hs in Hf. split; [congruence|].
  apply list.Forall_forall. intros i Hi. rewrite list.Forall_forall in Hf. split; [|by apply Hf].
  assert (Hin : sr_signer_key_id i ∈ (sr_signer_key_id <$> signed)) by (apply list_elem_of_fmap; eauto).
  rewrite Hk' in Hin. apply list_elem_of_fmap in Hin as (j & -> & Hj). rewrite list.Forall_forall in Hk. by apply Hk.
Qed.
Lemma sign_bundle_run draft approval now s b s' : sign_bundle draft approval now s = (Ok b, s') ->
  let m := bd_manifest b in let revision := sr_payload (bd_revision b) in
  AuthorityBundle_verify b (ta_signer (aa_root approval)) (aa_agent_id approval) (aa_scope approval) now = Ok tt /\
  (mf_agent_id m = aa_agent_id approval /\ mf_scope m = aa_scope approval /\ mf_signers m = approved_signers approval) /\
  ((sr_payload <$> mf_profiles m) = ad_profiles draft /\ (sr_payload <$> mf_certification_rows m) = ad_certification_rows draft /\
   (sr_payload <$> mf_bindings m) = ad_bindings draft /\ mf_evidence m = ad_evidence draft /\ mf_activations m = ad_activations draft) /\
  (rv_revision_id revision = ad_revision_id draft /\ rv_revision_number revision = ad_revision_number draft /\
   rv_effective_at revision = ad_effective_at draft /\ rv_expires_at revision = Some (ad_expires_at draft)) /\
  (signed_with (ta_signer (aa_root approval)) (bd_revision b) /\ Forall (signed_with (ta_signer (aa_profile approval))) (mf_profiles m) /\
   Forall (signed_with (ta_signer (aa_matrix approval))) (mf_certification_rows m) /\
   Forall (signed_with (ta_signer (aa_binding approval))) (mf_bindings m)) /\
  NoDup (sg_public_key <$> ta_signer (aa_root approval) :: mf_signers m).
Proof.
  unfold sign_bundle. intros Hr. apply repo_guard in Hr as [[_ (e & _ & [=])]|(bundle & Hprep & Hr)].
  apply prepare_bundle_Ok in Hprep as (Hval & Hagent & Hscope & profiles & rows & bindings & digest & Hup & Hur & Hub & Em & Er).
  apply repo_bind_inv in Hr as [(root & s1 & (Kr & _)%approval_key_run & Hr)|(e & _ & [=])].
  apply repo_bind_inv in Hr as [(profile & s2 & (Kp & _)%approval_key_run & Hr)|(e & _ & [=])].
  apply repo_bind_inv in Hr as [(matrix & s3 & (Km & _)%approval_key_run & Hr)|(e & _ & [=])].
  apply repo_bind_inv in Hr as [(binding & s4 & (Kb & _)%approval_key_run & Hr)|(e & _ & [=])].
  rewrite Em, Er in Hr. cbn [mf_profiles mf_certification_rows mf_bindings mf_contract mf_agent_id mf_scope mf_signers mf_evidence
    mf_activations rv_revision_id rv_revision_number rv_effective_at rv_expires_at] in Hr.
  apply repo_bind_inv in Hr as [(profiles' & s5 & Hp & Hr)|(e & _ & [=])]. apply (signed_records _ _ _ _ _ _ _ _ Hup Kp) in Hp as [Hpp Hps].
  apply repo_bind_inv in Hr as [(rows' & s6 & Hro & Hr)|(e & _ & [=])]. apply (signed_records _ _ _ _ _ _ _ _ Hur Km) in Hro as [Hrp Hrs].
  apply repo_bind_inv in Hr as [(bindings' & s7 & Hbi & Hr)|(e & _ & [=])]. apply (signed_records _ _ _ _ _ _ _ _ Hub Kb) in Hbi as [Hbp Hbs].
  apply repo_guard in Hr as [[_ (e & _ & [=])]|(digest' & _ & Hr)]. apply repo_guard in Hr as [[_ (e & _ & [=])]|(record & Hc & Hr)].
  apply repo_bind_inv in Hr as [(signature & s8 & (_ & _ & _ & Hv)%sign_run & Hr)|(e & _ & [=])].
  apply repo_guard in Hr as [[_ (e & _ & [=])]|(u & Hbv & Hr)]. injection Hr as <- _. rewrite Kr in Hv.
  unfold authority_result in Hc, Hbv. destruct (CanonicalRecord_new _) as [c|] eqn:Ec; [|done]. injection Hc as ->.
  assert (Erec : cr_record record = mkRevision (ad_revision_id draft) (ad_revision_number draft) digest' (ad_effective_at draft) (Some (ad_expires_at draft))).
  { unfold CanonicalRecord_new in Ec. apply bind_Ok in Ec as (? & _ & Ec). apply bind_Ok in Ec as (? & _ & Ec). by apply bind_Ok in Ec as (? & _ & <-%Ok_inj). }
  cbn [bd_manifest bd_revision mf_agent_id mf_scope mf_signers mf_profiles mf_certification_rows mf_bindings mf_evidence mf_activations
    from_signature sr_payload]. rewrite Erec. split_and!; try done.
  - by destruct (AuthorityBundle_verify _ _ _ _ _) as [[]|].
  - split; [done|]. exists record. cbn [from_signature sr_payload sr_signature]. by rewrite Erec.
  - by apply AuthorityApproval_validate_Ok in Hval as [Hn _].
Qed.

Lemma authority_time_Ok t t' : authority_result (AuthorityTime_new t) = Ok t' -> t' = t.
Proof. unfold authority_result, AuthorityTime_new. destruct (_ || _ || _); [done|]. by intros <-%Ok_inj. Qed.
Lemma write_bundle_cases io path b fs r fs' : write_bundle io path b fs = (r, fs') ->
  (exists bytes, r = Ok tt /\ bundle_to_vec_pretty b = Some bytes /\ fs !! path = None /\ fs' = <[path := bytes]> fs) \/
  (exists e, r = Err e /\ fs' = fs) \/
  (exists e partial, r = Err e /\ fs !! path = None /\ fs' = <[path := partial]> fs /\ wi_removes io = false).
Proof.
  unfold write_bundle. destruct (bundle_to_vec_pretty b) as [bytes|]; [|intros [= <- <-]; eauto 10].
  case_bool_decide as Hex; simpl; [intros [= <- <-]; eauto 10|]. apply eq_None_not_Some in Hex.
  destruct (wi_creates io); simpl; [|intros [= <- <-]; eauto 10].
  destruct (wi_stored io bytes) as [partial|]; intros [= <- <-]; [|left; eauto 10].
  destruct (wi_removes io) eqn:Er; [right; left; eauto|right; right; eauto 10].
Qed.

(** C25: device authority is stored only as it was approved.  When signing the files succeeds,
    - the output did not exist before and holds exactly the encoded bundle; no other file changed;
    - the bundle verifies for the approved Agent and scope under the approved root key, at the end as at the start;
    - its records, evidence, activations, revision and lifetime (from when and until when) are those of the draft, its signers are those of the approval, each
      record was signed with the approved key of its purpose, and no two of those keys are the same.
    When it fails no existing file is changed, and the output is not left behind unless it cannot be removed. *)
Theorem stored_authority_is_approved loaded draft_file approval_file draft_from_slice approval_from_slice io output now later fs result fs' :
  sign_bundle_files loaded draft_file approval_file draft_from_slice approval_from_slice io output now later fs = (result, fs') ->
  (forall path, path <> output -> fs' !! path = fs !! path) /\
  (is_Some (fs !! output) -> fs' = fs /\ exists e, result = Err e) /\
  (forall e, result = Err e -> wi_removes io = true -> fs' = fs) /\
  (forall digest, result = Ok digest -> exists draft approval b bytes,
     read_document draft_from_slice draft_file = Ok draft /\ read_document approval_from_slice approval_file = Ok approval /\
     fs' = <[output := bytes]> fs /\ bundle_to_vec_pretty b = Some bytes /\ digest = sr_digest (bd_revision b) /\
     (forall at_, at_ ∈ [trunc_subsecs_6 now; trunc_subsecs_6 later] ->
        AuthorityBundle_verify b (ta_signer (aa_root approval)) (aa_agent_id approval) (aa_scope approval) at_ = Ok tt) /\
     (sr_payload <$> mf_profiles (bd_manifest b)) = ad_profiles draft /\
     (sr_payload <$> mf_certification_rows (bd_manifest b)) = ad_certification_rows draft /\
     (sr_payload <$> mf_bindings (bd_manifest b)) = ad_bindings draft /\ mf_evidence (bd_manifest b) = ad_evidence draft /\
     mf_activations (bd_manifest b) = ad_activations draft /\
     rv_revision_id (sr_payload (bd_revision b)) = ad_revision_id draft /\
     rv_revision_number (sr_payload (bd_revision b)) = ad_revision_number draft /\
     rv_effective_at (sr_payload (bd_revision b)) = ad_effective_at draft /\
     rv_expires_at (sr_payload (bd_revision b)) = Some (ad_expires_at draft) /\
     mf_signers (bd_manifest b) = approved_signers approval /\
     signed_with (ta_signer (aa_root approval)) (bd_revision b) /\ Forall (signed_with (ta_signer (aa_profile approval))) (mf_profiles (bd_manifest b)) /\
     Forall (signed_with (ta_signer (aa_matrix approval))) (mf_certification_rows (bd_manifest b)) /\
     Forall (signed_with (ta_signer (aa_binding approval))) (mf_bindings (bd_manifest b)) /\
     NoDup (sg_public_key <$> ta_signer (aa_root approval) :: approved_signers approval)).
Proof.
  unfold sign_bundle_files. intros Hr.
  apply repo_guard in Hr as [[-> (e & _ & ->)]|(draft & Hdraft & Hr)]; [by split_and!; eauto|].
  apply repo_guard in Hr as [[-> (e & _ & ->)]|(approval & Happroval & Hr)]; [by split_and!; eauto|].
  apply repo_guard in Hr as [[-> (e & _ & ->)]|(now' & Hnow%authority_time_Ok & Hr)]; [by split_and!; eauto|].
  apply repo_guard in Hr as [[-> (e & _ & ->)]|(client & _ & Hr)]; [by split_and!; eauto|].
  apply repo_guard in Hr as [[-> (e & _ & ->)]|(b & Hb & Hr)]; [by split_and!; eauto|].
  apply repo_guard in Hr as [[-> (e & _ & ->)]|(later' & Hlater%authority_time_Ok & Hr)]; [by split_and!; eauto|].
  apply repo_guard in Hr as [[-> (e & _ & ->)]|(u & Hv & Hr)]; [by split_and!; eauto|].
  destruct (sign_bundle draft approval now' client) as [r s'] eqn:Es. simpl in Hb. subst r now' later'.
  apply sign_bundle_run in Es. cbv zeta in Es. destruct Es as (Hver & (_ & _ & Hsg) & Hrec & (Hrid & Hrn & Heff & Hexp) & Hsig & Hnd).
  apply repo_bind_inv in Hr as [([] & fs1 & Hw & Hr)|(e & Hw & ->)]; apply write_bundle_cases in Hw.
  - destruct Hw as [(bytes & _ & Ht & Hnone & ->)|[(e & [=] & _)|(e & partial & [=] & _)]]. injection Hr as <- <-. split_and!.
    + intros path Hp. by rewrite lookup_insert_ne.
    + intros [x Hx]. congruence.
    + done.
    + intros digest [= <-]. exists draft, approval, b, bytes. rewrite Hsg in Hnd. split_and!; try done; try apply Hrec; try apply Hsig.
      intros at_. rewrite !elem_of_cons, elem_of_nil. intros [->|[->|[]]]; [done|].
      unfold authority_result in Hv. by destruct (AuthorityBundle_verify _ _ _ _ (trunc_subsecs_6 later)) as [[]|].
  - destruct Hw as [(bytes & [=] & _)|[(e' & _ & ->)|(e' & partial & _ & Hnone & -> & Hrm)]]; split_and!; eauto; try done.
    + intros path Hp. by rewrite lookup_insert_ne.
    + intros [x Hx]. congruence.
    + intros ? _ Hx. congruence.
Qed.
End Signing.

(** ** A run *)
Module SigningToy.
Import Toy BaoToy.
#[local] Instance toy_rfc3339 : Rfc3339 := {| utc_year := fun _ => 2026; rfc3339_secs := pretty; rfc3339_micros := pretty |}.
#[local] Instance toy_canonicalizer : Canonicalizer := fun _ => Some "{}".
#[local] Instance toy_standard : Base64Standard := fun s => s.
#[local] Instance toy_decode : Base64Decode := Some.
(** OpenBao's answers name the key they are about. *)
#[local] Instance toy_signing : SigningCodec :=
  {| key_from_slice name := Some (mkKeyMetadata name "ed25519" false false false true 1 {[ "3" := thirty_two "k" ++ name ]});
     sign_from_slice body := Some body |}.
#[local] Instance toy_text : BundleText := fun _ => Some "bundle".
Definition key_of (path : string) : string := List.last (split_on "/" path) "".
Definition answer (q : BaoRequest) : string :=
  match bq_token q, bq_method q with
  | None, _ => "login"
  | Some _, GET => key_of (bq_url q)
  | Some _, POST => "vault:v3:" ++ toy_signature
  end.
Definition toy_world : BaoWorld :=
  mkBaoWorld (fun log => match log with q :: _ => Some (mkBaoResponse 200 None [Some (answer q)]) | [] => None end)
    (fun _ => 0) (fun _ => Some "jwt").
Definition signer (key_id : string) (purpose : SignerPurpose) : SignerRecord :=
  mkSigner key_id purpose (thirty_two "k" ++ key_id) SignerActive (seconds 0) None None.
Definition approved (name : string) (purpose : SignerPurpose) : TransitApproval := mkTransitApproval name 3 (signer name purpose).
Definition toy_approval : AuthorityApproval :=
  mkApproval "agt_1" sample_authority_scope "transit" (approved "root" ForAuthorityRevision) (approved "driver" ForDriverProfile)
    (approved "matrix" ForCertificationMatrix) (approved "binding" ForBindingRevision) [signer "test" ForDeviceTestEvidence].
Definition toy_draft : AuthorityDraft :=
  let m := bd_manifest sample_bundle in
  mkDraft "agt_1" sample_authority_scope "rev-1" 1 (seconds 10) (seconds 310) (sr_payload <$> mf_profiles m)
    (sr_payload <$> mf_certification_rows m) (sr_payload <$> mf_bindings m) (mf_evidence m) (mf_activations m).
Definition toy_io : WriteIo := mkWriteIo true (fun _ => None) true.
Definition toy_run : AppResult string * gmap string string :=
  sign_bundle_files toy_config toy_world (Ok (mkBao None [])) (FileBytes "draft") (FileBytes "approval") (fun _ => Some toy_draft)
    (fun _ => Some toy_approval) toy_io "bundle.json" (seconds 60) (seconds 61) {[ "draft.json" := "draft" ]}.
Lemma stored_authority_is_approved_witness : exists digest fs', toy_run = (Ok digest, fs') /\ fs' !! "bundle.json" = Some "bundle" /\
  fs' !! "draft.json" = Some "draft" /\ exists b, AuthorityBundle_verify b (signer "root" ForAuthorityRevision) "agt_1" sample_authority_scope (seconds 61) = Ok tt.
Proof.
  destruct toy_run as [result fs'] eqn:E. pose proof E as Hrun.
  assert (exists digest, result = Ok digest) as [digest ->]
    by (destruct result as [d|e]; [by exists d|]; vm_compute in E; discriminate E).
  destruct (stored_authority_is_approved _ _ _ _ _ _ _ _ _ _ _ _ _ _ Hrun) as (Hother & _ & _ & Hok).
  destruct (Hok digest eq_refl) as (draft & approval & b & bytes & _ & Ha & -> & Hbytes & _ & Hv & _).
  exists digest, (<["bundle.json" := bytes]> {[ "draft.json" := "draft" ]}). split; [reflexivity|].
  split; [rewrite lookup_insert_eq; symmetry; exact Hbytes|]. split; [exact (Hother "draft.json" ltac:(discriminate))|].
  exists b. injection Ha as <-. apply (Hv (seconds 61)). right. left.
Defined.
End SigningToy.
