(* ===== verification/Transport.v ===== *)
(** * Sequence numbers, fragmentation and reassembly of the Zenoh transport

    [patches/zenoh-transport/src/]: [common/seq_num.rs], [common/defragmentation.rs], [common/priority.rs], the receive path
    [unicast/universal/rx.rs] and the fragmentation of a message in [common/pipeline.rs].  The codec, the width of
    [TransportSn] and the batches a message is written to belong to other Zenoh crates and are parameters. *)
From S2P Require Import Prelude.

(** ** Sequence numbers *)
(** [TransportSn] is an unsigned integer of this many bits. *)
Class SnWidth := sn_width : Z.
Class SnWidthSpec `{SnWidth} : Prop := sn_width_ok : sn_width = 32 \/ sn_width = 64.
Inductive Bits : Set := BitsU8 | BitsU16 | BitsU32 | BitsU64.
Inductive ZError : Type := SnOutOfRange | DefragSn (expected received : Z) | DefragFull (bytes capacity : Z)
  | UnknownPriority (priority : Z) | DecodingError | CallbackFailed.
Notation ZResult := (result ZError).
Record SeqNum := mkSeqNum { sn_value : Z; sn_mask : Z }.
#[global] Instance SeqNum_eq_dec : EqDecision SeqNum.
Proof. solve_decision. Defined.

Section SeqNum.
Context `{SnWidth}.
Definition modulus : Z := 2 ^ sn_width.
Definition as_sn (z : Z) : Z := z mod modulus.
(** [u8::MAX >> 1] and so on, cast to [TransportSn]. *)
Definition RES_U8 : Z := as_sn (Z.shiftr (2 ^ 8 - 1) 1).
Definition RES_U16 : Z := as_sn (Z.shiftr (2 ^ 16 - 1) 2).
Definition RES_U32 : Z := as_sn (Z.shiftr (2 ^ 32 - 1) 4).
Definition RES_U64 : Z := as_sn (Z.shiftr (2 ^ 64 - 1) 1).
Definition get_mask (resolution : Bits) : Z :=
  match resolution with BitsU8 => RES_U8 | BitsU16 => RES_U16 | BitsU32 => RES_U32 | BitsU64 => RES_U64 end.
(** [value & !mask]. *)
Definition outside (mask value : Z) : Z := Z.ldiff value mask.
Definition SeqNum_set (self : SeqNum) (value : Z) : ZResult SeqNum :=
  if negb (outside (sn_mask self) value =? 0) then Err SnOutOfRange else Ok (mkSeqNum value (sn_mask self)).
Definition SeqNum_make (value : Z) (resolution : Bits) : ZResult SeqNum := SeqNum_set (mkSeqNum 0 (get_mask resolution)) value.
Definition SeqNum_next (self : SeqNum) : Z := Z.land (as_sn (sn_value self + 1)) (sn_mask self).
Definition SeqNum_increment (self : SeqNum) : SeqNum := mkSeqNum (SeqNum_next self) (sn_mask self).
(** [value.wrapping_sub(self.value) & self.mask]. *)
Definition sn_gap (self : SeqNum) (value : Z) : Z := Z.land (as_sn (value - sn_value self)) (sn_mask self).
Definition in_window (self : SeqNum) (gap : Z) : bool :=
  negb (gap =? 0) && (outside (Z.shiftr (sn_mask self) 1) gap =? 0).
Definition precedes (self : SeqNum) (value : Z) : ZResult bool :=
  if negb (outside (sn_mask self) value =? 0) then Err SnOutOfRange else Ok (in_window self (sn_gap self value)).
Definition roll (self : SeqNum) (value : Z) : ZResult (bool * SeqNum) :=
  if negb (outside (sn_mask self) value =? 0) then Err SnOutOfRange
  else if in_window self (sn_gap self value) then Ok (true, mkSeqNum value (sn_mask self)) else Ok (false, self).
(** [SeqNumGenerator::get]: the number before the increment. *)
Definition generator_get (self : SeqNum) : Z * SeqNum := (sn_value self, SeqNum_increment self).
End SeqNum.

(** ** Reassembly *)
(** The buffer of slices is their bytes; [db_len] is kept beside it. *)
Record DefragBuffer := mkDefrag { db_sn : SeqNum; db_buffer : string; db_capacity : Z; db_len : Z }.
Inductive Reliability : Set := Reliable | BestEffort.
(** [Zenoh080Reliability]'s reading of a network message. *)
Class NetworkCodec := { NetworkMessage : Type; read_message : Reliability -> string -> option NetworkMessage }.
Section Defrag.
Context `{SnWidth, NetworkCodec}.
Definition DefragBuffer_make (resolution : Bits) (capacity : Z) : ZResult DefragBuffer :=
  sn ← SeqNum_make 0 resolution; Ok (mkDefrag sn "" capacity 0).
Definition defrag_is_empty (d : DefragBuffer) : bool := is_empty (db_buffer d).
Definition defrag_clear (d : DefragBuffer) : DefragBuffer := mkDefrag (db_sn d) "" (db_capacity d) 0.
Definition defrag_sync (d : DefragBuffer) (sn : Z) : ZResult DefragBuffer :=
  s ← SeqNum_set (db_sn d) sn; Ok (mkDefrag s (db_buffer d) (db_capacity d) (db_len d)).
(** An error leaves a cleared buffer. *)
Definition defrag_push (d : DefragBuffer) (sn : Z) (zslice : string) : ZResult unit * DefragBuffer :=
  if negb (sn =? sn_value (db_sn d)) then (Err (DefragSn (sn_value (db_sn d)) sn), defrag_clear d) else
  let new_len := db_len d + str_len zslice in
  if db_capacity d <? new_len then (Err (DefragFull new_len (db_capacity d)), defrag_clear d) else
  (Ok tt, mkDefrag (SeqNum_increment (db_sn d)) (db_buffer d ++ zslice) (db_capacity d) new_len).
Definition defragment (reliability : Reliability) (d : DefragBuffer) : option NetworkMessage * DefragBuffer :=
  (read_message reliability (db_buffer d), defrag_clear d).

(** ** Channels *)
Record ChannelRx := mkChannelRx { ch_sn : SeqNum; ch_defrag : DefragBuffer }.
Definition ChannelRx_make (resolution : Bits) (defrag_buff_size : Z) : ZResult ChannelRx :=
  sn ← SeqNum_make 0 resolution; defrag ← DefragBuffer_make resolution defrag_buff_size; Ok (mkChannelRx sn defrag).
Definition ChannelRx_sync (c : ChannelRx) (sn : Z) : ZResult ChannelRx :=
  let sn := if sn =? 0 then as_sn (sn_mask (ch_sn c) - 1) else sn - 1 in
  s ← SeqNum_set (ch_sn c) sn; d ← defrag_sync (ch_defrag c) sn; Ok (mkChannelRx s d).
Record PriorityRx := mkPriorityRx { pr_reliable : ChannelRx; pr_best_effort : ChannelRx }.
Definition PriorityRx_make (resolution : Bits) (defrag_buff_size : Z) : ZResult PriorityRx :=
  r ← ChannelRx_make resolution defrag_buff_size; b ← ChannelRx_make resolution defrag_buff_size; Ok (mkPriorityRx r b).
Record Fragment := mkFragment {
  fr_reliability : Reliability;
  fr_more : bool;
  fr_sn : Z;
  fr_priority : Z;
  fr_first : bool;
  fr_drop : bool;
  fr_payload : string;
}.
Record Frame := mkFrame { fm_reliability : Reliability; fm_sn : Z; fm_priority : Z; fm_messages : list NetworkMessage }.

(** What a fragment does to its channel: the message it completed, if any. *)
Definition verify_sn (c : ChannelRx) (sn : Z) : ZResult (bool * ChannelRx) :=
  '(ok, s) ← roll (ch_sn c) sn; Ok (ok, mkChannelRx s (ch_defrag c)).
(** The buffer after the markers are looked at; [None] when the fragment is dropped. *)
Definition apply_markers (markers : bool) (f : Fragment) (d : DefragBuffer) : option DefragBuffer * DefragBuffer :=
  if negb markers then (Some d, d) else
  let d' := if fr_first f then defrag_clear d else d in
  if negb (fr_first f) && defrag_is_empty d then (None, d)
  else if fr_drop f then (None, defrag_clear d')
  else (Some d', d').
Definition chan_fragment (markers : bool) (c : ChannelRx) (f : Fragment) : ZResult (option NetworkMessage) * ChannelRx :=
  match verify_sn c (fr_sn f) with
  | Err e => (Err e, c)
  | Ok (false, c) => (Ok None, c)
  | Ok (true, c) =>
      match apply_markers markers f (ch_defrag c) with
      | (None, d) => (Ok None, mkChannelRx (ch_sn c) d)
      | (Some d, _) =>
          let d := if defrag_is_empty d then match defrag_sync d (fr_sn f) with Ok d' => d' | Err _ => d end else d in
          match defrag_push d (fr_sn f) (fr_payload f) with
          | (Err _, d) => (Ok None, mkChannelRx (ch_sn c) d)
          | (Ok _, d) =>
              if fr_more f then (Ok None, mkChannelRx (ch_sn c) d) else
              let '(m, d) := defragment (fr_reliability f) d in (Ok m, mkChannelRx (ch_sn c) d)
          end
      end
  end.
Definition chan_frame (c : ChannelRx) (sn : Z) : ZResult bool * ChannelRx :=
  match verify_sn c sn with Err e => (Err e, c) | Ok (ok, c) => (Ok ok, c) end.

(** ** The receive path *)
Inductive TransportBody : Type :=
| BodyFrame (frame : Frame)
| BodyFragment (fragment : Fragment)
| BodyClose (reason : Z) (session : bool)
| BodyKeepAlive
| BodyOther.
(** A batch as it decodes; [None] is what does not. *)
Definition Batch := list (option TransportBody).
(** [rx_delivered] is what the callback was given, latest first; [rx_closing] the close tasks that were spawned. *)
Record Rx := mkRx { rx_priorities : list PriorityRx; rx_delivered : list NetworkMessage; rx_closing : list bool }.
Definition DEFAULT_PRIORITY : Z := 5.
Section Receive.
(** Whether the transport has QoS and fragmentation markers, the callback ([None] when there is none, and [false] when it
    fails) and the mapping of shared memory, which drops a message it fails for. *)
Context (qos markers : bool) (callback : option (NetworkMessage -> bool)) (map_shm : NetworkMessage -> option NetworkMessage).

Definition priority_index (priority : Z) : ZResult nat :=
  if qos then Ok (Z.to_nat priority) else if priority =? DEFAULT_PRIORITY then Ok 0%nat else Err (UnknownPriority priority).
Definition channel_of (reliability : Reliability) (p : PriorityRx) : ChannelRx :=
  match reliability with Reliable => pr_reliable p | BestEffort => pr_best_effort p end.
Definition set_channel (reliability : Reliability) (c : ChannelRx) (p : PriorityRx) : PriorityRx :=
  match reliability with Reliable => mkPriorityRx c (pr_best_effort p) | BestEffort => mkPriorityRx (pr_reliable p) c end.
Definition trigger_callback (call : NetworkMessage -> bool) (m : NetworkMessage) (r : Rx) : ZResult unit * Rx :=
  match map_shm m with
  | None => (Ok tt, r)
  | Some m => ((if call m then Ok tt else Err CallbackFailed), mkRx (rx_priorities r) (m :: rx_delivered r) (rx_closing r))
  end.
Fixpoint trigger_all (call : NetworkMessage -> bool) (l : list NetworkMessage) (r : Rx) : ZResult unit * Rx :=
  match l with
  | [] => (Ok tt, r)
  | m :: rest => match trigger_callback call m r with (Ok _, r) => trigger_all call rest r | (Err e, r) => (Err e, r) end
  end.
(** A handler of one channel.  A transport with QoS has a channel for every priority, so the index is in range. *)
Definition on_channel {A} (reliability : Reliability) (priority : Z) (h : ChannelRx -> ZResult A * ChannelRx) (r : Rx) : ZResult A * Rx :=
  match priority_index priority with
  | Err e => (Err e, r)
  | Ok index =>
      match rx_priorities r !! index with
      | None => (Err (UnknownPriority priority), r)
      | Some p =>
          let '(a, c) := h (channel_of reliability p) in
          (a, mkRx (<[index := set_channel reliability c p]> (rx_priorities r)) (rx_delivered r) (rx_closing r))
      end
  end.
Definition handle_frame (f : Frame) (r : Rx) : ZResult unit * Rx :=
  match on_channel (fm_reliability f) (fm_priority f) (fun c => chan_frame c (fm_sn f)) r with
  | (Err e, r) => (Err e, r)
  | (Ok false, r) => (Ok tt, r)
  | (Ok true, r) => match callback with Some call => trigger_all call (fm_messages f) r | None => (Ok tt, r) end
  end.
Definition handle_fragment (f : Fragment) (r : Rx) : ZResult unit * Rx :=
  match on_channel (fr_reliability f) (fr_priority f) (fun c => chan_fragment markers c f) r with
  | (Err e, r) => (Err e, r)
  | (Ok None, r) => (Ok tt, r)
  | (Ok (Some m), r) => match callback with Some call => trigger_callback call m r | None => (Ok tt, r) end
  end.
Definition handle_close (session : bool) (r : Rx) : ZResult unit * Rx :=
  (Ok tt, mkRx (rx_priorities r) (rx_delivered r) (session :: rx_closing r)).
Definition handle_body (b : TransportBody) (r : Rx) : ZResult unit * Rx :=
  match b with
  | BodyFrame f => handle_frame f r
  | BodyFragment f => handle_fragment f r
  | BodyClose _ session => handle_close session r
  | BodyKeepAlive | BodyOther => (Ok tt, r)
  end.
Fixpoint read_messages (batch : Batch) (r : Rx) : ZResult unit * Rx :=
  match batch with
  | [] => (Ok tt, r)
  | None :: _ => (Err DecodingError, r)
  | Some b :: rest => match handle_body b r with (Ok _, r) => read_messages rest r | (Err e, r) => (Err e, r) end
  end.
End Receive.
End Defrag.

(** ** Arithmetic of sequence numbers *)
Section Arithmetic.
Context `{SnWidth, !SnWidthSpec}.
(** A sequence number of [k] bits. *)
Definition sn_bits (k : Z) (s : SeqNum) : Prop := 1 < k <= sn_width /\ sn_mask s = Z.ones k /\ 0 <= sn_value s < 2 ^ k.
Definition exponent (resolution : Bits) : Z :=
  match resolution with BitsU8 => 7 | BitsU16 => 14 | BitsU32 => 28 | BitsU64 => Z.min 63 sn_width end.
Lemma exponent_range r : 1 < exponent r <= sn_width.
Proof. destruct sn_width_ok as [E|E], r; cbn [exponent]; rewrite E; lia. Qed.
Lemma get_mask_ones r : get_mask r = Z.ones (exponent r).
Proof.
  destruct sn_width_ok as [E|E], r; cbn [get_mask exponent]; unfold RES_U8, RES_U16, RES_U32, RES_U64, as_sn, modulus; rewrite E; reflexivity.
Qed.
Lemma outside_ones k v : 0 <= k -> 0 <= v -> outside (Z.ones k) v = 0 <-> v < 2 ^ k.
Proof.
  intros Hk Hv. unfold outside. rewrite Z.ldiff_ones_r, Z.shiftl_mul_pow2, Z.shiftr_div_pow2 by done.
  assert (0 < 2 ^ k) by (apply Z.pow_pos_nonneg; lia). pose proof (Z.div_pos v (2 ^ k) Hv ltac:(lia)). split; intros Hx.
  - apply Z.mul_eq_0 in Hx as [Hx|]; [|lia]. apply Z.div_small_iff in Hx; lia.
  - rewrite Z.div_small by lia. lia.
Qed.
Lemma mod_pow_mod z k : 0 <= k <= sn_width -> (z mod modulus) mod 2 ^ k = z mod 2 ^ k.
Proof.
  intros Hk. unfold modulus. apply Z.mod_mod_divide.
  exists (2 ^ (sn_width - k)). rewrite <- Z.pow_add_r by lia. f_equal. lia.
Qed.
Lemma SeqNum_set_Ok k s v : sn_bits k s -> 0 <= v -> SeqNum_set s v = if v <? 2 ^ k then Ok (mkSeqNum v (sn_mask s)) else Err SnOutOfRange.
Proof.
  intros (Hk & Hm & _) Hv. unfold SeqNum_set. rewrite Hm. pose proof (outside_ones k v ltac:(lia) Hv) as Ho.
  destruct (Z.eqb_spec (outside (Z.ones k) v) 0), (Z.ltb_spec v (2 ^ k)); simpl; try done; lia.
Qed.
Lemma SeqNum_next_mod k s : sn_bits k s -> SeqNum_next s = (sn_value s + 1) mod 2 ^ k.
Proof. intros (Hk & Hm & _). unfold SeqNum_next, as_sn. rewrite Hm, Z.land_ones, mod_pow_mod by lia. done. Qed.
Lemma sn_gap_mod k s v : sn_bits k s -> sn_gap s v = (v - sn_value s) mod 2 ^ k.
Proof. intros (Hk & Hm & _). unfold sn_gap, as_sn. rewrite Hm, Z.land_ones, mod_pow_mod by lia. done. Qed.
Lemma sn_bits_value k s v : sn_bits k s -> 0 <= v < 2 ^ k -> sn_bits k (mkSeqNum v (sn_mask s)).
Proof. intros (? & ? & ?) Hv. done. Qed.
Lemma sn_bits_increment k s : sn_bits k s -> sn_bits k (SeqNum_increment s).
Proof.
  intros Hs. apply sn_bits_value; [done|]. rewrite (SeqNum_next_mod k) by done. destruct Hs as (? & _ & _).
  apply Z.mod_pos_bound, Z.pow_pos_nonneg; lia.
Qed.
Lemma in_window_iff k s g : sn_bits k s -> 0 <= g -> in_window s g = true <-> 0 < g < 2 ^ (k - 1).
Proof.
  intros (Hk & Hm & _) Hg. unfold in_window. rewrite Hm.
  assert (Z.shiftr (Z.ones k) 1 = Z.ones (k - 1)) as ->.
  { rewrite Z.shiftr_div_pow2, !Z.ones_equiv by lia. replace k with (Z.succ (k - 1)) at 1 by lia. rewrite Z.pow_succ_r by lia.
    change (2 ^ 1) with 2. symmetry. apply (Z.div_unique _ _ _ 1); lia. }
  rewrite andb_true_iff, negb_true_iff, Z.eqb_neq, Z.eqb_eq, outside_ones by lia. lia.
Qed.
Lemma roll_cases k s v : sn_bits k s -> 0 <= v ->
  (2 ^ k <= v /\ roll s v = Err SnOutOfRange) \/
  (v < 2 ^ k /\ 0 < (v - sn_value s) mod 2 ^ k < 2 ^ (k - 1) /\ roll s v = Ok (true, mkSeqNum v (sn_mask s))) \/
  (v < 2 ^ k /\ ~ 0 < (v - sn_value s) mod 2 ^ k < 2 ^ (k - 1) /\ roll s v = Ok (false, s)).
Proof.
  intros Hs Hv. pose proof Hs as (Hk & Hm & _). unfold roll.
  pose proof (outside_ones k v ltac:(lia) Hv) as Ho. rewrite <- Hm in Ho.
  destruct (Z.eqb_spec (outside (sn_mask s) v) 0) as [E|E]; simpl; [right|left; split; [lia|done]].
  rewrite (sn_gap_mod k) by done. pose proof (in_window_iff k s ((v - sn_value s) mod 2 ^ k) Hs ltac:(apply Z.mod_pos_bound, Z.pow_pos_nonneg; lia)) as Hw.
  destruct (in_window s _); [left|right]; (split; [lia|]); (split; [|done]); [by apply Hw|]. intros Hx. by apply Hw in Hx.
Qed.
(** Of two numbers of the same resolution, at most one precedes the other, and a number precedes its successor. *)
Lemma precedes_asym k s v : sn_bits k s -> 0 <= v < 2 ^ k -> precedes s v = Ok true -> precedes (mkSeqNum v (sn_mask s)) (sn_value s) = Ok false.
Proof.
  intros Hs Hv. pose proof Hs as (Hk & Hm & Hr). unfold precedes. cbn [sn_mask]. rewrite Hm.
  rewrite (proj2 (outside_ones k v ltac:(lia) ltac:(lia))) by lia.
  rewrite (proj2 (outside_ones k (sn_value s) ltac:(lia) ltac:(lia))) by lia. simpl.
  pose proof (sn_bits_value k s v Hs Hv) as Hs'. rewrite (sn_gap_mod k s) by done. rewrite (sn_gap_mod k) by done. cbn [sn_value].
  intros [= Hw]. apply (in_window_iff k) in Hw; [|done|apply Z.mod_pos_bound; lia]. f_equal. apply not_true_iff_false. intros Hw'.
  apply (in_window_iff k) in Hw'; [|done|apply Z.mod_pos_bound; lia].
  assert (Hsum : (v - sn_value s) mod 2 ^ k + (sn_value s - v) mod 2 ^ k = 2 ^ k).
  { replace (sn_value s - v) with (- (v - sn_value s)) by lia. rewrite Z.mod_opp_l_nz; lia. }
  assert (2 ^ k = 2 * 2 ^ (k - 1)) by (rewrite <- Z.pow_succ_r by lia; f_equal; lia). lia.
Qed.
Lemma roll_next k s : sn_bits k s -> roll s (SeqNum_next s) = Ok (true, SeqNum_increment s).
Proof.
  intros Hs. pose proof Hs as (Hk & Hm & Hr). rewrite (SeqNum_next_mod k) by done.
  assert (Hp : 0 < 2 ^ (k - 1)) by (apply Z.pow_pos_nonneg; lia).
  assert (Hp2 : 2 ^ k = 2 * 2 ^ (k - 1)) by (rewrite <- Z.pow_succ_r by lia; f_equal; lia).
  assert (1 < 2 ^ (k - 1)) by (apply Z.pow_gt_1; lia).
  pose proof (Z.mod_pos_bound (sn_value s + 1) (2 ^ k) ltac:(lia)) as Hb.
  assert (Hg : ((sn_value s + 1) mod 2 ^ k - sn_value s) mod 2 ^ k = 1).
  { rewrite Zminus_mod_idemp_l. replace (sn_value s + 1 - sn_value s) with 1 by lia. apply Z.mod_small. lia. }
  destruct (roll_cases k s ((sn_value s + 1) mod 2 ^ k) Hs ltac:(lia)) as [[? _]|[(_ & _ & ->)|(_ & Hn & _)]]; [lia| |lia].
  unfold SeqNum_increment. by rewrite (SeqNum_next_mod k).
Qed.
(** A comment of [ChannelRx_sync] says that the state is that after the number before [sn].  For 0 it is the one before
    that, as [resolution] is the largest number and not their count: the number before 0 is still accepted. *)
Lemma sync_at_zero_is_one_short r size c c' : ChannelRx_make r size = Ok c -> ChannelRx_sync c 0 = Ok c' ->
  sn_value (ch_sn c') = 2 ^ exponent r - 2 /\ roll (ch_sn c') (2 ^ exponent r - 1) = Ok (true, mkSeqNum (2 ^ exponent r - 1) (get_mask r)).
Proof.
  pose proof (exponent_range r) as Hk. assert (H1 : 1 < 2 ^ exponent r) by (apply Z.pow_gt_1; lia).
  assert (H2 : 2 ^ exponent r = 2 * 2 ^ (exponent r - 1)) by (rewrite <- Z.pow_succ_r by lia; f_equal; lia).
  assert (1 < 2 ^ (exponent r - 1)) by (apply Z.pow_gt_1; lia).
  assert (Hs0 : sn_bits (exponent r) (mkSeqNum 0 (get_mask r))) by (unfold sn_bits; simpl; rewrite get_mask_ones; lia).
  assert (Hm : SeqNum_make 0 r = Ok (mkSeqNum 0 (get_mask r))).
  { unfold SeqNum_make. rewrite (SeqNum_set_Ok (exponent r)) by (done || lia). rewrite (proj2 (Z.ltb_lt _ _)) by lia. done. }
  unfold ChannelRx_make, DefragBuffer_make. rewrite Hm. intros [= <-]. unfold ChannelRx_sync. cbn [ch_sn sn_mask Z.eqb].
  assert (Hmod : 2 ^ exponent r <= modulus) by (unfold modulus; apply Z.pow_le_mono_r; lia).
  assert (as_sn (get_mask r - 1) = 2 ^ exponent r - 2) as ->.
  { unfold as_sn. rewrite get_mask_ones, Z.ones_equiv. rewrite Z.mod_small; lia. }
  rewrite (SeqNum_set_Ok (exponent r)) by (done || lia). rewrite (proj2 (Z.ltb_lt _ _)) by lia. cbn [sn_mask mbind result_bind].
  unfold defrag_sync. cbn [ch_defrag db_sn]. rewrite (SeqNum_set_Ok (exponent r)) by (done || lia). rewrite (proj2 (Z.ltb_lt _ _)) by lia.
  intros [= <-]. cbn [ch_sn sn_value]. split; [done|].
  assert (Hs : sn_bits (exponent r) (mkSeqNum (2 ^ exponent r - 2) (get_mask r))) by (unfold sn_bits; simpl; rewrite get_mask_ones; lia).
  destruct (roll_cases (exponent r) _ (2 ^ exponent r - 1) Hs ltac:(lia)) as [[? _]|[(_ & _ & ->)|(_ & Hn & _)]]; [lia|done|].
  cbn [sn_value] in Hn. replace (2 ^ exponent r - 1 - (2 ^ exponent r - 2)) with 1 in Hn by lia. rewrite Z.mod_small in Hn; lia.
Qed.
End Arithmetic.

(** ** Fragmentation *)
(** What the pipeline finds for each fragment: no batch before the deadline, a closed transport, a batch that cannot take the
    fragment, or one that takes [S n] of the remaining bytes. *)
Inductive FragmentStep : Type := NoBatch | Closed | CannotEncode | Fits (n : nat).
Inductive PushOutcome : Set := Pushed | Dropped | TransportClosed.
(** What is written to the link: to the open frame, as a new frame, or as a fragment. *)
Inductive TxOut : Type := OutAppend | OutFrame (sn : Z) | OutFragment (f : Fragment).
Section Pipeline.
Context `{SnWidth}.
Context (reliability : Reliability) (priority : Z).
Definition restore (gen : SeqNum) (sn : Z) : SeqNum := mkSeqNum sn (sn_mask gen).
(** [while reader.can_read()]: the bytes left are the fuel, as every fragment takes one at least. *)
Fixpoint fragment_loop (fuel : nat) (steps : nat -> FragmentStep) (start sn : Z) (first : bool) (rest : string) (gen : SeqNum)
    : PushOutcome * list Fragment * SeqNum :=
  if is_empty rest then (Pushed, [], gen) else
  match fuel with
  | O => (Pushed, [], gen)
  | S fuel' =>
      match steps O with
      | Closed => (TransportClosed, [], gen)
      | NoBatch =>
          if first then (Dropped, [], restore gen start)
          else (Dropped, [mkFragment reliability false sn priority false true ""], gen)
      | CannotEncode => (Pushed, [], restore gen start)
      | Fits n =>
          let '(payload, rest') := split_at (S n) rest in
          let f := mkFragment reliability (negb (is_empty rest')) sn priority first false payload in
          let '(sn', gen') := generator_get gen in
          let '(outcome, fs, gen'') := fragment_loop fuel' (fun i => steps (S i)) start sn' false rest' gen' in
          (outcome, f :: fs, gen'')
      end
  end.
(** The batches of one message: whether one is there (a step that is not [Fits] says why not), whether the message fits in
    it as it is or with a new frame, whether it is empty, the same for a second, empty batch, and the fragments. *)
Record StageIo := mkStageIo {
  io_batch : option PushOutcome;
  io_append : bool;
  io_new_frame : bool;
  io_batch_empty : bool;
  io_second_batch : option PushOutcome;
  io_second_frame : bool;
  io_steps : nat -> FragmentStep;
}.
(** [bytes] is the encoded message; the last element is the generator of the channel. *)
Definition push_network_message (io : StageIo) (bytes : string) (gen : SeqNum) : PushOutcome * list TxOut * SeqNum :=
  match io_batch io with
  | Some failure => (failure, [], gen)
  | None =>
      if io_append io then (Pushed, [OutAppend], gen) else
      let '(sn, gen') := generator_get gen in
      if io_new_frame io then (Pushed, [OutFrame sn], gen') else
      match (if io_batch_empty io then None else io_second_batch io) with
      | Some Dropped => (Dropped, [], restore gen' sn)
      | Some failure => (failure, [], gen')
      | None =>
          if io_second_frame io then (Pushed, [OutFrame sn], gen') else
          let '(outcome, fs, gen'') := fragment_loop (String.length bytes) (io_steps io) sn sn true bytes gen' in
          (outcome, OutFragment <$> fs, gen'')
      end
  end.
End Pipeline.

(** ** Every fragment delivered in order is the message *)
Fixpoint receive `{SnWidth, NetworkCodec} (markers : bool) (c : ChannelRx) (fs : list Fragment) : list NetworkMessage * ChannelRx :=
  match fs with
  | [] => ([], c)
  | f :: rest =>
      let '(r, c') := chan_fragment markers c f in
      let '(ms, c'') := receive markers c' rest in
      (match r with Ok (Some m) => m :: ms | _ => ms end, c'')
  end.
Lemma payload_split_app n s : let '(a, b) := split_at n s in s = a ++ b /\ str_len a = Z.min (Z.of_nat n) (str_len s).
Proof.
  revert s. induction n as [|n IH]; intros [|ch s]; cbn [split_at]; try (unfold str_len; simpl; split; [done|lia]).
  specialize (IH s). destruct (split_at n s) as [a b]. destruct IH as [-> Hl]. split; [done|]. unfold str_len in *. simpl. lia.
Qed.
Lemma is_empty_len s : is_empty s = true <-> str_len s = 0.
Proof. destruct s; unfold str_len; simpl; [done|]. split; [done|lia]. Qed.
Section Roundtrip.
Context `{SnWidth, !SnWidthSpec, NetworkCodec}.
Context (reliability : Reliability) (priority k : Z).

(** The receiver between two fragments of a message: it holds [sent] and waits for [sn]. *)
Definition expecting (c : ChannelRx) (sent : string) (sn : Z) : Prop :=
  sn_bits k (ch_sn c) /\ sn_bits k (db_sn (ch_defrag c)) /\ SeqNum_next (ch_sn c) = sn /\ sn_value (db_sn (ch_defrag c)) = sn /\
  db_buffer (ch_defrag c) = sent /\ db_len (ch_defrag c) = str_len sent.
(** A fragment that is accepted and pushed. *)
Lemma push_fragment markers c f d s sent :
  roll (ch_sn c) (fr_sn f) = Ok (true, s) -> sn_bits k s -> sn_value s = fr_sn f ->
  apply_markers markers f (ch_defrag c) = (Some d, d) -> sn_bits k (db_sn d) ->
  (is_empty (db_buffer d) = false -> sn_value (db_sn d) = fr_sn f) -> db_buffer d = sent -> db_len d = str_len sent ->
  str_len sent + str_len (fr_payload f) <= db_capacity d ->
  exists c', expecting c' (sent ++ fr_payload f) (SeqNum_next s) /\ db_capacity (ch_defrag c') = db_capacity d /\
    chan_fragment markers c f =
      if fr_more f then (Ok None, c')
      else (Ok (read_message (fr_reliability f) (sent ++ fr_payload f)), mkChannelRx s (defrag_clear (ch_defrag c'))).
Proof.
  intros Hroll Hs Hv Hmark Hd Hsn Hb Hl Hcap. assert (Hmask : sn_mask s = sn_mask (db_sn d)) by (destruct Hs as (_ & -> & _), Hd as (_ & -> & _); done).
  set (d1 := mkDefrag (mkSeqNum (fr_sn f) (sn_mask (db_sn d))) sent (db_capacity d) (str_len sent)).
  assert (Hsync : (if defrag_is_empty d then match defrag_sync d (fr_sn f) with Ok d' => d' | Err _ => d end else d) = d1).
  { unfold defrag_is_empty. destruct (is_empty (db_buffer d)) eqn:E.
    - unfold defrag_sync. rewrite (SeqNum_set_Ok k); [|done|destruct Hs as (_ & _ & ?); lia].
      rewrite (proj2 (Z.ltb_lt _ _)) by (destruct Hs as (_ & _ & ?); lia). cbn. unfold d1. by rewrite Hb, Hl.
    - destruct d as [[v m] b cap l]. cbn in *. unfold d1. cbn. rewrite Hsn by done. by subst. }
  set (d2 := mkDefrag (SeqNum_increment (db_sn d1)) (sent ++ fr_payload f) (db_capacity d) (str_len sent + str_len (fr_payload f))).
  assert (Hpush : defrag_push d1 (fr_sn f) (fr_payload f) = (Ok tt, d2)).
  { unfold defrag_push, d1. cbn [db_sn sn_value db_len db_capacity db_buffer]. rewrite Z.eqb_refl. cbn [negb].
    rewrite (proj2 (Z.ltb_ge _ _)) by lia. done. }
  assert (Hd1 : mkSeqNum (fr_sn f) (sn_mask (db_sn d)) = s) by (destruct s; cbn in *; congruence).
  exists (mkChannelRx s d2). split_and!; try done.
  - unfold expecting. cbn [ch_sn ch_defrag d2 db_sn db_buffer db_len]. unfold d1. cbn [db_sn]. rewrite Hd1.
    split_and!; try done; [by apply sn_bits_increment|by rewrite str_len_app].
  - unfold chan_fragment, verify_sn. rewrite Hroll. cbn [mbind result_bind ch_defrag ch_sn]. rewrite Hmark, Hsync, Hpush. by destruct (fr_more f).
Qed.
Lemma expecting_markers markers c f sent sn : expecting c sent sn -> is_empty sent = false -> fr_first f = false -> fr_drop f = false ->
  apply_markers markers f (ch_defrag c) = (Some (ch_defrag c), ch_defrag c).
Proof.
  intros (_ & _ & _ & _ & Hb & _) He Hf Hd. unfold apply_markers. rewrite Hf, Hd. unfold defrag_is_empty. rewrite Hb, He. by destruct markers.
Qed.
Lemma receive_rest markers fuel steps start sn rest gen c sent : (String.length rest <= fuel)%nat ->
  (forall i, exists n, steps i = Fits n) -> is_empty sent = false -> expecting c sent sn -> is_empty rest = false ->
  sn_bits k gen -> (sn + 1) mod 2 ^ k = sn_value gen ->
  0 <= sn < 2 ^ k -> str_len sent + str_len rest <= db_capacity (ch_defrag c) ->
  exists c', receive markers c (fragment_loop reliability priority fuel steps start sn false rest gen).1.2 =
    (match read_message reliability (sent ++ rest) with Some m => [m] | None => [] end, c') /\ db_buffer (ch_defrag c') = "".
Proof.
  revert steps sn rest gen c sent. induction fuel as [|fuel IH]; intros steps sn rest gen c sent Hfuel Hsteps Hsent Hc Hrest Hgen Hnext Hsn Hcap;
    [by destruct rest; simpl in Hfuel; [done|lia]|].
  cbn [fragment_loop]. rewrite Hrest. destruct (Hsteps O) as [n ->].
  pose proof (payload_split_app (S n) rest) as Hsplit. destruct (split_at (S n) rest) as [payload rest'] eqn:Esp.
  destruct Hsplit as [Erest Hlen]. cbn [generator_get].
  destruct (fragment_loop _ _ fuel _ start (sn_value gen) false rest' _) as [[outcome fs] gen''] eqn:Eloop. cbn [fst snd receive].
  set (f := mkFragment reliability (negb (is_empty rest')) sn priority false false payload).
  pose proof Hc as (Hcs & Hds & Hcn & Hdn & Hb & Hl).
  pose proof (roll_next k (ch_sn c) Hcs) as Hroll. rewrite Hcn in Hroll.
  assert (Hpl : str_len rest = str_len payload + str_len rest') by (rewrite Erest, str_len_app; done).
  destruct (push_fragment markers c f (ch_defrag c) (SeqNum_increment (ch_sn c)) sent) as (c1 & Hc1 & Hcap1 & ->);
    try done; try (by apply (expecting_markers _ _ _ _ _ Hc)); [by apply sn_bits_increment|simpl; unfold str_len in *; lia|].
  cbn [fr_more f fr_payload fr_reliability] in *.
  assert (Hnext1 : SeqNum_next (SeqNum_increment (ch_sn c)) = sn_value gen).
  { rewrite (SeqNum_next_mod k); [|by apply sn_bits_increment]. cbn [SeqNum_increment sn_value]. by rewrite Hcn. }
  rewrite Hnext1 in Hc1.
  destruct (is_empty rest') eqn:Er; cbn [negb].
  - assert (fs = []) as -> by (destruct fuel; cbn [fragment_loop] in Eloop; rewrite Er in Eloop; congruence).
    cbn [receive]. assert (rest' = "") as -> by (by destruct rest'). rewrite string_app_nil in Erest. subst payload.
    exists (mkChannelRx (SeqNum_increment (ch_sn c)) (defrag_clear (ch_defrag c1))). split; [|done].
    by destruct (read_message reliability (sent ++ rest)).
  - pose proof Hc1 as (Hcs1 & Hds1 & _ & _ & _ & _).
    destruct (IH (fun i => steps (S i)) (sn_value gen) rest' (SeqNum_increment gen) c1 (sent ++ payload)) as (c' & Hrun & Hb');
      [unfold str_len in *; lia|intros i; apply (Hsteps (S i))|by destruct sent|exact Hc1|exact Er|by apply sn_bits_increment| | | |].
    + cbn [SeqNum_increment sn_value]. by rewrite (SeqNum_next_mod k).
    + by destruct Hgen as (_ & _ & ?).
    + rewrite str_len_app. lia.
    + rewrite Eloop in Hrun. cbn [fst snd] in Hrun. exists c'. rewrite Hrun, Erest, string_app_assoc. done.
Qed.

Lemma fragment_loop_pushed fuel steps start sn first rest gen : (forall i, exists n, steps i = Fits n) ->
  (fragment_loop reliability priority fuel steps start sn first rest gen).1.1 = Pushed.
Proof.
  revert steps sn first rest gen. induction fuel as [|fuel IH]; intros steps sn first rest gen Hs; cbn [fragment_loop]; destruct (is_empty rest); try done.
  destruct (Hs O) as [n ->]. destruct (split_at (S n) rest) as [payload rest']. cbn [generator_get].
  specialize (IH (fun i => steps (S i)) (sn_value gen) false rest' (SeqNum_increment gen) (fun i => Hs (S i))).
  by destruct (fragment_loop _ _ fuel _ _ _ _ rest' _) as [[outcome fs] gen''].
Qed.

(** C30: a fragmented message arrives whole.  When a message that fits in no batch is written in fragments, of whatever
    sizes the batches allow, and its fragments reach a receiver of the same resolution one after the other, and when the
    message is within the receiver's capacity, the receiver delivers exactly what it decodes from the bytes of the message,
    once and with the last fragment, and keeps nothing.
    The first fragment only has to be ahead of the receiver within half of the numbers, so frames and fragments may have
    been lost before; with fragmentation markers even the remains of an unfinished message do no harm.  Numbers wrap. *)
Theorem fragments_arrive_whole markers io bytes gen c : sn_bits k gen -> sn_bits k (ch_sn c) -> sn_bits k (db_sn (ch_defrag c)) ->
  io_batch io = None -> io_append io = false -> io_new_frame io = false -> (io_batch_empty io = true \/ io_second_batch io = None) ->
  io_second_frame io = false -> (forall i, exists n, io_steps io i = Fits n) -> is_empty bytes = false ->
  roll (ch_sn c) (sn_value gen) = Ok (true, gen) -> (markers = false -> db_buffer (ch_defrag c) = "" /\ db_len (ch_defrag c) = 0) ->
  str_len bytes <= db_capacity (ch_defrag c) ->
  exists fs gen' c', push_network_message reliability priority io bytes gen = (Pushed, OutFragment <$> fs, gen') /\
    receive markers c fs = (match read_message reliability bytes with Some m => [m] | None => [] end, c') /\
    db_buffer (ch_defrag c') = "".
Proof.
  intros Hg Hcs Hds E1 E2 E3 E4 E5 Hsteps Hne Hroll Hempty Hcap. unfold push_network_message. rewrite E1, E2. cbn [generator_get].
  rewrite E3, E5. assert ((if io_batch_empty io then None else io_second_batch io) = None) as -> by (destruct E4 as [E|E]; rewrite E; [done|by destruct (io_batch_empty io)]).
  pose proof (fragment_loop_pushed (String.length bytes) (io_steps io) (sn_value gen) (sn_value gen) true bytes (SeqNum_increment gen) Hsteps) as Hout.
  destruct (fragment_loop _ _ _ _ _ _ true _ _) as [[outcome fs] gen'] eqn:Eloop. cbn [fst] in Hout. subst outcome.
  exists fs, gen'. enough (exists c', receive markers c fs =
    (match read_message reliability bytes with Some m => [m] | None => [] end, c') /\ db_buffer (ch_defrag c') = "") as (c' & Hr & Hb) by eauto.
  destruct bytes as [|ch0 bytes0]; [done|]. set (bytes := String ch0 bytes0) in *. cbn [String.length bytes] in Eloop.
  cbn [fragment_loop] in Eloop. rewrite Hne in Eloop. destruct (Hsteps O) as [n En]. rewrite En in Eloop.
  pose proof (payload_split_app (S n) bytes) as Hsplit. destruct (split_at (S n) bytes) as [payload rest'] eqn:Esp. destruct Hsplit as [Erest Hlen].
  cbn [generator_get] in Eloop. destruct (fragment_loop _ _ _ _ _ _ false rest' _) as [[outcome fs'] gen''] eqn:Eloop'. injection Eloop as _ <- _.
  cbn [receive]. set (f := mkFragment reliability (negb (is_empty rest')) (sn_value gen) priority true false payload).
  assert (Hpl : str_len bytes = str_len payload + str_len rest') by (rewrite Erest, str_len_app; done).
  set (d := if markers then defrag_clear (ch_defrag c) else ch_defrag c).
  destruct (push_fragment markers c f d gen "") as (c1 & Hc1 & Hcap1 & ->);
    [done|done|done|by unfold apply_markers, d; destruct markers|by unfold d; destruct markers| | | | |].
  { unfold d. destruct markers; [done|]. by destruct (Hempty eq_refl) as [-> _]. }
  { unfold d. destruct markers; [done|]. apply (Hempty eq_refl). }
  { unfold d. destruct markers; [done|]. apply (Hempty eq_refl). }
  { assert (db_capacity d = db_capacity (ch_defrag c)) as -> by (unfold d; by destruct markers). cbn [f fr_payload].
    unfold str_len in *. simpl in *. lia. }
  cbn [fr_more f fr_payload fr_reliability] in *. assert (Hcd : db_capacity d = db_capacity (ch_defrag c)) by (unfold d; by destruct markers).
  destruct (is_empty rest') eqn:Er; cbn [negb].
  - assert (fs' = []) as -> by (destruct (String.length bytes0); cbn [fragment_loop] in Eloop'; rewrite Er in Eloop'; congruence).
    cbn [receive]. assert (rest' = "") as -> by (by destruct rest'). rewrite string_app_nil in Erest. change ("" ++ payload) with payload in *. rewrite <- Erest in *.
    exists (mkChannelRx gen (defrag_clear (ch_defrag c1))). split; [|done]. by destruct (read_message reliability bytes).
  - destruct (receive_rest markers (String.length bytes0) (fun i => io_steps io (S i)) (sn_value gen) (SeqNum_next gen) rest'
      (SeqNum_increment (SeqNum_increment gen)) c1 payload) as (c' & Hrun & Hb');
      [|intros i; apply (Hsteps (S i))| |exact Hc1|exact Er|by apply sn_bits_increment, sn_bits_increment| | | |].
    + unfold str_len in *. cbn [bytes String.length] in *. lia.
    + apply not_true_iff_false. rewrite is_empty_len. unfold str_len in *. simpl in *. lia.
    + cbn [SeqNum_increment sn_value]. rewrite (SeqNum_next_mod k (SeqNum_increment gen)) by (by apply sn_bits_increment). done.
    + destruct (sn_bits_increment k gen Hg) as (_ & _ & Hv). exact Hv.
    + rewrite Hcap1, Hcd. lia.
    + change (SeqNum_next gen) with (sn_value (SeqNum_increment gen)) in Hrun. rewrite Eloop' in Hrun. cbn [fst snd] in Hrun.
      exists c'. rewrite Hrun, Erest. done.
Qed.
End Roundtrip.

(** ** Whatever arrives, a delivered message is one run of fragments *)
Definition payloads (fs : list Fragment) : string := foldr (fun f rest => fr_payload f ++ rest) "" fs.
Lemma payloads_app a b : payloads (a ++ b)%list = payloads a ++ payloads b.
Proof. induction a as [|f a IH]; [done|]. cbn [payloads app foldr]. fold (payloads (a ++ b)%list). rewrite IH. apply string_app_assoc. Qed.
(** Fragments with consecutive numbers, of which only the last may be the end of a message; with markers, the first and only
    the first is marked as such, and none stops the message. *)
Inductive fragment_run (markers : bool) (k : Z) : list Fragment -> Prop :=
| run_one f : (markers = true -> fr_first f = true /\ fr_drop f = false) -> fragment_run markers k [f]
| run_snoc run f g : fragment_run markers k (run ++ [f])%list -> fr_more f = true -> fr_sn g = (fr_sn f + 1) mod 2 ^ k ->
    (markers = true -> fr_first g = false /\ fr_drop g = false) -> fragment_run markers k ((run ++ [f]) ++ [g])%list.

Section Delivery.
Context `{SnWidth, !SnWidthSpec, NetworkCodec}.
Context (markers : bool) (k capacity : Z).
(** A channel, the fragments it was given and the messages it delivered, both in order; frames share its numbers. *)
Inductive channel_reaches (c0 : ChannelRx) : ChannelRx -> list Fragment -> list NetworkMessage -> Prop :=
| reaches_start : channel_reaches c0 c0 [] []
| reaches_frame c fs ms sn r c' : channel_reaches c0 c fs ms -> 0 <= sn -> chan_frame c sn = (r, c') -> channel_reaches c0 c' fs ms
| reaches_fragment c fs ms f r c' : channel_reaches c0 c fs ms -> 0 <= fr_sn f -> chan_fragment markers c f = (r, c') ->
    channel_reaches c0 c' (fs ++ [f])%list (match r with Ok (Some m) => ms ++ [m] | _ => ms end)%list.

(** What the buffer holds: nothing, or an unfinished run. *)
Definition buffer_inv (fs : list Fragment) (d : DefragBuffer) : Prop :=
  sn_bits k (db_sn d) /\ db_capacity d = capacity /\ db_len d = str_len (db_buffer d) /\ db_len d <= capacity /\
  (is_empty (db_buffer d) = false -> exists run f, fragment_run markers k (run ++ [f])%list /\ (run ++ [f])%list `sublist_of` fs /\
     fr_more f = true /\ payloads (run ++ [f])%list = db_buffer d /\ sn_value (db_sn d) = (fr_sn f + 1) mod 2 ^ k).
Definition whole_message (fs : list Fragment) (m : NetworkMessage) : Prop :=
  exists run f, fragment_run markers k (run ++ [f])%list /\ (run ++ [f])%list `sublist_of` fs /\ fr_more f = false /\
    str_len (payloads (run ++ [f])%list) <= capacity /\ read_message (fr_reliability f) (payloads (run ++ [f])%list) = Some m.
Definition channel_inv (c : ChannelRx) (fs : list Fragment) (ms : list NetworkMessage) : Prop :=
  sn_bits k (ch_sn c) /\ buffer_inv fs (ch_defrag c) /\ Forall (whole_message fs) ms.

Lemma buffer_inv_clear fs d : 0 <= capacity -> buffer_inv fs d -> buffer_inv fs (defrag_clear d).
Proof. intros Hc (Hs & Hcap & _). unfold buffer_inv. cbn. split_and!; try done. Qed.
Lemma buffer_inv_grow fs f d : buffer_inv fs d -> buffer_inv (fs ++ [f])%list d.
Proof.
  intros (Hs & Hcap & Hl & Hle & Hrun). split_and!; try done. intros (run & g & ? & ? & ?)%Hrun. exists run, g. split_and!; try done; [|naive_solver..].
  by apply sublist_inserts_r.
Qed.
Lemma whole_grow fs f m : whole_message fs m -> whole_message (fs ++ [f])%list m.
Proof. intros (run & g & ? & ? & ?). exists run, g. split_and!; try done; [by apply sublist_inserts_r|naive_solver..]. Qed.
Lemma verify_sn_inv c sn ok c' : sn_bits k (ch_sn c) -> 0 <= sn -> verify_sn c sn = Ok (ok, c') ->
  sn_bits k (ch_sn c') /\ ch_defrag c' = ch_defrag c /\ (ok = true -> sn < 2 ^ k).
Proof.
  intros Hs Hsn. unfold verify_sn. destruct (roll_cases k (ch_sn c) sn Hs Hsn) as [[_ ->]|[(Hr & _ & ->)|(_ & _ & ->)]]; [done|..];
    intros [= <- <-]; cbn [ch_sn ch_defrag]; split_and!; try done. by apply sn_bits_value.
Qed.
(** The buffer that a fragment is pushed on: empty and waiting for it, or holding the run it may continue. *)
Lemma ready_buffer fs f d d0 : 0 <= capacity -> buffer_inv fs (ch_defrag d0) -> apply_markers markers f (ch_defrag d0) = (Some d, d) ->
  0 <= fr_sn f < 2 ^ k ->
  let d1 := if defrag_is_empty d then match defrag_sync d (fr_sn f) with Ok d' => d' | Err _ => d end else d in
  buffer_inv fs d1 /\ (markers = true -> fr_drop f = false) /\
  (if is_empty (db_buffer d1) then markers = true -> fr_first f = true else markers = true -> fr_first f = false).
Proof.
  intros Hcap Hd Hm Hsn. cbv zeta.
  assert (Hd' : buffer_inv fs d /\ (markers = true -> fr_drop f = false) /\
    (if is_empty (db_buffer d) then markers = true -> fr_first f = true else markers = true -> fr_first f = false)).
  { unfold apply_markers in Hm. destruct markers; simpl in Hm; [|injection Hm as <-; split_and!; try done; by destruct (is_empty _)].
    destruct (fr_first f) eqn:Ef; simpl in Hm.
    - destruct (fr_drop f); [done|]. injection Hm as <-. split_and!; [by apply buffer_inv_clear|done|done].
    - destruct (defrag_is_empty (ch_defrag d0)) eqn:Ee; [done|]. destruct (fr_drop f); [done|]. injection Hm as <-.
      split_and!; [done|done|]. unfold defrag_is_empty in Ee. by rewrite Ee. }
  destruct Hd' as (Hinv & Hdrop & Hfirst). unfold defrag_is_empty. destruct (is_empty (db_buffer d)) eqn:Ee; [|by rewrite Ee].
  unfold defrag_sync. pose proof Hinv as (Hs & Hc & Hl & Hle & _). rewrite (SeqNum_set_Ok k) by (done || lia).
  rewrite (proj2 (Z.ltb_lt _ _)) by lia. cbn [mbind result_bind db_buffer]. rewrite Ee. split_and!; try done.
  unfold buffer_inv. cbn [db_sn db_capacity db_len db_buffer]. split_and!; try done. by apply sn_bits_value. congruence.
Qed.
Lemma apply_markers_inv fs f d x : 0 <= capacity -> buffer_inv fs d -> (apply_markers markers f d).2 = x -> buffer_inv fs x.
Proof.
  intros Hc Hd <-. pose proof (buffer_inv_clear fs d Hc Hd) as Hcl. pose proof (buffer_inv_clear fs _ Hc Hcl) as Hcl2.
  unfold apply_markers. by destruct markers, (fr_first f), (defrag_is_empty d), (fr_drop f).
Qed.
(** A push either clears the buffer or extends its run. *)
Lemma push_run fs f d : 0 <= capacity -> buffer_inv fs d -> (markers = true -> fr_drop f = false) ->
  (if is_empty (db_buffer d) then markers = true -> fr_first f = true else markers = true -> fr_first f = false) -> 0 <= fr_sn f < 2 ^ k ->
  match (defrag_push d (fr_sn f) (fr_payload f)).1 with
  | Err _ => buffer_inv fs (defrag_push d (fr_sn f) (fr_payload f)).2
  | Ok _ =>
      let d2 := (defrag_push d (fr_sn f) (fr_payload f)).2 in
      sn_bits k (db_sn d2) /\ db_capacity d2 = capacity /\ db_len d2 = str_len (db_buffer d2) /\ db_len d2 <= capacity /\
      exists run, fragment_run markers k (run ++ [f])%list /\ (run ++ [f])%list `sublist_of` (fs ++ [f])%list /\
        payloads (run ++ [f])%list = db_buffer d2 /\ sn_value (db_sn d2) = (fr_sn f + 1) mod 2 ^ k
  end.
Proof.
  intros Hcap Hd Hdrop Hfirst Hsn. unfold defrag_push. destruct (Z.eqb_spec (fr_sn f) (sn_value (db_sn d))) as [E|E]; cbn [negb]; [|by apply buffer_inv_clear].
  destruct (Z.ltb_spec (db_capacity d) (db_len d + str_len (fr_payload f))) as [Hf|Hf]; [by apply buffer_inv_clear|]. cbn.
  destruct Hd as (Hs & Hc & Hl & Hle & Hrun). split_and!; try done; [by apply sn_bits_increment|rewrite str_len_app; lia|lia|].
  destruct (is_empty (db_buffer d)) eqn:Ee.
  - exists []. split_and!; [constructor; by auto|by apply sublist_inserts_l| |by rewrite (SeqNum_next_mod k), E].
    destruct (db_buffer d); [|done]. cbn. by rewrite string_app_nil.
  - destruct (Hrun eq_refl) as (run & g & Hr & Hsub & Hm & Hp & Hv). exists (run ++ [g])%list. split_and!.
    + constructor; [done|done|congruence|by auto].
    + by apply sublist_app.
    + rewrite payloads_app, Hp. cbn. by rewrite string_app_nil.
    + by rewrite (SeqNum_next_mod k), E.
Qed.
Lemma chan_fragment_inv c fs ms f r c' : 0 <= capacity -> channel_inv c fs ms -> 0 <= fr_sn f -> chan_fragment markers c f = (r, c') ->
  channel_inv c' (fs ++ [f])%list (match r with Ok (Some m) => ms ++ [m] | _ => ms end)%list.
Proof.
  intros Hcap (Hs & Hd & Hms) Hsn. assert (Hms' : Forall (whole_message (fs ++ [f])%list) ms) by (eapply Forall_impl; [|exact Hms]; intros; by apply whole_grow).
  unfold chan_fragment. destruct (verify_sn c (fr_sn f)) as [[ok c1]|e] eqn:Ev.
  2:{ intros [= <- <-]. split_and!; [done|by apply buffer_inv_grow|done]. }
  apply verify_sn_inv in Ev as (Hs1 & Hd1 & Hlt); [|done|done].
  destruct ok; [|intros [= <- <-]; rewrite <- Hd1 in Hd; split_and!; [done|by apply buffer_inv_grow|done]].
  specialize (Hlt eq_refl). rewrite <- Hd1 in Hd.
  destruct (apply_markers markers f (ch_defrag c1)) as [[d|] d'] eqn:Em.
  2:{ intros [= <- <-]. split_and!; [done| |done]. apply buffer_inv_grow. eapply apply_markers_inv; [done|exact Hd|by rewrite Em]. }
  assert (d' = d) as -> by (unfold apply_markers in Em; destruct markers, (fr_first f), (defrag_is_empty (ch_defrag c1)), (fr_drop f); cbn in Em; congruence).
  pose proof (ready_buffer fs f d c1 Hcap Hd Em (conj Hsn Hlt)) as Hready. cbv zeta in Hready.
  set (d1 := if defrag_is_empty d then _ else d) in *. destruct Hready as (Hd1' & Hdrop & Hfirst).
  pose proof (push_run fs f d1 Hcap Hd1' Hdrop Hfirst (conj Hsn Hlt)) as Hpush.
  destruct (defrag_push d1 (fr_sn f) (fr_payload f)) as [[u|e] d2]; cbn [fst snd] in Hpush.
  2:{ intros [= <- <-]. split_and!; [done|by apply buffer_inv_grow|done]. }
  destruct Hpush as (Hs2 & Hc2 & Hl2 & Hle2 & run & Hrun & Hsub & Hpay & Hv2).
  destruct (fr_more f) eqn:Emore; cbn [defragment].
  - intros [= <- <-]. split_and!; [done| |done]. split_and!; try done. intros _. exists run, f. done.
  - intros [= <- <-]. split_and!; [done| |].
    + split_and!; try done.
    + destruct (read_message (fr_reliability f) (db_buffer d2)) as [m|] eqn:Er; [|done]. apply Forall_app. split; [done|]. constructor; [|done].
      exists run, f. split_and!; try done; [rewrite Hpay; lia|by rewrite Hpay].
Qed.
(** Whatever arrives, frames and fragments lost, repeated, reordered or interleaved. *)
Lemma channel_reaches_inv c0 c fs ms : 0 <= capacity -> channel_inv c0 [] [] -> channel_reaches c0 c fs ms -> channel_inv c fs ms.
Proof.
  intros Hcap H0'. induction 1 as [|c fs ms sn r c' _ IH Hsn Hf|c fs ms f r c' _ IH Hsn Hf]; [done| |by eapply chan_fragment_inv].
  destruct IH as (Hs & Hd & Hms). unfold chan_frame in Hf. destruct (verify_sn c sn) as [[ok c1]|e] eqn:Ev; injection Hf as <- <-; [|done].
  apply verify_sn_inv in Ev as (Hs1 & Hd1 & _); [|done|done]. rewrite <- Hd1 in Hd. done.
Qed.

(** C29: a delivered message was sent as one.  Whatever a link does to the frames and fragments of a channel, every message the
    channel delivers was decoded from the payloads of fragments it received, in the order received, whose numbers follow one
    another, of which the last and only the last ends a message; with fragmentation markers the first and only the first
    starts one and none was given up.  The buffer never holds more than its capacity, and neither does a message. *)
Theorem delivered_messages_are_whole resolution c0 c fs ms : k = exponent resolution -> 0 <= capacity ->
  ChannelRx_make resolution capacity = Ok c0 -> channel_reaches c0 c fs ms ->
  Forall (whole_message fs) ms /\ db_len (ch_defrag c) = str_len (db_buffer (ch_defrag c)) /\ db_len (ch_defrag c) <= capacity.
Proof.
  intros Hk Hcap Hmake Hr. assert (Hinv : channel_inv c0 [] []).
  { pose proof (exponent_range resolution). assert (1 < 2 ^ exponent resolution) by (apply Z.pow_gt_1; lia).
    assert (Hs0 : sn_bits k (mkSeqNum 0 (get_mask resolution))) by (unfold sn_bits; simpl; rewrite get_mask_ones; subst k; lia).
    assert (Hm : SeqNum_make 0 resolution = Ok (mkSeqNum 0 (get_mask resolution))).
    { unfold SeqNum_make. rewrite (SeqNum_set_Ok k) by (done || lia). rewrite (proj2 (Z.ltb_lt _ _)) by (subst k; lia). done. }
    unfold ChannelRx_make, DefragBuffer_make in Hmake. rewrite Hm in Hmake. cbn in Hmake. injection Hmake as <-.
    split_and!; [done| |done]. split_and!; done. }
  apply channel_reaches_inv in Hr as (_ & (_ & _ & Hl & Hle & _) & Hms); done.
Qed.
End Delivery.

(** ** Channels do not interfere *)
Section Isolation.
Context `{SnWidth, NetworkCodec}.
Context (qos markers : bool) (callback : option (NetworkMessage -> bool)) (map_shm : NetworkMessage -> option NetworkMessage).
Lemma on_channel_others {A} reliability priority (h : ChannelRx -> ZResult A * ChannelRx) r a r' index reliability' p :
  on_channel qos reliability priority h r = (a, r') -> (reliability', Ok index) <> (reliability, priority_index qos priority) ->
  rx_priorities r !! index = Some p -> exists p', rx_priorities r' !! index = Some p' /\ channel_of reliability' p' = channel_of reliability' p.
Proof.
  unfold on_channel. destruct (priority_index qos priority) as [i|e]; [|intros [= <- <-]; eauto].
  destruct (rx_priorities r !! i) as [q|] eqn:Ei; [|intros [= <- <-]; eauto].
  destruct (h (channel_of reliability q)) as [x c]. intros [= <- <-] Hne Hp. cbn [rx_priorities].
  destruct (decide (i = index)) as [->|Hi]; [|rewrite list_lookup_insert_ne by done; eauto].
  assert (q = p) as -> by congruence. exists (set_channel reliability c p).
  rewrite list_lookup_insert_eq by (by eapply lookup_lt_Some). split; [done|]. by destruct reliability, reliability'.
Qed.
Lemma trigger_callback_priorities call m r : rx_priorities (trigger_callback map_shm call m r).2 = rx_priorities r.
Proof. unfold trigger_callback. by destruct (map_shm m). Qed.
(** A fragment leaves every channel but its own as it was, delivered or not. *)
Lemma handle_fragment_others f r a r' index reliability p : handle_fragment qos markers callback map_shm f r = (a, r') ->
  (reliability, Ok index) <> (fr_reliability f, priority_index qos (fr_priority f)) ->
  rx_priorities r !! index = Some p -> exists p', rx_priorities r' !! index = Some p' /\ channel_of reliability p' = channel_of reliability p.
Proof.
  unfold handle_fragment. destruct (on_channel _ _ _ _ r) as [x r1] eqn:E. intros Hh Hne Hp.
  destruct (on_channel_others _ _ _ _ _ _ _ _ _ E Hne Hp) as (p' & Hp' & Hc). exists p'. split; [|done].
  assert (rx_priorities r' = rx_priorities r1) as ->; [|done].
  destruct x as [[m|]|e]; [|by injection Hh as _ <-..]. destruct callback as [call|]; [|by injection Hh as _ <-].
  pose proof (trigger_callback_priorities call m r1) as Ht. by rewrite Hh in Ht.
Qed.
End Isolation.

(** ** Runs *)
Module TransportToy.
#[local] Instance toy_width : SnWidth := 32.
#[local] Instance toy_width_spec : SnWidthSpec := or_introl eq_refl.
#[local] Instance toy_network : NetworkCodec := {| NetworkMessage := string; read_message _ s := Some s |}.
Definition io : StageIo := mkStageIo None false false true None false (fun _ => Fits 3).
(** Numbers of seven bits that wrap, at a receiver that holds the remains of another message. *)
Definition sender : SeqNum := mkSeqNum 126 127.
Definition receiver : ChannelRx := mkChannelRx (mkSeqNum 120 127) (mkDefrag (mkSeqNum 121 127) "lost" 16 4).
Lemma fragments_arrive_whole_witness : exists fs gen' c',
  push_network_message Reliable 5 io "hello world" sender = (Pushed, OutFragment <$> fs, gen') /\
  (fr_sn <$> fs) = [126; 127; 0] /\ receive true receiver fs = (["hello world"], c') /\ db_buffer (ch_defrag c') = "".
Proof.
  destruct (fragments_arrive_whole Reliable 5 7 true io "hello world" sender receiver) as (fs & gen' & c' & Hp & Hr & Hb);
    [by vm_compute|by vm_compute|by vm_compute|reflexivity|reflexivity|reflexivity|left; reflexivity|reflexivity|by intros i; exists 3%nat
    |reflexivity|reflexivity|discriminate|vm_compute; discriminate|].
  exists fs, gen', c'. split; [exact Hp|]. split; [|split; [exact Hr|exact Hb]].
  assert (Hfs : (push_network_message Reliable 5 io "hello world" sender).1.2 = OutFragment <$> fs) by (by rewrite Hp).
  vm_compute in Hfs. destruct fs as [|a [|b [|c [|]]]]; try discriminate Hfs. injection Hfs as <- <- <-. reflexivity.
Defined.
Definition fragment (sn : Z) (first more : bool) (payload : string) : Fragment := mkFragment BestEffort more sn 5 first false payload.
Definition fresh : ChannelRx := mkChannelRx (mkSeqNum 0 127) (mkDefrag (mkSeqNum 0 127) "" 16 0).
(** The second message loses its middle fragment and is not delivered. *)
Definition arrivals : list Fragment :=
  [fragment 1 true true "ab"; fragment 2 false false "cd"; fragment 3 true true "ef"; fragment 5 false false "gh"].
Lemma delivered_messages_are_whole_witness : exists c, channel_reaches true fresh c arrivals ["abcd"] /\
  Forall (whole_message true 7 16 arrivals) ["abcd"].
Proof.
  assert (Hr : exists c, channel_reaches true fresh c arrivals ["abcd"]).
  { pose proof (reaches_start true fresh) as R0.
    pose proof (reaches_fragment true fresh _ _ _ (fragment 1 true true "ab") _ _ R0 ltac:(done) eq_refl) as R1. vm_compute in R1.
    pose proof (reaches_fragment true fresh _ _ _ (fragment 2 false false "cd") _ _ R1 ltac:(done) eq_refl) as R2. vm_compute in R2.
    pose proof (reaches_fragment true fresh _ _ _ (fragment 3 true true "ef") _ _ R2 ltac:(done) eq_refl) as R3. vm_compute in R3.
    pose proof (reaches_fragment true fresh _ _ _ (fragment 5 false false "gh") _ _ R3 ltac:(done) eq_refl) as R4. vm_compute in R4.
    eexists. exact R4. }
  destruct Hr as [c Hr]. exists c. split; [exact Hr|].
  apply (delivered_messages_are_whole true 7 16 BitsU8 fresh c arrivals (["abcd"] : list (@NetworkMessage toy_network))); [reflexivity|lia|reflexivity|exact Hr].
Defined.
End TransportToy.
