(* ===== verification/Establishment.v ===== *)
(** * Establishment of a Zenoh unicast transport

    [patches/zenoh-transport/src/unicast/establishment/]: the four messages of a handshake in [open.rs] and [accept.rs], the
    cookie the acceptor keeps its state in ([cookie.rs]), the initial sequence number ([mod.rs]) and the extensions QoS, low
    latency, compression, patch and region name ([ext/]).  Authentication and multilink are extensions behind the traits
    [OpenFsm] and [AcceptFsm] and are arguments here; shared memory is off.  The codec, the cipher, the hash and the types of
    [zenoh-protocol] are parameters. *)
From S2P Require Import Transport Prelude.

(** ** What other crates define *)
Class ZenohProtocol := {
  WhatAmI : Type;
  Bound : Type;
  BATCH_UNICAST : Z;
  PATCH_NONE : Z;
  PATCH_CURRENT : Z;
  priority_try_from : Z -> bool;
  range_includes : Z * Z -> Z * Z -> bool;
  reliability_from : bool -> Reliability;
  reliability_bool : Reliability -> bool;
  reliability_from_str : string -> option Reliability;
  range_from_str : string -> option (Z * Z);
  region_utf8 : string -> bool;
  region_name_try_from : string -> bool;
  bound_u8 : Bound -> Z;
  bound_try_from : Z -> option Bound;
  whatami_u8 : WhatAmI -> Z;
  whatami_try_from : Z -> option WhatAmI;
  (** [Shake128]: so many bytes for an input. *)
  shake128 : string -> nat -> string;
}.
(** A priority is a [u8], a range includes itself, a region name is not empty, and numbers of enumerations read back. *)
Class ZenohProtocolSpec `{ZenohProtocol} : Prop := {
  priority_byte : forall p, priority_try_from p = true -> 0 <= p < 256;
  range_includes_refl : forall r, range_includes r r = true;
  reliability_roundtrip : forall r, reliability_from (reliability_bool r) = r;
  region_name_nonempty : forall n, region_name_try_from n = true -> is_empty n = false;
  bound_byte : forall b, 0 <= bound_u8 b < 256 /\ bound_try_from (bound_u8 b) = Some b;
  whatami_byte : forall w, 0 <= whatami_u8 w < 256 /\ whatami_try_from (whatami_u8 w) = Some w;
  patch_byte : 0 <= PATCH_NONE <= PATCH_CURRENT /\ PATCH_CURRENT < 256;
  batch_u16 : 0 <= BATCH_UNICAST < 2 ^ 16;
  range_parsed : forall s r, range_from_str s = Some r -> priority_try_from r.1 = true /\ priority_try_from r.2 = true;
}.

(** ** Errors *)
Inductive CloseReason : Type := GENERIC | INVALID | OtherReason (reason : Z).
Inductive EstError : Type := LinkFailed | PeerClosed (reason : CloseReason) | WrongMessage | WrongVersion | FrameSnTooLarge | RequestIdTooLarge
  | InvalidQoS | BothQoS | InvalidPriority | PriorityRefused | ReliabilityRefused | MetadataRefused | PatchTooNew | InvalidRegionName
  | InvalidBound | BoundRefused | ExtensionRefused | CookieUnreadable | UnknownCookie.
(** [OpenError] and [AcceptError]: the reason the link is closed with, if the peer is told one. *)
Notation EstResult := (result EstError).
Notation HsResult := (result (EstError * option CloseReason)).
Definition with_reason {A} (reason : CloseReason) (r : EstResult A) : HsResult A :=
  match r with Ok a => Ok a | Err e => Err (e, Some reason) end.

(** ** Resolutions *)
Definition Bits_rank (b : Bits) : Z := match b with BitsU8 => 0 | BitsU16 => 1 | BitsU32 => 2 | BitsU64 => 3 end.
Definition Bits_min (a b : Bits) : Bits := if Bits_rank a <=? Bits_rank b then a else b.
Record Resolution := mkResolution { res_frame_sn : Bits; res_request_id : Bits }.

(** ** Quality of service *)
Inductive QoS : Type := NoQoS | WithQoS (reliability : option Reliability) (priorities : option (Z * Z)).
#[global] Instance Reliability_eq_dec : EqDecision Reliability.
Proof. solve_decision. Defined.
(** The metadata of an endpoint: its reliability and its priorities. *)
Record Metadata := mkMetadata { md_reliability : option string; md_priorities : option string }.
Section QoS.
Context `{ZenohProtocol}.
Definition parsed {A} (parse : string -> option A) (text : option string) : EstResult (option A) :=
  match text with None => Ok None | Some s => a ← ok_or (parse s) MetadataRefused; Ok (Some a) end.
Definition QoS_new (is_qos : bool) (endpoint : Metadata) : EstResult QoS :=
  if negb is_qos then Ok NoQoS else
  reliability ← parsed reliability_from_str (md_reliability endpoint);
  priorities ← parsed range_from_str (md_priorities endpoint);
  Ok (WithQoS reliability priorities).
Definition read_priority (byte : Z) : EstResult Z := if priority_try_from byte then Ok byte else Err InvalidPriority.
Definition QoS_try_from_u64 (value : Z) : EstResult QoS :=
  if value =? 0 then Ok NoQoS else if value =? 1 then Ok (WithQoS None None) else
  if negb (Z.land value 6 =? 0) then
    let tag := Z.land value 7 in
    priorities ← (if negb (Z.land tag 2 =? 0) then
                    start ← read_priority (Z.land (Z.shiftr value 3) 255);
                    end_ ← read_priority (Z.land (Z.shiftr value (3 + 8)) 255);
                    Ok (Some (start, end_))
                  else Ok None);
    let reliability := if negb (Z.land tag 4 =? 0)
                       then Some (reliability_from (Z.land (Z.shiftr value (3 + 8 + 8)) 1 =? 1)) else None in
    Ok (WithQoS reliability priorities)
  else Err InvalidQoS.
Definition QoS_to_u64 (self : QoS) : Z :=
  match self with
  | NoQoS => 0
  | WithQoS None None => 1
  | WithQoS reliability priorities =>
      let value := match priorities with
                   | Some (start, end_) => Z.lor (Z.lor (Z.lor 0 2) (Z.shiftl start 3)) (Z.shiftl end_ (3 + 8))
                   | None => 0
                   end in
      match reliability with
      | Some r => Z.lor (Z.lor value 4) (Z.shiftl (Z.b2z (reliability_bool r)) (3 + 8 + 8))
      | None => value
      end
  end.
(** The extensions [QoS] (present or not) and [QoSLink]. *)
Definition to_exts (self : QoS) : bool * option Z :=
  match self with
  | NoQoS => (false, None)
  | WithQoS None None => (true, None)
  | _ => (false, Some (QoS_to_u64 self))
  end.
Definition try_from_exts (exts : bool * option Z) : EstResult QoS :=
  match exts with
  | (true, Some _) => Err BothQoS
  | (true, None) => Ok (WithQoS None None)
  | (false, Some value) => QoS_try_from_u64 value
  | (false, None) => Ok NoQoS
  end.
Definition is_qos (self : QoS) : bool := match self with NoQoS => false | WithQoS _ _ => true end.
Definition qos_priorities (self : QoS) : option (Z * Z) := match self with NoQoS => None | WithQoS _ p => p end.
Definition qos_reliability (self : QoS) : option Reliability := match self with NoQoS => None | WithQoS r _ => r end.
Definition merge_reliability (mine other : option Reliability) : EstResult (option Reliability) :=
  match mine, other with
  | None, r => Ok r
  | r, None => Ok r
  | Some a, Some b => if bool_decide (a = b) then Ok (Some a) else Err ReliabilityRefused
  end.
(** The opener's range has to be part of what the acceptor answers; it stays with its own. *)
Definition qos_recv_init_ack (self : QoS) (exts : bool * option Z) : EstResult QoS :=
  other ← try_from_exts exts;
  match self, other with
  | WithQoS self_reliability self_priorities, WithQoS other_reliability other_priorities =>
      priorities ← match self_priorities, other_priorities with
                   | None, p => Ok p
                   | p, None => Ok p
                   | Some s, Some o => if range_includes o s then Ok (Some s) else Err PriorityRefused
                   end;
      reliability ← merge_reliability self_reliability other_reliability;
      Ok (WithQoS reliability priorities)
  | _, _ => Ok NoQoS
  end.
(** The acceptor takes the opener's range when it is part of its own. *)
Definition qos_recv_init_syn (self : QoS) (exts : bool * option Z) : EstResult QoS :=
  other ← try_from_exts exts;
  match self, other with
  | WithQoS self_reliability self_priorities, WithQoS other_reliability other_priorities =>
      priorities ← match self_priorities, other_priorities with
                   | None, p => Ok p
                   | p, None => Ok p
                   | Some s, Some o => if range_includes s o then Ok (Some o) else Err PriorityRefused
                   end;
      reliability ← merge_reliability self_reliability other_reliability;
      Ok (WithQoS reliability priorities)
  | _, _ => Ok NoQoS
  end.
End QoS.

(** ** The other extensions *)
(** Low latency and compression: an extension that is there or not, and a flag both ends have to set. *)
Definition lowlatency_send_init_syn (state : bool) : bool := state.
Definition lowlatency_recv_init_ack (state other : bool) : bool := state && other.
Definition lowlatency_recv_init_syn (state other : bool) : bool := state && other.
Definition lowlatency_send_init_ack (state : bool) : bool := state.
Definition compression_send_init_syn (state : bool) : bool := state.
Definition compression_recv_init_ack (state other : bool) : bool := state && other.
Definition compression_recv_init_syn (state other : bool) : bool := state && other.
Definition compression_send_init_ack (state : bool) : bool := state.
Section Patch.
Context `{ZenohProtocol}.
Definition patch_send_init_syn : Z := PATCH_CURRENT.
Definition patch_recv_init_ack (other : Z) : EstResult Z := if PATCH_CURRENT <? other then Err PatchTooNew else Ok other.
Definition patch_recv_init_syn (other : Z) : EstResult Z := Ok other.
Definition patch_send_init_ack (patch : Z) : Z := Z.min PATCH_CURRENT patch.
(** [name_to_ext] and [ext_to_name]: the bytes of a name. *)
Definition name_to_ext (name : string) : string := name.
Definition ext_to_name (ext : string) : EstResult string :=
  if negb (region_utf8 ext) then Err InvalidRegionName else if region_name_try_from ext then Ok ext else Err InvalidRegionName.
Definition region_recv (ext : option string) : EstResult (option string) :=
  match ext with None => Ok None | Some e => n ← ext_to_name e; Ok (Some n) end.
End Patch.

(** The traits [OpenFsm] and [AcceptFsm] for one extension: the operations of the two sides over their states.  What is sent
    is the body of the extension. *)
Record ExtFsm := mkExtFsm {
  x_open : Type;
  x_accept : Type;
  x_id : Type;
  x_send_init_syn : x_open -> EstResult (option string);
  x_recv_init_ack : x_open -> option string -> EstResult x_open;
  x_send_open_syn : x_open -> EstResult (option string);
  x_recv_open_ack : x_open -> option string -> EstResult x_open;
  x_recv_init_syn : x_accept -> option string -> EstResult x_accept;
  x_send_init_ack : x_accept -> EstResult (option string);
  x_recv_open_syn : x_accept -> option string -> EstResult (x_accept * x_id);
  x_send_open_ack : x_accept -> EstResult (option string);
  x_open_key : x_open -> option string;
  x_accept_key : x_accept -> option string;
}.
(** Authentication, multilink, and whether the feature [auth_usrpwd] is on. *)
Class Extensions := { auth : ExtFsm; mlink : ExtFsm; auth_usrpwd : bool }.

(** ** Messages *)
Section Messages.
Context `{ZenohProtocol}.
Record InitSyn := mkInitSyn {
  is_version : Z;
  is_whatami : WhatAmI;
  is_zid : string;
  is_batch_size : Z;
  is_resolution : Resolution;
  is_ext_qos : bool * option Z;
  is_ext_auth : option string;
  is_ext_mlink : option string;
  is_ext_lowlatency : bool;
  is_ext_compression : bool;
  is_ext_patch : Z;
  is_ext_region_name : option string;
}.
Record InitAck := mkInitAck {
  ia_version : Z;
  ia_whatami : WhatAmI;
  ia_zid : string;
  ia_resolution : Resolution;
  ia_batch_size : Z;
  ia_cookie : string;
  ia_ext_qos : bool * option Z;
  ia_ext_auth : option string;
  ia_ext_mlink : option string;
  ia_ext_lowlatency : bool;
  ia_ext_compression : bool;
  ia_ext_patch : Z;
  ia_ext_region_name : option string;
}.
(** QoS, low latency and compression have an extension of the last two messages too, which is never sent. *)
Record OpenSyn := mkOpenSyn {
  os_lease : Z;
  os_initial_sn : Z;
  os_cookie : string;
  os_ext_qos : bool;
  os_ext_auth : option string;
  os_ext_mlink : option string;
  os_ext_south : option Z;
}.
Record OpenAck := mkOpenAck {
  oa_lease : Z;
  oa_initial_sn : Z;
  oa_ext_qos : bool;
  oa_ext_auth : option string;
  oa_ext_mlink : option string;
  oa_ext_south : option Z;
}.
Inductive HsBody : Type :=
| BInitSyn (m : InitSyn)
| BInitAck (m : InitAck)
| BOpenSyn (m : OpenSyn)
| BOpenAck (m : OpenAck)
| BClose (reason : CloseReason)
| BOther.
(** What an end does to the link: a message, or closing it with the reason that is sent before. *)
Inductive Wire : Type := Sent (m : HsBody) | LinkClosed (reason : option CloseReason).
(** [TransportPeer], as the bound callback sees it. *)
Record Peer := mkPeer { pe_zid : string; pe_whatami : WhatAmI; pe_is_qos : bool; pe_region_name : option string }.
End Messages.

(** ** The manager and its link *)
Section Manager.
Context `{ZenohProtocol, Extensions}.
Record Manager := mkManager {
  mg_version : Z;
  mg_zid : string;
  mg_whatami : WhatAmI;
  mg_batch_size : Z;
  mg_resolution : Resolution;
  mg_is_qos : bool;
  mg_is_lowlatency : bool;
  mg_is_compression : bool;
  mg_lease : Z;
  mg_region_name : option string;
  mg_bound_callback : option (Peer -> EstResult (option Bound));
  mg_auth_open : x_open auth;
  mg_mlink_open : x_open mlink;
  mg_auth_accept : x_accept auth;
  mg_mlink_accept : x_accept mlink;
}.
(** A link and, when reliability is mixed, the MTU and streaming of its best-effort companion. *)
Record Link := mkLink { lk_mtu : Z; lk_is_streamed : bool; lk_best_effort : option (Z * bool) }.
Record LinkConfig := mkLinkConfig {
  lc_mtu : Z;
  lc_is_streamed : bool;
  lc_is_compression : bool;
  lc_priorities : option (Z * Z);
  lc_reliability : option Reliability;
}.
(** [TransportConfigUnicast] and the configurations of the links, with what the peer said of its numbers and lease. *)
Record Established := mkEstablished {
  es_zid : string;
  es_whatami : WhatAmI;
  es_bound : option Bound;
  es_sn_resolution : Bits;
  es_tx_initial_sn : Z;
  es_is_qos : bool;
  es_multilink : option string;
  es_is_lowlatency : bool;
  es_auth_id : option (x_id auth);
  es_patch : Z;
  es_region_name : option string;
  es_link : LinkConfig;
  es_best_effort : option LinkConfig;
  es_other_initial_sn : Z;
  es_other_lease : Z;
}.
Record OpenState := mkOpenState {
  op_batch_size : Z;
  op_resolution : Resolution;
  op_qos : QoS;
  op_mlink : x_open mlink;
  op_lowlatency : bool;
  op_patch : Z;
  op_region_name : option string;
  op_auth : x_open auth;
  op_compression : bool;
}.
Record AcceptState := mkAcceptState {
  ac_batch_size : Z;
  ac_resolution : Resolution;
  ac_qos : QoS;
  ac_mlink : x_accept mlink;
  ac_lowlatency : bool;
  ac_patch : Z;
  ac_region_name : option string;
  ac_auth : x_accept auth;
  ac_compression : bool;
}.

(** ** The initial sequence number *)
(** [TransportSn::from_le_bytes]. *)
Fixpoint le_value (bytes : string) : Z :=
  match bytes with EmptyString => 0 | String c rest => Z.of_nat (nat_of_ascii c) + 256 * le_value rest end.
Context `{SnWidth}.
Definition compute_sn (zid1 zid2 : string) (resolution : Resolution) : Z :=
  Z.land (as_sn (le_value (shake128 (zid1 ++ zid2) (Z.to_nat (sn_width / 8))))) (get_mask (res_frame_sn resolution)).

(** ** The cookie *)
Record Cookie := mkCookie {
  ck_zid : string;
  ck_whatami : WhatAmI;
  ck_resolution : Resolution;
  ck_batch_size : Z;
  ck_nonce : Z;
  ck_qos : QoS;
  ck_mlink : x_accept mlink;
  ck_auth : x_accept auth;
  ck_lowlatency : bool;
  ck_compression : bool;
  ck_patch : Z;
  ck_region_name : option string;
}.
(** [Zenoh080]: what it writes, and what it reads with the rest; [ZenohIdProto] and the states of the extensions have codecs
    of their own. *)
Class CookieCodec := {
  put_zid : string -> string;
  get_zid : string -> option (string * string);
  put_u8 : Z -> string;
  get_u8 : string -> option (Z * string);
  put_u16 : Z -> string;
  get_u16 : string -> option (Z * string);
  put_u64 : Z -> string;
  get_u64 : string -> option (Z * string);
  put_str : string -> string;
  get_str : string -> option (string * string);
  put_auth : x_accept auth -> string;
  get_auth : string -> option (x_accept auth * string);
  put_mlink : x_accept mlink -> string;
  get_mlink : string -> option (x_accept mlink * string);
  put_slice : string -> string;
  get_slice : string -> option (string * string);
  resolution_u8 : Resolution -> Z;
  resolution_from : Z -> Resolution;
  encrypt : string -> string;
  decrypt : string -> option string;
}.
(** Everything reads back; the cipher pads what it encrypts. *)
Class CookieCodecSpec `{CookieCodec} : Prop := {
  zid_reads : forall z rest, get_zid (put_zid z ++ rest) = Some (z, rest);
  u8_reads : forall n rest, 0 <= n < 256 -> get_u8 (put_u8 n ++ rest) = Some (n, rest);
  u16_reads : forall n rest, 0 <= n < 2 ^ 16 -> get_u16 (put_u16 n ++ rest) = Some (n, rest);
  u64_reads : forall n rest, 0 <= n < 2 ^ 64 -> get_u64 (put_u64 n ++ rest) = Some (n, rest);
  str_reads : forall s rest, get_str (put_str s ++ rest) = Some (s, rest);
  auth_reads : forall a rest, get_auth (put_auth a ++ rest) = Some (a, rest);
  mlink_reads : forall a rest, get_mlink (put_mlink a ++ rest) = Some (a, rest);
  slice_reads : forall s rest, get_slice (put_slice s ++ rest) = Some (s, rest);
  resolution_reads : forall r, 0 <= resolution_u8 r < 256 /\ resolution_from (resolution_u8 r) = r;
  decrypts : forall s, exists padding, decrypt (encrypt s) = Some (s ++ padding);
}.
Context `{CookieCodec}.
Definition put_flag (b : bool) : string := put_u8 (Z.b2z b).
Definition get_flag (s : string) : option (bool * string) := '(n, s) ← get_u8 s; Some (n =? 1, s).
Definition put_region (name : option string) : string := put_str (match name with Some n => n | None => "" end).
Definition get_region (s : string) : option (option string * string) :=
  '(n, s) ← get_str s;
  if is_empty n then Some (None, s) else if region_name_try_from n then Some (Some n, s) else None.
Definition put_qos (q : QoS) : string := put_u64 (QoS_to_u64 q).
Definition get_qos (s : string) : option (QoS * string) :=
  '(n, s) ← get_u64 s; match QoS_try_from_u64 n with Ok q => Some (q, s) | Err _ => None end.
Definition cookie_write (c : Cookie) : string :=
  put_zid (ck_zid c) ++ put_u8 (whatami_u8 (ck_whatami c)) ++ put_u8 (resolution_u8 (ck_resolution c)) ++ put_u16 (ck_batch_size c)
  ++ put_u64 (ck_nonce c) ++ put_qos (ck_qos c) ++ put_mlink (ck_mlink c) ++ put_auth (ck_auth c) ++ put_flag (ck_lowlatency c)
  ++ put_flag (ck_compression c) ++ put_u8 (ck_patch c) ++ put_region (ck_region_name c).
Definition cookie_read (s : string) : option (Cookie * string) :=
  '(zid, s) ← get_zid s;
  '(wai, s) ← get_u8 s;
  whatami ← whatami_try_from wai;
  '(resolution, s) ← get_u8 s;
  '(batch_size, s) ← get_u16 s;
  '(nonce, s) ← get_u64 s;
  '(qos, s) ← get_qos s;
  '(ml, s) ← get_mlink s;
  '(au, s) ← get_auth s;
  '(lowlatency, s) ← get_flag s;
  '(compression, s) ← get_flag s;
  '(patch, s) ← get_u8 s;
  '(region, s) ← get_region s;
  Some (mkCookie zid whatami (resolution_from resolution) batch_size nonce qos ml au lowlatency compression patch region, s).
Definition cookie_seal (c : Cookie) : string := put_slice (encrypt (cookie_write c)).
Definition cookie_unseal (s : string) : option Cookie :=
  '(bytes, _) ← get_slice s; plain ← decrypt bytes; '(c, _) ← cookie_read plain; Some c.

(** ** The opener *)
Definition batch_limit (m : Manager) (mtu : Z) : Z := Z.min (Z.min (mg_batch_size m) mtu) BATCH_UNICAST.
Definition OpenState_new (m : Manager) (link : Link) (endpoint : Metadata) : EstResult OpenState :=
  qos ← QoS_new (mg_is_qos m) endpoint;
  Ok (mkOpenState (batch_limit m (lk_mtu link)) (mg_resolution m) qos (mg_mlink_open m) (mg_is_lowlatency m) PATCH_NONE None
        (mg_auth_open m) (mg_is_compression m)).
(** [sent] says whether the link took the message. *)
Definition open_send_init_syn (m : Manager) (st : OpenState) (sent : bool) : HsResult InitSyn :=
  ext_auth ← with_reason GENERIC (x_send_init_syn auth (op_auth st));
  ext_mlink ← with_reason GENERIC (x_send_init_syn mlink (op_mlink st));
  let msg := mkInitSyn (mg_version m) (mg_whatami m) (mg_zid m) (op_batch_size st) (op_resolution st) (to_exts (op_qos st))
               ext_auth ext_mlink (lowlatency_send_init_syn (op_lowlatency st)) (compression_send_init_syn (op_compression st)) patch_send_init_syn (name_to_ext <$> mg_region_name m) in
  _ ← ensure sent (LinkFailed, Some GENERIC);
  Ok msg.
(** The opener refuses a resolution above the one it offered. *)
Definition open_resolution (mine : Resolution) (answered : Resolution) : HsResult Resolution :=
  if Bits_rank (res_frame_sn mine) <? Bits_rank (res_frame_sn answered) then Err (FrameSnTooLarge, Some INVALID) else
  if Bits_rank (res_request_id mine) <? Bits_rank (res_request_id answered) then Err (RequestIdTooLarge, Some INVALID) else
  Ok (mkResolution (res_frame_sn answered) (res_request_id answered)).
(** [None] is a message that did not arrive. *)
Definition open_recv_init_ack (st : OpenState) (msg : option HsBody) : HsResult (InitAck * OpenState) :=
  init_ack ← match msg with
             | None => Err (LinkFailed, Some INVALID)
             | Some (BInitAck a) => Ok a
             | Some (BClose reason) => Err (PeerClosed reason, None)
             | Some _ => Err (WrongMessage, Some INVALID)
             end;
  resolution ← open_resolution (op_resolution st) (ia_resolution init_ack);
  let batch_size := Z.min (op_batch_size st) (ia_batch_size init_ack) in
  qos ← with_reason GENERIC (qos_recv_init_ack (op_qos st) (ia_ext_qos init_ack));
  au ← with_reason GENERIC (x_recv_init_ack auth (op_auth st) (ia_ext_auth init_ack));
  ml ← with_reason GENERIC (x_recv_init_ack mlink (op_mlink st) (ia_ext_mlink init_ack));
  let lowlatency := lowlatency_recv_init_ack (op_lowlatency st) (ia_ext_lowlatency init_ack) in
  let compression := compression_recv_init_ack (op_compression st) (ia_ext_compression init_ack) in
  patch ← with_reason GENERIC (patch_recv_init_ack (ia_ext_patch init_ack));
  region ← with_reason GENERIC (region_recv (ia_ext_region_name init_ack));
  Ok (init_ack, mkOpenState batch_size resolution qos ml lowlatency patch region au compression).
(** The bound the callback gives for the peer, as it is sent. *)
Definition south (m : Manager) (peer : Peer) : HsResult (option Z) :=
  match mg_bound_callback m with
  | None => Ok None
  | Some callback => bound ← with_reason GENERIC (callback peer); Ok (fmap (M:=option) bound_u8 bound)
  end.
Definition read_bound (ext : option Z) : HsResult (option Bound) :=
  match ext with
  | None => Ok None
  | Some value => b ← ok_or (bound_try_from (value mod 256)) (InvalidBound, Some GENERIC); Ok (Some b)
  end.
(** [send_open_syn] of QoS always answers [None], and that is what the peer's [is_qos] is made of. *)
Definition qos_send_open (self : QoS) : bool := false.
Definition open_send_open_syn (m : Manager) (st : OpenState) (ack : InitAck) (sent : bool) : HsResult OpenSyn :=
  let ext_qos := qos_send_open (op_qos st) in
  ext_auth ← with_reason GENERIC (x_send_open_syn auth (op_auth st));
  ext_mlink ← with_reason GENERIC (x_send_open_syn mlink (op_mlink st));
  ext_south ← south m (mkPeer (ia_zid ack) (ia_whatami ack) ext_qos (op_region_name st));
  let mine_initial_sn := compute_sn (mg_zid m) (ia_zid ack) (op_resolution st) in
  let msg := mkOpenSyn (mg_lease m) mine_initial_sn (ia_cookie ack) ext_qos ext_auth ext_mlink ext_south in
  _ ← ensure sent (LinkFailed, Some GENERIC);
  Ok msg.
Definition open_recv_open_ack (st : OpenState) (msg : option HsBody) : HsResult (OpenAck * option Bound * OpenState) :=
  open_ack ← match msg with
             | None => Err (LinkFailed, Some INVALID)
             | Some (BOpenAck a) => Ok a
             | Some (BClose reason) => Err (PeerClosed reason, None)
             | Some _ => Err (WrongMessage, Some INVALID)
             end;
  au ← with_reason GENERIC (x_recv_open_ack auth (op_auth st) (oa_ext_auth open_ack));
  ml ← with_reason GENERIC (x_recv_open_ack mlink (op_mlink st) (oa_ext_mlink open_ack));
  other_bound ← read_bound (oa_ext_south open_ack);
  Ok (open_ack, other_bound,
      mkOpenState (op_batch_size st) (op_resolution st) (op_qos st) ml (op_lowlatency st) (op_patch st) (op_region_name st) au (op_compression st)).

(** The macro [step!]: an error closes the link. *)
Definition step {A B} (r : HsResult A) (log : list Wire) (k : A -> EstResult B * list Wire) : EstResult B * list Wire :=
  match r with Ok a => k a | Err (e, reason) => (Err e, log ++ [LinkClosed reason])%list end.
Definition best_effort_config (m : Manager) (link : Link) (compression : bool) (qos : QoS) : option LinkConfig :=
  (fun '(mtu, streamed) => mkLinkConfig (batch_limit m mtu) streamed compression (qos_priorities qos) None) <$> lk_best_effort link.
(** What the link does with the messages of the opener, and what it brings. *)
Record OpenIo := mkOpenIo { oi_init_syn : bool; oi_init_ack : option HsBody; oi_open_syn : bool; oi_open_ack : option HsBody }.
(** [open_link] up to [init_transport_unicast], which is given the result. *)
Definition open_link (m : Manager) (link : Link) (endpoint : Metadata) (io : OpenIo) : EstResult Established * list Wire :=
  match OpenState_new m link endpoint with
  | Err e => (Err e, [])
  | Ok st =>
      step (open_send_init_syn m st (oi_init_syn io)) [] (fun syn => let log := [Sent (BInitSyn syn)] in
      step (open_recv_init_ack st (oi_init_ack io)) log (fun '(ack, st) =>
      step (open_send_open_syn m st ack (oi_open_syn io)) log (fun osyn => let log := (log ++ [Sent (BOpenSyn osyn)])%list in
      step (open_recv_open_ack st (oi_open_ack io)) log (fun '(oack, other_bound, st) =>
        (Ok (mkEstablished (ia_zid ack) (ia_whatami ack) other_bound (res_frame_sn (op_resolution st)) (os_initial_sn osyn)
               (is_qos (op_qos st)) (x_open_key mlink (op_mlink st)) (op_lowlatency st) None (op_patch st) (op_region_name st)
               (mkLinkConfig (Z.min (lk_mtu link) (op_batch_size st)) (lk_is_streamed link) (op_compression st)
                  (qos_priorities (op_qos st)) (qos_reliability (op_qos st)))
               (best_effort_config m link (op_compression st) (op_qos st)) (oa_initial_sn oack) (oa_lease oack)), log)))))
  end.

(** ** The acceptor *)
Definition AcceptState_new (m : Manager) (link : Link) (endpoint : Metadata) : EstResult AcceptState :=
  qos ← QoS_new (mg_is_qos m) endpoint;
  Ok (mkAcceptState (batch_limit m (lk_mtu link)) (mg_resolution m) qos (mg_mlink_accept m) (mg_is_lowlatency m) PATCH_NONE None
        (mg_auth_accept m) (mg_is_compression m)).
Definition accept_recv_init_syn (m : Manager) (st : AcceptState) (msg : option HsBody) : HsResult (InitSyn * AcceptState) :=
  init_syn ← match msg with
             | None => Err (LinkFailed, Some INVALID)
             | Some (BInitSyn s) => Ok s
             | Some _ => Err (WrongMessage, Some INVALID)
             end;
  _ ← ensure (is_version init_syn =? mg_version m) (WrongVersion, Some INVALID);
  let resolution := mkResolution (Bits_min (res_frame_sn (is_resolution init_syn)) (res_frame_sn (ac_resolution st)))
                      (Bits_min (res_request_id (is_resolution init_syn)) (res_request_id (ac_resolution st))) in
  let batch_size := Z.min (Z.min (ac_batch_size st) (is_batch_size init_syn)) BATCH_UNICAST in
  qos ← with_reason GENERIC (qos_recv_init_syn (ac_qos st) (is_ext_qos init_syn));
  au ← with_reason GENERIC (x_recv_init_syn auth (ac_auth st) (is_ext_auth init_syn));
  ml ← with_reason GENERIC (x_recv_init_syn mlink (ac_mlink st) (is_ext_mlink init_syn));
  let lowlatency := lowlatency_recv_init_syn (ac_lowlatency st) (is_ext_lowlatency init_syn) in
  let compression := compression_recv_init_syn (ac_compression st) (is_ext_compression init_syn) in
  patch ← with_reason GENERIC (patch_recv_init_syn (is_ext_patch init_syn));
  region ← with_reason GENERIC (region_recv (is_ext_region_name init_syn));
  Ok (init_syn, mkAcceptState batch_size resolution qos ml lowlatency patch region au compression).
Definition state_cookie (st : AcceptState) (syn : InitSyn) (nonce : Z) : Cookie :=
  mkCookie (is_zid syn) (is_whatami syn) (ac_resolution st) (ac_batch_size st) nonce (ac_qos st) (ac_mlink st) (ac_auth st)
    (ac_lowlatency st) (ac_compression st) (ac_patch st) (ac_region_name st).
(** [nonce] is drawn from the random numbers of the manager.  The cookie is written to a buffer that grows, which does not fail. *)
Definition accept_send_init_ack (m : Manager) (st : AcceptState) (syn : InitSyn) (nonce : Z) (sent : bool) : HsResult InitAck :=
  ext_auth ← with_reason GENERIC (x_send_init_ack auth (ac_auth st));
  ext_mlink ← with_reason GENERIC (x_send_init_ack mlink (ac_mlink st));
  let msg := mkInitAck (mg_version m) (mg_whatami m) (mg_zid m) (ac_resolution st) (ac_batch_size st)
               (cookie_seal (state_cookie st syn nonce)) (to_exts (ac_qos st)) ext_auth ext_mlink (lowlatency_send_init_ack (ac_lowlatency st))
               (compression_send_init_ack (ac_compression st)) (patch_send_init_ack (ac_patch st)) (name_to_ext <$> mg_region_name m) in
  _ ← ensure sent (LinkFailed, Some GENERIC);
  Ok msg.
Record RecvOpenSyn := mkRecvOpenSyn {
  ro_zid : string;
  ro_whatami : WhatAmI;
  ro_bound : option Bound;
  ro_lease : Z;
  ro_initial_sn : Z;
  ro_auth_id : option (x_id auth);
}.
(** The state is the one in the cookie.  Without [auth_usrpwd] the authentication is not asked. *)
Definition accept_recv_open_syn (nonce : Z) (msg : option HsBody) : HsResult (AcceptState * RecvOpenSyn) :=
  open_syn ← match msg with
             | None => Err (LinkFailed, Some INVALID)
             | Some (BOpenSyn s) => Ok s
             | Some (BClose reason) => Err (PeerClosed reason, Some reason)
             | Some _ => Err (WrongMessage, Some INVALID)
             end;
  cookie ← ok_or (cookie_unseal (os_cookie open_syn)) (CookieUnreadable, Some INVALID);
  _ ← ensure (nonce =? ck_nonce cookie) (UnknownCookie, Some INVALID);
  '(au, id) ← (if auth_usrpwd
               then '(a, i) ← with_reason GENERIC (x_recv_open_syn auth (ck_auth cookie) (os_ext_auth open_syn)); Ok (a, Some i)
               else Ok (ck_auth cookie, None));
  '(ml, _) ← with_reason GENERIC (x_recv_open_syn mlink (ck_mlink cookie) (os_ext_mlink open_syn));
  other_bound ← read_bound (os_ext_south open_syn);
  Ok (mkAcceptState (ck_batch_size cookie) (ck_resolution cookie) (ck_qos cookie) ml (ck_lowlatency cookie) (ck_patch cookie)
        (ck_region_name cookie) au (ck_compression cookie),
      mkRecvOpenSyn (ck_zid cookie) (ck_whatami cookie) other_bound (os_lease open_syn) (os_initial_sn open_syn) id).
Definition accept_send_open_ack (m : Manager) (st : AcceptState) (syn : RecvOpenSyn) : HsResult OpenAck :=
  let ext_qos := qos_send_open (ac_qos st) in
  ext_auth ← with_reason GENERIC (x_send_open_ack auth (ac_auth st));
  ext_mlink ← with_reason GENERIC (x_send_open_ack mlink (ac_mlink st));
  ext_south ← south m (mkPeer (ro_zid syn) (ro_whatami syn) ext_qos (ac_region_name st));
  let mine_initial_sn := compute_sn (mg_zid m) (ro_zid syn) (ac_resolution st) in
  Ok (mkOpenAck (mg_lease m) mine_initial_sn ext_qos ext_auth ext_mlink ext_south).
Record AcceptIo := mkAcceptIo { ai_init_syn : option HsBody; ai_init_ack : bool; ai_open_syn : option HsBody }.
(** [accept_link] up to [init_transport_unicast], which is given the result and sends the [OpenAck] in it. *)
Definition accept_link (m : Manager) (link : Link) (endpoint : Metadata) (nonce : Z) (io : AcceptIo)
    : EstResult (Established * OpenAck) * list Wire :=
  match AcceptState_new m link endpoint with
  | Err e => (Err e, [])
  | Ok st =>
      step (accept_recv_init_syn m st (ai_init_syn io)) [] (fun '(syn, st) =>
      step (accept_send_init_ack m st syn nonce (ai_init_ack io)) [] (fun ack => let log := [Sent (BInitAck ack)] in
      step (accept_recv_open_syn nonce (ai_open_syn io)) log (fun '(st, osyn) =>
      step (accept_send_open_ack m st osyn) log (fun oack =>
        (Ok (mkEstablished (ro_zid osyn) (ro_whatami osyn) (ro_bound osyn) (res_frame_sn (ac_resolution st)) (oa_initial_sn oack)
               (is_qos (ac_qos st)) (x_accept_key mlink (ac_mlink st)) (ac_lowlatency st) (ro_auth_id osyn) (ac_patch st)
               (ac_region_name st)
               (mkLinkConfig (Z.min (lk_mtu link) (ac_batch_size st)) (lk_is_streamed link) (ac_compression st)
                  (qos_priorities (ac_qos st)) (qos_reliability (ac_qos st)))
               (best_effort_config m link (ac_compression st) (ac_qos st)) (ro_initial_sn osyn) (ro_lease osyn), oack), log)))))
  end.
End Manager.

(** ** Quality of service survives its encoding *)
Section QoSTheory.
Context `{ZenohProtocol, !ZenohProtocolSpec}.
Definition valid_qos (q : QoS) : Prop :=
  forall r, qos_priorities q = Some r -> priority_try_from r.1 = true /\ priority_try_from r.2 = true.
Lemma lor_shiftl a b k : 0 <= k -> 0 <= a < 2 ^ k -> 0 <= b -> Z.lor a (Z.shiftl b k) = a + b * 2 ^ k.
Proof.
  intros Hk Ha Hb. assert (Hl : Z.land a (Z.shiftl b k) = 0).
  { apply Z.bits_inj'. intros n Hn. rewrite Z.land_spec, Z.bits_0, Z.shiftl_spec by done. destruct (Z.lt_ge_cases n k).
    - by rewrite (Z.testbit_neg_r b (n - k)), andb_false_r by lia.
    - by rewrite <- (Z.mod_small a (2 ^ k)), Z.mod_pow2_bits_high by lia. }
  rewrite <- Z.shiftl_mul_pow2 by done. by rewrite <- Z.lxor_lor, <- Z.add_nocarry_lxor by done.
Qed.
(** The three low bits are the tag. *)
Lemma tag_bits t m : 0 <= t < 8 -> 0 <= m -> Z.land (t + 8 * m) 7 = t /\ Z.land (t + 8 * m) 6 = Z.land t 6.
Proof.
  intros Ht Hm. assert (E : Z.land (t + 8 * m) 7 = t).
  { change 7 with (Z.ones 3). rewrite Z.land_ones by lia. change (2 ^ 3) with 8. rewrite Z.mul_comm, Z.mod_add by lia. by apply Z.mod_small. }
  split; [done|]. change 6 with (Z.land 7 6) at 1. by rewrite Z.land_assoc, E.
Qed.
Lemma byte_at n v : 0 <= n -> Z.land (Z.shiftr v n) 255 = (v / 2 ^ n) mod 256.
Proof. intros Hn. change 255 with (Z.ones 8). by rewrite Z.land_ones, Z.shiftr_div_pow2 by lia. Qed.
Lemma QoS_to_u64_value r s e b : 0 <= s < 256 -> 0 <= e < 256 ->
  QoS_to_u64 (WithQoS None (Some (s, e))) = 2 + 8 * (s + 256 * e) /\
  (reliability_bool r = b -> QoS_to_u64 (WithQoS (Some r) (Some (s, e))) = 6 + 8 * (s + 256 * e + 2 ^ 16 * Z.b2z b)).
Proof.
  intros Hs He. cbn [QoS_to_u64]. change (Z.lor 0 2) with 2.
  rewrite (lor_shiftl 2 s 3) by lia. rewrite (lor_shiftl (2 + s * 2 ^ 3) e (3 + 8)) by lia. split; [lia|]. intros ->.
  replace (2 + s * 2 ^ 3 + e * 2 ^ (3 + 8)) with (2 + (s + 256 * e) * 2 ^ 3) by lia.
  rewrite <- (lor_shiftl 2 (s + 256 * e) 3), <- (Z.lor_assoc 2), (Z.lor_comm _ 4), Z.lor_assoc by lia. change (Z.lor 2 4) with 6.
  rewrite (lor_shiftl 6) by lia. rewrite lor_shiftl by (destruct b; simpl; lia). lia.
Qed.
Lemma QoS_decode t s e b : 2 <= t < 8 -> 0 <= s < 256 -> 0 <= e < 256 -> Z.land t 6 <> 0 ->
  QoS_try_from_u64 (t + 8 * (s + 256 * e + 2 ^ 16 * Z.b2z b)) =
  (priorities ← (if negb (Z.land t 2 =? 0) then start ← read_priority s; end_ ← read_priority e; Ok (Some (start, end_)) else Ok None);
   Ok (WithQoS (if negb (Z.land t 4 =? 0) then Some (reliability_from b) else None) priorities)).
Proof.
  intros Ht Hs He H6. assert (Hb : 0 <= Z.b2z b <= 1) by (destruct b; simpl; lia). unfold QoS_try_from_u64.
  rewrite !(proj2 (Z.eqb_neq _ _)) by lia. destruct (tag_bits t (s + 256 * e + 2 ^ 16 * Z.b2z b)) as [-> ->]; [lia..|].
  rewrite (proj2 (Z.eqb_neq (Z.land t 6) 0)) by done. cbn [negb]. cbv zeta. rewrite !byte_at by lia.
  set (v := t + 8 * (s + 256 * e + 2 ^ 16 * Z.b2z b)).
  assert (v / 2 ^ 3 mod 256 = s) as ->. { subst v. Z.div_mod_to_equations. lia. }
  assert (v / 2 ^ (3 + 8) mod 256 = e) as ->. { subst v. change (2 ^ (3 + 8)) with 2048. Z.div_mod_to_equations. lia. }
  assert ((Z.land (Z.shiftr v (3 + 8 + 8)) 1 =? 1) = b) as ->; [|done].
  change 1 with (Z.ones 1) at 1. rewrite Z.land_ones, Z.shiftr_div_pow2 by lia.
  assert (v / 2 ^ (3 + 8 + 8) = Z.b2z b) as ->. { subst v. change (2 ^ (3 + 8 + 8)) with 524288. Z.div_mod_to_equations. lia. }
  by destruct b.
Qed.
Lemma QoS_roundtrip q : valid_qos q -> QoS_try_from_u64 (QoS_to_u64 q) = Ok q /\ 0 <= QoS_to_u64 q < 2 ^ 64.
Proof.
  intros Hq. destruct q as [|[r|] [[s e]|]]; try done.
  - destruct (Hq (s, e) eq_refl) as [Hs He]. cbn [fst snd] in Hs, He. pose proof (priority_byte _ Hs). pose proof (priority_byte _ He).
    destruct (QoS_to_u64_value r s e (reliability_bool r)) as [_ E]; [done..|]. rewrite (E eq_refl).
    assert (0 <= Z.b2z (reliability_bool r) <= 1) by (destruct (reliability_bool r); simpl; lia). split; [|lia].
    rewrite QoS_decode by done. unfold read_priority. rewrite Hs, He. simpl. by rewrite reliability_roundtrip.
  - assert (E : QoS_to_u64 (WithQoS (Some r) None) = 4 + 8 * (0 + 256 * 0 + 2 ^ 16 * Z.b2z (reliability_bool r))).
    { cbn [QoS_to_u64]. change (Z.lor 0 4) with 4. rewrite lor_shiftl by (destruct (reliability_bool r); simpl; lia). lia. }
    rewrite E. assert (0 <= Z.b2z (reliability_bool r) <= 1) by (destruct (reliability_bool r); simpl; lia). split; [|lia].
    rewrite QoS_decode by done. simpl. by rewrite reliability_roundtrip.
  - destruct (Hq (s, e) eq_refl) as [Hs He]. cbn [fst snd] in Hs, He. pose proof (priority_byte _ Hs). pose proof (priority_byte _ He).
    destruct (QoS_to_u64_value Reliable s e false) as [-> _]; [done..|]. split; [|lia].
    pose proof (QoS_decode 2 s e false) as E. simpl Z.b2z in E. rewrite Z.mul_0_r, Z.add_0_r in E. rewrite E by done.
    unfold read_priority. by rewrite Hs, He.
Qed.
Lemma exts_roundtrip q : valid_qos q -> try_from_exts (to_exts q) = Ok q.
Proof. intros Hq. destruct q as [|[r|] [p|]]; try done; by apply QoS_roundtrip. Qed.
Lemma valid_exts exts q : try_from_exts exts = Ok q -> valid_qos q.
Proof.
  destruct exts as [[] [v|]]; simpl; try (intros [= <-]; done). unfold QoS_try_from_u64, read_priority.
  repeat case_match; simpl; intros [= <-]; intros r; simpl; naive_solver.
Qed.
Lemma QoS_new_valid on endpoint q : QoS_new on endpoint = Ok q -> valid_qos q.
Proof.
  unfold QoS_new. destruct on; simpl; [|intros [= <-]; done]. intros Hq. apply bind_Ok in Hq as (rel & _ & Hq). apply bind_Ok in Hq as (p & Hp & [= <-]).
  intros r. simpl. intros ->. unfold parsed in Hp. destruct (md_priorities endpoint) as [s|]; [|done]. apply ok_or_bind_Ok in Hp as (x & Hx & [= ->]). by eapply range_parsed.
Qed.
Lemma qos_recv_init_syn_valid q exts q' : valid_qos q -> qos_recv_init_syn q exts = Ok q' -> valid_qos q'.
Proof.
  intros Hq Hr. unfold qos_recv_init_syn in Hr. apply bind_Ok in Hr as (o & Ho & Hr). apply valid_exts in Ho.
  destruct q as [|ra pa], o as [|ro po]; try (injection Hr as <-; done).
  apply bind_Ok in Hr as (p & Hp & Hr). apply bind_Ok in Hr as (x & _ & [= <-]). intros r Hr. cbn [qos_priorities] in Hr.
  destruct pa as [pa|], po as [po|]; repeat case_match; simplify_eq; first [by apply Ho|by apply Hq].
Qed.
(** Priorities and reliability within what both endpoints' metadata say: an endpoint that names a range or a reliability
    gets a part of that range and that very reliability, and what is used was named by one of the two. *)
Definition endpoint_allows (e : Metadata) (priorities : option (Z * Z)) (reliability : option Reliability) : Prop :=
  (forall text, md_priorities e = Some text -> exists range p, range_from_str text = Some range /\ priorities = Some p /\
     range_includes range p = true) /\
  (forall text, md_reliability e = Some text -> exists r, reliability_from_str text = Some r /\ reliability = Some r).
Definition allowed_qos (eo ea : Metadata) (priorities : option (Z * Z)) (reliability : option Reliability) : Prop :=
  endpoint_allows eo priorities reliability /\ endpoint_allows ea priorities reliability /\
  (forall p, priorities = Some p -> exists text, (md_priorities eo = Some text \/ md_priorities ea = Some text) /\ range_from_str text = Some p) /\
  (forall r, reliability = Some r -> exists text, (md_reliability eo = Some text \/ md_reliability ea = Some text) /\ reliability_from_str text = Some r).
Lemma parsed_Ok {A} (parse : string -> option A) text a : parsed parse text = Ok a ->
  match text with Some s => exists x, parse s = Some x /\ a = Some x | None => a = None end.
Proof. unfold parsed. destruct text as [s|]; [|by intros [= <-]]. destruct (parse s) as [x|]; [|done]. intros [= <-]. eauto. Qed.
Lemma merge_reliability_Ok mine other r : merge_reliability mine other = Ok r ->
  (forall x, mine = Some x -> r = Some x) /\ (forall x, other = Some x -> r = Some x) /\ (r = mine \/ r = other).
Proof.
  unfold merge_reliability. destruct mine as [a|], other as [b|]; [|intros [= <-]; split_and!; naive_solver..].
  case_bool_decide as E; [|done]. subst b. intros [= <-]. split_and!; naive_solver.
Qed.
Lemma qos_within on_o eo qo on_a ea qa q : QoS_new on_o eo = Ok qo -> QoS_new on_a ea = Ok qa -> valid_qos qo ->
  qos_recv_init_syn qa (to_exts qo) = Ok q ->
  is_qos q = on_o && on_a /\ (is_qos q = true -> allowed_qos eo ea (qos_priorities q) (qos_reliability q)).
Proof.
  unfold QoS_new. intros Ho Ha Hv Hq. unfold qos_recv_init_syn in Hq. rewrite exts_roundtrip in Hq by done. cbn [mbind result_bind] in Hq.
  destruct on_o; simpl in Ho; [|injection Ho as <-; destruct qa; by injection Hq as <-].
  destruct on_a; simpl in Ha; [|injection Ha as <-; by injection Hq as <-].
  apply bind_Ok in Ho as (ro & Hro%parsed_Ok & Ho). apply bind_Ok in Ho as (po & Hpo%parsed_Ok & [= <-]).
  apply bind_Ok in Ha as (ra & Hra%parsed_Ok & Ha). apply bind_Ok in Ha as (pa & Hpa%parsed_Ok & [= <-]).
  apply bind_Ok in Hq as (p & Hp & Hq). apply bind_Ok in Hq as (r & (Hm1 & Hm2 & Hm)%merge_reliability_Ok & [= <-]). simpl.
  split; [done|]. intros _.
  assert ((forall x, po = Some x -> p = Some x) /\ (forall x, pa = Some x -> exists y, p = Some y /\ range_includes x y = true) /\ (p = po \/ p = pa)) as (Hp1 & Hp2 & Hp3).
  { destruct pa as [x|], po as [y|]; [destruct (range_includes x y) eqn:E; [|done]|..]; injection Hp as <-; split_and!; try naive_solver.
    intros z [= <-]. exists x. split; [done|apply range_includes_refl]. }
  unfold allowed_qos, endpoint_allows. split_and!.
  - intros text E. rewrite E in Hpo. destruct Hpo as (x & Hx & ->). exists x, x. split_and!; [done|by apply Hp1|apply range_includes_refl].
  - intros text E. rewrite E in Hro. destruct Hro as (x & Hx & ->). exists x. split; [done|by apply Hm2].
  - intros text E. rewrite E in Hpa. destruct Hpa as (x & Hx & ->). destruct (Hp2 x eq_refl) as (y & Hy & Hi). by exists x, y.
  - intros text E. rewrite E in Hra. destruct Hra as (x & Hx & ->). exists x. split; [done|by apply Hm1].
  - intros x ->. destruct Hp3 as [E|E].
    + subst po. destruct (md_priorities eo) as [text|]; [|done]. destruct Hpo as (y & Hy & [= ->]). eauto.
    + subst pa. destruct (md_priorities ea) as [text|]; [|done]. destruct Hpa as (y & Hy & [= ->]). eauto.
  - intros x ->. destruct Hm as [E|E].
    + subst ra. destruct (md_reliability ea) as [text|]; [|done]. destruct Hra as (y & Hy & [= ->]). eauto.
    + subst ro. destruct (md_reliability eo) as [text|]; [|done]. destruct Hro as (y & Hy & [= ->]). eauto.
Qed.
(** The acceptor merges what the opener offers, and the opener ends with the same from the answer. *)
Lemma qos_agreement qo qa0 qa : valid_qos qo -> valid_qos qa0 -> qos_recv_init_syn qa0 (to_exts qo) = Ok qa ->
  valid_qos qa /\ qos_recv_init_ack qo (to_exts qa) = Ok qa.
Proof.
  intros Ho Ha0 Hm. pose proof (qos_recv_init_syn_valid _ _ _ Ha0 Hm) as Hv. unfold qos_recv_init_syn, qos_recv_init_ack in *.
  rewrite exts_roundtrip in Hm by done. cbn [mbind result_bind] in Hm.
  split; [done|]. rewrite exts_roundtrip by done. cbn [mbind result_bind].
  destruct qa0 as [|ra pa], qo as [|ro po]; try (injection Hm as <-; by try destruct ro). apply bind_Ok in Hm as (p & Hp & Hm). apply bind_Ok in Hm as (x & Hx & [= <-]).
  destruct pa as [pa|], po as [po|], ra as [ra|], ro as [ro|]; unfold merge_reliability in *;
    repeat case_bool_decide; repeat case_match; simplify_eq/=; rewrite ?range_includes_refl; simpl; repeat case_bool_decide; try done;
    by match goal with E : range_includes ?p ?p = false |- _ => rewrite range_includes_refl in E end.
Qed.
End QoSTheory.

(** ** The cookie reads back *)
Section CookieTheory.
Context `{ZenohProtocol, !ZenohProtocolSpec, Extensions, !CookieCodec, !CookieCodecSpec}.
Record valid_cookie (c : Cookie) : Prop := {
  vc_batch : 0 <= ck_batch_size c < 2 ^ 16;
  vc_nonce : 0 <= ck_nonce c < 2 ^ 64;
  vc_qos : valid_qos (ck_qos c);
  vc_patch : 0 <= ck_patch c < 256;
  vc_region : forall n, ck_region_name c = Some n -> region_name_try_from n = true;
}.
Lemma flag_reads b rest : get_flag (put_flag b ++ rest) = Some (b, rest).
Proof. unfold get_flag, put_flag. rewrite u8_reads by (destruct b; simpl; lia). by destruct b. Qed.
Lemma qos_reads q rest : valid_qos q -> get_qos (put_qos q ++ rest) = Some (q, rest).
Proof. intros Hq. destruct (QoS_roundtrip q Hq) as [E Hr]. unfold get_qos, put_qos. rewrite u64_reads by done. simpl. by rewrite E. Qed.
Lemma region_reads name rest : (forall n, name = Some n -> region_name_try_from n = true) ->
  get_region (put_region name ++ rest) = Some (name, rest).
Proof.
  intros Hn. unfold get_region, put_region. rewrite str_reads. destruct name as [n|]; simpl; [|done].
  pose proof (Hn n eq_refl) as Hv. by rewrite (region_name_nonempty n Hv), Hv.
Qed.
Lemma cookie_reads c rest : valid_cookie c -> cookie_read (cookie_write c ++ rest) = Some (c, rest).
Proof.
  intros [Hb Hn Hq Hp Hr]. unfold cookie_read, cookie_write. rewrite <- !string_app_assoc.
  rewrite zid_reads. simpl. destruct (whatami_byte (ck_whatami c)) as [Hw1 Hw2]. rewrite u8_reads by done. simpl. rewrite Hw2. simpl.
  destruct (resolution_reads (ck_resolution c)) as [Hr1 Hr2]. rewrite u8_reads by done. simpl.
  rewrite u16_reads by done. simpl. rewrite u64_reads by done. simpl. rewrite qos_reads by done. simpl.
  rewrite mlink_reads. simpl. rewrite auth_reads. simpl. rewrite flag_reads. simpl. rewrite flag_reads. simpl.
  rewrite u8_reads by done. simpl. rewrite region_reads by done. simpl. rewrite Hr2. by destruct c.
Qed.
Lemma cookie_roundtrip c : valid_cookie c -> cookie_unseal (cookie_seal c) = Some c.
Proof.
  intros Hc. unfold cookie_unseal, cookie_seal. pose proof (slice_reads (encrypt (cookie_write c)) "") as Es.
  rewrite string_app_nil in Es. rewrite Es. simpl. destruct (decrypts (cookie_write c)) as [pad ->]. simpl.
  by rewrite cookie_reads.
Qed.
End CookieTheory.

(** ** Both ends of a handshake *)
Lemma step_Ok {A B} `{ZenohProtocol} (r : HsResult A) log (k : A -> EstResult B * list Wire) b w :
  step r log k = (Ok b, w) <-> exists a, r = Ok a /\ k a = (Ok b, w).
Proof. destruct r as [a|[e reason]]; simpl; naive_solver. Qed.
Lemma with_reason_Ok {A} reason (r : EstResult A) a : with_reason reason r = Ok a <-> r = Ok a.
Proof. destruct r; simpl; naive_solver. Qed.
Lemma Bits_min_rank a b : Bits_rank (Bits_min a b) = Z.min (Bits_rank a) (Bits_rank b).
Proof. unfold Bits_min. destruct (Z.leb_spec (Bits_rank a) (Bits_rank b)); lia. Qed.
(** Succeeding steps, taken apart. *)
Ltac hs_inv H :=
  repeat match type of H with
  | mbind _ (with_reason _ _) = Ok _ =>
      let a := fresh "a" in let E := fresh "E" in
      apply bind_Ok in H; destruct H as (a & E & H); apply with_reason_Ok in E; cbv beta zeta iota in H
  | mbind _ (ensure _ _) = Ok _ => let E := fresh "E" in apply ensure_bind_Ok in H; destruct H as [E H]; cbv beta zeta iota in H
  | mbind _ (ok_or _ _) = Ok _ =>
      let a := fresh "a" in let E := fresh "E" in apply ok_or_bind_Ok in H; destruct H as (a & E & H); cbv beta zeta iota in H
  | mbind _ _ = Ok _ => let a := fresh "a" in let E := fresh "E" in apply bind_Ok in H; destruct H as (a & E & H); cbv beta zeta iota in H
  | step _ _ _ = (Ok _, _) => let a := fresh "a" in let E := fresh "E" in apply step_Ok in H; destruct H as (a & E & H); cbv beta zeta iota in H
  | (let '(_, _) := ?p in _) = _ => destruct p; cbv beta zeta iota in H
  end.
Section Handshake.
Context `{ZenohProtocol, !ZenohProtocolSpec, Extensions, SnWidth, !SnWidthSpec, !CookieCodec, !CookieCodecSpec}.
(** The link delivers every message of one end to the other. *)
Definition connected (io : OpenIo) (ai : AcceptIo) (wo wa : list Wire) (oack : OpenAck) : Prop :=
  exists syn ack osyn, wo = [Sent (BInitSyn syn); Sent (BOpenSyn osyn)] /\ wa = [Sent (BInitAck ack)] /\
    ai_init_syn ai = Some (BInitSyn syn) /\ oi_init_ack io = Some (BInitAck ack) /\
    ai_open_syn ai = Some (BOpenSyn osyn) /\ oi_open_ack io = Some (BOpenAck oack).
(** The types of a configuration: sizes are of 16 bits. *)
Definition sized (m : Manager) (link : Link) : Prop := 0 <= mg_batch_size m < 2 ^ 16 /\ 0 <= lk_mtu link < 2 ^ 16.
Record agreement (mo : Manager) (lo : Link) (eo : Metadata) (ma : Manager) (la : Link) (ea : Metadata) (co ca : Established) : Prop := {
  ag_zids : es_zid co = mg_zid ma /\ es_zid ca = mg_zid mo;
  ag_whatami : es_whatami co = mg_whatami ma /\ es_whatami ca = mg_whatami mo;
  ag_leases : es_other_lease co = mg_lease ma /\ es_other_lease ca = mg_lease mo;
  ag_regions : es_region_name co = mg_region_name ma /\ es_region_name ca = mg_region_name mo;
  ag_resolution : es_sn_resolution co = es_sn_resolution ca /\
    Bits_rank (es_sn_resolution co) = Z.min (Bits_rank (res_frame_sn (mg_resolution mo))) (Bits_rank (res_frame_sn (mg_resolution ma)));
  ag_numbers : es_other_initial_sn co = es_tx_initial_sn ca /\ es_other_initial_sn ca = es_tx_initial_sn co;
  ag_numbers_ok : is_ok (SeqNum_make (es_tx_initial_sn co) (es_sn_resolution co)) = true /\
    is_ok (SeqNum_make (es_tx_initial_sn ca) (es_sn_resolution ca)) = true;
  ag_mtu : lc_mtu (es_link co) = lc_mtu (es_link ca) /\ lc_mtu (es_link co) <= Z.min (mg_batch_size mo) (mg_batch_size ma) /\
    lc_mtu (es_link co) <= Z.min (lk_mtu lo) (lk_mtu la);
  ag_qos : es_is_qos co = mg_is_qos mo && mg_is_qos ma /\ es_is_qos ca = es_is_qos co /\
    lc_priorities (es_link co) = lc_priorities (es_link ca) /\ lc_reliability (es_link co) = lc_reliability (es_link ca) /\
    (es_is_qos co = true -> allowed_qos eo ea (lc_priorities (es_link co)) (lc_reliability (es_link co)));
  ag_lowlatency : es_is_lowlatency co = mg_is_lowlatency mo && mg_is_lowlatency ma /\ es_is_lowlatency ca = es_is_lowlatency co;
  ag_compression : lc_is_compression (es_link co) = mg_is_compression mo && mg_is_compression ma /\
    lc_is_compression (es_link ca) = lc_is_compression (es_link co);
  ag_patch : es_patch co = PATCH_CURRENT /\ es_patch ca = PATCH_CURRENT;
}.
Lemma compute_sn_ok zid1 zid2 r : is_ok (SeqNum_make (compute_sn zid1 zid2 r) (res_frame_sn r)) = true.
Proof.
  unfold compute_sn, SeqNum_make, SeqNum_set. cbn [sn_mask]. rewrite get_mask_ones. pose proof (exponent_range (res_frame_sn r)).
  set (x := as_sn _). assert (0 <= Z.land x (Z.ones (exponent (res_frame_sn r))) < 2 ^ exponent (res_frame_sn r)).
  { rewrite Z.land_ones by lia. apply Z.mod_pos_bound, Z.pow_pos_nonneg; lia. }
  destruct (outside_ones (exponent (res_frame_sn r)) (Z.land x (Z.ones (exponent (res_frame_sn r))))) as [_ Ho]; [lia..|].
  by rewrite Ho by lia.
Qed.
Lemma region_recv_Ok ext n : region_recv ext = Ok n -> n = ext /\ forall x, n = Some x -> region_name_try_from x = true.
Proof.
  destruct ext as [e|]; simpl; [|intros [= <-]; done]. unfold ext_to_name. destruct (region_utf8 e); [|done]. simpl.
  destruct (region_name_try_from e) eqn:E; simpl; [|done]. intros [= <-]. naive_solver.
Qed.
Lemma name_ext_id (name : option string) : name_to_ext <$> name = name.
Proof. by destruct name. Qed.
Lemma qos_merge_on q0 exts q : qos_recv_init_ack q0 exts = Ok q -> is_qos q = true -> is_qos q0 = true.
Proof. unfold qos_recv_init_ack. intros Hq Hi. apply bind_Ok in Hq as (o & _ & Hq). destruct q0; [|done]. by injection Hq as <-. Qed.
Lemma qos_accept_on q0 exts q : qos_recv_init_syn q0 exts = Ok q -> is_qos q = true -> is_qos q0 = true.
Proof. unfold qos_recv_init_syn. intros Hq Hi. apply bind_Ok in Hq as (o & _ & Hq). destruct q0; [|done]. by injection Hq as <-. Qed.
Lemma open_resolution_Ok mine answered r : open_resolution mine answered = Ok r -> r = answered.
Proof. unfold open_resolution. repeat case_match; try done. intros [= <-]. by destruct answered. Qed.
Lemma QoS_new_on on endpoint q : QoS_new on endpoint = Ok q -> is_qos q = true -> on = true.
Proof. unfold QoS_new. destruct on; [done|]. by intros [= <-]. Qed.
(** The cookie of an acceptor that took an [InitSyn] from an opener of the same protocol reads back. *)
Lemma state_cookie_valid m link endpoint st0 syn st nonce msg : sized m link -> AcceptState_new m link endpoint = Ok st0 ->
  accept_recv_init_syn m st0 msg = Ok (syn, st) -> 0 <= is_batch_size syn -> 0 <= is_ext_patch syn < 256 -> 0 <= nonce < 2 ^ 64 ->
  valid_cookie (state_cookie st syn nonce).
Proof.
  intros [Hm Hl] Hn Hr Hb Hp Hx. pose proof batch_u16 as Hu. unfold AcceptState_new in Hn. hs_inv Hn. injection Hn as <-.
  unfold accept_recv_init_syn in Hr. hs_inv Hr. unfold patch_recv_init_syn, batch_limit in *. simplify_eq/=. split; simpl; [lia|lia| |done|].
  - eapply qos_recv_init_syn_valid; [by eapply QoS_new_valid|done].
  - by eapply region_recv_Ok.
Qed.
(** After the first two messages both ends hold the same state. *)
Record init_agreed (mo : Manager) (lo : Link) (eo : Metadata) (ma : Manager) (la : Link) (ea : Metadata) (o : OpenState) (a : AcceptState) : Prop := {
  in_batch : op_batch_size o = ac_batch_size a /\ ac_batch_size a <= Z.min (mg_batch_size mo) (mg_batch_size ma) /\
    ac_batch_size a <= Z.min (lk_mtu lo) (lk_mtu la);
  in_resolution : op_resolution o = ac_resolution a /\
    Bits_rank (res_frame_sn (ac_resolution a)) = Z.min (Bits_rank (res_frame_sn (mg_resolution mo))) (Bits_rank (res_frame_sn (mg_resolution ma)));
  in_qos : op_qos o = ac_qos a /\ is_qos (ac_qos a) = mg_is_qos mo && mg_is_qos ma /\
    (is_qos (ac_qos a) = true -> allowed_qos eo ea (qos_priorities (ac_qos a)) (qos_reliability (ac_qos a)));
  in_lowlatency : op_lowlatency o = mg_is_lowlatency mo && mg_is_lowlatency ma /\ ac_lowlatency a = op_lowlatency o;
  in_compression : op_compression o = mg_is_compression mo && mg_is_compression ma /\ ac_compression a = op_compression o;
  in_patch : op_patch o = PATCH_CURRENT /\ ac_patch a = PATCH_CURRENT;
  in_regions : op_region_name o = mg_region_name ma /\ ac_region_name a = mg_region_name mo;
}.
Lemma init_agreement mo lo eo so0 s1 syn ma la ea sa0 syn' a nonce s2 ack ack' o : sized mo lo -> sized ma la -> 0 <= nonce < 2 ^ 64 ->
  OpenState_new mo lo eo = Ok so0 -> open_send_init_syn mo so0 s1 = Ok syn ->
  AcceptState_new ma la ea = Ok sa0 -> accept_recv_init_syn ma sa0 (Some (BInitSyn syn)) = Ok (syn', a) ->
  accept_send_init_ack ma a syn' nonce s2 = Ok ack -> open_recv_init_ack so0 (Some (BInitAck ack)) = Ok (ack', o) ->
  init_agreed mo lo eo ma la ea o a /\ ack' = ack /\ ia_zid ack = mg_zid ma /\ ia_whatami ack = mg_whatami ma /\ is_zid syn = mg_zid mo /\
  is_whatami syn = mg_whatami mo /\ ia_cookie ack = cookie_seal (state_cookie a syn nonce) /\ valid_cookie (state_cookie a syn nonce).
Proof.
  intros Hso Hsa Hn Eso E1 Esa E2 E3 E4. pose proof (state_cookie_valid ma la ea sa0 syn' a nonce _ Hsa Esa E2) as Hc.
  pose proof batch_u16 as Hu. pose proof patch_byte as Hp. destruct Hso as [Hso1 Hso2], Hsa as [Hsa1 Hsa2].
  unfold OpenState_new in Eso. hs_inv Eso. injection Eso as <-. rename a0 into qo, E into Eqo.
  unfold AcceptState_new in Esa. hs_inv Esa. injection Esa as <-. rename a0 into qa, E into Eqa.
  unfold open_send_init_syn in E1. hs_inv E1. injection E1 as <-.
  unfold accept_recv_init_syn in E2. hs_inv E2. unfold patch_recv_init_syn in *. simplify_eq/=.
  unfold accept_send_init_ack in E3. hs_inv E3. injection E3 as <-.
  unfold open_recv_init_ack in E4. hs_inv E4. simplify_eq/=. unfold batch_limit, patch_send_init_syn, patch_send_init_ack in *.
  apply open_resolution_Ok in E10 as ->. destruct (qos_agreement qo qa a3) as [_ Eq]; [by eapply QoS_new_valid..|done|].
  rewrite Eq in E12. injection E12 as <-. rewrite Z.min_id in E15. unfold patch_recv_init_ack in E15. rewrite Z.ltb_irrefl in E15. injection E15 as <-.
  apply region_recv_Ok in E11 as [-> _]. apply region_recv_Ok in E16 as [-> _]. rewrite !name_ext_id in *.
  split_and!; try done; [|apply Hc; lia]. split; simpl; try done.
  - lia.
  - split; [done|]. apply Bits_min_rank.
  - split; [done|]. by eapply qos_within; [done|done|by eapply QoS_new_valid|].
  - unfold lowlatency_recv_init_ack, lowlatency_recv_init_syn. by destruct (mg_is_lowlatency mo), (mg_is_lowlatency ma).
  - unfold compression_recv_init_ack, compression_recv_init_syn. by destruct (mg_is_compression mo), (mg_is_compression ma).
Qed.
(** The acceptor goes on from its cookie as if it had kept its state, but for the two extensions. *)
Lemma open_syn_state nonce a syn osyn st r : valid_cookie (state_cookie a syn nonce) -> os_cookie osyn = cookie_seal (state_cookie a syn nonce) ->
  accept_recv_open_syn nonce (Some (BOpenSyn osyn)) = Ok (st, r) ->
  (exists ml au, st = mkAcceptState (ac_batch_size a) (ac_resolution a) (ac_qos a) ml (ac_lowlatency a) (ac_patch a) (ac_region_name a) au (ac_compression a)) /\
  ro_zid r = is_zid syn /\ ro_whatami r = is_whatami syn /\ ro_lease r = os_lease osyn /\ ro_initial_sn r = os_initial_sn osyn.
Proof.
  intros Hv Hc Hr. unfold accept_recv_open_syn in Hr. cbn [mbind result_bind] in Hr. rewrite Hc, cookie_roundtrip in Hr by done.
  hs_inv Hr. simplify_eq/=. by eauto 10.
Qed.
(** C31: an [open_link] and an [accept_link] that both succeed, each with the messages the other sent, end with the same
    transport: the peer's identity, role, lease and region are those the other manager is configured with, both use the lesser
    resolution of the two, the first numbers are exchanged and in range for it, and the batch size is the same and within what
    both managers and both links allow.  QoS, low latency and compression are on at both ends exactly when both managers have
    them on.  With QoS, both ends use the same priorities and reliability: a part of every range, and every reliability, that
    one of the two endpoints names, and none that neither names.  Both ends use the current patch level. *)
Theorem both_ends_agree mo lo eo io co wo ma la ea nonce ai ca oack wa :
  sized mo lo -> sized ma la -> 0 <= nonce < 2 ^ 64 ->
  open_link mo lo eo io = (Ok co, wo) -> accept_link ma la ea nonce ai = (Ok (ca, oack), wa) -> connected io ai wo wa oack ->
  agreement mo lo eo ma la ea co ca.
Proof.
  intros Hso Hsa Hn Ho Ha (syn & ack & osyn & -> & -> & Hi1 & Hi2 & Hi3 & Hi4).
  unfold open_link in Ho. destruct (OpenState_new mo lo eo) as [so0|] eqn:Eso; [|done]. hs_inv Ho.
  unfold accept_link in Ha. destruct (AcceptState_new ma la ea) as [sa0|] eqn:Esa; [|done]. hs_inv Ha.
  injection Ho as <- -> ->. injection Ha as <- -> ->. rewrite Hi1 in E3. rewrite Hi2 in E0. rewrite Hi3 in E5. rewrite Hi4 in E2.
  assert (i0 = syn) as ->. { unfold accept_recv_init_syn in E3. hs_inv E3. by simplify_eq/=. }
  destruct (init_agreement mo lo eo so0 (oi_init_syn io) syn ma la ea sa0 syn a1 nonce (ai_init_ack ai) ack i o) as (Hi & -> & Hz & Hw & Hz' & Hw' & Hck & Hv); try done.
  unfold open_send_open_syn in E1. hs_inv E1. injection E1 as <-. unfold open_recv_open_ack in E2. hs_inv E2. simplify_eq/=.
  apply (open_syn_state nonce a1 syn) in E5 as ((ml & au & ->) & Hr1 & Hr2 & Hr3 & Hr4); [|done|done].
  unfold accept_send_open_ack in E6. hs_inv E6. simplify_eq/=.
  destruct Hi as [Hb [Hres Hrk] [Hq Hq'] Hl Hcp Hpa [Hg1 Hg2]]. split; simpl; rewrite ?Hr1, ?Hr2, ?Hr3, ?Hr4, ?Hres, ?Hq; try done.
  - split; [apply compute_sn_ok|]. rewrite <- ?Hres. apply compute_sn_ok.
  - lia.
  - destruct Hq' as [Hq1 Hq2]. split_and!; done.
Qed.

(** ** Compatible peers connect *)
(** The acceptor's turn at the third message: it takes what it got, or, when it is not asked, stays as it is. *)
Definition open_taken (asked : bool) (x : ExtFsm) (a : x_accept x) (sent : option string) (a' : x_accept x) : Prop :=
  if asked then exists id, x_recv_open_syn x a sent = Ok (a', id) else a' = a.
(** The exchange of an extension, when both ends accept it. *)
Definition ext_runs (asked : bool) (x : ExtFsm) (o : x_open x) (a : x_accept x) : Prop :=
  exists i1 a1 i2 o1 s1 a2 s2 o2, x_send_init_syn x o = Ok i1 /\ x_recv_init_syn x a i1 = Ok a1 /\ x_send_init_ack x a1 = Ok i2 /\
    x_recv_init_ack x o i2 = Ok o1 /\ x_send_open_syn x o1 = Ok s1 /\ open_taken asked x a1 s1 a2 /\
    x_send_open_ack x a2 = Ok s2 /\ x_recv_open_ack x o1 s2 = Ok o2.
Definition regions_valid (m : Manager) : Prop :=
  forall n, mg_region_name m = Some n -> region_utf8 n = true /\ region_name_try_from n = true.
Definition bounds_answered (m : Manager) : Prop := forall callback peer, mg_bound_callback m = Some callback -> is_ok (callback peer) = true.
Record compatible (mo : Manager) (eo : Metadata) (ma : Manager) (ea : Metadata) : Prop := {
  cp_version : mg_version mo = mg_version ma;
  cp_qos : exists qo qa q, QoS_new (mg_is_qos mo) eo = Ok qo /\ QoS_new (mg_is_qos ma) ea = Ok qa /\ qos_recv_init_syn qa (to_exts qo) = Ok q;
  cp_auth : ext_runs auth_usrpwd auth (mg_auth_open mo) (mg_auth_accept ma);
  cp_mlink : ext_runs true mlink (mg_mlink_open mo) (mg_mlink_accept ma);
  cp_regions : regions_valid mo /\ regions_valid ma;
  cp_bounds : bounds_answered mo /\ bounds_answered ma;
}.
Lemma region_recv_own m : regions_valid m -> region_recv (name_to_ext <$> mg_region_name m) = Ok (mg_region_name m).
Proof.
  intros Hv. rewrite name_ext_id. destruct (mg_region_name m) as [n|] eqn:E; [|done]. destruct (Hv n E) as [Hu Hn].
  unfold region_recv, ext_to_name. by rewrite Hu, Hn.
Qed.
Lemma south_Ok m peer : bounds_answered m -> exists ext, south m peer = Ok ext /\ exists b, read_bound ext = Ok b.
Proof.
  intros Hv. unfold south. destruct (mg_bound_callback m) as [callback|] eqn:E; [|by eauto]. pose proof (Hv callback peer E) as Hb.
  destruct (callback peer) as [b|]; [|done]. simpl. eexists. split; [done|]. destruct b as [b|]; simpl; [|by eauto].
  destruct (bound_byte b) as [Hr Hb']. rewrite Z.mod_small, Hb' by done. by eauto.
Qed.
Lemma open_resolution_min mine other : open_resolution mine (mkResolution (Bits_min (res_frame_sn mine) (res_frame_sn other))
    (Bits_min (res_request_id mine) (res_request_id other))) =
  Ok (mkResolution (Bits_min (res_frame_sn mine) (res_frame_sn other)) (Bits_min (res_request_id mine) (res_request_id other))).
Proof. unfold open_resolution. cbn [res_frame_sn res_request_id]. rewrite !Bits_min_rank, !(proj2 (Z.ltb_ge _ _)) by lia. done. Qed.
(** The first two messages, when both ends take them. *)
Lemma init_completes mo lo eo ma la ea nonce : compatible mo eo ma ea ->
  exists so0 sa0 syn a ack o, OpenState_new mo lo eo = Ok so0 /\ AcceptState_new ma la ea = Ok sa0 /\
    open_send_init_syn mo so0 true = Ok syn /\ accept_recv_init_syn ma sa0 (Some (BInitSyn syn)) = Ok (syn, a) /\
    accept_send_init_ack ma a syn nonce true = Ok ack /\ open_recv_init_ack so0 (Some (BInitAck ack)) = Ok (ack, o) /\
    (exists a2 s1 s2 o2, x_send_open_syn auth (op_auth o) = Ok s1 /\ open_taken auth_usrpwd auth (ac_auth a) s1 a2 /\
       x_send_open_ack auth a2 = Ok s2 /\ x_recv_open_ack auth (op_auth o) s2 = Ok o2) /\
    (exists a2 s1 s2 o2, x_send_open_syn mlink (op_mlink o) = Ok s1 /\ open_taken true mlink (ac_mlink a) s1 a2 /\
       x_send_open_ack mlink a2 = Ok s2 /\ x_recv_open_ack mlink (op_mlink o) s2 = Ok o2).
Proof.
  intros [Hver (qo & qa & q & Hqo & Hqa & Hq) (i1 & a1 & i2 & o1 & s1 & a2 & s2 & o2 & A1 & A2 & A3 & A4 & A5 & A6 & A7 & A8)
    (j1 & b1 & j2 & p1 & t1 & b2 & t2 & p2 & B1 & B2 & B3 & B4 & B5 & B6 & B7 & B8) [Hro Hra] _].
  destruct (qos_agreement qo qa q) as [_ Eq]; [by eapply QoS_new_valid..|done|]. pose proof patch_byte as Hp.
  do 6 eexists. split_and!.
  - unfold OpenState_new. rewrite Hqo. reflexivity.
  - unfold AcceptState_new. rewrite Hqa. reflexivity.
  - unfold open_send_init_syn. cbn [op_auth op_mlink]. rewrite A1. cbn [with_reason mbind result_bind]. rewrite B1. reflexivity.
  - unfold accept_recv_init_syn. cbn. rewrite Hver, Z.eqb_refl. cbn. rewrite Hq. cbn. rewrite A2. cbn. rewrite B2. cbn.
    rewrite region_recv_own by done. reflexivity.
  - unfold accept_send_init_ack. cbn [ac_auth ac_mlink]. rewrite A3. cbn [with_reason mbind result_bind]. rewrite B3. reflexivity.
  - unfold open_recv_init_ack. cbn [mbind result_bind ia_resolution op_resolution ac_resolution]. rewrite open_resolution_min. cbn.
    rewrite Eq. cbn. rewrite A4. cbn. rewrite B4. cbn. unfold patch_send_init_ack, patch_recv_init_ack. rewrite Z.min_id, Z.ltb_irrefl. cbn.
    rewrite region_recv_own by done. reflexivity.
  - cbn. by eauto 12.
  - cbn. by eauto 12.
Qed.
(** C32: with and without the feature [auth_usrpwd] (without it the acceptor does not look at the authentication of the third
    message), two managers of the same protocol version whose QoS settings, authentication and multilink accept each other, with
    region names of the protocol and bound callbacks that answer, establish a transport over a link that delivers: there are
    runs of [open_link] and [accept_link], each receiving what the other sends, in which both succeed. *)
Theorem compatible_peers_connect mo lo eo ma la ea nonce : sized mo lo -> sized ma la -> 0 <= nonce < 2 ^ 64 ->
  compatible mo eo ma ea ->
  exists io ai co ca oack wo wa, open_link mo lo eo io = (Ok co, wo) /\ accept_link ma la ea nonce ai = (Ok (ca, oack), wa) /\
    connected io ai wo wa oack.
Proof.
  intros Hso Hsa Hn Hc. pose proof (cp_bounds _ _ _ _ Hc) as [Hbo Hba].
  destruct (init_completes mo lo eo ma la ea nonce Hc) as (so0 & sa0 & syn & a & ack & o & Eso & Esa & E1 & E2 & E3 & E4 &
    (a2 & s1 & s2 & o2 & A1 & A2 & A3 & A4) & (b2 & t1 & t2 & p2 & B1 & [jd B2] & B3 & B4)).
  destruct (init_agreement mo lo eo so0 true syn ma la ea sa0 syn a nonce true ack ack o) as (_ & _ & _ & _ & _ & _ & Hck & Hv); try done.
  destruct (south_Ok mo (mkPeer (ia_zid ack) (ia_whatami ack) false (op_region_name o)) Hbo) as (so & Eo & bo & Ebo).
  destruct (south_Ok ma (mkPeer (is_zid syn) (is_whatami syn) false (ac_region_name a)) Hba) as (sa & Ea & ba & Eba).
  eassert (E5 : open_send_open_syn mo o ack true = Ok _).
  { unfold open_send_open_syn. rewrite A1. cbn [with_reason mbind result_bind]. rewrite B1. cbn. unfold qos_send_open. rewrite Eo. reflexivity. }
  match type of E5 with _ = Ok ?m => set (osyn := m) in E5 end.
  assert (exists id, (if auth_usrpwd then '(x, i) ← with_reason GENERIC (x_recv_open_syn auth (ac_auth a) s1); Ok (x, Some i)
                      else Ok (ac_auth a, None)) = (Ok (a2, id) : HsResult _)) as [id A2'].
  { unfold open_taken in A2. destruct auth_usrpwd; [|subst a2; by eauto]. destruct A2 as [i ->]. simpl. by eauto. }
  eassert (E6 : accept_recv_open_syn nonce (Some (BOpenSyn osyn)) = Ok _).
  { unfold accept_recv_open_syn. cbn [mbind result_bind osyn os_cookie os_ext_auth os_ext_mlink os_ext_south].
    rewrite Hck, cookie_roundtrip by done. cbn. rewrite Z.eqb_refl. cbn. rewrite A2'. cbn. rewrite B2. cbn. rewrite Ebo. reflexivity. }
  match type of E6 with _ = Ok (?s, ?r) => set (st := s) in E6; set (ro := r) in E6 end.
  eassert (E7 : accept_send_open_ack ma st ro = Ok _).
  { unfold accept_send_open_ack. cbn. rewrite A3. cbn. rewrite B3. cbn. unfold qos_send_open. rewrite Ea. reflexivity. }
  match type of E7 with _ = Ok ?m => set (oack := m) in E7 end.
  eassert (E8 : open_recv_open_ack o (Some (BOpenAck oack)) = Ok _).
  { unfold open_recv_open_ack. cbn. rewrite A4. cbn. rewrite B4. cbn. rewrite Eba. reflexivity. }
  exists (mkOpenIo true (Some (BInitAck ack)) true (Some (BOpenAck oack))), (mkAcceptIo (Some (BInitSyn syn)) true (Some (BOpenSyn osyn))).
  do 2 eexists. exists oack. do 2 eexists. unfold open_link, accept_link. cbn [oi_init_syn oi_init_ack oi_open_syn oi_open_ack ai_init_syn ai_init_ack ai_open_syn].
  rewrite Eso, Esa, E1, E2. cbn [step]. rewrite E3, E4. cbn [step]. rewrite E5, E6. cbn [step]. rewrite E7, E8. cbn [step].
  split_and!; [done..|]. by exists syn, ack, osyn.
Qed.

(** ** Against any peer *)
(** Whatever it is answered, the opener stays within its own configuration, and the number it starts with is in range. *)
Lemma opener_is_not_widened m link endpoint io c w : open_link m link endpoint io = (Ok c, w) ->
  Bits_rank (es_sn_resolution c) <= Bits_rank (res_frame_sn (mg_resolution m)) /\ lc_mtu (es_link c) <= batch_limit m (lk_mtu link) /\
  es_patch c <= PATCH_CURRENT /\ (es_is_qos c = true -> mg_is_qos m = true) /\ (es_is_lowlatency c = true -> mg_is_lowlatency m = true) /\
  (lc_is_compression (es_link c) = true -> mg_is_compression m = true) /\ is_ok (SeqNum_make (es_tx_initial_sn c) (es_sn_resolution c)) = true.
Proof.
  intros Ho. unfold open_link in Ho. destruct (OpenState_new m link endpoint) as [st|] eqn:Est; [|done]. hs_inv Ho. simplify_eq.
  unfold OpenState_new in Est. hs_inv Est. injection Est as <-. unfold open_recv_init_ack in E0. hs_inv E0. simplify_eq/=.
  unfold open_send_open_syn in E1. hs_inv E1. injection E1 as <-. unfold open_recv_open_ack in E2. hs_inv E2. simplify_eq/=.
  unfold open_resolution, patch_recv_init_ack, lowlatency_recv_init_ack, compression_recv_init_ack in *. repeat case_match; simplify_eq/=. split_and!; try lia.
  - intros Hq. eapply QoS_new_on; [done|by eapply qos_merge_on].
  - by intros [? _]%andb_true_iff.
  - by intros [? _]%andb_true_iff.
  - apply (compute_sn_ok _ _ (mkResolution _ _)).
Qed.
(** An acceptor goes on only with a cookie that decrypts to its own nonce; with another, the link is closed. *)
Lemma foreign_cookie_is_refused m link endpoint nonce io osyn : ai_open_syn io = Some (BOpenSyn osyn) ->
  (forall c, cookie_unseal (os_cookie osyn) = Some c -> ck_nonce c <> nonce) ->
  is_ok (accept_link m link endpoint nonce io).1 = false.
Proof.
  intros Hi Hc. destruct (accept_link m link endpoint nonce io) as [[[c oack]|] w] eqn:Ha; [|done]. exfalso.
  unfold accept_link in Ha. destruct (AcceptState_new m link endpoint) as [st|]; [|done]. hs_inv Ha. rewrite Hi in E1.
  unfold accept_recv_open_syn in E1. cbn [mbind result_bind] in E1. apply ok_or_bind_Ok in E1 as (ck & Eck & E1).
  apply ensure_bind_Ok in E1 as [Hx _]. apply Z.eqb_eq in Hx. by apply (Hc ck).
Qed.
Definition with_callback (m : Manager) (callback : Peer -> EstResult (option Bound)) : Manager :=
  mkManager (mg_version m) (mg_zid m) (mg_whatami m) (mg_batch_size m) (mg_resolution m) (mg_is_qos m) (mg_is_lowlatency m)
    (mg_is_compression m) (mg_lease m) (mg_region_name m) (Some callback) (mg_auth_open m) (mg_mlink_open m) (mg_auth_accept m) (mg_mlink_accept m).
(** The callback that places a peer is told that it has no QoS even when QoS was agreed: what it would say of a peer with
    QoS does not matter. *)
Lemma bound_callback_never_sees_qos m callback callback' st ack sent : (forall p, pe_is_qos p = false -> callback p = callback' p) ->
  open_send_open_syn (with_callback m callback) st ack sent = open_send_open_syn (with_callback m callback') st ack sent.
Proof. intros Hc. unfold open_send_open_syn, south. cbn. by rewrite (Hc (mkPeer (ia_zid ack) (ia_whatami ack) (qos_send_open (op_qos st)) (op_region_name st))). Qed.
(** Without the feature [auth_usrpwd], what the opener proves of itself in the [OpenSyn] is not looked at. *)
Lemma open_syn_authentication_is_skipped nonce osyn proof : auth_usrpwd = false ->
  accept_recv_open_syn nonce (Some (BOpenSyn osyn)) =
  accept_recv_open_syn nonce (Some (BOpenSyn (mkOpenSyn (os_lease osyn) (os_initial_sn osyn) (os_cookie osyn) (os_ext_qos osyn) proof (os_ext_mlink osyn) (os_ext_south osyn)))).
Proof. intros Hu. unfold accept_recv_open_syn. cbn. by rewrite Hu. Qed.
End Handshake.

(** ** A handshake *)
Module HandshakeToy.
#[local] Instance toy_width : SnWidth := 32.
#[local] Instance toy_width_spec : SnWidthSpec. Proof. by left. Qed.
#[local] Instance toy_protocol : ZenohProtocol := {
  WhatAmI := bool; Bound := bool; BATCH_UNICAST := 65535; PATCH_NONE := 0; PATCH_CURRENT := 1;
  priority_try_from p := (0 <=? p) && (p <? 8);
  range_includes a b := (a.1 <=? b.1) && (b.2 <=? a.2);
  reliability_from b := if b then Reliable else BestEffort;
  reliability_bool r := match r with Reliable => true | BestEffort => false end;
  reliability_from_str s := if String.eqb s "reliable" then Some Reliable else None;
  range_from_str s := if String.eqb s "1-3" then Some (1, 3) else None;
  region_utf8 _ := true; region_name_try_from n := negb (is_empty n);
  bound_u8 b := Z.b2z b; bound_try_from n := if n =? 0 then Some false else if n =? 1 then Some true else None;
  whatami_u8 b := Z.b2z b; whatami_try_from n := if n =? 0 then Some false else if n =? 1 then Some true else None;
  shake128 s n := string_of_list_ascii (replicate n "k"%char) }.
#[local] Instance toy_protocol_spec : ZenohProtocolSpec.
Proof.
  split; simpl.
  - intros p Hp. bools. lia.
  - intros [a b]. simpl. by rewrite !Z.leb_refl.
  - by intros [].
  - intros n. by destruct (is_empty n).
  - intros []; simpl; (split; [lia|done]).
  - intros []; simpl; (split; [lia|done]).
  - lia.
  - lia.
  - intros s r. destruct (String.eqb s "1-3"); [|done]. by intros [= <-].
Qed.
Definition no_ext : ExtFsm := mkExtFsm unit unit unit (fun _ => Ok None) (fun _ _ => Ok tt) (fun _ => Ok None) (fun _ _ => Ok tt)
  (fun _ _ => Ok tt) (fun _ => Ok None) (fun _ _ => Ok (tt, tt)) (fun _ => Ok None) (fun _ => None) (fun _ => None).
#[local] Instance toy_exts : Extensions := { auth := no_ext; mlink := no_ext; auth_usrpwd := true }.
(** Numbers and texts in codes of which none begins another. *)
Fixpoint put_pos (p : positive) : string :=
  match p with xH => "." | xO q => String "0" (put_pos q) | xI q => String "1" (put_pos q) end.
Fixpoint get_pos (s : string) : option (positive * string) :=
  match s with
  | EmptyString => None
  | String c rest => if Ascii.eqb c "." then Some (xH, rest) else
      '(p, rest) ← get_pos rest; Some ((if Ascii.eqb c "1" then xI p else xO p), rest)
  end.
Definition put_z (z : Z) : string := match z with Z0 => "z" | Zpos p => String "p" (put_pos p) | Zneg p => String "n" (put_pos p) end.
Definition get_z (s : string) : option (Z * string) :=
  match s with
  | EmptyString => None
  | String c rest => if Ascii.eqb c "z" then Some (0, rest) else
      '(p, rest) ← get_pos rest; Some ((if Ascii.eqb c "p" then Zpos p else Zneg p), rest)
  end.
Fixpoint put_text (s : string) : string := match s with EmptyString => "." | String c t => String "c" (String c (put_text t)) end.
Fixpoint get_text (s : string) : option (string * string) :=
  match s with
  | String "c" (String c rest) => '(t, rest) ← get_text rest; Some (String c t, rest)
  | String "." rest => Some (EmptyString, rest)
  | _ => None
  end.
Definition bits_of (n : Z) : Bits := if n =? 0 then BitsU8 else if n =? 1 then BitsU16 else if n =? 2 then BitsU32 else BitsU64.
#[local] Instance toy_codec : CookieCodec := {
  put_zid := put_text; get_zid := get_text; put_u8 := put_z; get_u8 := get_z; put_u16 := put_z; get_u16 := get_z; put_u64 := put_z;
  get_u64 := get_z; put_str := put_text; get_str := get_text; put_auth _ := ""; get_auth s := Some (tt, s); put_mlink _ := "";
  get_mlink s := Some (tt, s); put_slice := put_text; get_slice := get_text;
  resolution_u8 r := Bits_rank (res_frame_sn r) + 4 * Bits_rank (res_request_id r);
  resolution_from n := mkResolution (bits_of (n mod 4)) (bits_of (n / 4)); encrypt s := s; decrypt s := Some s }.
Lemma pos_reads p rest : get_pos (put_pos p ++ rest) = Some (p, rest).
Proof. induction p as [p IH|p IH|]; simpl; [by rewrite IH..|done]. Qed.
Lemma z_reads z rest : get_z (put_z z ++ rest) = Some (z, rest).
Proof. destruct z; simpl; by rewrite ?pos_reads. Qed.
Lemma text_reads s rest : get_text (put_text s ++ rest) = Some (s, rest).
Proof. induction s as [|c s IH]; simpl; [done|]. by rewrite IH. Qed.
#[local] Instance toy_codec_spec : CookieCodecSpec.
Proof.
  split; simpl; intros; rewrite ?z_reads, ?text_reads; try done.
  - by destruct a.
  - by destruct a.
  - by destruct r as [[] []].
  - exists "". by rewrite string_app_nil.
Qed.
Definition peer (zid : string) (batch : Z) (sn : Bits) (compression : bool) (region : option string) : Manager :=
  mkManager 9 zid true batch (mkResolution sn BitsU32) true false compression 10 region (Some (fun p => Ok (Some (pe_is_qos p)))) tt tt tt tt.
Definition opener : Manager := peer "opener" 4000 BitsU32 true (Some "north").
Definition acceptor : Manager := peer "acceptor" 3000 BitsU16 true None.
Definition wire : Link := mkLink 9000 true None.
Definition ranged : Metadata := mkMetadata None (Some "1-3").
Definition any : Metadata := mkMetadata None None.
(** What both send. *)
Definition agreed : Resolution := mkResolution BitsU16 BitsU32.
Definition agreed_qos : QoS := WithQoS None (Some (1, 3)).
Definition syn : InitSyn :=
  mkInitSyn 9 true "opener" 4000 (mkResolution BitsU32 BitsU32) (to_exts agreed_qos) None None false true 1 (Some "north").
Definition cookie : string := cookie_seal (mkCookie "opener" true agreed 3000 77 agreed_qos tt tt false true 1 (Some "north")).
Definition ack : InitAck := mkInitAck 9 true "acceptor" agreed 3000 cookie (to_exts agreed_qos) None None false true 1 None.
Definition osyn : OpenSyn := mkOpenSyn 10 (compute_sn "opener" "acceptor" agreed) cookie false None None (Some 0).
Definition oack : OpenAck := mkOpenAck 10 (compute_sn "acceptor" "opener" agreed) false None None (Some 0).
Definition open_io : OpenIo := mkOpenIo true (Some (BInitAck ack)) true (Some (BOpenAck oack)).
Definition accept_io (c : string) : AcceptIo :=
  mkAcceptIo (Some (BInitSyn syn)) true (Some (BOpenSyn (mkOpenSyn 10 (os_initial_sn osyn) c false None None (Some 0)))).
Lemma both_ends_agree_witness : exists co ca wo wa, open_link opener wire ranged open_io = (Ok co, wo) /\
  accept_link acceptor wire any 77 (accept_io cookie) = (Ok (ca, oack), wa) /\ agreement opener wire ranged acceptor wire any co ca /\ lc_mtu (es_link co) = 3000.
Proof.
  do 4 eexists. split; [vm_compute; reflexivity|]. split; [vm_compute; reflexivity|]. split; [|vm_compute; reflexivity].
  apply (both_ends_agree opener wire ranged open_io _ [Sent (BInitSyn syn); Sent (BOpenSyn osyn)] acceptor wire any 77 (accept_io cookie) _ oack
    [Sent (BInitAck ack)]); [split; simpl; lia|split; simpl; lia|lia|vm_compute; reflexivity|vm_compute; reflexivity|].
  exists syn, ack, osyn. by split_and!.
Defined.
Lemma compatible_peers_connect_witness : exists io ai co ca oack wo wa, open_link opener wire ranged io = (Ok co, wo) /\
  accept_link acceptor wire any 77 ai = (Ok (ca, oack), wa) /\ connected io ai wo wa oack.
Proof.
  apply (compatible_peers_connect opener wire ranged acceptor wire any 77); [split; simpl; lia|split; simpl; lia|lia|].
  split; [reflexivity| | | |split; intros n; [intros [= <-]; by split|done]|split; intros cb p [= <-]; reflexivity].
  - exists agreed_qos, (WithQoS None None), agreed_qos. by split_and!.
  - do 8 eexists. split_and!; try reflexivity. eexists. reflexivity.
  - do 8 eexists. split_and!; try reflexivity. eexists. reflexivity.
Defined.
(** A cookie of another handshake. *)
Example replayed_cookie_is_refused : accept_link acceptor wire any 78 (accept_io cookie) =
  (Err UnknownCookie, [Sent (BInitAck (mkInitAck 9 true "acceptor" agreed 3000
     (cookie_seal (mkCookie "opener" true agreed 3000 78 agreed_qos tt tt false true 1 (Some "north"))) (to_exts agreed_qos) None None false true 1 None));
     LinkClosed (Some INVALID)]).
Proof. vm_compute. reflexivity. Qed.
End HandshakeToy.
