(* ===== verification/RouterClient.v ===== *)
(** * The Controller's client of the Routers

    [crates/inari-server/src/managed_gateway/router_policy.rs]: [HttpsManagement], which carries a signed policy to a Router
    under the management credentials that are on disk at that moment, the loading of the admission controller, and its
    reconciliation at every tick.  HTTPS, PEM and JSON belong to other crates and are parameters. *)
From S2P Require Import Json Errors InvitationCode Schema RouterPolicy Security FleetPolicy AccessControl DataTls Supervisor ServerErrors.
From S2P Require Import AdmissionController GatewayConfig Framing Prelude.

Definition CONNECT_TIMEOUT : Z := seconds 3.
Definition REQUEST_TIMEOUT : Z := seconds 20.
Definition MAX_RESPONSE_BYTES : Z := 64 * 1024.

(** ** Clients *)
(** What [Client::builder] is told. *)
Record HttpsClient := mkHttpsClient {
  hc_https_only : bool;
  hc_roots : list string;
  hc_identity : string;
  hc_follows_redirects : bool;
  hc_uses_proxy : bool;
  hc_connect_timeout : Z;
  hc_timeout : Z;
  hc_idle_per_host : Z;
}.
Record ManagementClient := mkManagementClient { mc_material : string; mc_client : HttpsClient }.
Record HttpsManagement := mkHttpsManagement { hm_ca_file : string; hm_certificate_file : string; hm_private_key_file : string }.
Class HttpsCrates := {
  from_pem_bundle : string -> option (list string);
  identity_from_pem : string -> option string;
  builds : HttpsClient -> bool;
  address_join : string -> string -> option string;
  status_from_slice : string -> option RouterStatus;
}.
(** A response: its status and the chunks of its body, [None] for one that fails. *)
Record PolicyResponse := mkPolicyResponse { ps_status : Z; ps_chunks : list (option string) }.
(** What is sent: by which client, to which address, which policy. *)
Record PolicyRequest := mkPolicyRequest { pq_client : HttpsClient; pq_address : string; pq_policy : SignedPolicy }.
(** The cached client and what was sent, latest first. *)
Record Managed := mkManaged { md_current : option ManagementClient; md_sent : list PolicyRequest }.
Notation managed := (repo Managed AppError).

Section Client.
Context `{Sha256, HttpsCrates}.
Context (self : HttpsManagement).
(** The files at the time of a call. *)
Definition read_material (files : string -> option string) (path : string) : AppResult string := ok_or (files path) unavailable.
Definition client_material (roots identity : string) : string := sha256 (sha256 roots ++ identity).
Definition build_client (roots identity : string) : AppResult HttpsClient :=
  certificates ← ok_or (from_pem_bundle roots) unavailable;
  _ ← ensure (negb (bool_decide (certificates = []))) unavailable;
  id ← ok_or (identity_from_pem identity) unavailable;
  let client := mkHttpsClient true certificates id false false CONNECT_TIMEOUT REQUEST_TIMEOUT 1 in
  _ ← ensure (builds client) unavailable;
  Ok client.
Definition cached (material : string) (current : option ManagementClient) : option HttpsClient :=
  c ← current; if String.eqb (mc_material c) material then Some (mc_client c) else None.
Definition refresh (files : string -> option string) : managed HttpsClient := fun s =>
  match (roots ← read_material files (hm_ca_file self); certificate ← read_material files (hm_certificate_file self);
         key ← read_material files (hm_private_key_file self); Ok (roots, certificate ++ key)) with
  | Err e => (Err e, s)
  | Ok (roots, identity) =>
      let material := client_material roots identity in
      match cached material (md_current s) with
      | Some client => (Ok client, s)
      | None =>
          match build_client roots identity with
          | Err e => (Err e, s)
          | Ok client => (Ok client, mkManaged (Some (mkManagementClient material client)) (md_sent s))
          end
      end
  end.
(** A failure discards the cached client. *)
Definition client (files : string -> option string) : managed HttpsClient := fun s =>
  match refresh files s with
  | (Ok c, s) => (Ok c, s)
  | (Err e, s) => (Err e, mkManaged None (md_sent s))
  end.
(** [error_for_status]: a redirect is not an error of its own. *)
Definition is_error_status (status : Z) : bool := (400 <=? status) && (status <? 600).
Fixpoint read_chunks (bytes : string) (chunks : list (option string)) : AppResult string :=
  match chunks with
  | [] => Ok bytes
  | None :: _ => Err unavailable
  | Some chunk :: rest => if MAX_RESPONSE_BYTES <? str_len bytes + str_len chunk then Err unavailable else read_chunks (bytes ++ chunk) rest
  end.
(** [answer] is what a Router answers a request, [None] when the request fails. *)
Definition apply_policy (files : string -> option string) (answer : PolicyRequest -> option PolicyResponse)
    (router : RouterManagementConfig) (policy : SignedPolicy) : managed RouterStatus :=
  address ← returns (ok_or (address_join (rm_address router) "policy") unavailable);
  c ← client files;
  let request := mkPolicyRequest c address policy in
  response ← (fun s => (ok_or (answer request) unavailable, mkManaged (md_current s) (request :: md_sent s)));
  _ ← returns (ensure (negb (is_error_status (ps_status response))) unavailable);
  bytes ← returns (read_chunks "" (ps_chunks response));
  returns (ok_or (status_from_slice bytes) unavailable).
End Client.
Definition HttpsManagement_load `{Sha256, HttpsCrates} (config : RouterPolicyConfig) (files : string -> option string) : AppResult (HttpsManagement * Managed) :=
  let management :=
    mkHttpsManagement (rpc_management_ca_file config) (rpc_management_certificate_file config) (rpc_management_private_key_file config) in
  match client management files (mkManaged None []) with
  | (Ok _, s) => Ok (management, s)
  | (Err e, _) => Err e
  end.

(** ** Loading and ticks *)
Section Controller.
Context `{Encoding, Sha256, Ed25519, Ed25519Signing, HexDecode, Rfc3339Auto, Canonicalizer, PolicyJson, Collation, UrlParts, Pkcs8, Utf8, HttpsCrates}.
(** [now] is the clock read of [new]. *)
Definition RouterAdmissionController_load (organization_id : string) (config : RouterPolicyConfig) (namespace_prefix : string)
    (files : string -> option string) (now : instant) : AppResult (Controller * (HttpsManagement * Managed)) :=
  pem ← ok_or (bytes ← files (rpc_signing_key_file config); from_utf8 bytes) unavailable;
  signing_key ← ok_or (from_pkcs8_pem pem) unavailable;
  management ← HttpsManagement_load config files;
  controller ← RouterAdmissionController_new organization_id config namespace_prefix signing_key now;
  Ok (controller, management).
(** One turn of [run]: a tick reconciles, and an error is only logged.  [None] is the shutdown. *)
Record Tick := mkTick { tk_clock : ControllerClock; tk_others : Others; tk_management : RouterManagementConfig -> SignedPolicy -> AppResult RouterStatus; tk_timed_out : bool }.
Fixpoint run_controller (self : Controller) (events : list (option Tick)) (db : Database) (health : RouterPolicyHealth) : Database * RouterPolicyHealth :=
  match events with
  | [] => (db, health)
  | None :: _ => (db, health)
  | Some t :: rest =>
      let '((_, db'), health') := reconcile self (tk_clock t) (tk_others t) (tk_management t) (tk_timed_out t) db in
      run_controller self rest db' health'
  end.
End Controller.

(** ** Current credentials *)
Section Credentials.
Context `{Sha256, !Sha256Spec, HttpsCrates}.
Context (self : HttpsManagement).
(** Texts whose digests are distinct: those that are hashed while the Controller runs. *)
Context (hashed : string -> Prop) (collision_free : forall x y, hashed x -> hashed y -> sha256 x = sha256 y -> x = y).
(** The credentials that are on disk. *)
Definition on_disk (files : string -> option string) (roots identity : string) : Prop :=
  exists certificate key, files (hm_ca_file self) = Some roots /\ files (hm_certificate_file self) = Some certificate /\
    files (hm_private_key_file self) = Some key /\ identity = certificate ++ key.
Definition digests_distinct (files : string -> option string) : Prop :=
  forall roots identity, on_disk files roots identity -> hashed roots /\ hashed (sha256 roots ++ identity).
Inductive managed_reaches : Managed -> Prop :=
| reaches_start : managed_reaches (mkManaged None [])
| reaches_load files s r s' : managed_reaches s -> digests_distinct files -> client self files s = (r, s') -> managed_reaches s'
| reaches_apply files answer router policy s r s' : managed_reaches s -> digests_distinct files ->
    apply_policy self files answer router policy s = (r, s') -> managed_reaches s'.
(** The cached client was built from the texts its digest is of. *)
Definition cache_inv (s : Managed) : Prop :=
  forall c, md_current s = Some c -> exists roots identity, hashed roots /\ hashed (sha256 roots ++ identity) /\
    mc_material c = client_material roots identity /\ build_client roots identity = Ok (mc_client c).
Lemma client_material_inj r i r' i' : hashed r -> hashed (sha256 r ++ i) -> hashed r' -> hashed (sha256 r' ++ i') ->
  client_material r i = client_material r' i' -> r = r' /\ i = i'.
Proof.
  intros Hr Hi Hr' Hi' E. apply collision_free in E; [|done..]. apply string_app_split in E as [E ->].
  2:{ pose proof (sha256_length r) as L1. pose proof (sha256_length r') as L2. unfold str_len in *. lia. }
  split; [by apply collision_free|done].
Qed.
(** A client that is given out is the one of the credentials on disk; without one, none is kept. *)
Lemma client_run files s r s' : cache_inv s -> digests_distinct files -> client self files s = (r, s') ->
  cache_inv s' /\ md_sent s' = md_sent s /\
  match r with
  | Ok c => exists roots identity, on_disk files roots identity /\ build_client roots identity = Ok c /\
      md_current s' = Some (mkManagementClient (client_material roots identity) c)
  | Err _ => md_current s' = None
  end.
Proof.
  intros Hinv Hd. unfold client, refresh, read_material.
  destruct (files (hm_ca_file self)) as [roots|] eqn:E1; simpl; [|by intros [= <- <-]].
  destruct (files (hm_certificate_file self)) as [cert|] eqn:E2; simpl; [|by intros [= <- <-]].
  destruct (files (hm_private_key_file self)) as [key|] eqn:E3; simpl; [|by intros [= <- <-]].
  assert (Hdisk : on_disk files roots (cert ++ key)) by (exists cert, key; done). pose proof (Hd _ _ Hdisk) as [Hr Hi].
  destruct (cached (client_material roots (cert ++ key)) (md_current s)) as [c|] eqn:Ec.
  - intros [= <- <-]. split_and!; [done..|]. unfold cached in Ec. destruct (md_current s) as [m|] eqn:Em; [|done]. simpl in Ec.
    destruct (String.eqb_spec (mc_material m) (client_material roots (cert ++ key))) as [Ex|]; [|done]. injection Ec as <-.
    destruct (Hinv m Em) as (r' & i' & Hr' & Hi' & Hm & Hb). rewrite Hm in Ex.
    apply client_material_inj in Ex as [-> ->]; [|done..]. exists roots, (cert ++ key). split_and!; [done..|].
    by rewrite <- Hm; destruct m.
  - destruct (build_client roots (cert ++ key)) as [c|e] eqn:Eb; intros [= <- <-]; [|by split_and!].
    split_and!; [|done|by exists roots, (cert ++ key)]. intros m [= <-]. by exists roots, (cert ++ key).
Qed.
Lemma read_chunks_bounded bytes chunks out : str_len bytes <= MAX_RESPONSE_BYTES -> read_chunks bytes chunks = Ok out -> str_len out <= MAX_RESPONSE_BYTES.
Proof.
  revert bytes. induction chunks as [|[c|] rest IH]; intros bytes Hb; simpl; [intros [= <-]; done| |done].
  destruct (Z.ltb_spec MAX_RESPONSE_BYTES (str_len bytes + str_len c)); [done|]. apply IH. rewrite str_len_app. lia.
Qed.
(** What one call sends and answers. *)
Definition call_outcome (files : string -> option string) (answer : PolicyRequest -> option PolicyResponse)
    (router : RouterManagementConfig) (policy : SignedPolicy) (s s' : Managed) (r : AppResult RouterStatus) : Prop :=
  (md_sent s' = md_sent s /\ exists e, r = Err e) \/
  exists q roots identity, md_sent s' = q :: md_sent s /\ pq_policy q = policy /\ address_join (rm_address router) "policy" = Some (pq_address q) /\
    on_disk files roots identity /\ build_client roots identity = Ok (pq_client q) /\
    forall status, r = Ok status -> exists response bytes, answer q = Some response /\ is_error_status (ps_status response) = false /\
      read_chunks "" (ps_chunks response) = Ok bytes /\ str_len bytes <= MAX_RESPONSE_BYTES /\ status_from_slice bytes = Some status.
Lemma apply_policy_run files answer router policy s r s' : cache_inv s -> digests_distinct files ->
  apply_policy self files answer router policy s = (r, s') -> cache_inv s' /\ call_outcome files answer router policy s s' r /\
    (forall c, address_join (rm_address router) "policy" <> None -> md_current s' = Some c ->
       exists roots identity, on_disk files roots identity /\ build_client roots identity = Ok (mc_client c)).
Proof.
  intros Hinv Hd. unfold apply_policy, mbind, repo_bind, returns. unfold ok_or at 1.
  destruct (address_join (rm_address router) "policy") as [address|] eqn:Ea; simpl; [|intros [= <- <-]; split_and!; [done|left; eauto|done]].
  destruct (client self files s) as [rc s1] eqn:Ec. destruct (client_run files s rc s1 Hinv Hd Ec) as (Hinv1 & Hs1 & Hc).
  destruct rc as [c|e]; [|intros [= <- <-]; split_and!; [done|left; eauto|intros m _ Hm; congruence]].
  destruct Hc as (roots & identity & Hdisk & Hb & Hcur). set (q := mkPolicyRequest c address policy).
  set (s2 := mkManaged (md_current s1) (q :: md_sent s1)). intros Hrun.
  assert (s' = s2) as ->. { unfold ensure in Hrun. repeat case_match; simplify_eq/=; done. }
  split_and!; [done| |intros m _ Hm; cbn [s2 md_current] in Hm; rewrite Hcur in Hm; injection Hm as <-; eauto].
  right. exists q, roots, identity. cbn [s2 md_sent q pq_policy pq_address pq_client]. rewrite Hs1. split_and!; try done.
  intros status ->. fold q in Hrun. destruct (answer q) as [response|]; [|done]. simpl in Hrun.
  destruct (is_error_status (ps_status response)) eqn:Es; [done|]. simpl in Hrun.
  destruct (read_chunks "" (ps_chunks response)) as [bytes|] eqn:Er; [|done]. simpl in Hrun.
  destruct (status_from_slice bytes) as [st|] eqn:Est; [|done]. injection Hrun as <-. exists response, bytes. split_and!; try done.
  eapply (read_chunks_bounded ""); [|done]. by vm_compute.
Qed.
Lemma managed_reaches_inv s : managed_reaches s -> cache_inv s.
Proof.
  induction 1 as [|files s r s' _ IH Hd Hc|files answer router policy s r s' _ IH Hd Ha]; [done| |].
  - by apply (client_run files s r s').
  - by apply (apply_policy_run files answer router policy s r s').
Qed.
(** Policies travel under current credentials.  However the credential files changed before and whatever was answered, a call
    sends at most one request: the policy, to the management address of the Router, by a client that only trusts the roots and
    presents the identity that are on disk at that moment, over HTTPS, without proxy or redirects and within its timeouts.  A
    status is read from a response that is no error, of at most 64 KiB.  Credentials that cannot be read or used leave no client
    behind for the next call, and neither does an identity or a root that was replaced. *)
Theorem policies_travel_under_current_credentials files answer router policy s r s' : managed_reaches s -> digests_distinct files ->
  apply_policy self files answer router policy s = (r, s') ->
  call_outcome files answer router policy s s' r /\
  (forall q, head (md_sent s') = Some q -> md_sent s' <> md_sent s ->
     hc_https_only (pq_client q) = true /\ hc_follows_redirects (pq_client q) = false /\ hc_uses_proxy (pq_client q) = false /\
     hc_roots (pq_client q) <> [] /\ hc_timeout (pq_client q) = seconds 20) /\
  (forall c, address_join (rm_address router) "policy" <> None -> md_current s' = Some c ->
     exists roots identity, on_disk files roots identity /\ build_client roots identity = Ok (mc_client c)).
Proof.
  intros Hs Hd Ha. destruct (apply_policy_run files answer router policy s r s' (managed_reaches_inv s Hs) Hd Ha) as (_ & Ho & Hc).
  split_and!; [done| |done]. intros q Hq Hne. destruct Ho as [[E _]|(q' & roots & identity & E & _ & _ & _ & Hb & _)]; [done|].
  rewrite E in Hq. injection Hq as <-. unfold build_client in Hb. res_inv Hb. bools. rewrite <- Hb. simpl. by split_and!.
Qed.
End Credentials.

(** ** A rotation *)
Module ClientToy.
Definition digest (c : ascii) : string := string_of_list_ascii (replicate 32 c).
#[local] Instance toy_sha : Sha256 := fun s => if String.eqb s "roots" then digest "r" else if String.eqb s (digest "r" ++ "certkey") then digest "c" else digest "x".
#[local] Instance toy_sha_spec : Sha256Spec.
Proof. intros s. unfold sha256, toy_sha. by repeat case_match. Qed.
#[local] Instance toy_crates : HttpsCrates := {
  from_pem_bundle s := Some [s]; identity_from_pem s := Some s; builds _ := true; address_join a p := Some (a ++ p);
  status_from_slice s := if String.eqb s "ready" then Some (mkRouterStatus None None None true s) else None }.
Definition hashed (s : string) : Prop := s = "roots" \/ s = digest "r" ++ "certkey" \/ s = digest "r" ++ "cert2key".
Definition paths : HttpsManagement := mkHttpsManagement "ca" "cert" "key".
Definition disk (certificate path : string) : option string :=
  if String.eqb path "ca" then Some "roots" else if String.eqb path "cert" then Some certificate else if String.eqb path "key" then Some "key" else None.
Definition answers (q : PolicyRequest) : option PolicyResponse := Some (mkPolicyResponse 200 [Some "rea"; Some "dy"]).
Definition router : RouterManagementConfig := mkRouterManagement "r1" "https://r1/".
Lemma distinct : forall x y, hashed x -> hashed y -> sha256 x = sha256 y -> x = y.
Proof. by intros x y [->|[->| ->]] [->|[->| ->]]. Qed.
Lemma toy_distinct certificate : certificate = "cert" \/ certificate = "cert2" -> digests_distinct paths hashed (disk certificate).
Proof. unfold hashed. intros Hc roots identity (cert & key & [= <-] & [= <-] & [= <-] & ->). destruct Hc as [-> | ->]; split; auto. Qed.
Definition policy : SignedPolicy := mkSignedPolicy (mkPolicy 1 "f" 1 0 0 1 "ns" [] []) "s".
(** The first call caches a client; after the certificate was replaced the second uses the new one. *)
Lemma policies_travel_under_current_credentials_witness :
  exists s r s', managed_reaches paths hashed s /\ apply_policy paths (disk "cert2") answers router policy s = (r, s') /\ is_ok r = true /\
    call_outcome paths (disk "cert2") answers router policy s s' r.
Proof.
  exists (apply_policy paths (disk "cert") answers router policy (mkManaged None [])).2. eexists _, _.
  assert (Hr : managed_reaches paths hashed (apply_policy paths (disk "cert") answers router policy (mkManaged None [])).2).
  { eapply (reaches_apply _ _ (disk "cert")); [apply reaches_start|apply toy_distinct; auto|apply surjective_pairing]. }
  split_and!; [done|apply surjective_pairing|by vm_compute|].
  apply (policies_travel_under_current_credentials paths hashed distinct (disk "cert2") answers router policy _ _ _ Hr);
    [apply toy_distinct; auto|apply surjective_pairing].
Defined.
End ClientToy.
